(* ===== verification/_CoqProject ===== *)
-Q . S2P
Prelude.v
GoLib.v
GoValue.v
GoJSON.v
GoHTTP.v
TopicMatch.v
Actor.v
TopicStore.v
KVStore.v
Will.v
Persistent.v
Offline.v
Messages.v
Retainer.v
Session.v
Wire.v
Auth.v
Blacklist.v
Cluster.v
BrokerState.v
BrokerConn.v
BrokerProps.v
BrokerRouting.v
BrokerProtocol.v
BrokerEnds.v
RuleSQL.v
RuleParse.v
RulePrint.v
RuleRoundTrip.v
RuleEval.v
Connector.v
ConnHTTP.v
ConnProps.v
ConnManager.v
ConnDrivers.v
ConnRegistry.v
ConnDriversProps.v
RuleEngine.v
RuleEngineProps.v
RuleBroker.v
Mria.v
Replication.v
ReplicationProps.v
MriaServer.v
MriaProps.v
Integration.v
IntegrationEngine.v
IntegrationProps.v
KafkaBridge.v
Metrics.v
MetricsProps.v
Health.v
HealthProps.v
Config.v
ConfigProps.v
Certs.v
CertsProps.v
Discovery.v
Admin.v
AdminProps.v
Dashboard.v
DashboardAPI.v
DashboardProps.v
StructJSON.v
StructJSONProps.v
Startup.v
