(* ===== verification/Prelude.v ===== *)
(** * emqx-go: a verification development

    emqx-go is an MQTT broker in Go (src/).  Clients connect over TCP or TLS; each connection
    is served by a loop in pkg/broker that reads packets and handles them.  A publish is
    routed through the topic store to the mailboxes of session actors, which write PUBLISH
    packets to their clients; it is also stored if retained, queued for persistent clients
    that are offline, handed to the rule and integration engines, and forwarded to
    cluster peers that announced the topic.  This library models these parts as executable
    definitions, one file per component, and proves what makes them correct.

    ** Components and files

    - Prelude: notation, tactics, the outcome of a call, loops with early return, loops over
      maps.  GoLib: machine integers, byte strings, package strings, time, runes and dates.
    - TopicMatch: the five topic matchers of pkg/topic, pkg/storage/messages, pkg/retainer,
      pkg/blacklist and pkg/persistent, and the MQTT rule [mqtt_match].
    - Actor: mailboxes (pkg/actor) and the supervisor's monitor loop (pkg/supervisor).
    - TopicStore: regular and shared subscriptions and the lookup (pkg/topic/store.go).
    - KVStore: the storage interface as a class with laws, and MemStore (pkg/storage/store.go).
    - Will, Persistent, Offline: will messages and timers, the session manager, offline
      queues (pkg/persistent/will.go, session.go, offline.go).
    - Messages, Retainer: the message storage with its in-memory backend
      (pkg/storage/messages), retained messages (pkg/retainer).
    - Session: the session actor and its PUBLISH encoder (pkg/session).
    - Wire: the codec of pkg/protocol/mqtt.
    - Auth, Blacklist: pkg/auth (chain and in-memory users), pkg/blacklist (manager and
      middleware).
    - Cluster: peers, remote routes and forwards (pkg/cluster/manager.go, server.go).
    - BrokerState: the broker's state, the effect monad, registration, duplicate check,
      routing, wills, offline delivery (pkg/broker/broker.go).
    - BrokerConn: the connection functions of plain and TLS connections with a handler per
      packet type, and readPacket and writePacket (pkg/broker/broker.go).
    - BrokerProps, BrokerRouting, BrokerProtocol, BrokerEnds: theorems about the broker.
    - GoValue, GoJSON: errors, dynamic values, runes, number texts; JSON trees and decoding
      into structs.
    - RuleSQL, RuleParse, RulePrint, RuleRoundTrip, RuleEval: the SQL-like conditions of rules
      (pkg/rules/sql.go), their parser, printer and evaluation.
    - RuleEngine, RuleEngineProps, RuleBroker: rules, actions and metrics (pkg/rules/engine.go,
      actions.go), and the recursion between rule engine and broker.
    - Connector, ConnHTTP, ConnProps, ConnManager: base connector and manager, the HTTP
      connector (pkg/connector/base.go, connector.go, http.go); a connector is a class with
      laws, against which the manager is proved and which the HTTP connector satisfies.
    - ConnDrivers, ConnRegistry, ConnDriversProps: the Redis, MySQL, PostgreSQL and Kafka
      connectors over a class per client library, and the registry with the default manager
      (pkg/connector/redis.go, mysql.go, postgresql.go, kafka.go, registry.go).
    - Mria: node tables and leader election (pkg/mria/manager.go).  Replication,
      ReplicationProps: the replicated tables and their log (replication.go).  MriaServer,
      MriaProps: the node with its broker callbacks and its cluster server (integration.go,
      server.go).
    - Integration, IntegrationEngine, IntegrationProps: data processors over a store of shared
      maps (pkg/integration/processors.go), bridges (engine.go).  KafkaBridge: the Kafka
      connector of bridges and its consuming goroutines (kafka_connector.go).
    - Metrics, MetricsProps: counters as atomic instructions of interleaved goroutines
      (pkg/metrics).  Health, HealthProps: checks, status and HTTP answers (pkg/monitor).
    - Config, ConfigProps: configuration files, the set-up of authentication and the tool
      emqx-user (pkg/config, cmd/emqx-user).  Certs, CertsProps: certificates, TLS settings and
      the certificate authenticator (pkg/tls, pkg/auth/x509).
    - Discovery: peers from Kubernetes and from the environment, and the goroutines that
      connect them (pkg/discovery, cmd/emqx-go, pkg/cluster).
    - GoHTTP: requests, response writers and the request multiplexer of net/http.  Admin,
      AdminProps: the management interface over a class that the broker implements
      (pkg/admin).  Dashboard, DashboardAPI, DashboardProps: the web interface (pkg/dashboard).
      StructJSON, StructJSONProps: rules and connectors as JSON (pkg/rules/engine.go,
      pkg/connector/connector.go).
    - Startup: [main] and the running process, accept loops, connection locks, the client of
      a peer, [Broker.Close] (cmd/emqx-go, pkg/broker, pkg/cluster/client.go).

    ** How code is represented

    A struct is a record with the source's field names (prefixed where two structs share one),
    an enum an inductive type, a map a gmap, a slice a list, a pointer to a mailbox an
    optional number.  An integer is a Z, with its wrap-around written out where the code
    can reach it (16-bit packet identifiers and aliases, 64-bit hashes and sequence numbers,
    single-byte lengths).  The clock is an argument.  An operation takes the state and
    returns its result and the new state; one that can panic, or wait for a lock that its own
    goroutine holds, returns an [outcome] ([Returns], [Panics] or [Blocks]).  Errors are
    values of option or sum types; an error that the code only logs is dropped where the code
    drops it.  Broker operations are functions of the monad [BM]: they thread the broker's
    state and list their effects in order (messages to mailboxes, packets written, calls to
    peers, goroutines started).  The goroutines run later as operations of their own
    ([runTask]).  A loop over a Go map runs in the fixed order of [map_to_list]; what such a
    loop collects is characterised by membership and multiplicity, not by order.

    Objects that the code shares and changes in place live in a store: blacklist entries, rules,
    the maps of the data processors; the record a Mria node has of itself is a pointer in its
    node tables.  The replication channel is a list of at most 1000 entries; a sender that
    finds it full waits for a round of the loop.

    Third-party code is an argument of the definitions that use it: regular expressions,
    CIDR tests, SHA-256 and bcrypt, floating point and Unicode tables, HTTP requests, the text
    of JSON, YAML and times (classes [SessionCodec], [JSONText] and [ConfigText] with their
    laws), the packet decoders of the MQTT library, the client libraries of Redis, SQL and Kafka
    (classes), certificates and templates, and whether a socket accepts a write.  Every law is
    met by a concrete instance that the witnesses use.

    ** What the theorems show

    - Routing: the matchers meet the MQTT rule; the topic store keeps its invariant, implements
      a table of granted subscriptions, returns exactly the matching ones, and shares
      fairly; a publish sends exactly one message per receiver; it crosses the cluster in
      one hop; a granted SUBSCRIBE makes later publishes arrive, at the client or, under a
      shared filter, at the member of its group whose turn it is.
    - Admission: nothing happens before an admitted CONNECT, and admission requires the
      blacklist's and the authenticators' consent; takeover; duplicate suppression.
    - Sessions: what survives a disconnection and a restart, what a clean session forgets,
      the bounded offline queue and its delivery, packet identifiers, expiry.
    - Codecs: the bytes of the session actor and of the codec package read back.
    - Rules: the parser terminates on every input and reads back what the printer writes; the
      engine implements a map of rules and runs the enabled ones in order of priority.
    - Connectors: the manager is well typed over any connector; what creation refuses; what
      latency and batch figures mean; every batch is answered message by message; a restart
      keeps a closed client.
    - Replication: replicas that apply the log of a core node converge to its tables
      ([replica_converges]); local routes refine the clients' subscriptions; what a leave
      removes; elections are exact.
    - Integration: the invariant of the engine in every run, which bridges get a message; a
      message through Kafka and back.
    - Management: counters are exact under any interleaving; the user tool implements a table
      of users and the chain made from its file accepts exactly these; which certificates are
      accepted; pages partition a listing; a block made through the interface is enforced, also
      after operations that do not touch it;
      nothing of the dashboard works without credentials or the fixed cookie; a posted rule
      reads back; the goroutines that connect peers come to an end, but for those that wait for
      a silent peer, and enter the peers that accept.
    - The whole: [broker_never_panics] by rule induction over [reachable], any interleaving of
      packets, goroutines, timers and clean-up ticks.
    - Defects: some theorems state behaviour that the code should not have (a will that
      blocks its own connection, clean-up that evicts a successor, early returns that skip the
      clean-up, aliases that cannot be used, retained messages for refused filters, a rule that
      triggers itself, a health check that deadlocks, replication messages that no server
      recognises, core nodes that all lead, a payload of null that ends the process, a refused
      update that lifts a block, passwords that certificates make irrelevant, rules of the
      dashboard that no message meets, dials of silent peers that accumulate).

    ** Bounds and termination

    Loops over slices and maps are structural.  [subscribeLoop] (Wire) and [varintLoop]
    (Session) recurse on fuel: the bytes left in the packet, which every round shortens, and
    the value, which every round divides by 128; their theorems show that it is enough.
    [readIterator] (Messages) is given the number of messages that are left, and
    [GetMessages_spec] shows that it reads all that is asked for.  [matchTopicLevels]
    (TopicMatch) is defined by well-founded recursion.  [parseExpression] (RuleSQL) has fuel for
    one call more than the text has bytes; the number of ASCII bytes decreases with every
    call ([parse_terminates]).  [routeWithQoS] (RuleBroker) is indexed by the depth of the
    stack.  [sprint] and [toJSON] (Integration) follow one reference more than there are
    maps: to need more is to go round a cycle, where Go overflows the stack or reports an
    error.  Sorting rules is given the number of rules; [batchLoop] (ConnDrivers) the number of
    messages, of which every round takes one at least ([sql_batch_answers]).  A
    goroutine that connects a peer has at most two steps ([peer_round_exact]).

    ** What is not modelled

    - Operations are atomic: each is one critical section of the code, or a sequence of them
      with the other goroutines' effect as an argument where it matters
      ([CreateOrResumeSession], [AddPeer]).  Data races are out of scope, and so is a
      publisher that waits for a full mailbox: routing lists its sends as effects.
      A call that blocks has no further steps in [reachable].
    - Statistics that nothing reads back, log output, and read deadlines (a time-out is a
      result of a read).
    - Sockets, listeners, signals and the contents of templates: their answers are arguments.
      The maps inside the configuration of a bridge are written by parameters.
    - pkg/clustermon, which does not compile (an unused variable and an unused import) and which
      nothing imports; the generated code of pkg/proto; the fuzzers under fuzzing/ and
      defensics/; the test helpers, load tests, migration and demonstration commands (cmd/chaos-cli,
      cmd/chaos-dashboard, cmd/cluster-test, cmd/dashboard-demo, tools/, examples/), which
      drive the broker from outside or are not part of it. *)

From stdpp Require Export base tactics options list gmap strings fin_maps pretty.
From Stdlib Require Export ZArith Lia.

#[export] Set Default Goal Selector "!".

(** ** Notations *)

Declare Scope emqx_scope.
Delimit Scope emqx_scope with emqx.

(** Boolean equality on Go strings, as [==] is written in the source. *)
Notation "a =s b" := (bool_decide (a = b :> string)) (at level 70) : emqx_scope.
Notation "a <>s b" := (negb (bool_decide (a = b :> string))) (at level 70) : emqx_scope.

(** ** Hint databases *)

Create HintDb emqx.
Create Rewrite HintDb emqx_rw.

(** ** Tactics *)

(** Turn every boolean test of the context and the goal into a proposition. *)
Ltac bool_prop :=
  repeat match goal with
  | H : andb _ _ = true |- _ => apply andb_true_iff in H; destruct H
  | H : orb _ _ = false |- _ => apply orb_false_iff in H; destruct H
  | H : negb _ = true |- _ => apply negb_true_iff in H
  | H : negb _ = false |- _ => apply negb_false_iff in H
  | H : bool_decide _ = true |- _ => apply bool_decide_eq_true_1 in H
  | H : bool_decide _ = false |- _ => apply bool_decide_eq_false_1 in H
  | H : Z.ltb _ _ = true |- _ => apply Z.ltb_lt in H
  | H : Z.ltb _ _ = false |- _ => apply Z.ltb_ge in H
  | H : Z.leb _ _ = true |- _ => apply Z.leb_le in H
  | H : Z.leb _ _ = false |- _ => apply Z.leb_gt in H
  | H : Z.eqb _ _ = true |- _ => apply Z.eqb_eq in H
  | H : Z.eqb _ _ = false |- _ => apply Z.eqb_neq in H
  | H : Nat.ltb _ _ = true |- _ => apply Nat.ltb_lt in H
  | H : Nat.ltb _ _ = false |- _ => apply Nat.ltb_ge in H
  | H : Nat.leb _ _ = true |- _ => apply Nat.leb_le in H
  | H : Nat.leb _ _ = false |- _ => apply Nat.leb_gt in H
  | H : Nat.eqb _ _ = true |- _ => apply Nat.eqb_eq in H
  | H : Nat.eqb _ _ = false |- _ => apply Nat.eqb_neq in H
  end.

(** Split on the [if]s and [match]es of the goal, keeping the tests as propositions. *)
Ltac split_ifs := repeat case_match; bool_prop; simplify_eq/=.

(** ** How a call ends

    A Go call returns, panics, or waits for ever on a lock that its own goroutine holds. *)
Inductive outcome (A : Type) :=
  | Returns (a : A)
  | Panics
  | Blocks.
Arguments Returns {_} _.
Arguments Panics {_}.
Arguments Blocks {_}.

Definition outcome_bind {A B} (o : outcome A) (k : A → outcome B) : outcome B :=
  match o with
  | Returns a => k a
  | Panics => Panics
  | Blocks => Blocks
  end.

Notation "'let!' x := o 'in' k" := (outcome_bind o (λ x, k))
  (at level 10, x name, o at level 200, k at level 200) : emqx_scope.
Notation "'let!' ' x := o 'in' k" := (outcome_bind o (λ x, k))
  (at level 10, x strict pattern, o at level 200, k at level 200) : emqx_scope.

Lemma outcome_bind_Returns {A B} (o : outcome A) (k : A → outcome B) b :
  outcome_bind o k = Returns b ↔ ∃ a, o = Returns a ∧ k a = Returns b.
Proof. destruct o; simpl; split; try done; [eauto|..]; by intros (? & [= <-] & ?). Qed.

(** ** Bounded loops with early return

    [go_for n i body] is the Go loop [for j := i; j < i+n; j++ { ... }] whose body
    either returns from the enclosing function ([Some r]) or goes on ([None]). *)
Fixpoint go_for {R} (n i : nat) (body : nat → option R) : option R :=
  match n with
  | O => None
  | S n' =>
      match body i with
      | Some r => Some r
      | None => go_for n' (S i) body
      end
  end.

Lemma go_for_S {R} n i (body : nat → option R) :
  go_for (S n) i body =
  match body i with Some r => Some r | None => go_for n (S i) body end.
Proof. done. Qed.

Lemma go_for_ext {R} n i (b1 b2 : nat → option R) :
  (∀ j, i ≤ j < i + n → b1 j = b2 j) → go_for n i b1 = go_for n i b2.
Proof.
  revert i. induction n as [|n IH]; intros i Hb; [done|].
  rewrite !go_for_S, (Hb i) by lia. case_match; [done|].
  apply IH. intros j Hj. apply Hb. lia.
Qed.

(** Shifting the counter: the loop from [1] over [body] is the loop from [0] over the
    body of the next index. *)
Lemma go_for_shift {R} n i (body : nat → option R) :
  go_for n (S i) body = go_for n i (λ j, body (S j)).
Proof.
  revert i. induction n as [|n IH]; intros i; [done|].
  rewrite !go_for_S. case_match; [done|]. apply IH.
Qed.

Lemma go_for_None {R} n i (body : nat → option R) :
  go_for n i body = None ↔ ∀ j, i ≤ j < i + n → body j = None.
Proof.
  revert i. induction n as [|n IH]; intros i.
  { split; [intros _ j Hj; lia|done]. }
  rewrite go_for_S. split.
  - intros H j Hj. destruct (body i) eqn:E; [done|].
    destruct (decide (j = i)) as [->|]; [done|].
    apply (proj1 (IH (S i)) H). lia.
  - intros H. rewrite (H i) by lia. apply IH. intros j Hj. apply H. lia.
Qed.

(** The loop returns at its first index that returns. *)
Lemma go_for_Some {R} n i (body : nat → option R) r :
  go_for n i body = Some r →
  ∃ j, i ≤ j < i + n ∧ body j = Some r ∧ ∀ j', i ≤ j' < j → body j' = None.
Proof.
  revert i. induction n as [|n IH]; intros i; [done|].
  rewrite go_for_S. destruct (body i) eqn:E.
  - intros [= <-]. exists i. split_and!; [lia|lia|done|lia].
  - intros (j & Hj & Hb & Hn)%IH. exists j. split_and!; [lia|lia|done|].
    intros j' Hj'. destruct (decide (j' = i)) as [->|]; [done|]. apply Hn. lia.
Qed.

(** ** Ranging over a map

    [go_range body m s] is [for k, v := range m { s = body(k, v, s) }].  Go leaves the
    iteration order open; the model fixes the order of [map_to_list], and the theorems
    about what such a loop collects are stated up to permutation or by membership. *)
Definition go_range {K V S} `{Countable K} (body : K → V → S → S) (m : gmap K V) (s : S) : S :=
  foldl (λ s kv, body kv.1 kv.2 s) s (map_to_list m).

Lemma go_range_ext {K V S} `{Countable K} (b1 b2 : K → V → S → S) (m : gmap K V) (s : S) :
  (∀ k v acc, b1 k v acc = b2 k v acc) → go_range b1 m s = go_range b2 m s.
Proof.
  intros Hb. unfold go_range. revert s. induction (map_to_list m) as [|[k v] l IH]; intros s; [done|].
  simpl. by rewrite Hb, IH.
Qed.

(** A loop that only rewrites ([Some]) or deletes ([None]) the current key. *)
Definition range_step {K V} `{Countable K} (f : K → V → option V) (k : K) (v : V)
    (acc : gmap K V) : gmap K V :=
  match f k v with
  | Some v' => <[k := v']> acc
  | None => delete k acc
  end.

Section go_range.
Context `{Countable K} {V : Type}.
Implicit Types (m acc : gmap K V) (f : K → V → option V).

Lemma foldl_range_step_notin f (l : list (K * V)) acc k :
  k ∉ l.*1 → foldl (λ a kv, range_step f kv.1 kv.2 a) acc l !! k = acc !! k.
Proof.
  revert acc. induction l as [|[k' v'] l IH]; intros acc Hk; [done|]. simpl.
  rewrite fmap_cons in Hk. apply not_elem_of_cons in Hk as [Hne Hk].
  rewrite IH by done. unfold range_step; simpl in *. case_match.
  - by rewrite lookup_insert_ne.
  - by rewrite lookup_delete_ne.
Qed.

Lemma foldl_range_step_in f (l : list (K * V)) acc k v :
  NoDup l.*1 → (k, v) ∈ l →
  foldl (λ a kv, range_step f kv.1 kv.2 a) acc l !! k = f k v.
Proof.
  revert acc. induction l as [|[k' v'] l IH]; intros acc Hnd Hin.
  { by apply not_elem_of_nil in Hin. }
  rewrite fmap_cons in Hnd. apply NoDup_cons in Hnd as [Hnotin Hnd]. simpl in *.
  apply elem_of_cons in Hin as [[= <- <-]|Hin]; [|by apply IH].
  rewrite foldl_range_step_notin by done. unfold range_step. case_match eqn:E.
  - by rewrite lookup_insert_eq.
  - by rewrite lookup_delete_eq.
Qed.

(** Such a loop computes [map_imap]: every entry is treated once, on its own. *)
Lemma go_range_imap f m : go_range (range_step f) m m = map_imap f m.
Proof.
  apply map_eq; intros k. unfold go_range. rewrite map_lookup_imap.
  destruct (m !! k) as [v|] eqn:E; simpl.
  - apply foldl_range_step_in; [apply NoDup_fst_map_to_list|].
    by apply elem_of_map_to_list.
  - rewrite foldl_range_step_notin; [done|].
    intros ([k' v'] & Hk & Hin)%list_elem_of_fmap. simpl in Hk; subst k'.
    apply elem_of_map_to_list in Hin. congruence.
Qed.
End go_range.
#[export] Hint Rewrite @go_range_imap : emqx_rw.

(** ** Filling a map from another

    [for k, v := range m { if ... { acc[k] = g(k, v) } }]. *)
Definition range_fill {K V W} `{Countable K} (g : K → V → option W) (k : K) (v : V)
    (acc : gmap K W) : gmap K W :=
  match g k v with Some w => <[k := w]> acc | None => acc end.

Lemma go_range_fill {K V W} `{Countable K} (g : K → V → option W) (m : gmap K V) (acc : gmap K W) n :
  go_range (range_fill g) m acc !! n =
  match m !! n ≫= g n with Some w => Some w | None => acc !! n end.
Proof.
  unfold go_range. rewrite <-(list_to_map_to_list m) at 2.
  pose proof (NoDup_fst_map_to_list m) as Hnd. revert acc Hnd.
  induction (map_to_list m) as [|[k v] l IH]; intros acc Hnd; [done|]. csimpl in *.
  apply NoDup_cons in Hnd as [Hk Hnd]. rewrite (IH _ Hnd). unfold range_fill.
  destruct (decide (n = k)) as [->|Hne].
  - rewrite lookup_insert_eq. simpl. rewrite (not_elem_of_list_to_map_1 _ _ Hk). simpl.
    destruct (g k v); [by rewrite lookup_insert_eq|done].
  - rewrite (lookup_insert_ne _ k n) by done. destruct (list_to_map l !! n ≫= g n); [done|].
    destruct (g k v); [by rewrite lookup_insert_ne|done].
Qed.

(** ** Collecting over a map

    [for k, v := range m { if c(k, v) { out = append(out, g(k, v)...) } }]. *)
Definition range_collect {K V A} `{Countable K} (c : K → V → bool) (g : K → V → list A)
    (m : gmap K V) : list A :=
  flat_map (λ kv, if c kv.1 kv.2 then g kv.1 kv.2 else []) (map_to_list m).

Section range_collect.
Context `{Countable K} {V A : Type}.
Implicit Types (m : gmap K V) (c : K → V → bool) (g : K → V → list A).

Lemma go_range_collect c g m acc :
  go_range (λ k v out, if c k v then out ++ g k v else out) m acc =
  acc ++ range_collect c g m.
Proof.
  unfold go_range, range_collect. generalize (map_to_list m) as l. intros l.
  revert acc. induction l as [|[k v] l IH]; intros acc; simpl; [by rewrite app_nil_r|].
  rewrite IH. case_match; [by rewrite <-app_assoc|done].
Qed.

Lemma elem_of_range_collect c g m x :
  x ∈ range_collect c g m ↔ ∃ k v, m !! k = Some v ∧ c k v = true ∧ x ∈ g k v.
Proof.
  unfold range_collect. rewrite list_elem_of_In, in_flat_map. split.
  - intros ([k v] & Hin & Hx). apply list_elem_of_In in Hin, Hx.
    apply elem_of_map_to_list in Hin. simpl in Hx. case_match; [eauto|].
    by apply not_elem_of_nil in Hx.
  - intros (k & v & Hk & Hc & Hx). exists (k, v). rewrite <-!list_elem_of_In. simpl.
    rewrite Hc. split; [by apply elem_of_map_to_list|done].
Qed.
End range_collect.

Lemma bool_decide_true {P : Prop} `{Decision P} : P → bool_decide P = true.
Proof. apply bool_decide_eq_true_2. Qed.
Lemma bool_decide_false {P : Prop} `{Decision P} : ¬ P → bool_decide P = false.
Proof. apply bool_decide_eq_false_2. Qed.

Lemma existsb_true {A} (f : A → bool) (l : list A) :
  existsb f l = true ↔ ∃ x, x ∈ l ∧ f x = true.
Proof. rewrite existsb_exists. by setoid_rewrite list_elem_of_In. Qed.
Lemma existsb_false {A} (f : A → bool) (l : list A) :
  existsb f l = false ↔ ∀ x, x ∈ l → f x = false.
Proof.
  rewrite <-not_true_iff_false, existsb_true. split; [|intros Hf (x & Hx & Hfx); by rewrite Hf in Hfx].
  intros Hn x Hx. destruct (f x) eqn:E; [|done]. destruct Hn. eauto.
Qed.
