(* ===== verification/GoLib.v ===== *)
(** * GoLib: the parts of the Go language and its standard library the broker uses

    Machine integers with their wrap-around, bytes, the functions of package [strings]
    that the sources call, and time stamps.  Go strings are byte strings, modelled by
    [string]; [[]byte] is [list Byte.byte]. *)

From S2P Require Import Prelude.
From Stdlib Require String Strings.Byte.
Local Open Scope Z_scope.
Local Open Scope emqx_scope.

(** ** Machine integers *)

(** Conversion to an unsigned integer of the given width: [uint8(x)], [uint16(x)], ... *)
Definition u8 (z : Z) : Z := z mod 2 ^ 8.
Definition u16 (z : Z) : Z := z mod 2 ^ 16.
Definition u64 (z : Z) : Z := z mod 2 ^ 64.

(** Conversion to a signed 64-bit integer ([int], [int64]), two's complement. *)
Definition i64 (z : Z) : Z := (z + 2 ^ 63) mod 2 ^ 64 - 2 ^ 63.

Lemma i64_add_l a b : i64 (i64 a + b) = i64 (a + b).
Proof.
  unfold i64. replace ((a + 2 ^ 63) mod 2 ^ 64 - 2 ^ 63 + b + 2 ^ 63) with ((a + 2 ^ 63) mod 2 ^ 64 + b) by lia.
  rewrite Z.add_mod_idemp_l by lia. f_equal. f_equal. lia.
Qed.

Lemma i64_id z : - 2 ^ 63 ≤ z < 2 ^ 63 → i64 z = z.
Proof. intros. unfold i64. rewrite Z.mod_small; lia. Qed.

Lemma i64_i64 z : i64 (i64 z) = i64 z.
Proof. pose proof (i64_add_l z 0) as E. by rewrite !Z.add_0_r in E. Qed.

Lemma i64_range z : - 2 ^ 63 ≤ i64 z < 2 ^ 63.
Proof. unfold i64. pose proof (Z.mod_pos_bound (z + 2 ^ 63) (2 ^ 64)). lia. Qed.

Definition is_u8 (z : Z) : Prop := 0 ≤ z < 2 ^ 8.
Definition is_u16 (z : Z) : Prop := 0 ≤ z < 2 ^ 16.
Definition is_u64 (z : Z) : Prop := 0 ≤ z < 2 ^ 64.

(** ** Bytes *)

Abbreviation byte := Byte.byte.

(** [byte(z)]: the low eight bits. *)
Definition byte_of_Z (z : Z) : byte := default Byte.x00 (Byte.of_N (Z.to_N (z mod 256))).
Definition Z_of_byte (b : byte) : Z := Z.of_N (Byte.to_N b).

(** [[]byte(s)] and [string(b)] copy the bytes. *)
Definition bytes_of_string (s : string) : list byte := String.list_byte_of_string s.
Definition string_of_bytes (b : list byte) : string := String.string_of_list_byte b.

Definition blen {A} (l : list A) : Z := Z.of_nat (length l).

(** [binary.BigEndian.Uint16]. *)
Definition be16 (hi lo : byte) : Z := Z_of_byte hi * 256 + Z_of_byte lo.

(** [io.ReadFull] into a buffer of [n] bytes: the bytes read and the rest of the stream,
    or an error when the stream ends first. *)
Definition ReadFull (n : nat) (r : list byte) : option (list byte * list byte) :=
  if (length r <? n)%nat then None else Some (take n r, drop n r).

#[export] Instance byte_eq_dec : EqDecision byte := Byte.byte_eq_dec.

(** ** Package strings *)

(** The level separator of topics. *)
Definition slash : Ascii.ascii := Ascii.ascii_of_nat 47.

Module strings.
Definition append_head (a : Ascii.ascii) (ws : list string) : list string :=
  match ws with
  | [] => [String a EmptyString]
  | w :: ws' => String a w :: ws'
  end.

(** [strings.Split(s, sep)] for a one-byte separator. *)
Fixpoint Split (s : string) (sep : Ascii.ascii) : list string :=
  match s with
  | EmptyString => [EmptyString]
  | String a s' =>
      if bool_decide (a = sep) then EmptyString :: Split s' sep
      else append_head a (Split s' sep)
  end.

(** [strings.Join(ws, sep)] for a one-byte separator. *)
Fixpoint Join (ws : list string) (sep : Ascii.ascii) : string :=
  match ws with
  | [] => EmptyString
  | [w] => w
  | w :: ws' => (w ++ String sep (Join ws' sep))%string
  end.

(** [strings.Cut(s, sep)] for a one-byte separator. *)
Fixpoint Cut (s : string) (sep : Ascii.ascii) : option (string * string) :=
  match s with
  | EmptyString => None
  | String a s' =>
      if bool_decide (a = sep) then Some (EmptyString, s')
      else match Cut s' sep with
           | Some (w, r) => Some (String a w, r)
           | None => None
           end
  end.

(** [strings.SplitN(s, sep, n)] for a one-byte separator and [n >= 0]: at most [n]
    pieces, the last one unsplit. *)
Fixpoint SplitN (s : string) (sep : Ascii.ascii) (n : nat) : list string :=
  match n with
  | O => []
  | S O => [s]
  | S n' =>
      match Cut s sep with
      | Some (w, r) => w :: SplitN r sep n'
      | None => [s]
      end
  end.

Definition HasPrefix (s pre : string) : bool := String.prefix pre s.

Fixpoint HasSuffix (s suf : string) : bool :=
  (s =s suf) ||
  match s with
  | EmptyString => false
  | String _ s' => HasSuffix s' suf
  end.

Fixpoint Contains (s sub : string) : bool :=
  HasPrefix s sub ||
  match s with
  | EmptyString => false
  | String _ s' => Contains s' sub
  end.

Fixpoint ContainsByte (s : string) (c : Ascii.ascii) : bool :=
  match s with
  | EmptyString => false
  | String a s' => bool_decide (a = c) || ContainsByte s' c
  end.

(** [strings.ContainsAny(s, chars)] for ASCII [chars]. *)
Definition ContainsAny (s : string) (chars : list Ascii.ascii) : bool :=
  existsb (ContainsByte s) chars.
End strings.

(** ** Time

    [time.Time] and [time.Duration] are nanoseconds.  A definition that reads the clock
    takes the reading as the argument [now]. *)
Abbreviation Time := Z (only parsing).
Abbreviation Duration := Z (only parsing).
Definition Nanosecond : Duration := 1.
Definition Millisecond : Duration := 10 ^ 6.
Definition Second : Duration := 10 ^ 9.
Definition Minute : Duration := 60 * Second.
Definition Hour : Duration := 60 * Minute.

(** [t.After(u)], [t.Before(u)]. *)
Definition After (t u : Time) : bool := u <? t.
Definition Before (t u : Time) : bool := t <? u.

(** A deadline that may be absent: [exp != nil && now.After( *exp )]. *)
Definition expired (now : Time) (exp : option Time) : bool :=
  match exp with Some e => After now e | None => false end.

(** ** Runes

    [for _, c := range s] decodes UTF-8; an invalid byte yields U+FFFD and width 1. *)
Definition in_range (lo hi : Z) (b : Z) : bool := (lo <=? b) && (b <=? hi).

Definition RuneError : Z := 65533.

(** The rune at the head of the bytes [b0 :: rest] and its width. *)
Definition DecodeRune (b0 : Z) (rest : list Z) : Z * nat :=
  let cont b := in_range 128 191 b in
  if b0 <? 128 then (b0, 1%nat)
  else if in_range 194 223 b0 then
    match rest with
    | b1 :: _ => if cont b1 then ((b0 - 192) * 64 + (b1 - 128), 2%nat) else (RuneError, 1%nat)
    | _ => (RuneError, 1%nat)
    end
  else if in_range 224 239 b0 then
    match rest with
    | b1 :: b2 :: _ =>
        let lo := if b0 =? 224 then 160 else 128 in
        let hi := if b0 =? 237 then 159 else 191 in
        if in_range lo hi b1 && cont b2
        then ((b0 - 224) * 4096 + (b1 - 128) * 64 + (b2 - 128), 3%nat) else (RuneError, 1%nat)
    | _ => (RuneError, 1%nat)
    end
  else if in_range 240 244 b0 then
    match rest with
    | b1 :: b2 :: b3 :: _ =>
        let lo := if b0 =? 240 then 144 else 128 in
        let hi := if b0 =? 244 then 143 else 191 in
        if in_range lo hi b1 && cont b2 && cont b3
        then ((b0 - 240) * 262144 + (b1 - 128) * 4096 + (b2 - 128) * 64 + (b3 - 128), 4%nat)
        else (RuneError, 1%nat)
    | _ => (RuneError, 1%nat)
    end
  else (RuneError, 1%nat).

(** [skip] bytes of the current rune are still to be passed over. *)
Fixpoint runes_from (skip : nat) (bs : list Z) : list Z :=
  match bs with
  | [] => []
  | b :: bs' =>
      match skip with
      | Datatypes.S k => runes_from k bs'
      | O => let '(r, w) := DecodeRune b bs' in r :: runes_from (w - 1) bs'
      end
  end.
Definition runes (s : string) : list Z := runes_from 0 (Z_of_byte <$> bytes_of_string s).

(** ** Dates

    [t.Format("2006-01-02")] in UTC: the proleptic Gregorian date of a Unix time. *)
Definition civil_from_days (d : Z) : Z * Z * Z :=
  let z := d + 719468 in
  let era := z / 146097 in
  let doe := z - era * 146097 in
  let yoe := (doe - doe / 1460 + doe / 36524 - doe / 146096) / 365 in
  let doy := doe - (365 * yoe + yoe / 4 - yoe / 100) in
  let mp := (5 * doy + 2) / 153 in
  let day := doy - (153 * mp + 2) / 5 + 1 in
  let month := if mp <? 10 then mp + 3 else mp - 9 in
  let year := yoe + era * 400 + (if month <=? 2 then 1 else 0) in
  (year, month, day).

Definition pad (width : nat) (n : Z) : string :=
  let s := pretty n in (String.concat "" (replicate (width - String.length s) "0") +:+ s)%string.

Definition formatDate (t : Time) : string :=
  let '(y, m, d) := civil_from_days (t / (86400 * Second)) in
  (pad 4 y +:+ "-" +:+ pad 2 m +:+ "-" +:+ pad 2 d)%string.

Example formatDate_epoch : formatDate 0 = "1970-01-01".
Proof. reflexivity. Qed.
Example formatDate_leap : formatDate (1709210096 * Second) = "2024-02-29".
Proof. reflexivity. Qed.
Example runes_euro : runes (string_of_bytes (byte_of_Z <$> [97; 226; 130; 172; 255])) = [97; 8364; 65533].
Proof. reflexivity. Qed.

(** ** Lemmas on machine integers and bytes *)

Lemma u8_range z : is_u8 (u8 z).
Proof. unfold is_u8, u8. apply Z.mod_pos_bound. lia. Qed.
Lemma u16_range z : is_u16 (u16 z).
Proof. unfold is_u16, u16. apply Z.mod_pos_bound. lia. Qed.
Lemma u8_id z : is_u8 z → u8 z = z.
Proof. apply Z.mod_small. Qed.
Lemma u16_id z : is_u16 z → u16 z = z.
Proof. apply Z.mod_small. Qed.
#[export] Hint Resolve u8_range u16_range : emqx.

Lemma Z_of_byte_range b : 0 ≤ Z_of_byte b < 256.
Proof.
  unfold Z_of_byte. pose proof (Byte.to_N_bounded b). lia.
Qed.

Lemma Z_of_byte_of_Z z : Z_of_byte (byte_of_Z z) = z mod 256.
Proof.
  unfold Z_of_byte, byte_of_Z. pose proof (Z.mod_pos_bound z 256).
  destruct (Byte.of_N (Z.to_N (z mod 256))) as [b|] eqn:E; simpl.
  - apply Byte.to_of_N in E. rewrite E. lia.
  - apply Byte.of_N_None_iff in E. lia.
Qed.

Lemma byte_of_Z_of_byte b : byte_of_Z (Z_of_byte b) = b.
Proof.
  unfold byte_of_Z, Z_of_byte. pose proof (Byte.to_N_bounded b).
  rewrite Z.mod_small by lia. by rewrite N2Z.id, Byte.of_to_N.
Qed.

Lemma be16_split n :
  is_u16 n → be16 (byte_of_Z (Z.shiftr n 8)) (byte_of_Z (Z.land n 255)) = n.
Proof.
  unfold be16, is_u16. intros Hn. rewrite !Z_of_byte_of_Z.
  rewrite Z.shiftr_div_pow2 by lia. change 255 with (Z.ones 8).
  rewrite Z.land_ones by lia. change (2 ^ 8) with 256.
  rewrite (Z.mod_mod n) by lia. rewrite (Z.mod_small (n / 256)) by
    (split; [apply Z.div_pos|apply Z.div_lt_upper_bound]; lia).
  pose proof (Z.div_mod n 256). lia.
Qed.

Lemma be16_range hi lo : is_u16 (be16 hi lo).
Proof.
  unfold be16, is_u16. pose proof (Z_of_byte_range hi). pose proof (Z_of_byte_range lo). lia.
Qed.

Lemma string_of_bytes_of_string s : string_of_bytes (bytes_of_string s) = s.
Proof. apply String.string_of_list_byte_of_string. Qed.
Lemma bytes_of_string_of_bytes b : bytes_of_string (string_of_bytes b) = b.
Proof. apply String.list_byte_of_string_of_list_byte. Qed.

Lemma ReadFull_app (a b : list byte) n :
  n = length a → ReadFull n (a ++ b) = Some (a, b).
Proof.
  intros ->. unfold ReadFull. rewrite length_app.
  destruct (length a + length b <? length a)%nat eqn:E; bool_prop; [lia|].
  by rewrite take_app_length, drop_app_length.
Qed.

(** ** Lemmas on package strings *)

Lemma string_app_cons a s t : (String a s ++ t)%string = String a (s ++ t)%string.
Proof. done. Qed.
Lemma string_app_nil s : ("" ++ s)%string = s.
Proof. done. Qed.
#[export] Hint Rewrite string_app_cons string_app_nil : emqx_rw.

Lemma Split_nonempty s sep : strings.Split s sep ≠ [].
Proof.
  destruct s as [|a s]; simpl; [done|]. case_bool_decide; [done|].
  unfold strings.append_head. by destruct (strings.Split s sep).
Qed.

(** Joining the pieces of a split gives the string back. *)
Lemma Join_Split s sep : strings.Join (strings.Split s sep) sep = s.
Proof.
  induction s as [|a s IH]; [done|]. simpl.
  pose proof (Split_nonempty s sep) as Hne.
  case_bool_decide as Ha.
  - subst a. destruct (strings.Split s sep) as [|w ws] eqn:E; [done|].
    rewrite <-IH. done.
  - destruct (strings.Split s sep) as [|w ws] eqn:E; [done|]. simpl in *.
    destruct ws; simpl in *; rewrite ?string_app_cons; congruence.
Qed.

Lemma Split_inj s1 s2 sep : strings.Split s1 sep = strings.Split s2 sep → s1 = s2.
Proof. intros H. by rewrite <-(Join_Split s1 sep), <-(Join_Split s2 sep), H. Qed.

(** A byte that does not occur. *)
Definition byte_free (sep : Ascii.ascii) (s : string) : Prop := strings.ContainsByte s sep = false.

Lemma Split_free s sep : byte_free sep s → strings.Split s sep = [s].
Proof.
  unfold byte_free. induction s as [|a s IH]; [done|]. simpl. intros H. bool_prop.
  rewrite bool_decide_eq_false_2 by done. by rewrite IH.
Qed.

Lemma Split_app_free w s sep :
  byte_free sep w → strings.Split (w ++ String sep s) sep = w :: strings.Split s sep.
Proof.
  unfold byte_free. induction w as [|a w IH]; autorewrite with emqx_rw; simpl.
  - intros _. by rewrite bool_decide_eq_true_2.
  - intros H. bool_prop. rewrite bool_decide_eq_false_2 by done. by rewrite IH.
Qed.

(** Splitting a join gives the pieces back, when no piece contains the separator. *)
Lemma Split_Join ws sep :
  ws ≠ [] → Forall (byte_free sep) ws → strings.Split (strings.Join ws sep) sep = ws.
Proof.
  induction ws as [|w ws IH]; [done|]. intros _ Hf.
  apply Forall_cons in Hf as [Hw Hf]. destruct ws as [|w' ws]; simpl.
  - by apply Split_free.
  - rewrite Split_app_free by done. f_equal. by apply IH.
Qed.

Lemma Split_pieces_free s sep : Forall (byte_free sep) (strings.Split s sep).
Proof.
  induction s as [|a s IH]; simpl; [by repeat constructor|].
  case_bool_decide as Ha; [by constructor|].
  destruct (strings.Split s sep) as [|w ws]; simpl.
  - constructor; [|done]. unfold byte_free; simpl. by rewrite bool_decide_eq_false_2.
  - apply Forall_cons in IH as [Hw Hws]. constructor; [|done].
    unfold byte_free in *; simpl. by rewrite bool_decide_eq_false_2.
Qed.

Lemma Cut_Some s sep w r :
  strings.Cut s sep = Some (w, r) → s = (w ++ String sep r)%string ∧ byte_free sep w.
Proof.
  revert w. induction s as [|a s IH]; intros w H; [done|]. simpl in H.
  case_bool_decide as Ha.
  - by simplify_eq/=.
  - destruct (strings.Cut s sep) as [[w' r']|]; [|done]. simplify_eq/=.
    destruct (IH w' eq_refl) as [-> Hf]. split; [done|].
    unfold byte_free in *. simpl. by rewrite bool_decide_eq_false_2.
Qed.

Lemma Cut_app_free w r sep :
  byte_free sep w → strings.Cut (w ++ String sep r) sep = Some (w, r).
Proof.
  unfold byte_free. induction w as [|a w IH]; autorewrite with emqx_rw; simpl.
  - intros _. by rewrite bool_decide_eq_true_2.
  - intros H. bool_prop. rewrite bool_decide_eq_false_2 by done. by rewrite IH.
Qed.

Lemma HasPrefix_app pre s : strings.HasPrefix (pre ++ s) pre = true.
Proof.
  unfold strings.HasPrefix.
  induction pre as [|a pre IH]; autorewrite with emqx_rw; simpl; [by destruct s|].
  by destruct (Ascii.ascii_dec a a).
Qed.

Lemma HasPrefix_inv s pre : strings.HasPrefix s pre = true → ∃ r, s = pre +:+ r.
Proof.
  unfold strings.HasPrefix. revert s. induction pre as [|a pre IH]; intros s H.
  - by exists s.
  - destruct s as [|b s]; [done|]. simpl in H. destruct (Ascii.ascii_dec a b); [|done].
    subst. destruct (IH s H) as [r ->]. by exists r.
Qed.
