(* ===== verification/GoValue.v ===== *)
(** * The parts of Go's library that the rule engine, the connectors and the metrics use

    Errors as values, dynamic values ([interface{}]) and their [%v] rendering, Unicode
    case and white space on byte strings, [strconv.ParseInt], [strings.ReplaceAll].
    Floating point numbers and the Unicode case tables are type classes: the model needs
    their operations, and states of the tables only what they say of ASCII. *)

From S2P Require Import Prelude GoLib.
From Stdlib Require String Ascii.
Local Open Scope emqx_scope.
Local Open Scope Z_scope.

(** ** Results

    A call that returns [(value, error)]: the value when the error is nil, else the text
    of the error. *)
Inductive result (A : Type) :=
  | Ok (a : A)
  | Err (msg : string).
Arguments Ok {_} _.
Arguments Err {_} _.

Definition result_bind {A B} (r : result A) (k : A → result B) : result B :=
  match r with Ok a => k a | Err e => Err e end.
Notation "'let?' x := r 'in' k" := (result_bind r (λ x, k))
  (at level 10, x name, r at level 200, k at level 200) : emqx_scope.

Definition is_Ok {A} (r : result A) : bool := match r with Ok _ => true | Err _ => false end.

Lemma result_bind_Ok {A B} (r : result A) (k : A → result B) b :
  result_bind r k = Ok b ↔ ∃ a, r = Ok a ∧ k a = Ok b.
Proof. destruct r; naive_solver. Qed.

(** ** Floating point *)
Class GoFloat := {
  float64 : Type;
  ParseFloat : string → option float64;
  FormatFloat : float64 → string;
  FormatFloat32 : float64 → string;
  float_ltb : float64 → float64 → bool;
  float_of_int : Z → float64;
  int_of_float : float64 → Z;
  float_mul : float64 → float64 → float64;
  float_add : float64 → float64 → float64;
  float_div : float64 → float64 → float64;
}.

(** ** Unicode case: [unicode.ToUpper] and what it does on ASCII *)
Definition ascii_upper (r : Z) : Z := if in_range 97 122 r then r - 32 else r.
Definition ascii_lower (r : Z) : Z := if in_range 65 90 r then r + 32 else r.

Class GoUnicode := {
  unicode_ToUpper : Z → Z;
  unicode_ToUpper_ascii : ∀ r, 0 ≤ r < 128 → unicode_ToUpper r = ascii_upper r;
  (** outside ASCII only U+0131 and U+017F have an ASCII upper case, I and S *)
  unicode_ToUpper_other : ∀ r, 128 ≤ r → unicode_ToUpper r = 73 ∨ unicode_ToUpper r = 83
                                          ∨ 128 ≤ unicode_ToUpper r;
  unicode_ToLower : Z → Z;
  unicode_ToLower_ascii : ∀ r, 0 ≤ r < 128 → unicode_ToLower r = ascii_lower r;
}.

Program Definition asciiUnicode : GoUnicode :=
  {| unicode_ToUpper := ascii_upper; unicode_ToLower := ascii_lower |}.
Next Obligation. done. Qed.
Next Obligation. intros r Hr. unfold ascii_upper, in_range. case_match; bool_prop; lia. Qed.
Next Obligation. done. Qed.

(** ** Bytes and runes *)

Definition code (c : Ascii.ascii) : Z := Z.of_N (Ascii.N_of_ascii c).
Definition chr (z : Z) : Ascii.ascii := Ascii.ascii_of_N (Z.to_N (z mod 256)).
Definition string_of_codes (l : list Z) : string := foldr (λ z s, String (chr z) s) "" l.

(** [utf8.AppendRune]: surrogates and values outside Unicode become U+FFFD. *)
Definition EncodeRune (r : Z) : string :=
  string_of_codes
    (if in_range 0 127 r then [r]
     else if in_range 128 2047 r then [192 + r / 64; 128 + r mod 64]
     else if in_range 55296 57343 r || (r <? 0) || (1114111 <? r) then [239; 191; 189]
     else if r <? 65536 then [224 + r / 4096; 128 + (r / 64) mod 64; 128 + r mod 64]
     else [240 + r / 262144; 128 + (r / 4096) mod 64; 128 + (r / 64) mod 64; 128 + r mod 64]).

(** [strings.Map]: each rune of the string is mapped; an invalid byte is U+FFFD. *)
Definition mapRunes (f : Z → Z) (s : string) : string :=
  String.concat "" ((λ r, EncodeRune (f r)) <$> runes s).

Definition ToUpper `{GoUnicode} (s : string) : string := mapRunes unicode_ToUpper s.
Definition ToLower `{GoUnicode} (s : string) : string := mapRunes unicode_ToLower s.

Fixpoint mapBytes (f : Z → Z) (s : string) : string :=
  match s with
  | EmptyString => ""
  | String c s' => String (chr (f (code c))) (mapBytes f s')
  end.

(** [string(b)] for a byte [b] is the encoding of the rune [b]. *)
Definition string_of_byte (c : Ascii.ascii) : string := EncodeRune (code c).

(** ** White space: the encodings of the runes of [unicode.IsSpace] *)
Definition spaces : list string :=
  string_of_codes <$>
    ([[9]; [10]; [11]; [12]; [13]; [32]; [194; 133]; [194; 160]; [225; 154; 128]]
     ++ ((λ k, [226; 128; 128 + Z.of_nat k]) <$> seq 0 11)
     ++ [[226; 128; 168]; [226; 128; 169]; [226; 128; 175]; [226; 129; 159]; [227; 128; 128]]).

(** The width of the white-space rune at the head of [s], 0 when there is none. *)
Definition leadingSpace (s : string) : nat :=
  match List.find (λ w, String.prefix w s) spaces with
  | Some w => String.length w
  | None => O
  end.

Fixpoint trimLeft (skip : nat) (s : string) : string :=
  match s with
  | EmptyString => ""
  | String _ s' =>
      match skip with
      | Datatypes.S k => trimLeft k s'
      | O => match leadingSpace s with
             | O => s
             | Datatypes.S k => trimLeft k s'
             end
      end
  end.

Fixpoint trimRight (s : string) : string :=
  if trimLeft 0 s =s "" then ""
  else match s with
       | EmptyString => ""
       | String c s' => String c (trimRight s')
       end.

Definition TrimSpace (s : string) : string := trimRight (trimLeft 0 s).

(** ** Searching and replacing *)

(** [strings.Index]. *)
Fixpoint Index (s sub : string) : option nat :=
  if String.prefix sub s then Some O
  else match s with
       | EmptyString => None
       | String _ s' => Datatypes.S <$> Index s' sub
       end.

(** [s[n:]] and [s[i:j]]: out of range they panic. *)
Fixpoint dropBytes (n : nat) (s : string) : option string :=
  match n, s with
  | O, _ => Some s
  | Datatypes.S k, String _ s' => dropBytes k s'
  | Datatypes.S _, EmptyString => None
  end.
Definition slice_from (s : string) (n : nat) : outcome string :=
  match dropBytes n s with Some t => Returns t | None => Panics end.
Definition slice (s : string) (i j : Z) : outcome string :=
  if (0 <=? i) && (i <=? j) && (j <=? Z.of_nat (String.length s))
  then Returns (String.substring (Z.to_nat i) (Z.to_nat (j - i)) s) else Panics.

(** [strings.ReplaceAll(s, old, new)] for a non-empty [old]: occurrences are replaced from
    the left and do not overlap; [skip] bytes of the last one are still to be passed. *)
Fixpoint replaceFrom (skip : nat) (s old new : string) : string :=
  match s with
  | EmptyString => ""
  | String c s' =>
      match skip with
      | Datatypes.S k => replaceFrom k s' old new
      | O => if String.prefix old s then (new +:+ replaceFrom (String.length old - 1) s' old new)%string
             else String c (replaceFrom 0 s' old new)
      end
  end.
Definition ReplaceAll (s old new : string) : string := replaceFrom 0 s old new.

Fixpoint joinWith (sep : string) (l : list string) : string :=
  match l with
  | [] => ""
  | [s] => s
  | s :: l' => (s +:+ sep +:+ joinWith sep l')%string
  end.

(** ** Numbers *)

Definition digitOf (c : Ascii.ascii) : option Z :=
  if in_range 48 57 (code c) then Some (code c - 48) else None.

Fixpoint digits (acc : Z) (s : string) : option Z :=
  match s with
  | EmptyString => Some acc
  | String c s' => match digitOf c with Some d => digits (acc * 10 + d) s' | None => None end
  end.

Definition unsignedDigits (s : string) : option Z :=
  match s with EmptyString => None | _ => digits 0 s end.

(** [strconv.ParseInt(s, 10, 64)]: an optional sign, decimal digits, within [int64]. *)
Definition ParseInt (s : string) : option Z :=
  let v := match s with
           | String c s' =>
               if code c =? 45 then Z.opp <$> unsignedDigits s'
               else if code c =? 43 then unsignedDigits s'
               else unsignedDigits s
           | EmptyString => None
           end in
  match v with
  | Some z => if in_range (- 2 ^ 63) (2 ^ 63 - 1) z then Some z else None
  | None => None
  end.

(** ** Dynamic values *)
Inductive any `{GoFloat} :=
  | VNil
  | VBool (b : bool)
  | VInt (n : Z)
  | VInt32 (n : Z)
  | VInt64 (n : Z)
  | VFloat32 (f : float64)
  | VFloat64 (f : float64)
  | VString (s : string)
  | VBytes (b : list byte)
  | VSlice (l : list any)
  | VMap (m : gmap string any).

(** The order of Go's strings: bytewise, lexicographic. *)
Definition str_ltb (a b : string) : bool :=
  match String.compare a b with Lt => true | _ => false end.

Fixpoint insertEntry (e : string * string) (l : list (string * string)) : list (string * string) :=
  match l with
  | [] => [e]
  | e' :: l' => if str_ltb e.1 e'.1 then e :: l else e' :: insertEntry e l'
  end.

(** [fmt.Sprintf("%v", x)]: nested values too; maps are printed in key order. *)
Fixpoint Sprintv `{GoFloat} (x : any) : string :=
  match x with
  | VNil => "<nil>"
  | VBool b => if b then "true" else "false"
  | VInt n | VInt32 n | VInt64 n => pretty n
  | VFloat32 f => FormatFloat32 f
  | VFloat64 f => FormatFloat f
  | VString s => s
  | VBytes b => "[" +:+ joinWith " " ((λ c, pretty (Z_of_byte c)) <$> b) +:+ "]"
  | VSlice l => "[" +:+ joinWith " " (Sprintv <$> l) +:+ "]"
  | VMap m =>
      "map[" +:+ joinWith " " ((λ e, e.1 +:+ ":" +:+ e.2)
        <$> map_fold (λ k v acc, insertEntry (k, Sprintv v) acc) [] m) +:+ "]"
  end%string.

Definition any_is_nil `{GoFloat} (x : any) : bool := match x with VNil => true | _ => false end.

(** A type assertion [x.(string)] on a map entry that may be absent. *)
Definition as_string `{GoFloat} (x : option any) : option string :=
  match x with Some (VString s) => Some s | _ => None end.

(** ** Lemmas on bytes and runes *)

Lemma code_range c : 0 ≤ code c < 256.
Proof. unfold code. pose proof (Ascii.N_ascii_bounded c). lia. Qed.

Lemma chr_code c : chr (code c) = c.
Proof.
  unfold chr. rewrite Z.mod_small by apply code_range. unfold code. rewrite N2Z.id.
  apply Ascii.ascii_N_embedding.
Qed.

Lemma code_chr z : code (chr z) = z mod 256.
Proof.
  unfold code, chr. rewrite Ascii.N_ascii_embedding; [|pose proof (Z.mod_pos_bound z 256); lia].
  rewrite Z2N.id; [done|pose proof (Z.mod_pos_bound z 256); lia].
Qed.

Lemma code_inj c d : code c = code d → c = d.
Proof. intros E. by rewrite <- (chr_code c), <- (chr_code d), E. Qed.

Lemma Z_of_byte_of_ascii c : Z_of_byte (Ascii.byte_of_ascii c) = code c.
Proof. unfold Z_of_byte, code. by destruct c as [[] [] [] [] [] [] [] []]. Qed.

Lemma runes_cons c s :
  runes (String c s) = runes_from 0 (code c :: (Z_of_byte <$> bytes_of_string s)).
Proof. unfold runes, bytes_of_string. simpl. by rewrite Z_of_byte_of_ascii. Qed.

(** Every byte of the string satisfies the test. *)
Fixpoint all_bytes (f : Ascii.ascii → bool) (s : string) : bool :=
  match s with
  | EmptyString => true
  | String c s' => f c && all_bytes f s'
  end.
Definition is_ascii (c : Ascii.ascii) : bool := code c <? 128.
(** Printable ASCII without the space. *)
Definition is_graphic (c : Ascii.ascii) : bool := in_range 33 126 (code c).

Lemma all_bytes_app f s t : all_bytes f (s +:+ t)%string = all_bytes f s && all_bytes f t.
Proof. induction s as [|c s IH]; simpl; [done|]. by rewrite IH, andb_assoc. Qed.

Lemma all_bytes_impl (f g : Ascii.ascii → bool) s :
  (∀ c, f c = true → g c = true) → all_bytes f s = true → all_bytes g s = true.
Proof.
  intros Hfg. induction s as [|c s IH]; simpl; [done|].
  rewrite !andb_true_iff. naive_solver.
Qed.

Lemma DecodeRune_ascii b l : b < 128 → DecodeRune b l = (b, 1%nat).
Proof. intros. unfold DecodeRune. by rewrite (proj2 (Z.ltb_lt b 128)) by done. Qed.

Lemma DecodeRune_other b l : 128 ≤ b → 128 ≤ (DecodeRune b l).1.
Proof.
  intros. unfold DecodeRune, in_range, RuneError.
  repeat case_match; bool_prop; simpl; lia.
Qed.

Lemma runes_cons_ascii c s : is_ascii c = true → runes (String c s) = code c :: runes s.
Proof.
  unfold is_ascii. intros Hc. bool_prop. rewrite runes_cons. simpl.
  by rewrite DecodeRune_ascii by lia.
Qed.

Lemma string_concat_cons s l : String.concat "" (s :: l) = (s +:+ String.concat "" l)%string.
Proof. simpl. destruct l; [|done]. simpl. induction s as [|c s IH]; [done|]. by rewrite string_app_cons, <- IH. Qed.

Lemma EncodeRune_ascii r : 0 ≤ r < 128 → EncodeRune r = String (chr r) "".
Proof. intros. unfold EncodeRune, in_range. case_match; bool_prop; [done|lia]. Qed.

Lemma mapRunes_cons_ascii f c s :
  is_ascii c = true → 0 ≤ f (code c) < 128 →
  mapRunes f (String c s) = String (chr (f (code c))) (mapRunes f s).
Proof.
  intros Hc Hf. unfold mapRunes. rewrite runes_cons_ascii by done. rewrite fmap_cons, string_concat_cons.
  by rewrite EncodeRune_ascii by done.
Qed.

Lemma ascii_upper_range r : 0 ≤ r < 128 → 0 ≤ ascii_upper r < 128.
Proof. unfold ascii_upper, in_range. intros. case_match; bool_prop; lia. Qed.

(** On ASCII, [ToUpper] works byte by byte. *)
Lemma ToUpper_cons_ascii `{GoUnicode} c s :
  is_ascii c = true → ToUpper (String c s) = String (chr (ascii_upper (code c))) (ToUpper s).
Proof.
  intros Hc. pose proof (code_range c). unfold is_ascii in Hc. bool_prop.
  assert (E : unicode_ToUpper (code c) = ascii_upper (code c)) by (apply unicode_ToUpper_ascii; lia).
  unfold ToUpper. rewrite mapRunes_cons_ascii.
  - by rewrite E.
  - unfold is_ascii. apply Z.ltb_lt. lia.
  - rewrite E. apply ascii_upper_range. lia.
Qed.

Lemma ToUpper_ascii `{GoUnicode} s : all_bytes is_ascii s = true → ToUpper s = mapBytes ascii_upper s.
Proof.
  induction s as [|c s IH]; simpl; [done|]. rewrite andb_true_iff. intros [Hc Hs].
  rewrite ToUpper_cons_ascii by done. by rewrite IH.
Qed.

Lemma EncodeRune_head r : 128 ≤ r → ∃ c t, EncodeRune r = String c t ∧ 128 ≤ code c.
Proof.
  intros Hr. unfold EncodeRune.
  assert (H : ∀ z l, 128 ≤ z < 256 → ∃ c t, string_of_codes (z :: l) = String c t ∧ 128 ≤ code c).
  { intros z l Hz. eexists _, _. split; [reflexivity|]. rewrite code_chr, Z.mod_small; lia. }
  unfold in_range. repeat case_match; bool_prop; try lia; apply H; try lia.
  - pose proof (Z.div_pos r 64). pose proof (Z.div_lt_upper_bound r 64 32). lia.
  - pose proof (Z.div_pos r 4096). pose proof (Z.div_lt_upper_bound r 4096 16). lia.
  - pose proof (Z.div_pos r 262144). pose proof (Z.div_lt_upper_bound r 262144 5). lia.
Qed.

(** The first byte of a string whose upper case starts with an ASCII byte, I and S apart,
    is ASCII. *)
Lemma ToUpper_head `{GoUnicode} c s a t :
  ToUpper (String c s) = String a t → code a < 128 → code a ≠ 73 → code a ≠ 83 →
  is_ascii c = true.
Proof.
  intros E Ha HI HS. unfold is_ascii. apply Z.ltb_lt. destruct (Z.lt_ge_cases (code c) 128); [done|].
  exfalso. unfold ToUpper, mapRunes in E. rewrite runes_cons in E. simpl in E.
  destruct (DecodeRune (code c) _) as [r w] eqn:Ed.
  assert (Hr : 128 ≤ r) by (change r with (r, w).1; rewrite <- Ed; by apply DecodeRune_other).
  rewrite fmap_cons, string_concat_cons in E.
  destruct (unicode_ToUpper_other r Hr) as [Eu|[Eu|Eu]].
  - rewrite Eu in E. simpl in E. injection E as <- _. by apply HI.
  - rewrite Eu in E. simpl in E. injection E as <- _. by apply HS.
  - destruct (EncodeRune_head _ Eu) as (d & u & Ed' & Hd). rewrite Ed' in E.
    simpl in E. injection E as <- _. lia.
Qed.

Lemma string_length_app s t : String.length (s +:+ t)%string = (String.length s + String.length t)%nat.
Proof. induction s as [|c s IH]; [done|]. rewrite string_app_cons. simpl. by rewrite IH. Qed.

Lemma string_app_nil_r s : (s +:+ "")%string = s.
Proof. induction s as [|c s IH]; [done|]. by rewrite string_app_cons, IH. Qed.

Lemma str_app_assoc s t u : ((s +:+ t) +:+ u)%string = (s +:+ (t +:+ u))%string.
Proof. induction s as [|c s IH]; [done|]. by rewrite !string_app_cons, IH. Qed.

(** ** Lemmas on white space *)

Lemma spaces_not_graphic : Forall (λ w, all_bytes (λ c, negb (is_graphic c)) w = true ∧ w ≠ "") spaces.
Proof. unfold spaces. repeat constructor; vm_compute; congruence. Qed.

Lemma prefix_app_inv w s : String.prefix w s = true → ∃ t, s = (w +:+ t)%string.
Proof.
  revert s. induction w as [|a w IH]; intros s Hp; [by exists s|].
  destruct s as [|b s]; [done|]. simpl in Hp. destruct (Ascii.ascii_dec a b) as [->|]; [|done].
  destruct (IH _ Hp) as [t ->]. by exists t.
Qed.

Lemma prefix_app w t : String.prefix w (w +:+ t)%string = true.
Proof. apply HasPrefix_app. Qed.

Lemma leadingSpace_spec s n :
  leadingSpace s = n → n ≠ O →
  ∃ w t, s = (w +:+ t)%string ∧ String.length w = n ∧ all_bytes (λ c, negb (is_graphic c)) w = true.
Proof.
  unfold leadingSpace. intros <- Hn. case_match eqn:E; [|done].
  apply List.find_some in E as [Hin Hp]. apply prefix_app_inv in Hp as [t ->].
  pose proof spaces_not_graphic as Hall. rewrite Forall_forall in Hall.
  destruct (Hall s0) as [? ?]; [by apply list_elem_of_In|]. eauto.
Qed.

Lemma leadingSpace_graphic c s : is_graphic c = true → leadingSpace (String c s) = O.
Proof.
  intros Hc. destruct (leadingSpace (String c s)) as [|n] eqn:E; [done|]. exfalso.
  destruct (leadingSpace_spec _ _ E) as (w & t & Es & Hl & Hw); [done|].
  destruct w as [|a w]; [done|]. injection Es as <- _. simpl in Hw. by rewrite Hc in Hw.
Qed.

Fixpoint last_byte (s : string) : option Ascii.ascii :=
  match s with
  | EmptyString => None
  | String c EmptyString => Some c
  | String _ s' => last_byte s'
  end.

Lemma last_byte_Some c s : ∃ d, last_byte (String c s) = Some d.
Proof. revert c. induction s as [|b s IH]; intros c; [by eexists|]. apply (IH b). Qed.

Lemma last_byte_app s t : t ≠ "" → last_byte (s +:+ t)%string = last_byte t.
Proof.
  intros Ht. induction s as [|c s IH]; [done|]. rewrite string_app_cons.
  destruct (s +:+ t)%string as [|d u] eqn:E; [by destruct s, t|]. apply IH.
Qed.

Definition blank : string → bool := all_bytes (λ c, negb (is_graphic c)).

Lemma substring_prefix w t : String.substring 0 (String.length w) (w +:+ t)%string = w.
Proof. induction w as [|c w IH]; simpl; [by destruct t|]. by rewrite IH. Qed.

(** What trimming removes entirely holds no printable byte. *)
Lemma trimLeft_empty skip s :
  trimLeft skip s = "" → blank (String.substring 0 skip s) = true → blank s = true.
Proof.
  revert skip. induction s as [|a s IH]; intros skip Ht Hw; [done|].
  assert (Hstep : ∀ k, trimLeft k s = "" → blank (String.substring 0 (Datatypes.S k) (String a s)) = true →
            blank (String a s) = true).
  { intros k Hk Hb. unfold blank in *. simpl in *. apply andb_true_iff in Hb as [-> Hb]. simpl. eauto. }
  destruct skip as [|k]; [|by apply (Hstep k)]. simpl in Ht.
  destruct (leadingSpace (String a s)) as [|k] eqn:E; [done|].
  destruct (leadingSpace_spec _ _ E) as (w & t & Es & El & Hws); [done|].
  apply (Hstep k); [done|]. by rewrite <- El, Es, substring_prefix.
Qed.

Lemma last_byte_blank s c : last_byte s = Some c → is_graphic c = true → blank s = false.
Proof.
  intros Hl Hc. unfold blank. induction s as [|a s IH]; [done|]. simpl.
  destruct s; [simpl in *; simplify_eq; by rewrite Hc|]. by rewrite IH, andb_false_r.
Qed.

Lemma trimRight_id s c : last_byte s = Some c → is_graphic c = true → trimRight s = s.
Proof.
  induction s as [|a s IH]; intros Hl Hc; [done|]. simpl.
  rewrite bool_decide_false.
  - f_equal. destruct s; [done|]. by apply IH.
  - intros Ht. pose proof (last_byte_blank _ _ Hl Hc).
    apply (trimLeft_empty 0 (String a s)) in Ht; [congruence|done].
Qed.

Lemma trimRight_space s c :
  last_byte s = Some c → is_graphic c = true → trimRight (s +:+ " ")%string = s.
Proof.
  induction s as [|a s IH]; intros Hl Hc; [done|].
  change ((String a s) +:+ " ")%string with (String a (s +:+ " ")%string).
  change (trimRight (String a (s +:+ " ")%string)) with
    (if trimLeft 0 (String a (s +:+ " ")%string) =s "" then "" else String a (trimRight (s +:+ " ")%string)).
  rewrite bool_decide_false.
  - f_equal. destruct s; [done|]. by apply IH.
  - intros Ht. apply (trimLeft_empty 0) in Ht; [|done]. pose proof (last_byte_blank _ _ Hl Hc) as Hb.
    unfold blank in *. rewrite <- string_app_cons in Ht. rewrite all_bytes_app, Hb in Ht. done.
Qed.

(** A string that starts and ends with a printable byte is unchanged. *)
Lemma TrimSpace_id a s c :
  is_graphic a = true → last_byte (String a s) = Some c → is_graphic c = true →
  TrimSpace (String a s) = String a s.
Proof.
  intros Ha Hl Hc. unfold TrimSpace.
  change (trimLeft 0 (String a s)) with
    (match leadingSpace (String a s) with O => String a s | Datatypes.S k => trimLeft k s end).
  rewrite leadingSpace_graphic by done. by eapply trimRight_id.
Qed.

(** Spaces around such a string are removed. *)
Lemma TrimSpace_around a s c pre post :
  is_graphic a = true → last_byte (String a s) = Some c → is_graphic c = true →
  pre = "" ∨ pre = " " → post = "" ∨ post = " " →
  TrimSpace (pre +:+ String a s +:+ post)%string = String a s.
Proof.
  intros Ha Hl Hc Hpre Hpost. unfold TrimSpace.
  assert (Hleft : trimLeft 0 (pre +:+ String a s +:+ post)%string = (String a s +:+ post)%string).
  { assert (trimLeft 0 (String a s +:+ post)%string = (String a s +:+ post)%string) as E.
    { rewrite string_app_cons. cbn [trimLeft]. by rewrite leadingSpace_graphic. }
    destruct Hpre as [-> | ->]; [done|]. exact E. }
  rewrite Hleft. destruct Hpost as [-> | ->].
  - rewrite string_app_nil_r. by eapply trimRight_id.
  - by eapply trimRight_space.
Qed.

(** ** Lemmas on numbers *)

Definition is_digit (c : Ascii.ascii) : bool := in_range 48 57 (code c).

Lemma pretty_N_char_code d : (d < 10)%N → code (pretty_N_char d) = 48 + Z.of_N d.
Proof.
  intros Hd. assert (Hc : d = 0%N ∨ d = 1%N ∨ d = 2%N ∨ d = 3%N ∨ d = 4%N ∨ d = 5%N ∨ d = 6%N ∨ d = 7%N
    ∨ d = 8%N ∨ d = 9%N) by lia. naive_solver.
Qed.

Lemma digits_pretty_N_go n s :
  digits 0 (pretty_N_go n s) = digits (Z.of_N n) s ∧
  (all_bytes is_digit s = true → all_bytes is_digit (pretty_N_go n s) = true) ∧
  (n ≠ 0%N → pretty_N_go n s ≠ "").
Proof.
  revert s. induction (N.lt_wf_0 n) as [n _ IH]. intros s.
  destruct (decide (n = 0%N)) as [->|Hn]; [done|]. rewrite pretty_N_go_step by lia.
  assert (Hm : (n `mod` 10 < 10)%N) by (apply N.mod_lt; lia).
  assert (Hc : code (pretty_N_char (n `mod` 10)) = 48 + Z.of_N (n `mod` 10)) by (by apply pretty_N_char_code).
  assert (Hd : is_digit (pretty_N_char (n `mod` 10)) = true).
  { unfold is_digit, in_range. rewrite Hc. clear -Hm. revert Hm. generalize (n `mod` 10)%N.
    intros d Hd. apply andb_true_iff. split; apply Z.leb_le; lia. }
  destruct (IH (n `div` 10)%N) with (String (pretty_N_char (n `mod` 10)) s) as (E & Ha & Hne);
    [apply N.div_lt; lia|].
  split_and!.
  - rewrite E. simpl. unfold digitOf. unfold is_digit in Hd. rewrite Hd, Hc.
    f_equal. pose proof (N.div_mod n 10). lia.
  - intros Hs. apply Ha. simpl. by rewrite Hd, Hs.
  - intros _. destruct (decide (n `div` 10 = 0)%N) as [E0|]; [|by apply Hne].
    rewrite E0. done.
Qed.

Lemma pretty_N_digits n : digits 0 (pretty n) = Some (Z.of_N n) ∧ all_bytes is_digit (pretty n) = true ∧ pretty n ≠ "".
Proof.
  unfold pretty, pretty_N. case_decide as En; [by subst|].
  destruct (digits_pretty_N_go n "") as (E & Ha & Hne). split_and!; [by rewrite E|by apply Ha|by apply Hne].
Qed.

(** [strconv.ParseInt] reads back what [%v] prints for an [int64]. *)
Lemma ParseInt_pretty z : - 2 ^ 63 ≤ z < 2 ^ 63 → ParseInt (pretty z) = Some z.
Proof.
  intros Hz. unfold ParseInt.
  assert (Hr : in_range (- 2 ^ 63) (2 ^ 63 - 1) z = true).
  { unfold in_range. apply andb_true_iff. split; apply Z.leb_le; lia. }
  destruct z as [|p|p]; [done| |].
  - change (pretty (Z.pos p)) with (pretty (N.pos p)).
    destruct (pretty_N_digits (N.pos p)) as (E & Ha & Hne). destruct (pretty (N.pos p)) as [|c s]; [done|].
    simpl in Ha. apply andb_true_iff in Ha as [Hc _]. unfold is_digit, in_range in Hc. bool_prop.
    rewrite (proj2 (Z.eqb_neq (code c) 45)), (proj2 (Z.eqb_neq (code c) 43)) by lia.
    unfold unsignedDigits. rewrite E. change (Z.of_N (N.pos p)) with (Z.pos p). by rewrite Hr.
  - change (pretty (Z.neg p)) with (String (Ascii.ascii_of_N 45) (pretty (N.pos p))).
    destruct (pretty_N_digits (N.pos p)) as (E & Ha & Hne). cbn [code].
    change (code (Ascii.ascii_of_N 45) =? 45) with true. cbn [negb].
    unfold unsignedDigits. destruct (pretty (N.pos p)) as [|c s]; [done|]. rewrite E. cbn [fmap option_fmap option_map].
    change (- Z.of_N (N.pos p)) with (Z.neg p). by rewrite Hr.
Qed.
