(* ===== verification/GoJSON.v ===== *)
(** * GoJSON: encoding/json as the program uses it

    A JSON text is handled as its tree.  How text is written and read ([jtext], [jparse]), how a
    number changes on its way through a float64 ([reint], [redec]) and how a time is written
    ([timeText], [parseTime]) are parameters, with their documented laws in [JSONTextLaws];
    decoding a tree into the fields of a struct is written out. *)

From S2P Require Import Prelude GoLib GoValue.
Local Open Scope emqx_scope.
Local Open Scope Z_scope.

(** ** Trees *)

(** Numbers are integer literals, or other literals kept as text; an object keeps the order and
    the repetitions of its keys. *)
Inductive json :=
  | JNull
  | JBool (b : bool)
  | JInt (z : Z)
  | JDecimal (text : string)
  | JString (s : string)
  | JArray (l : list json)
  | JObject (l : list (string * json)).

(** Writing replaces the invalid bytes of a string by U+FFFD. *)
Definition toValid (s : string) : string := mapRunes (λ r, r) s.
Definition valid_utf8 (s : string) : Prop := toValid s = s.

Fixpoint jclean (j : json) : json :=
  match j with
  | JString s => JString (toValid s)
  | JArray l => JArray (jclean <$> l)
  | JObject l => JObject ((λ e, (toValid e.1, jclean e.2)) <$> l)
  | _ => j
  end.

Class JSONText := {
  jtext : json → list byte;
  jparse : list byte → option json;
  reint : Z → json;
  redec : string → json;
  timeText : Time → option string;
  parseTime : string → option Time;
}.

Class JSONTextLaws `{JSONText} := {
  jparse_jtext j : jparse (jtext j) = Some (jclean j);
  reint_exact z : Z.abs z ≤ 2 ^ 53 → reint z = JInt z;
  parseTime_timeText t s : timeText t = Some s → valid_utf8 s ∧ parseTime s = Some t;
}.

(** ** Decoding into an [interface{}]

    Objects become maps (the last of equal keys counts), which are written in key order. *)
Fixpoint insertKey (k : string) (v : json) (l : list (string * json)) : list (string * json) :=
  match l with
  | [] => [(k, v)]
  | (k', v') :: l' =>
      if k =s k' then (k, v) :: l'
      else if str_ltb k k' then (k, v) :: l else (k', v') :: insertKey k v l'
  end.

Fixpoint viaInterface `{JSONText} (j : json) : json :=
  match j with
  | JInt z => reint z
  | JDecimal s => redec s
  | JArray l => JArray (viaInterface <$> l)
  | JObject l => JObject (foldl (λ acc e, insertKey e.1 e.2 acc) [] ((λ e, (e.1, viaInterface e.2)) <$> l))
  | _ => j
  end.

(** ** Decoding into a struct

    A key names a field when it is equal up to case; a value of another type is an error,
    [null] leaves the field as it is, other keys are skipped. *)
Definition foldRune (r : Z) : Z :=
  if r =? 8490 then 75 else if r =? 383 then 83 else ascii_upper r.
Definition foldName (s : string) : string := mapRunes foldRune s.
Definition fieldMatches (name key : string) : bool := (key =s name) || (foldName key =s foldName name).

Definition field {A} (dec : json → A → option A) (zero : A) (name : string)
    (l : list (string * json)) : option A :=
  foldl (λ acc e, if fieldMatches name e.1 then acc ≫= dec e.2 else acc) (Some zero) l.

Definition decString (j : json) (cur : string) : option string :=
  match j with JString s => Some s | JNull => Some cur | _ => None end.
Definition decBool (j : json) (cur : bool) : option bool :=
  match j with JBool b => Some b | JNull => Some cur | _ => None end.
Definition decInt (j : json) (cur : Z) : option Z :=
  match j with
  | JInt z => if in_range (- 2 ^ 63) (2 ^ 63 - 1) z then Some z else None
  | JNull => Some cur
  | _ => None
  end.
Fixpoint decElems (l : list json) (cur : list string) : option (list string) :=
  match l with
  | [] => Some []
  | j :: l' =>
      s ← decString j (default "" (head cur));
      rest ← decElems l' (tail cur);
      Some (s :: rest)
  end.
Definition decStrings (j : json) (cur : list string) : option (list string) :=
  match j with JArray l => decElems l cur | JNull => Some [] | _ => None end.
Definition decTime `{JSONText} (j : json) (cur : Time) : option Time :=
  match j with JString s => parseTime s | JNull => Some cur | _ => None end.
Definition decAny `{JSONText} (j : json) (_ : json) : option json := Some (viaInterface j).

(** The fields of an object; [null] decodes as if there were none. *)
Definition fieldsOf (j : json) : option (list (string * json)) :=
  match j with JObject l => Some l | JNull => Some [] | _ => None end.

(** Evaluate the tests on constant keys. *)
Ltac eval_keys :=
  repeat match goal with
  | |- context [toValid (String ?a ?b)] =>
      let v := eval vm_compute in (toValid (String a b)) in change (toValid (String a b)) with v
  | |- context [fieldMatches ?a ?b] =>
      let v := eval vm_compute in (fieldMatches a b) in change (fieldMatches a b) with v
  | |- context [str_ltb ?a ?b] =>
      let v := eval vm_compute in (str_ltb a b) in change (str_ltb a b) with v
  | |- context [String ?a ?b =s ?c] =>
      let v := eval vm_compute in (String a b =s c) in change (String a b =s c) with v
  end.
Ltac run_fields := unfold field; simpl; eval_keys; simpl.

(** ** Lemmas *)

Lemma decElems_strings l : ∀ cur, decElems (JString <$> l) cur = Some l.
Proof. induction l as [|s l IH]; intros cur; simpl; [done|]. by rewrite IH. Qed.

Lemma valid_ascii s : all_bytes is_ascii s = true → valid_utf8 s.
Proof.
  intros Hs. unfold valid_utf8, toValid. induction s as [|c s IH]; [done|].
  simpl in Hs. apply andb_true_iff in Hs as [Hc Hs].
  rewrite mapRunes_cons_ascii; [|done|unfold is_ascii in Hc; bool_prop; pose proof (code_range c); lia].
  by rewrite IH, chr_code.
Qed.

Lemma jclean_strings l :
  Forall valid_utf8 l → jclean <$> (JString <$> l) = JString <$> l.
Proof.
  intros Hl. induction Hl as [|s l Hs _ IH]; [done|]. rewrite !fmap_cons, IH. f_equal.
  simpl. by rewrite Hs.
Qed.

(** ** A concrete text format

    It shows that the laws can hold: the tree is written as the decimal digits of its code. *)
Definition json_leaf : Type := unit + bool + Z + string + string.
Fixpoint to_tree (j : json) : gen_tree json_leaf :=
  match j with
  | JNull => GenLeaf (inl (inl (inl (inl ()))))
  | JBool b => GenLeaf (inl (inl (inl (inr b))))
  | JInt z => GenLeaf (inl (inl (inr z)))
  | JDecimal s => GenLeaf (inl (inr s))
  | JString s => GenLeaf (inr s)
  | JArray l => GenNode 0 (to_tree <$> l)
  | JObject l => GenNode 1 ((λ e, GenNode 0 [GenLeaf (inr e.1); to_tree e.2]) <$> l)
  end.
Fixpoint of_tree (t : gen_tree json_leaf) : json :=
  match t with
  | GenLeaf (inl (inl (inl (inl _)))) => JNull
  | GenLeaf (inl (inl (inl (inr b)))) => JBool b
  | GenLeaf (inl (inl (inr z))) => JInt z
  | GenLeaf (inl (inr s)) => JDecimal s
  | GenLeaf (inr s) => JString s
  | GenNode 0 l => JArray (of_tree <$> l)
  | GenNode _ l =>
      JObject ((λ e, match e with GenNode _ [GenLeaf (inr k); v] => (k, of_tree v) | _ => ("", JNull) end) <$> l)
  end.

Fixpoint of_to_tree (j : json) : of_tree (to_tree j) = j.
Proof.
  destruct j as [| | | | |l|l]; [reflexivity..| |]; simpl; f_equal.
  - induction l as [|j l IH]; [done|]. rewrite !fmap_cons. f_equal; [apply of_to_tree|apply IH].
  - induction l as [|[k j] l IH]; [done|]. rewrite !fmap_cons. f_equal; [|apply IH].
    simpl. by rewrite of_to_tree.
Qed.

Definition digits_text (j : json) : list byte :=
  bytes_of_string (pretty (Npos (encode (to_tree (jclean j))))).
Definition digits_parse (b : list byte) : option json :=
  match digits 0 (string_of_bytes b) with
  | Some (Zpos p) => of_tree <$> decode p
  | _ => None
  end.

(** Times are their nanoseconds; numbers keep their value. *)
Definition digitsJSON : JSONText := {|
  jtext := digits_text; jparse := digits_parse; reint := JInt; redec := JDecimal;
  timeText t := if in_range (- 2 ^ 63) (2 ^ 63 - 1) t then Some (pretty t) else None;
  parseTime s := ParseInt s |}.

Lemma digit_ascii c : is_digit c = true → is_ascii c = true.
Proof. unfold is_digit, is_ascii, in_range. intros. bool_prop. apply Z.ltb_lt. lia. Qed.

Lemma pretty_Z_ascii (z : Z) : all_bytes is_ascii (pretty z) = true.
Proof.
  assert (H : ∀ p, all_bytes is_ascii (pretty (Npos p)) = true).
  { intros p. destruct (pretty_N_digits (Npos p)) as (_ & Hd & _).
    eapply all_bytes_impl; [|exact Hd]. apply digit_ascii. }
  destruct z as [|p|p]; [done|apply H|]. unfold pretty, pretty_Z. simpl. apply H.
Qed.

#[export] Instance digitsJSON_laws : JSONTextLaws (H := digitsJSON).
Proof.
  split.
  - intros j. simpl. unfold digits_parse, digits_text. rewrite string_of_bytes_of_string.
    destruct (pretty_N_digits (Npos (encode (to_tree (jclean j))))) as (-> & _ & _). simpl.
    rewrite decode_encode. simpl. by rewrite of_to_tree.
  - done.
  - simpl. intros t s Ht. destruct (in_range _ _ t) eqn:E; [|done]. injection Ht as <-.
    unfold in_range in E. bool_prop. split; [apply valid_ascii, pretty_Z_ascii|].
    apply ParseInt_pretty. lia.
Qed.
