(* ===== verification/GoHTTP.v ===== *)
(** * GoHTTP: requests, response writers and routing as the HTTP servers use them

    What the handlers of pkg/metrics, pkg/monitor, pkg/clustermon, pkg/admin and pkg/dashboard
    use of net/http.  A response writer has a header map that can still change, and what has
    been sent: the status with the headers of that moment, and the body.  The first
    [WriteHeader] or [Write] fixes status and headers; a status of 204 or 304 has no body. *)

From S2P Require Import Prelude GoLib GoValue GoJSON.
Local Open Scope emqx_scope.
Local Open Scope Z_scope.

(** ** Requests *)

(** The body is the first JSON value of the body, [None] when there is none to be read; the
    form holds the values of a posted form, the basic credentials those of the Authorization
    header, the cookies name and value. *)
Record Request := mkRequest {
  R_Method : string;
  URL_Path : string;
  URL_Query : gmap string (list string);
  R_Body : option json;
  R_Form : gmap string string;
  R_BasicAuth : option (string * string);
  R_Cookies : list (string * string);
}.

Definition MethodGet : string := "GET".
Definition MethodPost : string := "POST".
Definition MethodPut : string := "PUT".
Definition MethodDelete : string := "DELETE".

(** [r.URL.Query().Get(key)]: the first value, or the empty string. *)
Definition Query_Get (r : Request) (key : string) : string :=
  default "" (URL_Query r !! key ≫= head).

(** [r.FormValue(key)]. *)
Definition FormValue (r : Request) (key : string) : string := default "" (R_Form r !! key).

(** [r.Cookie(name)]: the first cookie of that name. *)
Definition Cookie (r : Request) (name : string) : option string :=
  (λ e, e.2.2) <$> list_find (λ c, c.1 = name) (R_Cookies r).

(** ** Response writers *)

Definition StatusOK : Z := 200.
Definition StatusCreated : Z := 201.
Definition StatusNoContent : Z := 204.
Definition StatusFound : Z := 302.
Definition StatusTemporaryRedirect : Z := 307.
Definition StatusBadRequest : Z := 400.
Definition StatusUnauthorized : Z := 401.
Definition StatusNotFound : Z := 404.
Definition StatusMethodNotAllowed : Z := 405.
Definition StatusInternalServerError : Z := 500.
Definition StatusServiceUnavailable : Z := 503.

(** What a handler writes: the line of an encoded JSON value, or text. *)
Inductive chunk :=
  | CJson (j : json)
  | CText (s : string).

(** A cookie to be set: name, value and the instant at which it expires. *)
Record SetCookie := mkSetCookie {
  C_Name : string;
  C_Value : string;
  C_Expires : Time;
}.

Record Sent := mkSent {
  S_Status : Z;
  S_Header : gmap string string;
  S_Cookies : list SetCookie;
}.

Record ResponseWriter := mkResponseWriter {
  W_Header : gmap string string;
  W_Cookies : list SetCookie;
  W_Sent : option Sent;
  W_Body : list chunk;
}.

Definition newWriter : ResponseWriter := mkResponseWriter ∅ [] None [].

Definition ContentType : string := "Content-Type".

Definition Header_Set (k v : string) (w : ResponseWriter) : ResponseWriter :=
  mkResponseWriter (<[k := v]> (W_Header w)) (W_Cookies w) (W_Sent w) (W_Body w).

Definition http_SetCookie (c : SetCookie) (w : ResponseWriter) : ResponseWriter :=
  mkResponseWriter (W_Header w) (W_Cookies w ++ [c]) (W_Sent w) (W_Body w).

(** A second [WriteHeader] is reported as superfluous and changes nothing. *)
Definition WriteHeader (code : Z) (w : ResponseWriter) : ResponseWriter :=
  match W_Sent w with
  | Some _ => w
  | None =>
      mkResponseWriter (W_Header w) (W_Cookies w)
        (Some (mkSent code (W_Header w) (W_Cookies w))) (W_Body w)
  end.

Definition bodyAllowedForStatus (code : Z) : bool :=
  negb (in_range 100 199 code) && negb (code =? 204) && negb (code =? 304).

(** [w.Write]: whether it succeeded. *)
Definition Write (c : chunk) (w : ResponseWriter) : bool * ResponseWriter :=
  let w := WriteHeader StatusOK w in
  match W_Sent w with
  | Some s =>
      if bodyAllowedForStatus (S_Status s)
      then (true, mkResponseWriter (W_Header w) (W_Cookies w) (W_Sent w) (W_Body w ++ [c]))
      else (false, w)
  | None => (false, w)
  end.

Definition newline : string := String (Ascii.ascii_of_nat 10) "".
Definition dquote : string := String (Ascii.ascii_of_nat 34) "".

Definition http_Error (w : ResponseWriter) (msg : string) (code : Z) : ResponseWriter :=
  let w := Header_Set ContentType "text/plain; charset=utf-8" w in
  let w := Header_Set "X-Content-Type-Options" "nosniff" w in
  (Write (CText (msg +:+ newline)) (WriteHeader code w)).2.

Definition http_NotFound (w : ResponseWriter) : ResponseWriter :=
  http_Error w "404 page not found" StatusNotFound.

Definition StatusText (code : Z) : string :=
  if code =? StatusFound then "Found"
  else if code =? StatusTemporaryRedirect then "Temporary Redirect" else "".

(** [http.Redirect] to a clean absolute path without special characters; a GET without a
    content type gets a short page with the link. *)
Definition http_Redirect (w : ResponseWriter) (r : Request) (url : string) (code : Z)
    : ResponseWriter :=
  let hadCT := bool_decide (is_Some (W_Header w !! ContentType)) in
  let w := Header_Set "Location" url w in
  if negb hadCT && ((R_Method r =s "GET") || (R_Method r =s "HEAD")) then
    let w := WriteHeader code (Header_Set ContentType "text/html; charset=utf-8" w) in
    if R_Method r =s "GET" then 
      (Write (CText ("<a href=" +:+ dquote +:+ url +:+ dquote +:+ ">" +:+ StatusText code
                     +:+ "</a>." +:+ newline +:+ newline)) w).2
    else w
  else WriteHeader code w.

Definition ErrBodyNotAllowed : string :=
  "http: request method or response status code does not allow body".

(** [json.NewEncoder(w).Encode(data)] and its error; a value that cannot be encoded writes
    nothing. *)
Definition Encode (data : result json) (w : ResponseWriter) : option string * ResponseWriter :=
  match data with
  | Ok j => let '(ok, w) := Write (CJson j) w in (if ok then None else Some ErrBodyNotAllowed, w)
  | Err e => (Some e, w)
  end.

(** The writer after an encoding whose error the caller drops. *)
Definition Encode_dropped (data : result json) (w : ResponseWriter) : ResponseWriter :=
  (Encode data w).2.

(** ** JSON values *)

(** A map is written in the order of its keys, a struct in the order of its fields. *)
Definition jmap (l : list (string * json)) : json :=
  JObject (foldl (λ acc e, insertKey e.1 e.2 acc) [] l).
Definition jstruct (l : list (string * json)) : json := JObject l.

(** A time is written as text, which fails outside the years 0 to 9999; the zero time. *)
Definition jsonTime `{JSONText} (t : Time) : result json :=
  match timeText t with
  | Some s => Ok (JString s)
  | None => Err "Time.MarshalJSON: year outside of range [0,9999]"
  end.
Definition zeroTimeText : json := JString "0001-01-01T00:00:00Z".

(** Writing the entries of a map or the elements of a slice: the first error counts. *)
Fixpoint resultList {A} (l : list (string * result A)) : result (list (string * A)) :=
  match l with
  | [] => Ok []
  | (k, r) :: l' => let? a := r in let? rest := resultList l' in Ok ((k, a) :: rest)
  end.
Fixpoint resultSeq {A} (l : list (result A)) : result (list A) :=
  match l with
  | [] => Ok []
  | r :: l' => let? a := r in let? rest := resultSeq l' in Ok (a :: rest)
  end.

(** A field with [omitempty]. *)
Definition omitempty (name value : string) : list (string * json) :=
  if value =s "" then [] else [(name, JString value)].

(** Decoding into a pointer: [null] is nil. *)
Definition decPtr {A} (dec : json → A → option A) (zero : A) (j : json) (cur : option A)
    : option (option A) :=
  match j with JNull => Some None | _ => Some <$> dec j (default zero cur) end.
(** Decoding into a map of values: an object is added to the map there is. *)
Definition decMap `{JSONText} (j : json) (cur : option (gmap string json))
    : option (option (gmap string json)) :=
  match j with
  | JNull => Some None
  | JObject l => Some (Some (foldl (λ m e, <[e.1 := viaInterface e.2]> m) (default ∅ cur) l))
  | _ => None
  end.
(** A map that may be nil. *)
Definition mapJSON (m : option (gmap string json)) : json :=
  match m with None => JNull | Some m => jmap (map_to_list m) end.

(** [strings.TrimPrefix]. *)
Definition TrimPrefix (s prefix : string) : string :=
  if strings.HasPrefix s prefix then default s (dropBytes (String.length prefix) s) else s.

(** ** ServeMux

    A pattern that ends in a slash stands for the paths below it, another one for its path;
    of the patterns that apply the longest is chosen.  To register a pattern twice is a
    panic.  The paths are clean ones, and none that lacks only the final slash of a pattern
    without being one itself (/static, /api/v5): the mux redirects those, to the clean path and
    to the pattern, before a handler is called. *)
Definition patternMatches (pattern path : string) : bool :=
  if strings.HasSuffix pattern "/" then strings.HasPrefix path pattern else pattern =s path.

Fixpoint mux_match {H} (routes : list (string * H)) (path : string) : option (string * H) :=
  match routes with
  | [] => None
  | (pattern, h) :: routes' =>
      match mux_match routes' path with
      | Some (pattern', h') =>
          if patternMatches pattern path && (String.length pattern' <? String.length pattern)%nat
          then Some (pattern, h) else Some (pattern', h')
      | None => if patternMatches pattern path then Some (pattern, h) else None
      end
  end.

Definition mux_register {H} (routes new : list (string * H)) : outcome (list (string * H)) :=
  if bool_decide (NoDup (routes ++ new).*1) then Returns (routes ++ new) else Panics.

(** ** Lemmas *)

(** The response that has left: status, content type, body. *)
Definition status (w : ResponseWriter) : option Z := S_Status <$> W_Sent w.
Definition sentHeader (k : string) (w : ResponseWriter) : option string :=
  W_Sent w ≫= λ s, S_Header s !! k.

(** A writer to which nothing has been written. *)
Definition unsent (w : ResponseWriter) : Prop := W_Sent w = None ∧ W_Body w = [].

Lemma status_WriteHeader w code : unsent w → status (WriteHeader code w) = Some code.
Proof. intros [Hs _]. unfold WriteHeader, status. by rewrite Hs. Qed.

Lemma status_Write w c : status (Write c w).2 = status (WriteHeader StatusOK w).
Proof.
  unfold Write, status. destruct (W_Sent (WriteHeader StatusOK w)) eqn:E; simpl; [|by rewrite E].
  case_match; simpl; by rewrite ?E.
Qed.

Lemma WriteHeader_sent w code st : status w = Some st → WriteHeader code w = w.
Proof. unfold WriteHeader, status. by destruct (W_Sent w). Qed.

Lemma unsent_Header_Set k v w : unsent w → unsent (Header_Set k v w).
Proof. done. Qed.
Lemma unsent_SetCookie c w : unsent w → unsent (http_SetCookie c w).
Proof. done. Qed.
Lemma unsent_newWriter : unsent newWriter.
Proof. done. Qed.
#[export] Hint Resolve unsent_Header_Set unsent_SetCookie unsent_newWriter : emqx.

Lemma status_http_Error w msg code : unsent w → status (http_Error w msg code) = Some code.
Proof.
  intros Hw. unfold http_Error. rewrite status_Write.
  erewrite WriteHeader_sent; eauto with emqx; apply status_WriteHeader; eauto with emqx.
Qed.

Lemma status_http_Redirect w r url code :
  unsent w → status (http_Redirect w r url code) = Some code.
Proof.
  intros Hw. unfold http_Redirect. repeat case_match; rewrite ?status_Write;
    try (erewrite WriteHeader_sent by (apply status_WriteHeader; eauto with emqx));
    apply status_WriteHeader; eauto with emqx.
Qed.

(** Writing a body after a status that allows one. *)
Lemma Write_allowed w c code :
  unsent w → bodyAllowedForStatus code = true →
  (Write c (WriteHeader code w)).1 = true ∧ W_Body (Write c (WriteHeader code w)).2 = [c] ∧
  status (Write c (WriteHeader code w)).2 = Some code.
Proof.
  intros [Hs Hb] Hc. unfold Write, WriteHeader, status. rewrite Hs. simpl. rewrite Hc. simpl.
  by rewrite Hb.
Qed.
#[export] Hint Rewrite status_http_Error status_http_Redirect status_WriteHeader using done : emqx_rw.

(** A pattern is found among the routes exactly when one of them matches. *)
Lemma mux_match_Some {H} (routes : list (string * H)) path pattern h :
  mux_match routes path = Some (pattern, h) →
  (pattern, h) ∈ routes ∧ patternMatches pattern path = true ∧
  ∀ p' h', (p', h') ∈ routes → patternMatches p' path = true →
           (String.length p' ≤ String.length pattern)%nat.
Proof.
  revert pattern h. induction routes as [|[p0 h0] routes IH]; intros pattern h; [done|]. simpl.
  destruct (mux_match routes path) as [[p1 h1]|] eqn:E.
  - destruct (IH p1 h1 eq_refl) as (Hin & Hm & Hmax). intros Heq.
    destruct (patternMatches p0 path && (String.length p1 <? String.length p0)%nat) eqn:Ec;
      simplify_eq; split_and!.
    + by left.
    + by bool_prop.
    + intros p' h' [[= <- <-]|Hin']%elem_of_cons Hp'; [done|]. bool_prop.
      specialize (Hmax _ _ Hin' Hp'). lia.
    + by right.
    + done.
    + intros p' h' [[= <- <-]|Hin']%elem_of_cons Hp'; [|by eapply Hmax].
      apply andb_false_iff in Ec as [Ec|Ec]; [congruence|]. bool_prop. lia.
  - destruct (patternMatches p0 path) eqn:Ep; [|done]. intros [= <- <-]. split_and!; [by left|done|].
    intros p' h' [[= <- <-]|Hin']%elem_of_cons Hp'; [done|]. exfalso. clear -E Hin' Hp'.
    induction routes as [|[p2 h2] routes IH]; [by apply not_elem_of_nil in Hin'|]. simpl in E.
    destruct (mux_match routes path) as [[? ?]|] eqn:E2; [by case_match|].
    apply elem_of_cons in Hin' as [[= <- <-]|Hin']; [by rewrite Hp' in E|]. by apply IH.
Qed.

Lemma mux_match_is_Some {H} (routes : list (string * H)) path pattern h :
  (pattern, h) ∈ routes → patternMatches pattern path = true → is_Some (mux_match routes path).
Proof.
  intros Hin Hp. induction routes as [|[p0 h0] routes IH]; [by apply not_elem_of_nil in Hin|]. simpl.
  destruct (mux_match routes path) as [[p1 h1]|]; [by case_match; eauto|].
  apply elem_of_cons in Hin as [[= <- <-]|Hin]; [rewrite Hp; eauto|].
  destruct (IH Hin) as [? ?]. discriminate.
Qed.

(** The route whose pattern applies and is longer than every other that applies is taken. *)
Lemma mux_match_intro {H} (routes : list (string * H)) path pattern h :
  (pattern, h) ∈ routes → patternMatches pattern path = true →
  (∀ p' h', (p', h') ∈ routes → patternMatches p' path = true →
     (p', h') = (pattern, h) ∨ (String.length p' < String.length pattern)%nat) →
  mux_match routes path = Some (pattern, h).
Proof.
  intros Hin Hp Hother. destruct (mux_match_is_Some _ _ _ _ Hin Hp) as [[p1 h1] E].
  rewrite E. destruct (mux_match_Some _ _ _ _ E) as (Hin1 & Hp1 & Hmax). specialize (Hmax _ _ Hin Hp).
  destruct (Hother _ _ Hin1 Hp1) as [->|?]; [done|lia].
Qed.
