(* ===== verification/TopicMatch.v ===== *)
(** * TopicMatch: the broker's topic-filter matchers

    Five packages match a topic name against a subscription filter, each with a routine
    of its own.  This file states the level-wise matching rule of MQTT 3.1.1 (section 4.7.1)
    as the relation [mqtt_match], translates the five routines, and compares them with
    the rule and with each other:

    - [matchesTopicFilter] of pkg/topic/store.go (routing),
    - [topicMatches] of pkg/storage/messages/memory_backend.go and its copy
      [MatchTopicFilter] of pkg/retainer/retainer.go (retained messages),
    - [matchTopicLevels], [matchMQTTTopicFilter] of pkg/blacklist/manager.go,
    - [basicTopicMatch] of pkg/persistent/offline.go (offline queues). *)

From S2P Require Import Prelude GoLib.
From Equations Require Import Equations.
Local Open Scope emqx_scope.
Local Open Scope string_scope.
Local Open Scope nat_scope.

(** ** The rule *)

(** The levels of a topic name or of a filter. *)
Definition levels (s : string) : list string := strings.Split s slash.

(** [mqtt_match ts fs]: the topic levels [ts] match the filter levels [fs].  ["#"] stands
    for any number of levels (also none, so ["a/#"] matches ["a"]) and is last; ["+"]
    stands for one level. *)
Inductive mqtt_match : list string → list string → Prop :=
  | mm_nil : mqtt_match [] []
  | mm_hash ts : mqtt_match ts ["#"]
  | mm_plus t ts fs : mqtt_match ts fs → mqtt_match (t :: ts) ("+" :: fs)
  | mm_level t ts fs : t ≠ "#" → mqtt_match ts fs → mqtt_match (t :: ts) (t :: fs).
#[export] Hint Constructors mqtt_match : emqx.

(** ["#"] occurs as the last level only. *)
Fixpoint hash_last (fs : list string) : bool :=
  match fs with
  | [] => true
  | [_] => true
  | f :: fs' => (f <>s "#") && hash_last fs'
  end.

(** No level is a wildcard. *)
Definition no_wildcard (fs : list string) : bool :=
  forallb (λ f, (f <>s "#") && (f <>s "+")) fs.

(** ** Definitions: the routines *)

(** The loop of [matchesTopicFilter]. *)
Definition matchesTopicSegments (topicSegments filterSegments : list string) : bool :=
  let topicLen := length topicSegments in
  let filterLen := length filterSegments in
  default (bool_decide (topicLen = filterLen))
    (go_for filterLen 0 (λ i,
      if topicLen <=? i then
        Some ((nth i filterSegments "" =s "#") && (i =? filterLen - 1))
      else
        let filterSegment := nth i filterSegments "" in
        let topicSegment := nth i topicSegments "" in
        if filterSegment =s "#" then Some (i =? filterLen - 1)
        else if (filterSegment <>s "+") && (filterSegment <>s topicSegment) then Some false
        else None)).

Definition matchesTopicFilter (topic filter : string) : bool :=
  matchesTopicSegments (strings.Split topic slash) (strings.Split filter slash).

(** The part of [topicMatches] after the two shortcuts. *)
Definition topicMatchesLevels (topicLevels filterLevels : list string) : bool :=
  if (0 <? length filterLevels)
     && (nth (length filterLevels - 1) filterLevels "" =s "#") then
    default true
      (go_for (length filterLevels - 1) 0 (λ i,
        if length topicLevels <=? i then Some false
        else if (nth i filterLevels "" <>s "+")
                && (nth i filterLevels "" <>s nth i topicLevels "") then Some false
        else None))
  else if negb (length topicLevels =? length filterLevels) then false
  else
    default true
      (go_for (length filterLevels) 0 (λ i,
        if nth i filterLevels "" =s "+" then None
        else if nth i filterLevels "" <>s nth i topicLevels "" then Some false
        else None)).

Definition topicMatches (topic filter : string) : bool :=
  if topic =s filter then true
  else if filter =s "#" then true
  else topicMatchesLevels (strings.Split topic slash) (strings.Split filter slash).

(** The retainer's copy, line for line the same. *)
Definition MatchTopicFilter (topic filter : string) : bool :=
  if topic =s filter then true
  else if filter =s "#" then true
  else topicMatchesLevels (strings.Split topic slash) (strings.Split filter slash).

(** The blacklist's recursive matcher; it terminates because the filter index grows. *)
Equations? matchTopicLevels (topicLevels filterLevels : list string)
    (topicIndex filterIndex : nat) : bool
    by wf (length filterLevels - filterIndex) lt :=
  matchTopicLevels topicLevels filterLevels topicIndex filterIndex
    with le_lt_dec (length filterLevels) filterIndex => {
    | left _ := length topicLevels <=? topicIndex;
    | right _ with length topicLevels <=? topicIndex => {
      | true := (filterIndex =? length filterLevels - 1)
                && (nth filterIndex filterLevels "" =s "#");
      | false with nth filterIndex filterLevels "" =s "#" => {
        | true := true;
        | false with nth filterIndex filterLevels "" =s "+" => {
          | true := matchTopicLevels topicLevels filterLevels (S topicIndex) (S filterIndex);
          | false with nth filterIndex filterLevels "" =s nth topicIndex topicLevels "" => {
            | true := matchTopicLevels topicLevels filterLevels (S topicIndex) (S filterIndex);
            | false := false } } } } }.
Proof. all: lia. Defined.

Definition matchMQTTTopicFilter (topic filter : string) : bool :=
  matchTopicLevels (strings.Split topic slash) (strings.Split filter slash) 0 0.

(** The offline queue's matcher. *)
Definition basicTopicMatch (topic filter : string) : bool :=
  if topic =s filter then true
  else if filter =s "#" then true
  else false.

(** [topicMatches] of pkg/persistent and [BasicTopicMatcher.Matches] call it. *)
Definition persistent_topicMatches (topic filter : string) : bool := basicTopicMatch topic filter.
Definition BasicTopicMatcher_Matches (publishTopic subscriptionTopic : string) : bool :=
  persistent_topicMatches publishTopic subscriptionTopic.

(** ** Unfolding the loops level by level *)

Lemma matchesTopicSegments_nil_r ts : matchesTopicSegments ts [] = bool_decide (ts = []).
Proof. unfold matchesTopicSegments; simpl. apply bool_decide_ext. by destruct ts. Qed.

Lemma last_index {A} (x : A) (l : list A) : (0 =? length (x :: l) - 1) = bool_decide (l = []).
Proof. by destruct l. Qed.

Lemma matchesTopicSegments_nil_l f fs :
  matchesTopicSegments [] (f :: fs) = (f =s "#") && bool_decide (fs = []).
Proof. unfold matchesTopicSegments. rewrite <-(last_index f fs). simpl. by destruct (_ && _). Qed.

Lemma matchesTopicSegments_cons t ts f fs :
  matchesTopicSegments (t :: ts) (f :: fs) =
  if f =s "#" then bool_decide (fs = [])
  else if (f <>s "+") && (f <>s t) then false
  else matchesTopicSegments ts fs.
Proof.
  unfold matchesTopicSegments at 1. cbn [length]. rewrite go_for_S, go_for_shift.
  cbn [Nat.leb nth]. destruct (f =s "#"); [by rewrite <-(last_index f fs)|].
  destruct (_ && _); [done|]. unfold matchesTopicSegments. f_equal.
  - apply bool_decide_ext. lia.
  - apply go_for_ext. intros j Hj. cbn [Nat.leb nth].
    replace (S j =? S (length fs) - 1) with (j =? length fs - 1); [done|].
    apply eq_true_iff_eq. rewrite !Nat.eqb_eq. lia.
Qed.

(** [matchTopicLevels] from equal offsets is a recursion on the remaining levels. *)
Fixpoint matchRest (ts fs : list string) {struct fs} : bool :=
  match fs, ts with
  | [], _ => bool_decide (ts = [])
  | f :: fs', [] => (f =s "#") && bool_decide (fs' = [])
  | f :: fs', t :: ts' =>
      if f =s "#" then true
      else if f =s "+" then matchRest ts' fs'
      else if f =s t then matchRest ts' fs' else false
  end.

Lemma drop_nth {A} (l : list A) i d : i < length l → drop i l = nth i l d :: drop (S i) l.
Proof.
  intros Hi. destruct (l !! i) as [x|] eqn:E; [|apply lookup_ge_None in E; lia].
  erewrite drop_S by done. by rewrite (nth_lookup_Some _ _ _ _ E).
Qed.

Lemma drop_nil_iff {A} (l : list A) i : drop i l = [] ↔ length l ≤ i.
Proof.
  split; [|apply drop_ge]. intros H. apply (f_equal length) in H.
  rewrite length_drop in H. simpl in H. lia.
Qed.

Lemma leb_drop_nil {A} (l : list A) i : (length l <=? i) = bool_decide (drop i l = []).
Proof.
  apply eq_true_iff_eq. rewrite Nat.leb_le, bool_decide_eq_true. symmetry. apply drop_nil_iff.
Qed.

Lemma matchTopicLevels_rest ts fs i j :
  matchTopicLevels ts fs i j = matchRest (drop i ts) (drop j fs).
Proof.
  funelim (matchTopicLevels ts fs i j).
  all: clear Heqcall; bool_prop; try rewrite (drop_nth filterLevels filterIndex "") by done;
    try rewrite (drop_nth topicLevels topicIndex "") by done.
  - rewrite (drop_ge filterLevels) by done. simpl. apply leb_drop_nil.
  - rewrite (drop_ge topicLevels) by done. simpl. rewrite andb_comm, <-leb_drop_nil.
    f_equal. apply eq_true_iff_eq. rewrite Nat.eqb_eq, Nat.leb_le. lia.
  - simpl. by rewrite bool_decide_eq_true_2.
  - simpl. by rewrite bool_decide_eq_false_2, bool_decide_eq_true_2 by done.
  - simpl. rewrite !bool_decide_eq_false_2 by done. by rewrite bool_decide_eq_true_2.
  - simpl. by rewrite !bool_decide_eq_false_2 by done.
Qed.

(** ** The routing matcher is the MQTT rule *)

Lemma matchesTopicSegments_spec ts fs : matchesTopicSegments ts fs = true ↔ mqtt_match ts fs.
Proof.
  revert ts. induction fs as [|f fs IH]; intros ts.
  { rewrite matchesTopicSegments_nil_r, bool_decide_eq_true. split.
    - intros ->. constructor.
    - by inversion 1. }
  destruct ts as [|t ts].
  { rewrite matchesTopicSegments_nil_l, andb_true_iff, !bool_decide_eq_true. split.
    - intros [-> ->]. constructor.
    - by inversion 1. }
  rewrite matchesTopicSegments_cons. destruct (f =s "#") eqn:Ef; bool_prop.
  { subst f. rewrite bool_decide_eq_true. split.
    - intros ->. constructor.
    - by inversion 1. }
  destruct ((f <>s "+") && (f <>s t)) eqn:E; bool_prop.
  { split; [done|]. by inversion 1. }
  rewrite IH. split.
  - intros Hm. apply andb_false_iff in E as [E|E]; bool_prop; subst; by constructor.
  - by inversion 1.
Qed.

(** A filter with a misplaced ["#"] matches nothing. *)
Lemma mqtt_match_hash_last ts fs : mqtt_match ts fs → hash_last fs = true.
Proof.
  induction 1 as [| |t ts fs _ IH|t ts fs Ht _ IH]; [done|done| |].
  - destruct fs; [done|]. exact IH.
  - destruct fs; [done|]. simpl in *. by rewrite bool_decide_eq_false_2.
Qed.

Lemma matchesTopicFilter_iff topic filter :
  matchesTopicFilter topic filter = true ↔ mqtt_match (levels topic) (levels filter).
Proof. apply matchesTopicSegments_spec. Qed.

(** C8. The router's matcher [matchesTopicFilter] accepts a topic for a filter exactly when
    the levels of the topic match the levels of the filter by the MQTT rule: ["+"] for one
    level, a last ["#"] for all the remaining levels and for the parent level too, equal
    strings otherwise; a ["#"] that is not last matches nothing. *)
Theorem matchesTopicFilter_spec topic filter :
  (matchesTopicFilter topic filter = true ↔ mqtt_match (levels topic) (levels filter)) ∧
  (hash_last (levels filter) = false → matchesTopicFilter topic filter = false).
Proof.
  split; [apply matchesTopicFilter_iff|]. intros Hh. apply not_true_is_false. intros Hm.
  apply matchesTopicFilter_iff, mqtt_match_hash_last in Hm. congruence.
Qed.

(** ** The other matchers agree with it on filters whose ["#"] is last *)

Lemma hash_last_cons f f' fs :
  hash_last (f :: f' :: fs) = true → f ≠ "#" ∧ hash_last (f' :: fs) = true.
Proof. simpl. intros H. by bool_prop. Qed.

(** A filter matches itself, read as a topic. *)
Lemma matchesTopicSegments_refl fs : hash_last fs = true → matchesTopicSegments fs fs = true.
Proof.
  induction fs as [|f fs IH]; [done|]. intros Hh. rewrite matchesTopicSegments_cons.
  destruct fs as [|f' fs].
  - destruct (f =s "#"); [done|]. rewrite (bool_decide_eq_true_2 (f = f)) by done.
    by rewrite andb_false_r.
  - apply hash_last_cons in Hh as [Hf Hh]. rewrite (bool_decide_eq_false_2 (f = "#")) by done.
    rewrite (bool_decide_eq_true_2 (f = f)) by done. rewrite andb_false_r. by apply IH.
Qed.

Lemma topicMatchesLevels_one ts f :
  topicMatchesLevels ts [f] =
  (f =s "#") || match ts with [t] => (f =s "+") || (f =s t) | _ => false end.
Proof.
  unfold topicMatchesLevels. cbn [length Nat.sub Nat.ltb Nat.leb nth andb].
  destruct (f =s "#"); [done|]. destruct ts as [|t [|t' ts]]; [done| |done]. simpl.
  destruct (f =s "+"); [done|]. by destruct (f =s t).
Qed.

Lemma topicMatchesLevels_short f f' fs : topicMatchesLevels [] (f :: f' :: fs) = false.
Proof.
  unfold topicMatchesLevels. case_match; [|done].
  cbn [length Nat.sub]. by rewrite go_for_S.
Qed.

Lemma topicMatchesLevels_cons t ts f f' fs :
  topicMatchesLevels (t :: ts) (f :: f' :: fs) =
  if (f <>s "+") && (f <>s t) then false else topicMatchesLevels ts (f' :: fs).
Proof.
  unfold topicMatchesLevels.
  change (nth (length (f :: f' :: fs) - 1) (f :: f' :: fs) "")
    with (nth (length (f' :: fs) - 0) (f :: f' :: fs) "").
  rewrite Nat.sub_0_r. change (nth (length (f' :: fs)) (f :: f' :: fs) "")
    with (nth (length fs) (f' :: fs) "").
  replace (length (f' :: fs) - 1) with (length fs) by (simpl; lia).
  change (0 <? length (f :: f' :: fs)) with true. change (0 <? length (f' :: fs)) with true.
  cbn [andb]. destruct (nth (length fs) (f' :: fs) "" =s "#") eqn:El.
  - replace (length (f :: f' :: fs) - 1) with (S (length fs)) by (simpl; lia).
    rewrite go_for_S, go_for_shift. cbn [length Nat.leb nth].
    by destruct ((f <>s "+") && (f <>s t)).
  - cbn [length]. destruct (negb (length ts =? S (length fs))) eqn:En.
    { cbn [Nat.eqb]. rewrite En. by case_match. }
    cbn [Nat.eqb]. rewrite En. rewrite go_for_S, go_for_shift. cbn [nth].
    destruct (f =s "+"); cbn [negb andb]; [done|]. by destruct (f =s t).
Qed.

Lemma topicMatchesLevels_eq ts f fs :
  hash_last (f :: fs) = true →
  topicMatchesLevels ts (f :: fs) = matchesTopicSegments ts (f :: fs).
Proof.
  revert ts f. induction fs as [|f' fs IH]; intros ts f Hh.
  { rewrite topicMatchesLevels_one. destruct ts as [|t ts].
    { rewrite matchesTopicSegments_nil_l. by destruct (f =s "#"). }
    rewrite matchesTopicSegments_cons, matchesTopicSegments_nil_r.
    destruct (f =s "#"), (f =s "+"), (f =s t), ts; done. }
  apply hash_last_cons in Hh as [Hf Hh]. destruct ts as [|t ts].
  - by rewrite topicMatchesLevels_short, matchesTopicSegments_nil_l, andb_false_r.
  - rewrite topicMatchesLevels_cons, matchesTopicSegments_cons, IH by done.
    by rewrite (bool_decide_eq_false_2 (f = "#")).
Qed.

Lemma topicMatches_matchesTopicFilter topic filter :
  hash_last (levels filter) = true →
  topicMatches topic filter = matchesTopicFilter topic filter.
Proof.
  unfold topicMatches, matchesTopicFilter, levels. intros Hh.
  destruct (topic =s filter) eqn:E1; bool_prop.
  { subst. symmetry. by apply matchesTopicSegments_refl. }
  destruct (filter =s "#") eqn:E2; bool_prop.
  { subst. symmetry. apply matchesTopicSegments_spec. constructor. }
  pose proof (Split_nonempty filter slash).
  destruct (strings.Split filter slash); [done|]. by apply topicMatchesLevels_eq.
Qed.

Lemma matchRest_eq ts fs : hash_last fs = true → matchRest ts fs = matchesTopicSegments ts fs.
Proof.
  revert ts. induction fs as [|f fs IH]; intros ts Hh.
  { by rewrite matchesTopicSegments_nil_r. }
  assert (hash_last fs = true ∧ (f = "#" → fs = [])) as [Hfs Hlast].
  { destruct fs; [done|]. apply hash_last_cons in Hh as [Hf Hh']. by split. }
  destruct ts as [|t ts]; simpl.
  { by rewrite matchesTopicSegments_nil_l. }
  rewrite matchesTopicSegments_cons, IH by done.
  destruct (f =s "#") eqn:Ef; bool_prop.
  { by rewrite bool_decide_eq_true_2 by auto. }
  by destruct (f =s "+"), (f =s t).
Qed.

Lemma matchMQTTTopicFilter_matchesTopicFilter topic filter :
  hash_last (levels filter) = true →
  matchMQTTTopicFilter topic filter = matchesTopicFilter topic filter.
Proof. intros Hh. unfold matchMQTTTopicFilter. rewrite matchTopicLevels_rest. by apply matchRest_eq. Qed.

(** On every filter whose ["#"] occurs at the end only (what SUBSCRIBE accepts), the
    storage backend's [topicMatches], its copy in the retainer, the blacklist's recursive
    matcher and the router's matcher give the same answer for every topic: retained
    messages, blacklist entries and live routing see the same set of topics. *)
Theorem matchers_agree topic filter :
  hash_last (levels filter) = true →
  topicMatches topic filter = matchesTopicFilter topic filter ∧
  MatchTopicFilter topic filter = matchesTopicFilter topic filter ∧
  matchMQTTTopicFilter topic filter = matchesTopicFilter topic filter.
Proof.
  intros Hh. split_and!.
  - by apply topicMatches_matchesTopicFilter.
  - by apply topicMatches_matchesTopicFilter.
  - by apply matchMQTTTopicFilter_matchesTopicFilter.
Qed.

Lemma matchers_agree_witness :
  hash_last (levels "sensors/+/#") = true ∧
  topicMatches "sensors/kitchen" "sensors/+/#" = matchesTopicFilter "sensors/kitchen" "sensors/+/#" ∧
  matchesTopicFilter "sensors/kitchen" "sensors/+/#" = true.
Proof.
  split; [reflexivity|]. split; [|vm_compute; reflexivity].
  apply (matchers_agree "sensors/kitchen" "sensors/+/#"). reflexivity.
Defined.

(** ** The offline queue's matcher *)

Lemma no_wildcard_hash_last fs : no_wildcard fs = true → hash_last fs = true.
Proof.
  induction fs as [|f fs IH]; [done|]. unfold no_wildcard. simpl. intros H. bool_prop.
  destruct fs; [done|]. rewrite bool_decide_eq_false_2 by done. by apply IH.
Qed.

Lemma mqtt_match_no_wildcard ts fs : no_wildcard fs = true → mqtt_match ts fs → ts = fs.
Proof.
  intros Hw Hm. induction Hm; unfold no_wildcard in *; simpl in *; bool_prop; try done.
  f_equal. auto.
Qed.

Lemma basicTopicMatch_sound topic filter :
  hash_last (levels filter) = true →
  basicTopicMatch topic filter = true → matchesTopicFilter topic filter = true.
Proof.
  unfold basicTopicMatch. intros Hh Hb. destruct (topic =s filter) eqn:E1; bool_prop.
  { subst. by apply matchesTopicSegments_refl. }
  destruct (filter =s "#") eqn:E2; bool_prop; [|done].
  subst. apply matchesTopicSegments_spec. constructor.
Qed.

(** The offline queue's matcher never reports a match the router would not report, and
    it coincides with the router on wildcard-free filters and on ["#"]; on any other
    wildcard filter it accepts no topic but the filter's own text, so that an offline
    subscriber with such a filter is matched by no real topic. *)
Theorem basicTopicMatch_exact topic filter :
  hash_last (levels filter) = true →
  (basicTopicMatch topic filter = true → matchesTopicFilter topic filter = true) ∧
  (no_wildcard (levels filter) = true ∨ filter = "#" →
     basicTopicMatch topic filter = matchesTopicFilter topic filter) ∧
  (filter ≠ "#" → topic ≠ filter → basicTopicMatch topic filter = false).
Proof.
  intros Hh. split_and!.
  - by apply basicTopicMatch_sound.
  - intros Hw. apply eq_true_iff_eq. split; [by apply basicTopicMatch_sound|].
    intros Hm. unfold basicTopicMatch. destruct Hw as [Hw| ->].
    + apply matchesTopicSegments_spec, mqtt_match_no_wildcard in Hm; [|done].
      apply Split_inj in Hm. by rewrite bool_decide_eq_true_2.
    + by case_match.
  - intros H1 H2. unfold basicTopicMatch. by rewrite !bool_decide_eq_false_2.
Qed.

Lemma basicTopicMatch_exact_witness :
  hash_last (levels "room/+") = true ∧
  matchesTopicFilter "room/1" "room/+" = true ∧ basicTopicMatch "room/1" "room/+" = false.
Proof.
  split; [reflexivity|]. split; [reflexivity|].
  apply (basicTopicMatch_exact "room/1" "room/+"); [reflexivity|done|done].
Defined.
