(* ===== verification/Actor.v ===== *)
(** * Actor: mailboxes and supervision

    Package pkg/actor: a mailbox is a buffered Go channel.  [Send] blocks while the buffer
    is full, [Receive] blocks while it is empty and the context is live; both are modelled
    by their enabled steps.  Package pkg/supervisor: the monitor loop that restarts a
    child according to its strategy. *)

From S2P Require Import Prelude GoLib.

(** ** Mailboxes *)

(** A [*Mailbox]: [None] is [nil], [Some l] the mailbox at location [l]. *)
Abbreviation MailboxPtr := (option positive).

Record Mailbox (M : Type) := mkMailbox {
  messages : list M;   (** the channel's buffer, oldest first *)
  capacity : nat;      (** [make(chan any, size)] *)
}.
Arguments mkMailbox {_} _ _.
Arguments messages {_} _.
Arguments capacity {_} _.

Definition NewMailbox {M} (size : nat) : Mailbox M := mkMailbox [] size.

(** [mb.messages <- msg]: [None] while the buffer is full (the sender is blocked). *)
Definition Send {M} (mb : Mailbox M) (msg : M) : option (Mailbox M) :=
  if length (messages mb) <? capacity mb
  then Some (mkMailbox (messages mb ++ [msg]) (capacity mb)) else None.

(** What [Receive] returns. *)
Inductive Received (M : Type) :=
  | RecvMsg (m : M)       (** [msg, nil] *)
  | RecvCtxErr.           (** [nil, ctx.Err()] *)
Arguments RecvMsg {_} _.
Arguments RecvCtxErr {_}.

(** The [select] of [Receive]: when both cases are ready Go picks either. *)
Inductive Receive {M} : bool → Mailbox M → Received M → Mailbox M → Prop :=
  | receive_done mb : Receive true mb RecvCtxErr mb
  | receive_msg ctxDone m ms cap :
      Receive ctxDone (mkMailbox (m :: ms) cap) (RecvMsg m) (mkMailbox ms cap).

(** Runs of a mailbox, with the messages sent and received so far. *)
Inductive mailbox_run {M} (size : nat) : list M → list M → Mailbox M → Prop :=
  | run_new : mailbox_run size [] [] (NewMailbox size)
  | run_send sent recvd mb msg mb' :
      mailbox_run size sent recvd mb → Send mb msg = Some mb' →
      mailbox_run size (sent ++ [msg]) recvd mb'
  | run_recv sent recvd mb ctxDone m mb' :
      mailbox_run size sent recvd mb → Receive ctxDone mb (RecvMsg m) mb' →
      mailbox_run size sent (recvd ++ [m]) mb'
  | run_ctx sent recvd mb mb' :
      mailbox_run size sent recvd mb → Receive true mb RecvCtxErr mb' →
      mailbox_run size sent recvd mb'.

(** ** Supervision *)

Inductive RestartStrategy := RestartPermanent | RestartTransient | RestartTemporary.
#[export] Instance RestartStrategy_eq_dec : EqDecision RestartStrategy.
Proof. solve_decision. Defined.

(** How one run of the child ended: [err] (a panic is turned into an error by the deferred
    [recover]) and whether the context is done when it ended. *)
Inductive Exit := ExitNormal | ExitError | ExitPanic.
Record ChildRun := mkChildRun { run_exit : Exit; run_ctxDone : bool }.

(** [err != nil] after the run. *)
Definition run_err (e : Exit) : bool :=
  match e with ExitNormal => false | ExitError | ExitPanic => true end.

Definition shouldRestart (strategy : RestartStrategy) (err : bool) : bool :=
  match strategy with
  | RestartPermanent => true
  | RestartTransient => err
  | RestartTemporary => false
  end.

(** Why [monitorChild] stopped. *)
Inductive MonitorEnd := StoppedByContext | NotRestarted | StillRunning.

(** [monitorChild] over the successive runs of the child: the number of restarts
    ([SupervisorRestartsTotal]) and how the loop ended; [StillRunning] when the given runs
    are used up and the child has been started once more. *)
Fixpoint monitorChild (strategy : RestartStrategy) (runs : list ChildRun) : nat * MonitorEnd :=
  match runs with
  | [] => (0, StillRunning)
  | r :: runs' =>
      if run_ctxDone r then (0, StoppedByContext)
      else if shouldRestart strategy (run_err (run_exit r)) then
        let '(n, e) := monitorChild strategy runs' in (S n, e)
      else (0, NotRestarted)
  end.

(** [Start]: refuses an empty list of children, otherwise starts every child; the result
    is the list of children started. *)
Definition SupervisorStart {Spec} (specs : list Spec) : option (list Spec) :=
  if length specs =? 0 then None else Some specs.

(** ** Theorems: mailboxes *)

Lemma mailbox_run_split {M} size (sent recvd : list M) mb :
  mailbox_run size sent recvd mb →
  capacity mb = size ∧ sent = recvd ++ messages mb ∧ length (messages mb) ≤ size.
Proof.
  induction 1 as [|sent recvd mb msg mb' _ (Hc & -> & Hl) Hs
                  |sent recvd mb d m mb' _ (Hc & -> & Hl) Hr
                  |sent recvd mb mb' _ IH Hr].
  - split_and!; simpl; [done|done|lia].
  - unfold Send in Hs. case_match; bool_prop; simplify_eq/=.
    rewrite length_app; simpl. split_and!; [done|by rewrite app_assoc|lia].
  - inversion Hr; simplify_eq/=. rewrite <-app_assoc. split_and!; [done|done|lia].
  - inversion Hr; by subst.
Qed.

(** A mailbox is a bounded FIFO queue: in every run, the messages received so far are a
    prefix of the messages sent, in the order they were sent, what is in between is
    exactly the buffer, and the buffer never exceeds the size it was made with. *)
Theorem mailbox_fifo {M} size (sent recvd : list M) mb :
  mailbox_run size sent recvd mb →
  sent = recvd ++ messages mb ∧ length (messages mb) ≤ size.
Proof. intros H. by apply mailbox_run_split in H as (_ & ? & ?). Qed.

Lemma mailbox_fifo_witness :
  mailbox_run 2 [1; 2] [1] (mkMailbox [2] 2) ∧ [1; 2] = [1] ++ [2].
Proof.
  assert (H : mailbox_run 2 [1; 2] [1] (mkMailbox [2] 2)).
  { apply (run_send 2 [1] [1] (mkMailbox [] 2) 2); [|reflexivity].
    apply (run_recv 2 [1] [] (mkMailbox [1] 2) false 1); [|constructor].
    apply (run_send 2 [] [] (NewMailbox 2) 1); [constructor|reflexivity]. }
  split; [exact H|]. apply (mailbox_fifo 2 [1; 2] [1] (mkMailbox [2] 2) H).
Defined.

(** ** Theorems: supervision *)

(** The monitor loop restarts a child exactly as its strategy says: the number of
    restarts counts the leading runs that end with the context live and call for a
    restart; a transient child is restarted after an error or a panic and never after a
    normal end, a permanent one always, a temporary one never; and no child is restarted
    once the context is done. *)
Theorem monitorChild_spec strategy runs :
  let restarting r := negb (run_ctxDone r) && shouldRestart strategy (run_err (run_exit r)) in
  ∃ n, monitorChild strategy runs =
       (n, match runs !! n with
           | None => StillRunning
           | Some r => if run_ctxDone r then StoppedByContext else NotRestarted
           end) ∧
       Forall (λ r, restarting r = true) (take n runs) ∧
       match runs !! n with None => n = length runs | Some r => restarting r = false end.
Proof.
  intros restarting. induction runs as [|r runs IH]; simpl.
  { exists 0. split_and!; [done|constructor|done]. }
  destruct (restarting r) eqn:Er.
  - unfold restarting in Er. apply andb_true_iff in Er as [Hd Hs].
    apply negb_true_iff in Hd. rewrite Hd, Hs. destruct IH as (n & Hm & Hf & He).
    exists (S n). rewrite Hm. simpl. split_and!; [done| |].
    + constructor; [|done]. unfold restarting. by rewrite Hd, Hs.
    + case_match; [done|]. by f_equal.
  - exists 0. simpl. split_and!; [|constructor|done].
    unfold restarting in Er. destruct (run_ctxDone r); [done|]. simpl in Er. by rewrite Er.
Qed.
