(* ===== verification/TopicStore.v ===== *)
(** * TopicStore: the subscription table (pkg/topic/store.go)

    The broker-wide table of subscriptions: regular subscriptions by filter, shared
    subscriptions ([$share/group/filter]) by group key with a round-robin index.  Every
    method runs under the store's lock and is one atomic operation here. *)

From S2P Require Import Prelude GoLib TopicMatch Actor.
Local Open Scope emqx_scope.
Local Open Scope string_scope.
Local Open Scope list_scope.
Local Open Scope nat_scope.

(** ** State *)

Record Subscription := mkSubscription {
  Sub_Mailbox : MailboxPtr;
  Sub_QoS : Z;
}.
#[export] Instance Subscription_eq_dec : EqDecision Subscription.
Proof. solve_decision. Defined.

Record SharedSubscription := mkSharedSubscription {
  Group : string;
  Topic : string;
  Mailboxes : list Subscription;
  NextIndex : nat;
}.

Record Store := mkStore {
  subscriptions : gmap string (list Subscription);
  sharedSubscriptions : gmap string SharedSubscription;
}.

(** ** Operations *)

Definition NewStore : Store := mkStore ∅ ∅.

(** The update in place changes the first entry of the mailbox. *)
Fixpoint addOrUpdateSubscription (subs : list Subscription) (mailbox : MailboxPtr) (qos : Z)
    : list Subscription :=
  match subs with
  | [] => [mkSubscription mailbox qos]
  | existing :: subs' =>
      if bool_decide (Sub_Mailbox existing = mailbox)
      then mkSubscription (Sub_Mailbox existing) qos :: subs'
      else existing :: addOrUpdateSubscription subs' mailbox qos
  end.

(** The loops that keep the subscriptions of the other mailboxes. *)
Definition withoutMailbox (mailbox : MailboxPtr) (subs : list Subscription) : list Subscription :=
  filter (λ sub, Sub_Mailbox sub ≠ mailbox) subs.

Definition subscribeShared (s : Store) (shareTopic : string) (mailbox : MailboxPtr) (qos : Z)
    : Store :=
  match strings.SplitN shareTopic slash 3 with
  | [_; group; actualTopic] =>
      let groupKey := group +:+ "/" +:+ actualTopic in
      let sharedSub :=
        match sharedSubscriptions s !! groupKey with
        | Some sharedSub => sharedSub
        | None => mkSharedSubscription group actualTopic [] 0
        end in
      mkStore (subscriptions s)
        (<[groupKey := mkSharedSubscription (Group sharedSub) (Topic sharedSub)
             (addOrUpdateSubscription (Mailboxes sharedSub) mailbox qos)
             (NextIndex sharedSub)]> (sharedSubscriptions s))
  | _ =>
      let old := default [] (subscriptions s !! shareTopic) in
      mkStore (<[shareTopic := old ++ [mkSubscription mailbox qos]]> (subscriptions s))
        (sharedSubscriptions s)
  end.

Definition Subscribe (s : Store) (topic : string) (mailbox : MailboxPtr) (qos : Z) : Store :=
  if strings.HasPrefix topic "$share/" then subscribeShared s topic mailbox qos
  else
    mkStore (<[topic := addOrUpdateSubscription (default [] (subscriptions s !! topic)) mailbox qos]>
               (subscriptions s))
      (sharedSubscriptions s).

(** The regular removal, which [unsubscribeShared] repeats for a malformed share filter. *)
Definition unsubscribeRegular (s : Store) (topic : string) (mailbox : MailboxPtr) : Store :=
  match subscriptions s !! topic with
  | Some subscribers =>
      let newSubscribers := withoutMailbox mailbox subscribers in
      if 0 <? length newSubscribers
      then mkStore (<[topic := newSubscribers]> (subscriptions s)) (sharedSubscriptions s)
      else mkStore (delete topic (subscriptions s)) (sharedSubscriptions s)
  | None => s
  end.

Definition unsubscribeShared (s : Store) (shareTopic : string) (mailbox : MailboxPtr) : Store :=
  match strings.SplitN shareTopic slash 3 with
  | [_; group; actualTopic] =>
      let groupKey := group +:+ "/" +:+ actualTopic in
      match sharedSubscriptions s !! groupKey with
      | Some sharedSub =>
          let newMailboxes := withoutMailbox mailbox (Mailboxes sharedSub) in
          if 0 <? length newMailboxes then
            mkStore (subscriptions s)
              (<[groupKey := mkSharedSubscription (Group sharedSub) (Topic sharedSub) newMailboxes
                   (if length newMailboxes <=? NextIndex sharedSub then 0
                    else NextIndex sharedSub)]> (sharedSubscriptions s))
          else mkStore (subscriptions s) (delete groupKey (sharedSubscriptions s))
      | None => s
      end
  | _ => unsubscribeRegular s shareTopic mailbox
  end.

Definition Unsubscribe (s : Store) (topic : string) (mailbox : MailboxPtr) : Store :=
  if strings.HasPrefix topic "$share/" then unsubscribeShared s topic mailbox
  else unsubscribeRegular s topic mailbox.

(** The round robin over the groups whose filter matches.  Indexing past the end of
    [Mailboxes] panics in Go: [None]. *)
Definition sharedStep (topic : string) (groupKey : string) (sharedSub : SharedSubscription)
    (st : option (list Subscription * gmap string SharedSubscription))
    : option (list Subscription * gmap string SharedSubscription) :=
  '(selectedSubs, m) ← st;
  if matchesTopicFilter topic (Topic sharedSub) && (0 <? length (Mailboxes sharedSub)) then
    selected ← Mailboxes sharedSub !! NextIndex sharedSub;
    Some (selectedSubs ++ [selected],
          <[groupKey := mkSharedSubscription (Group sharedSub) (Topic sharedSub)
              (Mailboxes sharedSub)
              ((NextIndex sharedSub + 1) mod length (Mailboxes sharedSub))]> m)
  else Some (selectedSubs, m).

Definition getSharedSubscribersForTopic (s : Store) (topic : string)
    : option (list Subscription * Store) :=
  '(selectedSubs, m) ←
    go_range (sharedStep topic) (sharedSubscriptions s) (Some ([], sharedSubscriptions s));
  Some (selectedSubs, mkStore (subscriptions s) m).

Definition GetSubscribers (s : Store) (topic : string) : option (list Subscription * Store) :=
  let allSubs :=
    go_range (λ subTopic subs allSubs,
      if matchesTopicFilter topic subTopic then allSubs ++ subs else allSubs)
      (subscriptions s) [] in
  '(sharedSubs, s') ← getSharedSubscribersForTopic s topic;
  Some (allSubs ++ sharedSubs, s').

(** The two loops of [RemoveAllSubscriptions], on one entry each. *)
Definition removeFromTopic (mailbox : MailboxPtr) (_ : string) (subs : list Subscription)
    : option (list Subscription) :=
  let updated := withoutMailbox mailbox subs in
  let removedFromTopic := existsb (λ sub, bool_decide (Sub_Mailbox sub = mailbox)) subs in
  if removedFromTopic then
    if 0 <? length updated then Some updated else None
  else Some subs.

Definition removeFromShared (mailbox : MailboxPtr) (_ : string) (sharedSub : SharedSubscription)
    : option SharedSubscription :=
  let updated := withoutMailbox mailbox (Mailboxes sharedSub) in
  let removedFromShared :=
    existsb (λ sub, bool_decide (Sub_Mailbox sub = mailbox)) (Mailboxes sharedSub) in
  if removedFromShared then
    if 0 <? length updated then
      Some (mkSharedSubscription (Group sharedSub) (Topic sharedSub) updated
              (if length updated <=? NextIndex sharedSub then 0 else NextIndex sharedSub))
    else None
  else Some sharedSub.

Definition RemoveAllSubscriptions (s : Store) (mailbox : MailboxPtr) : list string * Store :=
  match mailbox with
  | None => ([], s)
  | Some _ =>
      let removedTopics :=
        go_range (λ topic subs removed,
          if existsb (λ sub, bool_decide (Sub_Mailbox sub = mailbox)) subs
          then removed ++ [topic] else removed) (subscriptions s) [] in
      (removedTopics,
       mkStore (go_range (range_step (removeFromTopic mailbox)) (subscriptions s) (subscriptions s))
         (go_range (range_step (removeFromShared mailbox)) (sharedSubscriptions s)
            (sharedSubscriptions s)))
  end.

Arguments Subscribe : simpl never.
Arguments Unsubscribe : simpl never.
Arguments GetSubscribers : simpl never.
Arguments RemoveAllSubscriptions : simpl never.

(** ** Specification *)

(** The group and the filter of a well-formed share filter [$share/group/filter]. *)
Definition share_parts (topic : string) : option (string * string) :=
  if strings.HasPrefix topic "$share/" then
    match strings.SplitN topic slash 3 with
    | [_; group; actualTopic] => Some (group, actualTopic)
    | _ => None
    end
  else None.

(** A share prefix without group or filter, e.g. ["$share/g"]. *)
Definition malformed_share (topic : string) : bool :=
  strings.HasPrefix topic "$share/" && bool_decide (share_parts topic = None).

Definition group_key (gt : string * string) : string := gt.1 +:+ "/" +:+ gt.2.

(** The subscriptions filed under a filter. *)
Definition bucket (s : Store) (topic : string) : list Subscription :=
  match share_parts topic with
  | Some gt => default [] (Mailboxes <$> sharedSubscriptions s !! group_key gt)
  | None => default [] (subscriptions s !! topic)
  end.

Fixpoint qos_of (mailbox : MailboxPtr) (subs : list Subscription) : option Z :=
  match subs with
  | [] => None
  | sub :: subs' =>
      if bool_decide (Sub_Mailbox sub = mailbox) then Some (Sub_QoS sub) else qos_of mailbox subs'
  end.

(** The abstract view of the store: the QoS granted to a mailbox for a filter. *)
Definition granted (s : Store) (topic : string) (mailbox : MailboxPtr) : option Z :=
  qos_of mailbox (bucket s topic).

Definition wf_subs (subs : list Subscription) : Prop :=
  subs ≠ [] ∧ NoDup (Sub_Mailbox <$> subs).

Definition wf_shared (k : string) (sh : SharedSubscription) : Prop :=
  wf_subs (Mailboxes sh) ∧ NextIndex sh < length (Mailboxes sh) ∧
  k = group_key (Group sh, Topic sh) ∧ byte_free slash (Group sh).

(** The store's invariant: no empty lists; one subscription per mailbox, except under a
    malformed share filter; the round-robin index of every group in range; every group
    filed under its own key. *)
Definition wf_store (s : Store) : Prop :=
  map_Forall (λ topic subs, subs ≠ [] ∧ (malformed_share topic = false → wf_subs subs))
    (subscriptions s) ∧
  map_Forall wf_shared (sharedSubscriptions s).

(** The operations as steps. *)
Inductive store_op :=
  | OpSubscribe (topic : string) (mailbox : MailboxPtr) (qos : Z)
  | OpUnsubscribe (topic : string) (mailbox : MailboxPtr)
  | OpRemoveAll (mailbox : MailboxPtr)
  | OpGet (topic : string).

Definition store_step (s : Store) (op : store_op) : option Store :=
  match op with
  | OpSubscribe t mb q => Some (Subscribe s t mb q)
  | OpUnsubscribe t mb => Some (Unsubscribe s t mb)
  | OpRemoveAll mb => Some (RemoveAllSubscriptions s mb).2
  | OpGet t => snd <$> GetSubscribers s t
  end.

Fixpoint store_run (s : Store) (ops : list store_op) : option Store :=
  match ops with
  | [] => Some s
  | op :: ops' => s' ← store_step s op; store_run s' ops'
  end.

(** ** Share filters *)

Lemma SplitN_3 t :
  strings.SplitN t slash 3 =
  match strings.Cut t slash with
  | None => [t]
  | Some (a, r) => a :: match strings.Cut r slash with None => [r] | Some (g, x) => [g; x] end
  end.
Proof.
  simpl. destruct (strings.Cut t slash) as [[a r]|]; [|done].
  by destruct (strings.Cut r slash) as [[??]|].
Qed.

Lemma string_app_assoc (s t u : string) : s +:+ (t +:+ u) = (s +:+ t) +:+ u.
Proof. induction s; [done|]. rewrite !string_app_cons. by f_equal. Qed.

Lemma slash_app x : "/" +:+ x = String slash x.
Proof. reflexivity. Qed.

Lemma share_parts_Some t g x :
  share_parts t = Some (g, x) ↔ t = "$share/" +:+ g +:+ "/" +:+ x ∧ byte_free slash g.
Proof.
  unfold share_parts. split.
  - destruct (strings.HasPrefix t "$share/") eqn:Hp; [|done].
    apply HasPrefix_inv in Hp as [r ->]. rewrite SplitN_3.
    change (strings.Cut ("$share/" +:+ r) slash) with (Some ("$share", r)).
    cbv beta iota. destruct (strings.Cut r slash) as [[g' x']|] eqn:Hc; [|done]. intros [= -> ->].
    apply Cut_Some in Hc as [-> Hf]. done.
  - intros [-> Hg]. rewrite HasPrefix_app, SplitN_3.
    change (strings.Cut ("$share/" +:+ g +:+ "/" +:+ x) slash)
      with (Some ("$share", g +:+ "/" +:+ x)).
    rewrite slash_app. by rewrite (Cut_app_free g x slash Hg).
Qed.

Lemma group_key_inj g x g' x' :
  byte_free slash g → byte_free slash g' →
  group_key (g, x) = group_key (g', x') → g = g' ∧ x = x'.
Proof.
  unfold group_key; simpl. intros Hg Hg' H.
  assert (Some (g, x) = Some (g', x')) as [= -> ->]; [|done].
  rewrite !slash_app in H.
  rewrite <-(Cut_app_free g x slash Hg), <-(Cut_app_free g' x' slash Hg'). by f_equal.
Qed.

Lemma subscribeShared_parts s t mb q :
  strings.HasPrefix t "$share/" = true →
  subscribeShared s t mb q =
  match share_parts t with
  | Some gt =>
      let sh := default (mkSharedSubscription gt.1 gt.2 [] 0) (sharedSubscriptions s !! group_key gt) in
      mkStore (subscriptions s)
        (<[group_key gt := mkSharedSubscription (Group sh) (Topic sh)
             (addOrUpdateSubscription (Mailboxes sh) mb q) (NextIndex sh)]> (sharedSubscriptions s))
  | None =>
      mkStore (<[t := default [] (subscriptions s !! t) ++ [mkSubscription mb q]]> (subscriptions s))
        (sharedSubscriptions s)
  end.
Proof.
  intros Hp. unfold subscribeShared, share_parts. rewrite Hp.
  by destruct (strings.SplitN t slash 3) as [|a [|g [|x [|y l]]]].
Qed.

Lemma unsubscribeShared_parts s t mb :
  strings.HasPrefix t "$share/" = true →
  unsubscribeShared s t mb =
  match share_parts t with
  | Some gt =>
      match sharedSubscriptions s !! group_key gt with
      | Some sh =>
          let new := withoutMailbox mb (Mailboxes sh) in
          if 0 <? length new then
            mkStore (subscriptions s)
              (<[group_key gt := mkSharedSubscription (Group sh) (Topic sh) new
                   (if length new <=? NextIndex sh then 0 else NextIndex sh)]>
                 (sharedSubscriptions s))
          else mkStore (subscriptions s) (delete (group_key gt) (sharedSubscriptions s))
      | None => s
      end
  | None => unsubscribeRegular s t mb
  end.
Proof.
  intros Hp. unfold unsubscribeShared, share_parts. rewrite Hp.
  by destruct (strings.SplitN t slash 3) as [|a [|g [|x [|y l]]]].
Qed.

(** ** Lists of subscriptions *)

Lemma addOrUpdate_qos subs mb q mb' :
  qos_of mb' (addOrUpdateSubscription subs mb q) =
  if bool_decide (mb' = mb) then Some q else qos_of mb' subs.
Proof.
  induction subs as [|e subs IH]; simpl.
  - by repeat case_bool_decide; subst.
  - destruct (bool_decide (Sub_Mailbox e = mb)) eqn:E; bool_prop; simpl; [|rewrite IH];
      repeat case_bool_decide; congruence.
Qed.

Lemma addOrUpdate_mailboxes subs mb q :
  Sub_Mailbox <$> addOrUpdateSubscription subs mb q =
  if bool_decide (mb ∈ Sub_Mailbox <$> subs) then Sub_Mailbox <$> subs
  else (Sub_Mailbox <$> subs) ++ [mb].
Proof.
  induction subs as [|e subs IH]; [done|]. cbn [addOrUpdateSubscription].
  destruct (decide (Sub_Mailbox e = mb)) as [He|He].
  - rewrite !bool_decide_eq_true_2; [done| |done]. subst. by constructor.
  - rewrite (bool_decide_eq_false_2 (Sub_Mailbox e = mb)) by done. rewrite !fmap_cons, IH.
    rewrite (bool_decide_ext (mb ∈ Sub_Mailbox e :: (Sub_Mailbox <$> subs))
      (mb ∈ Sub_Mailbox <$> subs)) by (rewrite elem_of_cons; intuition congruence).
    by case_bool_decide.
Qed.

Lemma addOrUpdate_wf subs mb q :
  NoDup (Sub_Mailbox <$> subs) → wf_subs (addOrUpdateSubscription subs mb q).
Proof.
  intros Hnd. split.
  - destruct subs; simpl; [done|]. by case_bool_decide.
  - rewrite addOrUpdate_mailboxes. case_bool_decide; [done|].
    apply NoDup_app. split_and!; [done| |apply NoDup_singleton].
    intros x Hx ->%list_elem_of_singleton. done.
Qed.

Lemma addOrUpdate_length subs mb q :
  length subs ≤ length (addOrUpdateSubscription subs mb q).
Proof. induction subs as [|e subs IH]; simpl; [lia|]. case_bool_decide; simpl; lia. Qed.

Lemma qos_of_snoc mb subs mb' q :
  qos_of mb (subs ++ [mkSubscription mb' q]) =
  match qos_of mb subs with
  | Some q' => Some q'
  | None => if bool_decide (mb' = mb) then Some q else None
  end.
Proof.
  induction subs as [|x subs IH]; simpl; [done|].
  by destruct (decide (Sub_Mailbox x = mb)); rewrite ?bool_decide_true, ?bool_decide_false by done.
Qed.

Lemma withoutMailbox_qos mb subs mb' :
  qos_of mb' (withoutMailbox mb subs) =
  if bool_decide (mb' = mb) then None else qos_of mb' subs.
Proof.
  unfold withoutMailbox. induction subs as [|e subs IH]; simpl; [by case_bool_decide|].
  destruct (decide (Sub_Mailbox e ≠ mb)) as [He|He].
  - rewrite filter_cons_True by done. simpl. rewrite IH. repeat case_bool_decide; congruence.
  - rewrite filter_cons_False by done. rewrite IH. apply dec_stable in He.
    repeat case_bool_decide; congruence.
Qed.

Lemma withoutMailbox_NoDup mb subs :
  NoDup (Sub_Mailbox <$> subs) → NoDup (Sub_Mailbox <$> withoutMailbox mb subs).
Proof.
  intros Hnd. eapply sublist_NoDup; [done|]. clear Hnd. unfold withoutMailbox.
  induction subs as [|e subs IH]; [constructor|].
  destruct (decide (Sub_Mailbox e ≠ mb)).
  - rewrite filter_cons_True by done. simpl. by constructor.
  - rewrite filter_cons_False by done. simpl. by constructor.
Qed.

Lemma nonempty_length {A} (l : list A) : (0 <? length l) = bool_decide (l ≠ []).
Proof. by destruct l. Qed.

Lemma qos_of_notin mb subs : mb ∉ Sub_Mailbox <$> subs → qos_of mb subs = None.
Proof.
  induction subs as [|e subs IH]; [done|]. rewrite fmap_cons, not_elem_of_cons.
  intros [H1 H2]. simpl. rewrite bool_decide_eq_false_2 by congruence. auto.
Qed.

Lemma existsb_mailbox mb subs :
  existsb (λ sub, bool_decide (Sub_Mailbox sub = mb)) subs = bool_decide (mb ∈ Sub_Mailbox <$> subs).
Proof.
  induction subs as [|e subs IH]; [done|]. cbn [existsb]. rewrite IH, fmap_cons.
  apply eq_true_iff_eq.
  rewrite orb_true_iff, !bool_decide_eq_true, elem_of_cons. intuition congruence.
Qed.

Lemma withoutMailbox_notin mb subs : mb ∉ Sub_Mailbox <$> subs → withoutMailbox mb subs = subs.
Proof.
  unfold withoutMailbox. induction subs as [|e subs IH]; [done|].
  rewrite fmap_cons, not_elem_of_cons. intros [H1 H2].
  rewrite filter_cons_True by congruence. by rewrite IH.
Qed.
#[export] Hint Resolve addOrUpdate_wf withoutMailbox_NoDup : emqx.

(** ** The abstract view under each operation *)

Lemma bucket_Subscribe s t mb q t' :
  bucket (Subscribe s t mb q) t' =
  if bool_decide (t' = t) then
    (if malformed_share t then bucket s t ++ [mkSubscription mb q]
     else addOrUpdateSubscription (bucket s t) mb q)
  else bucket s t'.
Proof.
  unfold Subscribe, malformed_share.
  destruct (strings.HasPrefix t "$share/") eqn:Hp; cbn [andb].
  - rewrite subscribeShared_parts by done. destruct (share_parts t) as [[g x]|] eqn:Hs; simpl.
    + case_bool_decide as Ht; unfold bucket.
      * subst t'. rewrite Hs. simpl. rewrite lookup_insert_eq. simpl.
        by destruct (sharedSubscriptions s !! group_key (g, x)).
      * destruct (share_parts t') as [[g' x']|] eqn:Hs'; [|done]. simpl.
        rewrite lookup_insert_ne; [done|]. intros Hk.
        apply share_parts_Some in Hs as [-> Hg]. apply share_parts_Some in Hs' as [-> Hg'].
        apply group_key_inj in Hk as [-> ->]; done.
    + case_bool_decide as Ht; unfold bucket; [subst t'; rewrite Hs; simpl; by rewrite lookup_insert_eq|].
      destruct (share_parts t'); [done|]. simpl. by rewrite lookup_insert_ne.
  - assert (share_parts t = None) as Hs by (unfold share_parts; by rewrite Hp).
    case_bool_decide as Ht; unfold bucket; [subst t'; rewrite Hs; simpl; by rewrite lookup_insert_eq|].
    destruct (share_parts t'); [done|]. simpl. by rewrite lookup_insert_ne.
Qed.

Lemma bucket_Unsubscribe s t mb t' :
  bucket (Unsubscribe s t mb) t' =
  if bool_decide (t' = t) then withoutMailbox mb (bucket s t) else bucket s t'.
Proof.
  assert (Hreg : share_parts t = None →
    bucket (unsubscribeRegular s t mb) t' =
    if bool_decide (t' = t) then withoutMailbox mb (bucket s t) else bucket s t').
  { intros Hs. unfold unsubscribeRegular, bucket. rewrite Hs.
    destruct (subscriptions s !! t) as [subs|] eqn:E; simpl.
    - rewrite nonempty_length. case_bool_decide as Hn; case_bool_decide as Ht; simpl;
        try (subst t'; rewrite Hs; simpl); rewrite ?lookup_insert_eq, ?lookup_delete_eq,
        ?lookup_insert_ne, ?lookup_delete_ne by done; try done.
    - case_bool_decide; [|done]. subst. by rewrite Hs, E. }
  unfold Unsubscribe. destruct (strings.HasPrefix t "$share/") eqn:Hp.
  2:{ apply Hreg. unfold share_parts. by rewrite Hp. }
  rewrite unsubscribeShared_parts by done.
  destruct (share_parts t) as [[g x]|] eqn:Hs; [|by apply Hreg].
  assert (Hne : ∀ gt', t' ≠ t → share_parts t' = Some gt' → group_key (g, x) ≠ group_key gt').
  { intros [g' x'] Hne Hs' Hk. apply share_parts_Some in Hs as [-> Hg].
    apply share_parts_Some in Hs' as [-> Hg']. apply group_key_inj in Hk as [-> ->]; done. }
  unfold bucket. rewrite Hs.
  destruct (sharedSubscriptions s !! group_key (g, x)) as [sh|] eqn:E; simpl.
  - rewrite nonempty_length. case_bool_decide as Hn; case_bool_decide as Ht; simpl;
      try (subst t'; rewrite Hs); try (destruct (share_parts t') as [gt'|] eqn:Hs'; [|done]);
      rewrite ?lookup_insert_eq, ?lookup_delete_eq, ?lookup_insert_ne, ?lookup_delete_ne by eauto;
      try done.
  - case_bool_decide; [|done]. subst. by rewrite Hs, E.
Qed.

Lemma default_removeFromTopic mb k subs :
  default [] (removeFromTopic mb k subs) = withoutMailbox mb subs.
Proof.
  unfold removeFromTopic. rewrite existsb_mailbox, nonempty_length.
  case_bool_decide as Hin; [|by rewrite withoutMailbox_notin].
  destruct (decide (withoutMailbox mb subs = [])) as [Hn|Hn].
  - rewrite Hn. by rewrite bool_decide_false by auto.
  - by rewrite bool_decide_true.
Qed.

Lemma default_removeFromShared mb k sh :
  default [] (Mailboxes <$> removeFromShared mb k sh) = withoutMailbox mb (Mailboxes sh).
Proof.
  unfold removeFromShared. rewrite existsb_mailbox, nonempty_length.
  case_bool_decide as Hin; [|by rewrite withoutMailbox_notin].
  destruct (decide (withoutMailbox mb (Mailboxes sh) = [])) as [Hn|Hn].
  - rewrite Hn. by rewrite bool_decide_false by auto.
  - by rewrite bool_decide_true.
Qed.

Lemma bucket_RemoveAll s p t :
  bucket (RemoveAllSubscriptions s (Some p)).2 t = withoutMailbox (Some p) (bucket s t).
Proof.
  unfold RemoveAllSubscriptions, bucket. cbn [snd]. rewrite !go_range_imap.
  destruct (share_parts t) as [gt|]; simpl; rewrite map_lookup_imap.
  - destruct (sharedSubscriptions s !! group_key gt) as [sh|]; [|done].
    apply default_removeFromShared.
  - destruct (subscriptions s !! t) as [subs|]; [|done]. apply default_removeFromTopic.
Qed.

(** ** GetSubscribers *)

(** What one group contributes, and the group afterwards. *)
Definition group_matches (topic : string) (sh : SharedSubscription) : bool :=
  matchesTopicFilter topic (Topic sh) && (0 <? length (Mailboxes sh)).
Definition advance (topic : string) (sh : SharedSubscription) : SharedSubscription :=
  if group_matches topic sh then
    mkSharedSubscription (Group sh) (Topic sh) (Mailboxes sh)
      ((NextIndex sh + 1) mod length (Mailboxes sh))
  else sh.
Definition next_member (sh : SharedSubscription) : list Subscription :=
  option_list (Mailboxes sh !! NextIndex sh).

Lemma foldl_sharedStep topic (l : list (string * SharedSubscription)) acc m :
  NoDup l.*1 → Forall (λ kv, m !! kv.1 = Some kv.2) l →
  Forall (λ kv, NextIndex kv.2 < length (Mailboxes kv.2)) l →
  foldl (λ st kv, sharedStep topic kv.1 kv.2 st) (Some (acc, m)) l =
  Some (acc ++ flat_map (λ kv, if group_matches topic kv.2 then next_member kv.2 else []) l,
        foldl (λ a kv, range_step (λ _ sh, Some (advance topic sh)) kv.1 kv.2 a) m l).
Proof.
  revert acc m. induction l as [|[k sh] l IH]; intros acc m Hnd Hm Hi.
  { simpl. by rewrite app_nil_r. }
  cbn [foldl flat_map fst snd].
  rewrite fmap_cons in Hnd. apply NoDup_cons in Hnd as [Hk Hnd].
  apply Forall_cons in Hm as [Hmk Hm]. apply Forall_cons in Hi as [Hik Hi]. cbn [fst snd] in *.
  assert (Hstep : sharedStep topic k sh (Some (acc, m)) =
    Some (acc ++ (if group_matches topic sh then next_member sh else []),
          <[k := advance topic sh]> m)).
  { unfold sharedStep, group_matches, advance, next_member. simpl. unfold group_matches.
    case_match.
    - destruct (lookup_lt_is_Some_2 _ _ Hik) as [x Hx]. by rewrite Hx.
    - by rewrite app_nil_r, insert_id. }
  rewrite Hstep, IH; [by rewrite <-app_assoc|done| |done].
  apply Forall_forall. intros [k' sh'] Hin. simpl.
  rewrite lookup_insert_ne; [by apply (proj1 (Forall_forall _ _) Hm _ Hin)|].
  intros ->. apply Hk. apply list_elem_of_fmap. by exists (k', sh').
Qed.

Lemma wf_shared_next k sh : wf_shared k sh → NextIndex sh < length (Mailboxes sh).
Proof. by intros (_ & ? & _). Qed.

Lemma getShared_eq s topic :
  map_Forall wf_shared (sharedSubscriptions s) →
  getSharedSubscribersForTopic s topic =
  Some (range_collect (λ _ sh, group_matches topic sh) (λ _ sh, next_member sh)
          (sharedSubscriptions s),
        mkStore (subscriptions s) (advance topic <$> sharedSubscriptions s)).
Proof.
  intros Hwf. unfold getSharedSubscribersForTopic, go_range.
  rewrite foldl_sharedStep; simpl.
  - do 3 f_equal. change (go_range (range_step (λ _ sh, Some (advance topic sh)))
      (sharedSubscriptions s) (sharedSubscriptions s) = advance topic <$> sharedSubscriptions s).
    rewrite go_range_imap. apply map_eq; intros k. rewrite map_lookup_imap, lookup_fmap.
    by destruct (_ !! k).
  - apply NoDup_fst_map_to_list.
  - apply Forall_forall. intros [k sh] Hin. by apply elem_of_map_to_list in Hin.
  - apply Forall_forall. intros [k sh] Hin. apply elem_of_map_to_list in Hin.
    by eapply wf_shared_next, Hwf.
Qed.

Lemma GetSubscribers_eq s topic :
  map_Forall wf_shared (sharedSubscriptions s) →
  GetSubscribers s topic =
  Some (range_collect (λ f _, matchesTopicFilter topic f) (λ _ subs, subs) (subscriptions s) ++
        range_collect (λ _ sh, group_matches topic sh) (λ _ sh, next_member sh)
          (sharedSubscriptions s),
        mkStore (subscriptions s) (advance topic <$> sharedSubscriptions s)).
Proof.
  intros Hwf. unfold GetSubscribers. rewrite getShared_eq by done. simpl.
  by rewrite go_range_collect.
Qed.

(** ** The invariant is preserved *)

Lemma wf_NewStore : wf_store NewStore.
Proof. split; apply map_Forall_empty. Qed.

Lemma not_share_not_malformed t :
  strings.HasPrefix t "$share/" = false → malformed_share t = false.
Proof. unfold malformed_share. by intros ->. Qed.

Lemma wf_lookup_NoDup s t :
  wf_store s → malformed_share t = false →
  NoDup (Sub_Mailbox <$> default [] (subscriptions s !! t)).
Proof.
  intros [Hr _] Hm. destruct (subscriptions s !! t) as [subs|] eqn:E; simpl; [|constructor].
  destruct (Hr t subs E) as [_ Hw]. apply Hw, Hm.
Qed.

Lemma wf_Subscribe s t mb q : wf_store s → wf_store (Subscribe s t mb q).
Proof.
  intros Hwf. unfold Subscribe. destruct (strings.HasPrefix t "$share/") eqn:Hp.
  - rewrite subscribeShared_parts by done. destruct (share_parts t) as [[g x]|] eqn:Hs.
    + destruct Hwf as [Hr Hsh]. split; [done|]. simpl. apply map_Forall_insert_2; [|done].
      apply share_parts_Some in Hs as [-> Hg].
      destruct (sharedSubscriptions s !! group_key (g, x)) as [sh|] eqn:E; simpl.
      * destruct (Hsh _ _ E) as ([Hne Hnd] & Hi & Hk & Hf).
        split_and!; [by apply addOrUpdate_wf| |done|done].
        eapply Nat.lt_le_trans; [done|apply addOrUpdate_length].
      * split_and!; [split; [done|apply NoDup_singleton]|simpl; lia|done|done].
    + destruct Hwf as [Hr Hsh]. split; [|done]. apply map_Forall_insert_2; [|done].
      split; [by destruct (default [] _)|]. unfold malformed_share.
      by rewrite Hp, Hs, bool_decide_true.
  - pose proof (not_share_not_malformed t Hp) as Hm.
    pose proof (wf_lookup_NoDup s t Hwf Hm) as Hnd. destruct Hwf as [Hr Hsh].
    split; [|done]. apply map_Forall_insert_2; [|done].
    pose proof (addOrUpdate_wf _ mb q Hnd) as Hw. split; [apply Hw|done].
Qed.

Lemma wf_unsubscribeRegular s t mb : wf_store s → wf_store (unsubscribeRegular s t mb).
Proof.
  intros Hwf. unfold unsubscribeRegular.
  destruct (subscriptions s !! t) as [subs|] eqn:E; [|done].
  destruct Hwf as [Hr Hsh]. rewrite nonempty_length. case_bool_decide as Hn.
  - split; [|done]. apply map_Forall_insert_2; [|done]. split; [done|]. intros Hm.
    split; [done|]. apply withoutMailbox_NoDup. by apply (Hr t subs E).
  - split; [|done]. by apply map_Forall_delete.
Qed.

Lemma next_index_reset (i n : nat) : 0 < n → (if n <=? i then 0 else i) < n.
Proof. intros Hn. case_match; bool_prop; lia. Qed.

Lemma wf_shared_without k sh mb :
  wf_shared k sh → withoutMailbox mb (Mailboxes sh) ≠ [] →
  wf_shared k (mkSharedSubscription (Group sh) (Topic sh) (withoutMailbox mb (Mailboxes sh))
    (if length (withoutMailbox mb (Mailboxes sh)) <=? NextIndex sh then 0 else NextIndex sh)).
Proof.
  intros ([_ Hnd] & Hi & Hk & Hf) Hn.
  split_and!; [split; [done|by apply withoutMailbox_NoDup]| |done|done].
  apply next_index_reset. destruct (withoutMailbox mb (Mailboxes sh)); [done|]. simpl. lia.
Qed.

Lemma wf_Unsubscribe s t mb : wf_store s → wf_store (Unsubscribe s t mb).
Proof.
  intros Hwf. unfold Unsubscribe. destruct (strings.HasPrefix t "$share/") eqn:Hp;
    [|by apply wf_unsubscribeRegular].
  rewrite unsubscribeShared_parts by done. destruct (share_parts t) as [[g x]|] eqn:Hs;
    [|by apply wf_unsubscribeRegular].
  destruct (sharedSubscriptions s !! group_key (g, x)) as [sh|] eqn:E; [|done].
  destruct Hwf as [Hr Hsh]. cbv zeta. rewrite nonempty_length. case_bool_decide as Hn.
  - split; [done|]. apply map_Forall_insert_2; [|done]. apply wf_shared_without; [|done].
    by apply Hsh.
  - split; [done|]. by apply map_Forall_delete.
Qed.

Lemma wf_RemoveAll s mb : wf_store s → wf_store (RemoveAllSubscriptions s mb).2.
Proof.
  intros [Hr Hsh]. destruct mb as [p|]; [|done]. unfold RemoveAllSubscriptions. cbn [snd].
  rewrite !go_range_imap. split; intros k v; cbn [subscriptions sharedSubscriptions];
    rewrite map_lookup_imap; intros (w & Hw & Hv)%bind_Some.
  - destruct (Hr _ _ Hw) as [Hne Hok]. unfold removeFromTopic in Hv.
    rewrite nonempty_length in Hv. repeat case_match; bool_prop; simplify_eq; [|done].
    split; [done|]. intros Hm. split; [done|]. by apply withoutMailbox_NoDup, Hok.
  - pose proof (Hsh _ _ Hw) as Hok. unfold removeFromShared in Hv.
    rewrite nonempty_length in Hv. destruct (existsb _ _); [|by simplify_eq].
    case_bool_decide; [|done]. injection Hv as <-. by apply wf_shared_without.
Qed.

Lemma wf_advance topic k sh : wf_shared k sh → wf_shared k (advance topic sh).
Proof.
  intros Hw. unfold advance. destruct (group_matches topic sh); [|done].
  destruct Hw as (Hs & Hi & Hk). split; [done|]. split; [|done].
  cbn [NextIndex Mailboxes]. apply Nat.mod_upper_bound. lia.
Qed.

Lemma wf_GetSubscribers s topic :
  wf_store s → ∃ subs s', GetSubscribers s topic = Some (subs, s') ∧ wf_store s'.
Proof.
  intros [Hr Hsh]. eexists _, _. split; [by apply GetSubscribers_eq|]. split; [done|].
  simpl. intros k sh. rewrite lookup_fmap. intros (sh' & Hk & ->)%fmap_Some.
  by apply wf_advance, Hsh.
Qed.
#[export] Hint Resolve wf_NewStore wf_Subscribe wf_Unsubscribe wf_RemoveAll : emqx.

(** ** Properties *)

Lemma store_step_wf s op : wf_store s → ∃ s', store_step s op = Some s' ∧ wf_store s'.
Proof.
  intros Hwf. destruct op; simpl; eauto with emqx.
  destruct (wf_GetSubscribers s topic Hwf) as (subs & s' & -> & Hs'). simpl. eauto.
Qed.

Lemma store_run_wf s ops : wf_store s → ∃ s', store_run s ops = Some s' ∧ wf_store s'.
Proof.
  revert s. induction ops as [|op ops IH]; intros s Hwf; simpl; [eauto|].
  destruct (store_step_wf s op Hwf) as (s' & -> & Hs'). simpl. by apply IH.
Qed.

(** How many entries a filter has for a mailbox, and how often the mailbox subscribed to the
    filter since it was last removed from it, going by the operations alone. *)
Definition entries_of (s : Store) (t : string) (mb : MailboxPtr) : nat :=
  length (filter (λ sub, Sub_Mailbox sub = mb) (bucket s t)).
Definition times_step (t : string) (mb : MailboxPtr) (n : nat) (op : store_op) : nat :=
  match op with
  | OpSubscribe t' mb' _ => if bool_decide (t' = t) && bool_decide (mb' = mb) then S n else n
  | OpUnsubscribe t' mb' => if bool_decide (t' = t) && bool_decide (mb' = mb) then 0 else n
  | OpRemoveAll (Some p) => if bool_decide (Some p = mb) then 0 else n
  | OpRemoveAll None | OpGet _ => n
  end.
Definition subscribed_times (ops : list store_op) (t : string) (mb : MailboxPtr) : nat :=
  foldl (times_step t mb) 0 ops.
(** One entry at most, except under a malformed share filter. *)
Definition expected_entries (t : string) (n : nat) : nat := if malformed_share t then n else 1 `min` n.

Lemma count_addOrUpdate subs mb q mb' :
  length (filter (λ sub, Sub_Mailbox sub = mb') (addOrUpdateSubscription subs mb q)) =
  let n := length (filter (λ sub, Sub_Mailbox sub = mb') subs) in
  if bool_decide (mb = mb') then 1 `max` n else n.
Proof.
  cbv zeta. induction subs as [|e subs IH]; cbn [addOrUpdateSubscription].
  { rewrite filter_cons. simpl. case_decide; case_bool_decide; done. }
  destruct (decide (Sub_Mailbox e = mb)) as [He|He].
  - rewrite bool_decide_true by done. rewrite !filter_cons. cbn [Sub_Mailbox].
    destruct (decide (Sub_Mailbox e = mb')); case_bool_decide; simpl; try lia; congruence.
  - rewrite bool_decide_false by done. rewrite !filter_cons.
    destruct (decide (Sub_Mailbox e = mb')) as [<-|]; [|done]. simpl. rewrite IH.
    by rewrite bool_decide_false by congruence.
Qed.

Lemma count_withoutMailbox mb subs mb' :
  length (filter (λ sub, Sub_Mailbox sub = mb') (withoutMailbox mb subs)) =
  if bool_decide (mb = mb') then 0 else length (filter (λ sub, Sub_Mailbox sub = mb') subs).
Proof.
  unfold withoutMailbox. rewrite list_filter_filter. case_bool_decide as Hm.
  - subst mb'. induction subs as [|e subs IH]; [done|].
    rewrite filter_cons_False; [done|]. intros [? ?]. done.
  - f_equal. apply list_filter_iff. intros e. split; [tauto|]. intros <-. split; congruence.
Qed.

Lemma bucket_Get s topic subs s' t :
  wf_store s → GetSubscribers s topic = Some (subs, s') → bucket s' t = bucket s t.
Proof.
  intros [_ Hsh] Hg. rewrite GetSubscribers_eq in Hg by done. simplify_eq/=. unfold bucket.
  destruct (share_parts t) as [gt|]; [|done]. cbn [sharedSubscriptions]. rewrite lookup_fmap.
  destruct (_ !! group_key gt) as [sh|]; simpl; [|done]. unfold advance. by case_match.
Qed.

Lemma entries_step s op s' t mb n :
  wf_store s → store_step s op = Some s' → entries_of s t mb = expected_entries t n →
  entries_of s' t mb = expected_entries t (times_step t mb n op).
Proof.
  unfold entries_of. intros Hwf Hs Hn. destruct op as [t0 mb0 q|t0 mb0|[p|]|t0];
    cbn [store_step times_step] in *; simplify_eq.
  - rewrite bucket_Subscribe. destruct (decide (t0 = t)) as [->|Ht].
    2:{ rewrite !bool_decide_false by congruence. done. }
    rewrite !(bool_decide_true (P := t = t)) by done. cbn [andb]. unfold expected_entries in *.
    destruct (malformed_share t).
    + rewrite filter_app, length_app, Hn, filter_cons. cbn [Sub_Mailbox filter].
      case_bool_decide; case_decide; try done; simpl; lia.
    + rewrite count_addOrUpdate. cbv zeta. rewrite Hn. case_bool_decide; lia.
  - rewrite bucket_Unsubscribe. destruct (decide (t0 = t)) as [->|Ht].
    2:{ rewrite !bool_decide_false by congruence. done. }
    rewrite !(bool_decide_true (P := t = t)) by done. cbn [andb]. rewrite count_withoutMailbox, Hn.
    unfold expected_entries. by case_bool_decide; case_match.
  - rewrite bucket_RemoveAll, count_withoutMailbox, Hn. unfold expected_entries.
    by case_bool_decide; case_match.
  - exact Hn.
  - destruct (GetSubscribers s t0) as [[subs s1]|] eqn:E; simplify_eq/=. by rewrite (bucket_Get _ _ _ _ _ Hwf E).
Qed.

Lemma entries_run ops : ∀ s n t mb,
  wf_store s → entries_of s t mb = expected_entries t n →
  ∃ s', store_run s ops = Some s' ∧ wf_store s' ∧
    entries_of s' t mb = expected_entries t (foldl (times_step t mb) n ops).
Proof.
  induction ops as [|op ops IH]; intros s n t mb Hwf Hn; simpl; [eauto|].
  destruct (store_step_wf s op Hwf) as (s1 & Hs1 & Hwf1). rewrite Hs1. simpl.
  apply IH; [done|]. by apply (entries_step s op).
Qed.

(** C9. Safety of the subscription table: from an empty store, any sequence of Subscribe,
    Unsubscribe, RemoveAllSubscriptions and GetSubscribers runs without a panic (the
    round-robin index is always in range) and leaves no empty subscriber list, every shared
    group filed under its own [group/filter] key and its index below its length; and a filter
    has for a mailbox one entry if it subscribed since it was last removed, and none
    otherwise - except under a share filter without group or filter, which has an entry for
    every time it subscribed. *)
Theorem store_invariant ops :
  ∃ s, store_run NewStore ops = Some s ∧ wf_store s ∧
    ∀ t mb, entries_of s t mb =
      if malformed_share t then subscribed_times ops t mb else 1 `min` subscribed_times ops t mb.
Proof.
  destruct (store_run_wf NewStore ops wf_NewStore) as (s & Hs & Hwf). exists s. split_and!; [done|done|].
  intros t mb. destruct (entries_run ops NewStore 0 t mb wf_NewStore) as (s' & Hs' & _ & He).
  - unfold entries_of, bucket, NewStore. cbn [subscriptions sharedSubscriptions]. unfold expected_entries.
    destruct (share_parts t); rewrite lookup_empty; by case_match.
  - by simplify_eq.
Qed.

(** The abstract table: the QoS granted per filter and mailbox. *)
Definition table : Type := string → MailboxPtr → option Z.
Definition table_step (T : table) (op : store_op) : table :=
  match op with
  | OpSubscribe t mb q => λ t' mb',
      if bool_decide (t' = t) && bool_decide (mb' = mb) then Some q else T t' mb'
  | OpUnsubscribe t mb => λ t' mb',
      if bool_decide (t' = t) && bool_decide (mb' = mb) then None else T t' mb'
  | OpRemoveAll None => T
  | OpRemoveAll (Some p) => λ t' mb', if bool_decide (mb' = Some p) then None else T t' mb'
  | OpGet _ => T
  end.
Definition op_wellformed (op : store_op) : Prop :=
  match op with OpSubscribe t _ _ => malformed_share t = false | _ => True end.

Lemma granted_step s op s' t mb :
  wf_store s → op_wellformed op → store_step s op = Some s' →
  granted s' t mb = table_step (granted s) op t mb.
Proof.
  intros Hwf Hok Hs. unfold granted. destruct op as [t0 mb0 q|t0 mb0|[p|]|t0]; simplify_eq/=.
  - rewrite bucket_Subscribe, Hok. case_bool_decide; [|done]. subst. apply addOrUpdate_qos.
  - rewrite bucket_Unsubscribe. case_bool_decide; [|done]. subst. apply withoutMailbox_qos.
  - rewrite <-withoutMailbox_qos. f_equal. apply (bucket_RemoveAll s p t).
  - done.
  - destruct (GetSubscribers s t0) as [[subs s1]|] eqn:E; simplify_eq/=. by rewrite (bucket_Get _ _ _ _ _ Hwf E).
Qed.

Lemma granted_run s ops s' T :
  wf_store s → (∀ t mb, granted s t mb = T t mb) → Forall op_wellformed ops →
  store_run s ops = Some s' → ∀ t mb, granted s' t mb = foldl table_step T ops t mb.
Proof.
  revert s T. induction ops as [|op ops IH]; intros s T Hwf HT Hok Hr; simplify_eq/=; [done|].
  apply Forall_cons in Hok as [Ho Hok].
  destruct (store_step_wf s op Hwf) as (s1 & Hs1 & Hwf1). rewrite Hs1 in Hr. simpl in Hr.
  apply (IH s1); [done| |done|done]. intros t mb.
  rewrite (granted_step s op s1) by done.
  destruct op as [| |[]|]; simpl; rewrite ?HT; done.
Qed.

(** C6. Refinement: the store, with its two maps, its in-place updates and its group keys,
    implements a plain table from (filter, mailbox) to granted QoS.  After any sequence of
    operations on well-formed filters, the QoS the store holds for a filter and a mailbox
    is the one the table holds: a subscription inserts or overwrites one entry, an
    unsubscription removes that entry only, RemoveAllSubscriptions removes the mailbox
    from every filter, and a lookup changes nothing. *)
Theorem store_refines_table ops :
  Forall op_wellformed ops →
  ∃ s, store_run NewStore ops = Some s ∧
       ∀ t mb, granted s t mb = foldl table_step (λ _ _, None) ops t mb.
Proof.
  intros Hok. destruct (store_run_wf NewStore ops wf_NewStore) as (s & Hs & _).
  exists s. split; [done|]. apply (granted_run NewStore); [apply wf_NewStore| |done|done].
  intros t mb. unfold granted, bucket. destruct (share_parts t); simpl; by rewrite lookup_empty.
Qed.

Lemma store_refines_table_witness :
  let ops := [OpSubscribe "$share/g/a/+" (Some 1%positive) 1; OpSubscribe "a/b" (Some 2%positive) 0;
              OpGet "a/b"; OpUnsubscribe "a/b" (Some 2%positive)] in
  Forall op_wellformed ops ∧ ∃ s, store_run NewStore ops = Some s ∧
    granted s "$share/g/a/+" (Some 1%positive) = Some 1%Z.
Proof.
  assert (H : Forall op_wellformed
    [OpSubscribe "$share/g/a/+" (Some 1%positive) 1; OpSubscribe "a/b" (Some 2%positive) 0;
     OpGet "a/b"; OpUnsubscribe "a/b" (Some 2%positive)]) by (repeat constructor).
  split; [exact H|]. destruct (store_refines_table _ H) as (s & Hs & Hg).
  exists s. split; [exact Hs|]. rewrite Hg. reflexivity.
Defined.

Lemma group_matches_wf topic k sh :
  wf_shared k sh → group_matches topic sh = matchesTopicFilter topic (Topic sh).
Proof.
  intros (_ & Hi & _). unfold group_matches. rewrite (proj2 (Nat.ltb_lt _ _)) by lia.
  apply andb_true_r.
Qed.

Lemma next_member_wf k sh :
  wf_shared k sh → ∃ sub, Mailboxes sh !! NextIndex sh = Some sub ∧ next_member sh = [sub].
Proof.
  intros Hw. destruct (lookup_lt_is_Some_2 _ _ (wf_shared_next k sh Hw)) as [sub Hs].
  exists sub. unfold next_member. by rewrite Hs.
Qed.

Lemma length_flat_map {A B} (f : A → list B) l :
  length (flat_map f l) = sum_list_with (λ x, length (f x)) l.
Proof. induction l as [|x l IH]; simpl; [done|]. by rewrite length_app, IH. Qed.

Lemma sum_list_with_ext {A} (f g : A → nat) l :
  (∀ x, x ∈ l → f x = g x) → sum_list_with f l = sum_list_with g l.
Proof.
  induction l as [|x l IH]; intros H; simpl; [done|].
  rewrite (H x) by constructor. rewrite IH; [done|]. intros y Hy. apply H. by constructor.
Qed.

(** A mailbox receives a topic through a regular subscription with a matching filter, or as
    the member at the round-robin index of a matching group. *)
Definition receives (s : Store) (topic : string) (sub : Subscription) : Prop :=
  (∃ f l, subscriptions s !! f = Some l ∧ mqtt_match (levels topic) (levels f) ∧ sub ∈ l) ∨
  (∃ k sh, sharedSubscriptions s !! k = Some sh ∧
     mqtt_match (levels topic) (levels (Topic sh)) ∧ Mailboxes sh !! NextIndex sh = Some sub).

(** The store after a lookup: the matching groups have moved on. *)
Definition advanced (topic : string) (s : Store) : Store :=
  mkStore (subscriptions s) (advance topic <$> sharedSubscriptions s).

Lemma GetSubscribers_receives s topic :
  wf_store s →
  ∃ subs, GetSubscribers s topic = Some (subs, advanced topic s) ∧
  (∀ sub, sub ∈ subs ↔ receives s topic sub) ∧
  length subs =
    sum_list_with (λ kv, if matchesTopicFilter topic kv.1 then length kv.2 else 0)
      (map_to_list (subscriptions s)) +
    sum_list_with (λ kv, if matchesTopicFilter topic (Topic kv.2) then 1 else 0)
      (map_to_list (sharedSubscriptions s)).
Proof.
  intros [Hr Hsh]. eexists. split; [by apply GetSubscribers_eq|]. split.
  - intros sub. rewrite elem_of_app, !elem_of_range_collect. unfold receives.
    setoid_rewrite <-matchesTopicFilter_iff. f_equiv.
    split; intros (k & sh & Hk & H1 & H2); exists k, sh; pose proof (Hsh _ _ Hk) as Hw;
      destruct (next_member_wf k sh Hw) as (x & Hx & Hn); rewrite ?Hn, ?Hx in *;
      rewrite (group_matches_wf topic k) in * by done.
    + apply list_elem_of_singleton in H2 as ->. done.
    + simplify_eq. split_and!; [done|done|]. by apply list_elem_of_singleton.
  - rewrite length_app. unfold range_collect. rewrite !length_flat_map. f_equal.
    + apply sum_list_with_ext. intros [f l] _. by case_match.
    + apply sum_list_with_ext. intros [k sh] Hin. apply elem_of_map_to_list, Hsh in Hin. simpl in *.
      rewrite (group_matches_wf topic k) by done.
      destruct (next_member_wf k sh Hin) as (x & _ & ->). by case_match.
Qed.

Lemma granted_Subscribe s t' mb' q t mb :
  granted (Subscribe s t' mb' q) t mb =
  if bool_decide (t = t' ∧ mb = mb')
  then Some (if malformed_share t then default q (granted s t mb) else q) else granted s t mb.
Proof.
  unfold granted. rewrite bucket_Subscribe. case_bool_decide as Ht; [subst t'|].
  - destruct (malformed_share t).
    + rewrite qos_of_snoc. destruct (decide (mb = mb')) as [->|Hne].
      * rewrite !bool_decide_true by done. by destruct (qos_of mb' _).
      * rewrite !bool_decide_false by naive_solver. by destruct (qos_of mb _).
    + rewrite addOrUpdate_qos. by repeat case_bool_decide; naive_solver.
  - by rewrite bool_decide_false by tauto.
Qed.

(** What the abstract view grants is in the store, in the filter's list or its group. *)
Lemma granted_elem s f mb q : granted s f mb = Some q → mkSubscription mb q ∈ bucket s f.
Proof.
  unfold granted. induction (bucket s f) as [|x l IH]; simpl; intros Hg; [done|].
  case_bool_decide as E; [|constructor; by apply IH].
  destruct x; simpl in *. simplify_eq. constructor.
Qed.

(** A mailbox with a subscription to a matching filter that is not shared receives the topic. *)
Lemma granted_receives s topic f mb q :
  share_parts f = None → granted s f mb = Some q → mqtt_match (levels topic) (levels f) →
  receives s topic (mkSubscription mb q).
Proof.
  intros Hp Hg%granted_elem Hm. unfold bucket in Hg. rewrite Hp in Hg.
  destruct (subscriptions s !! f) as [l|] eqn:Hl; [|by apply not_elem_of_nil in Hg].
  left. by exists f, l.
Qed.

(** A shared filter's mailbox is a member of the group, and the member the rotation points at
    receives every topic the group's filter matches. *)
Lemma granted_group_receives s topic f gt mb q :
  wf_store s → share_parts f = Some gt → granted s f mb = Some q →
  ∃ sh sub, sharedSubscriptions s !! group_key gt = Some sh ∧ mkSubscription mb q ∈ Mailboxes sh ∧
    Mailboxes sh !! NextIndex sh = Some sub ∧
    (mqtt_match (levels topic) (levels gt.2) → receives s topic sub).
Proof.
  intros Hwf Hp Hg%granted_elem. unfold bucket in Hg. rewrite Hp in Hg.
  destruct (sharedSubscriptions s !! group_key gt) as [sh|] eqn:Hsh; [|by apply not_elem_of_nil in Hg].
  pose proof (proj2 Hwf _ _ Hsh) as (_ & Hlt & Hk & Hfree).
  destruct (lookup_lt_is_Some_2 _ _ Hlt) as [sub Hsub]. exists sh, sub. split_and!; [done..|].
  intros Hm. right. exists (group_key gt), sh. split_and!; [done| |done].
  destruct gt as [g x]. apply share_parts_Some in Hp as [_ Hg']. by apply group_key_inj in Hk as [_ <-].
Qed.

(** C7. Routing: on a well-formed store GetSubscribers returns, for a published topic,
    exactly the subscriptions whose filter matches it by the MQTT rule, with one member
    for every matching shared group (the one at the group's round-robin index); counted
    with multiplicity, each matching regular subscription is returned once and each
    matching group contributes exactly one; and the only change to the store is that the
    index of each matching group moves to the next member. *)
Theorem GetSubscribers_exact s topic :
  wf_store s →
  ∃ subs s', GetSubscribers s topic = Some (subs, s') ∧
  (∀ sub, sub ∈ subs ↔
     (∃ f l, subscriptions s !! f = Some l ∧ mqtt_match (levels topic) (levels f) ∧ sub ∈ l) ∨
     (∃ k sh, sharedSubscriptions s !! k = Some sh ∧
        mqtt_match (levels topic) (levels (Topic sh)) ∧
        Mailboxes sh !! NextIndex sh = Some sub)) ∧
  length subs =
    sum_list_with (λ kv, if matchesTopicFilter topic kv.1 then length kv.2 else 0)
      (map_to_list (subscriptions s)) +
    sum_list_with (λ kv, if matchesTopicFilter topic (Topic kv.2) then 1 else 0)
      (map_to_list (sharedSubscriptions s)) ∧
  s' = mkStore (subscriptions s) (advance topic <$> sharedSubscriptions s).
Proof.
  intros Hwf. destruct (GetSubscribers_receives s topic Hwf) as (subs & Hg & Hin & Hlen).
  exists subs, (advanced topic s). by split_and!.
Qed.

Definition example_store : Store :=
  Subscribe (Subscribe (Subscribe (Subscribe NewStore "a/#" (Some 1%positive) 1)
    "$share/g/a/+" (Some 2%positive) 0) "$share/g/a/+" (Some 3%positive) 2)
    "b" (Some 4%positive) 0.

Lemma GetSubscribers_exact_witness :
  wf_store example_store ∧ ∃ subs s', GetSubscribers example_store "a/x" = Some (subs, s') ∧
  length subs = 2.
Proof.
  assert (Hwf : wf_store example_store) by (unfold example_store; auto 10 with emqx).
  split; [exact Hwf|].
  destruct (GetSubscribers_exact example_store "a/x" Hwf) as (subs & s' & Hg & _ & Hl & _).
  exists subs, s'. split; [exact Hg|]. rewrite Hl. vm_compute. reflexivity.
Defined.

(** [n] successive lookups: the store before each and what each returned. *)
Fixpoint poll (s : Store) (topic : string) (n : nat)
    : option (list (Store * list Subscription) * Store) :=
  match n with
  | O => Some ([], s)
  | S n' =>
      '(subs, s') ← GetSubscribers s topic;
      '(rounds, s'') ← poll s' topic n';
      Some ((s, subs) :: rounds, s'')
  end.

(** The member a group offers next. *)
Definition group_pick (s : Store) (k : string) : option Subscription :=
  sh ← sharedSubscriptions s !! k; Mailboxes sh !! NextIndex sh.

Definition at_index (sh : SharedSubscription) (i : nat) : SharedSubscription :=
  mkSharedSubscription (Group sh) (Topic sh) (Mailboxes sh) (i mod length (Mailboxes sh)).

Lemma at_index_next k sh : wf_shared k sh → at_index sh (NextIndex sh) = sh.
Proof.
  intros (_ & Hi & _). unfold at_index. rewrite Nat.mod_small by done. by destruct sh.
Qed.

Lemma GetSubscribers_group s topic k sh i :
  wf_store s → sharedSubscriptions s !! k = Some (at_index sh i) →
  matchesTopicFilter topic (Topic sh) = true →
  ∃ subs s' sub, GetSubscribers s topic = Some (subs, s') ∧ wf_store s' ∧
    sharedSubscriptions s' !! k = Some (at_index sh (S i)) ∧
    Mailboxes sh !! (i mod length (Mailboxes sh)) = Some sub ∧ sub ∈ subs.
Proof.
  intros Hwf Hk Hm. pose proof (proj2 Hwf _ _ Hk) as Hw.
  destruct (wf_GetSubscribers s topic Hwf) as (subs & s' & Hg & Hwf').
  destruct (next_member_wf k _ Hw) as (sub & Hsub & Hnext).
  exists subs, s', sub. rewrite GetSubscribers_eq in Hg by apply Hwf.
  injection Hg as Hsubs Hs'. split_and!; [|done| |done|].
  - rewrite GetSubscribers_eq by apply Hwf. by rewrite Hsubs, Hs'.
  - subst s'. simpl. rewrite lookup_fmap, Hk. simpl. unfold advance.
    rewrite (group_matches_wf topic k) by done. simpl. rewrite Hm. unfold at_index.
    do 2 f_equal. rewrite Nat.Div0.add_mod_idemp_l. f_equal. lia.
  - subst subs. apply elem_of_app; right. apply elem_of_range_collect.
    exists k, (at_index sh i). rewrite (group_matches_wf topic k), Hnext by done.
    split_and!; [done|done|]. by apply list_elem_of_singleton.
Qed.

Lemma poll_picks s topic k sh i n :
  wf_store s → sharedSubscriptions s !! k = Some (at_index sh i) →
  matchesTopicFilter topic (Topic sh) = true →
  ∃ rounds s', poll s topic n = Some (rounds, s') ∧ wf_store s' ∧
    sharedSubscriptions s' !! k = Some (at_index sh (i + n)) ∧
    Forall2 (λ j r, ∃ sub, group_pick r.1 k = Some sub ∧ sub ∈ r.2 ∧
               Mailboxes sh !! (j mod length (Mailboxes sh)) = Some sub) (seq i n) rounds.
Proof.
  revert s i. induction n as [|n IH]; intros s i Hwf Hk Hm; simpl.
  { exists [], s. rewrite Nat.add_0_r. by split_and!. }
  destruct (GetSubscribers_group s topic k sh i Hwf Hk Hm)
    as (subs & s1 & sub & -> & Hwf1 & Hk1 & Hsub & Hin). simpl.
  destruct (IH s1 (S i) Hwf1 Hk1 Hm) as (rounds & s2 & -> & Hwf2 & Hk2 & HF). simpl.
  exists ((s, subs) :: rounds), s2. rewrite Nat.add_succ_r. split_and!; [done|done|done|].
  constructor; [|done]. exists sub. split_and!; [|done|done]. unfold group_pick. simpl.
  by rewrite Hk.
Qed.

(** Reading a list from an index on, around its end, is a rotation of it. *)
Lemma rotation_Permutation {A} (l picks : list A) (a : nat) :
  a < length l → length picks = length l →
  (∀ i, i < length l → picks !! i = l !! ((a + i) mod length l)) → picks ≡ₚ l.
Proof.
  intros Ha Hlen Hi. assert (picks = drop a l ++ take a l) as ->.
  - apply list_eq. intros i. destruct (decide (i < length l)) as [Hlt|Hge].
    + rewrite Hi by done. destruct (decide (i < length l - a)).
      * rewrite lookup_app_l by (rewrite length_drop; lia). rewrite lookup_drop.
        rewrite Nat.mod_small by lia. done.
      * rewrite lookup_app_r by (rewrite length_drop; lia). rewrite length_drop.
        rewrite lookup_take_lt by lia. f_equal.
        replace (a + i) with (i - (length l - a) + 1 * length l) by lia.
        rewrite Nat.Div0.mod_add. apply Nat.mod_small. lia.
    + rewrite lookup_ge_None_2 by lia. symmetry. apply lookup_ge_None_2.
      rewrite length_app, length_drop, length_take. lia.
  - rewrite (Permutation_app_comm (drop a l)). by rewrite take_drop.
Qed.

(** C21. Fairness of shared subscriptions: starting anywhere in the rotation, as many
    consecutive publications on a matching topic as the group has members pick every
    member of the group exactly once (the picks are a permutation of the members, and
    each pick is among the receivers of its publication), and then the group is back in
    the state it started from. *)
Theorem round_robin_fair s k sh topic :
  wf_store s → sharedSubscriptions s !! k = Some sh →
  mqtt_match (levels topic) (levels (Topic sh)) →
  ∃ rounds s' picks,
    poll s topic (length (Mailboxes sh)) = Some (rounds, s') ∧
    Forall2 (λ sub r, group_pick r.1 k = Some sub ∧ sub ∈ r.2) picks rounds ∧
    picks ≡ₚ Mailboxes sh ∧
    sharedSubscriptions s' !! k = Some sh.
Proof.
  intros Hwf Hk Hm%matchesTopicFilter_iff. pose proof (proj2 Hwf _ _ Hk) as Hw.
  pose proof (wf_shared_next k sh Hw) as Hnext. pose proof (at_index_next k sh Hw) as Hat.
  rewrite <-Hat in Hk.
  destruct (poll_picks s topic k sh (NextIndex sh) (length (Mailboxes sh)) Hwf Hk Hm)
    as (rounds & s' & Hp & _ & Hk' & HF).
  set (picks := (λ j, nth (j mod length (Mailboxes sh)) (Mailboxes sh) (mkSubscription None 0))
                  <$> seq (NextIndex sh) (length (Mailboxes sh))).
  exists rounds, s', picks. split_and!; [done| | |].
  - unfold picks. apply Forall2_fmap_l. eapply Forall2_impl; [exact HF|].
    simpl. intros j r (sub & Hpick & Hin & Hsub). by rewrite (nth_lookup_Some _ _ _ _ Hsub).
  - apply (rotation_Permutation _ _ (NextIndex sh)); [done|by unfold picks; rewrite length_fmap, length_seq|].
    intros i Hi. unfold picks. rewrite list_lookup_fmap, lookup_seq_lt by done. simpl.
    destruct (lookup_lt_is_Some_2 (Mailboxes sh) ((NextIndex sh + i) mod length (Mailboxes sh)))
      as [x Hx]; [apply Nat.mod_upper_bound; lia|].
    by rewrite Hx, (nth_lookup_Some _ _ _ _ Hx).
  - rewrite Hk'. f_equal. transitivity (at_index sh (NextIndex sh)); [|done].
    unfold at_index. f_equal.
    replace (NextIndex sh + length (Mailboxes sh))
      with (NextIndex sh + 1 * length (Mailboxes sh)) by lia.
    apply Nat.Div0.mod_add.
Qed.

Lemma round_robin_fair_witness :
  ∃ sh, sharedSubscriptions example_store !! "g/a/+" = Some sh ∧
  ∃ rounds s' picks, poll example_store "a/x" 2 = Some (rounds, s') ∧
    Forall2 (λ sub r, group_pick r.1 "g/a/+" = Some sub ∧ sub ∈ r.2) picks rounds ∧
    picks ≡ₚ Mailboxes sh.
Proof.
  assert (Hwf : wf_store example_store) by (unfold example_store; auto 10 with emqx).
  eexists. split; [reflexivity|].
  edestruct (round_robin_fair example_store "g/a/+" _ "a/x" Hwf eq_refl)
    as (rounds & s' & picks & Hp & HF & Hperm & _).
  { apply matchesTopicFilter_iff. reflexivity. }
  exists rounds, s', picks. split; [exact Hp|]. split; [exact HF|exact Hperm].
Defined.

Lemma granted_RemoveAll s p t mb :
  granted (RemoveAllSubscriptions s (Some p)).2 t mb =
  if decide (mb = Some p) then None else granted s t mb.
Proof.
  unfold granted. rewrite bucket_RemoveAll, withoutMailbox_qos. by case_decide; case_bool_decide.
Qed.

(** RemoveAllSubscriptions: afterwards the removed mailbox holds no subscription, regular
    or shared, under any filter, every other mailbox keeps exactly what it had, and the
    list it returns consists of the regular filters the mailbox was subscribed to; the
    shared filters it removes are not reported.  A nil mailbox changes nothing. *)
Theorem RemoveAllSubscriptions_spec s p :
  let '(removed, s') := RemoveAllSubscriptions s (Some p) in
  (∀ t, granted s' t (Some p) = None) ∧
  (∀ t mb, mb ≠ Some p → granted s' t mb = granted s t mb) ∧
  (∀ t, t ∈ removed ↔ ∃ subs, subscriptions s !! t = Some subs ∧ Some p ∈ Sub_Mailbox <$> subs) ∧
  RemoveAllSubscriptions s None = ([], s).
Proof.
  destruct (RemoveAllSubscriptions s (Some p)) as [removed s'] eqn:E.
  assert (Hb : ∀ t mb, granted s' t mb = if decide (mb = Some p) then None else granted s t mb).
  { intros t mb. by rewrite <-granted_RemoveAll, E. }
  split_and!.
  - intros t. by rewrite Hb, decide_True.
  - intros t mb Hne. by rewrite Hb, decide_False.
  - intros t. unfold RemoveAllSubscriptions in E. injection E as <- _.
    rewrite go_range_collect, app_nil_l, elem_of_range_collect. split.
    + intros (k & subs & Hk & Hin & ->%list_elem_of_singleton). exists subs.
      rewrite existsb_mailbox in Hin. by bool_prop.
    + intros (subs & Hk & Hin). exists t, subs. rewrite existsb_mailbox.
      split_and!; [done|by apply bool_decide_true|by apply list_elem_of_singleton].
  - done.
Qed.
