(* ===== verification/KVStore.v ===== *)
(** * KVStore: the key-value store interface (pkg/storage/store.go)

    The [Store] interface as a class of operations with the laws its clients rely on, and
    the in-memory implementation [MemStore] that the broker uses for the live sessions and
    for the persistent ones. *)

From S2P Require Import Prelude GoLib.

(** ** The interface *)

Inductive StoreError := ErrNotFound.
#[export] Instance StoreError_eq_dec : EqDecision StoreError.
Proof. solve_decision. Defined.

(** [Get] returns a value or an error, [Set] and [Delete] an optional error. *)
Class KVStore (S V : Type) := {
  kv_Get : S → string → V + StoreError;
  kv_Set : S → string → V → option StoreError * S;
  kv_Delete : S → string → option StoreError * S;
}.

(** What a store promises: an accepted write is read back and disturbs no other key, an
    accepted deletion makes the key not found. *)
Class KVStoreLaws (S V : Type) `{KVStore S V} := {
  kv_get_set_eq s k v s' : kv_Set s k v = (None, s') → kv_Get s' k = inl v;
  kv_get_set_ne s k k' v s' : k ≠ k' → kv_Set s k v = (None, s') → kv_Get s' k' = kv_Get s k';
  kv_get_delete_eq s k s' : kv_Delete s k = (None, s') → kv_Get s' k = inr ErrNotFound;
  kv_get_delete_ne s k k' s' : k ≠ k' → kv_Delete s k = (None, s') → kv_Get s' k' = kv_Get s k';
}.

(** ** MemStore *)

Record MemStore (V : Type) := mkMemStore { data : gmap string V }.
Arguments mkMemStore {_} _.
Arguments data {_} _.

Definition NewMemStore {V} : MemStore V := mkMemStore ∅.

Definition Get {V} (s : MemStore V) (key : string) : V + StoreError :=
  match data s !! key with
  | Some value => inl value
  | None => inr ErrNotFound
  end.

Definition Set_ {V} (s : MemStore V) (key : string) (value : V) : option StoreError * MemStore V :=
  (None, mkMemStore (<[key := value]> (data s))).

Definition Delete {V} (s : MemStore V) (key : string) : option StoreError * MemStore V :=
  (None, mkMemStore (delete key (data s))).

#[export] Instance MemStore_KVStore V : KVStore (MemStore V) V :=
  {| kv_Get := Get; kv_Set := Set_; kv_Delete := Delete |}.

#[export] Instance MemStore_KVStoreLaws V : KVStoreLaws (MemStore V) V.
Proof.
  split; simpl; unfold Get, Set_, Delete; intros; simplify_eq/=.
  - by rewrite lookup_insert_eq.
  - by rewrite lookup_insert_ne.
  - by rewrite lookup_delete_eq.
  - by rewrite lookup_delete_ne.
Qed.

(** MemStore implements the Store contract: writes and deletions never fail, Get after
    Set returns the value written, Get after Delete returns ErrNotFound, and neither
    touches another key. *)
Theorem MemStore_contract {V} (s : MemStore V) (k : string) (v : V) :
  let '(e1, s1) := Set_ s k v in
  let '(e2, s2) := Delete s1 k in
  e1 = None ∧ e2 = None ∧ Get s1 k = inl v ∧ Get s2 k = inr ErrNotFound ∧
  (∀ k', k' ≠ k → Get s1 k' = Get s k' ∧ Get s2 k' = Get s k').
Proof.
  simpl. split_and!; [done|done| | |].
  - exact (kv_get_set_eq s k v _ eq_refl).
  - exact (kv_get_delete_eq (Set_ s k v).2 k _ eq_refl).
  - intros k' Hne. unfold Get; simpl.
    by rewrite lookup_delete_ne, lookup_insert_ne by done.
Qed.
