(* ===== verification/Will.v ===== *)
(** * Will: will-message publishing and delay timers (pkg/persistent/will.go)

    A will message is published at once or, with a delay interval, by a timer that can be
    cancelled until it fires.  The publisher is the broker's (an interface in the source);
    here the manager answers which message the caller has to publish now. *)

From S2P Require Import Prelude GoLib.
Local Open Scope Z_scope.

Record WillMessage := mkWillMessage {
  Will_Topic : string;
  Will_Payload : list byte;
  Will_QoS : Z;
  Will_Retain : bool;
  Will_DelayInterval : Duration;
}.
#[export] Instance WillMessage_eq_dec : EqDecision WillMessage.
Proof. solve_decision. Defined.

(** A scheduled message; [wt_fires] is when its [time.AfterFunc] runs. *)
Record willTimer := mkWillTimer {
  wt_fires : Time;
  wt_willMsg : WillMessage;
  wt_clientID : string;
  wt_timerID : string;
}.

Record WillMessageManager := mkWillMessageManager {
  timers : gmap string willTimer;
}.

Definition NewWillMessageManager : WillMessageManager := mkWillMessageManager ∅.

(** What [PublishWillMessage] asks for: publish now, wait for a timer, or an error. *)
Inductive WillAction :=
  | PublishNow (msg : WillMessage) (clientID : string)
  | Scheduled (timerID : string)
  | WillNil.

Definition scheduleDelayedWillMessage (wmm : WillMessageManager) (willMsg : WillMessage)
    (clientID : string) (now : Time) : WillAction * WillMessageManager :=
  let timerID := (clientID +:+ "-" +:+ pretty now)%string in
  (Scheduled timerID,
   mkWillMessageManager
     (<[timerID := mkWillTimer (now + Will_DelayInterval willMsg) willMsg clientID timerID]>
        (timers wmm))).

Definition publishImmediately (wmm : WillMessageManager) (willMsg : WillMessage)
    (clientID : string) : WillAction * WillMessageManager :=
  (PublishNow willMsg clientID, wmm).

Definition PublishWillMessage (wmm : WillMessageManager) (willMsg : option WillMessage)
    (clientID : string) (now : Time) : WillAction * WillMessageManager :=
  match willMsg with
  | None => (WillNil, wmm)
  | Some w =>
      if 0 <? Will_DelayInterval w then scheduleDelayedWillMessage wmm w clientID now
      else publishImmediately wmm w clientID
  end.

(** The timer's function: it removes itself and publishes. *)
Definition timerFires (wmm : WillMessageManager) (timerID : string)
    : option (WillAction * WillMessageManager) :=
  t ← timers wmm !! timerID;
  Some (publishImmediately (mkWillMessageManager (delete timerID (timers wmm)))
          (wt_willMsg t) (wt_clientID t)).

Definition CancelWillMessage (wmm : WillMessageManager) (clientID : string) : WillMessageManager :=
  mkWillMessageManager
    (go_range (range_step (λ _ wTimer,
       if bool_decide (wt_clientID wTimer = clientID) then None else Some wTimer))
       (timers wmm) (timers wmm)).

Record WillTimerInfo := mkWillTimerInfo {
  wi_ClientID : string;
  wi_Topic : string;
  wi_DelayInterval : Duration;
}.

Definition GetScheduledWillMessages (wmm : WillMessageManager) : gmap string WillTimerInfo :=
  (λ t, mkWillTimerInfo (wt_clientID t) (Will_Topic (wt_willMsg t))
          (Will_DelayInterval (wt_willMsg t))) <$> timers wmm.

(** [Close] stops and deletes every timer. *)
Definition Close (wmm : WillMessageManager) : WillMessageManager :=
  mkWillMessageManager (go_range (range_step (λ _ (_ : willTimer), None)) (timers wmm) (timers wmm)).

(** ** Lemmas *)

Lemma timers_CancelWillMessage wmm c id :
  timers (CancelWillMessage wmm c) !! id =
  (t ← timers wmm !! id; if bool_decide (wt_clientID t = c) then None else Some t).
Proof. unfold CancelWillMessage. simpl. by rewrite go_range_imap, map_lookup_imap. Qed.

Lemma timers_Close wmm : timers (Close wmm) = ∅.
Proof.
  unfold Close. simpl. rewrite go_range_imap. apply map_eq. intros id.
  rewrite map_lookup_imap, lookup_empty. by destruct (_ !! id).
Qed.

(** A will message without delay is handed to the publisher at once and leaves no timer; a
    delayed one is not published but scheduled, and unless it is cancelled its timer
    publishes exactly that message for exactly that client, once; cancelling a client
    removes all its timers (so none of its wills is published later) and no other. *)
Theorem will_lifecycle wmm w c now :
  (Will_DelayInterval w ≤ 0 → PublishWillMessage wmm (Some w) c now = (PublishNow w c, wmm)) ∧
  (0 < Will_DelayInterval w → ∃ id wmm',
     PublishWillMessage wmm (Some w) c now = (Scheduled id, wmm') ∧
     (∃ wmm'', timerFires wmm' id = Some (PublishNow w c, wmm'') ∧ timerFires wmm'' id = None) ∧
     timerFires (CancelWillMessage wmm' c) id = None) ∧
  (∀ id t, timers (CancelWillMessage wmm c) !! id = Some t ↔
           timers wmm !! id = Some t ∧ wt_clientID t ≠ c).
Proof.
  split_and!.
  - intros Hd. unfold PublishWillMessage. by rewrite (proj2 (Z.ltb_ge _ _)).
  - intros Hd. unfold PublishWillMessage. rewrite (proj2 (Z.ltb_lt _ _)) by done.
    eexists _, _. split; [done|]. split.
    + eexists. unfold timerFires. simpl. rewrite lookup_insert_eq. simpl.
      split; [done|]. simpl. by rewrite lookup_delete_eq.
    + unfold timerFires. rewrite timers_CancelWillMessage. simpl. rewrite lookup_insert_eq.
      simpl. by rewrite bool_decide_true.
  - intros id t. rewrite timers_CancelWillMessage, bind_Some. split.
    + intros (t' & Ht & Hc). by case_bool_decide; simplify_eq.
    + intros [Ht Hc]. exists t. by rewrite bool_decide_false.
Qed.
