(* ===== verification/Persistent.v ===== *)
(** * Persistent: persistent sessions (pkg/persistent/session.go)

    The session manager keeps the live sessions in [activeSessions] and writes the
    sessions of clients with CleanSession=false, marshalled to JSON, to a [storage.Store].
    Each method holds the lock of the session it works on and is one atomic operation;
    [CreateOrResumeSession], which looks twice at [activeSessions] without a lock, takes
    the work of other goroutines between the two looks as an argument. *)

From S2P Require Import Prelude GoLib KVStore Will.
Local Open Scope emqx_scope.
Local Open Scope Z_scope.

(** ** Data *)

Record InflightMessage := mkInflightMessage {
  Inf_PacketID : Z;
  Inf_Topic : string;
  Inf_Payload : list byte;
  Inf_QoS : Z;
  Inf_Retain : bool;
  Inf_Timestamp : Time;
  Inf_RetryCount : Z;
  Inf_Headers : gmap string string;
}.

Record QueuedMessage := mkQueuedMessage {
  Q_Topic : string;
  Q_Payload : list byte;
  Q_QoS : Z;
  Q_Retain : bool;
  Q_Timestamp : Time;
  Q_ExpiryTime : option Time;
  Q_Headers : gmap string string;
}.

Record PersistentSession := mkPersistentSession {
  ClientID : string;
  CleanSession : bool;
  Connected : bool;
  CreatedAt : Time;
  LastActivity : Time;
  ExpiryInterval : Duration;
  Subscriptions : gmap string Z;
  PacketIDCounter : Z;
  InflightQoS1 : gmap Z InflightMessage;
  InflightQoS2 : gmap Z InflightMessage;
  MessageQueue : list QueuedMessage;
  Session_Will : option WillMessage;
}.

Record Config := mkConfig {
  MaxOfflineMessages : Z;
  MessageExpiryInterval : Duration;
  DefaultSessionExpiry : Duration;
  RetryInterval : Duration;
  MaxRetryAttempts : Z;
  CleanupInterval : Duration;
  MaxInflightMessages : Z;
}.

Definition DefaultConfig : Config :=
  mkConfig 10000 (24 * Hour) (24 * Hour) (30 * Second) 3 (5 * Minute) 100.

(** Field updates. *)
Definition touch (connected : bool) (now : Time) (s : PersistentSession) : PersistentSession :=
  mkPersistentSession (ClientID s) (CleanSession s) connected (CreatedAt s) now (ExpiryInterval s)
    (Subscriptions s) (PacketIDCounter s) (InflightQoS1 s) (InflightQoS2 s) (MessageQueue s)
    (Session_Will s).
Definition with_expiry (e : Duration) (s : PersistentSession) : PersistentSession :=
  mkPersistentSession (ClientID s) (CleanSession s) (Connected s) (CreatedAt s) (LastActivity s) e
    (Subscriptions s) (PacketIDCounter s) (InflightQoS1 s) (InflightQoS2 s) (MessageQueue s)
    (Session_Will s).
Definition with_subs (subs : gmap string Z) (s : PersistentSession) : PersistentSession :=
  mkPersistentSession (ClientID s) (CleanSession s) (Connected s) (CreatedAt s) (LastActivity s)
    (ExpiryInterval s) subs (PacketIDCounter s) (InflightQoS1 s) (InflightQoS2 s) (MessageQueue s)
    (Session_Will s).
Definition with_counter (c : Z) (s : PersistentSession) : PersistentSession :=
  mkPersistentSession (ClientID s) (CleanSession s) (Connected s) (CreatedAt s) (LastActivity s)
    (ExpiryInterval s) (Subscriptions s) c (InflightQoS1 s) (InflightQoS2 s) (MessageQueue s)
    (Session_Will s).
Definition with_queue (q : list QueuedMessage) (s : PersistentSession) : PersistentSession :=
  mkPersistentSession (ClientID s) (CleanSession s) (Connected s) (CreatedAt s) (LastActivity s)
    (ExpiryInterval s) (Subscriptions s) (PacketIDCounter s) (InflightQoS1 s) (InflightQoS2 s) q
    (Session_Will s).
Definition with_will (w : option WillMessage) (s : PersistentSession) : PersistentSession :=
  mkPersistentSession (ClientID s) (CleanSession s) (Connected s) (CreatedAt s) (LastActivity s)
    (ExpiryInterval s) (Subscriptions s) (PacketIDCounter s) (InflightQoS1 s) (InflightQoS2 s)
    (MessageQueue s) w.

(** The state cleared when a clean session is requested. *)
Definition resetClean (s : PersistentSession) : PersistentSession :=
  mkPersistentSession (ClientID s) true (Connected s) (CreatedAt s) (LastActivity s)
    (ExpiryInterval s) ∅ (PacketIDCounter s) ∅ ∅ [] None.

(** ** The JSON codec

    [json.Marshal] and [json.Unmarshal] of a session.  [representable] singles out the
    sessions encoding/json reproduces (valid UTF-8 strings, time stamps in range). *)
Class SessionCodec (Data : Type) := {
  marshal : PersistentSession → option Data;
  unmarshal : Data → option PersistentSession;
}.
Class SessionCodecLaws (Data : Type) `{SessionCodec Data}
    (representable : PersistentSession → Prop) := {
  codec_roundtrip s : representable s → ∃ d, marshal s = Some d ∧ unmarshal d = Some s;
}.

Inductive SMError :=
  | SessionNotFound (clientID : string)
  | MarshalFailed
  | UnmarshalFailed
  | StoreFailed (e : StoreError).

(** ** The session manager *)

Record SessionManager (S : Type) := mkSessionManager {
  sm_store : S;
  sm_config : Config;
  activeSessions : gmap string PersistentSession;
  willManager : WillMessageManager;
  sm_closed : bool;
}.
Arguments mkSessionManager {_} _ _ _ _ _.
Arguments sm_store {_} _.
Arguments sm_config {_} _.
Arguments activeSessions {_} _.
Arguments willManager {_} _.
Arguments sm_closed {_} _.

Definition sessionKey (clientID : string) : string := ("session:" +:+ clientID)%string.

Section SessionManager.
Context {S Data : Type} `{KVStore S Data, SessionCodec Data}.
Implicit Types (sm : SessionManager S).

Definition set_active (m : gmap string PersistentSession) sm : SessionManager S :=
  mkSessionManager (sm_store sm) (sm_config sm) m (willManager sm) (sm_closed sm).
Definition set_store (st : S) sm : SessionManager S :=
  mkSessionManager st (sm_config sm) (activeSessions sm) (willManager sm) (sm_closed sm).
Definition set_wills (w : WillMessageManager) sm : SessionManager S :=
  mkSessionManager (sm_store sm) (sm_config sm) (activeSessions sm) w (sm_closed sm).
Definition put_session (clientID : string) (s : PersistentSession) sm : SessionManager S :=
  set_active (<[clientID := s]> (activeSessions sm)) sm.

(** The background routines are started by the constructor; their bodies are
    [cleanupExpiredSessions] and [retryInflightMessages]. *)
Definition NewSessionManager (store : S) (config : option Config) : SessionManager S :=
  mkSessionManager store (default DefaultConfig config) ∅ NewWillMessageManager false.

Definition saveSession (session : PersistentSession) sm : option SMError * SessionManager S :=
  let key := sessionKey (ClientID session) in
  match marshal session with
  | None => (Some MarshalFailed, sm)
  | Some d =>
      let '(e, st') := kv_Set (sm_store sm) key d in (StoreFailed <$> e, set_store st' sm)
  end.

Definition loadSession (clientID : string) sm : PersistentSession + SMError :=
  let key := sessionKey clientID in
  match kv_Get (sm_store sm) key with
  | inr e => inr (StoreFailed e)
  | inl d => match unmarshal d with Some s => inl s | None => inr UnmarshalFailed end
  end.

Definition deleteSession (clientID : string) sm : option SMError * SessionManager S :=
  let '(e, st') := kv_Delete (sm_store sm) (sessionKey clientID) in
  (StoreFailed <$> e, set_store st' sm).

(** The error of a save is only logged. *)
Definition save_logged (session : PersistentSession) sm : SessionManager S :=
  (saveSession session sm).2.

Definition resumeActive (cleanSession : bool) (now : Time) (s : PersistentSession)
    : PersistentSession :=
  let s1 := touch true now s in
  if cleanSession then resetClean s1 else s1.

Definition CreateOrResumeSession sm (clientID : string) (cleanSession : bool)
    (expiryInterval : Duration) (now : Time)
    (others : SessionManager S → SessionManager S) : PersistentSession * SessionManager S :=
  match activeSessions sm !! clientID with
  | Some activeSession =>
      let s := resumeActive cleanSession now activeSession in (s, put_session clientID s sm)
  | None =>
      let loaded := if cleanSession then inr (SessionNotFound clientID) else loadSession clientID sm in
      let sm := others sm in
      match loaded with
      | inl session =>
          let s := touch true now session in
          let s := if 0 <? expiryInterval then with_expiry expiryInterval s else s in
          (s, put_session clientID s sm)
      | inr _ =>
          let expiry := if expiryInterval =? 0 then DefaultSessionExpiry (sm_config sm)
                        else expiryInterval in
          let expiry := if 0 <? expiryInterval then expiryInterval else expiry in
          let session :=
            mkPersistentSession clientID cleanSession true now now expiry ∅ 1 ∅ ∅ [] None in
          match activeSessions sm !! clientID with
          | Some activeSession =>
              let s := resumeActive cleanSession now activeSession in (s, put_session clientID s sm)
          | None =>
              let sm := put_session clientID session sm in
              (session, if cleanSession then sm else save_logged session sm)
          end
      end
  end.

Definition AddSubscription sm (clientID topic : string) (qos : Z) (now : Time)
    : option SMError * SessionManager S :=
  match activeSessions sm !! clientID with
  | None => (Some (SessionNotFound clientID), sm)
  | Some session =>
      let s := touch (Connected session) now
                 (with_subs (<[topic := qos]> (Subscriptions session)) session) in
      let sm := put_session clientID s sm in
      (None, if CleanSession s then sm else save_logged s sm)
  end.

Definition RemoveSubscription sm (clientID topic : string) (now : Time)
    : option SMError * SessionManager S :=
  match activeSessions sm !! clientID with
  | None => (Some (SessionNotFound clientID), sm)
  | Some session =>
      let s := touch (Connected session) now
                 (with_subs (delete topic (Subscriptions session)) session) in
      let sm := put_session clientID s sm in
      (None, if CleanSession s then sm else save_logged s sm)
  end.

Definition SetWillMessage sm (clientID topic : string) (payload : list byte) (qos : Z)
    (retain : bool) (delayInterval : Duration) : option SMError * SessionManager S :=
  match activeSessions sm !! clientID with
  | None => (Some (SessionNotFound clientID), sm)
  | Some session =>
      (None, put_session clientID
               (with_will (Some (mkWillMessage topic payload qos retain delayInterval)) session) sm)
  end.

(** Dropping the oldest message of an empty queue ([MaxOfflineMessages] = 0) slices out of
    range: a panic. *)
Definition QueueMessage sm (clientID topic : string) (payload : list byte) (qos : Z)
    (retain : bool) (now : Time) : outcome (option SMError * SessionManager S) :=
  match activeSessions sm !! clientID with
  | None => Returns (Some (SessionNotFound clientID), sm)
  | Some session =>
      if Connected session then Returns (None, sm)
      else if CleanSession session then Returns (None, sm)
      else
        let! queue :=
          if MaxOfflineMessages (sm_config sm) <=? blen (MessageQueue session) then
            match MessageQueue session with
            | [] => Panics
            | _ :: q => Returns q
            end
          else Returns (MessageQueue session) in
        let expiry :=
          if 0 <? MessageExpiryInterval (sm_config sm)
          then Some (now + MessageExpiryInterval (sm_config sm)) else None in
        let msg := mkQueuedMessage topic payload qos retain now expiry ∅ in
        let s := with_queue (queue ++ [msg]) session in
        Returns (None, save_logged s (put_session clientID s sm))
  end.

(** [PacketIDCounter++] on a uint16, skipping 0. *)
Definition nextPacketIDCounter (c : Z) : Z :=
  let c' := u16 (c + 1) in if c' =? 0 then 1 else c'.

Definition NextPacketID sm (clientID : string) : (Z + SMError) * SessionManager S :=
  match activeSessions sm !! clientID with
  | None => (inr (SessionNotFound clientID), sm)
  | Some session =>
      let c := nextPacketIDCounter (PacketIDCounter session) in
      (inl c, put_session clientID (with_counter c session) sm)
  end.

Definition session_expired (now : Time) (s : PersistentSession) : bool :=
  negb (Connected s) && (ExpiryInterval s <? now - LastActivity s).

Definition message_valid (now : Time) (m : QueuedMessage) : bool :=
  match Q_ExpiryTime m with None => true | Some e => Before now e end.

(** The scan over the snapshot of sessions. *)
Definition cleanupScan (now : Time) (clientID : string) (session : PersistentSession)
    (st : list string * SessionManager S) : list string * SessionManager S :=
  let '(expiredClients, sm) := st in
  if session_expired now session then (expiredClients ++ [ClientID session], sm)
  else
    let validMessages := filter (λ m, message_valid now m = true) (MessageQueue session) in
    if bool_decide (length validMessages = length (MessageQueue session)) then (expiredClients, sm)
    else
      let s := with_queue validMessages session in
      let sm := put_session clientID s sm in
      (expiredClients, if CleanSession s then sm else save_logged s sm).

Definition removeExpired (now : Time) sm (clientID : string) : SessionManager S :=
  match activeSessions sm !! clientID with
  | None => sm
  | Some session =>
      if session_expired now session then
        (deleteSession clientID (set_active (delete clientID (activeSessions sm)) sm)).2
      else sm
  end.

Definition cleanupExpiredSessions sm (now : Time) : SessionManager S :=
  let '(expiredClients, sm) := go_range (cleanupScan now) (activeSessions sm) ([], sm) in
  foldl (removeExpired now) sm expiredClients.

(** The retry routine is not implemented in the source: it only logs. *)
Definition retryInflightMessages sm : SessionManager S := sm.

Definition Close sm : SessionManager S :=
  if sm_closed sm then sm
  else
    let sm := mkSessionManager (sm_store sm) (sm_config sm) (activeSessions sm)
                (Will.Close (willManager sm)) true in
    go_range (λ _ session sm, if CleanSession session then sm else save_logged session sm)
      (activeSessions sm) sm.
End SessionManager.

(** ** Disconnecting

    [DisconnectSession] calls the broker's will publisher while it holds the session's
    lock.  The publisher works on the broker's whole state [W], of which the session
    manager is a part; its first argument is the set of sessions whose lock the calling
    goroutine holds. *)
Section Disconnect.
Context {S Data : Type} `{KVStore S Data, SessionCodec Data}.
Context {W : Type} (sm_of : W → SessionManager S) (set_sm : SessionManager S → W → W).
Context (publish : gset string → WillMessage → string → W → outcome W).

Definition DisconnectSession (w : W) (clientID : string) (graceful : bool) (now : Time)
    : outcome (option SMError * W) :=
  match activeSessions (sm_of w) !! clientID with
  | None => Returns (Some (SessionNotFound clientID), w)
  | Some session =>
      let s1 := touch false now session in
      let w1 := set_sm (put_session clientID s1 (sm_of w)) w in
      let! w2 :=
        match Session_Will s1 with
        | Some will =>
            if graceful then
              Returns (set_sm (set_wills (CancelWillMessage (willManager (sm_of w1)) clientID)
                                 (sm_of w1)) w1)
            else
              let '(action, wmm) :=
                PublishWillMessage (willManager (sm_of w1)) (Some will) clientID now in
              let w1 := set_sm (set_wills wmm (sm_of w1)) w1 in
              match action with
              | PublishNow msg c => publish {[clientID]} msg c w1
              | Scheduled _ | WillNil => Returns w1
              end
        | None =>
            if graceful then
              Returns (set_sm (set_wills (CancelWillMessage (willManager (sm_of w1)) clientID)
                                 (sm_of w1)) w1)
            else Returns w1
        end in
      let s2 := with_will None s1 in
      let sm2 := put_session clientID s2 (sm_of w2) in
      let sm3 :=
        if CleanSession s2 then
          (deleteSession clientID (set_active (delete clientID (activeSessions sm2)) sm2)).2
        else save_logged s2 sm2 in
      Returns (None, set_sm sm3 w2)
  end.
End Disconnect.

(** ** Packet identifiers *)

Lemma nextPacketIDCounter_mod c :
  is_u16 c → nextPacketIDCounter c = c mod 65535 + 1.
Proof.
  unfold is_u16, nextPacketIDCounter, u16. intros Hc.
  destruct (decide (c = 65535)) as [->|]; [done|].
  rewrite !Z.mod_small by lia. destruct (c + 1 =? 0) eqn:E; bool_prop; lia.
Qed.

(** The counter after [n] increments. *)
Fixpoint packetIDs (n : nat) (c : Z) : list Z :=
  match n with
  | O => []
  | Datatypes.S n' => nextPacketIDCounter c :: packetIDs n' (nextPacketIDCounter c)
  end.

Lemma packetIDs_closed n c :
  is_u16 c → packetIDs n c = (λ i, (c + Z.of_nat i) mod 65535 + 1) <$> seq 0 n.
Proof.
  revert c. induction n as [|n IH]; intros c Hc; [done|].
  cbn [packetIDs seq]. rewrite fmap_cons, nextPacketIDCounter_mod by done.
  f_equal; [f_equal; f_equal; lia|].
  rewrite IH by (unfold is_u16 in *; pose proof (Z.mod_pos_bound c 65535); lia).
  rewrite <-fmap_S_seq, <-list_fmap_compose. apply list_fmap_ext. intros i j _. simpl.
  f_equal. rewrite <-Z.add_assoc, Zplus_mod_idemp_l. f_equal. lia.
Qed.

Section Properties.
Context {S Data : Type} `{KVStore S Data, SessionCodec Data}.
Implicit Types (sm : SessionManager S).

Lemma active_save_logged s sm : activeSessions (save_logged s sm) = activeSessions sm.
Proof. unfold save_logged, saveSession. case_match; [|done]. by destruct (kv_Set _ _ _). Qed.
Lemma active_deleteSession c sm : activeSessions (deleteSession c sm).2 = activeSessions sm.
Proof. unfold deleteSession. by destruct (kv_Delete _ _). Qed.
Lemma config_save_logged s sm : sm_config (save_logged s sm) = sm_config sm.
Proof. unfold save_logged, saveSession. case_match; [|done]. by destruct (kv_Set _ _ _). Qed.
Lemma wills_save_logged s sm : willManager (save_logged s sm) = willManager sm.
Proof. unfold save_logged, saveSession. case_match; [|done]. by destruct (kv_Set _ _ _). Qed.

(** [n] successive calls of NextPacketID. *)
Fixpoint nextPacketIDs sm (clientID : string) (n : nat) : list (Z + SMError) :=
  match n with
  | O => []
  | Datatypes.S n' => let '(r, sm') := NextPacketID sm clientID in r :: nextPacketIDs sm' clientID n'
  end.

Lemma nextPacketIDs_list sm c n s :
  activeSessions sm !! c = Some s →
  nextPacketIDs sm c n = inl <$> packetIDs n (PacketIDCounter s).
Proof.
  revert sm s. induction n as [|n IH]; intros sm s Hs; simpl; [done|].
  unfold NextPacketID. rewrite Hs. f_equal.
  apply (IH _ (with_counter (nextPacketIDCounter (PacketIDCounter s)) s)).
  simpl. by rewrite lookup_insert_eq.
Qed.
End Properties.
#[export] Hint Rewrite @active_save_logged @active_deleteSession @config_save_logged
  @wills_save_logged : emqx_rw.

(** Packet identifiers: for a live session NextPacketID always succeeds; every identifier
    is between 1 and 65535 (0 is skipped when the 16-bit counter wraps), and any 65535
    consecutive calls return pairwise distinct identifiers. *)
Theorem NextPacketID_distinct {S} (sm : SessionManager S) c s n :
  activeSessions sm !! c = Some s → is_u16 (PacketIDCounter s) → (Z.of_nat n ≤ 65535)%Z →
  ∃ ids, nextPacketIDs sm c n = inl <$> ids ∧ length ids = n ∧
         Forall (λ i, 1 ≤ i ≤ 65535) ids ∧ NoDup ids.
Proof.
  intros Hs Hc Hn. exists (packetIDs n (PacketIDCounter s)).
  split; [by apply nextPacketIDs_list|]. rewrite packetIDs_closed by done. split_and!.
  - by rewrite length_fmap, length_seq.
  - apply Forall_fmap, Forall_forall. intros i _. simpl.
    pose proof (Z.mod_pos_bound (PacketIDCounter s + Z.of_nat i) 65535). lia.
  - apply NoDup_fmap_2_strong; [|apply NoDup_seq].
    intros i j Hi%elem_of_seq Hj%elem_of_seq Heq.
    assert (((PacketIDCounter s + Z.of_nat i) - (PacketIDCounter s + Z.of_nat j)) mod 65535 = 0) as Hd.
    { rewrite Zminus_mod. replace ((PacketIDCounter s + Z.of_nat i) mod 65535)
        with ((PacketIDCounter s + Z.of_nat j) mod 65535) by lia.
      by rewrite Z.sub_diag. }
    replace (PacketIDCounter s + Z.of_nat i - (PacketIDCounter s + Z.of_nat j))
      with (Z.of_nat i - Z.of_nat j) in Hd by lia.
    apply Z.mod_divide in Hd as [k Hk]; [|done].
    assert (k = 0) by nia. lia.
Qed.

(** The identity codec, for concrete runs. *)
Definition idCodec : SessionCodec PersistentSession := {| marshal := Some; unmarshal := Some |}.
Definition example_session (c : string) (clean connected : bool) : PersistentSession :=
  mkPersistentSession c clean connected 0 0 60 {["a/b" := 1]} 65533 ∅ ∅ [] None.
Definition example_manager (c : string) (clean connected : bool)
    : SessionManager (MemStore PersistentSession) :=
  mkSessionManager NewMemStore DefaultConfig {[c := example_session c clean connected]}
    NewWillMessageManager false.

Lemma NextPacketID_distinct_witness :
  ∃ ids, nextPacketIDs (example_manager "c" false true) "c" 4 = inl <$> ids ∧ length ids = 4%nat ∧
         Forall (λ i, 1 ≤ i ≤ 65535) ids ∧ NoDup ids.
Proof.
  apply (NextPacketID_distinct (example_manager "c" false true) "c" (example_session "c" false true) 4);
    [reflexivity|unfold is_u16; simpl; lia|lia].
Defined.

(** ** Offline queues *)

(** The last [n] elements of a list. *)
Definition lastn {A} (n : nat) (l : list A) : list A := drop (length l - n) l.

Lemma lastn_length {A} n (l : list A) : (length (lastn n l) ≤ n)%nat.
Proof. unfold lastn. rewrite length_drop. lia. Qed.

Lemma lastn_all {A} n (l : list A) : (length l ≤ n)%nat → lastn n l = l.
Proof. intros Hl. unfold lastn. replace (length l - n)%nat with 0%nat by lia. done. Qed.

Lemma lastn_app_lastn {A} n (l k : list A) : lastn n (lastn n l ++ k) = lastn n (l ++ k).
Proof.
  unfold lastn. rewrite !length_app, !length_drop.
  destruct (decide (length l ≤ n)%nat).
  { replace (length l - n)%nat with 0%nat by lia. by rewrite drop_0, Nat.sub_0_r. }
  rewrite !drop_app, drop_drop, length_drop. f_equal; f_equal; lia.
Qed.

(** Dropping the oldest of a full queue before appending keeps the last [n]. *)
Lemma push_lastn {A} n (q : list A) (x : A) :
  (0 < n)%nat → (length q ≤ n)%nat →
  (if (n <=? length q)%nat then tail q else q) ++ [x] = lastn n (q ++ [x]).
Proof.
  intros Hn Hq. unfold lastn. rewrite length_app. simpl.
  destruct (n <=? length q)%nat eqn:E; bool_prop.
  - replace (length q + 1 - n)%nat with 1%nat by lia. destruct q; simpl in *; [lia|done].
  - by replace (length q + 1 - n)%nat with 0%nat by lia.
Qed.

(** A message as it is queued. *)
Definition queued_as (cfg : Config) (topic : string) (payload : list byte) (qos : Z)
    (retain : bool) (now : Time) : QueuedMessage :=
  mkQueuedMessage topic payload qos retain now
    (if 0 <? MessageExpiryInterval cfg then Some (now + MessageExpiryInterval cfg) else None) ∅.

Section Queue.
Context {S Data : Type} `{KVStore S Data, SessionCodec Data}.
Implicit Types (sm : SessionManager S).

Lemma QueueMessage_offline sm c s topic payload qos retain now :
  activeSessions sm !! c = Some s → Connected s = false → CleanSession s = false →
  0 < MaxOfflineMessages (sm_config sm) →
  blen (MessageQueue s) ≤ MaxOfflineMessages (sm_config sm) →
  ∃ sm', QueueMessage sm c topic payload qos retain now = Returns (None, sm') ∧
    sm_config sm' = sm_config sm ∧
    activeSessions sm' = <[c := with_queue
      (lastn (Z.to_nat (MaxOfflineMessages (sm_config sm)))
         (MessageQueue s ++ [queued_as (sm_config sm) topic payload qos retain now])) s]>
      (activeSessions sm).
Proof.
  intros Hs Hc Hcl Hmax Hlen. unfold QueueMessage. rewrite Hs, Hc, Hcl. unfold blen in *.
  rewrite <-push_lastn by lia.
  destruct (MaxOfflineMessages (sm_config sm) <=? Z.of_nat (length (MessageQueue s))) eqn:E; bool_prop.
  - rewrite (proj2 (Nat.leb_le _ _)) by lia.
    destruct (MessageQueue s) as [|m q]; [simpl in *; lia|]. simpl. eexists. split; [done|].
    by rewrite active_save_logged, config_save_logged.
  - rewrite (proj2 (Nat.leb_gt _ _)) by lia. simpl. eexists. split; [done|].
    by rewrite active_save_logged, config_save_logged.
Qed.

(** Queueing a sequence of messages for one client. *)
Fixpoint queue_all sm (c : string) (msgs : list (string * list byte * Z * bool * Time))
    : outcome (SessionManager S) :=
  match msgs with
  | [] => Returns sm
  | (t, p, q, rt, now) :: msgs' =>
      let! r := QueueMessage sm c t p q rt now in queue_all r.2 c msgs'
  end.
End Queue.

(** The offline queue is a bounded FIFO that drops the oldest: for a disconnected client with
    a persistent session and a positive limit, queueing any sequence of messages succeeds
    and leaves in the queue exactly the last [MaxOfflineMessages] of what was there
    followed by the new messages in order, each with its expiry stamp; no other session
    changes. *)
Theorem QueueMessage_keeps_last {S Data} `{KVStore S Data, SessionCodec Data}
    (sm : SessionManager S) c s msgs :
  activeSessions sm !! c = Some s → Connected s = false → CleanSession s = false →
  0 < MaxOfflineMessages (sm_config sm) →
  blen (MessageQueue s) ≤ MaxOfflineMessages (sm_config sm) →
  ∃ sm', queue_all sm c msgs = Returns sm' ∧
    activeSessions sm' = <[c := with_queue
      (lastn (Z.to_nat (MaxOfflineMessages (sm_config sm)))
         (MessageQueue s ++ ((λ '(t, p, q, r, now), queued_as (sm_config sm) t p q r now) <$> msgs))) s]>
      (activeSessions sm).
Proof.
  revert sm s. induction msgs as [|[[[[t p] q] r] now] msgs IH]; intros sm s Hs Hc Hcl Hmax Hlen.
  - exists sm. split; [done|]. simpl. rewrite app_nil_r, lastn_all by (unfold blen in *; lia).
    symmetry. apply insert_id. rewrite Hs. f_equal. by destruct s.
  - destruct (QueueMessage_offline sm c s t p q r now Hs Hc Hcl Hmax Hlen)
      as (sm1 & Hq & Hcfg & Hact).
    simpl. rewrite Hq. simpl.
    destruct (IH sm1 (with_queue (lastn (Z.to_nat (MaxOfflineMessages (sm_config sm)))
      (MessageQueue s ++ [queued_as (sm_config sm) t p q r now])) s)) as (sm2 & Hr & Hact2);
      rewrite ?Hcfg; try done.
    { by rewrite Hact, lookup_insert_eq. }
    { simpl. unfold blen. pose proof (lastn_length (Z.to_nat (MaxOfflineMessages (sm_config sm)))
        (MessageQueue s ++ [queued_as (sm_config sm) t p q r now])). lia. }
    exists sm2. split; [done|]. rewrite Hact2, Hact, Hcfg, insert_insert_eq. f_equal. simpl.
    unfold with_queue. simpl. f_equal. by rewrite lastn_app_lastn, <-app_assoc.
Qed.

Lemma QueueMessage_keeps_last_witness :
  ∃ sm', queue_all (H0 := idCodec) (example_manager "c" false false) "c"
           [("a/b", [], 1, false, 5); ("a/b", [], 0, false, 6)] = Returns sm' ∧
    (length ∘ MessageQueue <$> activeSessions sm' !! "c")%string = Some 2%nat.
Proof.
  destruct (QueueMessage_keeps_last (H0 := idCodec) (example_manager "c" false false) "c"
    (example_session "c" false false) [("a/b", [], 1, false, 5); ("a/b", [], 0, false, 6)])
    as (sm' & Hr & Ha); [reflexivity..|unfold blen; simpl; lia|].
  exists sm'. split; [exact Hr|]. rewrite Ha, lookup_insert_eq. vm_compute. reflexivity.
Defined.


(** ** Surviving a restart *)

Section Durable.
Context {S Data : Type} `{KVStoreLaws S Data, SessionCodec Data}.
Implicit Types (sm : SessionManager S).

Lemma loadSession_deleted c sm :
  (∀ st k, (kv_Delete (V := Data) st k).1 = None) →
  loadSession c (deleteSession c sm).2 = inr (StoreFailed ErrNotFound).
Proof using Type*.
  intros Hok. unfold loadSession, deleteSession.
  destruct (kv_Delete (sm_store sm) (sessionKey c)) as [e st'] eqn:E.
  assert (e = None) as -> by (by rewrite <-(Hok (sm_store sm) (sessionKey c)), E).
  simpl. by rewrite (kv_get_delete_eq _ _ _ E).
Qed.

Context (representable : PersistentSession → Prop) `{!SessionCodecLaws Data representable}.

Lemma loadSession_saved s sm :
  representable s → (∀ st k d, (kv_Set (V := Data) st k d).1 = None) →
  loadSession (ClientID s) (save_logged s sm) = inl s.
Proof using Type*.
  intros Hs Hok. destruct (codec_roundtrip s Hs) as (d & Hm & Hu).
  unfold loadSession, save_logged, saveSession. rewrite Hm.
  destruct (kv_Set (sm_store sm) (sessionKey (ClientID s)) d) as [e st'] eqn:E.
  assert (e = None) as -> by (by rewrite <-(Hok (sm_store sm) (sessionKey (ClientID s)) d), E).
  simpl. by rewrite (kv_get_set_eq _ _ _ _ E), Hu.
Qed.
End Durable.

(** Disconnecting with the session manager alone as the state. *)
Definition disconnect {S Data} `{KVStore S Data, SessionCodec Data}
    (publish : gset string → WillMessage → string → SessionManager S → outcome (SessionManager S)) :=
  DisconnectSession (S := S) (λ sm, sm) (λ sm _, sm) publish.

(** What a session keeps for the client across connections. *)
Definition session_state (s : PersistentSession) :=
  (ClientID s, CleanSession s, Subscriptions s, PacketIDCounter s, InflightQoS1 s, InflightQoS2 s,
   MessageQueue s).

(** C11. A persistent session survives the broker: when a client with CleanSession=false
    disconnects gracefully and the session is written to the store, a session manager started
    on the store as the disconnection left it (with any configuration) resumes, for a
    reconnection with CleanSession=false and whatever other goroutines do meanwhile, a session
    with the same subscriptions, packet-identifier counter, inflight messages and offline
    queue, marked connected and without the will.  It keeps its expiry interval, unless the
    reconnection names a positive one, which replaces it. *)
Theorem session_survives_restart {S Data} `{KVStoreLaws S Data, SessionCodec Data}
    (representable : PersistentSession → Prop) `{!SessionCodecLaws Data representable}
    publish (sm : SessionManager S) c s t1 cfg expiry t2 others :
  (∀ st k (d : Data), (kv_Set st k d).1 = None) →
  activeSessions sm !! c = Some s → ClientID s = c → CleanSession s = false →
  representable (with_will None (touch false t1 s)) →
  ∃ sm1, disconnect publish sm c true t1 = Returns (None, sm1) ∧
    let '(s2, sm2) := CreateOrResumeSession (NewSessionManager (sm_store sm1) cfg) c false expiry t2 others in
    activeSessions sm2 !! c = Some s2 ∧ session_state s2 = session_state s ∧
    Connected s2 = true ∧ Session_Will s2 = None ∧ LastActivity s2 = t2 ∧ CreatedAt s2 = CreatedAt s ∧
    ExpiryInterval s2 = (if 0 <? expiry then expiry else ExpiryInterval s).
Proof.
  intros Hok Hs Hid Hcl Hrep. unfold disconnect, DisconnectSession. rewrite Hs.
  assert (∀ sm' : SessionManager S, loadSession c (NewSessionManager (sm_store
    (save_logged (with_will None (touch false t1 s)) sm')) cfg)
    = inl (with_will None (touch false t1 s))) as Hload.
  { intros sm'. rewrite <-(loadSession_saved representable _ sm' Hrep Hok). simpl.
    rewrite <-Hid at 1. done. }
  destruct (Session_Will _); simpl; rewrite Hcl; (eexists; split; [done|]);
    unfold CreateOrResumeSession; simpl; rewrite Hload, lookup_empty; simpl;
    rewrite lookup_insert_eq; by destruct (0 <? expiry).
Qed.

#[export] Instance idCodec_laws : SessionCodecLaws (H := idCodec) PersistentSession (λ _, True).
Proof. split. intros s _. by exists s. Qed.

Lemma session_survives_restart_witness :
  ∃ sm1, disconnect (H0 := idCodec) (λ _ _ _ sm, Returns sm) (example_manager "c" false true) "c" true 9
           = Returns (None, sm1) ∧
    let '(s2, sm2) :=
      CreateOrResumeSession (H0 := idCodec) (NewSessionManager (sm_store sm1) None) "c" false 3600 20 id in
    activeSessions sm2 !! "c" = Some s2 ∧
    session_state s2 = session_state (example_session "c" false true) ∧
    Connected s2 = true ∧ Session_Will s2 = None ∧ LastActivity s2 = 20 ∧
    CreatedAt s2 = CreatedAt (example_session "c" false true) ∧ ExpiryInterval s2 = 3600.
Proof.
  apply (session_survives_restart (H1 := idCodec) (λ _, True) (λ _ _ _ sm, Returns sm)
    (example_manager "c" false true) "c" (example_session "c" false true) 9 None 3600 20 id);
    try reflexivity; exact I.
Defined.

(** Clean sessions: connecting with CleanSession=true yields, whatever the manager held
    and whatever other goroutines did meanwhile, a connected session with no
    subscriptions, no queue and no inflight messages; and when a clean session ends
    gracefully, the client is gone from the live sessions and from the store, so that a
    later connection finds nothing to resume. *)
Theorem clean_session_forgets {S Data} `{KVStoreLaws S Data, SessionCodec Data}
    (sm : SessionManager S) c expiry now others publish t1 :
  (let '(s, sm') := CreateOrResumeSession sm c true expiry now others in
   activeSessions sm' !! c = Some s ∧ CleanSession s = true ∧ Connected s = true ∧
   Subscriptions s = ∅ ∧ MessageQueue s = [] ∧ InflightQoS1 s = ∅ ∧ InflightQoS2 s = ∅ ∧
   Session_Will s = None) ∧
  ((∀ st k, (kv_Delete (V := Data) st k).1 = None) →
   ∀ s, activeSessions sm !! c = Some s → CleanSession s = true →
   ∃ sm1, disconnect publish sm c true t1 = Returns (None, sm1) ∧
     activeSessions sm1 !! c = None ∧ loadSession c sm1 = inr (StoreFailed ErrNotFound)).
Proof.
  split.
  - unfold CreateOrResumeSession.
    destruct (activeSessions sm !! c); simpl; [by rewrite lookup_insert_eq|].
    destruct (activeSessions (others sm) !! c); simpl; by rewrite lookup_insert_eq.
  - intros Hok s Hs Hcl. unfold disconnect, DisconnectSession. rewrite Hs.
    destruct (Session_Will _); simpl; rewrite Hcl; (eexists; split; [done|]); simpl;
      rewrite active_deleteSession; simpl; rewrite lookup_delete_eq;
      (split; [done|]); by apply loadSession_deleted.
Qed.

Lemma clean_session_forgets_witness :
  ∃ sm1, disconnect (H0 := idCodec) (λ _ _ _ sm, Returns sm) (example_manager "c" true true) "c" true 9
           = Returns (None, sm1) ∧
     activeSessions sm1 !! "c" = None ∧
     loadSession (H0 := idCodec) "c" sm1 = inr (StoreFailed ErrNotFound).
Proof.
  refine (proj2 (clean_session_forgets (H1 := idCodec) (example_manager "c" true true) "c" 0 0 id
    (λ _ _ _ sm, Returns sm) 9) _ (example_session "c" true true) _ _); reflexivity.
Defined.

(** ** Expiry *)

Section Expiry.
Context {S Data : Type} `{KVStore S Data, SessionCodec Data}.
Implicit Types (sm : SessionManager S).

(** Every session is filed under its own client identifier. *)
Definition filed sm : Prop := ∀ c s, activeSessions sm !! c = Some s → ClientID s = c.

(** What the clean-up leaves of one session. *)
Definition purge (now : Time) (s : PersistentSession) : PersistentSession :=
  with_queue (filter (λ m, message_valid now m = true) (MessageQueue s)) s.

Lemma filter_same_length {A} (P : A → Prop) `{∀ x, Decision (P x)} (l : list A) :
  length (filter P l) = length l → filter P l = l.
Proof.
  intros Hl. induction l as [|x l IH]; [done|]. rewrite filter_cons in *. case_decide.
  - simpl in Hl. f_equal. apply IH. lia.
  - pose proof (length_filter P l). simpl in Hl. lia.
Qed.

Lemma cleanupScan_active now c s st :
  activeSessions st.2 !! c = Some s → ClientID s = c →
  (cleanupScan now c s st).1 = st.1 ++ (if session_expired now s then [c] else []) ∧
  activeSessions (cleanupScan now c s st).2 =
    <[c := if session_expired now s then s else purge now s]> (activeSessions st.2).
Proof.
  destruct st as [ids sm]. simpl. intros Hs Hid. unfold cleanupScan.
  destruct (session_expired now s); simpl.
  { rewrite Hid. split; [done|]. by rewrite insert_id. }
  rewrite app_nil_r. case_bool_decide as Hl; simpl.
  - split; [done|]. unfold purge. rewrite filter_same_length by done.
    symmetry. apply insert_id. rewrite Hs. f_equal. by destruct s.
  - split; [done|]. destruct (CleanSession s); [done|]. by rewrite active_save_logged.
Qed.

Lemma cleanup_fold now (l : list (string * PersistentSession)) st :
  NoDup l.*1 →
  (∀ c s, (c, s) ∈ l → activeSessions st.2 !! c = Some s ∧ ClientID s = c) →
  let r := foldl (λ st kv, cleanupScan now kv.1 kv.2 st) st l in
  r.1 = st.1 ++ (filter (λ kv, session_expired now kv.2 = true) l).*1 ∧
  (∀ c, c ∉ l.*1 → activeSessions r.2 !! c = activeSessions st.2 !! c) ∧
  (∀ c s, (c, s) ∈ l → activeSessions r.2 !! c =
     Some (if session_expired now s then s else purge now s)).
Proof.
  revert st. induction l as [|[c s] l IH]; intros st Hnd Hl; simpl.
  { rewrite app_nil_r. split_and!; [done|done|]. by intros ?? ?%not_elem_of_nil. }
  apply NoDup_cons in Hnd as [Hc Hnd]. simpl in Hc.
  destruct (Hl c s) as [Hs Hid]; [by left|].
  destruct (cleanupScan_active now c s st Hs Hid) as [H1 H2].
  destruct (IH (cleanupScan now c s st) Hnd) as (Hr1 & Hr2 & Hr3).
  { intros c' s' Hin. destruct (Hl c' s') as [Hs' Hid']; [by right|]. split; [|done].
    rewrite H2, lookup_insert_ne; [done|]. intros <-. apply Hc.
    by apply (list_elem_of_fmap_2 fst _ (c, s')). }
  split_and!.
  - rewrite Hr1, H1, <-app_assoc. f_equal. rewrite filter_cons. simpl.
    destruct (session_expired now s); by case_decide.
  - intros c' Hc'. apply not_elem_of_cons in Hc' as [Hne Hc'].
    rewrite Hr2 by done. by rewrite H2, lookup_insert_ne.
  - intros c' s' [[= -> ->]|Hin]%elem_of_cons; [|by apply Hr3].
    rewrite Hr2 by done. by rewrite H2, lookup_insert_eq.
Qed.

Lemma removeExpired_fold now ids sm c :
  activeSessions (foldl (removeExpired now) sm ids) !! c =
  (s ← activeSessions sm !! c;
   if bool_decide (c ∈ ids) && session_expired now s then None else Some s).
Proof.
  revert sm. induction ids as [|i ids IH]; intros sm; simpl.
  { by destruct (activeSessions sm !! c). }
  rewrite IH. unfold removeExpired. destruct (decide (c = i)) as [->|Hne].
  - rewrite (bool_decide_true (P := i ∈ i :: ids)) by (by left). simpl.
    destruct (activeSessions sm !! i) as [s|] eqn:E; [|by rewrite E].
    destruct (session_expired now s) eqn:Ex.
    + rewrite active_deleteSession. simpl. rewrite lookup_delete_eq. simpl. by rewrite Ex.
    + rewrite E. simpl. by rewrite Ex, andb_false_r.
  - assert (bool_decide (c ∈ i :: ids) = bool_decide (c ∈ ids)) as ->
      by (apply bool_decide_ext; set_solver).
    destruct (activeSessions sm !! i) as [s|]; [|done].
    destruct (session_expired now s); [|done].
    rewrite active_deleteSession. simpl. by rewrite lookup_delete_ne.
Qed.
End Expiry.

(** The clean-up routine removes from the live sessions exactly the disconnected sessions
    idle for longer than their expiry interval, keeps every other session, and drops from
    the kept ones exactly the queued messages whose expiry time has passed; nothing else
    of a session changes. *)
Theorem cleanupExpiredSessions_exact {S Data} `{KVStore S Data, SessionCodec Data}
    (sm : SessionManager S) now :
  filed sm →
  activeSessions (cleanupExpiredSessions sm now) =
  map_imap (λ _ s, if session_expired now s then None else Some (purge now s)) (activeSessions sm).
Proof.
  intros Hf. unfold cleanupExpiredSessions, go_range.
  pose proof (cleanup_fold now (map_to_list (activeSessions sm)) ([], sm)) as Hc.
  destruct (foldl _ _ _) as [ids sm1]. simpl in Hc.
  destruct Hc as (Hids & Hout & Hin).
  { apply NoDup_fst_map_to_list. }
  { intros c s Hs%elem_of_map_to_list. split; [done|by apply Hf]. }
  apply map_eq. intros c. rewrite removeExpired_fold, map_lookup_imap.
  destruct (activeSessions sm !! c) as [s|] eqn:E; simpl.
  - assert ((c, s) ∈ map_to_list (activeSessions sm)) as Hcs by by apply elem_of_map_to_list.
    rewrite (Hin _ _ Hcs). simpl. destruct (session_expired now s) eqn:Ex.
    + rewrite Ex, bool_decide_true; [done|]. rewrite Hids.
      apply (list_elem_of_fmap_2 fst _ (c, s)). by apply list_elem_of_filter.
    + replace (session_expired now (purge now s)) with false by done.
      by rewrite andb_false_r.
  - rewrite Hout; [by rewrite E|].
    intros ([c' s'] & -> & Hs%elem_of_map_to_list)%list_elem_of_fmap. simpl in E. congruence.
Qed.

Lemma cleanupExpiredSessions_exact_witness :
  activeSessions (cleanupExpiredSessions (H0 := idCodec) (example_manager "c" false false) 61) = ∅.
Proof.
  rewrite (cleanupExpiredSessions_exact (H0 := idCodec) (example_manager "c" false false) 61).
  - vm_compute. reflexivity.
  - intros c s Hs. simpl in Hs. by apply lookup_singleton_Some in Hs as [<- <-].
Defined.
