(* ===== verification/Offline.v ===== *)
(** * Offline: messages for disconnected clients (pkg/persistent/offline.go)

    The offline manager queues published messages for the disconnected persistent sessions
    with a matching subscription, and hands the queue to a callback when the client is
    back.  Both operations take session locks; an operation called by a goroutine that
    already holds one of them waits for ever ([Blocks]). *)

From S2P Require Import Prelude GoLib TopicMatch KVStore Will Persistent.
Local Open Scope emqx_scope.
Local Open Scope Z_scope.

(** A delivery callback works on the state [W] of its owner and may fail. *)
Definition MessageDeliveryCallback (W E : Type) : Type :=
  string → string → list byte → Z → bool → W → option E * W.

(** [deliveryCallbacks]; the session manager it points to is passed separately. *)
Record OfflineMessageManager (W E : Type) := mkOfflineMessageManager {
  deliveryCallbacks : gmap string (MessageDeliveryCallback W E);
}.
Arguments mkOfflineMessageManager {_ _} _.
Arguments deliveryCallbacks {_ _} _.

Inductive DeliverError (E : Type) :=
  | NoCallback (clientID : string)
  | DeliverNoSession (clientID : string)
  | NotConnected (clientID : string)
  | CallbackFailed (e : E).
Arguments NoCallback {_} _.
Arguments DeliverNoSession {_} _.
Arguments NotConnected {_} _.
Arguments CallbackFailed {_} _.

Record OfflineStats := mkOfflineStats {
  MessageCount : Z;
  TotalBytes : Z;
  ExpiredCount : Z;
  OldestMessage : option Time;
  Stats_LastActivity : Time;
}.

Section Offline.
Context {S Data : Type} `{KVStore S Data, SessionCodec Data}.
Context {W E : Type}.
Implicit Types (sm : SessionManager S) (omm : OfflineMessageManager W E).

Definition NewOfflineMessageManager : OfflineMessageManager W E := mkOfflineMessageManager ∅.

Definition SetDeliveryCallback omm (clientID : string) (callback : MessageDeliveryCallback W E)
    : OfflineMessageManager W E :=
  mkOfflineMessageManager (<[clientID := callback]> (deliveryCallbacks omm)).

Definition RemoveDeliveryCallback omm (clientID : string) : OfflineMessageManager W E :=
  mkOfflineMessageManager (delete clientID (deliveryCallbacks omm)).

(** [now.After] of the expiry time, the test of the delivery loop. *)
Definition message_expired (now : Time) (msg : QueuedMessage) : bool :=
  match Q_ExpiryTime msg with None => false | Some e => After now e end.

(** The delivery loop; [clock i] is what [time.Now()] answers at the [i]-th message. *)
Fixpoint deliverLoop (callback : MessageDeliveryCallback W E) (clientID : string)
    (clock : nat → Time) (i : nat) (msgs : list QueuedMessage) (w : W) : option E * W :=
  match msgs with
  | [] => (None, w)
  | msg :: msgs' =>
      if message_expired (clock i) msg then deliverLoop callback clientID clock (1 + i) msgs' w
      else
        match callback clientID (Q_Topic msg) (Q_Payload msg) (Q_QoS msg) (Q_Retain msg) w with
        | (Some err, w') => (Some err, w')
        | (None, w') => deliverLoop callback clientID clock (1 + i) msgs' w'
        end
  end.

Definition DeliverOfflineMessages omm sm (clientID : string) (clock : nat → Time) (w : W)
    : option (DeliverError E) * SessionManager S * W :=
  match deliveryCallbacks omm !! clientID with
  | None => (Some (NoCallback clientID), sm, w)
  | Some callback =>
      match activeSessions sm !! clientID with
      | None => (Some (DeliverNoSession clientID), sm, w)
      | Some session =>
          if negb (Connected session) then (Some (NotConnected clientID), sm, w)
          else
            match deliverLoop callback clientID clock 0 (MessageQueue session) w with
            | (Some err, w') => (Some (CallbackFailed err), sm, w')
            | (None, w') =>
                let s := with_queue [] session in
                let sm := put_session clientID s sm in
                (None, if CleanSession s then sm else save_logged s sm, w')
            end
      end
  end.

(** The inner loop over the subscriptions. *)
Definition hasMatchingSubscription (matches : string → string → bool) (topic : string)
    (session : PersistentSession) : bool :=
  existsb (λ '(subTopic, _), matches topic subTopic) (map_to_list (Subscriptions session)).

(** One call of the Range function.  [held] are the clients whose session lock the
    calling goroutine holds: [RLock] on one of them never returns. *)
Definition queueForClient (held : gset string) (topic : string) (payload : list byte) (qos : Z)
    (retain : bool) (matches : string → string → bool) (now : Time)
    (clientID : string) (session : PersistentSession) sm : outcome (SessionManager S) :=
  if bool_decide (clientID ∈ held) then Blocks
  else if Connected session then Returns sm
  else if CleanSession session then Returns sm
  else if hasMatchingSubscription matches topic session then
    let! r := QueueMessage sm clientID topic payload qos retain now in Returns r.2
  else Returns sm.

Definition QueueMessageForOfflineClients (held : gset string) sm (topic : string)
    (payload : list byte) (qos : Z) (retain : bool) (matches : string → string → bool)
    (now : Time) : outcome (SessionManager S) :=
  go_range (λ clientID session o,
      let! sm := o in queueForClient held topic payload qos retain matches now clientID session sm)
    (activeSessions sm) (Returns sm).

Definition getOldestMessageTime (messages : list QueuedMessage) : option Time :=
  match messages with
  | [] => None
  | m :: ms =>
      Some (foldl (λ oldest msg, if Before (Q_Timestamp msg) oldest then Q_Timestamp msg else oldest)
              (Q_Timestamp m) ms)
  end.

Definition sessionStats (now : Time) (s : PersistentSession) : OfflineStats :=
  let '(totalBytes, expiredCount) :=
    foldl (λ '(totalBytes, expiredCount) msg,
             (u64 (totalBytes + blen (Q_Payload msg)),
              if message_expired now msg then expiredCount + 1 else expiredCount))
          (0, 0) (MessageQueue s) in
  mkOfflineStats (blen (MessageQueue s)) totalBytes expiredCount
    (getOldestMessageTime (MessageQueue s)) (LastActivity s).

Definition GetOfflineMessageStats sm (now : Time) : gmap string OfflineStats :=
  map_imap (λ _ s, if negb (Connected s) && negb (CleanSession s)
                   then Some (sessionStats now s) else None) (activeSessions sm).
End Offline.

(** ** Queueing *)

(** The sessions that get a message: disconnected, persistent, with a matching filter. *)
Definition wants (matches : string → string → bool) (topic : string) (s : PersistentSession) : bool :=
  negb (Connected s) && negb (CleanSession s) && hasMatchingSubscription matches topic s.

Lemma hasMatchingSubscription_true matches topic s :
  hasMatchingSubscription matches topic s = true ↔
  ∃ f q, Subscriptions s !! f = Some q ∧ matches topic f = true.
Proof.
  unfold hasMatchingSubscription. rewrite existsb_exists. split.
  - intros ([f q] & Hin & Hm). exists f, q. split; [|done].
    by apply elem_of_map_to_list, list_elem_of_In.
  - intros (f & q & Hf & Hm). exists (f, q). split; [|done].
    by apply list_elem_of_In, elem_of_map_to_list.
Qed.

Section OfflineProps.
Context {S Data : Type} `{KVStore S Data, SessionCodec Data}.
Implicit Types (sm : SessionManager S).

(** The queue of every session is within the configured positive limit. *)
Definition queues_bounded sm : Prop :=
  0 < MaxOfflineMessages (sm_config sm) ∧
  ∀ c s, activeSessions sm !! c = Some s →
    blen (MessageQueue s) ≤ MaxOfflineMessages (sm_config sm).

(** What queueing does to one session. *)
Definition enqueue (cfg : Config) (matches : string → string → bool) (topic : string)
    (payload : list byte) (qos : Z) (retain : bool) (now : Time) (s : PersistentSession)
    : PersistentSession :=
  if wants matches topic s then
    with_queue (lastn (Z.to_nat (MaxOfflineMessages cfg))
                  (MessageQueue s ++ [queued_as cfg topic payload qos retain now])) s
  else s.

Lemma queueForClient_spec held topic payload qos retain matches now c s sm :
  c ∉ held → 0 < MaxOfflineMessages (sm_config sm) → activeSessions sm !! c = Some s →
  blen (MessageQueue s) ≤ MaxOfflineMessages (sm_config sm) →
  ∃ sm', queueForClient held topic payload qos retain matches now c s sm = Returns sm' ∧
    sm_config sm' = sm_config sm ∧
    activeSessions sm' =
      <[c := enqueue (sm_config sm) matches topic payload qos retain now s]> (activeSessions sm).
Proof.
  intros Hh Hmax Hs Hb. unfold queueForClient, enqueue, wants.
  rewrite bool_decide_false by done.
  assert (<[c := s]> (activeSessions sm) = activeSessions sm) as Hid by by apply insert_id.
  destruct (Connected s) eqn:Ec; simpl; [by exists sm; rewrite Hid|].
  destruct (CleanSession s) eqn:Ecl; simpl; [by exists sm; rewrite Hid|].
  destruct (hasMatchingSubscription matches topic s); [|by exists sm; rewrite Hid].
  destruct (QueueMessage_offline sm c s topic payload qos retain now) as (sm' & -> & Hc & Ha);
    [done..|]. by exists sm'.
Qed.

Lemma queue_fold held topic payload qos retain matches now
    (l : list (string * PersistentSession)) sm :
  NoDup l.*1 → 0 < MaxOfflineMessages (sm_config sm) →
  (∀ c s, (c, s) ∈ l → (c ∉ held) ∧ activeSessions sm !! c = Some s ∧
     blen (MessageQueue s) ≤ MaxOfflineMessages (sm_config sm)) →
  ∃ sm', foldl (λ o kv, let! sm := o in
             queueForClient held topic payload qos retain matches now kv.1 kv.2 sm) (Returns sm) l
           = Returns sm' ∧
    sm_config sm' = sm_config sm ∧
    (∀ c, c ∉ l.*1 → activeSessions sm' !! c = activeSessions sm !! c) ∧
    (∀ c s, (c, s) ∈ l → activeSessions sm' !! c =
       Some (enqueue (sm_config sm) matches topic payload qos retain now s)).
Proof.
  revert sm. induction l as [|[c s] l IH]; intros sm Hnd Hmax Hl; simpl.
  { exists sm. split_and!; [done..|]. by intros ?? ?%not_elem_of_nil. }
  apply NoDup_cons in Hnd as [Hc Hnd]. simpl in Hc.
  destruct (Hl c s) as (Hh & Hs & Hb); [by left|].
  destruct (queueForClient_spec held topic payload qos retain matches now c s sm)
    as (sm1 & -> & Hcfg & Ha); [done..|].
  destruct (IH sm1) as (sm' & Hr & Hcfg' & Hout & Hin); [done|by rewrite Hcfg| |].
  { intros c' s' Hin. destruct (Hl c' s') as (Hh' & Hs' & Hb'); [by right|].
    rewrite Hcfg. split_and!; [done| |done]. rewrite Ha, lookup_insert_ne; [done|].
    intros <-. apply Hc. by apply (list_elem_of_fmap_2 fst _ (c, s')). }
  exists sm'. split; [done|]. split; [congruence|]. split.
  - intros c' Hc'. apply not_elem_of_cons in Hc' as [Hne Hc'].
    rewrite Hout by done. by rewrite Ha, lookup_insert_ne.
  - intros c' s' [[= -> ->]|Hin']%elem_of_cons; [|rewrite (Hin _ _ Hin'); by rewrite Hcfg].
    rewrite Hout by done. by rewrite Ha, lookup_insert_eq.
Qed.

Lemma queue_offline held sm topic payload qos retain matches now :
  queues_bounded sm → (∀ c, c ∈ held → activeSessions sm !! c = None) →
  ∃ sm', QueueMessageForOfflineClients held sm topic payload qos retain matches now = Returns sm' ∧
    sm_config sm' = sm_config sm ∧
    activeSessions sm' =
      enqueue (sm_config sm) matches topic payload qos retain now <$> activeSessions sm.
Proof.
  intros [Hmax Hb] Hh.
  destruct (queue_fold held topic payload qos retain matches now
    (map_to_list (activeSessions sm)) sm) as (sm' & Hr & Hcfg & Hout & Hin).
  { apply NoDup_fst_map_to_list. }
  { done. }
  { intros c s Hs%elem_of_map_to_list. split_and!; [|done|by eapply Hb].
    intros Hc%Hh. congruence. }
  exists sm'. split; [done|]. split; [done|]. apply map_eq. intros c. rewrite lookup_fmap.
  destruct (activeSessions sm !! c) as [s|] eqn:Es; simpl.
  - apply Hin. by apply elem_of_map_to_list.
  - rewrite Hout; [done|].
    intros ([c' s'] & -> & Hs%elem_of_map_to_list)%list_elem_of_fmap. simpl in Es. congruence.
Qed.

(** A Range that meets a session whose lock the goroutine holds does not return. *)
Lemma queue_held_stuck held topic payload qos retain matches now c sm sm' :
  c ∈ held → is_Some (activeSessions sm !! c) →
  QueueMessageForOfflineClients held sm topic payload qos retain matches now ≠ Returns sm'.
Proof.
  intros Hc [s Hs] Hr. unfold QueueMessageForOfflineClients, go_range in Hr.
  apply elem_of_map_to_list in Hs. revert Hr. generalize (Returns sm : outcome (SessionManager S)).
  induction (map_to_list (activeSessions sm)) as [|[c1 s1] l IH];
    [by apply not_elem_of_nil in Hs|].
  simpl. intros o Hr. apply elem_of_cons in Hs as [[= <- <-]|Hs]; [|by eapply IH].
  assert (∀ o' : outcome (SessionManager S), (∀ x, o' ≠ Returns x) →
    foldl (λ o kv, let! sm := o in
      queueForClient held topic payload qos retain matches now kv.1 kv.2 sm) o' l ≠ Returns sm')
    as Hstuck.
  { clear. induction l as [|kv l IH]; intros o' Ho; simpl; [apply Ho|].
    apply IH. intros x. destruct o'; simpl; [by destruct (Ho a)|done..]. }
  apply (Hstuck _) in Hr; [done|]. intros x. destruct o; simpl; [|done..].
  unfold queueForClient. by rewrite bool_decide_true.
Qed.
End OfflineProps.

(** C17. Offline queueing: with queues within their limit and no session lock held by the
    caller, a published message is appended (with its expiry, dropping the oldest when
    full) to the queue of exactly the sessions that are disconnected, persistent and
    subscribed with a matching filter; every other session is untouched, and the queues
    stay within the limit. *)
Theorem QueueMessageForOfflineClients_exact {S Data} `{KVStore S Data, SessionCodec Data}
    (sm : SessionManager S) topic payload qos retain matches now :
  queues_bounded sm →
  ∃ sm', QueueMessageForOfflineClients ∅ sm topic payload qos retain matches now = Returns sm' ∧
    queues_bounded sm' ∧
    ∀ c s, activeSessions sm !! c = Some s →
      activeSessions sm' !! c = Some (
        if negb (Connected s) && negb (CleanSession s) && hasMatchingSubscription matches topic s
        then with_queue (lastn (Z.to_nat (MaxOfflineMessages (sm_config sm)))
               (MessageQueue s ++ [queued_as (sm_config sm) topic payload qos retain now])) s
        else s).
Proof.
  intros Hq. destruct (queue_offline ∅ sm topic payload qos retain matches now Hq)
    as (sm' & Hr & Hcfg & Ha); [set_solver|].
  exists sm'. split; [done|]. destruct Hq as [Hmax Hb]. split.
  - split; [by rewrite Hcfg|]. intros c s. rewrite Ha, Hcfg, lookup_fmap.
    intros (s0 & Hs0 & ->)%fmap_Some. unfold enqueue. case_match; [|by eapply Hb].
    simpl. unfold blen. pose proof (lastn_length (Z.to_nat (MaxOfflineMessages (sm_config sm)))
      (MessageQueue s0 ++ [queued_as (sm_config sm) topic payload qos retain now])). lia.
  - intros c s Hs. by rewrite Ha, lookup_fmap, Hs.
Qed.

Lemma QueueMessageForOfflineClients_exact_witness :
  ∃ sm', QueueMessageForOfflineClients (H0 := idCodec) ∅ (example_manager "c" false false)
           "a/b" [] 1 false BasicTopicMatcher_Matches 7 = Returns sm' ∧
    (MessageQueue <$> activeSessions sm' !! "c") =
      Some [queued_as DefaultConfig "a/b" [] 1 false 7].
Proof.
  destruct (QueueMessageForOfflineClients_exact (H0 := idCodec) (example_manager "c" false false)
    "a/b" [] 1 false BasicTopicMatcher_Matches 7) as (sm' & Hr & _ & Hs).
  - split; [reflexivity|]. intros c s Hs. simpl in Hs.
    apply lookup_singleton_Some in Hs as [<- <-]. vm_compute. discriminate.
  - exists sm'. split; [exact Hr|]. rewrite (Hs "c" (example_session "c" false false)) by reflexivity.
    vm_compute. reflexivity.
Defined.

(** ** Delivery *)

Section Delivery.
Context {S Data : Type} `{KVStore S Data, SessionCodec Data}.
Context {W E : Type}.

(** The messages the loop hands to the callback. *)
Fixpoint unexpired (clock : nat → Time) (i : nat) (msgs : list QueuedMessage) : list QueuedMessage :=
  match msgs with
  | [] => []
  | m :: ms => if message_expired (clock i) m then unexpired clock (1 + i) ms
               else m :: unexpired clock (1 + i) ms
  end.

(** Calling a callback on a list of messages until it fails. *)
Fixpoint call_all (callback : MessageDeliveryCallback W E) (c : string)
    (msgs : list QueuedMessage) (w : W) : option E * W :=
  match msgs with
  | [] => (None, w)
  | m :: ms =>
      match callback c (Q_Topic m) (Q_Payload m) (Q_QoS m) (Q_Retain m) w with
      | (Some e, w') => (Some e, w')
      | (None, w') => call_all callback c ms w'
      end
  end.

Lemma deliverLoop_call_all callback c clock i msgs w :
  deliverLoop callback c clock i msgs w = call_all callback c (unexpired clock i msgs) w.
Proof.
  revert i w. induction msgs as [|m ms IH]; intros i w; simpl; [done|].
  destruct (message_expired (clock i) m); simpl; [apply IH|].
  destruct (callback _ _ _ _ _ _) as [[e|] w']; [done|apply IH].
Qed.
End Delivery.

(** Delivering the offline queue to a connected client with a callback calls the callback
    for the unexpired messages, oldest first, until one call fails.  When all succeed the
    queue is emptied and the session saved if persistent; when one fails the error is
    returned and the whole queue is kept, so that the messages already handed over are
    delivered again by the next attempt. *)
Theorem DeliverOfflineMessages_spec {S Data} `{KVStore S Data, SessionCodec Data} {W E}
    (omm : OfflineMessageManager W E) (sm : SessionManager S) c clock w s cb :
  deliveryCallbacks omm !! c = Some cb → activeSessions sm !! c = Some s → Connected s = true →
  let '(err, sm', w') := DeliverOfflineMessages omm sm c clock w in
  let '(cbErr, w1) := call_all cb c (unexpired clock 0 (MessageQueue s)) w in
  w' = w1 ∧ err = CallbackFailed <$> cbErr ∧
  activeSessions sm' = match cbErr with
                       | None => <[c := with_queue [] s]> (activeSessions sm)
                       | Some _ => activeSessions sm
                       end.
Proof.
  intros Hcb Hs Hcon. unfold DeliverOfflineMessages. rewrite Hcb, Hs, Hcon. simpl.
  rewrite deliverLoop_call_all. destruct (call_all _ _ _ _) as [[e|] w1]; [done|].
  split_and!; [done..|]. case_match; [done|]. by rewrite active_save_logged.
Qed.

(** A callback that records what it is given, and fails on an empty topic. *)
Definition recording : MessageDeliveryCallback (list (string * string)) unit :=
  λ c t _ _ _ w, if bool_decide (t = "") then (Some tt, w) else (None, w ++ [(c, t)]).

Definition queued (topic : string) (expiry : option Time) : QueuedMessage :=
  mkQueuedMessage topic [] 1 false 0 expiry ∅.

Lemma DeliverOfflineMessages_spec_witness :
  let sm := put_session "c" (with_queue [queued "x" None; queued "y" (Some 3); queued "z" (Some 9)]
              (example_session "c" false true)) (example_manager "c" false true) in
  let omm := SetDeliveryCallback NewOfflineMessageManager "c" recording in
  let '(err, sm', w') := DeliverOfflineMessages (H0 := idCodec) omm sm "c" (λ _, 5) [] in
  w' = [("c", "x"); ("c", "z")] ∧ err = None ∧
  (MessageQueue <$> activeSessions sm' !! "c") = Some [].
Proof.
  intros sm omm.
  pose proof (DeliverOfflineMessages_spec (H0 := idCodec) omm sm "c" (λ _, 5) []
    (with_queue [queued "x" None; queued "y" (Some 3); queued "z" (Some 9)]
       (example_session "c" false true)) recording eq_refl eq_refl eq_refl) as Hd.
  destruct (DeliverOfflineMessages _ _ _ _ _) as [[err sm'] w'].
  destruct Hd as (-> & -> & Ha). split_and!; [reflexivity..|].
  rewrite Ha. vm_compute. reflexivity.
Defined.
