(* ===== verification/Messages.v ===== *)
(** * Messages: the message store (pkg/storage/messages)

    [MessageStorage] shards messages over daily streams and keeps retained messages by
    topic; [MemoryBackend] is its only implemented backend.  The retained half is what
    the broker uses (through the retainer). *)

From S2P Require Import Prelude GoLib TopicMatch.
Local Open Scope emqx_scope.
Local Open Scope Z_scope.

(** ** Data (storage.go) *)

Record Message := mkMessage {
  Msg_ID : string;
  Msg_Topic : string;
  Msg_Payload : list byte;
  Msg_QoS : Z;
  Msg_Retained : bool;
  Msg_Timestamp : Time;
  Msg_Headers : gmap string string;
  Msg_ExpiryTime : option Time;
  Msg_ClientID : string;
  Msg_StreamID : string;
  Msg_SequenceNo : Z;
}.

Record StreamInfo := mkStreamInfo {
  SI_ID : string;
  SI_Topic : string;
  SI_StartTime : Time;
  SI_EndTime : Time;
  SI_MessageCount : Z;
  SI_SizeBytes : Z;
}.

Record SubscriptionOptions := mkSubscriptionOptions {
  SO_StartTime : option Time;
  SO_EndTime : option Time;
  SO_BatchSize : Z;
  SO_MaxMessages : Z;
}.

Record StorageStats := mkStorageStats {
  TotalMessages : Z;
  TotalStreams : Z;
  RetainedMessages : Z;
  StorageSize : Z;
  active_subscriptions : Z;
}.

Record StorageConfig := mkStorageConfig {
  Backend : string;
  Shards : Z;
  RetentionDays : Z;
  MaxMessages : Z;
}.

Definition DefaultConfig : StorageConfig := mkStorageConfig "memory" 4 7 1000000.

(** The zero [time.Time], 1 January of year 1. *)
Definition zeroTime : Time := -62135596800 * Second.
Definition IsZero (t : Time) : bool := t =? zeroTime.

(** ** The memory backend (memory_backend.go) *)

(** [msgChan] has a buffer of 10 batches. *)
Record memorySubscription := mkMemorySubscription {
  ms_id : string;
  ms_streamID : string;
  ms_opts : SubscriptionOptions;
  ms_msgChan : list (list Message);
  ms_closed : bool;
}.

Record memoryIterator := mkMemoryIterator {
  mi_messages : list Message;
  mi_position : Z;
  mi_closed : bool;
}.

Record MemoryBackend := mkMemoryBackend {
  streams : gmap string (list Message);
  streamMeta : gmap string StreamInfo;
  retained : gmap string Message;
  subscriptions : gmap string memorySubscription;
  subCounter : Z;
  mb_config : StorageConfig;
}.

Definition NewMemoryBackend (config : StorageConfig) : MemoryBackend :=
  mkMemoryBackend ∅ ∅ ∅ ∅ 0 config.

Definition set_streams st me mb :=
  mkMemoryBackend st me (retained mb) (subscriptions mb) (subCounter mb) (mb_config mb).
Definition set_retained r mb :=
  mkMemoryBackend (streams mb) (streamMeta mb) r (subscriptions mb) (subCounter mb) (mb_config mb).
Definition set_subscriptions s c mb :=
  mkMemoryBackend (streams mb) (streamMeta mb) (retained mb) s c (mb_config mb).

(** One message of the loop of [AppendMessages], at index [i] of the batch. *)
Definition appendOne (streamID : string) (now : Time) (i : Z) (msg : Message)
    (stream : list Message) (meta : StreamInfo) : list Message * StreamInfo :=
  let ts := if IsZero (Msg_Timestamp msg) then now else Msg_Timestamp msg in
  let msg := mkMessage (Msg_ID msg) (Msg_Topic msg) (Msg_Payload msg) (Msg_QoS msg)
               (Msg_Retained msg) ts (Msg_Headers msg) (Msg_ExpiryTime msg) (Msg_ClientID msg)
               streamID (u64 (blen stream + i + 1)) in
  let meta := mkStreamInfo (SI_ID meta)
                (if SI_Topic meta =s "" then Msg_Topic msg else SI_Topic meta)
                (SI_StartTime meta) ts
                (u64 (SI_MessageCount meta + 1))
                (u64 (SI_SizeBytes meta + blen (Msg_Payload msg))) in
  (stream ++ [msg], meta).

Fixpoint appendLoop (streamID : string) (now : Time) (i : Z) (messages stream : list Message)
    (meta : StreamInfo) : list Message * StreamInfo :=
  match messages with
  | [] => (stream, meta)
  | msg :: messages' =>
      let '(stream, meta) := appendOne streamID now i msg stream meta in
      appendLoop streamID now (i + 1) messages' stream meta
  end.

(** The subscribers receive the batch as it was passed in. *)
Definition notifySubscriptions (mb : MemoryBackend) (streamID : string) (messages : list Message)
    : MemoryBackend :=
  set_subscriptions
    ((λ sub, if (ms_streamID sub =s streamID) && negb (ms_closed sub)
                && (blen (ms_msgChan sub) <? 10)
             then mkMemorySubscription (ms_id sub) (ms_streamID sub) (ms_opts sub)
                    (ms_msgChan sub ++ [messages]) (ms_closed sub)
             else sub) <$> subscriptions mb)
    (subCounter mb) mb.

(** [keepFrom]: the index of the first message after the cutoff, 0 when there is none. *)
Definition keepFromIndex (cutoff : Time) (messages : list Message) : nat :=
  default 0%nat
    (go_for (length messages) 0 (λ i,
       match messages !! i with
       | Some msg => if After (Msg_Timestamp msg) cutoff then Some i else None
       | None => None
       end)).

(** [AddDate(0, 0, -days)] in UTC; [meta] is dereferenced when something is dropped. *)
Definition applyRetention (mb : MemoryBackend) (streamID : string) (now : Time)
    : outcome MemoryBackend :=
  if RetentionDays (mb_config mb) <=? 0 then Returns mb
  else
    let cutoff := now - RetentionDays (mb_config mb) * (24 * Hour) in
    let messages := default [] (streams mb !! streamID) in
    let keepFrom := keepFromIndex cutoff messages in
    if (0 <? keepFrom)%nat then
      match streamMeta mb !! streamID with
      | None => Panics
      | Some meta =>
          Returns (set_streams (<[streamID := drop keepFrom messages]> (streams mb))
            (<[streamID := mkStreamInfo (SI_ID meta) (SI_Topic meta) (SI_StartTime meta)
                 (SI_EndTime meta) (u64 (blen messages - Z.of_nat keepFrom))
                 (SI_SizeBytes meta)]> (streamMeta mb)) mb)
      end
    else Returns mb.

Definition AppendMessages (mb : MemoryBackend) (streamID : string) (messages : list Message)
    (now : Time) : outcome MemoryBackend :=
  let mb :=
    match streams mb !! streamID with
    | Some _ => mb
    | None => set_streams (<[streamID := []]> (streams mb))
                (<[streamID := mkStreamInfo streamID "" now zeroTime 0 0]> (streamMeta mb)) mb
    end in
  let stream := default [] (streams mb !! streamID) in
  let! '(stream, metas) :=
    match messages, streamMeta mb !! streamID with
    | [], _ => Returns (stream, streamMeta mb)
    | _ :: _, None => Panics
    | _ :: _, Some meta =>
        let '(stream, meta) := appendLoop streamID now 0 messages stream meta in
        Returns (stream, <[streamID := meta]> (streamMeta mb))
    end in
  let mb := set_streams (<[streamID := stream]> (streams mb)) metas mb in
  applyRetention (notifySubscriptions mb streamID messages) streamID now.

(** [sort.Slice] by start time, as an insertion sort. *)
Fixpoint insertByStart (x : StreamInfo) (l : list StreamInfo) : list StreamInfo :=
  match l with
  | [] => [x]
  | y :: l' => if Before (SI_StartTime x) (SI_StartTime y) then x :: l else y :: insertByStart x l'
  end.
Definition sortByStart (l : list StreamInfo) : list StreamInfo :=
  foldl (λ acc x, insertByStart x acc) [] l.

Definition GetStreams (mb : MemoryBackend) (topicFilter : string) (startTime : Time)
    : list StreamInfo :=
  sortByStart
    (go_range (λ _ meta out,
       if topicMatches (SI_Topic meta) topicFilter && After (SI_EndTime meta) startTime
       then out ++ [meta] else out) (streamMeta mb) []).

Definition CreateIterator (mb : MemoryBackend) (streamID topicFilter : string) (startTime : Time)
    : memoryIterator :=
  match streams mb !! streamID with
  | None => mkMemoryIterator [] 0 false
  | Some messages =>
      mkMemoryIterator
        (filter (λ msg, topicMatches (Msg_Topic msg) topicFilter
                        && After (Msg_Timestamp msg) startTime = true) messages) 0 false
  end.

Definition MemoryBackend_Subscribe (mb : MemoryBackend) (streamID : string)
    (opts : SubscriptionOptions) : memorySubscription * MemoryBackend :=
  let counter := u64 (subCounter mb + 1) in
  let subID := ("sub-" +:+ pretty counter)%string in
  let sub := mkMemorySubscription subID streamID opts [] false in
  (sub, set_subscriptions (<[subID := sub]> (subscriptions mb)) counter mb).

Definition StoreRetained (mb : MemoryBackend) (topic : string) (message : Message) : MemoryBackend :=
  if blen (Msg_Payload message) =? 0 then set_retained (delete topic (retained mb)) mb
  else
    let message := mkMessage (Msg_ID message) (Msg_Topic message) (Msg_Payload message)
      (Msg_QoS message) true (Msg_Timestamp message) (Msg_Headers message)
      (Msg_ExpiryTime message) (Msg_ClientID message) (Msg_StreamID message)
      (Msg_SequenceNo message) in
    set_retained (<[topic := message]> (retained mb)) mb.

Definition GetRetained (mb : MemoryBackend) (topicFilter : string) : list Message :=
  go_range (λ topic msg out, if topicMatches topic topicFilter then out ++ [msg] else out)
    (retained mb) [].

Definition DeleteRetained (mb : MemoryBackend) (topic : string) : MemoryBackend :=
  set_retained (delete topic (retained mb)) mb.

Definition Stats (mb : MemoryBackend) : StorageStats :=
  let '(totalMessages, totalSize) :=
    go_range (λ _ meta '(m, s), (u64 (m + SI_MessageCount meta), u64 (s + SI_SizeBytes meta)))
      (streamMeta mb) (0, 0) in
  mkStorageStats totalMessages (Z.of_nat (size (streams mb))) (Z.of_nat (size (retained mb)))
    totalSize (Z.of_nat (size (subscriptions mb))).

Definition memorySubscription_Close (ms : memorySubscription) : memorySubscription :=
  if negb (ms_closed ms)
  then mkMemorySubscription (ms_id ms) (ms_streamID ms) (ms_opts ms) (ms_msgChan ms) true
  else ms.

Definition MemoryBackend_Close (mb : MemoryBackend) : MemoryBackend :=
  set_subscriptions (memorySubscription_Close <$> subscriptions mb) (subCounter mb) mb.

(** One tick of [cleanupRoutine]. *)
Definition cleanupTick (mb : MemoryBackend) (now : Time) : outcome MemoryBackend :=
  let mb := set_retained
    (go_range (range_step (λ _ msg,
       match Msg_ExpiryTime msg with
       | Some e => if Before e now then None else Some msg
       | None => Some msg
       end)) (retained mb) (retained mb)) mb in
  go_range (λ streamID (_ : list Message) o, let! mb := o in applyRetention mb streamID now)
    (streams mb) (Returns mb).

(** Iterators; [Next] with a negative limit slices out of range. *)
Definition memoryIterator_Next (mi : memoryIterator) (limit : Z)
    : outcome (option (list Message) * memoryIterator) :=
  if mi_closed mi then Returns (None, mi)
  else if blen (mi_messages mi) <=? mi_position mi then Returns (Some [], mi)
  else
    let end_ := mi_position mi + limit in
    let end_ := if blen (mi_messages mi) <? end_ then blen (mi_messages mi) else end_ in
    if (mi_position mi <? 0) || (end_ <? mi_position mi) then Panics
    else
      Returns (Some (take (Z.to_nat (end_ - mi_position mi))
                       (drop (Z.to_nat (mi_position mi)) (mi_messages mi))),
               mkMemoryIterator (mi_messages mi) end_ (mi_closed mi)).

Definition memoryIterator_HasMore (mi : memoryIterator) : bool :=
  negb (mi_closed mi) && (mi_position mi <? blen (mi_messages mi)).

Definition memoryIterator_Close (mi : memoryIterator) : memoryIterator :=
  mkMemoryIterator (mi_messages mi) (mi_position mi) true.

(** ** Message storage (storage.go) *)

Record MessageStorage := mkMessageStorage {
  backend : MemoryBackend;
  st_config : StorageConfig;
}.

Inductive StorageError :=
  | NotImplemented (backendName : string)
  | UnsupportedBackend (backendName : string).

Definition NewMessageStorage (config : option StorageConfig) : MessageStorage + StorageError :=
  let config := default DefaultConfig config in
  if Backend config =s "memory" then inl (mkMessageStorage (NewMemoryBackend config) config)
  else if Backend config =s "persistent" then inr (NotImplemented "persistent")
  else if Backend config =s "distributed" then inr (NotImplemented "distributed")
  else inr (UnsupportedBackend (Backend config)).

(** The rune hash, on 64-bit integers that wrap around. *)
Definition hash (s : string) : Z :=
  let h := foldl (λ h c, i64 (31 * h + c)) 0 (runes s) in
  if h <? 0 then i64 (- h) else h.

(** The remainder by zero shards panics. *)
Definition getStreamID (ms : MessageStorage) (topic : string) (timestamp : Time) : outcome string :=
  if Shards (st_config ms) =? 0 then Panics
  else
    let shard := Z.rem (hash topic) (Shards (st_config ms)) in
    Returns ("stream-" +:+ formatDate timestamp +:+ "-shard-" +:+ pretty shard)%string.

Definition randomInt (now : Time) : Z := Z.rem now 1000000.
Definition generateMessageID (now : Time) : string :=
  ("msg-" +:+ pretty now +:+ "-" +:+ pretty (randomInt now))%string.

(** A message with its identifier and time stamp filled in. *)
Definition completed (now : Time) (m : Message) : Message :=
  mkMessage (if Msg_ID m =s "" then generateMessageID now else Msg_ID m) (Msg_Topic m)
    (Msg_Payload m) (Msg_QoS m) (Msg_Retained m)
    (if IsZero (Msg_Timestamp m) then now else Msg_Timestamp m) (Msg_Headers m)
    (Msg_ExpiryTime m) (Msg_ClientID m) (Msg_StreamID m) (Msg_SequenceNo m).

Definition with_backend (ms : MessageStorage) (mb : MemoryBackend) : MessageStorage :=
  mkMessageStorage mb (st_config ms).

Definition StoreMessage (ms : MessageStorage) (message : Message) (now : Time)
    : outcome MessageStorage :=
  let message := completed now message in
  if Msg_Retained message then
    Returns (with_backend ms (StoreRetained (backend ms) (Msg_Topic message) message))
  else
    let! streamID := getStreamID ms (Msg_Topic message) (Msg_Timestamp message) in
    let! mb := AppendMessages (backend ms) streamID [message] now in
    Returns (with_backend ms mb).

(** The grouping loop of [StoreMessages]. *)
Definition groupStep (ms : MessageStorage) (now : Time)
    (acc : outcome (gmap string (list Message) * list Message)) (msg : Message)
    : outcome (gmap string (list Message) * list Message) :=
  let! '(streamMessages, retainedMessages) := acc in
  let msg := completed now msg in
  if Msg_Retained msg then Returns (streamMessages, retainedMessages ++ [msg])
  else
    let! streamID := getStreamID ms (Msg_Topic msg) (Msg_Timestamp msg) in
    Returns (<[streamID := default [] (streamMessages !! streamID) ++ [msg]]> streamMessages,
             retainedMessages).

Definition StoreMessages (ms : MessageStorage) (messages : list Message) (now : Time)
    : outcome MessageStorage :=
  let! '(streamMessages, retainedMessages) := foldl (groupStep ms now) (Returns (∅, [])) messages in
  let mb := foldl (λ mb msg, StoreRetained mb (Msg_Topic msg) msg) (backend ms) retainedMessages in
  let! mb := go_range (λ streamID msgs o, let! mb := o in AppendMessages mb streamID msgs now)
               streamMessages (Returns mb) in
  Returns (with_backend ms mb).

Definition MessageStorage_GetRetainedMessages (ms : MessageStorage) (topicFilter : string)
    : list Message := GetRetained (backend ms) topicFilter.

(** The inner loop of [GetMessages].  Each round reads at least one message, so the number
    of messages of the iterator is enough fuel. *)
Fixpoint readIterator (fuel : nat) (it : memoryIterator) (remaining : Z) (acc : list Message)
    : outcome (option (list Message * Z)) :=
  if memoryIterator_HasMore it && (0 <? remaining) then
    match fuel with
    | O => Blocks
    | Datatypes.S fuel' =>
        let batchSize := if 100 <? remaining then 100 else remaining in
        let! '(batch, it) := memoryIterator_Next it batchSize in
        match batch with
        | None => Returns None
        | Some messages =>
            readIterator fuel' it (remaining - blen messages) (acc ++ messages)
        end
    end
  else Returns (Some (acc, remaining)).

Fixpoint readStreams (mb : MemoryBackend) (topicFilter : string) (startTime : Time)
    (infos : list StreamInfo) (remaining : Z) (acc : list Message)
    : outcome (option (list Message)) :=
  match infos with
  | [] => Returns (Some acc)
  | stream :: infos' =>
      if remaining <=? 0 then Returns (Some acc)
      else
        let it := CreateIterator mb (SI_ID stream) topicFilter startTime in
        let! r := readIterator (length (mi_messages it)) it remaining acc in
        match r with
        | None => Returns None
        | Some (acc, remaining) => readStreams mb topicFilter startTime infos' remaining acc
        end
  end.

Definition GetMessages (ms : MessageStorage) (topicFilter : string) (startTime : Time) (limit : Z)
    : outcome (option (list Message)) :=
  readStreams (backend ms) topicFilter startTime (GetStreams (backend ms) topicFilter startTime)
    limit [].

Definition MessageStorage_Subscribe (ms : MessageStorage) (topicFilter : string)
    (opts : SubscriptionOptions) (now : Time) : outcome (memorySubscription * MessageStorage) :=
  let! streamID := getStreamID ms topicFilter now in
  let '(sub, mb) := MemoryBackend_Subscribe (backend ms) streamID opts in
  Returns (sub, with_backend ms mb).

Definition DeleteRetainedMessage (ms : MessageStorage) (topic : string) : MessageStorage :=
  with_backend ms (DeleteRetained (backend ms) topic).

Definition GetStats (ms : MessageStorage) : StorageStats := Stats (backend ms).

Definition MessageStorage_Close (ms : MessageStorage) : MessageStorage :=
  with_backend ms (MemoryBackend_Close (backend ms)).

(** ** Reading *)

(** What the iterator over a stream yields. *)
Definition selected (mb : MemoryBackend) (topicFilter : string) (startTime : Time) (id : string)
    : list Message :=
  mi_messages (CreateIterator mb id topicFilter startTime).

Lemma CreateIterator_selected mb id f t :
  CreateIterator mb id f t = mkMemoryIterator (selected mb f t id) 0 false.
Proof. unfold selected, CreateIterator. by destruct (streams mb !! id). Qed.

(** A batch of the iterator over [l] at position [pos]. *)
Lemma Next_batch l pos n :
  (pos < length l)%nat → (0 < n)%nat →
  memoryIterator_Next (mkMemoryIterator l (Z.of_nat pos) false) (Z.of_nat n) =
  Returns (Some (take n (drop pos l)),
           mkMemoryIterator l (Z.of_nat (pos + length (take n (drop pos l)))) false).
Proof.
  intros Hp Hn. unfold memoryIterator_Next, blen. simpl.
  rewrite (proj2 (Z.leb_gt _ _)) by lia. rewrite length_take, length_drop.
  assert (∀ e, (pos ≤ e)%nat → (e = pos + Nat.min n (length l - pos))%nat →
    (if (Z.of_nat pos <? 0) || (Z.of_nat e <? Z.of_nat pos) then Panics
     else Returns (Some (take (Z.to_nat (Z.of_nat e - Z.of_nat pos))
                     (drop (Z.to_nat (Z.of_nat pos)) l)), mkMemoryIterator l (Z.of_nat e) false)) =
    Returns (Some (take n (drop pos l)), mkMemoryIterator l
      (Z.of_nat (pos + Nat.min n (length l - pos))) false)) as He.
  { intros e Hle ->. rewrite (proj2 (Z.ltb_ge _ _)) by lia. rewrite (proj2 (Z.ltb_ge _ _)) by lia.
    simpl. rewrite Nat2Z.id.
    replace (Z.to_nat _) with (Nat.min n (length l - pos))%nat by lia.
    rewrite <-(length_drop l pos). by rewrite <-take_take, (take_ge (drop pos l) (length (drop pos l))) by lia. }
  destruct (Z.of_nat (length l) <? Z.of_nat pos + Z.of_nat n) eqn:E; bool_prop.
  - apply He; lia.
  - rewrite <-Nat2Z.inj_add. apply He; lia.
Qed.

Lemma readIterator_take fuel l pos rem acc :
  (pos ≤ length l)%nat → (length l - pos ≤ fuel)%nat →
  readIterator fuel (mkMemoryIterator l (Z.of_nat pos) false) (Z.of_nat rem) acc =
  Returns (Some (acc ++ take rem (drop pos l),
                 Z.of_nat (rem - length (take rem (drop pos l))))).
Proof.
  revert pos rem acc. induction fuel as [|fuel IH]; intros pos rem acc Hp Hf.
  { assert (pos = length l) as -> by lia. cbn [readIterator]. unfold memoryIterator_HasMore. simpl.
    unfold blen. rewrite Z.ltb_irrefl. simpl. rewrite drop_all, take_nil, app_nil_r.
    simpl. by rewrite Nat.sub_0_r. }
  cbn [readIterator]. unfold memoryIterator_HasMore. simpl. unfold blen at 1.
  destruct (Z.of_nat pos <? Z.of_nat (length l)) eqn:E1; bool_prop; simpl.
  2: { rewrite drop_ge by lia. rewrite take_nil, app_nil_r. simpl. by rewrite Nat.sub_0_r. }
  destruct (0 <? Z.of_nat rem) eqn:E2; bool_prop.
  2: { assert (rem = 0)%nat as -> by lia. simpl. by rewrite app_nil_r. }
  replace (if 100 <? Z.of_nat rem then 100 else Z.of_nat rem)
    with (Z.of_nat (Nat.min 100 rem)) by (case_match; bool_prop; lia).
  assert (0 < Nat.min 100 rem ≤ rem)%nat as Hk by lia.
  generalize dependent (Nat.min 100 rem). intros k Hk.
  rewrite Next_batch by lia. simpl. set (b := take k (drop pos l)).
  assert (length b = Nat.min k (length l - pos))%nat as Hb
    by (unfold b; by rewrite length_take, length_drop).
  unfold blen. rewrite <-Nat2Z.inj_sub by lia. rewrite IH by lia.
  assert (take (length b) (drop pos l) = b) as Htb.
  { unfold b at 2. rewrite Hb, <-(length_drop l pos), <-take_take.
    by rewrite (take_ge (drop pos l) (length (drop pos l))) by lia. }
  assert (take rem (drop pos l) = b ++ take (rem - length b) (drop (pos + length b) l)) as ->.
  { rewrite <-drop_drop, <-(take_drop (length b) (drop pos l)) at 1.
    by rewrite take_app, Htb, take_ge by lia. }
  rewrite <-app_assoc, length_app. do 3 f_equal. lia.
Qed.

Lemma readStreams_take mb f t infos rem acc :
  readStreams mb f t infos (Z.of_nat rem) acc =
  Returns (Some (acc ++ take rem (mjoin (selected mb f t ∘ SI_ID <$> infos)))).
Proof.
  revert rem acc. induction infos as [|i infos IH]; intros rem acc; simpl.
  { by rewrite take_nil, app_nil_r. }
  destruct (Z.of_nat rem <=? 0) eqn:E; bool_prop.
  { assert (rem = 0)%nat as -> by lia. by rewrite take_0, app_nil_r. }
  rewrite CreateIterator_selected. simpl.
  rewrite (readIterator_take _ (selected mb f t (SI_ID i)) 0) by lia. simpl. rewrite drop_0, IH.
  rewrite <-app_assoc, take_app, length_take.
  replace (rem - rem `min` length (selected mb f t (SI_ID i)))%nat
    with (rem - length (selected mb f t (SI_ID i)))%nat by lia. done.
Qed.

(** Reading from the store terminates and never fails: GetMessages returns the first
    [limit] of the messages that match the filter and are newer than the start time,
    stream after stream in order of stream start, although it reads them in batches of at
    most 100 through iterators (a non-positive limit gives none). *)
Theorem GetMessages_spec ms topicFilter startTime limit :
  GetMessages ms topicFilter startTime limit =
  Returns (Some (take (Z.to_nat limit)
    (mjoin (selected (backend ms) topicFilter startTime ∘ SI_ID <$>
              GetStreams (backend ms) topicFilter startTime)))).
Proof.
  unfold GetMessages. destruct (decide (0 ≤ limit)) as [H|H].
  - rewrite <-(Z2Nat.id limit H) at 1. apply readStreams_take.
  - replace (Z.to_nat limit) with 0%nat by lia. rewrite take_0.
    destruct (GetStreams _ _ _); simpl; [done|]. by rewrite (proj2 (Z.leb_le _ _)) by lia.
Qed.

(** ** Appending and retention *)

(** The streams and their metadata agree: same identifiers, and the message count of the
    metadata is the number of messages of the stream (at 64 bits). *)
Definition wf_backend (mb : MemoryBackend) : Prop :=
  ∀ id, match streams mb !! id, streamMeta mb !! id with
        | Some l, Some meta => SI_ID meta = id ∧ SI_MessageCount meta = u64 (blen l)
        | None, None => True
        | _, _ => False
        end.

Lemma wf_NewMemoryBackend cfg : wf_backend (NewMemoryBackend cfg).
Proof. intros id. simpl. by rewrite !lookup_empty. Qed.

(** Writing a stream together with its metadata. *)
Lemma wf_set_streams mb st me id l meta :
  (∀ id', id' ≠ id → match st !! id', me !! id' with
        | Some l, Some meta => SI_ID meta = id' ∧ SI_MessageCount meta = u64 (blen l)
        | None, None => True
        | _, _ => False
        end) →
  SI_ID meta = id → SI_MessageCount meta = u64 (blen l) →
  wf_backend (set_streams (<[id := l]> st) (<[id := meta]> me) mb).
Proof.
  intros Hw Hid Hc id'. simpl. destruct (decide (id' = id)) as [->|Hne].
  - by rewrite !lookup_insert_eq.
  - rewrite !lookup_insert_ne by done. by apply Hw.
Qed.

Lemma u64_add_l a b : u64 (u64 a + b) = u64 (a + b).
Proof. unfold u64. by rewrite Zplus_mod_idemp_l. Qed.

(** Sequence number of the [k]-th appended message of a batch, from index [i] on. *)
Lemma appendLoop_spec id now i msgs stream meta :
  let '(stream', meta') := appendLoop id now i msgs stream meta in
  SI_ID meta' = SI_ID meta ∧
  (SI_MessageCount meta = u64 (blen stream) → SI_MessageCount meta' = u64 (blen stream')) ∧
  ∃ new, stream' = stream ++ new ∧ length new = length msgs ∧
    Msg_Payload <$> new = Msg_Payload <$> msgs ∧ Msg_Topic <$> new = Msg_Topic <$> msgs ∧
    Msg_SequenceNo <$> new =
      (λ k : nat, u64 (blen stream + i + 2 * Z.of_nat k + 1)) <$> seq 0 (length msgs).
Proof.
  revert i stream meta. induction msgs as [|m msgs IH]; intros i stream meta; simpl.
  { split_and!; [done..|]. exists []. by rewrite app_nil_r. }
  set (m' := mkMessage _ _ _ _ _ _ _ _ _ _ _). set (meta1 := mkStreamInfo _ _ _ _ _ _).
  specialize (IH (i + 1) (stream ++ [m']) meta1).
  destruct (appendLoop _ _ _ _ _ _) as [stream' meta'].
  destruct IH as (Hid & Hc & new & -> & Hlen & Hp & Ht & Hs). split_and!.
  - by rewrite Hid.
  - intros Hm. apply Hc. unfold meta1; simpl. rewrite Hm, u64_add_l. f_equal.
    unfold blen. rewrite length_app. simpl. lia.
  - exists (m' :: new). rewrite <-app_assoc. split; [done|].
    rewrite !fmap_cons, Hp, Ht, Hs. split_and!; [simpl; congruence|done..|].
    unfold m' at 1. simpl. f_equal; [f_equal; lia|].
    rewrite <-fmap_S_seq, <-list_fmap_compose. apply list_fmap_ext. intros k x _. simpl.
    f_equal. unfold blen. rewrite length_app. simpl. lia.
Qed.

Lemma wf_notify mb id msgs : wf_backend mb → wf_backend (notifySubscriptions mb id msgs).
Proof. done. Qed.

(** The retention index: the first message newer than the cutoff, or 0 when all are old. *)
Lemma keepFromIndex_spec cutoff l :
  let k := keepFromIndex cutoff l in
  let old := λ m, After (Msg_Timestamp m) cutoff = false in
  (k = 0%nat ∧ Forall old l) ∨
  (∃ m, l !! k = Some m ∧ After (Msg_Timestamp m) cutoff = true ∧ Forall old (take k l)).
Proof.
  simpl. unfold keepFromIndex. destruct (go_for _ _ _) as [j|] eqn:E; simpl.
  - apply go_for_Some in E as (j' & Hj & Hb & Hn). right.
    destruct (l !! j') as [m|] eqn:El; [|done]. case_match; simplify_eq. exists m.
    split_and!; [done..|]. apply Forall_lookup. intros i x Hx.
    apply lookup_take_Some in Hx as [Hx Hi]. specialize (Hn i). rewrite Hx in Hn.
    destruct (After (Msg_Timestamp x) cutoff); [|done]. by discriminate Hn; lia.
  - left. split; [done|]. apply Forall_lookup. intros i x Hx.
    rewrite go_for_None in E. specialize (E i). rewrite Hx in E.
    apply lookup_lt_Some in Hx.
    destruct (After (Msg_Timestamp x) cutoff); [|done]. by discriminate E; lia.
Qed.

Lemma keepFromIndex_le cutoff l : (keepFromIndex cutoff l ≤ length l)%nat.
Proof.
  destruct (keepFromIndex_spec cutoff l) as [[-> _]|(m & Hm & _)]; [lia|].
  apply lookup_lt_Some in Hm. lia.
Qed.

Lemma applyRetention_wf mb id now :
  wf_backend mb → ∃ mb', applyRetention mb id now = Returns mb' ∧ wf_backend mb'.
Proof.
  intros Hw. unfold applyRetention. case_match; [by exists mb|].
  destruct (0 <? _)%nat eqn:Ek; [|by exists mb]. pose proof (Hw id) as Hid.
  destruct (streams mb !! id) as [l|] eqn:Es; [|by vm_compute in Ek].
  destruct (streamMeta mb !! id) as [meta|] eqn:Em; [|done]. simpl in *.
  eexists. split; [done|]. destruct Hid as [Hid Hc]. apply wf_set_streams; simpl.
  - intros id' _. apply Hw.
  - done.
  - unfold blen. rewrite length_drop. f_equal. pose proof (keepFromIndex_le
      (now - RetentionDays (mb_config mb) * (24 * Hour)) l). lia.
Qed.

Lemma AppendMessages_wf mb id msgs now :
  wf_backend mb → ∃ mb', AppendMessages mb id msgs now = Returns mb' ∧ wf_backend mb'.
Proof.
  intros Hw. unfold AppendMessages.
  set (mb0 := match streams mb !! id with Some _ => mb | None => _ end).
  assert (wf_backend mb0 ∧ ∃ l meta, streams mb0 !! id = Some l ∧ streamMeta mb0 !! id = Some meta)
    as (Hw0 & l & meta & Hl & Hm).
  { unfold mb0. pose proof (Hw id) as Hid. destruct (streams mb !! id) as [l|] eqn:El.
    - destruct (streamMeta mb !! id) as [meta|] eqn:Em; [|done]. by eauto 10.
    - split; [|by do 2 eexists; split; apply lookup_insert_eq].
      apply wf_set_streams; [|done..]. intros id' _. apply Hw. }
  clearbody mb0. rewrite Hl, Hm. simpl. pose proof (Hw0 id) as Hid. rewrite Hl, Hm in Hid.
  destruct Hid as [Hid Hc]. destruct msgs as [|m msgs].
  - simpl. apply applyRetention_wf, wf_notify. intros id'. simpl.
    destruct (decide (id' = id)) as [->|Hne].
    + by rewrite lookup_insert_eq, Hm.
    + rewrite lookup_insert_ne by done. apply Hw0.
  - pose proof (appendLoop_spec id now 0 (m :: msgs) l meta) as Ha.
    destruct (appendLoop _ _ _ _ _ _) as [stream' meta']. destruct Ha as (Hi & Hcc & _).
    simpl. apply applyRetention_wf, wf_notify, wf_set_streams; [|congruence|by apply Hcc].
    intros id' _. apply Hw0.
Qed.

Lemma cleanupTick_wf mb now : wf_backend mb → ∃ mb', cleanupTick mb now = Returns mb' ∧ wf_backend mb'.
Proof.
  intros Hw. unfold cleanupTick, go_range at 1. simpl.
  set (mb0 := set_retained _ mb). assert (wf_backend mb0) as Hw0 by done. clearbody mb0. clear Hw.
  revert mb0 Hw0. induction (map_to_list (streams mb)) as [|[id l] ls IH]; intros mb0 Hw0; simpl.
  { eauto. }
  destruct (applyRetention_wf mb0 id now Hw0) as (mb1 & -> & Hw1). by apply IH.
Qed.

(** The mutating operations of the backend. *)
Inductive backend_op :=
  | OpAppend (id : string) (msgs : list Message)
  | OpTick
  | OpStoreRetained (topic : string) (m : Message)
  | OpDeleteRetained (topic : string)
  | OpSubscribe (id : string) (opts : SubscriptionOptions)
  | OpClose.

Definition backend_step (mb : MemoryBackend) (now : Time) (op : backend_op) : outcome MemoryBackend :=
  match op with
  | OpAppend id msgs => AppendMessages mb id msgs now
  | OpTick => cleanupTick mb now
  | OpStoreRetained t m => Returns (StoreRetained mb t m)
  | OpDeleteRetained t => Returns (DeleteRetained mb t)
  | OpSubscribe id opts => Returns (MemoryBackend_Subscribe mb id opts).2
  | OpClose => Returns (MemoryBackend_Close mb)
  end.

Definition backend_run (mb : MemoryBackend) (ops : list (Time * backend_op)) : outcome MemoryBackend :=
  foldl (λ o '(now, op), let! mb := o in backend_step mb now op) (Returns mb) ops.

Lemma backend_step_wf mb now op :
  wf_backend mb → ∃ mb', backend_step mb now op = Returns mb' ∧ wf_backend mb'.
Proof.
  intros Hw. destruct op; simpl; [by apply AppendMessages_wf|by apply cleanupTick_wf|eauto..].
  unfold StoreRetained. eexists. split; [done|]. by case_match.
Qed.

(** Stream storage is consistent: from an empty backend, any sequence of appends,
    retention ticks, retained-message operations, subscriptions and closing runs without a
    nil dereference, and afterwards every stream has its metadata, filed under its own
    identifier, with the exact number of stored messages. *)
Theorem backend_invariant cfg ops :
  ∃ mb, backend_run (NewMemoryBackend cfg) ops = Returns mb ∧ wf_backend mb.
Proof.
  unfold backend_run. generalize (wf_NewMemoryBackend cfg). generalize (NewMemoryBackend cfg).
  induction ops as [|[now op] ops IH]; intros mb Hw; simpl; [eauto|].
  destruct (backend_step_wf mb now op Hw) as (mb' & -> & Hw'). by apply IH.
Qed.

(** What an append stores, with retention off: the stream is extended by the batch in
    order, with the payloads and topics unchanged and nothing dropped; the [k]-th message
    of a batch appended to a stream of [n] messages gets the sequence number n + 2k + 1,
    so that single-message batches are numbered consecutively while larger ones skip
    every other number (and the next append then reuses numbers). *)
Theorem AppendMessages_stores mb id msgs now stream :
  wf_backend mb → RetentionDays (mb_config mb) ≤ 0 → streams mb !! id = Some stream →
  ∃ mb' new, AppendMessages mb id msgs now = Returns mb' ∧
    streams mb' = <[id := stream ++ new]> (streams mb) ∧
    Msg_Payload <$> new = Msg_Payload <$> msgs ∧ Msg_Topic <$> new = Msg_Topic <$> msgs ∧
    Msg_SequenceNo <$> new =
      (λ k : nat, u64 (blen stream + 2 * Z.of_nat k + 1)) <$> seq 0 (length msgs).
Proof.
  intros Hw Hr Hs. unfold AppendMessages. pose proof (Hw id) as Hid. rewrite Hs in *. simpl. rewrite Hs. simpl.
  destruct (streamMeta mb !! id) as [meta|]; [|done].
  destruct msgs as [|m msgs].
  - simpl. unfold applyRetention. simpl. rewrite (proj2 (Z.leb_le _ _)) by done.
    eexists _, []. split; [done|]. rewrite app_nil_r. by split_and!.
  - pose proof (appendLoop_spec id now 0 (m :: msgs) stream meta) as Ha.
    destruct (appendLoop _ _ _ _ _ _) as [stream' meta'].
    destruct Ha as (_ & _ & new & -> & _ & Hp & Ht & Hq). simpl. unfold applyRetention. simpl.
    rewrite (proj2 (Z.leb_le _ _)) by done. eexists _, new. split; [done|].
    split_and!; [done..|]. rewrite Z.add_0_r in Hq. exact Hq.
Qed.

Definition plain (topic : string) : Message :=
  mkMessage "" topic [] 0 false 5 ∅ None "" "" 0.
Definition example_backend : MemoryBackend :=
  set_streams {["s" := []]} {["s" := mkStreamInfo "s" "" 0 0 0 0]}
    (NewMemoryBackend (mkStorageConfig "memory" 4 0 10)).

Lemma AppendMessages_stores_witness :
  ∃ mb' new, AppendMessages example_backend "s" [plain "a"; plain "b"] 9 = Returns mb' ∧
    streams mb' = <["s" := new]> (streams example_backend) ∧
    Msg_SequenceNo <$> new = [1; 3].
Proof.
  destruct (AppendMessages_stores example_backend "s" [plain "a"; plain "b"] 9 [])
    as (mb' & new & Hr & Hs & _ & _ & Hq).
  - intros id. simpl. destruct (decide (id = "s")) as [->|Hne].
    + rewrite !lookup_singleton_eq. split; reflexivity.
    + rewrite !lookup_singleton_ne by congruence. exact I.
  - simpl. lia.
  - reflexivity.
  - exists mb', new. split; [exact Hr|]. split; [exact Hs|]. rewrite Hq. reflexivity.
Defined.

(** The retention step drops, from the front of the stream, exactly the messages before
    the first one newer than the cutoff; but when every message is older than the cutoff
    it drops none of them. *)
Theorem applyRetention_spec mb id now stream :
  wf_backend mb → 0 < RetentionDays (mb_config mb) → streams mb !! id = Some stream →
  let cutoff := now - RetentionDays (mb_config mb) * (24 * Hour) in
  let fresh m := After (Msg_Timestamp m) cutoff in
  ∃ mb' kept, applyRetention mb id now = Returns mb' ∧
    streams mb' = <[id := kept]> (streams mb) ∧
    ((Forall (λ m, fresh m = false) stream ∧ kept = stream) ∨
     (∃ dropped m rest, stream = dropped ++ m :: rest ∧ kept = m :: rest ∧
        Forall (λ m, fresh m = false) dropped ∧ fresh m = true)).
Proof.
  intros Hw Hr Hs cutoff fresh. pose proof (Hw id) as Hid. rewrite Hs in Hid.
  unfold applyRetention. rewrite (proj2 (Z.leb_gt _ _)) by done. rewrite Hs. simpl.
  fold cutoff. destruct (streamMeta mb !! id) as [meta|]; [|done].
  assert (streams mb = <[id := stream]> (streams mb)) as Hself by by rewrite insert_id.
  destruct (keepFromIndex_spec cutoff stream) as [[Hk Hold]|(m & Hm & Hfresh & Hold)].
  - rewrite Hk. simpl. exists mb, stream. split_and!; [done|done|by left].
  - set (k := keepFromIndex cutoff stream) in *.
    assert (drop k stream = m :: drop (S k) stream) as Hd by by apply drop_S.
    assert (stream = take k stream ++ m :: drop (S k) stream) as Hsplit
      by (by rewrite <-Hd, take_drop).
    destruct (0 <? k)%nat eqn:E; bool_prop.
    + eexists _, _. split; [done|]. split; [done|]. right. rewrite Hd. eauto 10.
    + assert (k = 0%nat) as Hk by lia. exists mb, stream. split; [done|]. split; [done|].
      right. rewrite Hk in *. rewrite drop_0 in Hd. exists [], m, (drop 1 stream). eauto.
Qed.

Lemma applyRetention_spec_witness :
  ∃ mb' kept,
    applyRetention (set_streams {["s" := [plain "a"; plain "b"]]} {["s" := mkStreamInfo "s" "" 0 0 2 0]}
      (NewMemoryBackend DefaultConfig)) "s" (30 * 24 * Hour) = Returns mb' ∧
    streams mb' = <["s" := kept]> {["s" := [plain "a"; plain "b"]]}.
Proof.
  destruct (applyRetention_spec (set_streams {["s" := [plain "a"; plain "b"]]}
    {["s" := mkStreamInfo "s" "" 0 0 2 0]} (NewMemoryBackend DefaultConfig)) "s" (30 * 24 * Hour)
    [plain "a"; plain "b"]) as (mb' & kept & Hr & Hs & _).
  - intros id. simpl. destruct (decide (id = "s")) as [->|Hne].
    + rewrite !lookup_singleton_eq. split; reflexivity.
    + rewrite !lookup_singleton_ne by congruence. exact I.
  - simpl. lia.
  - reflexivity.
  - exists mb', kept. split; [exact Hr|exact Hs].
Defined.
