(* ===== verification/Retainer.v ===== *)
(** * Retainer: retained messages (pkg/retainer/retainer.go)

    The retainer enforces size and count limits in front of the retained half of the
    message store, stamps expiry times, and hides and removes expired messages. *)

From S2P Require Import Prelude GoLib TopicMatch Messages.
Local Open Scope emqx_scope.
Local Open Scope Z_scope.

Record RetainedMessage := mkRetainedMessage {
  RM_Topic : string;
  RM_Payload : list byte;
  RM_QoS : Z;
  RM_Timestamp : Time;
  RM_ExpiryTime : option Time;
  RM_ClientID : string;
  RM_Headers : gmap string string;
}.

Record RetainerConfig := mkRetainerConfig {
  MessageExpiryInterval : Duration;
  MaxPayloadSize : Z;
  StopPublishClearMsg : bool;
  MaxRetainedMessages : Z;
  CleanupInterval : Duration;
}.

Definition DefaultConfig : RetainerConfig :=
  mkRetainerConfig 0 (1024 * 1024) false 10000 (5 * Minute).

Record Retainer := mkRetainer {
  storage : MemoryBackend;
  r_config : RetainerConfig;
}.

(** [New]; the clean-up goroutine's work is [cleanupExpiredMessages]. *)
Definition New (storage : MemoryBackend) (config : option RetainerConfig) : Retainer :=
  mkRetainer storage (default DefaultConfig config).

Inductive RetainerError :=
  | PayloadTooLarge (size max : Z)
  | TooManyRetained (max : Z).

Definition set_storage (st : MemoryBackend) (r : Retainer) : Retainer := mkRetainer st (r_config r).

Definition randomInt (now : Time) : Z := Z.rem now 1000000.
Definition generateMessageID (now : Time) : string :=
  ("retained-" +:+ pretty now +:+ "-" +:+ pretty (randomInt now))%string.

Definition StoreRetained (r : Retainer) (topic : string) (payload : list byte) (qos : Z)
    (clientID : string) (now : Time) : option RetainerError * Retainer :=
  let cfg := r_config r in
  if (0 <? MaxPayloadSize cfg) && (MaxPayloadSize cfg <? blen payload) then
    (Some (PayloadTooLarge (blen payload) (MaxPayloadSize cfg)), r)
  else if blen payload =? 0 then
    (None, set_storage (Messages.DeleteRetained (storage r) topic) r)
  else if (0 <? MaxRetainedMessages cfg)
          && (MaxRetainedMessages cfg <=? RetainedMessages (Stats (storage r))) then
    (Some (TooManyRetained (MaxRetainedMessages cfg)), r)
  else
    let expiry := if 0 <? MessageExpiryInterval cfg
                  then Some (now + MessageExpiryInterval cfg) else None in
    let msg := mkMessage (generateMessageID now) topic payload qos true now ∅ expiry clientID "" 0 in
    (None, set_storage (Messages.StoreRetained (storage r) topic msg) r).

Definition toRetained (msg : Message) : RetainedMessage :=
  mkRetainedMessage (Msg_Topic msg) (Msg_Payload msg) (Msg_QoS msg) (Msg_Timestamp msg)
    (Msg_ExpiryTime msg) (Msg_ClientID msg) (Msg_Headers msg).

Definition GetRetainedMessages (r : Retainer) (topicFilter : string) (now : Time)
    : list RetainedMessage :=
  toRetained <$> filter (λ msg, expired now (Msg_ExpiryTime msg) = false)
                   (GetRetained (storage r) topicFilter).

Definition DeleteRetained (r : Retainer) (topic : string) : Retainer :=
  set_storage (Messages.DeleteRetained (storage r) topic) r.

Record RetainerStats := mkRetainerStats {
  RS_RetainedMessages : Z;
  RS_TotalSize : Z;
  RS_MaxMessages : Z;
  RS_MaxPayloadSize : Z;
  RS_ExpiryInterval : Duration;
}.
Definition GetStats (r : Retainer) : RetainerStats :=
  let storageStats := Stats (storage r) in
  mkRetainerStats (RetainedMessages storageStats) (StorageSize storageStats)
    (MaxRetainedMessages (r_config r)) (MaxPayloadSize (r_config r))
    (MessageExpiryInterval (r_config r)).

Definition cleanupExpiredMessages (r : Retainer) (now : Time) : Retainer :=
  foldl (λ r msg, if expired now (Msg_ExpiryTime msg)
                  then set_storage (Messages.DeleteRetained (storage r) (Msg_Topic msg)) r else r)
    r (GetRetained (storage r) "#").

(** ** Operations and their invariant *)

Inductive retainer_op :=
  | RStore (topic : string) (payload : list byte) (qos : Z) (clientID : string)
  | RDelete (topic : string)
  | RCleanup.

Definition retainer_step (r : Retainer) (now : Time) (op : retainer_op) : Retainer :=
  match op with
  | RStore t p q c => (StoreRetained r t p q c now).2
  | RDelete t => DeleteRetained r t
  | RCleanup => cleanupExpiredMessages r now
  end.

Definition retainer_run (r : Retainer) (ops : list (Time * retainer_op)) : Retainer :=
  foldl (λ r '(now, op), retainer_step r now op) r ops.

(** The retained map of the store. *)
Definition table (r : Retainer) : gmap string Message := retained (storage r).

(** Each entry is filed under its own topic, has a payload within the limit, and the table
    is within its bound. *)
Definition wf_retainer (r : Retainer) : Prop :=
  (∀ t m, table r !! t = Some m →
     Msg_Topic m = t ∧ 0 < blen (Msg_Payload m) ∧
     (0 < MaxPayloadSize (r_config r) → blen (Msg_Payload m) ≤ MaxPayloadSize (r_config r))) ∧
  (0 < MaxRetainedMessages (r_config r) →
     Z.of_nat (size (table r)) ≤ MaxRetainedMessages (r_config r)).

Lemma RetainedMessages_Stats mb : RetainedMessages (Stats mb) = Z.of_nat (size (retained mb)).
Proof. unfold Stats. by destruct (go_range _ _ _). Qed.

Lemma size_delete_le (t : string) (m : gmap string Message) : (size (delete t m) ≤ size m)%nat.
Proof.
  destruct (m !! t) as [x|] eqn:E.
  - rewrite map_size_delete, E. lia.
  - by rewrite delete_id.
Qed.

Lemma wf_DeleteRetained r t : wf_retainer r → wf_retainer (DeleteRetained r t).
Proof.
  intros [He Hn]. split; unfold table in *; simpl.
  - intros t' m [_ Hm]%lookup_delete_Some. by apply He.
  - intros Hmax. specialize (Hn Hmax). pose proof (size_delete_le t (retained (storage r))). lia.
Qed.

Lemma config_delete r t : r_config (DeleteRetained r t) = r_config r.
Proof. done. Qed.

(** The clean-up is a sequence of deletions. *)
Lemma cleanup_fold_eq r now ms :
  foldl (λ r msg, if expired now (Msg_ExpiryTime msg)
                  then set_storage (Messages.DeleteRetained (storage r) (Msg_Topic msg)) r else r)
    r ms =
  foldl DeleteRetained r (Msg_Topic <$> filter (λ m, expired now (Msg_ExpiryTime m) = true) ms).
Proof.
  revert r. induction ms as [|m ms IH]; intros r; [done|]. simpl. rewrite IH, filter_cons.
  destruct (expired now (Msg_ExpiryTime m)); by case_decide.
Qed.

Lemma wf_deletes ts r : wf_retainer r → wf_retainer (foldl DeleteRetained r ts).
Proof. revert r. induction ts as [|t ts IH]; intros r Hw; [done|]. by apply IH, wf_DeleteRetained. Qed.

Lemma table_deletes ts r t :
  table (foldl DeleteRetained r ts) !! t = if bool_decide (t ∈ ts) then None else table r !! t.
Proof.
  revert r. induction ts as [|t' ts IH]; intros r; [done|]. simpl. rewrite IH.
  case_bool_decide as H1.
  - rewrite bool_decide_true; [done|]. by right.
  - unfold table. simpl. destruct (decide (t = t')) as [->|Hne].
    + rewrite lookup_delete_eq, bool_decide_true; [done|]. by left.
    + rewrite lookup_delete_ne by done. rewrite bool_decide_false; [done|]. set_solver.
Qed.

Lemma wf_StoreRetained r t p q c now : wf_retainer r → wf_retainer (StoreRetained r t p q c now).2.
Proof.
  intros Hw. unfold StoreRetained. case_match eqn:E1; [done|].
  case_match eqn:E2; [by apply wf_DeleteRetained|]. case_match eqn:E3; [done|]. simpl.
  unfold Messages.StoreRetained. simpl. rewrite E2. destruct Hw as [He Hn].
  split; unfold table in *; simpl.
  - intros t' m [[<- <-]|[Hne Hm]]%lookup_insert_Some; [|by apply He]. simpl. split; [done|].
    assert (0 ≤ blen p) by (unfold blen; lia). bool_prop. split; [lia|]. intros Hmax.
    rewrite (proj2 (Z.ltb_lt _ _)) in E1 by done. simpl in E1. bool_prop. lia.
  - intros Hmax. rewrite (proj2 (Z.ltb_lt _ _)) in E3 by done. simpl in E3.
    rewrite RetainedMessages_Stats in E3. bool_prop.
    rewrite map_size_insert. destruct (retained (storage r) !! t); simpl; lia.
Qed.

Lemma wf_cleanup r now : wf_retainer r → wf_retainer (cleanupExpiredMessages r now).
Proof. intros Hw. unfold cleanupExpiredMessages. rewrite cleanup_fold_eq. by apply wf_deletes. Qed.

Lemma wf_retainer_step r now op : wf_retainer r → wf_retainer (retainer_step r now op).
Proof. intros Hw. destruct op; [by apply wf_StoreRetained|by apply wf_DeleteRetained|by apply wf_cleanup]. Qed.

Lemma wf_NewRetainer scfg cfg : wf_retainer (New (NewMemoryBackend scfg) cfg).
Proof.
  split; unfold table; simpl; [intros t m Hm; by apply lookup_empty_Some in Hm|].
  rewrite map_size_empty. lia.
Qed.

(** The retained-message table respects its configuration: starting from an empty store,
    after any sequence of stores, deletions and clean-ups every retained message is filed
    under its own topic, has a non-empty payload within MaxPayloadSize, and there are at
    most MaxRetainedMessages of them (limits that are zero or negative are off). *)
Theorem retainer_invariant scfg cfg ops :
  wf_retainer (retainer_run (New (NewMemoryBackend scfg) cfg) ops).
Proof.
  pose proof (wf_NewRetainer scfg cfg) as Hw.
  unfold retainer_run. revert Hw. generalize (New (NewMemoryBackend scfg) cfg).
  induction ops as [|[now op] ops IH]; intros r Hw; [done|]. by apply IH, wf_retainer_step.
Qed.

(** ** Retrieval *)

Lemma elem_of_GetRetained mb f m :
  m ∈ GetRetained mb f ↔ ∃ t, retained mb !! t = Some m ∧ topicMatches t f = true.
Proof.
  unfold GetRetained. rewrite go_range_collect, app_nil_l, elem_of_range_collect. split.
  - intros (t & m' & Ht & Hm & ->%list_elem_of_singleton). eauto.
  - intros (t & Ht & Hm). exists t, m. rewrite list_elem_of_singleton. eauto.
Qed.

Lemma NoDup_range_topics (P : string → Message → bool) (l : list (string * Message)) :
  NoDup l.*1 → (∀ t m, (t, m) ∈ l → Msg_Topic m = t) →
  NoDup (Msg_Topic <$> flat_map (λ kv, if P kv.1 kv.2 then [kv.2] else []) l) ∧
  ∀ t, t ∈ Msg_Topic <$> flat_map (λ kv, if P kv.1 kv.2 then [kv.2] else []) l → t ∈ l.*1.
Proof.
  induction l as [|[t m] l IH]; intros Hnd Hl; simpl; [by split; [constructor|]|].
  apply NoDup_cons in Hnd as [Ht Hnd]. destruct IH as [IH1 IH2]; [done|set_solver|].
  simpl in Ht. assert (Msg_Topic m = t) as Hm by (apply Hl; by left).
  destruct (P t m); simpl; [|split; [done|intros t' Ht'; right; by apply IH2]].
  rewrite Hm. split.
  - constructor; [|done]. intros Hin. by apply Ht, IH2.
  - intros t' [->|Hin]%elem_of_cons; [by left|right; by apply IH2].
Qed.

Lemma NoDup_GetRetained r f : wf_retainer r → NoDup (Msg_Topic <$> GetRetained (storage r) f).
Proof.
  intros [He _]. unfold GetRetained. rewrite go_range_collect, app_nil_l.
  refine (proj1 (NoDup_range_topics (λ t _, topicMatches t f) _ _ _)).
  - apply NoDup_fst_map_to_list.
  - intros t m Hm%elem_of_map_to_list. by apply He.
Qed.

(** Retrieval of retained messages is exact: for a well-formed filter the result has one
    message for each topic that holds an unexpired retained message and matches the
    filter by the MQTT rule, namely that message, and nothing else, no topic twice. *)
Theorem GetRetainedMessages_exact r f now :
  wf_retainer r → hash_last (levels f) = true →
  (∀ x, x ∈ GetRetainedMessages r f now ↔
     ∃ t m, table r !! t = Some m ∧ mqtt_match (levels t) (levels f) ∧
            expired now (Msg_ExpiryTime m) = false ∧ x = toRetained m ∧ RM_Topic x = t) ∧
  NoDup (RM_Topic <$> GetRetainedMessages r f now).
Proof.
  intros Hw Hf. pose proof (NoDup_GetRetained r f Hw) as Hnd. destruct Hw as [He _].
  unfold GetRetainedMessages. split.
  - intros x. rewrite list_elem_of_fmap. setoid_rewrite list_elem_of_filter.
    setoid_rewrite elem_of_GetRetained. unfold table in *. split.
    + intros (m & -> & Hx & t & Ht & Hm). exists t, m.
      rewrite topicMatches_matchesTopicFilter in Hm by done.
      apply matchesTopicFilter_iff in Hm. destruct (He _ _ Ht) as [? _]. by split_and!.
    + intros (t & m & Ht & Hm & Hx & -> & _). exists m. split_and!; [done..|]. exists t.
      split; [done|]. rewrite topicMatches_matchesTopicFilter by done.
      by apply matchesTopicFilter_iff.
  - rewrite <-list_fmap_compose. change (RM_Topic ∘ toRetained) with Msg_Topic.
    clear He. induction (GetRetained (storage r) f) as [|m ms IH]; [constructor|].
    rewrite fmap_cons in Hnd. apply NoDup_cons in Hnd as [Hm Hnd]. rewrite filter_cons.
    case_decide; [|by apply IH]. rewrite fmap_cons. constructor; [|by apply IH].
    intros (m' & Heq & Hm')%list_elem_of_fmap. apply Hm, list_elem_of_fmap. exists m'.
    split; [done|]. by apply list_elem_of_filter in Hm' as [_ ?].
Qed.

Definition example_retainer : Retainer :=
  retainer_run (New (NewMemoryBackend Messages.DefaultConfig) None)
    [(1, RStore "a/b" [Byte.x01] 1 "c"); (2, RStore "a/c" [Byte.x02] 0 "c");
     (3, RStore "a/c" [] 0 "c")].

Lemma GetRetainedMessages_exact_witness :
  NoDup (RM_Topic <$> GetRetainedMessages example_retainer "a/+" 9) ∧
  (RM_Topic <$> GetRetainedMessages example_retainer "a/+" 9) = ["a/b"].
Proof.
  split.
  - apply (GetRetainedMessages_exact example_retainer "a/+" 9); [|reflexivity].
    do 3 apply wf_retainer_step. apply wf_NewRetainer.
  - vm_compute. reflexivity.
Defined.

(** The periodic clean-up removes exactly the expired retained messages. *)
Theorem cleanupExpiredMessages_exact r now :
  wf_retainer r →
  table (cleanupExpiredMessages r now) =
  filter (λ tm, expired now (Msg_ExpiryTime tm.2) = false) (table r).
Proof.
  intros [He _]. apply map_eq. intros t. unfold cleanupExpiredMessages.
  rewrite cleanup_fold_eq, table_deletes.
  assert (t ∈ Msg_Topic <$> filter (λ m, expired now (Msg_ExpiryTime m) = true)
            (GetRetained (storage r) "#") ↔
          ∃ m, table r !! t = Some m ∧ expired now (Msg_ExpiryTime m) = true) as Hin.
  { rewrite list_elem_of_fmap. setoid_rewrite list_elem_of_filter.
    setoid_rewrite elem_of_GetRetained. split.
    - intros (m & -> & Hx & t' & Ht & _). exists m. by destruct (He _ _ Ht) as [-> _].
    - intros (m & Ht & Hx). exists m. destruct (He _ _ Ht) as [<- _]. split_and!; [done..|].
      eexists. split; [done|]. unfold topicMatches. by case_match. }
  destruct (table r !! t) as [m|] eqn:E.
  - destruct (expired now (Msg_ExpiryTime m)) eqn:Ex.
    + rewrite bool_decide_true by (apply Hin; eauto).
      symmetry. apply map_lookup_filter_None. right. intros m' Hm'. simpl. congruence.
    + rewrite bool_decide_false by (rewrite Hin; intros (m' & [= <-] & ?); congruence).
      symmetry. by apply map_lookup_filter_Some.
  - rewrite bool_decide_false by (rewrite Hin; by intros (m' & ? & ?)).
    symmetry. apply map_lookup_filter_None. by left.
Qed.

Lemma cleanupExpiredMessages_exact_witness :
  table (cleanupExpiredMessages example_retainer 9) = table example_retainer.
Proof.
  rewrite (cleanupExpiredMessages_exact example_retainer 9).
  - vm_compute. reflexivity.
  - do 3 apply wf_retainer_step. apply wf_NewRetainer.
Defined.
