(* ===== verification/Session.v ===== *)
(** * Session: the session actor and its PUBLISH encoder (pkg/session/session.go)

    The actor takes messages from its mailbox and writes MQTT PUBLISH packets to the
    client's connection.  The encoder is written by hand in the source; a reference
    decoder, from the MQTT specification, says what a client reads. *)

From S2P Require Import Prelude GoLib Actor.
Local Open Scope emqx_scope.
Local Open Scope Z_scope.

(** ** Messages and state *)

Record Publish := mkPublish {
  P_Topic : string;
  P_Payload : list byte;
  P_QoS : Z;
  P_Retain : bool;
  P_UserProperties : gmap string (list byte);
  P_TopicAlias : Z;
  P_ResponseTopic : string;
  P_CorrelationData : list byte;
}.

(** What arrives in a session's mailbox. *)
Inductive SessionMsg := MPublish (p : Publish) | MStop | MUnknown.

Record Session := mkSession {
  ID : string;
  protocolVersion : Z;
  brokerToClientAliases : gmap Z string;
  nextBrokerAlias : Z;
  topicAliasMaximum : Z;
}.

Definition New (id : string) : Session := mkSession id 0 ∅ 1 65535.

Definition SetTopicAliasMaximum (s : Session) (maximum : Z) : Session :=
  mkSession (ID s) (protocolVersion s) (brokerToClientAliases s) (nextBrokerAlias s) maximum.
Definition SetProtocolVersion (s : Session) (version : Z) : Session :=
  mkSession (ID s) version (brokerToClientAliases s) (nextBrokerAlias s) (topicAliasMaximum s).
Definition GetProtocolVersion (s : Session) : Z :=
  if protocolVersion s =? 0 then 4 else protocolVersion s.
Definition GetTopicAliasMaximum (s : Session) : Z := topicAliasMaximum s.

(** The search loop returns the first alias of the topic it meets. *)
Definition assignTopicAlias (s : Session) (topic : string) : Z * bool * Session :=
  if topicAliasMaximum s <? nextBrokerAlias s then (0, false, s)
  else
    match filter (λ kv, kv.2 = topic) (map_to_list (brokerToClientAliases s)) with
    | (alias, _) :: _ => (alias, false, s)
    | [] =>
        let alias := nextBrokerAlias s in
        (alias, true,
         mkSession (ID s) (protocolVersion s) (<[alias := topic]> (brokerToClientAliases s))
           (u16 (alias + 1)) (topicAliasMaximum s))
    end.

(** ** The PUBLISH packet *)

(** The fields of [packets.Packet] the session sets. *)
Record Packet := mkPacket {
  Pk_Retain : bool;
  Pk_TopicName : string;
  Pk_Payload : list byte;
  Pk_PacketID : Z;
  Pk_ProtocolVersion : Z;
  Pk_TopicAliasFlag : bool;
  Pk_TopicAlias : Z;
  Pk_ResponseTopic : string;
  Pk_CorrelationData : list byte;
  Pk_User : list (string * string);
}.

(** Two writes of one byte: the high and the low byte of a length or identifier. *)
Definition put16 (n : Z) : list byte := [byte_of_Z (Z.shiftr n 8); byte_of_Z (Z.land n 255)].

(** The multi-byte loop of the variable byte integer. *)
Fixpoint varintLoop (fuel : nat) (n : Z) : list byte :=
  match fuel with
  | O => []
  | Datatypes.S fuel' =>
      if 0 <? n then
        let b := n mod 128 in
        let n := n / 128 in
        byte_of_Z (if 0 <? n then Z.lor b 128 else b) :: varintLoop fuel' n
      else []
  end.

(** An [int] has 63 bits: ten rounds are enough. *)
Definition writeVarint (n : Z) : list byte :=
  if n <? 128 then [byte_of_Z n] else varintLoop 10 n.

Definition encodeProperties (pk : Packet) : list byte :=
  (if Pk_TopicAliasFlag pk && (0 <? Pk_TopicAlias pk)
   then byte_of_Z 35 :: put16 (Pk_TopicAlias pk) else []) ++
  (if Pk_ResponseTopic pk <>s "" then
     let rtBytes := bytes_of_string (Pk_ResponseTopic pk) in
     byte_of_Z 8 :: put16 (blen rtBytes) ++ rtBytes else []) ++
  (if 0 <? blen (Pk_CorrelationData pk) then
     byte_of_Z 9 :: put16 (blen (Pk_CorrelationData pk)) ++ Pk_CorrelationData pk else []) ++
  flat_map (λ '(key, val),
     let keyBytes := bytes_of_string key in
     let valBytes := bytes_of_string val in
     byte_of_Z 38 :: put16 (blen keyBytes) ++ keyBytes ++ put16 (blen valBytes) ++ valBytes)
    (Pk_User pk).

Definition encodePublishPacket (pk : Packet) (qos : Z) : list byte :=
  let packetType := 3 in
  let flags := Z.land (u8 (Z.shiftl qos 1)) 6 in
  let flags := if Pk_Retain pk then Z.lor flags 1 else flags in
  let fixedHeaderByte := Z.lor (u8 (Z.shiftl packetType 4)) flags in
  let topicBytes := bytes_of_string (Pk_TopicName pk) in
  let vh := put16 (blen topicBytes) ++ topicBytes in
  let vh := if 0 <? qos then vh ++ put16 (Pk_PacketID pk) else vh in
  let vh :=
    if Pk_ProtocolVersion pk =? 5 then
      let propsBuf := encodeProperties pk in vh ++ writeVarint (blen propsBuf) ++ propsBuf
    else vh in
  let remainingLength := blen vh + blen (Pk_Payload pk) in
  [byte_of_Z fixedHeaderByte] ++ writeVarint remainingLength ++ vh ++ Pk_Payload pk.

(** The packet the actor builds for a message. *)
Definition buildPacket (s : Session) (m : Publish) : Packet :=
  let useTopicAlias := 0 <? P_TopicAlias m in
  mkPacket (P_Retain m) (P_Topic m) (P_Payload m)
    (if 0 <? P_QoS m then 1 else 0)
    (GetProtocolVersion s)
    useTopicAlias (if useTopicAlias then P_TopicAlias m else 0)
    (P_ResponseTopic m)
    (P_CorrelationData m)
    ((λ '(key, value), (key, string_of_bytes value)) <$> map_to_list (P_UserProperties m)).

(** ** The actor loop *)

(** How the actor's [Start] ends: the context error, a write error, a stop; or it is still
    waiting for a message. *)
Inductive SessionEnd := EndCtx | EndWriteErr | EndStop | EndWaiting.

(** [Start] on the results of its successive [Receive]s; [conn_ok] says whether a write of
    these bytes succeeds.  The result is what was written, the connection's closing by
    [Stop], and how the loop ended. *)
Fixpoint Start (s : Session) (conn_ok : list byte → bool) (inbox : list (Received SessionMsg))
    : list (list byte) * SessionEnd :=
  match inbox with
  | [] => ([], EndWaiting)
  | RecvCtxErr :: _ => ([], EndCtx)
  | RecvMsg (MPublish m) :: inbox' =>
      let buf := encodePublishPacket (buildPacket s m) (P_QoS m) in
      if conn_ok buf then
        let '(ws, e) := Start s conn_ok inbox' in (buf :: ws, e)
      else ([], EndWriteErr)
  | RecvMsg MStop :: _ => ([], EndStop)
  | RecvMsg MUnknown :: inbox' => Start s conn_ok inbox'
  end.

(** ** The reference decoder *)

(** MQTT variable byte integers have at most four bytes. *)
Fixpoint decode_varint (k : nat) (r : list byte) : option (Z * list byte) :=
  match k, r with
  | Datatypes.S k', b :: r' =>
      if Z_of_byte b <? 128 then Some (Z_of_byte b, r')
      else '(n, r'') ← decode_varint k' r'; Some (Z_of_byte b - 128 + 128 * n, r'')
  | _, _ => None
  end.

Definition decode16 (r : list byte) : option (Z * list byte) :=
  match r with hi :: lo :: r' => Some (be16 hi lo, r') | _ => None end.

Definition decode_bin (r : list byte) : option (list byte * list byte) :=
  '(n, r') ← decode16 r; ReadFull (Z.to_nat n) r'.

Inductive property :=
  | PropAlias (a : Z)
  | PropResponse (t : string)
  | PropCorrelation (d : list byte)
  | PropUser (k v : string).

Definition decode_property (r : list byte) : option (property * list byte) :=
  match r with
  | [] => None
  | tag :: r =>
      if Z_of_byte tag =? 35 then '(a, r) ← decode16 r; Some (PropAlias a, r)
      else if Z_of_byte tag =? 8 then '(t, r) ← decode_bin r; Some (PropResponse (string_of_bytes t), r)
      else if Z_of_byte tag =? 9 then '(d, r) ← decode_bin r; Some (PropCorrelation d, r)
      else if Z_of_byte tag =? 38 then
        '(k, r) ← decode_bin r; '(v, r) ← decode_bin r;
        Some (PropUser (string_of_bytes k) (string_of_bytes v), r)
      else None
  end.

Fixpoint decode_properties (fuel : nat) (r : list byte) : option (list property) :=
  match r, fuel with
  | [], _ => Some []
  | _, O => None
  | _, Datatypes.S fuel' =>
      '(p, r') ← decode_property r; ps ← decode_properties fuel' r'; Some (p :: ps)
  end.

Record decoded := mkDecoded {
  D_QoS : Z;
  D_Retain : bool;
  D_Topic : string;
  D_PacketID : option Z;
  D_Properties : list property;
  D_Payload : list byte;
}.

Definition decode_publish (version : Z) (r : list byte) : option (decoded * list byte) :=
  match r with
  | [] => None
  | h :: r =>
      if negb (Z.shiftr (Z_of_byte h) 4 =? 3) then None
      else
        let qos := Z.land (Z.shiftr (Z_of_byte h) 1) 3 in
        '(n, r) ← decode_varint 4 r;
        '(body, rest) ← ReadFull (Z.to_nat n) r;
        '(topic, body) ← decode_bin body;
        '(pid, body) ← (if 0 <? qos then '(i, b) ← decode16 body; Some (Some i, b)
                        else Some (None, body));
        '(props, payload) ← (if version =? 5 then
            '(pn, body) ← decode_varint 4 body;
            '(pbytes, payload) ← ReadFull (Z.to_nat pn) body;
            ps ← decode_properties (length pbytes) pbytes; Some (ps, payload)
          else Some ([], body));
        Some (mkDecoded qos (Z.testbit (Z_of_byte h) 0) (string_of_bytes topic) pid props payload, rest)
  end.

(** ** Round trips of the pieces *)

Arguments put16 : simpl never.
Arguments writeVarint : simpl never.
Arguments decode_varint : simpl never.
Arguments decode_bin : simpl never.
Arguments decode16 : simpl never.
Arguments Z.land : simpl never.
Arguments Z.shiftr : simpl never.
Arguments Z.testbit : simpl never.

Lemma decode16_put16 n r : is_u16 n → decode16 (put16 n ++ r) = Some (n, r).
Proof. intros Hn. unfold put16, decode16. simpl. by rewrite be16_split. Qed.

Lemma decode_bin_put bs r :
  blen bs ≤ 65535 → decode_bin (put16 (blen bs) ++ bs ++ r) = Some (bs, r).
Proof.
  intros Hb. unfold decode_bin. rewrite decode16_put16 by (unfold is_u16, blen in *; lia). simpl.
  apply ReadFull_app. unfold blen. lia.
Qed.

Lemma lor_128 b : 0 ≤ b < 128 → Z.lor b 128 = b + 128.
Proof.
  intros Hb. rewrite <-Z.lxor_lor, <-Z.add_nocarry_lxor; [done| |].
  all: change 128 with (2 ^ 7); apply Z.bits_inj'; intros i Hi;
    rewrite Z.land_spec, Z.pow2_bits_eqb, Z.bits_0 by lia;
    destruct (Z.eqb_spec 7 i) as [<-|]; [|by rewrite andb_false_r];
    rewrite andb_true_r, (Z.testbit_eqb b 7) by lia; apply Z.eqb_neq;
    rewrite Z.div_small by (change (2 ^ 7) with 128; lia); by rewrite Z.mod_0_l.
Qed.

Lemma Z_of_byte_small n : 0 ≤ n < 256 → Z_of_byte (byte_of_Z n) = n.
Proof. intros Hn. by rewrite Z_of_byte_of_Z, Z.mod_small. Qed.

Lemma decode_varintLoop k fuel n r :
  (k ≤ fuel)%nat → 0 < n < 128 ^ Z.of_nat k →
  decode_varint k (varintLoop fuel n ++ r) = Some (n, r).
Proof.
  revert fuel n. induction k as [|k IH]; intros fuel n Hk Hn; [simpl in Hn; lia|].
  destruct fuel as [|fuel]; [lia|]. cbn [varintLoop].
  rewrite (proj2 (Z.ltb_lt 0 n)) by lia. rewrite <-app_comm_cons. unfold decode_varint; fold decode_varint.
  pose proof (Z.mod_pos_bound n 128). pose proof (Z.div_mod n 128).
  destruct (0 <? n / 128) eqn:E; bool_prop.
  - rewrite lor_128 by lia. rewrite Z_of_byte_small by lia.
    rewrite (proj2 (Z.ltb_ge _ _)) by lia. rewrite IH; [simpl; do 2 f_equal; lia|lia|].
    split; [done|]. apply Z.div_lt_upper_bound; [lia|].
    rewrite Nat2Z.inj_succ, Z.pow_succ_r in Hn by lia. lia.
  - assert (n < 128) by lia.
    rewrite Z.mod_small by lia. rewrite Z_of_byte_small by lia.
    rewrite (proj2 (Z.ltb_lt _ _)) by lia. f_equal. f_equal.
    replace (n / 128) with 0 by (symmetry; apply Z.div_small; lia).
    by destruct fuel.
Qed.

Lemma decode_writeVarint n r :
  0 ≤ n < 128 ^ 4 → decode_varint 4 (writeVarint n ++ r) = Some (n, r).
Proof.
  intros Hn. unfold writeVarint. destruct (n <? 128) eqn:E; bool_prop.
  - unfold decode_varint. simpl. rewrite Z_of_byte_small by lia. by rewrite (proj2 (Z.ltb_lt _ _)).
  - apply decode_varintLoop; [lia|]. change (Z.of_nat 4) with 4. lia.
Qed.

(** ** Properties *)

Definition encode_property (p : property) : list byte :=
  match p with
  | PropAlias a => byte_of_Z 35 :: put16 a
  | PropResponse t => byte_of_Z 8 :: put16 (blen (bytes_of_string t)) ++ bytes_of_string t
  | PropCorrelation d => byte_of_Z 9 :: put16 (blen d) ++ d
  | PropUser k v => byte_of_Z 38 :: put16 (blen (bytes_of_string k)) ++ bytes_of_string k ++
                    put16 (blen (bytes_of_string v)) ++ bytes_of_string v
  end.

(** The properties a packet carries. *)
Definition properties_of (pk : Packet) : list property :=
  (if Pk_TopicAliasFlag pk && (0 <? Pk_TopicAlias pk) then [PropAlias (Pk_TopicAlias pk)] else []) ++
  (if Pk_ResponseTopic pk <>s "" then [PropResponse (Pk_ResponseTopic pk)] else []) ++
  (if 0 <? blen (Pk_CorrelationData pk) then [PropCorrelation (Pk_CorrelationData pk)] else []) ++
  ((λ '(k, v), PropUser k v) <$> Pk_User pk).

Lemma encodeProperties_eq pk : encodeProperties pk = flat_map encode_property (properties_of pk).
Proof.
  unfold encodeProperties, properties_of. rewrite !flat_map_app.
  f_equal; [by case_match; simpl; rewrite ?app_nil_r|].
  f_equal; [by case_match; simpl; rewrite ?app_nil_r|].
  f_equal; [by case_match; simpl; rewrite ?app_nil_r|].
  induction (Pk_User pk) as [|[k v] l IH]; [done|].
  rewrite fmap_cons. cbn [flat_map]. rewrite IH. cbn [encode_property]. done.
Qed.

(** What fits the 16-bit length fields. *)
Definition property_fits (p : property) : Prop :=
  match p with
  | PropAlias a => is_u16 a
  | PropResponse t => blen (bytes_of_string t) ≤ 65535
  | PropCorrelation d => blen d ≤ 65535
  | PropUser k v => blen (bytes_of_string k) ≤ 65535 ∧ blen (bytes_of_string v) ≤ 65535
  end.

(** The decoder on each tag the encoder writes. *)
Lemma decode_property_tag35 r :
  decode_property (byte_of_Z 35 :: r) = '(a, r) ← decode16 r; Some (PropAlias a, r).
Proof. done. Qed.
Lemma decode_property_tag8 r :
  decode_property (byte_of_Z 8 :: r) = '(t, r) ← decode_bin r; Some (PropResponse (string_of_bytes t), r).
Proof. done. Qed.
Lemma decode_property_tag9 r :
  decode_property (byte_of_Z 9 :: r) = '(d, r) ← decode_bin r; Some (PropCorrelation d, r).
Proof. done. Qed.
Lemma decode_property_tag38 r :
  decode_property (byte_of_Z 38 :: r) =
  '(k, r) ← decode_bin r; '(v, r) ← decode_bin r;
  Some (PropUser (string_of_bytes k) (string_of_bytes v), r).
Proof. done. Qed.

Lemma decode_encode_property p r :
  property_fits p → decode_property (encode_property p ++ r) = Some (p, r).
Proof.
  destruct p as [a|t|d|k v]; cbn [property_fits encode_property]; intros Hp;
    rewrite <-app_comm_cons, <-?app_assoc.
  - by rewrite decode_property_tag35, (decode16_put16 a r Hp).
  - rewrite decode_property_tag8, (decode_bin_put _ r Hp). cbn.
    by rewrite string_of_bytes_of_string.
  - by rewrite decode_property_tag9, (decode_bin_put _ r Hp).
  - destruct Hp as [Hk Hv]. rewrite decode_property_tag38, (decode_bin_put _ _ Hk). cbn.
    rewrite (decode_bin_put _ _ Hv). cbn. by rewrite !string_of_bytes_of_string.
Qed.

Lemma decode_encode_properties ps fuel :
  Forall property_fits ps → (length (flat_map encode_property ps) ≤ fuel)%nat →
  decode_properties fuel (flat_map encode_property ps) = Some ps.
Proof.
  revert fuel. induction ps as [|p ps IH]; intros fuel Hp Hf; [by destruct fuel|].
  apply Forall_cons in Hp as [Hp Hps]. cbn [flat_map] in *.
  assert (∃ b bs, encode_property p = b :: bs) as (b & bs & Hb) by (destruct p; eauto).
  rewrite length_app in Hf. pose proof (decode_encode_property p (flat_map encode_property ps) Hp) as Hd.
  rewrite Hb in *. simpl in Hf. destruct fuel as [|fuel]; [lia|].
  cbn [decode_properties app] in *. rewrite Hd. simpl. rewrite IH by (done || lia). done.
Qed.

(** ** The packet *)

(** A packet whose fields fit their MQTT length fields. *)
Definition packet_fits (pk : Packet) (qos : Z) : Prop :=
  0 ≤ qos ≤ 3 ∧ blen (bytes_of_string (Pk_TopicName pk)) ≤ 65535 ∧ is_u16 (Pk_PacketID pk) ∧
  Forall property_fits (properties_of pk) ∧
  7 + blen (bytes_of_string (Pk_TopicName pk)) + blen (encodeProperties pk)
    + blen (Pk_Payload pk) + 2 < 128 ^ 4.

Lemma header_byte qos (retain : bool) :
  0 ≤ qos ≤ 3 →
  let h := Z_of_byte (byte_of_Z (Z.lor (u8 (Z.shiftl 3 4))
             (let flags := Z.land (u8 (Z.shiftl qos 1)) 6 in
              if retain then Z.lor flags 1 else flags))) in
  Z.shiftr h 4 = 3 ∧ Z.land (Z.shiftr h 1) 3 = qos ∧ Z.testbit h 0 = retain.
Proof.
  intros Hq. assert (qos = 0 ∨ qos = 1 ∨ qos = 2 ∨ qos = 3) as [->|[->|[->| ->]]] by lia;
    by destruct retain.
Qed.

Lemma blen_app {A} (l k : list A) : blen (l ++ k) = blen l + blen k.
Proof. unfold blen. rewrite length_app. lia. Qed.

Lemma blen_nonneg {A} (l : list A) : 0 ≤ blen l.
Proof. unfold blen. lia. Qed.

Lemma ReadFull_blen (a b : list byte) : ReadFull (Z.to_nat (blen a)) (a ++ b) = Some (a, b).
Proof. apply ReadFull_app. unfold blen. lia. Qed.

Lemma writeVarint_length n : 0 ≤ n < 128 ^ 4 → blen (writeVarint n) ≤ 4.
Proof.
  intros Hn. unfold writeVarint. case_match; [done|].
  assert (∀ k fuel m, 0 ≤ m < 128 ^ Z.of_nat k → (length (varintLoop fuel m) ≤ k)%nat) as Hl.
  { intros k. induction k as [|k IH]; intros fuel m Hm.
    - simpl in Hm. assert (m = 0) as -> by lia. by destruct fuel.
    - destruct fuel; simpl; [lia|]. case_match; simpl; [|lia]. apply le_n_S, IH.
      rewrite Nat2Z.inj_succ, Z.pow_succ_r in Hm by lia. split; [apply Z.div_pos; lia|].
      apply Z.div_lt_upper_bound; lia. }
  specialize (Hl 4%nat 10%nat n Hn). unfold blen. lia.
Qed.

Lemma decode_encodePublishPacket pk qos rest :
  packet_fits pk qos →
  decode_publish (Pk_ProtocolVersion pk) (encodePublishPacket pk qos ++ rest) =
  Some (mkDecoded qos (Pk_Retain pk) (Pk_TopicName pk)
          (if 0 <? qos then Some (Pk_PacketID pk) else None)
          (if Pk_ProtocolVersion pk =? 5 then properties_of pk else [])
          (Pk_Payload pk), rest).
Proof.
  intros (Hq & Ht & Hi & Hps & Hlen). destruct (header_byte qos (Pk_Retain pk) Hq) as (H1 & H2 & H3).
  unfold decode_publish, encodePublishPacket. cbv zeta in *.
  pose proof (blen_nonneg (Pk_Payload pk)). pose proof (blen_nonneg (encodeProperties pk)).
  pose proof (blen_nonneg (bytes_of_string (Pk_TopicName pk))).
  assert (blen (writeVarint (blen (encodeProperties pk))) ≤ 4) by (apply writeVarint_length; lia).
  pose proof (blen_nonneg (writeVarint (blen (encodeProperties pk)))).
  set (vh := if Pk_ProtocolVersion pk =? 5 then _ else _).
  assert (0 ≤ blen vh + blen (Pk_Payload pk) < 128 ^ 4) as Hrem.
  { pose proof (blen_nonneg vh). split; [lia|]. unfold vh.
    assert (∀ n, blen (put16 n) = 2) as H16 by done.
    destruct (0 <? qos), (Pk_ProtocolVersion pk =? 5); rewrite ?blen_app, ?H16; lia. }
  set (h := byte_of_Z (Z.lor _ _)) in *. clearbody h.
  cbn [app]. rewrite H1. simpl. rewrite <-!app_assoc.
  rewrite decode_writeVarint by done. simpl. rewrite H2, H3. rewrite app_assoc, <-blen_app.
  rewrite ReadFull_blen. simpl. unfold vh.
  destruct (0 <? qos) eqn:Eq, (Pk_ProtocolVersion pk =? 5) eqn:Ev;
    rewrite <-?app_assoc; rewrite (decode_bin_put _ _ Ht); simpl;
    rewrite ?(decode16_put16 _ _ Hi); simpl;
    try (rewrite decode_writeVarint by lia; simpl; rewrite ReadFull_blen; simpl;
         rewrite encodeProperties_eq, decode_encode_properties by done; simpl);
    by rewrite string_of_bytes_of_string, ?be16_split by done.
Qed.

(** ** What the client reads *)

(** The publishes the actor handles: those before the first stop or context error. *)
Fixpoint handled (inbox : list (Received SessionMsg)) : list Publish :=
  match inbox with
  | RecvMsg (MPublish m) :: inbox' => m :: handled inbox'
  | RecvMsg MUnknown :: inbox' => handled inbox'
  | _ => []
  end.

(** How the loop ends when every write succeeds. *)
Fixpoint ending (inbox : list (Received SessionMsg)) : SessionEnd :=
  match inbox with
  | [] => EndWaiting
  | RecvCtxErr :: _ => EndCtx
  | RecvMsg MStop :: _ => EndStop
  | RecvMsg _ :: inbox' => ending inbox'
  end.

(** Decoding a byte stream of PUBLISH packets. *)
Fixpoint decode_stream (fuel : nat) (version : Z) (r : list byte) : option (list decoded) :=
  match r, fuel with
  | [], _ => Some []
  | _, O => None
  | _, Datatypes.S fuel' =>
      '(d, r') ← decode_publish version r; ds ← decode_stream fuel' version r'; Some (d :: ds)
  end.

(** The properties a version-5 receiver is owed for a message: its topic alias, response
    topic and correlation data when it has them, then one user property per entry of its
    table (the entries' order is the table's iteration order). *)
Definition message_properties (m : Publish) : list property :=
  (if decide (0 < P_TopicAlias m) then [PropAlias (P_TopicAlias m)] else []) ++
  (if decide (P_ResponseTopic m = "") then [] else [PropResponse (P_ResponseTopic m)]) ++
  (if decide (P_CorrelationData m = []) then [] else [PropCorrelation (P_CorrelationData m)]) ++
  ((λ kv : string * list byte, PropUser kv.1 (string_of_bytes kv.2)) <$>
     map_to_list (P_UserProperties m)).

(** A message as its receiver is to see it, field by field. *)
Definition as_received (s : Session) (m : Publish) : decoded := {|
  D_QoS := P_QoS m;
  D_Retain := P_Retain m;
  D_Topic := P_Topic m;
  D_PacketID := if decide (P_QoS m = 0) then None else Some 1;
  D_Properties := if decide (protocolVersion s = 5) then message_properties m else [];
  D_Payload := P_Payload m;
|}.

(** The bytes the user properties take: per entry one tag, two length fields, key and value. *)
Definition user_size (u : gmap string (list byte)) : Z :=
  foldr (λ kv n, 5 + blen (bytes_of_string kv.1) + blen kv.2 + n) 0 (map_to_list u).

(** A message whose fields fit their MQTT length fields: 16 bits for each string and byte
    sequence, and less than 2^28 for everything together (18 bytes of headers at most). *)
Record message_fits (m : Publish) : Prop := {
  fits_qos : 0 ≤ P_QoS m ≤ 3;
  fits_topic : blen (bytes_of_string (P_Topic m)) ≤ 65535;
  fits_alias : P_TopicAlias m ≤ 65535;
  fits_response : blen (bytes_of_string (P_ResponseTopic m)) ≤ 65535;
  fits_correlation : blen (P_CorrelationData m) ≤ 65535;
  fits_user : ∀ k v, P_UserProperties m !! k = Some v →
    blen (bytes_of_string k) ≤ 65535 ∧ blen v ≤ 65535;
  fits_total :
    18 + blen (bytes_of_string (P_Topic m)) + blen (bytes_of_string (P_ResponseTopic m))
      + blen (P_CorrelationData m) + user_size (P_UserProperties m) + blen (P_Payload m) < 2 ^ 28;
}.

(** The packet the actor builds carries exactly the message's properties. *)
Lemma properties_of_buildPacket s m : properties_of (buildPacket s m) = message_properties m.
Proof.
  unfold properties_of, message_properties, buildPacket. cbn -[Z.ltb]. f_equal; [|f_equal; [|f_equal]].
  - destruct (Z.ltb_spec 0 (P_TopicAlias m)), (decide (0 < P_TopicAlias m)); simpl; try lia; [|done].
    by rewrite (proj2 (Z.ltb_lt _ _)).
  - destruct (decide (P_ResponseTopic m = "")) as [->|Hne]; [done|].
    by case_bool_decide.
  - by destruct (P_CorrelationData m).
  - rewrite <-list_fmap_compose. by apply list_fmap_ext; intros ? [].
Qed.

Lemma message_properties_fit m : message_fits m → Forall property_fits (message_properties m).
Proof.
  intros [_ _ Ha Hr Hc Hu _]. unfold message_properties. rewrite !Forall_app. split_and!.
  - case_decide; [|done]. apply Forall_singleton. unfold property_fits, is_u16. lia.
  - case_decide; [done|]. by apply Forall_singleton.
  - case_decide; [done|]. by apply Forall_singleton.
  - apply Forall_fmap, Forall_forall. intros [k v] Hkv%elem_of_map_to_list. simpl.
    rewrite bytes_of_string_of_bytes. by apply Hu.
Qed.

Lemma message_properties_size m :
  blen (flat_map encode_property (message_properties m)) ≤
  9 + blen (bytes_of_string (P_ResponseTopic m)) + blen (P_CorrelationData m)
    + user_size (P_UserProperties m).
Proof.
  unfold message_properties, user_size. rewrite !flat_map_app, !blen_app.
  assert (∀ l : list (string * list byte),
    blen (flat_map encode_property ((λ kv, PropUser kv.1 (string_of_bytes kv.2)) <$> l)) =
    foldr (λ kv n, 5 + blen (bytes_of_string kv.1) + blen kv.2 + n) 0 l) as ->.
  { induction l as [|[k v] l IH]; [done|]. rewrite fmap_cons. cbn [flat_map foldr fst snd].
    rewrite blen_app, IH. cbn [encode_property]. rewrite bytes_of_string_of_bytes.
    rewrite app_comm_cons, !blen_app. unfold blen; simpl. lia. }
  pose proof (blen_nonneg (bytes_of_string (P_ResponseTopic m))).
  pose proof (blen_nonneg (P_CorrelationData m)).
  repeat case_decide; cbn [flat_map encode_property]; rewrite ?app_nil_r, ?app_comm_cons, ?blen_app;
    unfold blen in *; simpl; lia.
Qed.

Lemma message_packet_fits s m : message_fits m → packet_fits (buildPacket s m) (P_QoS m).
Proof.
  intros Hm. pose proof (message_properties_size m) as Hs. unfold packet_fits.
  rewrite encodeProperties_eq, properties_of_buildPacket. cbn [buildPacket Pk_TopicName Pk_PacketID Pk_Payload].
  pose proof (fits_total _ Hm). change (128 ^ 4) with (2 ^ 28).
  split_and!; [apply Hm|apply Hm|apply Hm|by unfold is_u16; case_match|
               by apply message_properties_fit|lia].
Qed.

Lemma Start_writes s inbox :
  Start s (λ _, true) inbox =
  ((λ m, encodePublishPacket (buildPacket s m) (P_QoS m)) <$> handled inbox, ending inbox).
Proof.
  induction inbox as [|[[m| |]|] inbox IH]; [done| |done| |done].
  - cbn [Start handled ending]. by rewrite IH.
  - cbn [Start handled ending]. exact IH.
Qed.

(** Decoding the packet built for a message gives the message as it is to be received. *)
Lemma buildPacket_received s m :
  0 ≤ P_QoS m →
  mkDecoded (P_QoS m) (Pk_Retain (buildPacket s m)) (Pk_TopicName (buildPacket s m))
    (if 0 <? P_QoS m then Some (Pk_PacketID (buildPacket s m)) else None)
    (if GetProtocolVersion s =? 5 then properties_of (buildPacket s m) else [])
    (Pk_Payload (buildPacket s m)) = as_received s m.
Proof.
  intros Hq. rewrite properties_of_buildPacket. unfold as_received, GetProtocolVersion. cbn -[Z.ltb Z.eqb].
  f_equal.
  - destruct (Z.ltb_spec 0 (P_QoS m)); case_decide; (done || lia).
  - destruct (Z.eqb_spec (protocolVersion s) 0) as [->|]; [done|].
    destruct (Z.eqb_spec (protocolVersion s) 5); by case_decide.
Qed.

Lemma decode_stream_encoded s ms fuel :
  Forall message_fits ms → (length ms ≤ fuel)%nat →
  decode_stream fuel (GetProtocolVersion s)
    (concat ((λ m, encodePublishPacket (buildPacket s m) (P_QoS m)) <$> ms)) =
  Some (as_received s <$> ms).
Proof.
  revert fuel. induction ms as [|m ms IH]; intros fuel Hm Hf; [by destruct fuel|].
  apply Forall_cons in Hm as [Hm Hms]. destruct fuel as [|fuel]; [simpl in Hf; lia|].
  rewrite !fmap_cons. cbn [concat].
  pose proof (decode_encodePublishPacket (buildPacket s m) (P_QoS m) (concat
    ((λ m, encodePublishPacket (buildPacket s m) (P_QoS m)) <$> ms))
    (message_packet_fits s m Hm)) as Hd.
  destruct (encodePublishPacket (buildPacket s m) (P_QoS m) ++ _) as [|b bs] eqn:Eb;
    [done|]. cbn [decode_stream].
  change (Pk_ProtocolVersion (buildPacket s m)) with (GetProtocolVersion s) in Hd.
  rewrite Hd. simpl. rewrite IH by (simpl in Hf; done || lia). simpl. do 2 f_equal.
  apply buildPacket_received, (fits_qos _ Hm).
Qed.

(** C23. The session actor's wire format: as long as its writes succeed, the actor writes one
    packet per message received before a stop or context error, in mailbox order, and a
    client that decodes the connection's bytes by the MQTT rules reads back, message by
    message, its topic, payload, QoS, retain flag, packet identifier 1 exactly when the QoS
    is above 0, and in a version-5 session (and no other) the message's topic alias, response
    topic, correlation data and every user property - provided the message's fields fit
    MQTT's length fields; then the actor ends as the inbox says. *)
Theorem session_wire_roundtrip s inbox :
  Forall message_fits (handled inbox) →
  let '(ws, e) := Start s (λ _, true) inbox in
  decode_stream (length ws) (GetProtocolVersion s) (concat ws) = Some (as_received s <$> handled inbox) ∧
  length ws = length (handled inbox) ∧ e = ending inbox.
Proof.
  intros Hf. rewrite Start_writes. split_and!; [|by rewrite length_fmap|done].
  apply decode_stream_encoded; [done|by rewrite length_fmap].
Qed.

Definition example_publish : Publish :=
  mkPublish "a/b" [Byte.x68; Byte.x69] 1 true {["k" := [Byte.x76]]} 7 "re" [Byte.x01].

Lemma session_wire_roundtrip_witness :
  let s := SetProtocolVersion (New "c") 5 in
  let inbox := [RecvMsg (MPublish example_publish); RecvMsg MUnknown;
                RecvMsg (MPublish example_publish); RecvMsg MStop] in
  let '(ws, e) := Start s (λ _, true) inbox in
  decode_stream (length ws) (GetProtocolVersion s) (concat ws) = Some (as_received s <$> handled inbox) ∧
  length ws = length (handled inbox) ∧ e = ending inbox.
Proof.
  assert (message_fits example_publish) as Hfits.
  { split; try (vm_compute; (discriminate || reflexivity)); [by vm_compute|].
    intros k v Hk. unfold example_publish, P_UserProperties in Hk.
    apply lookup_singleton_Some in Hk as [<- <-]. by vm_compute. }
  refine (session_wire_roundtrip (SetProtocolVersion (New "c") 5)
    [RecvMsg (MPublish example_publish); RecvMsg MUnknown;
     RecvMsg (MPublish example_publish); RecvMsg MStop] _).
  by repeat apply Forall_cons_2.
Defined.
