(* ===== verification/Wire.v ===== *)
(** * Wire: the minimal MQTT 3.1.1 parser (pkg/protocol/mqtt)

    Decoders read from a byte stream and answer a packet and the rest of the stream, an
    error, or a panic (an index out of the buffer); encoders answer the bytes they write
    (the error paths of the writer are not modelled: the writer is a buffer). *)

From S2P Require Import Prelude GoLib Session.
Local Open Scope emqx_scope.
Local Open Scope Z_scope.

(** ** Packets (types.go) *)

Definition TypeCONNECT := 1.
Definition TypeCONNACK := 2.
Definition TypePUBLISH := 3.
Definition TypeSUBSCRIBE := 8.
Definition TypeSUBACK := 9.

Record FixedHeader := mkFixedHeader { PacketType : Z; Flags : Z; RemLength : Z }.

Record ConnectPacket := mkConnectPacket {
  ProtocolName : string;
  ProtocolVersion : Z;
  CP_CleanSession : bool;
  KeepAlive : Z;
  CP_ClientID : string;
}.
Record ConnackPacket := mkConnackPacket { SessionPresent : bool; ReturnCode : Z }.
Record PublishPacket := mkPublishPacket { TopicName : string; Payload : list byte }.
Record SubscribePacket := mkSubscribePacket { Sub_MessageID : Z; Topics : list string; QoSs : list Z }.
Record SubackPacket := mkSubackPacket { SA_MessageID : Z; ReturnCodes : list byte }.

(** ** Decoding (parser.go) *)

Inductive ParseError :=
  | ErrEOF | ErrRemainingLength | ErrNotConnect | ErrRemainingBytes | ErrProtocolName
  | ErrClientID | ErrStringLength | ErrStringContent | ErrPacketID.

(** A call that answers a value or an error, or panics. *)
Abbreviation parse A := (outcome (A + ParseError)).

Definition parse_bind {A B} (p : parse A) (k : A → parse B) : parse B :=
  let! r := p in match r with inl a => k a | inr e => Returns (inr e) end.
Notation "'let?' ' x := o 'in' k" := (parse_bind o (λ x, k))
  (at level 10, x strict pattern, o at level 200, k at level 200) : emqx_scope.
Notation "'let?' x := o 'in' k" := (parse_bind o (λ x, k))
  (at level 10, x name, o at level 200, k at level 200) : emqx_scope.

(** [io.ReadFull(r, buf)] with the error the caller reports. *)
Definition readFull (n : nat) (r : list byte) (e : ParseError) : parse (list byte * list byte) :=
  Returns match ReadFull n r with Some br => inl br | None => inr e end.

(** [buf[i]], a panic out of range. *)
Definition index (buf : list byte) (i : nat) : parse byte :=
  match buf !! i with Some b => Returns (inl b) | None => Panics end.

(** [binary.BigEndian.Uint16(buf[i : i+2])]. *)
Definition index16 (buf : list byte) (i : nat) : parse Z :=
  match buf !! i, buf !! (i + 1)%nat with
  | Some hi, Some lo => Returns (inl (be16 hi lo))
  | _, _ => Panics
  end.

Definition DecodeFixedHeader (r : list byte) : parse (FixedHeader * list byte) :=
  let? '(headerByte, r) := readFull 1 r ErrEOF in
  let? h := index headerByte 0 in
  let? '(lenByte, r) := readFull 1 r ErrRemainingLength in
  let? l := index lenByte 0 in
  Returns (inl (mkFixedHeader (Z.shiftr (Z_of_byte h) 4) (Z.land (Z_of_byte h) 15) (Z_of_byte l), r)).

Definition readString (b : list byte) (offset : nat) : parse (string * nat) :=
  if (length b <? offset + 2)%nat then Returns (inr ErrStringLength)
  else
    let? n := index16 b offset in
    let length_ := Z.to_nat n in
    let offset := (offset + 2)%nat in
    if (length b <? offset + length_)%nat then Returns (inr ErrStringContent)
    else Returns (inl (string_of_bytes (take length_ (drop offset b)), (offset + length_)%nat)).

(** [err != nil || protocolName != "MQTT"] gives one error for both. *)
Definition DecodeConnect (r : list byte) : parse (ConnectPacket * list byte) :=
  let? '(fh, r) := DecodeFixedHeader r in
  if negb (PacketType fh =? TypeCONNECT) then Returns (inr ErrNotConnect)
  else
    let? '(buf, r) := readFull (Z.to_nat (RemLength fh)) r ErrRemainingBytes in
    let! name := readString buf 0 in
    match name with
    | inr _ => Returns (inr ErrProtocolName)
    | inl (protocolName, offset) =>
        if protocolName <>s "MQTT" then Returns (inr ErrProtocolName)
        else
          let? version := index buf offset in
          let offset := (offset + 1)%nat in
          let? connectFlags := index buf offset in
          let offset := (offset + 1)%nat in
          let? keepAlive := index16 buf offset in
          let offset := (offset + 2)%nat in
          let! cid := readString buf offset in
          match cid with
          | inr _ => Returns (inr ErrClientID)
          | inl (clientID, _) =>
              Returns (inl (mkConnectPacket protocolName (Z_of_byte version)
                (Z.land (Z.shiftr (Z_of_byte connectFlags) 1) 1 =? 1) keepAlive clientID, r))
          end
    end.

(** The loop of [DecodeSubscribe]; each round moves the offset by at least three bytes, so
    the length of the buffer is enough fuel. *)
Fixpoint subscribeLoop (fuel : nat) (buf : list byte) (offset : nat) (topics : list string)
    (qoss : list Z) : parse (list string * list Z) :=
  if (offset <? length buf)%nat then
    match fuel with
    | O => Blocks
    | Datatypes.S fuel' =>
        let? '(topic, newOffset) := readString buf offset in
        let? q := index buf newOffset in
        subscribeLoop fuel' buf (newOffset + 1) (topics ++ [topic]) (qoss ++ [Z_of_byte q])
    end
  else Returns (inl (topics, qoss)).

Definition DecodeSubscribe (fh : FixedHeader) (r : list byte) : parse (SubscribePacket * list byte) :=
  let? '(buf, r) := readFull (Z.to_nat (RemLength fh)) r ErrEOF in
  let? mid := index16 buf 0 in
  let? '(topics, qoss) := subscribeLoop (length buf) buf 2 [] [] in
  Returns (inl (mkSubscribePacket mid topics qoss, r)).

Definition DecodePublish (fh : FixedHeader) (r : list byte) : parse (PublishPacket * list byte) :=
  let? '(buf, r) := readFull (Z.to_nat (RemLength fh)) r ErrEOF in
  let? '(topicName, offset) := readString buf 0 in
  let qosLevel := Z.land (Z.shiftr (Flags fh) 1) 3 in
  if 0 <? qosLevel then
    if (length buf <? offset + 2)%nat then Returns (inr ErrPacketID)
    else Returns (inl (mkPublishPacket topicName (drop (offset + 2) buf), r))
  else Returns (inl (mkPublishPacket topicName (drop offset buf), r)).

(** ** Encoding (parser.go) *)

Definition EncodeConnack (p : ConnackPacket) : list byte :=
  [byte_of_Z (Z.shiftl TypeCONNACK 4); byte_of_Z 2;
   byte_of_Z (if SessionPresent p then 1 else 0); byte_of_Z (ReturnCode p)].

Definition EncodeSuback (p : SubackPacket) : list byte :=
  let remLength := 2 + blen (ReturnCodes p) in
  [byte_of_Z (Z.shiftl TypeSUBACK 4); byte_of_Z remLength] ++ put16 (SA_MessageID p) ++ ReturnCodes p.

Definition EncodePublish (p : PublishPacket) (qos packetID : Z) : list byte :=
  let topicBytes := bytes_of_string (TopicName p) in
  let vh := put16 (blen topicBytes) ++ topicBytes in
  let vh := if 0 <? qos then vh ++ put16 packetID else vh in
  let flags := Z.land (u8 (Z.shiftl qos 1)) 6 in
  let remLength := blen vh + blen (Payload p) in
  [byte_of_Z (Z.lor (Z.shiftl TypePUBLISH 4) flags); byte_of_Z remLength] ++ vh ++ Payload p.

(** ** Round trip *)

Lemma DecodeFixedHeader_cons h l r :
  DecodeFixedHeader (h :: l :: r) =
  Returns (inl (mkFixedHeader (Z.shiftr (Z_of_byte h) 4) (Z.land (Z_of_byte h) 15) (Z_of_byte l), r)).
Proof. unfold DecodeFixedHeader, readFull, ReadFull. simpl. by rewrite drop_0. Qed.

Lemma index16_put pre n r :
  is_u16 n → index16 (pre ++ put16 n ++ r) (length pre) = Returns (inl n).
Proof.
  intros Hn. unfold index16, put16.
  rewrite (lookup_app_r pre) by lia. rewrite (lookup_app_r pre _ (length pre + 1)) by lia.
  rewrite Nat.sub_diag. replace (length pre + 1 - length pre)%nat with 1%nat by lia. simpl.
  by rewrite be16_split.
Qed.

Lemma index16_put0 n r : is_u16 n → index16 (put16 n ++ r) 0 = Returns (inl n).
Proof. apply (index16_put []). Qed.

Lemma readString_at pre bs r :
  blen bs ≤ 65535 →
  readString (pre ++ put16 (blen bs) ++ bs ++ r) (length pre) =
  Returns (inl (string_of_bytes bs, (length pre + 2 + length bs)%nat)).
Proof.
  intros Hb. unfold readString.
  rewrite (proj2 (Nat.ltb_ge _ _)) by (rewrite !length_app; simpl; lia).
  rewrite index16_put by (unfold is_u16, blen in *; lia). cbn [parse_bind outcome_bind].
  replace (Z.to_nat (blen bs)) with (length bs) by (unfold blen; lia).
  rewrite (proj2 (Nat.ltb_ge _ _)) by (rewrite !length_app; simpl; lia).
  rewrite <-drop_drop, drop_app_length. by rewrite (drop_app_length' (put16 _)), take_app_length.
Qed.

Lemma readString_put bs r :
  blen bs ≤ 65535 →
  readString (put16 (blen bs) ++ bs ++ r) 0 = Returns (inl (string_of_bytes bs, (2 + length bs)%nat)).
Proof. apply (readString_at []). Qed.

Definition fits_byte (p : PublishPacket) (qos : Z) : Prop :=
  0 ≤ qos ≤ 3 ∧
  2 + blen (bytes_of_string (TopicName p)) + (if 0 <? qos then 2 else 0) + blen (Payload p) < 256.

Lemma publish_header qos :
  0 ≤ qos ≤ 3 →
  let h := Z_of_byte (byte_of_Z (Z.lor (Z.shiftl TypePUBLISH 4) (Z.land (u8 (Z.shiftl qos 1)) 6))) in
  Z.shiftr h 4 = TypePUBLISH ∧ Z.land (Z.shiftr (Z.land h 15) 1) 3 = qos.
Proof.
  intros Hq. assert (qos = 0 ∨ qos = 1 ∨ qos = 2 ∨ qos = 3) as [->|[->|[->| ->]]] by lia; done.
Qed.

(** The PUBLISH codec of pkg/protocol/mqtt: decoding the header and then the packet reads
    back topic and payload from what EncodePublish wrote, and leaves the rest of the
    stream, for every QoS, as long as the remaining length fits the single byte the
    package uses for it. *)
Theorem publish_codec_roundtrip p qos packetID rest :
  fits_byte p qos →
  ∃ fh r, DecodeFixedHeader (EncodePublish p qos packetID ++ rest) = Returns (inl (fh, r)) ∧
    PacketType fh = TypePUBLISH ∧ Z.land (Z.shiftr (Flags fh) 1) 3 = qos ∧
    DecodePublish fh r = Returns (inl (p, rest)).
Proof.
  intros [Hq Hlen]. destruct (publish_header qos Hq) as [H1 H2]. unfold EncodePublish.
  set (h := byte_of_Z (Z.lor _ _)) in *. clearbody h. cbn [app].
  rewrite DecodeFixedHeader_cons. eexists _, _. split; [done|]. cbn [PacketType Flags].
  split_and!; [done..|]. unfold DecodePublish. cbn [RemLength Flags]. rewrite H2.
  set (topic := bytes_of_string (TopicName p)) in *.
  pose proof (blen_nonneg (Payload p)). pose proof (blen_nonneg topic).
  set (vh := if 0 <? qos then _ else _).
  assert (blen vh + blen (Payload p) < 256) as Hrem.
  { unfold vh. assert (∀ n, blen (put16 n) = 2) as H16 by done.
    destruct (0 <? qos); rewrite !blen_app, !H16; lia. }
  pose proof (blen_nonneg vh). rewrite Z_of_byte_small, <-blen_app by lia.
  unfold readFull. rewrite <-(app_assoc vh), (app_assoc vh), ReadFull_blen. simpl. unfold vh.
  assert (blen topic ≤ 65535) as Ht by (destruct (0 <? qos); lia).
  destruct (0 <? qos) eqn:E; rewrite <-!app_assoc, (readString_put topic _ Ht); simpl;
    rewrite ?E; unfold topic; rewrite string_of_bytes_of_string.
  - rewrite (proj2 (Nat.ltb_ge _ _)) by (rewrite !length_app; simpl; lia).
    rewrite <-drop_drop, drop_app_length. by destruct p.
  - rewrite drop_app_length. by destruct p.
Qed.

Lemma publish_codec_roundtrip_witness :
  ∃ fh r, DecodeFixedHeader (EncodePublish (mkPublishPacket "a/b" [Byte.x07]) 1 9 ++ [Byte.xff]) =
            Returns (inl (fh, r)) ∧
    PacketType fh = TypePUBLISH ∧ Z.land (Z.shiftr (Flags fh) 1) 3 = 1 ∧
    DecodePublish fh r = Returns (inl (mkPublishPacket "a/b" [Byte.x07], [Byte.xff])).
Proof.
  apply (publish_codec_roundtrip (mkPublishPacket "a/b" [Byte.x07]) 1 9 [Byte.xff]).
  split; vm_compute; [split; discriminate|reflexivity].
Defined.

(** ** SUBSCRIBE *)

(** A SUBSCRIBE body as a client writes it: identifier, then filters with their QoS. *)
Definition encode_filters (fs : list (string * Z)) : list byte :=
  flat_map (λ '(t, q), put16 (blen (bytes_of_string t)) ++ bytes_of_string t ++ [byte_of_Z q]) fs.

Lemma index_at pre b r : index (pre ++ b :: r) (length pre) = Returns (inl b).
Proof. unfold index. by rewrite lookup_app_r, Nat.sub_diag by lia. Qed.

Lemma subscribeLoop_encoded fs fuel pre topics qoss :
  Forall (λ '(t, q), blen (bytes_of_string t) ≤ 65535 ∧ is_u8 q) fs →
  (length fs ≤ fuel)%nat →
  subscribeLoop fuel (pre ++ encode_filters fs) (length pre) topics qoss =
  Returns (inl (topics ++ fs.*1, qoss ++ fs.*2)).
Proof.
  revert fuel pre topics qoss. induction fs as [|[t q] fs IH]; intros fuel pre topics qoss Hf Hfuel.
  { simpl. rewrite !app_nil_r. destruct fuel; simpl; by rewrite Nat.ltb_irrefl. }
  apply Forall_cons in Hf as [[Ht Hq] Hf]. destruct fuel as [|fuel]; [simpl in Hfuel; lia|].
  cbn [encode_filters flat_map subscribeLoop]. fold (encode_filters fs).
  rewrite (proj2 (Nat.ltb_lt _ _)) by (rewrite !length_app; simpl; lia).
  rewrite <-!app_assoc, (readString_at pre _ _ Ht). cbn [parse_bind outcome_bind app].
  set (pre' := pre ++ put16 (blen (bytes_of_string t)) ++ bytes_of_string t).
  replace (pre ++ put16 (blen (bytes_of_string t)) ++ bytes_of_string t ++ byte_of_Z q ::
    encode_filters fs) with (pre' ++ byte_of_Z q :: encode_filters fs)
    by (unfold pre'; by rewrite <-!app_assoc).
  replace (length pre + 2 + length (bytes_of_string t))%nat with (length pre')
    by (unfold pre'; rewrite !length_app; simpl; lia).
  rewrite index_at. cbn [parse_bind outcome_bind]. rewrite string_of_bytes_of_string, Z_of_byte_small by done.
  rewrite (cons_middle (byte_of_Z q)), (app_assoc pre').
  replace (length pre' + 1)%nat with (length (pre' ++ [byte_of_Z q])) by (rewrite length_app; simpl; lia).
  rewrite IH by (done || simpl in Hfuel; lia). by rewrite <-!app_assoc.
Qed.

Lemma readString_advances b o s o' : readString b o = Returns (inl (s, o')) → (o + 2 ≤ o')%nat.
Proof.
  unfold readString. case_match; [done|]. unfold index16.
  destruct (b !! o); [|done]. destruct (b !! (o + 1)%nat); [|done]. simpl.
  case_match; [done|]. intros [= <- <-]. lia.
Qed.

Lemma readString_no_block b o : readString b o ≠ Blocks.
Proof. unfold readString, index16. by repeat (case_match; simpl). Qed.

Lemma subscribeLoop_no_block fuel buf o ts qs :
  (length buf - o ≤ fuel)%nat → subscribeLoop fuel buf o ts qs ≠ Blocks.
Proof.
  revert o ts qs. induction fuel as [|fuel IH]; intros o ts qs Hf; simpl.
  - rewrite (proj2 (Nat.ltb_ge _ _)) by lia. done.
  - case_match; [|done]. destruct (readString buf o) as [[[t o']|e]| |] eqn:Er; simpl; [|done..|].
    + unfold index. destruct (buf !! o'); simpl; [|done].
      apply readString_advances in Er. apply IH. lia.
    + by apply readString_no_block in Er.
Qed.

(** Decoding SUBSCRIBE always terminates (it returns, reports an error or panics on a
    truncated packet, but never loops), and on a well-formed packet it returns the packet
    identifier and all topic filters with their QoS bytes in order, and leaves the rest
    of the stream. *)
Theorem DecodeSubscribe_correct fh :
  (∀ r, DecodeSubscribe fh r ≠ Blocks) ∧
  (∀ mid fs rest, is_u16 mid →
     Forall (λ '(t, q), blen (bytes_of_string t) ≤ 65535 ∧ is_u8 q) fs →
     RemLength fh = 2 + blen (encode_filters fs) →
     DecodeSubscribe fh (put16 mid ++ encode_filters fs ++ rest) =
     Returns (inl (mkSubscribePacket mid fs.*1 fs.*2, rest))).
Proof.
  split.
  - intros r. unfold DecodeSubscribe, readFull. destruct (ReadFull _ r) as [[buf r']|]; simpl; [|done].
    unfold index16. destruct (buf !! 0%nat); [|done]. destruct (buf !! (0 + 1)%nat); [|done]. simpl.
    pose proof (subscribeLoop_no_block (length buf) buf 2 [] []) as Hb.
    destruct (subscribeLoop _ _ _ _ _) as [[[ts qs]|]| |]; simpl; [done..|]. by destruct Hb; [lia|].
  - intros mid fs rest Hm Hf Hl. unfold DecodeSubscribe, readFull. rewrite Hl.
    replace (2 + blen (encode_filters fs)) with (blen (put16 mid ++ encode_filters fs))
      by (rewrite blen_app; done).
    rewrite app_assoc, ReadFull_blen. cbn [parse_bind outcome_bind].
    rewrite (index16_put0 mid _ Hm). cbn [parse_bind outcome_bind].
    change 2%nat with (length (put16 mid)).
    rewrite (subscribeLoop_encoded fs _ (put16 mid) [] []); [done|done|].
    assert (∀ l, (length l ≤ length (encode_filters l))%nat) as Hle.
    { intros l. induction l as [|[t q] l IHl]; [done|]. simpl. rewrite !length_app. simpl. lia. }
    specialize (Hle fs). rewrite length_app. lia.
Qed.

Lemma DecodeSubscribe_correct_witness :
  DecodeSubscribe (mkFixedHeader 8 2 14) (put16 7 ++ encode_filters [("a/b", 1); ("+/c", 2)] ++ [Byte.x00])
  = Returns (inl (mkSubscribePacket 7 ["a/b"; "+/c"] [1; 2], [Byte.x00])).
Proof.
  refine (proj2 (DecodeSubscribe_correct (mkFixedHeader 8 2 14)) 7 [("a/b", 1); ("+/c", 2)]
    [Byte.x00] _ _ _).
  - unfold is_u16. lia.
  - repeat constructor; vm_compute; discriminate.
  - reflexivity.
Defined.
