(* ===== verification/Auth.v ===== *)
(** * Auth: the authentication chain and the in-memory authenticator (pkg/auth)

    SHA-256 and bcrypt are parameters: [sha256_hex] is the hexadecimal digest,
    [bcrypt_generate] may fail (bcrypt refuses passwords over 72 bytes) and draws its own
    salt, [bcrypt_compare] checks a hash. *)

From S2P Require Import Prelude GoLib.
Local Open Scope emqx_scope.

Inductive HashAlgorithm := HashPlain | HashSHA256 | HashBcrypt | HashOther (name : string).
#[export] Instance HashAlgorithm_eq_dec : EqDecision HashAlgorithm.
Proof. solve_decision. Defined.

Record User := mkUser {
  Username : string;
  PasswordHash : string;
  Algorithm : HashAlgorithm;
  Salt : string;
  User_Enabled : bool;
}.

Inductive AuthResult := AuthSuccess | AuthFailure | AuthError | AuthIgnore.
#[export] Instance AuthResult_eq_dec : EqDecision AuthResult.
Proof. solve_decision. Defined.

Definition AuthResult_String (ar : AuthResult) : string :=
  match ar with
  | AuthSuccess => "success"
  | AuthFailure => "failure"
  | AuthError => "error"
  | AuthIgnore => "ignore"
  end.

(** The [Authenticator] interface, as a record of its methods. *)
Record Authenticator := mkAuthenticator {
  Authenticator_Authenticate : string → string → AuthResult;
  Authenticator_Name : string;
  Authenticator_Enabled : bool;
}.

(** ** The chain (auth.go) *)

Record AuthChain := mkAuthChain {
  authenticators : list Authenticator;
  chain_enabled : bool;
}.

Definition NewAuthChain : AuthChain := mkAuthChain [] true.

Definition AddAuthenticator (ac : AuthChain) (auth : Authenticator) : AuthChain :=
  mkAuthChain (authenticators ac ++ [auth]) (chain_enabled ac).

(** The loop over the authenticators; [None] when none of them decided. *)
Fixpoint chainLoop (auths : list Authenticator) (username password : string) : option AuthResult :=
  match auths with
  | [] => None
  | auth :: auths' =>
      if negb (Authenticator_Enabled auth) then chainLoop auths' username password
      else
        match Authenticator_Authenticate auth username password with
        | AuthSuccess => Some AuthSuccess
        | AuthFailure => Some AuthFailure
        | AuthError => chainLoop auths' username password
        | AuthIgnore => chainLoop auths' username password
        end
  end.

Definition AuthChain_Authenticate (ac : AuthChain) (username password : string) : AuthResult :=
  if negb (chain_enabled ac) then AuthIgnore
  else if (length (authenticators ac) =? 0)%nat then AuthSuccess
  else
    match chainLoop (authenticators ac) username password with
    | Some r => r
    | None => if (username =s "") && (password =s "") then AuthSuccess else AuthFailure
    end.

Definition AuthChain_SetEnabled (ac : AuthChain) (enabled : bool) : AuthChain :=
  mkAuthChain (authenticators ac) enabled.
Definition IsEnabled (ac : AuthChain) : bool := chain_enabled ac.
Definition AuthChain_Clear (ac : AuthChain) : AuthChain := mkAuthChain [] (chain_enabled ac).
Definition AuthChain_Count (ac : AuthChain) : nat := length (authenticators ac).
Definition GetAuthenticators (ac : AuthChain) : list Authenticator := authenticators ac.

(** ** The in-memory authenticator (memory.go) *)

Record MemoryAuthenticator := mkMemoryAuthenticator {
  users : gmap string User;
  ma_enabled : bool;
}.

Inductive AuthErr :=
  | EmptyUsername
  | HashFailed
  | UserNotFound (username : string).

Definition NewMemoryAuthenticator : MemoryAuthenticator := mkMemoryAuthenticator ∅ true.

Section Hashing.
Context (sha256_hex : string → string).
Context (bcrypt_generate : string → option string).
Context (bcrypt_compare : string → string → bool).

Definition hashPassword (password salt : string) (algorithm : HashAlgorithm) : option string :=
  match algorithm with
  | HashPlain => Some password
  | HashSHA256 => Some (sha256_hex (salt +:+ password))
  | HashBcrypt => bcrypt_generate password
  | HashOther _ => None
  end.

Definition verifyPassword (password hash salt : string) (algorithm : HashAlgorithm) : bool :=
  match algorithm with
  | HashPlain => password =s hash
  | HashSHA256 =>
      match hashPassword password salt HashSHA256 with
      | None => false
      | Some expectedHash => expectedHash =s hash
      end
  | HashBcrypt => bcrypt_compare hash password
  | HashOther _ => false
  end.

(** "Simple salt using username". *)
Definition saltFor (username : string) (algorithm : HashAlgorithm) : string :=
  if bool_decide (algorithm = HashSHA256) then username else "".

Definition AddUser (ma : MemoryAuthenticator) (username password : string)
    (algorithm : HashAlgorithm) : option AuthErr * MemoryAuthenticator :=
  if username =s "" then (Some EmptyUsername, ma)
  else
    let salt := saltFor username algorithm in
    match hashPassword password salt algorithm with
    | None => (Some HashFailed, ma)
    | Some passwordHash =>
        (None, mkMemoryAuthenticator
                 (<[username := mkUser username passwordHash algorithm salt true]> (users ma))
                 (ma_enabled ma))
    end.

Definition RemoveUser (ma : MemoryAuthenticator) (username : string)
    : option AuthErr * MemoryAuthenticator :=
  match users ma !! username with
  | None => (Some (UserNotFound username), ma)
  | Some _ => (None, mkMemoryAuthenticator (delete username (users ma)) (ma_enabled ma))
  end.

Definition UpdateUser (ma : MemoryAuthenticator) (username password : string)
    (algorithm : HashAlgorithm) : option AuthErr * MemoryAuthenticator :=
  match users ma !! username with
  | None => (Some (UserNotFound username), ma)
  | Some user =>
      let salt := saltFor username algorithm in
      match hashPassword password salt algorithm with
      | None => (Some HashFailed, ma)
      | Some passwordHash =>
          (None, mkMemoryAuthenticator
                   (<[username := mkUser (Username user) passwordHash algorithm salt
                                    (User_Enabled user)]> (users ma))
                   (ma_enabled ma))
      end
  end.

Definition GetUser (ma : MemoryAuthenticator) (username : string) : User + AuthErr :=
  match users ma !! username with
  | None => inr (UserNotFound username)
  | Some user => inl (mkUser (Username user) "" (Algorithm user) "" (User_Enabled user))
  end.

Definition ListUsers (ma : MemoryAuthenticator) : list string := (map_to_list (users ma)).*1.

Definition SetUserEnabled (ma : MemoryAuthenticator) (username : string) (enabled : bool)
    : option AuthErr * MemoryAuthenticator :=
  match users ma !! username with
  | None => (Some (UserNotFound username), ma)
  | Some user =>
      (None, mkMemoryAuthenticator
               (<[username := mkUser (Username user) (PasswordHash user) (Algorithm user)
                                (Salt user) enabled]> (users ma)) (ma_enabled ma))
  end.

Definition MemoryAuthenticator_Authenticate (ma : MemoryAuthenticator)
    (username password : string) : AuthResult :=
  if negb (ma_enabled ma) then AuthIgnore
  else if (username =s "") && (password <>s "") then AuthFailure
  else if username =s "" then AuthIgnore
  else
    match users ma !! username with
    | None => AuthFailure
    | Some user =>
        if negb (User_Enabled user) then AuthFailure
        else if verifyPassword password (PasswordHash user) (Salt user) (Algorithm user)
        then AuthSuccess
        else AuthFailure
    end.

Definition MemoryAuthenticator_SetEnabled (ma : MemoryAuthenticator) (enabled : bool)
    : MemoryAuthenticator := mkMemoryAuthenticator (users ma) enabled.
Definition MemoryAuthenticator_Clear (ma : MemoryAuthenticator) : MemoryAuthenticator :=
  mkMemoryAuthenticator ∅ (ma_enabled ma).
Definition MemoryAuthenticator_Count (ma : MemoryAuthenticator) : nat := size (users ma).

(** The authenticator behind the interface. *)
Definition memoryAuthenticator (ma : MemoryAuthenticator) : Authenticator :=
  mkAuthenticator (MemoryAuthenticator_Authenticate ma) "memory" (ma_enabled ma).

(** [SetupDefaultAuth] of the broker: the error of an [AddUser] is only logged. *)
Definition SetupDefaultAuth (ac : AuthChain) : AuthChain :=
  let ma := NewMemoryAuthenticator in
  let ma := (AddUser ma "admin" "admin123" HashBcrypt).2 in
  let ma := (AddUser ma "user1" "password123" HashSHA256).2 in
  let ma := (AddUser ma "test" "test" HashPlain).2 in
  AddAuthenticator ac (memoryAuthenticator ma).
End Hashing.

(** ** The chain decides *)

(** An authenticator decides when it is enabled and accepts or refuses. *)
Definition decides (u p : string) (a : Authenticator) (r : AuthResult) : Prop :=
  Authenticator_Enabled a = true ∧ Authenticator_Authenticate a u p = r ∧
  (r = AuthSuccess ∨ r = AuthFailure).

Definition undecided (u p : string) (a : Authenticator) : Prop := ∀ r, ¬ decides u p a r.

Lemma decides_dec u p a : (∃ r, decides u p a r) ∨ undecided u p a.
Proof.
  unfold undecided, decides. destruct (Authenticator_Enabled a).
  - destruct (Authenticator_Authenticate a u p) eqn:E; [left; by eauto 10..| |];
      right; intros r (_ & <- & [|]); done.
  - right. by intros r (? & _).
Qed.

Lemma chainLoop_decided u p pre a post r :
  Forall (undecided u p) pre → decides u p a r → chainLoop (pre ++ a :: post) u p = Some r.
Proof.
  intros Hpre (He & Ha & Hr). induction Hpre as [|b pre Hb Hpre IH]; simpl.
  - rewrite He, Ha. simpl. by destruct Hr as [-> | ->].
  - destruct (Authenticator_Enabled b) eqn:Eb; simpl; [|done].
    destruct (Authenticator_Authenticate b u p) eqn:Er; [..|done|done];
      exfalso; eapply Hb; unfold decides; eauto.
Qed.

Lemma chainLoop_undecided u p auths :
  Forall (undecided u p) auths → chainLoop auths u p = None.
Proof.
  induction 1 as [|b auths Hb Hpre IH]; simpl; [done|].
  destruct (Authenticator_Enabled b) eqn:Eb; simpl; [|done].
  destruct (Authenticator_Authenticate b u p) eqn:Er; [..|done|done];
    exfalso; eapply Hb; unfold decides; eauto.
Qed.

Lemma first_deciding u p auths :
  Forall (undecided u p) auths ∨
  ∃ pre a post r, auths = pre ++ a :: post ∧ Forall (undecided u p) pre ∧ decides u p a r.
Proof.
  induction auths as [|b auths IH]; [by left|].
  destruct (decides_dec u p b) as [[r Hr]|Hb].
  - right. exists [], b, auths, r. by split_and!.
  - destruct IH as [IH|(pre & a & post & r & -> & Hpre & Ha)]; [left; by constructor|].
    right. exists (b :: pre), a, post, r. split_and!; [done|by constructor|done].
Qed.

(** C25. The authentication chain: an enabled chain with authenticators accepts credentials if
    and only if the first authenticator that decides (is enabled and does not ignore or
    err) accepts them, or none decides and both user name and password are empty; it never
    answers "ignore" or "error", so that everything else is refused.  A disabled chain
    ignores and an empty chain accepts. *)
Theorem AuthChain_Authenticate_spec ac u p :
  (chain_enabled ac = false → AuthChain_Authenticate ac u p = AuthIgnore) ∧
  (chain_enabled ac = true → authenticators ac = [] → AuthChain_Authenticate ac u p = AuthSuccess) ∧
  (chain_enabled ac = true → authenticators ac ≠ [] →
     (AuthChain_Authenticate ac u p = AuthSuccess ∨ AuthChain_Authenticate ac u p = AuthFailure) ∧
     (AuthChain_Authenticate ac u p = AuthSuccess ↔
        (∃ pre a post, authenticators ac = pre ++ a :: post ∧ Forall (undecided u p) pre ∧
           decides u p a AuthSuccess) ∨
        (Forall (undecided u p) (authenticators ac) ∧ u = "" ∧ p = ""))).
Proof.
  unfold AuthChain_Authenticate. split_and!; [by intros ->|by intros -> ->|].
  intros -> Hne. destruct (authenticators ac) as [|a0 auths0] eqn:Ea; [done|]. simpl negb.
  cbn [length Nat.eqb]. rewrite <-Ea. destruct (first_deciding u p (authenticators ac))
    as [Hu|(pre & a & post & r & Heq & Hpre & Ha)].
  - rewrite (chainLoop_undecided _ _ _ Hu). split; [case_match; eauto|].
    destruct ((u =s "") && (p =s "")) eqn:Eup; split; bool_prop; [eauto|done|done|].
    intros [(pre & a & post & Heq & _ & Hd)|(_ & -> & ->)]; [|done].
    rewrite Heq in Hu. apply Forall_app in Hu as [_ [Hu _]%Forall_cons]. by destruct (Hu _ Hd).
  - rewrite Heq, (chainLoop_decided _ _ _ _ _ _ Hpre Ha). destruct Ha as (He & Hr & Hor).
    split; [destruct Hor; eauto|]. split.
    + intros ->. left. exists pre, a, post. by split_and!; eauto.
    + intros [(pre' & a' & post' & Heq' & Hpre' & Ha')|(Hu & _)].
      * assert (chainLoop (pre' ++ a' :: post') u p = Some AuthSuccess) as Hs
          by by apply chainLoop_decided.
        rewrite <-Heq', (chainLoop_decided u p pre a post r) in Hs; [congruence|done|].
        by split_and!.
      * apply Forall_app in Hu as [_ [Hu _]%Forall_cons]. by destruct (Hu r).
Qed.

Lemma AuthChain_Authenticate_spec_witness :
  let yes := mkAuthenticator (λ _ _, AuthSuccess) "yes" true in
  let skip := mkAuthenticator (λ _ _, AuthIgnore) "skip" true in
  let ac := mkAuthChain [skip; yes] true in
  AuthChain_Authenticate ac "u" "p" = AuthSuccess.
Proof.
  intros yes skip ac.
  destruct (AuthChain_Authenticate_spec ac "u" "p") as (_ & _ & H).
  apply (proj2 (H eq_refl ltac:(discriminate))). left. exists [skip], yes, [].
  split; [reflexivity|]. split; [|split; [reflexivity|split; [reflexivity|by left]]].
  constructor; [|constructor]. intros r (_ & <- & [|]); done.
Defined.

(** ** Credentials *)

(** Credentials of the in-memory authenticator: after AddUser succeeds, the password given
    is accepted; a password is accepted exactly when it verifies against the stored hash -
    for plain storage only that password, for SHA-256 only those with the same digest of
    user name and password; no other user's answer changes; a user who is disabled or
    removed is refused with every password, and unknown users always are. *)
Theorem MemoryAuthenticator_credentials sha256_hex bcrypt_generate bcrypt_compare
    (ma ma' : MemoryAuthenticator) u p alg :
  let authenticate := MemoryAuthenticator_Authenticate sha256_hex bcrypt_generate bcrypt_compare in
  (∀ pw h, bcrypt_generate pw = Some h → bcrypt_compare h pw = true) →
  ma_enabled ma = true →
  AddUser sha256_hex bcrypt_generate ma u p alg = (None, ma') →
  authenticate ma' u p = AuthSuccess ∧
  (∀ p', authenticate ma' u p' = AuthSuccess ∨ authenticate ma' u p' = AuthFailure) ∧
  (alg = HashPlain → ∀ p', authenticate ma' u p' = AuthSuccess → p' = p) ∧
  (alg = HashSHA256 → ∀ p', authenticate ma' u p' = AuthSuccess ↔
                            sha256_hex (u +:+ p') = sha256_hex (u +:+ p)) ∧
  (∀ v q, v ≠ u → authenticate ma' v q = authenticate ma v q) ∧
  (∀ q, authenticate (SetUserEnabled ma' u false).2 u q = AuthFailure) ∧
  (∀ q, authenticate (RemoveUser ma' u).2 u q = AuthFailure).
Proof.
  intros authenticate Hb Hen. unfold AddUser. case_match eqn:Eu; [done|].
  destruct (hashPassword _ _ _ _ _) as [h|] eqn:Eh; [|done]. intros [= <-]. bool_prop.
  unfold authenticate, MemoryAuthenticator_Authenticate, SetUserEnabled, RemoveUser.
  simpl. rewrite !lookup_insert_eq. simpl. rewrite ?lookup_insert_eq, ?lookup_delete_eq, Hen. simpl.
  rewrite (bool_decide_false (P := u = "")) by done. simpl.
  assert (verifyPassword sha256_hex bcrypt_generate bcrypt_compare p h (saltFor u alg) alg = true) as Hv.
  { unfold hashPassword, verifyPassword in *. destruct alg; simplify_eq; simpl;
      [by apply bool_decide_true|by apply bool_decide_true|by apply Hb]. }
  split_and!.
  - by rewrite Hv.
  - intros p'. case_match; eauto.
  - intros -> p'. simpl in Eh. simplify_eq. simpl. by case_bool_decide.
  - intros -> p'. simpl in Eh. simplify_eq. simpl. unfold saltFor.
    rewrite (bool_decide_true (P := HashSHA256 = HashSHA256)) by done.
    case_bool_decide; naive_solver.
  - intros v q Hne. by rewrite lookup_insert_ne by congruence.
  - done.
  - done.
Qed.

Lemma MemoryAuthenticator_credentials_witness :
  MemoryAuthenticator_Authenticate (λ s, s) Some String.eqb
    (AddUser (λ s, s) Some NewMemoryAuthenticator "u" "p" HashBcrypt).2 "u" "p" = AuthSuccess.
Proof.
  refine (proj1 (MemoryAuthenticator_credentials (λ s, s) Some String.eqb NewMemoryAuthenticator
    (AddUser (λ s, s) Some NewMemoryAuthenticator "u" "p" HashBcrypt).2 "u" "p" HashBcrypt _ _ _)).
  - intros pw h Hh. injection Hh as <-. apply String.eqb_refl.
  - reflexivity.
  - reflexivity.
Defined.
