(* ===== verification/Blacklist.v ===== *)
(** * Blacklist: entries, indexes and access checks (pkg/blacklist)

    The manager keeps pointers to entries in several maps at once and updates entries in
    place; the model has a heap of entries and the maps hold locations.  Regular
    expressions, CIDR tests and the rendering of durations are parameters.  Block
    statistics are updated by a goroutine: the checks answer the block to record and
    [recordBlock] is its own step. *)

From S2P Require Import Prelude GoLib GoValue GoJSON TopicMatch.
Local Open Scope emqx_scope.
Local Open Scope Z_scope.

(** ** Data (manager.go) *)

(** The metadata are a map, which may be nil, of values decoded from JSON. *)

Definition ClientIDBlacklist : string := "clientid".
Definition UsernameBlacklist : string := "username".
Definition IPAddressBlacklist : string := "ipaddress".
Definition TopicBlacklist : string := "topic".
Definition ActionDeny : string := "deny".
Definition ActionDisconnect : string := "disconnect".
Definition ActionLog : string := "log".

Record BlacklistEntry (R : Type) := mkBlacklistEntry {
  E_ID : string;
  E_Type : string;
  E_Value : string;
  E_Pattern : string;
  E_Action : string;
  E_Reason : string;
  E_Description : string;
  E_CreatedAt : Time;
  E_UpdatedAt : Time;
  E_ExpiresAt : option Time;
  E_Enabled : bool;
  E_CreatedBy : string;
  E_Metadata : option (gmap string json);
  compiledPattern : option R;
}.
Arguments mkBlacklistEntry {_} _ _ _ _ _ _ _ _ _ _ _ _ _ _.
Arguments E_ID {_} _.
Arguments E_Type {_} _.
Arguments E_Value {_} _.
Arguments E_Pattern {_} _.
Arguments E_Action {_} _.
Arguments E_Reason {_} _.
Arguments E_Description {_} _.
Arguments E_CreatedAt {_} _.
Arguments E_UpdatedAt {_} _.
Arguments E_ExpiresAt {_} _.
Arguments E_Enabled {_} _.
Arguments E_CreatedBy {_} _.
Arguments E_Metadata {_} _.
Arguments compiledPattern {_} _.

Record ClientInfo := mkClientInfo {
  CI_ClientID : string;
  CI_Username : string;
  CI_IPAddress : string;
  CI_Protocol : string;
  CI_ConnectedAt : Time;
}.

Record BlacklistBlock := mkBlacklistBlock {
  B_Timestamp : Time;
  B_Type : string;
  B_Value : string;
  B_Action : string;
  B_EntryID : string;
  B_ClientInfo : ClientInfo;
  B_Reason : string;
}.

Record BlacklistStats := mkBlacklistStats {
  TotalEntries : Z;
  EntriesByType : gmap string Z;
  EntriesByAction : gmap string Z;
  TotalBlocks : Z;
  BlocksByType : gmap string Z;
  RecentBlocks : list BlacklistBlock;
  LastUpdated : Time;
}.

Record TopicAccess := mkTopicAccess {
  TA_Topic : string;
  TA_Action : string;
  TA_ClientInfo : ClientInfo;
}.

(** Locations of entries. *)
Abbreviation loc := positive.

Record BlacklistManager (R : Type) := mkBlacklistManager {
  heap : gmap loc (BlacklistEntry R);
  entries : gmap string loc;
  clientIDEntries : gmap string loc;
  usernameEntries : gmap string loc;
  ipAddressEntries : gmap string loc;
  topicEntries : gmap string loc;
  patternEntries : gmap string (list loc);
  stats : BlacklistStats;
}.
Arguments mkBlacklistManager {_} _ _ _ _ _ _ _ _.
Arguments heap {_} _.
Arguments entries {_} _.
Arguments clientIDEntries {_} _.
Arguments usernameEntries {_} _.
Arguments ipAddressEntries {_} _.
Arguments topicEntries {_} _.
Arguments patternEntries {_} _.
Arguments stats {_} _.

Inductive BlacklistError :=
  | ErrEntryNotFound | ErrEntryAlreadyExists | ErrInvalidPattern | ErrInvalidType
  | ErrInvalidAction | ErrIDRequired | ErrValueRequired.

(** ** The manager (manager.go) *)

Section Manager.
(** [regexp.Compile], [MatchString], and "[ParseCIDR(value)] and [ParseIP(ip)] succeed and
    the network contains the address". *)
Context {R : Type} (Compile : string → option R) (MatchString : R → string → bool)
  (cidrContains : string → string → bool).
Implicit Types (bm : BlacklistManager R) (entry : BlacklistEntry R).

Definition NewBlacklistManager (now : Time) : BlacklistManager R :=
  mkBlacklistManager ∅ ∅ ∅ ∅ ∅ ∅ ∅ (mkBlacklistStats 0 ∅ ∅ 0 ∅ [] now).

Definition validateEntry entry : option BlacklistError :=
  if E_ID entry =s "" then Some ErrIDRequired
  else if E_Type entry =s "" then Some ErrInvalidType
  else if (E_Type entry <>s ClientIDBlacklist) && (E_Type entry <>s UsernameBlacklist)
          && (E_Type entry <>s IPAddressBlacklist) && (E_Type entry <>s TopicBlacklist)
  then Some ErrInvalidType
  else if E_Action entry =s "" then Some ErrInvalidAction
  else if (E_Action entry <>s ActionDeny) && (E_Action entry <>s ActionDisconnect)
          && (E_Action entry <>s ActionLog)
  then Some ErrInvalidAction
  else if (E_Value entry =s "") && (E_Pattern entry =s "") then Some ErrValueRequired
  else None.

Definition set_heap h bm : BlacklistManager R :=
  mkBlacklistManager h (entries bm) (clientIDEntries bm) (usernameEntries bm)
    (ipAddressEntries bm) (topicEntries bm) (patternEntries bm) (stats bm).
Definition set_entries e bm : BlacklistManager R :=
  mkBlacklistManager (heap bm) e (clientIDEntries bm) (usernameEntries bm)
    (ipAddressEntries bm) (topicEntries bm) (patternEntries bm) (stats bm).
Definition set_patterns p bm : BlacklistManager R :=
  mkBlacklistManager (heap bm) (entries bm) (clientIDEntries bm) (usernameEntries bm)
    (ipAddressEntries bm) (topicEntries bm) p (stats bm).
Definition set_stats s bm : BlacklistManager R :=
  mkBlacklistManager (heap bm) (entries bm) (clientIDEntries bm) (usernameEntries bm)
    (ipAddressEntries bm) (topicEntries bm) (patternEntries bm) s.

(** Apply [f] to the direct-lookup map of a type ([switch entry.Type]). *)
Definition on_index (f : gmap string loc → gmap string loc) (type : string) bm
    : BlacklistManager R :=
  let on t m := if type =s t then f m else m in
  mkBlacklistManager (heap bm) (entries bm)
    (on ClientIDBlacklist (clientIDEntries bm)) (on UsernameBlacklist (usernameEntries bm))
    (on IPAddressBlacklist (ipAddressEntries bm)) (on TopicBlacklist (topicEntries bm))
    (patternEntries bm) (stats bm).

Definition addToTypeIndex (l : loc) entry bm : BlacklistManager R :=
  if E_Pattern entry <>s "" then
    set_patterns (<[E_Type entry := default [] (patternEntries bm !! E_Type entry) ++ [l]]>
                    (patternEntries bm)) bm
  else on_index (insert (E_Value entry) l) (E_Type entry) bm.

(** Remove the first pattern entry with this identifier. *)
Fixpoint removePattern (h : gmap loc (BlacklistEntry R)) (id : string) (patterns : list loc)
    : list loc :=
  match patterns with
  | [] => []
  | l :: patterns' =>
      if bool_decide ((E_ID <$> h !! l) = Some id) then patterns'
      else l :: removePattern h id patterns'
  end.

Definition removeFromTypeIndex entry bm : BlacklistManager R :=
  if E_Pattern entry <>s "" then
    match patternEntries bm !! E_Type entry with
    | None => bm
    | Some patterns =>
        set_patterns (<[E_Type entry := removePattern (heap bm) (E_ID entry) patterns]>
                        (patternEntries bm)) bm
    end
  else on_index (delete (E_Value entry)) (E_Type entry) bm.

Definition bump (d : Z) (k : string) (m : gmap string Z) : gmap string Z :=
  <[k := default 0 (m !! k) + d]> m.

Definition updateStatsOnAdd entry (now : Time) bm : BlacklistManager R :=
  let s := stats bm in
  set_stats (mkBlacklistStats (TotalEntries s + 1) (bump 1 (E_Type entry) (EntriesByType s))
    (bump 1 (E_Action entry) (EntriesByAction s)) (TotalBlocks s) (BlocksByType s)
    (RecentBlocks s) now) bm.

Definition updateStatsOnRemove entry (now : Time) bm : BlacklistManager R :=
  let s := stats bm in
  set_stats (mkBlacklistStats (TotalEntries s - 1) (bump (-1) (E_Type entry) (EntriesByType s))
    (bump (-1) (E_Action entry) (EntriesByAction s)) (TotalBlocks s) (BlocksByType s)
    (RecentBlocks s) now) bm.

Definition stamped (now : Time) (compiled : option R) entry : BlacklistEntry R :=
  mkBlacklistEntry (E_ID entry) (E_Type entry) (E_Value entry) (E_Pattern entry) (E_Action entry)
    (E_Reason entry) (E_Description entry) now now (E_ExpiresAt entry) (E_Enabled entry)
    (E_CreatedBy entry) (E_Metadata entry) compiled.

Definition AddEntry bm entry (now : Time) : option BlacklistError * BlacklistManager R :=
  match validateEntry entry with
  | Some err => (Some err, bm)
  | None =>
      match entries bm !! E_ID entry with
      | Some _ => (Some ErrEntryAlreadyExists, bm)
      | None =>
          let store compiled :=
            let entry := stamped now compiled entry in
            let l := fresh (dom (heap bm)) in
            let bm := set_heap (<[l := entry]> (heap bm)) bm in
            let bm := set_entries (<[E_ID entry := l]> (entries bm)) bm in
            let bm := addToTypeIndex l entry bm in
            (None, updateStatsOnAdd entry now bm) in
          if E_Pattern entry <>s "" then
            match Compile (E_Pattern entry) with
            | None => (Some ErrInvalidPattern, bm)
            | Some compiled => store (Some compiled)
            end
          else store (compiledPattern entry)
      end
  end.

(** The entry updated in place; a pattern that does not compile leaves the new value and
    pattern behind, with the old compiled expression. *)
Definition updatedEntry entry (updates : BlacklistEntry R) (now : Time)
    : BlacklistEntry R * option BlacklistError :=
  let value := if E_Value updates <>s "" then E_Value updates else E_Value entry in
  let finish pattern compiled :=
    (mkBlacklistEntry (E_ID entry) (E_Type entry) value pattern
       (if E_Action updates <>s "" then E_Action updates else E_Action entry)
       (if E_Reason updates <>s "" then E_Reason updates else E_Reason entry)
       (if E_Description updates <>s "" then E_Description updates else E_Description entry)
       (E_CreatedAt entry) now
       (match E_ExpiresAt updates with Some t => Some t | None => E_ExpiresAt entry end)
       (E_Enabled updates) (E_CreatedBy entry) (E_Metadata entry) compiled, None) in
  if E_Pattern updates <>s "" then
    match Compile (E_Pattern updates) with
    | None =>
        (mkBlacklistEntry (E_ID entry) (E_Type entry) value (E_Pattern updates) (E_Action entry)
           (E_Reason entry) (E_Description entry) (E_CreatedAt entry) (E_UpdatedAt entry)
           (E_ExpiresAt entry) (E_Enabled entry) (E_CreatedBy entry) (E_Metadata entry)
           (compiledPattern entry), Some ErrInvalidPattern)
    | Some compiled => finish (E_Pattern updates) (Some compiled)
    end
  else finish (E_Pattern entry) (compiledPattern entry).

Definition touchStats (now : Time) bm : BlacklistManager R :=
  let s := stats bm in
  set_stats (mkBlacklistStats (TotalEntries s) (EntriesByType s) (EntriesByAction s)
    (TotalBlocks s) (BlocksByType s) (RecentBlocks s) now) bm.

(** The type never changes, so the type statistics are left alone. *)
Definition UpdateEntry bm (id : string) (updates : BlacklistEntry R) (now : Time)
    : option BlacklistError * BlacklistManager R :=
  match entries bm !! id with
  | None => (Some ErrEntryNotFound, bm)
  | Some l =>
      match heap bm !! l with
      | None => (Some ErrEntryNotFound, bm)
      | Some entry =>
          let bm := removeFromTypeIndex entry bm in
          let '(entry', err) := updatedEntry entry updates now in
          let bm := set_heap (<[l := entry']> (heap bm)) bm in
          match err with
          | Some e => (Some e, bm)
          | None => (None, touchStats now (addToTypeIndex l entry' bm))
          end
      end
  end.

Definition RemoveEntry bm (id : string) (now : Time) : option BlacklistError * BlacklistManager R :=
  match entries bm !! id with
  | None => (Some ErrEntryNotFound, bm)
  | Some l =>
      match heap bm !! l with
      | None => (Some ErrEntryNotFound, bm)
      | Some entry =>
          let bm := set_entries (delete id (entries bm)) bm in
          (None, updateStatsOnRemove entry now (removeFromTypeIndex entry bm))
      end
  end.

Definition GetEntry bm (id : string) : BlacklistEntry R + BlacklistError :=
  match entries bm !! id ≫= λ l, heap bm !! l with
  | None => inr ErrEntryNotFound
  | Some entry => inl entry
  end.

Definition ListEntries bm (entryType : string) (enabled : option bool) (now : Time)
    : list (BlacklistEntry R) :=
  go_range (λ _ l result,
    match heap bm !! l with
    | None => result
    | Some entry =>
        if (entryType <>s "") && (E_Type entry <>s entryType) then result
        else if match enabled with Some b => negb (Bool.eqb (E_Enabled entry) b) | None => false end
        then result
        else if expired now (E_ExpiresAt entry) then result
        else result ++ [entry]
    end) (entries bm) [].

(** [entry.ExpiresAt == nil || time.Now().Before(...)], with [entry.Enabled]. *)
Definition active (now : Time) entry : bool :=
  E_Enabled entry && match E_ExpiresAt entry with None => true | Some t => Before now t end.

Definition directMatch bm (m : gmap string loc) (v : string) (now : Time)
    : option (BlacklistEntry R) :=
  entry ← (m !! v ≫= λ l, heap bm !! l); if active now entry then Some entry else None.

(** The loop over the pattern entries of a type. *)
Fixpoint patternMatch (h : gmap loc (BlacklistEntry R)) (now : Time)
    (matches : BlacklistEntry R → bool) (ls : list loc) : option (BlacklistEntry R) :=
  match ls with
  | [] => None
  | l :: ls' =>
      match h !! l with
      | Some entry =>
          if active now entry && matches entry then Some entry else patternMatch h now matches ls'
      | None => patternMatch h now matches ls'
      end
  end.

Definition patternsOf bm (type : string) : list loc := default [] (patternEntries bm !! type).

Definition regexMatch (s : string) entry : bool :=
  match compiledPattern entry with Some r => MatchString r s | None => false end.

Definition checkClientID bm (clientID : string) (now : Time) : option (BlacklistEntry R) :=
  match directMatch bm (clientIDEntries bm) clientID now with
  | Some entry => Some entry
  | None => patternMatch (heap bm) now (regexMatch clientID) (patternsOf bm ClientIDBlacklist)
  end.

Definition checkUsername bm (username : string) (now : Time) : option (BlacklistEntry R) :=
  match directMatch bm (usernameEntries bm) username now with
  | Some entry => Some entry
  | None => patternMatch (heap bm) now (regexMatch username) (patternsOf bm UsernameBlacklist)
  end.

Definition matchIPPattern (ipAddress : string) entry : bool :=
  if strings.Contains (E_Value entry) "/" && cidrContains (E_Value entry) ipAddress then true
  else regexMatch ipAddress entry.

Definition checkIPAddress bm (ipAddress : string) (now : Time) : option (BlacklistEntry R) :=
  match directMatch bm (ipAddressEntries bm) ipAddress now with
  | Some entry => Some entry
  | None => patternMatch (heap bm) now (matchIPPattern ipAddress) (patternsOf bm IPAddressBlacklist)
  end.

Definition matchTopicPattern (topic : string) entry : bool :=
  if matchMQTTTopicFilter topic (E_Value entry) then true else regexMatch topic entry.

(** The action ("publish", "subscribe") is not looked at. *)
Definition checkTopic bm (topic action : string) (now : Time) : option (BlacklistEntry R) :=
  match directMatch bm (topicEntries bm) topic now with
  | Some entry => Some entry
  | None => patternMatch (heap bm) now (matchTopicPattern topic) (patternsOf bm TopicBlacklist)
  end.

Definition block (now : Time) (type value : string) (clientInfo : ClientInfo) entry
    : BlacklistBlock :=
  mkBlacklistBlock now type value (E_Action entry) (E_ID entry) clientInfo (E_Reason entry).

(** Allowed, or blocked by an entry with the block to record. *)
Definition CheckClientConnection bm (clientInfo : ClientInfo) (now : Time)
    : option (BlacklistEntry R * BlacklistBlock) :=
  match checkClientID bm (CI_ClientID clientInfo) now with
  | Some entry =>
      Some (entry, block now ClientIDBlacklist (CI_ClientID clientInfo) clientInfo entry)
  | None =>
      match checkUsername bm (CI_Username clientInfo) now with
      | Some entry =>
          Some (entry, block now UsernameBlacklist (CI_Username clientInfo) clientInfo entry)
      | None =>
          match checkIPAddress bm (CI_IPAddress clientInfo) now with
          | Some entry =>
              Some (entry, block now IPAddressBlacklist (CI_IPAddress clientInfo) clientInfo entry)
          | None => None
          end
      end
  end.

Definition CheckTopicAccess bm (ta : TopicAccess) (now : Time)
    : option (BlacklistEntry R * BlacklistBlock) :=
  match checkTopic bm (TA_Topic ta) (TA_Action ta) now with
  | Some entry => Some (entry, block now TopicBlacklist (TA_Topic ta) (TA_ClientInfo ta) entry)
  | None => None
  end.

(** The goroutine started by [recordBlock]. *)
Definition recordBlock bm (b : BlacklistBlock) (now : Time) : BlacklistManager R :=
  let s := stats bm in
  let recent := RecentBlocks s ++ [b] in
  set_stats (mkBlacklistStats (TotalEntries s) (EntriesByType s) (EntriesByAction s)
    (TotalBlocks s + 1) (bump 1 (B_Type b) (BlocksByType s))
    (if 100 <? blen recent then tail recent else recent) now) bm.

Definition cleanupOne (now : Time) (id : string) (l : loc) (st : Z * BlacklistManager R)
    : Z * BlacklistManager R :=
  let '(removed, bm) := st in
  match heap bm !! l with
  | None => st
  | Some entry =>
      if expired now (E_ExpiresAt entry) then
        (removed + 1,
         updateStatsOnRemove entry now
           (removeFromTypeIndex entry (set_entries (delete id (entries bm)) bm)))
      else st
  end.

Definition CleanupExpiredEntries bm (now : Time) : Z * BlacklistManager R :=
  go_range (cleanupOne now) (entries bm) (0, bm).
End Manager.

(** ** The middleware (middleware.go) *)

Record MiddlewareConfig := mkMiddlewareConfig {
  EnableClientIDCheck : bool;
  EnableUsernameCheck : bool;
  EnableIPAddressCheck : bool;
  EnableTopicCheck : bool;
  LogBlocks : bool;
  BlockTimeout : Duration;
  MW_CleanupInterval : Duration;
  MaxRecentBlocks : Z;
  DefaultAction : string;
  UnknownClientAction : string;
}.

Definition DefaultMiddlewareConfig : MiddlewareConfig :=
  mkMiddlewareConfig true true true true true (Hour * 24) Hour 1000 ActionDeny ActionLog.

Record BlacklistMiddleware (R : Type) := mkBlacklistMiddleware {
  manager : option (BlacklistManager R);
  mw_config : MiddlewareConfig;
}.
Arguments mkBlacklistMiddleware {_} _ _.
Arguments manager {_} _.
Arguments mw_config {_} _.

Definition NewBlacklistMiddleware {R} (m : option (BlacklistManager R))
    (config : option MiddlewareConfig) : BlacklistMiddleware R :=
  mkBlacklistMiddleware m (default DefaultMiddlewareConfig config).

Inductive ImportError :=
  | ValidationFailed (id : string) | AlreadyExists (id : string)
  | UpdateFailed (id : string) (e : BlacklistError) | AddFailed (id : string) (e : BlacklistError).

Section Middleware.
Context {R : Type} (Compile : string → option R) (MatchString : R → string → bool)
  (cidrContains : string → string → bool).
(** [net.ParseIP] and [net.ParseCIDR] succeed; [duration.String()]. *)
Context (validIP validCIDR : string → bool) (durationString : Duration → string).
Implicit Types (mw : BlacklistMiddleware R).

(** Allowed, reason, and the block to record. *)
Definition MW_CheckClientConnection mw (clientID username ipAddress protocol : string) (now : Time)
    : bool * string * option BlacklistBlock :=
  match manager mw with
  | None => (true, "", None)
  | Some m =>
      let clientInfo := mkClientInfo clientID username ipAddress protocol now in
      if EnableClientIDCheck (mw_config mw) || EnableUsernameCheck (mw_config mw)
         || EnableIPAddressCheck (mw_config mw) then
        match CheckClientConnection MatchString cidrContains m clientInfo now with
        | Some (entry, b) =>
            (false, "Blocked by " +:+ E_Type entry +:+ " blacklist: " +:+ E_Reason entry, Some b)
        | None => (true, "", None)
        end
      else (true, "", None)
  end.

Definition MW_CheckTopicAccess mw (clientID username ipAddress topic action : string) (now : Time)
    : bool * string * option BlacklistBlock :=
  match manager mw with
  | None => (true, "", None)
  | Some m =>
      if negb (EnableTopicCheck (mw_config mw)) then (true, "", None)
      else
        let ta := mkTopicAccess topic action (mkClientInfo clientID username ipAddress "" 0) in
        match CheckTopicAccess MatchString m ta now with
        | Some (entry, b) =>
            (false, "Topic access blocked by blacklist: " +:+ E_Reason entry, Some b)
        | None => (true, "", None)
        end
  end.

Definition CheckPublishAccess mw (clientID username ipAddress topic : string) (now : Time) :=
  MW_CheckTopicAccess mw clientID username ipAddress topic "publish" now.
Definition CheckSubscribeAccess mw (clientID username ipAddress topic : string) (now : Time) :=
  MW_CheckTopicAccess mw clientID username ipAddress topic "subscribe" now.

Definition set_manager (m : BlacklistManager R) mw : BlacklistMiddleware R :=
  mkBlacklistMiddleware (Some m) (mw_config mw).

(** [None] stands for "blacklist manager not available". *)
Definition AddTemporaryBlock mw (blockType value reason : string) (duration : Duration) (now : Time)
    : option (option BlacklistError) * BlacklistMiddleware R :=
  match manager mw with
  | None => (None, mw)
  | Some m =>
      let entry := mkBlacklistEntry ("temp_" +:+ blockType +:+ "_" +:+ pretty now) blockType value ""
        (DefaultAction (mw_config mw)) reason ("Temporary block for " +:+ durationString duration)
        0 0 (Some (now + duration)) true "middleware"
        (Some {["temporary" := JBool true; "duration" := JString (durationString duration)]}) None in
      let '(err, m) := AddEntry Compile m entry now in (Some err, set_manager m mw)
  end.

Definition BlockClientID mw (clientID reason : string) (duration : Duration) (now : Time) :=
  AddTemporaryBlock mw ClientIDBlacklist clientID reason duration now.
Definition BlockUsername mw (username reason : string) (duration : Duration) (now : Time) :=
  AddTemporaryBlock mw UsernameBlacklist username reason duration now.
Definition BlockIPAddress mw (ipAddress reason : string) (duration : Duration) (now : Time) :=
  AddTemporaryBlock mw IPAddressBlacklist ipAddress reason duration now.
Definition BlockTopic mw (topic reason : string) (duration : Duration) (now : Time) :=
  AddTemporaryBlock mw TopicBlacklist topic reason duration now.

Definition UpdateConfig mw (config : option MiddlewareConfig) : BlacklistMiddleware R :=
  match config with
  | Some c => mkBlacklistMiddleware (manager mw) c
  | None => mw
  end.

Definition MW_IsEnabled mw : bool :=
  match manager mw with
  | None => false
  | Some _ => EnableClientIDCheck (mw_config mw) || EnableUsernameCheck (mw_config mw)
              || EnableIPAddressCheck (mw_config mw) || EnableTopicCheck (mw_config mw)
  end.

(** [None] is a valid entry; a nil entry is [ValidateEntry]'s first error. *)
Definition MW_ValidateEntry (entry : option (BlacklistEntry R)) : bool :=
  match entry with
  | None => false
  | Some entry =>
      if (E_Type entry =s IPAddressBlacklist) && (E_Value entry <>s "")
         && negb (validIP (E_Value entry)) && negb (validCIDR (E_Value entry)) then false
      else if (E_Type entry =s TopicBlacklist) && (E_Value entry =s "") && (E_Pattern entry =s "")
      then false
      else true
  end.

Definition ExportBlacklist mw (now : Time) : list (BlacklistEntry R) :=
  match manager mw with None => [] | Some m => ListEntries m "" None now end.

(** One entry of the import loop; a nil entry fails validation and is then dereferenced. *)
Definition importOne (overwrite : bool) (now : Time)
    (st : outcome (list ImportError * BlacklistManager R)) (entry : option (BlacklistEntry R))
    : outcome (list ImportError * BlacklistManager R) :=
  let! '(errors, m) := st in
  match entry with
  | None => Panics
  | Some e =>
      if negb (MW_ValidateEntry entry) then Returns (errors ++ [ValidationFailed (E_ID e)], m)
      else
        match GetEntry m (E_ID e) with
        | inl _ =>
            if negb overwrite then Returns (errors ++ [AlreadyExists (E_ID e)], m)
            else
              let '(err, m) := UpdateEntry Compile m (E_ID e) e now in
              Returns (match err with Some x => errors ++ [UpdateFailed (E_ID e) x] | None => errors end, m)
        | inr _ =>
            let '(err, m) := AddEntry Compile m e now in
            Returns (match err with Some x => errors ++ [AddFailed (E_ID e) x] | None => errors end, m)
        end
  end.

Definition ImportBlacklist mw (es : list (option (BlacklistEntry R))) (overwrite : bool) (now : Time)
    : outcome (option (list ImportError) * BlacklistMiddleware R) :=
  match manager mw with
  | None => Returns (None, mw)
  | Some m =>
      let! '(errors, m) := foldl (importOne overwrite now) (Returns ([], m)) es in
      Returns (Some errors, set_manager m mw)
  end.
End Middleware.

(** ** The index invariant *)

Section Invariant.
Context {R : Type}.
Implicit Types (bm : BlacklistManager R) (e : BlacklistEntry R).

(** The direct-lookup map of a type. *)
Definition index_of bm (t : string) : gmap string loc :=
  if t =s ClientIDBlacklist then clientIDEntries bm
  else if t =s UsernameBlacklist then usernameEntries bm
  else if t =s IPAddressBlacklist then ipAddressEntries bm
  else if t =s TopicBlacklist then topicEntries bm
  else ∅.

(** A live entry: filed under its identifier. *)
Definition live bm (l : loc) e : Prop :=
  heap bm !! l = Some e ∧ entries bm !! E_ID e = Some l.

Record wf_blacklist bm : Prop := {
  wf_entries id l : entries bm !! id = Some l → ∃ e, heap bm !! l = Some e ∧ E_ID e = id;
  wf_index t v l : index_of bm t !! v = Some l →
    ∃ e, live bm l e ∧ E_Type e = t ∧ E_Value e = v ∧ E_Pattern e = "";
  wf_patterns t l : l ∈ patternsOf bm t → ∃ e, live bm l e ∧ E_Type e = t ∧ E_Pattern e ≠ "";
  wf_nodup t : NoDup (patternsOf bm t);
}.

(** No index refers to the location. *)
Definition unindexed bm (l : loc) : Prop :=
  (∀ t v, index_of bm t !! v ≠ Some l) ∧ (∀ t, l ∉ patternsOf bm t).

Lemma wf_NewBlacklistManager now : wf_blacklist (NewBlacklistManager now).
Proof.
  split.
  - intros id l Hl. simpl in Hl. by rewrite lookup_empty in Hl.
  - intros t v l Hl. unfold index_of in Hl. simpl in Hl.
    by repeat case_match; rewrite lookup_empty in Hl.
  - intros t l Hl. unfold patternsOf in Hl. simpl in Hl. rewrite lookup_empty in Hl.
    by apply not_elem_of_nil in Hl.
  - intros t. unfold patternsOf. simpl. rewrite lookup_empty. constructor.
Qed.

(** Only heap, entries and indexes matter. *)
Lemma wf_set_stats bm s : wf_blacklist bm → wf_blacklist (set_stats s bm).
Proof. intros [H1 H2 H3 H4]. by split. Qed.

Lemma index_of_on_index f t bm t' :
  index_of (on_index f t bm) t' =
  if bool_decide (t = t') && bool_decide (t' ∈ [ClientIDBlacklist; UsernameBlacklist;
                                               IPAddressBlacklist; TopicBlacklist])
  then f (index_of bm t') else index_of bm t'.
Proof.
  unfold index_of, on_index. cbn [clientIDEntries usernameEntries ipAddressEntries topicEntries].
  repeat case_bool_decide; simplify_eq; cbn [andb]; try done; set_solver.
Qed.

Lemma patternsOf_on_index f t bm t' : patternsOf (on_index f t bm) t' = patternsOf bm t'.
Proof. done. Qed.

Lemma index_of_set_patterns p bm t : index_of (set_patterns p bm) t = index_of bm t.
Proof. done. Qed.

Lemma patternsOf_set_patterns ls t bm t' :
  patternsOf (set_patterns (<[t := ls]> (patternEntries bm)) bm) t' =
  if decide (t = t') then ls else patternsOf bm t'.
Proof.
  unfold patternsOf. simpl. case_decide; subst.
  - by rewrite lookup_insert_eq.
  - by rewrite lookup_insert_ne.
Qed.

Lemma removePattern_sublist (h : gmap loc (BlacklistEntry R)) id ls :
  removePattern h id ls `sublist_of` ls.
Proof.
  induction ls as [|l ls IH]; simpl; [constructor|]. case_bool_decide; by constructor.
Qed.

Lemma removePattern_notin bm l e ls :
  wf_blacklist bm → live bm l e → NoDup ls →
  (∀ l', l' ∈ ls → ∃ e', live bm l' e') → l ∉ removePattern (heap bm) (E_ID e) ls.
Proof.
  intros Hw [Hl He] Hnd Hlive. induction ls as [|l' ls IH]; simpl; [apply not_elem_of_nil|].
  apply NoDup_cons in Hnd as [Hl' Hnd]. destruct (Hlive l') as (e' & Hh & Hen); [by left|].
  case_bool_decide as Hid.
  - rewrite Hh in Hid. simpl in Hid. simplify_eq. congruence.
  - intros [->|Hin]%elem_of_cons; [by rewrite Hl in Hid|].
    apply IH; [done| |done]. intros l'' Hl''. apply Hlive. by right.
Qed.

Lemma removeFromTypeIndex_other e bm :
  heap (removeFromTypeIndex e bm) = heap bm ∧ entries (removeFromTypeIndex e bm) = entries bm ∧
  stats (removeFromTypeIndex e bm) = stats bm.
Proof. unfold removeFromTypeIndex. by repeat case_match. Qed.

(** Removing a live entry from its index leaves no index entry for it, and the rest as
    it was. *)
Lemma removeFromTypeIndex_wf bm l e :
  wf_blacklist bm → live bm l e →
  wf_blacklist (removeFromTypeIndex e bm) ∧ unindexed (removeFromTypeIndex e bm) l.
Proof.
  intros Hw Hl. pose proof Hw as [H1 H2 H3 H4].
  unfold removeFromTypeIndex. destruct (E_Pattern e <>s "") eqn:Ep; bool_prop.
  - assert (∀ t v, index_of bm t !! v ≠ Some l) as Hni.
    { intros t v (e' & [Hh _] & _ & _ & Hp)%H2. destruct Hl. simplify_eq. }
    assert (∀ t, t ≠ E_Type e → l ∉ patternsOf bm t) as Hnp.
    { intros t Ht (e' & [Hh _] & <- & _)%H3. destruct Hl. simplify_eq. }
    destruct (patternEntries bm !! E_Type e) as [ls|] eqn:El.
    + assert (patternsOf bm (E_Type e) = ls) as Hls by (unfold patternsOf; by rewrite El).
      pose proof (removePattern_sublist (heap bm) (E_ID e) ls) as Hsub. split; [split|split].
      * done.
      * intros t v l'. rewrite index_of_set_patterns. apply H2.
      * intros t l'. rewrite patternsOf_set_patterns. case_decide; [|by apply H3]. subst t.
        intros Hin. apply (H3 (E_Type e)). rewrite Hls. by eapply elem_of_sublist.
      * intros t. rewrite patternsOf_set_patterns. case_decide; [|by apply H4].
        eapply sublist_NoDup; [|done]. by rewrite <-Hls.
      * intros t v. rewrite index_of_set_patterns. apply Hni.
      * intros t. rewrite patternsOf_set_patterns. case_decide; [|by apply Hnp].
        apply removePattern_notin; [done|done|by rewrite <-Hls|].
        intros l' Hin. rewrite <-Hls in Hin. apply H3 in Hin as (e' & ? & _). eauto.
    + split; [done|]. split; [apply Hni|]. intros t. destruct (decide (t = E_Type e)) as [->|].
      * unfold patternsOf. rewrite El. apply not_elem_of_nil.
      * by apply Hnp.
  - assert (∀ t, l ∉ patternsOf bm t) as Hnp.
    { intros t (e' & [Hh _] & _ & Hp)%H3. destruct Hl. by simplify_eq. }
    split; [split|split].
    + done.
    + intros t v l'. rewrite index_of_on_index. case_match; [|by apply H2].
      intros [_ Hl']%lookup_delete_Some. by apply H2.
    + done.
    + done.
    + intros t v Hv. assert (index_of bm t !! v = Some l) as Hv'.
      { rewrite index_of_on_index in Hv. case_match; [|done].
        by apply lookup_delete_Some in Hv as [_ ?]. }
      destruct (H2 _ _ _ Hv') as (e' & [Hh _] & Ht & Hval & _). destruct Hl. simplify_eq.
      rewrite index_of_on_index in Hv. rewrite (bool_decide_true (P := E_Type e = _)) in Hv by done.
      case_match eqn:Ec; simpl in *; [by rewrite lookup_delete_eq in Hv|]. bool_prop.
      unfold index_of in Hv'. repeat case_bool_decide; [set_solver..|]. by rewrite lookup_empty in Hv'.
    + done.
Qed.

(** Changing the contents of an unindexed entry (not its identifier) is harmless. *)
Lemma set_heap_wf bm l e e' :
  wf_blacklist bm → live bm l e → E_ID e' = E_ID e → unindexed bm l →
  wf_blacklist (set_heap (<[l := e']> (heap bm)) bm) ∧
  live (set_heap (<[l := e']> (heap bm)) bm) l e' ∧
  unindexed (set_heap (<[l := e']> (heap bm)) bm) l.
Proof.
  intros [H1 H2 H3 H4] [Hl He] Hid [Hu1 Hu2]. split; [split|split]; unfold live; simpl.
  - intros id l' Hl'. destruct (decide (l' = l)) as [->|Hne].
    + rewrite lookup_insert_eq. exists e'. split; [done|].
      destruct (H1 _ _ Hl') as (e0 & ? & ?). simplify_eq. done.
    + rewrite lookup_insert_ne by done. by apply H1.
  - intros t v l' Hl'. destruct (H2 t v l' Hl') as (e0 & Hlive & ?). exists e0. split; [|done].
    unfold live in *. simpl. rewrite lookup_insert_ne; [done|]. intros <-. by eapply Hu1.
  - intros t l' Hl'. destruct (H3 t l' Hl') as (e0 & Hlive & ?). exists e0. split; [|done].
    unfold live in *. simpl. rewrite lookup_insert_ne; [done|]. intros <-. by eapply Hu2.
  - done.
  - by rewrite lookup_insert_eq, Hid.
  - done.
Qed.

Lemma addToTypeIndex_wf bm l e :
  wf_blacklist bm → live bm l e → unindexed bm l → wf_blacklist (addToTypeIndex l e bm).
Proof.
  intros [H1 H2 H3 H4] Hl [Hu1 Hu2]. unfold addToTypeIndex.
  destruct (E_Pattern e <>s "") eqn:Ep; bool_prop; fold (patternsOf bm (E_Type e)); split; try done.
  - intros t l'. rewrite patternsOf_set_patterns. case_decide; [|by apply H3]. subst t.
    intros [Hin|Hin]%elem_of_app; [by apply H3|]. apply list_elem_of_singleton in Hin as ->. eauto.
  - intros t. rewrite patternsOf_set_patterns. case_decide; [|by apply H4]. subst t.
    apply NoDup_app. split; [done|]. split; [|apply NoDup_singleton].
    intros l' Hl' ->%list_elem_of_singleton. by eapply Hu2.
  - intros t v l'. rewrite index_of_on_index. case_match eqn:Ec; [|by apply H2]. bool_prop. subst t.
    intros [[<- <-]|[_ Hl']]%lookup_insert_Some; [eauto 10|by apply H2].
Qed.

(** Deleting the identifier of an unindexed entry. *)
Lemma delete_entry_wf bm l e :
  wf_blacklist bm → live bm l e → unindexed bm l →
  wf_blacklist (set_entries (delete (E_ID e) (entries bm)) bm).
Proof.
  intros [H1 H2 H3 H4] [Hl He] [Hu1 Hu2].
  assert (∀ l' e', l' ≠ l → live bm l' e' →
    live (set_entries (delete (E_ID e) (entries bm)) bm) l' e') as Hlive.
  { intros l' e' Hne [Hl' He']. split; [done|]. simpl. rewrite lookup_delete_ne; [done|].
    intros Heq. rewrite Heq in He. congruence. }
  split; try done.
  - simpl. intros id l' [_ Hl']%lookup_delete_Some. by apply H1.
  - intros t v l' Hv. destruct (H2 _ _ _ Hv) as (e' & ? & ?). exists e'. split; [|done].
    apply Hlive; [|done]. intros ->. by eapply Hu1.
  - intros t l' Hv. destruct (H3 _ _ Hv) as (e' & ? & ?). exists e'. split; [|done].
    apply Hlive; [|done]. intros ->. by eapply Hu2.
Qed.
End Invariant.

(** ** Histories *)

Section History.
Context {R : Type} (Compile : string → option R) (MatchString : R → string → bool)
  (cidrContains : string → string → bool).
Implicit Types (bm : BlacklistManager R) (e : BlacklistEntry R).

Lemma AddEntry_wf bm e now : wf_blacklist bm → wf_blacklist (AddEntry Compile bm e now).2.
Proof.
  intros Hw. unfold AddEntry. destruct (validateEntry e); [done|].
  destruct (entries bm !! E_ID e) eqn:Een; [done|].
  assert (∀ c, wf_blacklist (updateStatsOnAdd (stamped now c e) now
    (addToTypeIndex (fresh (dom (heap bm))) (stamped now c e)
      (set_entries (<[E_ID e := fresh (dom (heap bm))]> (entries bm))
        (set_heap (<[fresh (dom (heap bm)) := stamped now c e]> (heap bm)) bm))))) as Hs.
  { intros c. set (l := fresh (dom (heap bm))). assert (heap bm !! l = None) as Hfresh
      by (apply not_elem_of_dom, is_fresh).
    set (bm1 := set_entries _ _).
    assert (∀ l' e', live bm l' e' → live bm1 l' e') as Hlive.
    { intros l' e' [Hh He]. split; simpl; rewrite lookup_insert_ne; [done|congruence|done|congruence]. }
    assert (wf_blacklist bm1) as Hw1.
    { destruct Hw as [H1 H2 H3 H4]. split; try done.
      - simpl. intros id l' [[<- <-]|[Hne Hl']]%lookup_insert_Some.
        + rewrite lookup_insert_eq. by eexists.
        + destruct (H1 _ _ Hl') as (e' & Hh & Hid). rewrite lookup_insert_ne by congruence. eauto.
      - intros t v l' Hv. destruct (H2 _ _ _ Hv) as (e' & ? & ?). eauto.
      - intros t l' Hv. destruct (H3 _ _ Hv) as (e' & ? & ?). eauto. }
    apply wf_set_stats, addToTypeIndex_wf; [done| |].
    - split; simpl; by rewrite lookup_insert_eq.
    - destruct Hw as [H1 H2 H3 H4]. split.
      + intros t v (e' & [Hh _] & _)%H2. congruence.
      + intros t (e' & [Hh _] & _)%H3. congruence. }
  destruct (E_Pattern e <>s ""); [|apply Hs]. destruct (Compile (E_Pattern e)); [apply Hs|done].
Qed.

Lemma updatedEntry_ID e u now : E_ID (updatedEntry Compile e u now).1 = E_ID e.
Proof. unfold updatedEntry. by repeat case_match. Qed.

Lemma UpdateEntry_wf bm id u now : wf_blacklist bm → wf_blacklist (UpdateEntry Compile bm id u now).2.
Proof.
  intros Hw. unfold UpdateEntry. destruct (entries bm !! id) as [l|] eqn:Eid; [|done].
  destruct (wf_entries _ Hw _ _ Eid) as (e & He & Hid). rewrite He.
  assert (live bm l e) as Hl by (split; [done|by rewrite Hid]).
  destruct (removeFromTypeIndex_wf bm l e Hw Hl) as [Hw1 Hu1].
  destruct (removeFromTypeIndex_other e bm) as (Hh & Hen & _).
  pose proof (updatedEntry_ID e u now) as Hid'.
  destruct (updatedEntry Compile e u now) as [e' err]. simpl in Hid'.
  destruct (set_heap_wf (removeFromTypeIndex e bm) l e e') as (Hw2 & Hl2 & Hu2);
    [done|split; congruence|done|done|].
  destruct err; [done|]. by apply wf_set_stats, addToTypeIndex_wf.
Qed.

Lemma remove_wf bm l e now :
  wf_blacklist bm → live bm l e →
  wf_blacklist (updateStatsOnRemove e now
    (removeFromTypeIndex e (set_entries (delete (E_ID e) (entries bm)) bm))).
Proof.
  intros Hw Hl. apply wf_set_stats.
  assert (removeFromTypeIndex e (set_entries (delete (E_ID e) (entries bm)) bm) =
    set_entries (delete (E_ID e) (entries (removeFromTypeIndex e bm))) (removeFromTypeIndex e bm)) as ->.
  { destruct (removeFromTypeIndex_other e bm) as (_ & -> & _). unfold removeFromTypeIndex.
    destruct (E_Pattern e <>s ""); [|done]. simpl. by destruct (patternEntries bm !! E_Type e). }
  destruct (removeFromTypeIndex_wf bm l e Hw Hl) as [Hw1 Hu1].
  destruct (removeFromTypeIndex_other e bm) as (Hh & Hen & _). destruct Hl as [Hl He].
  apply (delete_entry_wf _ l); [done|split; congruence|done].
Qed.

Lemma RemoveEntry_wf bm id now : wf_blacklist bm → wf_blacklist (RemoveEntry bm id now).2.
Proof.
  intros Hw. unfold RemoveEntry. destruct (entries bm !! id) as [l|] eqn:Eid; [|done].
  destruct (wf_entries _ Hw _ _ Eid) as (e & He & <-). rewrite He. by apply (remove_wf bm l e).
Qed.

Lemma CleanupExpiredEntries_wf bm now : wf_blacklist bm → wf_blacklist (CleanupExpiredEntries bm now).2.
Proof.
  intros Hw. unfold CleanupExpiredEntries, go_range.
  assert (∀ (l : list (string * loc)) n bm, wf_blacklist bm → NoDup l.*1 →
    (∀ id p, (id, p) ∈ l → entries bm !! id = Some p) →
    wf_blacklist (foldl (λ s kv, cleanupOne now kv.1 kv.2 s) (n, bm) l).2) as Hgen.
  { clear. intros l. induction l as [|[id p] l IH]; intros n bm Hw Hnd Hl; [done|]. simpl.
    apply NoDup_cons in Hnd as [Hid Hnd]. simpl in Hid.
    assert (∀ id' p', (id', p') ∈ l → id' ≠ id) as Hne.
    { intros id' p' Hin ->. apply Hid. by apply (list_elem_of_fmap_2 fst _ (id, p')). }
    destruct (heap bm !! p) as [e|] eqn:He; [|apply IH; [done..|set_solver]].
    destruct (expired now (E_ExpiresAt e)); [|apply IH; [done..|set_solver]].
    assert (entries bm !! id = Some p) as Hp by (apply Hl; by left).
    destruct (wf_entries _ Hw _ _ Hp) as (e' & He' & Hide). simplify_eq. apply IH; [|done|].
    - apply (remove_wf bm p); [done|]. by split.
    - intros id' p' Hin. simpl.
      destruct (removeFromTypeIndex_other e (set_entries (delete (E_ID e) (entries bm)) bm))
        as (_ & -> & _). simpl.
      rewrite lookup_delete_ne; [apply Hl; by right|]. intros Heq. by eapply Hne. }
  apply Hgen; [done|apply NoDup_fst_map_to_list|]. intros id p. apply elem_of_map_to_list.
Qed.

Inductive bl_op :=
  | BAdd (e : BlacklistEntry R)
  | BUpdate (id : string) (u : BlacklistEntry R)
  | BRemove (id : string)
  | BRecord (b : BlacklistBlock)
  | BCleanup.

Definition bl_step bm (now : Time) (op : bl_op) : BlacklistManager R :=
  match op with
  | BAdd e => (AddEntry Compile bm e now).2
  | BUpdate id u => (UpdateEntry Compile bm id u now).2
  | BRemove id => (RemoveEntry bm id now).2
  | BRecord b => recordBlock bm b now
  | BCleanup => (CleanupExpiredEntries bm now).2
  end.

Definition bl_run (t0 : Time) (ops : list (Time * bl_op)) : BlacklistManager R :=
  foldl (λ bm '(now, op), bl_step bm now op) (NewBlacklistManager t0) ops.

Lemma bl_run_wf t0 ops : wf_blacklist (bl_run t0 ops).
Proof using Compile.
  unfold bl_run. generalize (wf_NewBlacklistManager (R := R) t0). generalize (NewBlacklistManager (R := R) t0).
  induction ops as [|[now op] ops IH]; intros bm Hw; [done|]. apply IH.
  destruct op; [by apply AddEntry_wf|by apply UpdateEntry_wf|by apply RemoveEntry_wf|
    by apply wf_set_stats|by apply CleanupExpiredEntries_wf].
Qed.

Lemma directMatch_live bm t v now e :
  wf_blacklist bm → directMatch bm (index_of bm t) v now = Some e →
  ∃ l, live bm l e ∧ E_Type e = t ∧ E_Value e = v ∧ active now e = true.
Proof.
  intros Hw. unfold directMatch. intros (e' & (l & Hv & Hh)%bind_Some & Ha)%bind_Some.
  case_match; simplify_eq. destruct (wf_index _ Hw _ _ _ Hv) as (e0 & [Hl0 He0] & Ht & Hval & _).
  simplify_eq. exists l. by split_and!.
Qed.

Lemma patternMatch_live bm t now matches e :
  wf_blacklist bm → patternMatch (heap bm) now matches (patternsOf bm t) = Some e →
  ∃ l, live bm l e ∧ E_Type e = t ∧ active now e = true ∧ matches e = true.
Proof.
  intros Hw. assert (∀ ls, (∀ l, l ∈ ls → l ∈ patternsOf bm t) →
    patternMatch (heap bm) now matches ls = Some e →
    ∃ l, live bm l e ∧ E_Type e = t ∧ active now e = true ∧ matches e = true) as Hgen.
  { induction ls as [|l ls IH]; intros Hls; simpl; [done|].
    destruct (heap bm !! l) as [e'|] eqn:Eh; [|by apply IH; intros l' ?; apply Hls; right].
    destruct (active now e' && matches e') eqn:Em; [|by apply IH; intros l' ?; apply Hls; right].
    intros [= ->]. bool_prop. destruct (wf_patterns _ Hw t l) as (e0 & [Hh He] & Ht & _).
    { apply Hls. by left. }
    simplify_eq. exists l. by split_and!. }
  by apply Hgen.
Qed.

Lemma patternMatch_hit bm now matches ls l e :
  l ∈ ls → heap bm !! l = Some e → active now e = true → matches e = true →
  is_Some (patternMatch (heap bm) now matches ls).
Proof.
  intros Hin Hh Ha Hm. induction ls as [|l' ls IH]; [by apply not_elem_of_nil in Hin|]. simpl.
  apply elem_of_cons in Hin as [<-|Hin].
  - rewrite Hh, Ha, Hm. simpl. eauto.
  - destruct (heap bm !! l') as [e'|]; [|by apply IH]. destruct (_ && _); [eauto|by apply IH].
Qed.
End History.

(** ** A block stays *)

(** The history of a client identifier [v] that the entry [e0] at [l] blocks: the entry is
    filed under its identifier and indexed for [v], and no other entry of the list is for
    [v]. *)
Section Guard.
Context {R : Type} (Compile : string → option R).
Implicit Types (bm : BlacklistManager R) (e : BlacklistEntry R).
Context (l : loc) (e0 : BlacklistEntry R) (v : string).

Record guards bm : Prop := {
  g_wf : wf_blacklist bm;
  g_live : live bm l e0;
  g_index : clientIDEntries bm !! v = Some l;
  g_only l' e' : live bm l' e' → l' ≠ l → E_Type e' = ClientIDBlacklist → E_Value e' ≠ v;
}.

(** An operation, at its time, that neither names the entry nor brings in another for [v];
    a clean-up comes before the entry expires. *)
Definition spares (op : Time * bl_op (R := R)) : Prop :=
  match op.2 with
  | BAdd e => E_Type e = ClientIDBlacklist → E_Value e ≠ v
  | BUpdate id u => id ≠ E_ID e0 ∧ E_Value u ≠ v
  | BRemove id => id ≠ E_ID e0
  | BRecord _ => True
  | BCleanup => expired op.1 (E_ExpiresAt e0) = false
  end.

Lemma index_removed e bm :
  (E_Type e = ClientIDBlacklist → E_Value e ≠ v) →
  clientIDEntries (removeFromTypeIndex e bm) !! v = clientIDEntries bm !! v.
Proof.
  intros He. unfold removeFromTypeIndex. destruct (E_Pattern e <>s ""); [by case_match|]. simpl.
  case_bool_decide as Ht; [|done]. by rewrite lookup_delete_ne by (by apply He).
Qed.

Lemma index_added l' e bm :
  (E_Type e = ClientIDBlacklist → E_Value e ≠ v) →
  clientIDEntries (addToTypeIndex l' e bm) !! v = clientIDEntries bm !! v.
Proof.
  intros He. unfold addToTypeIndex. destruct (E_Pattern e <>s ""); [done|]. simpl.
  case_bool_decide as Ht; [|done]. by rewrite lookup_insert_ne by (by apply He).
Qed.

Lemma addToTypeIndex_other l' e bm :
  heap (addToTypeIndex l' e bm) = heap bm ∧ entries (addToTypeIndex l' e bm) = entries bm.
Proof. unfold addToTypeIndex. by case_match. Qed.

Lemma guards_other bm l' e' : guards bm → live bm l' e' → l' ≠ l → E_ID e' ≠ E_ID e0.
Proof. intros [_ [_ H1] _ _] [_ H2] Hne Heq. rewrite Heq in H2. congruence. Qed.

Lemma guards_remove bm l' e' now :
  guards bm → live bm l' e' → l' ≠ l →
  guards (updateStatsOnRemove e' now (removeFromTypeIndex e' (set_entries (delete (E_ID e') (entries bm)) bm))).
Proof.
  intros G Hl' Hne. pose proof (guards_other _ _ _ G Hl' Hne) as Hid. pose proof G as [Hw [Hh He] Hi Ho].
  set (bm1 := set_entries _ bm). destruct (removeFromTypeIndex_other e' bm1) as (Eh & Ee & _).
  split; unfold live; cbn [updateStatsOnRemove set_stats heap entries clientIDEntries]; rewrite ?Eh, ?Ee.
  - by apply (remove_wf bm l').
  - simpl. by rewrite lookup_delete_ne.
  - rewrite index_removed; [done|]. by apply (Ho l').
  - intros l2 e2 [Hh2 He2]. simpl in He2. apply lookup_delete_Some in He2 as [_ He2]. by apply Ho.
Qed.

Lemma guards_RemoveEntry bm id now : guards bm → id ≠ E_ID e0 → guards (RemoveEntry bm id now).2.
Proof.
  intros G Hid. unfold RemoveEntry. destruct (entries bm !! id) as [l'|] eqn:El; [|done].
  destruct (wf_entries _ (g_wf _ G) _ _ El) as (e' & He' & <-). rewrite He'.
  apply (guards_remove bm l'); [done|by split|]. intros ->. destruct (g_live _ G). congruence.
Qed.

Lemma guards_AddEntry bm e now :
  guards bm → (E_Type e = ClientIDBlacklist → E_Value e ≠ v) → guards (AddEntry Compile bm e now).2.
Proof.
  intros G Hv. pose proof (AddEntry_wf Compile bm e now (g_wf _ G)) as Hw. pose proof G as [_ [Hh He] Hi Ho].
  unfold AddEntry in *. destruct (validateEntry e); [done|]. destruct (entries bm !! E_ID e) eqn:Een; [done|].
  set (l' := fresh (dom (heap bm))) in *.
  assert (l' ≠ l) as Hne by (intros Heq; apply (is_fresh (dom (heap bm))); fold l'; rewrite Heq; by eapply elem_of_dom_2).
  assert (E_ID e ≠ E_ID e0) as Hid by congruence.
  set (store c := updateStatsOnAdd (stamped now c e) now (addToTypeIndex l' (stamped now c e)
    (set_entries (<[E_ID e := l']> (entries bm)) (set_heap (<[l' := stamped now c e]> (heap bm)) bm)))).
  assert (∀ c, wf_blacklist (store c) → guards (store c)) as Hs.
  { intros c Hwc. destruct (addToTypeIndex_other l' (stamped now c e)
      (set_entries (<[E_ID e := l']> (entries bm)) (set_heap (<[l' := stamped now c e]> (heap bm)) bm))) as [Eh Ee].
    split; [done|..]; unfold store, live; cbn [updateStatsOnAdd set_stats heap entries clientIDEntries];
      rewrite ?Eh, ?Ee; simpl.
    - by rewrite !lookup_insert_ne.
    - rewrite index_added; [done|]. done.
    - intros l2 e2 [Hh2 He2] Hne2. apply lookup_insert_Some in Hh2 as [[<- <-]|[Hne3 Hh2]]; [done|].
      apply lookup_insert_Some in He2 as [[_ <-]|[_ He2]]; [done|]. by apply (Ho l2). }
  destruct (E_Pattern e <>s ""); [|by apply Hs]. destruct (Compile (E_Pattern e)); [by apply Hs|done].
Qed.

Lemma updatedEntry_Type e u now : E_Type (updatedEntry Compile e u now).1 = E_Type e.
Proof. unfold updatedEntry. by repeat case_match. Qed.
Lemma updatedEntry_Value e u now :
  E_Value (updatedEntry Compile e u now).1 = (if E_Value u <>s "" then E_Value u else E_Value e).
Proof. unfold updatedEntry. by repeat case_match. Qed.

Lemma guards_UpdateEntry bm id u now :
  guards bm → id ≠ E_ID e0 → E_Value u ≠ v → guards (UpdateEntry Compile bm id u now).2.
Proof.
  intros G Hid Hu. pose proof (UpdateEntry_wf Compile bm id u now (g_wf _ G)) as Hw. pose proof G as [Hw0 [Hh He] Hi Ho].
  unfold UpdateEntry in *. destruct (entries bm !! id) as [l'|] eqn:El; [|done].
  destruct (wf_entries _ Hw0 _ _ El) as (e' & He' & Hide). rewrite He' in *.
  assert (l' ≠ l) as Hne by (intros ->; congruence).
  assert (E_Type e' = ClientIDBlacklist → E_Value e' ≠ v) as Hv' by (apply (Ho l'); [split; congruence|done]).
  destruct (removeFromTypeIndex_other e' bm) as (Eh & Ee & _).
  pose proof (updatedEntry_ID Compile e' u now) as Hid'. pose proof (updatedEntry_Type e' u now) as Ht'.
  pose proof (updatedEntry_Value e' u now) as Hval'.
  destruct (updatedEntry Compile e' u now) as [e2 err]. simpl in Hid', Ht', Hval'.
  assert (E_Type e2 = ClientIDBlacklist → E_Value e2 ≠ v) as Hv2
    by (intros Ht; rewrite Hval'; case_match; [done|apply Hv'; congruence]).
  set (bm1 := set_heap _ _) in *. destruct (addToTypeIndex_other l' e2 bm1) as [Eh2 Ee2].
  assert (∀ bm2, wf_blacklist bm2 → heap bm2 = heap bm1 → entries bm2 = entries bm1 →
    clientIDEntries bm2 !! v = clientIDEntries bm1 !! v → guards bm2) as Hgen.
  { intros bm2 Hw2 Hh2 He2 Hi2. split; [done|..]; unfold live; rewrite ?Hh2, ?He2, ?Hi2; simpl; rewrite ?Eh, ?Ee.
    - by rewrite lookup_insert_ne.
    - by rewrite index_removed.
    - intros l3 e3 [[[<- <-]|[_ Hh3]]%lookup_insert_Some He3]; [done|]. by apply (Ho l3). }
  destruct err; [by apply Hgen|]. apply Hgen; [done|done|done|]. by apply index_added.
Qed.

Lemma guards_Cleanup bm now :
  guards bm → expired now (E_ExpiresAt e0) = false → guards (CleanupExpiredEntries bm now).2.
Proof.
  intros G Hx. unfold CleanupExpiredEntries, go_range.
  assert (∀ (ls : list (string * loc)) n bm, guards bm → NoDup ls.*1 →
    (∀ id p, (id, p) ∈ ls → entries bm !! id = Some p) →
    guards (foldl (λ s kv, cleanupOne now kv.1 kv.2 s) (n, bm) ls).2) as Hgen.
  { clear bm G. intros ls. induction ls as [|[id p] ls IH]; intros n bm G Hnd Hl; [done|]. simpl.
    apply NoDup_cons in Hnd as [Hid Hnd]. simpl in Hid.
    destruct (wf_entries _ (g_wf _ G) id p) as (e & He & Hide); [apply Hl; by left|]. rewrite He.
    destruct (expired now (E_ExpiresAt e)) eqn:Ex; [|apply IH; [done..|intros id' p' Hin; apply Hl; by right]].
    assert (p ≠ l) as Hne by (intros ->; destruct (g_live _ G); congruence).
    assert (live bm p e) as Hlive by (split; [done|rewrite Hide; apply Hl; by left]).
    subst id. apply IH; [by apply (guards_remove bm p)|done|]. intros id' p' Hin. simpl.
    destruct (removeFromTypeIndex_other e (set_entries (delete (E_ID e) (entries bm)) bm)) as (_ & -> & _).
    simpl. rewrite lookup_delete_ne; [apply Hl; by right|].
    intros Heq. apply Hid. rewrite Heq. by apply (list_elem_of_fmap_2 fst _ (id', p')). }
  apply Hgen; [done|apply NoDup_fst_map_to_list|]. intros id p. apply elem_of_map_to_list.
Qed.

(** The block outlives every history of operations that spare it. *)
Lemma guards_run bm ops :
  guards bm → Forall spares ops → guards (foldl (λ bm '(now, op), bl_step Compile bm now op) bm ops).
Proof.
  intros G Hops. revert bm G. induction Hops as [|[now op] ops Hop Hops IH]; intros bm G; [done|].
  simpl. apply IH. destruct op; unfold spares in Hop; simpl in *.
  - by apply guards_AddEntry.
  - destruct Hop. by apply guards_UpdateEntry.
  - by apply guards_RemoveEntry.
  - destruct G as [Hw ? ? ?]. split; [by apply wf_set_stats|done..].
  - by apply guards_Cleanup.
Qed.

Lemma guards_checkClientID (MatchString : R → string → bool) bm now :
  guards bm → active now e0 = true → checkClientID MatchString bm v now = Some e0.
Proof.
  intros [_ [Hh _] Hi _] Ha. unfold checkClientID, directMatch. rewrite Hi. simpl. rewrite Hh. simpl. by rewrite Ha.
Qed.
End Guard.

(** The three tests a connection is put to. *)
Definition connection_hit {R} (MatchString : R → string → bool) (cidrContains : string → string → bool)
    (ci : ClientInfo) (e : BlacklistEntry R) : Prop :=
  (E_Type e = ClientIDBlacklist ∧
     (E_Value e = CI_ClientID ci ∨ regexMatch MatchString (CI_ClientID ci) e = true)) ∨
  (E_Type e = UsernameBlacklist ∧
     (E_Value e = CI_Username ci ∨ regexMatch MatchString (CI_Username ci) e = true)) ∨
  (E_Type e = IPAddressBlacklist ∧
     (E_Value e = CI_IPAddress ci ∨ matchIPPattern MatchString cidrContains (CI_IPAddress ci) e = true)).

(** C24. Blacklist checks are sound: after any sequence of additions, updates, removals,
    expirations and recorded blocks, a connection is refused only because of an entry
    that is still in the list, enabled and unexpired, of the type in question, and whose
    value is the client's or whose pattern (or CIDR range) matches it; the same for topic
    access, where the entry's value may also match as an MQTT filter. *)
Theorem blacklist_checks_sound {R} (Compile : string → option R) (MatchString : R → string → bool)
    cidrContains t0 ops now :
  let bm := bl_run Compile t0 ops in
  (∀ ci e b, CheckClientConnection MatchString cidrContains bm ci now = Some (e, b) →
     GetEntry bm (E_ID e) = inl e ∧ active now e = true ∧
     connection_hit MatchString cidrContains ci e) ∧
  (∀ ta e b, CheckTopicAccess MatchString bm ta now = Some (e, b) →
     GetEntry bm (E_ID e) = inl e ∧ active now e = true ∧ E_Type e = TopicBlacklist ∧
     (E_Value e = TA_Topic ta ∨ matchTopicPattern MatchString (TA_Topic ta) e = true)).
Proof.
  intros bm. pose proof (bl_run_wf Compile t0 ops) as Hw. fold bm in Hw.
  assert (∀ l e, live bm l e → GetEntry bm (E_ID e) = inl e) as Hget.
  { intros l e [Hh He]. unfold GetEntry. rewrite He. simpl. by rewrite Hh. }
  assert (∀ t v (matches : BlacklistEntry R → bool) e,
    match directMatch bm (index_of bm t) v now with
    | Some e => Some e | None => patternMatch (heap bm) now matches (patternsOf bm t) end = Some e →
    GetEntry bm (E_ID e) = inl e ∧ active now e = true ∧ E_Type e = t ∧
    (E_Value e = v ∨ matches e = true)) as Hcheck.
  { intros t v matches e Hm. destruct (directMatch bm (index_of bm t) v now) eqn:Ed.
    - simplify_eq. apply directMatch_live in Ed as (l & ? & ? & ? & ?); [|done]. split_and!; eauto.
    - apply patternMatch_live in Hm as (l & ? & ? & ? & ?); [|done]. split_and!; eauto. }
  split.
  - intros ci e b. unfold CheckClientConnection, connection_hit.
    destruct (checkClientID _ _ _ _) eqn:E1.
    { intros [= -> _]. apply (Hcheck ClientIDBlacklist) in E1 as (?&?&?&?).
      split; [done|]. split; [done|]. left. by split. }
    destruct (checkUsername _ _ _ _) eqn:E2.
    { intros [= -> _]. apply (Hcheck UsernameBlacklist) in E2 as (?&?&?&?).
      split; [done|]. split; [done|]. right; left. by split. }
    destruct (checkIPAddress _ _ _ _ _) eqn:E3; [|done].
    intros [= -> _]. apply (Hcheck IPAddressBlacklist) in E3 as (?&?&?&?).
    split; [done|]. split; [done|]. right; right. by split.
  - intros ta e b. unfold CheckTopicAccess. destruct (checkTopic _ _ _ _ _) eqn:E1; [|done].
    intros [= -> _]. by apply (Hcheck TopicBlacklist) in E1.
Qed.

Definition bl_entry (id type value : string) : BlacklistEntry unit :=
  mkBlacklistEntry id type value "" ActionDeny "r" "" 0 0 None true "" None None.

Lemma blacklist_checks_sound_witness :
  let bm := bl_run (λ _, Some tt) 0 [(1, BAdd (bl_entry "1" ClientIDBlacklist "evil"))] in
  ∃ e, GetEntry bm "1" = inl e ∧ active 5 e = true.
Proof.
  intros bm.
  destruct (CheckClientConnection (λ _ _, false) (λ _ _, false) bm
    (mkClientInfo "evil" "" "" "mqtt" 5) 5) as [[e b]|] eqn:E; [|discriminate E].
  destruct (proj1 (blacklist_checks_sound (λ _, Some tt) (λ _ _, false) (λ _ _, false) 0
    [(1, BAdd (bl_entry "1" ClientIDBlacklist "evil"))] 5) _ e b E) as (Hg & Ha & _).
  exists e. split; [|exact Ha]. injection E as <- _. exact Hg.
Defined.

(** An entry for a client identifier, and what adding it does. *)
Definition clientid_entry {R} (id v : string) : BlacklistEntry R :=
  mkBlacklistEntry id ClientIDBlacklist v "" ActionDeny "" "" 0 0 None true "" None None.

Lemma AddEntry_clientid {R} (Compile : string → option R) bm id v now :
  id ≠ "" → v ≠ "" → entries bm !! id = None →
  ∃ s, AddEntry Compile bm (clientid_entry id v) now =
    let l := fresh (dom (heap bm)) in
    (None, mkBlacklistManager (<[l := stamped now None (clientid_entry id v)]> (heap bm))
       (<[id := l]> (entries bm)) (<[v := l]> (clientIDEntries bm)) (usernameEntries bm)
       (ipAddressEntries bm) (topicEntries bm) (patternEntries bm) s).
Proof.
  intros Hid Hv Hen. unfold AddEntry, validateEntry, clientid_entry. cbn [E_ID E_Value E_Type E_Action
    E_Pattern compiledPattern]. rewrite (bool_decide_false (P := id = "")) by done.
  rewrite (bool_decide_false (P := v = "")) by done. rewrite Hen. by eexists.
Qed.

(** The value indexes lose entries: when two entries blacklist the same client identifier
    and the newer one is removed, the older one is still in the list, enabled and
    unexpired, and yet a client with that identifier is no longer refused. *)
Theorem removal_unblocks_duplicate {R} (Compile : string → option R) MatchString cidrContains v idA idB :
  v ≠ "" → idA ≠ "" → idB ≠ "" → idA ≠ idB →
  let bm := bl_run Compile 0 [(1, BAdd (clientid_entry idA v)); (2, BAdd (clientid_entry idB v));
                              (3, BRemove idB)] in
  (∃ e, GetEntry bm idA = inl e ∧ E_Type e = ClientIDBlacklist ∧ E_Value e = v ∧ active 4 e = true) ∧
  CheckClientConnection MatchString cidrContains bm (mkClientInfo v "" "" "mqtt" 4) 4 = None.
Proof.
  intros Hv HA HB Hne bm. unfold bm, bl_run. cbn [foldl bl_step].
  destruct (AddEntry_clientid Compile (NewBlacklistManager 0) idA v 1) as [s1 ->]; [done..|].
  cbn [snd]. match goal with |- context [AddEntry Compile ?b _ 2] =>
    destruct (AddEntry_clientid Compile b idB v 2) as [s2 ->]; [done|done|simpl; by rewrite lookup_insert_ne|] end.
  unfold RemoveEntry. simpl. rewrite !lookup_insert_eq.
  unfold removeFromTypeIndex. simpl. split.
  - unfold GetEntry. simpl. rewrite lookup_delete_ne, lookup_insert_ne, lookup_insert_eq by done. simpl.
    eexists. split_and!; reflexivity.
  - unfold CheckClientConnection, checkClientID, checkUsername, checkIPAddress, directMatch, patternsOf.
    simpl. by rewrite lookup_delete_eq, !lookup_empty.
Qed.

Lemma removal_unblocks_duplicate_witness :
  let bm := bl_run (λ _, None : option unit) 0
    [(1, BAdd (clientid_entry "A" "evil")); (2, BAdd (clientid_entry "B" "evil")); (3, BRemove "B")] in
  CheckClientConnection (λ _ _, false) (λ _ _, false) bm (mkClientInfo "evil" "" "" "mqtt" 4) 4 = None.
Proof.
  intros bm.
  refine (proj2 (removal_unblocks_duplicate (λ _, None) (λ _ _, false) (λ _ _, false) "evil" "A" "B"
    _ _ _ _)); discriminate.
Defined.
