(* ===== verification/Cluster.v ===== *)
(** * Cluster: peers, remote routes and forwarding (pkg/cluster)

    Each node keeps the routes its peers announced and forwards publishes to them.  Remote
    calls go out through gRPC clients from goroutines; an operation answers the calls it
    starts.  Connecting to a peer takes several steps with remote answers in between,
    which are arguments. *)

From S2P Require Import Prelude GoLib.
Local Open Scope emqx_scope.

(** ** Messages (the fields of the protocol buffers the code uses) *)

Record Route := mkRoute { Route_Topic : string; Route_NodeIds : list string }.
Record BatchUpdateRoutesRequest := mkBatchUpdateRoutesRequest {
  BU_Routes : list Route; BU_OpType : string; BU_FromNode : string }.
Record PublishForward := mkPublishForward {
  PF_Topic : string; PF_Payload : list byte; PF_FromNode : string }.
Record NodeInfo := mkNodeInfo { NodeId : string; Node_Address : string; Node_Version : string }.
Record JoinRequest := mkJoinRequest { JR_Node : NodeInfo; JR_Timestamp : Z }.
Record JoinResponse := mkJoinResponse {
  JR_Success : bool; JR_ClusterId : string; JR_Message : string; JR_ClusterNodes : list string }.

(** ** The manager (manager.go) *)

(** A connected client of a peer. *)
Record Client := mkClient { Client_NodeID : string; Client_address : string }.

Record Manager := mkManager {
  NodeID : string;
  NodeAddress : string;
  peers : gmap string Client;
  remoteRoutes : gmap string (list string);
}.

Definition NewManager (nodeID nodeAddress : string) : Manager := mkManager nodeID nodeAddress ∅ ∅.

(** The calls that goroutines make to peers. *)
Inductive PeerCall :=
  | CallBatchUpdateRoutes (peer : string) (req : BatchUpdateRoutesRequest)
  | CallForwardPublish (peer : string) (req : PublishForward).

Definition joinRequest (m : Manager) (now : Time) : JoinRequest :=
  mkJoinRequest (mkNodeInfo (NodeID m) (NodeAddress m) "0.1.0-poc") (now / Second).

(** [connectOk]: whether the dial succeeds; [join]: the answer to the join request;
    [others]: what other goroutines do to the manager meanwhile. *)
Definition AddPeer (m : Manager) (peerID address : string) (connectOk : bool)
    (join : option JoinResponse) (others : Manager → Manager) : Manager :=
  match peers m !! peerID with
  | Some _ => m
  | None =>
      let m := others m in
      let client := mkClient (NodeID m) address in
      if negb connectOk then m
      else
        match join with
        | None => m
        | Some resp =>
            if JR_Success resp then
              mkManager (NodeID m) (NodeAddress m) (<[peerID := client]> (peers m)) (remoteRoutes m)
            else m
        end
  end.

Definition BroadcastRouteUpdate (m : Manager) (routes : list Route) : list PeerCall :=
  let req := mkBatchUpdateRoutesRequest routes "add" (NodeID m) in
  (λ '(id, _), CallBatchUpdateRoutes id req) <$> map_to_list (peers m).

Definition AddRemoteRoute (m : Manager) (topic nodeID : string) : Manager :=
  let nodes := default [] (remoteRoutes m !! topic) in
  if existsb (λ existing, existing =s nodeID) nodes then m
  else mkManager (NodeID m) (NodeAddress m) (peers m)
         (<[topic := nodes ++ [nodeID]]> (remoteRoutes m)).

Definition GetRemoteSubscribers (m : Manager) (topic : string) : list string :=
  default [] (remoteRoutes m !! topic).

Definition ForwardPublish (m : Manager) (topic : string) (payload : list byte) (nodeID : string)
    : list PeerCall :=
  match peers m !! nodeID with
  | None => []
  | Some _ => [CallForwardPublish nodeID (mkPublishForward topic payload (NodeID m))]
  end.

(** ** The server (server.go) *)

(** [Join] answers at once and starts [AddPeer] for the joining node. *)
Definition Server_Join (serverNodeID : string) (req : JoinRequest) : JoinResponse * (string * string) :=
  (mkJoinResponse true "cluster-1" "Welcome to the cluster!" [serverNodeID],
   (NodeId (JR_Node req), Node_Address (JR_Node req))).

(** The operation type of the request is not looked at. *)
Definition Server_BatchUpdateRoutes (m : Manager) (req : BatchUpdateRoutesRequest) : Manager :=
  foldl (λ m route, foldl (λ m nodeID, AddRemoteRoute m (Route_Topic route) nodeID) m (Route_NodeIds route))
    m (BU_Routes req).

(** [ForwardPublish] hands the message to the local publish function, if there is one. *)
Definition Server_ForwardPublish {S} (localPublish : option (string → list byte → S → S))
    (req : PublishForward) (s : S) : S :=
  match localPublish with
  | Some f => f (PF_Topic req) (PF_Payload req) s
  | None => s
  end.

(** ** The route table *)

(** The nodes a sequence of requests announces for a topic. *)
Definition announced (reqs : list BatchUpdateRoutesRequest) (topic : string) : list string :=
  flat_map (λ req, flat_map (λ r, if Route_Topic r =s topic then Route_NodeIds r else [])
                     (BU_Routes req)) reqs.

(** Keep the first occurrence of each node. *)
Definition add_new (nodes : list string) (n : string) : list string :=
  if bool_decide (n ∈ nodes) then nodes else nodes ++ [n].

Lemma existsb_eq_elem nodes n : existsb (λ x, x =s n) nodes = bool_decide (n ∈ nodes).
Proof.
  apply eq_true_iff_eq. rewrite existsb_exists, bool_decide_eq_true, list_elem_of_In. split.
  - intros (x & Hx & ->%bool_decide_eq_true). done.
  - intros Hn. exists n. split; [done|]. by apply bool_decide_eq_true.
Qed.

Lemma GetRemoteSubscribers_add m t n t' :
  GetRemoteSubscribers (AddRemoteRoute m t n) t' =
  if decide (t = t') then add_new (GetRemoteSubscribers m t') n else GetRemoteSubscribers m t'.
Proof.
  unfold AddRemoteRoute, GetRemoteSubscribers, add_new. rewrite existsb_eq_elem.
  case_decide as Ht; [subst t'|]; case_bool_decide; simpl; try done.
  - by rewrite lookup_insert_eq.
  - by rewrite lookup_insert_ne.
Qed.

Lemma add_new_NoDup nodes n : NoDup nodes → NoDup (add_new nodes n).
Proof.
  intros Hn. unfold add_new. case_bool_decide; [done|]. apply NoDup_app.
  split_and!; [done| |apply NoDup_singleton]. intros x Hx ->%list_elem_of_singleton. done.
Qed.

Lemma elem_of_add_new nodes n x : x ∈ add_new nodes n ↔ x ∈ nodes ∨ x = n.
Proof. unfold add_new. case_bool_decide; set_solver. Qed.

Lemma GetRemoteSubscribers_routes m t ns t' :
  GetRemoteSubscribers (foldl (λ m n, AddRemoteRoute m t n) m ns) t' =
  if decide (t = t') then foldl add_new (GetRemoteSubscribers m t') ns
  else GetRemoteSubscribers m t'.
Proof.
  revert m. induction ns as [|n ns IH]; intros m; simpl; [by case_decide|].
  rewrite IH, GetRemoteSubscribers_add. by case_decide.
Qed.

Lemma GetRemoteSubscribers_batch reqs m t :
  GetRemoteSubscribers (foldl Server_BatchUpdateRoutes m reqs) t =
  foldl add_new (GetRemoteSubscribers m t) (announced reqs t).
Proof.
  revert m. induction reqs as [|req reqs IH]; intros m; simpl; [done|].
  rewrite IH, foldl_app. f_equal. unfold Server_BatchUpdateRoutes. clear IH.
  revert m. induction (BU_Routes req) as [|r rs IHr]; intros m; simpl; [done|].
  rewrite IHr, foldl_app, GetRemoteSubscribers_routes. f_equal.
  case_decide; case_bool_decide; done.
Qed.

Lemma foldl_add_new nodes ns :
  NoDup nodes → NoDup (foldl add_new nodes ns) ∧
  ∀ x, x ∈ foldl add_new nodes ns ↔ x ∈ nodes ∨ x ∈ ns.
Proof.
  revert nodes. induction ns as [|n ns IH]; intros nodes Hn; simpl; [set_solver|].
  destruct (IH (add_new nodes n)) as [H1 H2]; [by apply add_new_NoDup|]. split; [done|].
  intros x. rewrite H2, elem_of_add_new. set_solver.
Qed.

Lemma elem_of_announced reqs topic n :
  n ∈ announced reqs topic ↔
  ∃ req r, req ∈ reqs ∧ r ∈ BU_Routes req ∧ Route_Topic r = topic ∧ n ∈ Route_NodeIds r.
Proof.
  unfold announced. rewrite list_elem_of_In, in_flat_map. split.
  - intros (req & Hreq & (r & Hr & Hn)%in_flat_map).
    case_bool_decide; [|done]. exists req, r. by rewrite !list_elem_of_In.
  - intros (req & r & Hreq & Hr & Ht & Hn). exists req.
    rewrite !list_elem_of_In in *. split; [done|]. apply in_flat_map. exists r. split; [done|].
    by rewrite bool_decide_true.
Qed.

(** The route table of a node holds, for each topic string, exactly the nodes that peers
    announced for that very string in all route updates it received, each once, in
    whatever order and however often they arrived; a filter with wildcards is a key like
    any other, so the lookup by topic name never matches it. *)
Theorem route_table_exact nodeID addr reqs topic :
  let m := foldl Server_BatchUpdateRoutes (NewManager nodeID addr) reqs in
  NoDup (GetRemoteSubscribers m topic) ∧
  (∀ n, n ∈ GetRemoteSubscribers m topic ↔
     ∃ req r, req ∈ reqs ∧ r ∈ BU_Routes req ∧ Route_Topic r = topic ∧ n ∈ Route_NodeIds r).
Proof.
  intros m. unfold m. rewrite GetRemoteSubscribers_batch.
  destruct (foldl_add_new (GetRemoteSubscribers (NewManager nodeID addr) topic) (announced reqs topic))
    as [Hnd Hin].
  { unfold GetRemoteSubscribers. simpl. rewrite lookup_empty. constructor. }
  split; [done|]. intros n. rewrite Hin, elem_of_announced. split; [|by right].
  intros [Hn|Hn]; [|done]. unfold GetRemoteSubscribers in Hn. simpl in Hn.
  rewrite lookup_empty in Hn. by apply not_elem_of_nil in Hn.
Qed.
