(* ===== verification/BrokerState.v ===== *)
(** * BrokerState: the broker's state, effects and message routing (pkg/broker/broker.go)

    The broker composes the components of the other files.  An operation of the broker is
    a state transformer that also lists its effects on the world, in order: messages sent
    to session mailboxes, packets written to the connection it serves, calls to cluster
    peers, hand-overs to the rule and integration engines, and the goroutines it starts
    ([EGo]), which run later as operations of their own ([runTask] of BrokerConn). *)

From S2P Require Import Prelude GoLib TopicMatch Actor TopicStore KVStore Will Persistent Offline.
From S2P Require Import Messages Retainer Session Auth Blacklist Cluster.
Local Open Scope emqx_scope.
Local Open Scope Z_scope.

(** ** Topic aliases of a client *)

Record ClientTopicAliasManager := mkClientTopicAliasManager {
  clientToServerAliases : gmap Z string;
  tam_topicAliasMaximum : Z;
}.

Definition newClientTopicAliasManager (maxAliases : Z) : ClientTopicAliasManager :=
  mkClientTopicAliasManager ∅ maxAliases.

Inductive AliasError := AliasTooLarge (alias max : Z) | AliasUnknown (alias : Z).

Definition resolveTopicAlias (tam : ClientTopicAliasManager) (topicName : string) (alias : Z)
    : (string + AliasError) * ClientTopicAliasManager :=
  if alias =? 0 then (inl topicName, tam)
  else if tam_topicAliasMaximum tam <? alias then
    (inr (AliasTooLarge alias (tam_topicAliasMaximum tam)), tam)
  else if topicName <>s "" then
    (inl topicName, mkClientTopicAliasManager (<[alias := topicName]> (clientToServerAliases tam))
                      (tam_topicAliasMaximum tam))
  else
    match clientToServerAliases tam !! alias with
    | Some resolvedTopic => (inl resolvedTopic, tam)
    | None => (inr (AliasUnknown alias), tam)
    end.

Definition getTopicAliasMaximum (tam : ClientTopicAliasManager) : Z := tam_topicAliasMaximum tam.

(** ** Packets on the wire *)

Inductive PacketType :=
  | TConnect | TConnack | TPublish | TPuback | TPubrec | TPubrel | TPubcomp | TSubscribe | TSuback
  | TUnsubscribe | TUnsuback | TPingreq | TPingresp | TDisconnect | TOther.
#[export] Instance PacketType_eq_dec : EqDecision PacketType.
Proof. solve_decision. Defined.

(** A topic filter of SUBSCRIBE or UNSUBSCRIBE. *)
Record FilterQos := mkFilterQos { F_Filter : string; F_Qos : Z }.

(** The fields of a received packet that the broker reads. *)
Record ConnectFields := mkConnectFields {
  C_ClientIdentifier : string;
  C_Clean : bool;
  C_Keepalive : Z;
  C_UsernameFlag : bool;
  C_PasswordFlag : bool;
  C_Username : list byte;
  C_Password : list byte;
  C_WillFlag : bool;
  C_WillTopic : string;
  C_WillPayload : list byte;
  C_WillQos : Z;
  C_WillRetain : bool;
}.
Record InPacket := mkInPacket {
  I_Type : PacketType;
  I_Qos : Z;
  I_Dup : bool;
  I_Retain : bool;
  I_PacketID : Z;
  I_TopicName : string;
  I_Payload : list byte;
  I_Filters : list FilterQos;
  I_Connect : ConnectFields;
  I_TopicAliasFlag : bool;
  I_TopicAlias : Z;
  I_User : list (string * string);
  I_ResponseTopic : string;
  I_CorrelationData : list byte;
  I_ReasonString : string;
  I_RequestResponseInfo : Z;
}.

(** The fields of a packet that the broker sets before [writePacket]. *)
Record OutPacket := mkOutPacket {
  O_Type : PacketType;
  O_Qos : Z;
  O_PacketID : Z;
  O_ReasonCode : Z;
  O_ReasonCodes : list Z;
  O_TopicAliasMaximum : Z;
  O_ResponseInfo : string;
  O_ProtocolVersion : Z;
}.
Definition response (t : PacketType) (packetID reasonCode : Z) : OutPacket :=
  mkOutPacket t 0 packetID reasonCode [] 0 "" 0.
Definition responseCodes (t : PacketType) (packetID : Z) (codes : list Z) : OutPacket :=
  mkOutPacket t 0 packetID 0 codes 0 "" 0.

(** ** Effects *)

Inductive task :=
  | PostAck (clientID topic : string) (payload : list byte) (qos : Z) (retain : bool)
      (userProperties : gmap string (list byte)) (responseTopic : string) (correlation : list byte)
  | ToConnectors (topic : string) (payload : list byte) (qos : Z)
      (userProperties : gmap string (list byte)) (responseTopic : string) (correlation : list byte)
  | DeliverOffline (clientID : string)
  | SendRetained (mailbox : MailboxPtr) (filters : list FilterQos)
  | RecordBlock (b : BlacklistBlock).

Inductive effect :=
  | ESend (mailbox : MailboxPtr) (msg : SessionMsg)
  | EWrite (pk : OutPacket)
  | ECall (call : PeerCall)
  | ERules (topic : string) (payload : list byte) (qos : Z) (clientID : string)
      (headers : gmap string string)
  | EIntegration (topic : string) (payload : list byte) (qos : Z) (clientID : string)
      (headers : gmap string string)
  | EStartChild (specID : string) (session : Session) (strategy : RestartStrategy)
      (mailbox : MailboxPtr)
  | ECloseConn
  | EGo (t : task).

(** ** The broker *)

(** [offlineCallbacks] are the clients with a delivery callback: the callback is always the
    broker's [deliverOfflineMessage].  [nextMailbox] is the allocator of mailboxes. *)
Record Broker (S R : Type) := mkBroker {
  sessions : MemStore positive;
  topics : TopicStore.Store;
  cluster : option Manager;
  nodeID : string;
  authChain : AuthChain;
  retainer : Retainer;
  persistentSessionMgr : SessionManager S;
  offlineCallbacks : gset string;
  topicAliasManagers : gmap string ClientTopicAliasManager;
  processedQoS1 : gmap string (gmap Z Time);
  blacklistMiddleware : BlacklistMiddleware R;
  hasRuleEngine : bool;
  hasIntegrationEngine : bool;
  nextMailbox : positive;
}.
Arguments mkBroker {_ _} _ _ _ _ _ _ _ _ _ _ _ _ _ _.
Arguments sessions {_ _} _.
Arguments topics {_ _} _.
Arguments cluster {_ _} _.
Arguments nodeID {_ _} _.
Arguments authChain {_ _} _.
Arguments retainer {_ _} _.
Arguments persistentSessionMgr {_ _} _.
Arguments offlineCallbacks {_ _} _.
Arguments topicAliasManagers {_ _} _.
Arguments processedQoS1 {_ _} _.
Arguments blacklistMiddleware {_ _} _.
Arguments hasRuleEngine {_ _} _.
Arguments hasIntegrationEngine {_ _} _.
Arguments nextMailbox {_ _} _.

(** ** The monad: state, effects, and how a call ends *)

Definition BM (B A : Type) : Type := B → outcome (A * B * list effect).

#[export] Instance BM_ret B : MRet (BM B) := λ A a b, Returns (a, b, []).
#[export] Instance BM_bind B : MBind (BM B) := λ A A' k m b,
  let! '(a, b1, e1) := m b in
  let! '(a', b2, e2) := k a b1 in
  Returns (a', b2, e1 ++ e2).

Definition emit {B} (e : effect) : BM B () := λ b, Returns ((), b, [e]).
Definition gets {B A} (f : B → A) : BM B A := λ b, Returns (f b, b, []).
Definition modify {B} (f : B → B) : BM B () := λ b, Returns ((), f b, []).
Definition update {B A} (f : B → A * B) : BM B A := λ b, let '(a, b') := f b in Returns (a, b', []).
Definition when {B} (c : bool) (m : BM B ()) : BM B () := if c then m else mret ().
Fixpoint forM {B A} (l : list A) (f : A → BM B ()) : BM B () :=
  match l with
  | [] => mret ()
  | a :: l' => f a ;; forM l' f
  end.

(** [string(v)] of a byte value: the UTF-8 encoding of that code point. *)
Definition string_of_code (c : byte) : string :=
  let z := Z_of_byte c in
  if z <? 128 then string_of_bytes [c]
  else string_of_bytes [byte_of_Z (192 + z / 64); byte_of_Z (128 + z mod 64)].

Section Broker.
Context {S Data R : Type} `{KVStore S Data, SessionCodec Data}.
Abbreviation B := (Broker S R).
Implicit Types (b : B).

(** The source passes a new MemStore as the store of the session manager. *)
Definition New (nodeID : string) (clusterMgr : option Manager) (store : S) (now : Time) : B :=
  mkBroker NewMemStore NewStore clusterMgr nodeID NewAuthChain
    (Retainer.New (NewMemoryBackend Messages.DefaultConfig) (Some Retainer.DefaultConfig))
    (NewSessionManager store (Some Persistent.DefaultConfig)) ∅ ∅ ∅
    (NewBlacklistMiddleware (Some (NewBlacklistManager now)) (Some DefaultMiddlewareConfig))
    true true 1.

Definition set_sessions (x : MemStore positive) b : B :=
  mkBroker x (topics b) (cluster b) (nodeID b) (authChain b) (retainer b) (persistentSessionMgr b)
    (offlineCallbacks b) (topicAliasManagers b) (processedQoS1 b) (blacklistMiddleware b)
    (hasRuleEngine b) (hasIntegrationEngine b) (nextMailbox b).
Definition set_cluster (x : option Manager) b : B :=
  mkBroker (sessions b) (topics b) x (nodeID b) (authChain b) (retainer b) (persistentSessionMgr b)
    (offlineCallbacks b) (topicAliasManagers b) (processedQoS1 b) (blacklistMiddleware b)
    (hasRuleEngine b) (hasIntegrationEngine b) (nextMailbox b).
Definition set_authChain (x : AuthChain) b : B :=
  mkBroker (sessions b) (topics b) (cluster b) (nodeID b) x (retainer b) (persistentSessionMgr b)
    (offlineCallbacks b) (topicAliasManagers b) (processedQoS1 b) (blacklistMiddleware b)
    (hasRuleEngine b) (hasIntegrationEngine b) (nextMailbox b).
Definition set_topics (x : TopicStore.Store) b : B :=
  mkBroker (sessions b) x (cluster b) (nodeID b) (authChain b) (retainer b) (persistentSessionMgr b)
    (offlineCallbacks b) (topicAliasManagers b) (processedQoS1 b) (blacklistMiddleware b)
    (hasRuleEngine b) (hasIntegrationEngine b) (nextMailbox b).
Definition set_retainer (x : Retainer) b : B :=
  mkBroker (sessions b) (topics b) (cluster b) (nodeID b) (authChain b) x (persistentSessionMgr b)
    (offlineCallbacks b) (topicAliasManagers b) (processedQoS1 b) (blacklistMiddleware b)
    (hasRuleEngine b) (hasIntegrationEngine b) (nextMailbox b).
Definition set_psm (x : SessionManager S) b : B :=
  mkBroker (sessions b) (topics b) (cluster b) (nodeID b) (authChain b) (retainer b) x
    (offlineCallbacks b) (topicAliasManagers b) (processedQoS1 b) (blacklistMiddleware b)
    (hasRuleEngine b) (hasIntegrationEngine b) (nextMailbox b).
Definition set_callbacks (x : gset string) b : B :=
  mkBroker (sessions b) (topics b) (cluster b) (nodeID b) (authChain b) (retainer b)
    (persistentSessionMgr b) x (topicAliasManagers b) (processedQoS1 b) (blacklistMiddleware b)
    (hasRuleEngine b) (hasIntegrationEngine b) (nextMailbox b).
Definition set_aliases (x : gmap string ClientTopicAliasManager) b : B :=
  mkBroker (sessions b) (topics b) (cluster b) (nodeID b) (authChain b) (retainer b)
    (persistentSessionMgr b) (offlineCallbacks b) x (processedQoS1 b) (blacklistMiddleware b)
    (hasRuleEngine b) (hasIntegrationEngine b) (nextMailbox b).
Definition set_processed (x : gmap string (gmap Z Time)) b : B :=
  mkBroker (sessions b) (topics b) (cluster b) (nodeID b) (authChain b) (retainer b)
    (persistentSessionMgr b) (offlineCallbacks b) (topicAliasManagers b) x (blacklistMiddleware b)
    (hasRuleEngine b) (hasIntegrationEngine b) (nextMailbox b).
Definition set_blacklist (x : BlacklistMiddleware R) b : B :=
  mkBroker (sessions b) (topics b) (cluster b) (nodeID b) (authChain b) (retainer b)
    (persistentSessionMgr b) (offlineCallbacks b) (topicAliasManagers b) (processedQoS1 b) x
    (hasRuleEngine b) (hasIntegrationEngine b) (nextMailbox b).
Definition set_nextMailbox (x : positive) b : B :=
  mkBroker (sessions b) (topics b) (cluster b) (nodeID b) (authChain b) (retainer b)
    (persistentSessionMgr b) (offlineCallbacks b) (topicAliasManagers b) (processedQoS1 b)
    (blacklistMiddleware b) (hasRuleEngine b) (hasIntegrationEngine b) x.

(** *** Sessions *)

(** The mailbox of a takeover: the old actor is stopped and its subscriptions removed. *)
Definition registerSession (clientID : string) (protocolVersion : Z) : BM B MailboxPtr :=
  old ← gets (λ b, KVStore.Get (sessions b) clientID);
  (match old with
   | inl oldMailbox =>
       emit (ESend (Some oldMailbox) MStop) ;;
       modify (λ b, set_topics (RemoveAllSubscriptions (topics b) (Some oldMailbox)).2 b) ;;
       modify (λ b, set_sessions (KVStore.Delete (sessions b) clientID).2 b)
   | inr _ => mret ()
   end) ;;
  mb ← gets nextMailbox;
  modify (λ b, set_nextMailbox (Pos.succ mb) b) ;;
  emit (EStartChild ("session-" +:+ clientID)
          (SetProtocolVersion (Session.New clientID) protocolVersion) RestartTransient (Some mb)) ;;
  modify (λ b, set_sessions (KVStore.Set_ (sessions b) clientID mb).2 b) ;;
  mret (Some mb).

Definition unregisterSession (clientID : string) : BM B () :=
  mb ← gets (λ b, KVStore.Get (sessions b) clientID);
  (match mb with
   | inl mailbox => modify (λ b, set_topics (RemoveAllSubscriptions (topics b) (Some mailbox)).2 b)
   | inr _ => mret ()
   end) ;;
  modify (λ b, set_sessions (KVStore.Delete (sessions b) clientID).2 b) ;;
  modify (λ b, set_processed (delete clientID (processedQoS1 b)) b).

Definition qosDuplicateWindow : Duration := 30 * Second.

(** A duplicate refreshes its time stamp; otherwise the identifier is recorded and the
    entries outside the window are dropped. *)
Definition markAndCheckDuplicate b (clientID : string) (packetID : Z) (now : Time) : bool * B :=
  if packetID =? 0 then (false, b)
  else
    let clientMap := default ∅ (processedQoS1 b !! clientID) in
    let recorded := <[packetID := now]> clientMap in
    let store m := set_processed (<[clientID := m]> (processedQoS1 b)) b in
    let isDuplicate :=
      match clientMap !! packetID with
      | Some ts => now - ts <? qosDuplicateWindow
      | None => false
      end in
    if isDuplicate then (true, store recorded)
    else
      (false, store (go_range (range_step (λ _ ts,
                if qosDuplicateWindow <=? now - ts then None else Some ts)) recorded recorded)).

(** *** Routing *)

Definition processMessageThroughRuleEngine (topicName : string) (payload : list byte) (qos : Z)
    (clientID : string) (headers : gmap string string) : BM B () :=
  present ← gets hasRuleEngine;
  when present (emit (ERules topicName payload qos clientID headers)).

Definition processMessageThroughIntegration (topicName : string) (payload : list byte) (qos : Z)
    (clientID : string) (headers : gmap string string) : BM B () :=
  present ← gets hasIntegrationEngine;
  when present (emit (EIntegration topicName payload qos clientID headers)).

(** [topics.GetSubscribers], which panics on a round-robin index out of range. *)
Definition getSubscribers (topicName : string) : BM B (list Subscription) := λ b,
  match GetSubscribers (topics b) topicName with
  | Some (subs, st) => Returns (subs, set_topics st b, [])
  | None => Panics
  end.

(** QoS downgrade: the lower of the publish's and the subscription's QoS. *)
Definition effectiveQoS (publishQoS : Z) (sub : Subscription) : Z :=
  if Sub_QoS sub <? publishQoS then Sub_QoS sub else publishQoS.

Definition RouteToLocalSubscribersWithUserProperties (topicName : string) (payload : list byte)
    (publishQoS : Z) (userProperties : gmap string (list byte)) : BM B () :=
  subscribers ← getSubscribers topicName;
  forM subscribers (λ sub,
    emit (ESend (Sub_Mailbox sub) (MPublish
      (mkPublish topicName payload (effectiveQoS publishQoS sub) false userProperties 0 "" [])))).

(** Only the first byte of a user property becomes the header. *)
Definition headersOf (userProperties : gmap string (list byte)) : gmap string string :=
  go_range (λ k v headers,
    match v with c :: _ => <[k := string_of_code c]> headers | [] => headers end)
    userProperties ∅.

(** One message per mailbox, at the highest effective QoS of its subscriptions. *)
Definition uniqueSubscribers (publishQoS : Z) (subs : list Subscription) : gmap MailboxPtr Z :=
  foldl (λ uniqueSubs sub,
    let q := effectiveQoS publishQoS sub in
    match uniqueSubs !! Sub_Mailbox sub with
    | None => <[Sub_Mailbox sub := q]> uniqueSubs
    | Some current => if current <? q then <[Sub_Mailbox sub := q]> uniqueSubs else uniqueSubs
    end) ∅ subs.

Definition RouteToLocalSubscribersWithRequestResponse (topicName : string) (payload : list byte)
    (publishQoS : Z) (userProperties : gmap string (list byte)) (responseTopic : string)
    (correlationData : list byte) : BM B () :=
  let headers := headersOf userProperties in
  processMessageThroughRuleEngine topicName payload publishQoS "" headers ;;
  processMessageThroughIntegration topicName payload publishQoS "" headers ;;
  subscribers ← getSubscribers topicName;
  forM (map_to_list (uniqueSubscribers publishQoS subscribers)) (λ '(mailbox, qos),
    emit (ESend mailbox (MPublish
      (mkPublish topicName payload qos false userProperties 0 responseTopic correlationData)))).

Definition RouteToLocalSubscribersWithQoS (topicName : string) (payload : list byte)
    (publishQoS : Z) : BM B () :=
  processMessageThroughRuleEngine topicName payload publishQoS "" ∅ ;;
  subscribers ← getSubscribers topicName;
  forM subscribers (λ sub,
    emit (ESend (Sub_Mailbox sub) (MPublish
      (mkPublish topicName payload (effectiveQoS publishQoS sub) false ∅ 0 "" [])))).

Definition RouteToLocalSubscribers (topicName : string) (payload : list byte) : BM B () :=
  RouteToLocalSubscribersWithQoS topicName payload 0.

(** The loop over the remote subscribers, which skips the node itself. *)
Definition forwardToRemote (topicName : string) (payload : list byte) : BM B () :=
  c ← gets cluster;
  self ← gets nodeID;
  match c with
  | None => mret ()
  | Some m =>
      forM (GetRemoteSubscribers m topicName) (λ node,
        if node =s self then mret ()
        else forM (ForwardPublish m topicName payload node) (λ call, emit (ECall call)))
  end.

Definition routePublishWithUserProperties (topicName : string) (payload : list byte)
    (publishQoS : Z) (userProperties : gmap string (list byte)) : BM B () :=
  RouteToLocalSubscribersWithUserProperties topicName payload publishQoS userProperties ;;
  forwardToRemote topicName payload.

Definition routePublishWithRequestResponse (topicName : string) (payload : list byte)
    (publishQoS : Z) (userProperties : gmap string (list byte)) (responseTopic : string)
    (correlationData : list byte) : BM B () :=
  RouteToLocalSubscribersWithRequestResponse topicName payload publishQoS userProperties
    responseTopic correlationData ;;
  forwardToRemote topicName payload.

Definition routePublish (topicName : string) (payload : list byte) (publishQoS : Z) : BM B () :=
  RouteToLocalSubscribersWithQoS topicName payload publishQoS ;;
  forwardToRemote topicName payload.

(** *** Publishing *)

Definition storeRetained (topic : string) (payload : list byte) (qos : Z) (clientID : string)
    (now : Time) : BM B () :=
  modify (λ b, set_retainer (Retainer.StoreRetained (retainer b) topic payload qos clientID now).2 b).

(** Queueing for offline clients; [held] as in Offline. *)
Definition queueForOffline (held : gset string) (topic : string) (payload : list byte) (qos : Z)
    (retain : bool) (now : Time) : BM B () := λ b,
  let! sm := QueueMessageForOfflineClients held (persistentSessionMgr b) topic payload qos retain
               BasicTopicMatcher_Matches now in
  Returns ((), set_psm sm b, []).

Definition processPublishPostAck (clientID resolvedTopic : string) (payload : list byte)
    (publishQoS : Z) (retain : bool) (userProperties : gmap string (list byte))
    (responseTopic : string) (correlationData : list byte) (now : Time) : BM B () :=
  when retain (storeRetained resolvedTopic payload publishQoS clientID now) ;;
  routePublishWithRequestResponse resolvedTopic payload publishQoS userProperties responseTopic
    correlationData ;;
  emit (EGo (ToConnectors resolvedTopic payload publishQoS userProperties responseTopic
               correlationData)) ;;
  queueForOffline ∅ resolvedTopic payload publishQoS retain now.

Definition copyUserProperties (props : gmap string (list byte)) : gmap string (list byte) :=
  go_range (λ k v cloned, <[k := v]> cloned) props ∅.

(** The broker's will publisher; [held] are the session locks of the caller. *)
Definition publishWill (held : gset string) (willMsg : WillMessage) (clientID : string)
    (now : Time) : BM B () :=
  when (Will_Retain willMsg)
    (storeRetained (Will_Topic willMsg) (Will_Payload willMsg) (Will_QoS willMsg) clientID now) ;;
  routePublish (Will_Topic willMsg) (Will_Payload willMsg) (Will_QoS willMsg) ;;
  queueForOffline held (Will_Topic willMsg) (Will_Payload willMsg) (Will_QoS willMsg)
    (Will_Retain willMsg) now.

(** [DisconnectSession] of the session manager with the broker's publisher, on the broker
    and the effects so far. *)
Definition disconnectSession (clientID : string) (graceful : bool) (now : Time)
    : BM B (option SMError) := λ b,
  let! '(err, (b', effs)) :=
    DisconnectSession (W := B * list effect) (λ w, persistentSessionMgr w.1)
      (λ sm w, (set_psm sm w.1, w.2))
      (λ held msg c w,
         let! '(_, b1, e1) := publishWill held msg c now w.1 in Returns (b1, w.2 ++ e1))
      (b, []) clientID graceful now in
  Returns (err, b', effs).

(** A will timer that fires publishes outside any session lock. *)
Definition willTimerFires (timerID : string) (now : Time) : BM B () := λ b,
  match timerFires (willManager (persistentSessionMgr b)) timerID with
  | None => Returns ((), b, [])
  | Some (PublishNow msg c, wmm) =>
      publishWill ∅ msg c now (set_psm (set_wills wmm (persistentSessionMgr b)) b)
  | Some (_, wmm) => Returns ((), set_psm (set_wills wmm (persistentSessionMgr b)) b, [])
  end.

(** The delivery callback; the session lookup fails for an unknown client. *)
Definition deliverOfflineMessage (clientID topic : string) (payload : list byte) (qos : Z)
    (retain : bool) (w : MemStore positive * list effect)
    : option StoreError * (MemStore positive * list effect) :=
  match KVStore.Get w.1 clientID with
  | inr e => (Some e, w)
  | inl mailbox =>
      (None, (w.1, w.2 ++ [ESend (Some mailbox)
                (MPublish (mkPublish topic payload qos retain ∅ 0 "" []))]))
  end.

Definition offlineManager b : OfflineMessageManager (MemStore positive * list effect) StoreError :=
  mkOfflineMessageManager (gset_to_gmap deliverOfflineMessage (offlineCallbacks b)).

Definition deliverOffline (clientID : string) (clock : nat → Time) : BM B () := λ b,
  let '(_, sm, w) := DeliverOfflineMessages (offlineManager b) (persistentSessionMgr b) clientID
                       clock (sessions b, []) in
  Returns ((), set_psm sm b, w.2).

(** Retained messages for new subscriptions, with the QoS downgrade. *)
Definition sendRetainedMessages (sessionMailbox : MailboxPtr) (filters : list FilterQos)
    (now : Time) : BM B () :=
  match sessionMailbox with
  | None => mret ()
  | Some _ =>
      forM filters (λ filter,
        msgs ← gets (λ b, GetRetainedMessages (retainer b) (F_Filter filter) now);
        forM msgs (λ m,
          emit (ESend sessionMailbox (MPublish
            (mkPublish (RM_Topic m) (RM_Payload m)
               (if F_Qos filter <? RM_QoS m then F_Qos filter else RM_QoS m)
               true ∅ 0 "" [])))))
  end.
End Broker.
