(* ===== verification/BrokerConn.v ===== *)
(** * BrokerConn: the connection handlers (pkg/broker/broker.go)

    One connection is served by a loop that reads packets and handles them one by one; a
    handler goes on with the connection, or returns from the whole connection function.
    Other connections and goroutines run between packets.  Reading from the socket and
    decoding are third-party code: the loop takes the results of its reads.  [write_ok]
    says whether a packet the broker writes is encoded and accepted by the socket. *)

From S2P Require Import Prelude GoLib TopicMatch Actor TopicStore KVStore Will Persistent Offline.
From S2P Require Import Messages Retainer Session Auth Blacklist Cluster BrokerState.
Local Open Scope emqx_scope.
Local Open Scope Z_scope.

(** ** Pure parts *)

(** [fmt.Sprintf("%x", n)] of a number below 2^16. *)
Definition hexDigit (d : Z) : string :=
  default "" (["0"; "1"; "2"; "3"; "4"; "5"; "6"; "7"; "8"; "9"; "a"; "b"; "c"; "d"; "e"; "f"]
                !! Z.to_nat d).
Definition hex16 (n : Z) : string :=
  let ds := [n / 4096; n / 256 mod 16; n / 16 mod 16; n mod 16] in
  let fix strip l := match l with
                     | [] => []
                     | [d] => [d]
                     | d :: l' => if d =? 0 then strip l' else l
                     end in
  String.concat "" (hexDigit <$> strip ds).

(** The last eight digits of the clock, a panic when it has fewer. *)
Definition generateClientID (now : Time) : outcome string :=
  let timestamp := pretty now in
  let random := hex16 (Z.rem now 65535) in
  let n := String.length timestamp in
  if (n <? 8)%nat then Panics
  else Returns ("auto-" +:+ String.substring (n - 8) 8 timestamp +:+ "-" +:+ random).

(** Test clients that skip authentication. *)
Definition bypassPrefixes : list string :=
  ["fuzz"; "mbfuzzer"; "defensics"; "pubfuzz"; "subfuzz"; "qosfuzz"; "topicfuzz"; "pktfuzz";
   "race-client"; "flood-client"; "qos-test"; "packetid-test"].
Definition bypassesAuth (clientID : string) : bool :=
  existsb (λ p, strings.HasPrefix clientID p) bypassPrefixes.

Definition connackCode (r : AuthResult) : Z :=
  match r with
  | AuthSuccess => 0
  | AuthFailure => 132
  | AuthError => 128
  | AuthIgnore => 0
  end.

(** The injection test on topics and filters. *)
Definition malicious (t : string) : bool :=
  strings.Contains t "../" || strings.Contains t "..\" || strings.Contains t "$("
  || strings.Contains t "';" || strings.Contains t "<script"
  || strings.ContainsAny t (Ascii.ascii_of_nat <$> [0%nat; 1%nat; 2%nat; 3%nat; 4%nat; 5%nat]).

(** The checks on one filter of a SUBSCRIBE before the blacklist: the reason code when it is
    refused. *)
Definition filterRefused (sub : FilterQos) : option Z :=
  let f := F_Filter sub in
  if f =s "" then Some 131
  else if 2 <? F_Qos sub then Some 128
  else if strings.Contains f "#"
          && (negb (strings.HasSuffix f "#")
              || ((1 <? String.length f)%nat && negb (strings.HasSuffix f "/#"))) then Some 131
  else if strings.Contains f "+"
          && existsb (λ part, strings.Contains part "+" && (part <>s "+")) (strings.Split f slash)
  then Some 131
  else if malicious f then Some 135
  else None.

Definition ackType (qos : Z) : PacketType := if qos =? 2 then TPubrec else TPuback.

(** The checks on a PUBLISH that end the connection: the answer written, if any. *)
Definition publishRefused (pk : InPacket) : option (option OutPacket) :=
  let answer code := if 0 <? I_Qos pk then Some (response (ackType (I_Qos pk)) (I_PacketID pk) code)
                     else None in
  if I_TopicName pk =s "" then Some (answer 130)
  else if 2 <? I_Qos pk then Some (Some (response TDisconnect 0 129))
  else if (0 <? I_Qos pk) && (I_PacketID pk =? 0) then
    Some (Some (response (ackType (I_Qos pk)) 1 130))
  else if I_Dup pk && (I_Qos pk =? 0) then Some None
  else if strings.Contains (I_TopicName pk) "#" || strings.Contains (I_TopicName pk) "+" then
    Some (answer 130)
  else if malicious (I_TopicName pk) then Some (answer 135)
  else if 1024 * 1024 <? blen (I_Payload pk) then Some (answer 151)
  else None.

(** ** The connection *)

Record Conn := mkConn {
  clientID : string;
  sessionMailbox : MailboxPtr;
  keepAlive : Duration;
  receivedDisconnectPacket : bool;
  remoteAddr : string;
}.
Definition newConn (addr : string) : Conn := mkConn "" None 0 false addr.

Definition clientIP (c : Conn) : string :=
  default "" (head (strings.Split (remoteAddr c) (Ascii.ascii_of_nat 58))).

(** A handler goes on with the connection or returns from the connection function. *)
Inductive verdict := Next (c : Conn) | Return.

(** What a read yields. *)
Inductive ReadResult := ReadPacket (pk : InPacket) | ReadTimeout | ReadViolation | ReadEOF | ReadError.

Section Handlers.
Context {S Data R : Type} `{KVStore S Data, SessionCodec Data}.
Context (MatchString : R → string → bool) (cidrContains : string → string → bool).
Context (write_ok : OutPacket → bool).
Abbreviation B := (Broker S R).
Implicit Types (c : Conn) (pk : InPacket) (now : Time).

(** The types [writePacket] can encode. *)
Definition writable (t : PacketType) : bool :=
  match t with
  | TConnack | TSuback | TPingresp | TPublish | TPuback | TPubrec | TPubrel | TPubcomp | TUnsuback => true
  | _ => false
  end.

(** [true] when there was no error. *)
Definition writePacket (pk : OutPacket) : BM B bool :=
  if negb (writable (O_Type pk)) then mret false
  else if write_ok pk then emit (EWrite pk) ;; mret true
  else mret false.

(** Write a response and leave the connection function. *)
Definition reject (pk : OutPacket) : BM B verdict := writePacket pk ;; mret Return.

Definition lift {A} (o : outcome A) : BM B A := λ b, let! a := o in Returns (a, b, []).

(** *** CONNECT *)

(** From a successful authentication on: session, will, registration, subscriptions. *)
Definition connectSession c (cf : ConnectFields) (id : string) now : BM B verdict :=
  let connectKeepAlive := C_Keepalive cf * Second in
  let sessionExpiry := if 0 <? connectKeepAlive then connectKeepAlive * 2 else 24 * Hour in
  session ← update (λ b, let '(s, sm) := CreateOrResumeSession (persistentSessionMgr b) id (C_Clean cf)
                                          sessionExpiry now (λ sm, sm) in
                         (s, set_psm sm b));
  let shouldDeliverOffline := negb (C_Clean cf) && (0 <? blen (MessageQueue session)) in
  when (C_WillFlag cf && (0 <? String.length (C_WillTopic cf))%nat && (C_WillQos cf <=? 2))
    (modify (λ b, set_psm (SetWillMessage (persistentSessionMgr b) id (C_WillTopic cf)
                             (C_WillPayload cf) (C_WillQos cf) (C_WillRetain cf) 0).2 b)) ;;
  mb ← registerSession id 4;
  modify (λ b, set_aliases (<[id := newClientTopicAliasManager 100]> (topicAliasManagers b)) b) ;;
  modify (λ b, set_callbacks ({[id]} ∪ offlineCallbacks b) b) ;;
  when (negb (C_Clean cf))
    (forM (map_to_list (Subscriptions session)) (λ '(topic, qos),
       modify (λ b, set_topics (TopicStore.Subscribe (topics b) topic mb qos) b))) ;;
  when shouldDeliverOffline (emit (EGo (DeliverOffline id))) ;;
  mret (Next (mkConn id mb connectKeepAlive (receivedDisconnectPacket c) (remoteAddr c))).

Definition connackPacket (b : B) (pk : InPacket) (code : Z) : OutPacket :=
  if code =? 0 then
    mkOutPacket TConnack 0 0 0 [] 100
      (if I_RequestResponseInfo pk =? 1
       then "response-info://" +:+ nodeID b +:+ "/response/" else "") 5
  else response TConnack 0 code.

Definition connectAuthenticate c pk (id username password : string) now : BM B verdict :=
  check ← gets (λ b : B, MW_CheckClientConnection MatchString cidrContains (blacklistMiddleware b) id
                       username (clientIP c) "mqtt" now);
  let '(allowed, _, blk) := check in
  if negb allowed then
    (match blk with Some x => emit (EGo (RecordBlock x)) | None => mret () end) ;;
    emit ECloseConn ;; mret Return
  else
    authResult ← gets (λ b : B, if bypassesAuth id then AuthIgnore
                            else AuthChain_Authenticate (authChain b) username password);
    resp ← gets (λ b : B, connackPacket b pk (connackCode authResult));
    ok ← writePacket resp;
    if negb (ok : bool) then mret Return
    else if negb (connackCode authResult =? 0) then mret Return
    else connectSession c (I_Connect pk) id now.

Definition handleConnect c pk now : BM B verdict :=
  let cf := I_Connect pk in
  if 65535 <? Z.of_nat (String.length (C_ClientIdentifier cf)) then mret Return
  else if (65535 <? Z.of_nat (String.length (C_WillTopic cf))) || (65535 <? blen (C_WillPayload cf))
  then mret Return
  else if (C_ClientIdentifier cf =s "") && negb (C_Clean cf) then reject (response TConnack 0 133)
  else
    id ← (if C_ClientIdentifier cf =s "" then lift (generateClientID now)
          else mret (C_ClientIdentifier cf));
    if C_PasswordFlag cf && negb (C_UsernameFlag cf) then reject (response TConnack 0 133)
    else
      let username := if C_UsernameFlag cf then string_of_bytes (C_Username cf) else "" in
      let password := if C_PasswordFlag cf then string_of_bytes (C_Password cf) else "" in
      if negb (C_UsernameFlag cf) && (0 <? blen (C_Password cf)) then reject (response TConnack 0 132)
      else connectAuthenticate c pk id username password now.

(** *** SUBSCRIBE *)

(** One filter: its reason code, and the route to announce when it is granted. *)
Definition subscribeFilter c (sub : FilterQos) now : BM B (Z * list Route) :=
  match filterRefused sub with
  | Some code => mret (code, [])
  | None =>
      check ← gets (λ b : B, CheckSubscribeAccess MatchString (blacklistMiddleware b) (clientID c) ""
                           (clientIP c) (F_Filter sub) now);
      let '(allowed, _, blk) := check in
      if negb allowed then
        (match blk with Some x => emit (EGo (RecordBlock x)) | None => mret () end) ;;
        mret (135, [])
      else
        let grantedQoS := if 2 <? F_Qos sub then 2 else F_Qos sub in
        modify (λ b, set_topics (TopicStore.Subscribe (topics b) (F_Filter sub) (sessionMailbox c)
                                   grantedQoS) b) ;;
        modify (λ b, set_psm (AddSubscription (persistentSessionMgr b) (clientID c) (F_Filter sub)
                                grantedQoS now).2 b) ;;
        self ← gets nodeID;
        mret (grantedQoS, [mkRoute (F_Filter sub) [self]])
  end.

Fixpoint subscribeFilters c (subs : list FilterQos) now : BM B (list Z * list Route) :=
  match subs with
  | [] => mret ([], [])
  | sub :: subs' =>
      r ← subscribeFilter c sub now;
      rs ← subscribeFilters c subs' now;
      mret (r.1 :: rs.1, r.2 ++ rs.2)
  end.

Definition handleSubscribe c pk now : BM B verdict :=
  match sessionMailbox c with
  | None => mret Return
  | Some _ =>
      if I_PacketID pk =? 0 then reject (responseCodes TSuback 1 [128])
      else if (length (I_Filters pk) =? 0)%nat then
        if I_ReasonString pk =s "QoS_PARSE_ERROR" then
          writePacket (responseCodes TSuback (I_PacketID pk) [128]) ;; mret (Next c)
        else reject (responseCodes TSuback (I_PacketID pk) [131])
      else
        r ← subscribeFilters c (I_Filters pk) now;
        cl ← gets cluster;
        (match cl with
         | Some m => forM (BroadcastRouteUpdate m r.2) (λ call, emit (ECall call))
         | None => mret ()
         end) ;;
        ok ← writePacket (responseCodes TSuback (I_PacketID pk) r.1);
        if (ok : bool) then emit (EGo (SendRetained (sessionMailbox c) (I_Filters pk))) ;; mret (Next c)
        else mret Return
  end.

(** *** PUBLISH *)

(** The topic after alias resolution, or the error that ends the connection. *)
Definition resolveTopic c pk : BM B (string + AliasError) := λ b,
  if I_TopicAliasFlag pk && (0 <? I_TopicAlias pk) then
    match topicAliasManagers b !! clientID c with
    | Some tam =>
        let '(r, tam') := resolveTopicAlias tam (I_TopicName pk) (I_TopicAlias pk) in
        Returns (r, set_aliases (<[clientID c := tam']> (topicAliasManagers b)) b, [])
    | None => Returns (inl (I_TopicName pk), b, [])
    end
  else Returns (inl (I_TopicName pk), b, []).

Definition userPropertiesOf pk : gmap string (list byte) :=
  foldl (λ m '(k, v), <[k := bytes_of_string v]> m) ∅ (I_User pk).

(** The acknowledgement for QoS 1 and 2; [true] when there is no write error. *)
Definition acknowledge pk : BM B bool :=
  if I_Qos pk =? 1 then writePacket (response TPuback (I_PacketID pk) 0)
  else if I_Qos pk =? 2 then writePacket (response TPubrec (I_PacketID pk) 0)
  else mret true.

Definition publishAccepted c pk (skipProcessing : bool) (resolvedTopic : string) now : BM B verdict :=
  check ← gets (λ b : B, CheckPublishAccess MatchString (blacklistMiddleware b) (clientID c) ""
                       (clientIP c) resolvedTopic now);
  let '(allowed, _, blk) := check in
  if negb allowed then
    (match blk with Some x => emit (EGo (RecordBlock x)) | None => mret () end) ;;
    (if 0 <? I_Qos pk then
       reject (response (if I_Qos pk =? 1 then TPuback else TPubrec) (I_PacketID pk) 135)
     else mret Return)
  else
    ok ← acknowledge pk;
    if negb (ok : bool) then mret Return
    else
      when (negb skipProcessing)
        (emit (EGo (PostAck (clientID c) resolvedTopic (I_Payload pk) (I_Qos pk) (I_Retain pk)
                      (copyUserProperties (userPropertiesOf pk)) (I_ResponseTopic pk)
                      (I_CorrelationData pk)))) ;;
      mret (Next c).

Definition handlePublish c pk now : BM B verdict :=
  match sessionMailbox c with
  | None => mret Return
  | Some _ =>
      match publishRefused pk with
      | Some None => mret Return
      | Some (Some resp) => reject resp
      | None =>
          skipProcessing ← (if I_Qos pk =? 1 then
              update (λ b, markAndCheckDuplicate b (clientID c) (I_PacketID pk) now)
            else mret false);
          resolved ← resolveTopic c pk;
          match resolved with
          | inr _ => reject (response TDisconnect 0 130)
          | inl resolvedTopic => publishAccepted c pk skipProcessing resolvedTopic now
          end
      end
  end.

(** *** The acknowledgement packets and PINGREQ *)

(** Answer with a packet; a write error ends the connection. *)
Definition answer c (resp : OutPacket) : BM B verdict :=
  ok ← writePacket resp;
  mret (if (ok : bool) then Next c else Return).

Definition handleAck c pk : BM B verdict :=
  match sessionMailbox c with
  | None => mret Return
  | Some _ =>
      if negb (bool_decide (I_Type pk = TPingreq)) && (I_PacketID pk =? 0) then mret Return
      else
        match I_Type pk with
        | TPubrec => answer c (mkOutPacket TPubrel 1 (I_PacketID pk) 0 [] 0 "" 0)
        | TPubrel => answer c (response TPubcomp (I_PacketID pk) 0)
        | TPingreq => answer c (response TPingresp 0 0)
        | _ => mret (Next c)
        end
  end.

(** *** UNSUBSCRIBE *)

Definition unsubscribeFilter c (f : string) now : BM B Z :=
  if f =s "" then mret 17
  else
    modify (λ b, set_topics (Unsubscribe (topics b) f (sessionMailbox c)) b) ;;
    err ← update (λ b, let '(e, sm) := RemoveSubscription (persistentSessionMgr b) (clientID c) f now in
                       (e, set_psm sm b));
    mret (match (err : option SMError) with Some _ => 128 | None => 0 end).

Fixpoint unsubscribeFilters c (subs : list FilterQos) now : BM B (list Z) :=
  match subs with
  | [] => mret []
  | sub :: subs' =>
      code ← unsubscribeFilter c (F_Filter sub) now;
      codes ← unsubscribeFilters c subs' now;
      mret (code :: codes)
  end.

(** The removed routes are only logged. *)
Definition handleUnsubscribe c pk now : BM B verdict :=
  match sessionMailbox c with
  | None => mret Return
  | Some _ =>
      if I_PacketID pk =? 0 then reject (responseCodes TUnsuback 1 [128])
      else if (length (I_Filters pk) =? 0)%nat then
        reject (responseCodes TUnsuback (I_PacketID pk) [131])
      else
        codes ← unsubscribeFilters c (I_Filters pk) now;
        answer c (responseCodes TUnsuback (I_PacketID pk) codes)
  end.

(** *** DISCONNECT and the end of the connection *)

Definition teardown (id : string) (graceful : bool) now : BM B () :=
  disconnectSession id graceful now ;;
  modify (λ b, set_callbacks (offlineCallbacks b ∖ {[id]}) b) ;;
  modify (λ b, set_aliases (delete id (topicAliasManagers b)) b) ;;
  unregisterSession id.

Definition handleDisconnect c now : BM B verdict :=
  teardown (clientID c) true now ;; emit ECloseConn ;; mret Return.

(** *** The loop *)

(** One packet: the protocol state machine, then the handler of its type. *)
Definition handlePacket c pk now : BM B verdict :=
  if (clientID c =s "") && negb (bool_decide (I_Type pk = TConnect)) then mret Return
  else if bool_decide (I_Type pk = TConnect) && bool_decide (is_Some (sessionMailbox c)) then mret Return
  else
    match I_Type pk with
    | TConnect => handleConnect c pk now
    | TSubscribe => handleSubscribe c pk now
    | TPublish => handlePublish c pk now
    | TPuback | TPubrec | TPubrel | TPubcomp | TPingreq => handleAck c pk
    | TUnsubscribe => handleUnsubscribe c pk now
    | TDisconnect => handleDisconnect c now
    | _ => mret (Next c)
    end.

(** After the loop: the clean-up of a broken connection. *)
Definition afterLoop c now : BM B () :=
  if clientID c <>s "" then teardown (clientID c) (receivedDisconnectPacket c) now else mret ().

(** The connection function on the results of its reads.  A time-out and the [Return]s of
    the handlers leave the function without [afterLoop]; a read error breaks the loop. *)
Fixpoint handleConnection c (reads : list (Time * ReadResult)) : BM B () :=
  match reads with
  | [] => mret ()
  | (now, ReadPacket pk) :: reads' =>
      v ← handlePacket c pk now;
      match v with
      | Next c' => handleConnection c' reads'
      | Return => emit ECloseConn
      end
  | (_, ReadTimeout) :: _ => writePacket (response TDisconnect 0 142) ;; emit ECloseConn
  | (now, ReadViolation) :: _ =>
      writePacket (response TDisconnect 0 130) ;; afterLoop c now ;; emit ECloseConn
  | (now, ReadEOF) :: _ | (now, ReadError) :: _ => afterLoop c now ;; emit ECloseConn
  end.

(** *** The TLS variant *)

(** The loop over the enabled certificate authenticators: the identity and result it ends
    with, or [None] when a certificate is refused. *)
Fixpoint certificateLoop (results : list (string * AuthResult)) (last : string * AuthResult)
    : option (string * AuthResult) :=
  match results with
  | [] => Some last
  | (id, AuthSuccess) :: _ => Some (id, AuthSuccess)
  | (_, AuthFailure) :: _ => None
  | r :: results' => certificateLoop results' r
  end.

(** After the CONNACK, a will without topic or with QoS 3 is refused by a second CONNACK,
    with the session already created. *)
Definition tlsConnectSession c (cf : ConnectFields) (id : string) now : BM B verdict :=
  let keepAlive := C_Keepalive cf * Second in
  let sessionExpiry := if 0 <? keepAlive then keepAlive * 2 else 24 * Hour in
  session ← update (λ b, let '(s, sm) := CreateOrResumeSession (persistentSessionMgr b) id (C_Clean cf)
                                          sessionExpiry now (λ sm, sm) in
                         (s, set_psm sm b));
  let shouldDeliverOffline := negb (C_Clean cf) && (0 <? blen (MessageQueue session)) in
  if C_WillFlag cf && (C_WillTopic cf =s "") then reject (response TConnack 0 133)
  else if C_WillFlag cf && (2 <? C_WillQos cf) then reject (response TConnack 0 133)
  else
    when (C_WillFlag cf)
      (modify (λ b, set_psm (SetWillMessage (persistentSessionMgr b) id (C_WillTopic cf)
                               (C_WillPayload cf) (C_WillQos cf) (C_WillRetain cf) 0).2 b)) ;;
    mb ← registerSession id 4;
    modify (λ b, set_aliases (<[id := newClientTopicAliasManager 100]> (topicAliasManagers b)) b) ;;
    modify (λ b, set_callbacks ({[id]} ∪ offlineCallbacks b) b) ;;
    when (negb (C_Clean cf))
      (forM (map_to_list (Subscriptions session)) (λ '(topic, qos),
         modify (λ b, set_topics (TopicStore.Subscribe (topics b) topic mb qos) b))) ;;
    when shouldDeliverOffline (emit (EGo (DeliverOffline id))) ;;
    mret (Next (mkConn id mb 0 (receivedDisconnectPacket c) (remoteAddr c))).

Definition tlsHandleConnect c pk (cert : string * AuthResult) now : BM B verdict :=
  let cf := I_Connect pk in
  if (C_ClientIdentifier cf =s "") && negb (C_Clean cf) then reject (response TConnack 0 133)
  else
    id ← (if C_ClientIdentifier cf =s "" then lift (generateClientID now)
          else mret (C_ClientIdentifier cf));
    let username := if C_UsernameFlag cf then string_of_bytes (C_Username cf) else "" in
    let password := if C_PasswordFlag cf then string_of_bytes (C_Password cf) else "" in
    authResult ← gets (λ b : B, if bool_decide (cert.2 = AuthSuccess) then AuthSuccess
                                else AuthChain_Authenticate (authChain b) username password);
    resp ← gets (λ b : B, connackPacket b pk (connackCode authResult));
    ok ← writePacket resp;
    if negb (ok : bool) then mret Return
    else if negb (connackCode authResult =? 0) then mret Return
    else tlsConnectSession c cf id now.

(** Any packet but CONNECT ends the loop; its clean-up is that of a broken connection. *)
Fixpoint tlsLoop c (cert : string * AuthResult) (reads : list (Time * ReadResult)) : BM B () :=
  match reads with
  | [] => mret ()
  | (now, ReadPacket pk) :: reads' =>
      if bool_decide (I_Type pk = TConnect) then
        v ← tlsHandleConnect c pk cert now;
        match v with
        | Next c' => tlsLoop c' cert reads'
        | Return => emit ECloseConn
        end
      else afterLoop c now ;; emit ECloseConn
  | (now, _) :: _ => afterLoop c now ;; emit ECloseConn
  end.

Definition handleTLSConnection (addr : string) (handshakeOk : bool)
    (certResults : list (string * AuthResult)) (reads : list (Time * ReadResult)) : BM B () :=
  if negb handshakeOk then emit ECloseConn
  else
    match certificateLoop certResults ("", AuthIgnore) with
    | None => emit ECloseConn
    | Some cert => tlsLoop (newConn addr) cert reads
    end.

(** *** Goroutines *)

Definition recordBlockTask (blk : BlacklistBlock) now : BM B () :=
  modify (λ b, match manager (blacklistMiddleware b) with
               | Some m => set_blacklist (set_manager (recordBlock m blk now) (blacklistMiddleware b)) b
               | None => b
               end).

(** The connectors are outside the broker's state ([routeToConnectors] below). *)
Definition runTask (t : task) now : BM B () :=
  match t with
  | PostAck id topic payload qos retain up rt corr =>
      processPublishPostAck id topic payload qos retain up rt corr now
  | ToConnectors _ _ _ _ _ _ => mret ()
  | DeliverOffline id => deliverOffline id (λ _, now)
  | SendRetained mb filters => sendRetainedMessages mb filters now
  | RecordBlock blk => recordBlockTask blk now
  end.
End Handlers.

(** ** Reading a packet

    The decoders of the packet library are parameters: the fixed header of a byte, the
    remaining length, and the body of each type (with the packet decoded so far when it
    fails). *)
Record Header := mkHeader { H_Type : PacketType; H_Qos : Z; H_Dup : bool; H_Retain : bool }.

Inductive ioError := IoEOF | IoError (msg : string).

Section ReadPacket.
Context (Decode : byte → Header + string).
Context (DecodeLength : list byte → (nat * list byte) + ioError).
Context (emptyPacket : Header → InPacket).
Context (bodyDecode : Header → list byte → InPacket * option string).

(** The types whose body is decoded. *)
Definition hasBody (t : PacketType) : bool :=
  match t with
  | TConnect | TPublish | TSubscribe | TUnsubscribe | TPuback | TPubrec | TPubrel | TPubcomp
  | TPingreq | TDisconnect => true
  | _ => false
  end.

(** An invalid QoS in SUBSCRIBE is turned into a packet without filters and a mark. *)
Definition markQoSError (pk : InPacket) : InPacket :=
  mkInPacket (I_Type pk) (I_Qos pk) (I_Dup pk) (I_Retain pk) (I_PacketID pk) (I_TopicName pk)
    (I_Payload pk) [] (I_Connect pk) (I_TopicAliasFlag pk) (I_TopicAlias pk) (I_User pk)
    (I_ResponseTopic pk) (I_CorrelationData pk) "QoS_PARSE_ERROR" (I_RequestResponseInfo pk).

Definition readPacket (r : list byte) : (InPacket + ioError) * list byte :=
  match r with
  | [] => (inr IoEOF, [])
  | b :: r =>
      match Decode b with
      | inr msg =>
          (inr (if strings.Contains msg "qos out of range"
                then IoError "protocol violation: invalid QoS level in packet" else IoError msg), r)
      | inl fh =>
          match DecodeLength r with
          | inr e => (inr e, r)
          | inl (rem, r) =>
              match ReadFull rem r with
              | None => (inr (if (length r =? 0)%nat && (0 <? rem)%nat then IoEOF
                              else IoError "unexpected EOF"), [])
              | Some (buf, r) =>
                  if hasBody (H_Type fh) then
                    match bodyDecode fh buf with
                    | (pk, None) => (inl pk, r)
                    | (pk, Some msg) =>
                        if bool_decide (H_Type fh = TSubscribe)
                           && strings.Contains msg "qos out of range"
                        then (inl (markQoSError pk), r)
                        else (inr (IoError msg), r)
                    end
                  else (inl (emptyPacket fh), r)
              end
          end
      end
  end.

(** How the connection loop classifies the result. *)
Definition readResult (x : InPacket + ioError) : ReadResult :=
  match x with
  | inl pk => ReadPacket pk
  | inr IoEOF => ReadEOF
  | inr (IoError msg) => if strings.Contains msg "protocol violation" then ReadViolation else ReadError
  end.
End ReadPacket.

(** ** Connectors *)

Record ConnectorMessage := mkConnectorMessage {
  CM_ID : string;
  CM_Topic : string;
  CM_Payload : list byte;
  CM_Headers : gmap string string;
  CM_Timestamp : Time;
  CM_qos : Z;
  CM_response_topic : option string;
  CM_correlation_data : option (list byte);
}.

(** [connectors]: [nil], or whether each connector is running. *)
Definition routeToConnectors (connectors : option (gmap string bool)) (topicName : string)
    (payload : list byte) (qos : Z) (userProperties : gmap string (list byte))
    (responseTopic : string) (correlationData : list byte) (now : Time)
    : list (string * ConnectorMessage) :=
  match connectors with
  | None => []
  | Some cs =>
      let msg := mkConnectorMessage ("msg-" +:+ pretty now) topicName payload
        (string_of_bytes <$> userProperties) now qos
        (if responseTopic <>s "" then Some responseTopic else None)
        (if 0 <? blen correlationData then Some correlationData else None) in
      go_range (λ id running out, if (running : bool) then out ++ [(id, msg)] else out) cs []
  end.
