(* ===== verification/BrokerProps.v ===== *)
(** * BrokerProps: theorems about the broker

    Reasoning rules for broker operations, the invariant of the composed system under any
    interleaving of packets and goroutines, and the behaviour of routing, of the protocol
    state machine and of the ends of a connection. *)

From S2P Require Import Prelude GoLib TopicMatch Actor TopicStore KVStore Will Persistent Offline.
From S2P Require Import Messages Retainer Session Auth Blacklist Cluster BrokerState BrokerConn.
Local Open Scope emqx_scope.
Local Open Scope Z_scope.

(** ** Safety of an operation

    From a state with [P], the operation does not panic, and a state it returns has [P]. *)
Definition safe {B A} (P : B → Prop) (m : BM B A) : Prop :=
  ∀ b, P b → match m b with Returns (_, b', _) => P b' | Panics => False | Blocks => True end.

Section safe.
Context {B : Type} (P : B → Prop).

Lemma safe_no_panic {A} (m : BM B A) b : safe P m → P b → m b ≠ Panics.
Proof. intros Hm Hb Hp. specialize (Hm b Hb). by rewrite Hp in Hm. Qed.
Lemma safe_ret {A} (a : A) : safe P (mret a).
Proof. by intros b Hb. Qed.
Lemma safe_bind {A A'} (m : BM B A) (k : A → BM B A') :
  safe P m → (∀ a, safe P (k a)) → safe P (m ≫= k).
Proof.
  intros Hm Hk b Hb. specialize (Hm b Hb). unfold mbind, BM_bind.
  destruct (m b) as [[[a b1] e1]| |]; simpl; [|done..]. specialize (Hk a b1 Hm).
  by destruct (k a b1) as [[[a' b2] e2]| |].
Qed.
Lemma safe_emit e : safe P (emit e).
Proof. by intros b Hb. Qed.
Lemma safe_gets {A} (f : B → A) : safe P (gets f).
Proof. by intros b Hb. Qed.
Lemma safe_modify (f : B → B) : (∀ b, P b → P (f b)) → safe P (modify f).
Proof. intros Hf b Hb. by apply Hf. Qed.
Lemma safe_update {A} (f : B → A * B) : (∀ b, P b → P (f b).2) → safe P (update f).
Proof. intros Hf b Hb. specialize (Hf b Hb). unfold update. by destruct (f b). Qed.
Lemma safe_when c (m : BM B ()) : safe P m → safe P (when c m).
Proof. intros Hm. destruct c; [done|apply safe_ret]. Qed.
Lemma safe_if {A} (c : bool) (m1 m2 : BM B A) : safe P m1 → safe P m2 → safe P (if c then m1 else m2).
Proof. by destruct c. Qed.
Lemma safe_forM {A} (l : list A) (f : A → BM B ()) : (∀ a, safe P (f a)) → safe P (forM l f).
Proof.
  intros Hf. induction l as [|a l IH]; simpl; [apply safe_ret|]. apply safe_bind; [done|by intros _].
Qed.
End safe.

(** Structural proofs: split binds, branches and loops, and treat the operations with [op]. *)
Ltac solve_safe_with op :=
  repeat match goal with
    | |- ∀ _, _ => intro
    | |- safe _ (mret _) => apply safe_ret
    | |- safe _ (emit _) => apply safe_emit
    | |- safe _ (gets _) => apply safe_gets
    | |- safe _ (when _ _) => apply safe_when
    | |- safe _ (forM _ _) => apply safe_forM
    | |- safe _ (_ ≫= _) => apply safe_bind
    | |- safe _ (match ?x with _ => _ end) => destruct x
    | |- _ => op
    end.

(** ** The invariant *)

Section Invariant.
Context {S Data R : Type} `{KVStore S Data, SessionCodec Data}.
Context (MatchString : R → string → bool) (cidrContains : string → string → bool).
Context (write_ok : OutPacket → bool).
Abbreviation B := (Broker S R).
Implicit Types (b : B) (c : Conn) (pk : InPacket) (now : Time) (sm : SessionManager S).

(** Live sessions have distinct, allocated mailboxes. *)
Definition wf_sessions b : Prop :=
  ∀ id p, data (sessions b) !! id = Some p →
    (p < nextMailbox b)%positive ∧ ∀ id', data (sessions b) !! id' = Some p → id' = id.

(** The components' invariants. *)
Record Inv b : Prop := {
  inv_topics : wf_store (topics b);
  inv_config : 0 < MaxOfflineMessages (sm_config (persistentSessionMgr b));
  inv_retainer : wf_retainer (retainer b);
  inv_blacklist : ∀ m, manager (blacklistMiddleware b) = Some m → wf_blacklist m;
  inv_sessions : wf_sessions b;
}.

Lemma Inv_set_topics b st : Inv b → wf_store st → Inv (set_topics st b).
Proof. intros [] ?. by split. Qed.
Lemma Inv_set_psm b sm :
  Inv b → sm_config sm = sm_config (persistentSessionMgr b) → Inv (set_psm sm b).
Proof. intros [] Hc. split; try done. simpl. by rewrite Hc. Qed.
Lemma Inv_set_retainer b r : Inv b → wf_retainer r → Inv (set_retainer r b).
Proof. intros [] ?. by split. Qed.
Lemma Inv_set_aliases b x : Inv b → Inv (set_aliases x b).
Proof. intros []. by split. Qed.
Lemma Inv_set_callbacks b x : Inv b → Inv (set_callbacks x b).
Proof. intros []. by split. Qed.
Lemma Inv_set_processed b x : Inv b → Inv (set_processed x b).
Proof. intros []. by split. Qed.
Lemma Inv_delete_session b id : Inv b → Inv (set_sessions (KVStore.Delete (sessions b) id).2 b).
Proof.
  intros [H1 H2 H3 H4 H5]. split; try done. intros c' p. simpl.
  intros [_ Hp]%lookup_delete_Some. destruct (H5 _ _ Hp) as [Hlt Hinj]. split; [done|].
  intros c'' [_ Hp']%lookup_delete_Some. by apply Hinj.
Qed.

(** The configuration of the session manager never changes. *)
Lemma config_CreateOrResume sm id clean exp now :
  sm_config (CreateOrResumeSession sm id clean exp now (λ sm, sm)).2 = sm_config sm.
Proof.
  unfold CreateOrResumeSession. cbv beta. destruct (activeSessions sm !! id); [done|].
  destruct (if clean then _ else _); [done|]. simpl. destruct clean; [done|].
  by rewrite config_save_logged.
Qed.
Lemma config_AddSubscription sm id t q now :
  sm_config (AddSubscription sm id t q now).2 = sm_config sm.
Proof.
  unfold AddSubscription. case_match; [|done]. simpl. case_match; [done|]. by rewrite config_save_logged.
Qed.
Lemma config_RemoveSubscription sm id t now :
  sm_config (RemoveSubscription sm id t now).2 = sm_config sm.
Proof.
  unfold RemoveSubscription. case_match; [|done]. simpl. case_match; [done|].
  by rewrite config_save_logged.
Qed.
Lemma config_SetWill sm id t p q r d : sm_config (SetWillMessage sm id t p q r d).2 = sm_config sm.
Proof. unfold SetWillMessage. by case_match. Qed.
Lemma config_deleteSession id sm : sm_config (deleteSession id sm).2 = sm_config sm.
Proof. unfold deleteSession. by destruct (kv_Delete _ _). Qed.

(** Queueing a message does not panic when the limit is positive. *)
Lemma QueueMessage_safe sm id t p q r now :
  0 < MaxOfflineMessages (sm_config sm) →
  ∃ e sm', QueueMessage sm id t p q r now = Returns (e, sm') ∧ sm_config sm' = sm_config sm.
Proof.
  intros Hm. unfold QueueMessage. destruct (activeSessions sm !! id) as [s|]; [|eauto].
  destruct (Connected s); [eauto|]. destruct (CleanSession s); [eauto|].
  destruct (_ <=? _) eqn:E; bool_prop; simpl.
  - destruct (MessageQueue s); [unfold blen in E; simpl in E; lia|]. simpl.
    eexists _, _. split; [done|]. by rewrite config_save_logged.
  - eexists _, _. split; [done|]. by rewrite config_save_logged.
Qed.

Lemma queueForClient_safe held t p q r matches now id s sm :
  0 < MaxOfflineMessages (sm_config sm) →
  queueForClient held t p q r matches now id s sm = Blocks ∨
  ∃ sm', queueForClient held t p q r matches now id s sm = Returns sm' ∧ sm_config sm' = sm_config sm.
Proof.
  intros Hm. unfold queueForClient.
  destruct (bool_decide _); [eauto|]. destruct (Connected s); [eauto|].
  destruct (CleanSession s); [eauto|]. destruct (hasMatchingSubscription _ _ _); [|eauto].
  destruct (QueueMessage_safe sm id t p q r now Hm) as (e & sm' & -> & Hc). eauto.
Qed.

Lemma queueOffline_safe held sm t p q r matches now :
  0 < MaxOfflineMessages (sm_config sm) →
  QueueMessageForOfflineClients held sm t p q r matches now = Blocks ∨
  ∃ sm', QueueMessageForOfflineClients held sm t p q r matches now = Returns sm' ∧
         sm_config sm' = sm_config sm.
Proof.
  intros Hm. unfold QueueMessageForOfflineClients, go_range.
  generalize (map_to_list (activeSessions sm)). intros l. revert sm Hm.
  induction l as [|[id s] l IH]; intros sm Hm; simpl; [eauto|].
  destruct (queueForClient_safe held t p q r matches now id s sm Hm) as [->|(sm' & -> & Hc)].
  - left. clear. induction l; [done|]. simpl. done.
  - destruct (IH sm') as [?|(sm'' & ? & ?)]; [by rewrite Hc|by left|right].
    exists sm''. split; [done|congruence].
Qed.

(** Without locks held it also returns. *)
Lemma queueOffline_returns sm t p q r matches now :
  0 < MaxOfflineMessages (sm_config sm) →
  ∃ sm', QueueMessageForOfflineClients ∅ sm t p q r matches now = Returns sm' ∧
         sm_config sm' = sm_config sm.
Proof.
  intros Hm. destruct (queueOffline_safe ∅ sm t p q r matches now Hm) as [Hb|?]; [exfalso|done].
  revert Hb. unfold QueueMessageForOfflineClients, go_range.
  generalize (map_to_list (activeSessions sm)). intros l. revert sm Hm.
  induction l as [|[id s] l IH]; intros sm Hm; simpl; [done|].
  assert (queueForClient ∅ t p q r matches now id s sm ≠ Blocks) as Hn.
  { unfold queueForClient. rewrite bool_decide_false by set_solver.
    destruct (QueueMessage_safe sm id t p q r now Hm) as (e & sm' & -> & _). by repeat case_match. }
  destruct (queueForClient_safe ∅ t p q r matches now id s sm Hm) as [?|(sm' & -> & Hc)]; [done|].
  apply IH. by rewrite Hc.
Qed.

(** *** Operations of BrokerState *)

Lemma registerSession_safe id v : safe Inv (registerSession (S := S) (R := R) id v).
Proof.
  intros b Hb. unfold registerSession, mbind, BM_bind, gets, modify, emit, mret, BM_ret. simpl.
  unfold KVStore.Get. set (old := data (sessions b) !! id).
  assert (Inv (match old with
    | Some p => set_sessions (KVStore.Delete (sessions b) id).2
                  (set_topics (RemoveAllSubscriptions (topics b) (Some p)).2 b)
    | None => b end)) as Hb1.
  { destruct old as [p|]; [|done].
    apply (Inv_delete_session (set_topics (RemoveAllSubscriptions (topics b) (Some p)).2 b)).
    apply Inv_set_topics; [done|]. apply wf_RemoveAll. by destruct Hb. }
  assert (∀ b1, Inv b1 → Inv (set_sessions (KVStore.Set_ (sessions b1) id (nextMailbox b1)).2
                            (set_nextMailbox (Pos.succ (nextMailbox b1)) b1))) as Hset.
  { clear. intros b1 [H1 H2 H3 H4 H5]. split; try done. intros c p. simpl.
    intros [[<- <-]|[Hne Hp]]%lookup_insert_Some.
    - split; [lia|]. intros c' [[<- _]|[Hne Hp]]%lookup_insert_Some; [done|].
      destruct (H5 _ _ Hp). lia.
    - destruct (H5 _ _ Hp) as [Hlt Hinj]. split; [lia|].
      intros c' [[<- Heq]|[_ Hp']]%lookup_insert_Some; [lia|by apply Hinj]. }
  destruct old as [p|]; simpl; apply (Hset _ Hb1).
Qed.

Lemma unregisterSession_safe id : safe Inv (unregisterSession (S := S) (R := R) id).
Proof.
  unfold unregisterSession. apply safe_bind; [apply safe_gets|]. intros mb.
  apply safe_bind; [destruct mb; [|apply safe_ret]|].
  { apply safe_modify. intros b Hb. apply Inv_set_topics; [done|]. apply wf_RemoveAll. by destruct Hb. }
  intros _. apply safe_bind; [apply safe_modify; intros b; apply Inv_delete_session|].
  intros _. apply safe_modify. intros b. apply Inv_set_processed.
Qed.

Lemma markAndCheckDuplicate_Inv b id pid now : Inv b → Inv (markAndCheckDuplicate b id pid now).2.
Proof. intros Hb. unfold markAndCheckDuplicate. repeat case_match; by try apply Inv_set_processed. Qed.

Lemma getSubscribers_safe t : safe Inv (getSubscribers (S := S) (R := R) t).
Proof.
  intros b Hb. unfold getSubscribers.
  destruct (wf_GetSubscribers (topics b) t) as (r & st & Hg & Hw); [by destruct Hb|].
  rewrite Hg. by apply Inv_set_topics.
Qed.

Ltac state_op :=
  idtac; match goal with
  | |- safe _ (registerSession _ _) => apply registerSession_safe
  | |- safe _ (unregisterSession _) => apply unregisterSession_safe
  | |- safe _ (getSubscribers _) => apply getSubscribers_safe
  end.
Ltac solve_safe := solve_safe_with state_op.

Lemma forwardToRemote_safe t p : safe Inv (forwardToRemote (S := S) (R := R) t p).
Proof. unfold forwardToRemote. solve_safe. Qed.
Lemma routeRequestResponse_safe t p q up rt corr :
  safe Inv (RouteToLocalSubscribersWithRequestResponse (S := S) (R := R) t p q up rt corr).
Proof.
  unfold RouteToLocalSubscribersWithRequestResponse, processMessageThroughRuleEngine,
    processMessageThroughIntegration. solve_safe.
Qed.
Lemma routeQoS_safe t p q : safe Inv (RouteToLocalSubscribersWithQoS (S := S) (R := R) t p q).
Proof. unfold RouteToLocalSubscribersWithQoS, processMessageThroughRuleEngine. solve_safe. Qed.
Lemma storeRetained_safe t p q id now : safe Inv (storeRetained (S := S) (R := R) t p q id now).
Proof.
  apply safe_modify. intros b Hb. apply Inv_set_retainer; [done|]. apply wf_StoreRetained. by destruct Hb.
Qed.
Lemma queueForOffline_safe held t p q r now :
  safe Inv (queueForOffline (S := S) (R := R) held t p q r now).
Proof.
  intros b Hb. unfold queueForOffline.
  destruct (queueOffline_safe held (persistentSessionMgr b) t p q r BasicTopicMatcher_Matches now)
    as [->|(sm' & -> & Hc)]; [by destruct Hb|done|]. by apply Inv_set_psm.
Qed.

Lemma processPublishPostAck_safe id t p q r up rt corr now :
  safe Inv (processPublishPostAck (S := S) (R := R) id t p q r up rt corr now).
Proof.
  unfold processPublishPostAck, routePublishWithRequestResponse.
  solve_safe; [apply storeRetained_safe|apply routeRequestResponse_safe|apply forwardToRemote_safe|
    apply queueForOffline_safe].
Qed.
Lemma publishWill_safe held w id now : safe Inv (publishWill (S := S) (R := R) held w id now).
Proof.
  unfold publishWill, routePublish.
  solve_safe; [apply storeRetained_safe|apply routeQoS_safe|apply forwardToRemote_safe|
    apply queueForOffline_safe].
Qed.

Lemma disconnectSession_safe id graceful now :
  safe Inv (disconnectSession (S := S) (R := R) id graceful now).
Proof.
  intros b Hb. unfold disconnectSession, DisconnectSession. simpl.
  destruct (activeSessions (persistentSessionMgr b) !! id) as [s|]; [|done]. simpl.
  assert (∀ b2 (e2 : list effect) sm2 s2, Inv b2 →
    sm_config sm2 = sm_config (persistentSessionMgr b2) →
    Inv (set_psm (if CleanSession s
      then (deleteSession id (set_active (delete id (activeSessions sm2)) sm2)).2
      else save_logged s2 sm2) b2)) as Hend.
  { clear. intros b2 e2 sm2 s2 Hb2 Hc. apply Inv_set_psm; [done|].
    destruct (CleanSession s); [by rewrite config_deleteSession|by rewrite config_save_logged]. }
  assert (∀ sm, sm_config sm = sm_config (persistentSessionMgr b) → Inv (set_psm sm b)) as Hset
    by (intros; by apply Inv_set_psm).
  destruct (Session_Will s) as [w|]; destruct graceful; simpl.
  - apply (Hend _ []); [by apply Hset|done].
  - unfold PublishWillMessage. destruct (0 <? Will_DelayInterval w); simpl.
    { apply (Hend _ []); [by apply Hset|done]. }
    match goal with |- context [publishWill ?h ?m ?i ?n ?b0] =>
      pose proof (publishWill_safe h m i n b0) as Hw;
      destruct (publishWill h m i n b0) as [[[u b1] e1]| |] end; simpl; [|by apply Hw, Hset|done].
    apply (Hend _ []); [by apply Hw, Hset|done].
  - apply (Hend _ []); [by apply Hset|done].
  - apply (Hend _ []); [by apply Hset|done].
Qed.

Lemma willTimerFires_safe id now : safe Inv (willTimerFires (S := S) (R := R) id now).
Proof.
  intros b Hb. unfold willTimerFires. destruct (timerFires _ _) as [[[w i| |] wmm]|]; [| | |done].
  - apply publishWill_safe. by apply Inv_set_psm.
  - by apply Inv_set_psm.
  - by apply Inv_set_psm.
Qed.

Lemma deliverOffline_safe id clock : safe Inv (deliverOffline (S := S) (R := R) id clock).
Proof.
  intros b Hb. unfold deliverOffline.
  destruct (DeliverOfflineMessages _ _ _ _ _) as [[e sm] w] eqn:E. apply Inv_set_psm; [done|].
  revert E. unfold DeliverOfflineMessages. repeat case_match; intros; simplify_eq; try done.
  by rewrite config_save_logged.
Qed.

Lemma sendRetainedMessages_safe mb fs now :
  safe Inv (sendRetainedMessages (S := S) (R := R) mb fs now).
Proof. unfold sendRetainedMessages. solve_safe. Qed.

(** *** Handlers *)

Lemma writePacket_safe p : safe Inv (writePacket (S := S) (R := R) write_ok p).
Proof. unfold writePacket. solve_safe. Qed.
Lemma reject_safe p : safe Inv (reject (S := S) (R := R) write_ok p).
Proof. unfold reject. apply safe_bind; [apply writePacket_safe|]. solve_safe. Qed.
Lemma answer_safe c p : safe Inv (answer (S := S) (R := R) write_ok c p).
Proof. unfold answer. apply safe_bind; [apply writePacket_safe|]. solve_safe. Qed.

Lemma subscribe_safe t mb q :
  safe Inv (modify (λ b, set_topics (TopicStore.Subscribe (topics b) t mb q) b)).
Proof.
  apply safe_modify. intros b Hb. apply Inv_set_topics; [done|]. apply wf_Subscribe. by destruct Hb.
Qed.
Lemma setWill_safe id t p q r d :
  safe Inv (modify (λ b, set_psm (SetWillMessage (persistentSessionMgr b) id t p q r d).2 b)).
Proof. apply safe_modify. intros b Hb. apply Inv_set_psm; [done|]. apply config_SetWill. Qed.
Lemma resume_safe id clean exp now :
  safe Inv (update (λ b, let '(s, sm) := CreateOrResumeSession (persistentSessionMgr b) id clean exp
                           now (λ sm, sm) in (s, set_psm sm b))).
Proof.
  apply safe_update. intros b Hb.
  pose proof (config_CreateOrResume (persistentSessionMgr b) id clean exp now) as Hc.
  destruct (CreateOrResumeSession _ _ _ _ _ _) as [s sm]. by apply Inv_set_psm.
Qed.
Lemma set_aliases_safe f : safe Inv (modify (λ b, set_aliases (f b) b)).
Proof. apply safe_modify. intros b. apply Inv_set_aliases. Qed.
Lemma set_callbacks_safe f : safe Inv (modify (λ b, set_callbacks (f b) b)).
Proof. apply safe_modify. intros b. apply Inv_set_callbacks. Qed.

Ltac handler_op :=
  idtac; match goal with
  | |- safe _ (writePacket _ _) => apply writePacket_safe
  | |- safe _ (reject _ _) => apply reject_safe
  | |- safe _ (answer _ _ _) => apply answer_safe
  | |- safe _ (disconnectSession _ _ _) => apply disconnectSession_safe
  | |- safe _ (modify (λ b, set_topics (TopicStore.Subscribe _ _ _ _) b)) => apply subscribe_safe
  | |- safe _ (modify (λ b, set_psm (SetWillMessage _ _ _ _ _ _ _).2 b)) => apply setWill_safe
  | |- safe _ (update _) => apply resume_safe
  | |- safe _ (modify (λ b, set_aliases _ b)) => apply set_aliases_safe
  | |- safe _ (modify (λ b, set_callbacks _ b)) => apply set_callbacks_safe
  | |- _ => state_op
  end.
Ltac solve_handler := solve_safe_with handler_op.

Lemma connectSession_safe c cf id now : safe Inv (connectSession (S := S) (R := R) c cf id now).
Proof. unfold connectSession. solve_handler. Qed.
Lemma tlsConnectSession_safe c cf id now :
  safe Inv (tlsConnectSession (S := S) (R := R) write_ok c cf id now).
Proof. unfold tlsConnectSession. solve_handler. Qed.

(** The clock has at least eight digits, as every clock after 1970-01-01 00:00:00.01 has. *)
Definition clock_ok now : Prop := (8 ≤ String.length (pretty now))%nat.

Lemma generateClientID_safe now :
  clock_ok now → safe Inv (lift (S := S) (R := R) (generateClientID now)).
Proof.
  intros Hn b Hb. unfold lift, generateClientID. rewrite (proj2 (Nat.ltb_ge _ _)) by done. done.
Qed.
Lemma handleConnect_safe c pk now :
  clock_ok now → safe Inv (handleConnect MatchString cidrContains write_ok (S := S) c pk now).
Proof.
  intros Hn. unfold handleConnect, connectAuthenticate.
  solve_handler; [by apply generateClientID_safe|apply connectSession_safe].
Qed.
Lemma tlsHandleConnect_safe c pk cert now :
  clock_ok now → safe Inv (tlsHandleConnect (S := S) (R := R) write_ok c pk cert now).
Proof.
  intros Hn. unfold tlsHandleConnect.
  solve_handler; [by apply generateClientID_safe|apply tlsConnectSession_safe].
Qed.

Lemma subscribeFilter_safe c f now : safe Inv (subscribeFilter MatchString (S := S) c f now).
Proof.
  unfold subscribeFilter. destruct (filterRefused f); [solve_handler|].
  apply safe_bind; [solve_handler|]. intros [[allowed reason] blk]. apply safe_if; [solve_handler|].
  apply safe_bind; [apply subscribe_safe|]. intros _. apply safe_bind; [|solve_handler].
  apply safe_modify. intros b Hb. apply Inv_set_psm; [done|]. apply config_AddSubscription.
Qed.
Lemma handleSubscribe_safe c pk now : safe Inv (handleSubscribe MatchString write_ok (S := S) c pk now).
Proof.
  unfold handleSubscribe. assert (∀ fs, safe Inv (subscribeFilters MatchString (S := S) c fs now)) as Hs.
  { induction fs as [|f fs IH]; simpl; [solve_handler|].
    apply safe_bind; [apply subscribeFilter_safe|]. intros r. apply safe_bind; [done|]. solve_handler. }
  solve_safe_with ltac:(idtac; first [apply Hs | handler_op]).
Qed.

Lemma handlePublish_safe c pk now : safe Inv (handlePublish MatchString write_ok (S := S) c pk now).
Proof.
  unfold handlePublish. destruct (sessionMailbox c); [|solve_handler].
  destruct (publishRefused pk) as [[?|]|]; [solve_handler..|].
  apply safe_bind.
  { apply safe_if; [|solve_handler]. apply safe_update. intros b. apply markAndCheckDuplicate_Inv. }
  intros skip. apply safe_bind.
  { intros b Hb. unfold resolveTopic. destruct (_ && _); [|done].
    destruct (topicAliasManagers b !! _); [|done]. destruct (resolveTopicAlias _ _ _).
    by apply Inv_set_aliases. }
  intros [t|e]; [|solve_handler]. unfold publishAccepted, acknowledge. solve_handler.
Qed.

Lemma handleAck_safe c pk : safe Inv (handleAck (S := S) (R := R) write_ok c pk).
Proof. unfold handleAck. solve_handler. Qed.

Lemma handleUnsubscribe_safe c pk now :
  safe Inv (handleUnsubscribe (S := S) (R := R) write_ok c pk now).
Proof.
  unfold handleUnsubscribe. assert (∀ fs, safe Inv (unsubscribeFilters (S := S) (R := R) c fs now)) as Hs.
  { induction fs as [|f fs IH]; simpl; [solve_handler|].
    apply safe_bind; [|intros r; apply safe_bind; [done|solve_handler]].
    unfold unsubscribeFilter. apply safe_if; [solve_handler|]. apply safe_bind.
    { apply safe_modify. intros b Hb. apply Inv_set_topics; [done|]. apply wf_Unsubscribe.
      by destruct Hb. }
    intros _. apply safe_bind; [|solve_handler]. apply safe_update. intros b Hb.
    pose proof (config_RemoveSubscription (persistentSessionMgr b) (clientID c) (F_Filter f) now) as Hc.
    destruct (RemoveSubscription _ _ _ _). by apply Inv_set_psm. }
  solve_safe_with ltac:(idtac; first [apply Hs | handler_op]).
Qed.

Lemma teardown_safe id graceful now : safe Inv (teardown (S := S) (R := R) id graceful now).
Proof. unfold teardown. solve_handler. Qed.

Lemma handlePacket_safe c pk now :
  clock_ok now → safe Inv (handlePacket MatchString cidrContains write_ok (S := S) c pk now).
Proof.
  intros Hn. unfold handlePacket, handleDisconnect.
  destruct (_ && _); [apply safe_ret|]. destruct (_ && _); [apply safe_ret|].
  destruct (I_Type pk); try apply safe_ret; try apply handleAck_safe; [by apply handleConnect_safe|
    apply handlePublish_safe|apply handleSubscribe_safe|apply handleUnsubscribe_safe|].
  apply safe_bind; [apply teardown_safe|]. solve_handler.
Qed.

Lemma afterLoop_safe c now : safe Inv (afterLoop (S := S) (R := R) c now).
Proof. unfold afterLoop. apply safe_if; [apply teardown_safe|solve_handler]. Qed.

Lemma runTask_safe t now : safe Inv (runTask (S := S) (R := R) t now).
Proof.
  destruct t; simpl; [apply processPublishPostAck_safe|solve_handler|apply deliverOffline_safe|
    apply sendRetainedMessages_safe|].
  apply safe_modify. intros b0 Hb. destruct (manager (blacklistMiddleware b0)) as [m|] eqn:Em; [|done].
  destruct Hb as [H1 H2 H3 H4 H5]. split; try done. simpl. intros m' [= <-]. by apply wf_set_stats, H4.
Qed.
End Invariant.

(** ** The running system *)

(** The goroutines an operation starts. *)
Definition tasks_of (effs : list effect) : list task :=
  flat_map (λ e, match e with EGo t => [t] | _ => [] end) effs.

Section System.
Context {S Data R : Type} `{KVStore S Data, SessionCodec Data}.
Context (Compile : string → option R) (MatchString : R → string → bool)
  (cidrContains : string → string → bool) (write_ok : OutPacket → bool).
Abbreviation B := (Broker S R).
Implicit Types (b : B).

(** The broker with its pending goroutines: any connection may handle any packet, any
    pending goroutine may run, peers forward publishes and announce routes, timers fire,
    clean-up routines tick and authenticators are configured, in any order. *)
Inductive reachable : B → list task → Prop :=
  | reach_new node cl store t0 : reachable (New node cl store t0) []
  | reach_packet b ts c pk now v b' effs :
      reachable b ts → clock_ok now →
      handlePacket MatchString cidrContains write_ok c pk now b = Returns (v, b', effs) →
      reachable b' (ts ++ tasks_of effs)
  | reach_tls b ts c pk cert now v b' effs :
      reachable b ts → clock_ok now →
      tlsHandleConnect write_ok c pk cert now b = Returns (v, b', effs) →
      reachable b' (ts ++ tasks_of effs)
  | reach_end b ts c now b' effs :
      reachable b ts → afterLoop c now b = Returns ((), b', effs) → reachable b' (ts ++ tasks_of effs)
  | reach_task b pre t post now b' effs :
      reachable b (pre ++ t :: post) → runTask t now b = Returns ((), b', effs) →
      reachable b' (pre ++ post ++ tasks_of effs)
  | reach_timer b ts id now b' effs :
      reachable b ts → willTimerFires id now b = Returns ((), b', effs) →
      reachable b' (ts ++ tasks_of effs)
  | reach_forward b ts topic payload b' effs :
      reachable b ts → RouteToLocalSubscribers topic payload b = Returns ((), b', effs) →
      reachable b' (ts ++ tasks_of effs)
  | reach_cluster b ts m : reachable b ts → reachable (set_cluster (Some m) b) ts
  | reach_auth b ts chain : reachable b ts → reachable (set_authChain chain b) ts
  | reach_expiry b ts now :
      reachable b ts →
      reachable (set_psm (cleanupExpiredSessions (persistentSessionMgr b) now) b) ts
  | reach_retained b ts now :
      reachable b ts → reachable (set_retainer (cleanupExpiredMessages (retainer b) now) b) ts
  | reach_blacklist b ts m now op :
      reachable b ts → manager (blacklistMiddleware b) = Some m →
      reachable (set_blacklist (set_manager (bl_step Compile m now op) (blacklistMiddleware b)) b) ts.

Lemma config_cleanup (sm : SessionManager S) now :
  sm_config (cleanupExpiredSessions sm now) = sm_config sm.
Proof.
  unfold cleanupExpiredSessions, go_range.
  assert (∀ (l : list (string * PersistentSession)) (st : list string * SessionManager S),
    sm_config (foldl (λ st kv, cleanupScan now kv.1 kv.2 st) st l).2 = sm_config st.2) as Hscan.
  { induction l as [|[id s] l IH]; intros [ids sm0]; simpl; [done|]. rewrite IH. unfold cleanupScan.
    destruct (session_expired now s); [done|]. destruct (bool_decide _); [done|]. simpl.
    destruct (CleanSession s); [done|]. by rewrite config_save_logged. }
  specialize (Hscan (map_to_list (activeSessions sm)) ([], sm)).
  destruct (foldl _ _ _) as [ids sm1]. simpl in Hscan. rewrite <-Hscan. clear Hscan.
  revert sm1. induction ids as [|id ids IH]; intros sm1; simpl; [done|]. rewrite IH. unfold removeExpired.
  destruct (activeSessions sm1 !! id); [|done]. destruct (session_expired _ _); [|done].
  by rewrite config_deleteSession.
Qed.

Lemma Inv_New node cl (store : S) t0 : Inv (New node cl store t0 : B).
Proof.
  split.
  - apply wf_NewStore.
  - done.
  - apply wf_NewRetainer.
  - intros m [= <-]. apply wf_NewBlacklistManager.
  - intros id p Hp. simpl in Hp. by rewrite lookup_empty in Hp.
Qed.

Lemma safe_Returns {A} (m : BM B A) b a b' effs :
  safe Inv m → Inv b → m b = Returns (a, b', effs) → Inv b'.
Proof. intros Hm Hb Hr. specialize (Hm b Hb). by rewrite Hr in Hm. Qed.

Lemma reachable_Inv b ts : reachable b ts → Inv b.
Proof.
  induction 1 as [node cl store t0|b ts c pk now v b' effs _ IH Hn Hr|b ts c pk cert now v b' effs _ IH Hn Hr|
    b ts c now b' effs _ IH Hr|b pre t post now b' effs _ IH Hr|b ts id now b' effs _ IH Hr|
    b ts topic payload b' effs _ IH Hr|b ts m _ IH|b ts chain _ IH|
    b ts now _ IH|b ts now _ IH|b ts m now op _ IH Hm].
  - apply Inv_New.
  - eapply safe_Returns; [|done..]. by apply handlePacket_safe.
  - eapply safe_Returns; [|done..]. by apply tlsHandleConnect_safe.
  - eapply safe_Returns; [|done..]. apply afterLoop_safe.
  - eapply safe_Returns; [|done..]. apply runTask_safe.
  - eapply safe_Returns; [|done..]. apply willTimerFires_safe.
  - eapply safe_Returns; [|done..]. apply routeQoS_safe.
  - destruct IH. by split.
  - destruct IH. by split.
  - apply Inv_set_psm; [done|]. apply config_cleanup.
  - apply Inv_set_retainer; [done|]. apply wf_cleanup. by destruct IH.
  - destruct IH as [H1 H2 H3 H4 H5]. split; try done. simpl. intros m' [= <-].
    specialize (H4 m Hm). destruct op; [by apply AddEntry_wf|by apply UpdateEntry_wf|
      by apply RemoveEntry_wf|by apply wf_set_stats|by apply CleanupExpiredEntries_wf].
Qed.
End System.

(** C1. The composed broker never panics: in every state reachable from a new broker by any
    interleaving of packets on any connections, goroutines, forwarded publishes, route
    updates, changes of authenticators, will timers and clean-up ticks, the component invariants hold (well-formed topic store with in-range round
    robin, bounded retained table, consistent blacklist indexes, live sessions with
    distinct allocated mailboxes), and handling any packet, tearing down any connection,
    running any pending goroutine, firing any will timer or delivering any message forwarded
    by a peer does not panic. *)
Theorem broker_never_panics {S Data R} `{KVStore S Data, SessionCodec Data}
    (Compile : string → option R) MatchString cidrContains write_ok (b : Broker S R) ts :
  reachable Compile MatchString cidrContains write_ok b ts →
  Inv b ∧
  (∀ c pk now, clock_ok now → handlePacket MatchString cidrContains write_ok c pk now b ≠ Panics) ∧
  (∀ c now, afterLoop c now b ≠ Panics) ∧
  (∀ t now, t ∈ ts → runTask t now b ≠ Panics) ∧
  (∀ id now, willTimerFires id now b ≠ Panics) ∧
  (∀ topic payload, RouteToLocalSubscribers topic payload b ≠ Panics).
Proof.
  intros Hr. apply reachable_Inv in Hr. split_and!; [done|intros..].
  - apply (safe_no_panic Inv); [by apply handlePacket_safe|done].
  - apply (safe_no_panic Inv); [apply afterLoop_safe|done].
  - apply (safe_no_panic Inv); [apply runTask_safe|done].
  - apply (safe_no_panic Inv); [apply willTimerFires_safe|done].
  - apply (safe_no_panic Inv); [apply routeQoS_safe|done].
Qed.

(** A concrete broker: in-memory store, the identity codec, no blacklist patterns. *)
Definition example_broker : Broker (MemStore PersistentSession) unit :=
  New "n1" (Some (NewManager "n1" ":1")) NewMemStore 0.

Lemma broker_never_panics_witness :
  reachable (H0 := idCodec) (λ _, None) (λ _ _, false) (λ _ _, false) (λ _, true) example_broker [] ∧
  afterLoop (H0 := idCodec) (newConn "10.0.0.1:5000") 5 example_broker ≠ Panics.
Proof.
  assert (Hr : reachable (H0 := idCodec) (λ _, None) (λ _ _, false) (λ _ _, false) (λ _, true) example_broker [])
    by apply (reach_new (H0 := idCodec)).
  split; [exact Hr|].
  exact (proj1 (proj2 (proj2 (broker_never_panics (H0 := idCodec) (λ _, None) (λ _ _, false)
    (λ _ _, false) (λ _, true) example_broker [] Hr))) (newConn "10.0.0.1:5000") 5).
Defined.
