(* ===== verification/BrokerRouting.v ===== *)
(** * BrokerRouting: what a publish reaches (pkg/broker/broker.go)

    The messages a routed publish sends, on its own node and across the cluster, and the
    two places where the broker decides about repeated messages and repeated clients:
    duplicate suppression and session takeover. *)

From S2P Require Import Prelude GoLib TopicMatch Actor TopicStore KVStore Will Persistent Offline.
From S2P Require Import Messages Retainer Session Auth Blacklist Cluster BrokerState BrokerConn.
From S2P Require Import BrokerProps.
Local Open Scope emqx_scope.
Local Open Scope Z_scope.

(** ** Evaluating operations *)

Lemma bind_eq {B A A'} (m : BM B A) (k : A → BM B A') b a b1 e1 :
  m b = Returns (a, b1, e1) →
  (m ≫= k) b = let! '(a', b2, e2) := k a b1 in Returns (a', b2, e1 ++ e2).
Proof. intros Hm. unfold mbind, BM_bind. by rewrite Hm. Qed.

Lemma bind_Returns {B A A'} (m : BM B A) (k : A → BM B A') b a' b2 e :
  (m ≫= k) b = Returns (a', b2, e) ↔
  ∃ a b1 e1 e2, m b = Returns (a, b1, e1) ∧ k a b1 = Returns (a', b2, e2) ∧ e = e1 ++ e2.
Proof.
  unfold mbind, BM_bind. split.
  - intros ([[a b1] e1] & Hm & ([[a'' b2'] e2] & Hk & Hr)%outcome_bind_Returns)%outcome_bind_Returns.
    simplify_eq. by eexists _, _, _, _.
  - intros (a & b1 & e1 & e2 & -> & Hk & ->). simpl. by rewrite Hk.
Qed.

(** A loop whose body only emits. *)
Lemma forM_emits {B A} (l : list A) (f : A → BM B ()) (g : A → list effect) b :
  (∀ a, f a b = Returns ((), b, g a)) → forM l f b = Returns ((), b, flat_map g l).
Proof.
  intros Hf. induction l as [|a l IH]; simpl; [done|].
  rewrite (bind_eq _ _ _ _ _ _ (Hf a)). by rewrite IH.
Qed.

Lemma flat_map_singleton {A A'} (f : A → A') l : flat_map (λ a, [f a]) l = f <$> l.
Proof. induction l as [|a l IH]; simpl; [done|]. by rewrite IH. Qed.

(** ** Deliveries *)

Lemma effectiveQoS_min q sub : effectiveQoS q sub = Z.min q (Sub_QoS sub).
Proof. unfold effectiveQoS. destruct (_ <? _) eqn:E; bool_prop; lia. Qed.

(** The map holds, for a mailbox, the highest effective QoS of its subscriptions. *)
Lemma uniqueSubscribers_spec q subs mb :
  match uniqueSubscribers q subs !! mb with
  | None => ∀ sub, sub ∈ subs → Sub_Mailbox sub ≠ mb
  | Some v => (∃ sub, sub ∈ subs ∧ Sub_Mailbox sub = mb ∧ v = Z.min q (Sub_QoS sub)) ∧
              (∀ sub, sub ∈ subs → Sub_Mailbox sub = mb → Z.min q (Sub_QoS sub) ≤ v)
  end.
Proof.
  induction subs as [|sub subs IH] using rev_ind.
  { unfold uniqueSubscribers. simpl. rewrite lookup_empty. intros sub Hin. by apply not_elem_of_nil in Hin. }
  unfold uniqueSubscribers in *. rewrite foldl_snoc. simpl. rewrite effectiveQoS_min.
  set (m := foldl _ ∅ subs) in *.
  assert (∀ x, x ∈ subs ++ [sub] ↔ x ∈ subs ∨ x = sub) as Hsnoc.
  { intros x. by rewrite elem_of_app, list_elem_of_singleton. }
  destruct (decide (Sub_Mailbox sub = mb)) as [<-|Hne].
  - destruct (m !! Sub_Mailbox sub) as [v|] eqn:Em.
    + destruct IH as [(s & Hin & Hs & ->) Hmax]. destruct (_ <? _) eqn:E; bool_prop.
      * rewrite lookup_insert_eq. split; [setoid_rewrite Hsnoc; eauto|]. intros s' [Hin'| ->]%Hsnoc Hs'; [|lia].
        specialize (Hmax _ Hin' Hs'). lia.
      * rewrite Em. split; [setoid_rewrite Hsnoc; eauto|]. intros s' [Hin'| ->]%Hsnoc Hs'; [by apply Hmax|lia].
    + rewrite lookup_insert_eq. split; [setoid_rewrite Hsnoc; eauto|]. intros s' [Hin'| ->]%Hsnoc Hs'; [by destruct (IH s')|lia].
  - assert (∀ x, <[Sub_Mailbox sub := x]> m !! mb = m !! mb) as Hins by (intros; by rewrite lookup_insert_ne).
    replace (_ !! mb) with (m !! mb) by (repeat case_match; by rewrite ?Hins).
    destruct (m !! mb) as [v|].
    + destruct IH as [(s & ? & ? & ?) Hmax]. split; [setoid_rewrite Hsnoc; eauto 6|].
      intros s' [Hin'| ->]%Hsnoc Hs'; [by apply Hmax|done].
    + intros s' [Hin'| ->]%Hsnoc; [by apply IH|done].
Qed.

(** The delivery of a topic to a mailbox at a QoS: the mailbox receives it, at the highest of
    the QoS its subscriptions allow. *)
Definition delivery (s : Store) (topic : string) (publishQoS : Z) (mb : MailboxPtr) (qos : Z) : Prop :=
  (∃ sub, receives s topic sub ∧ Sub_Mailbox sub = mb ∧ qos = Z.min publishQoS (Sub_QoS sub)) ∧
  (∀ sub, receives s topic sub → Sub_Mailbox sub = mb → Z.min publishQoS (Sub_QoS sub) ≤ qos).

Lemma uniqueSubscribers_delivery s topic q subs mb v :
  (∀ sub, sub ∈ subs ↔ receives s topic sub) →
  uniqueSubscribers q subs !! mb = Some v ↔ delivery s topic q mb v.
Proof.
  intros Hin. unfold delivery. setoid_rewrite <-Hin. pose proof (uniqueSubscribers_spec q subs mb) as Hs.
  destruct (uniqueSubscribers q subs !! mb) as [w|]; split.
  - by intros [= <-].
  - intros [(x & Hx & Hmb & ->) Hmax]. destruct Hs as [(y & Hy & Hmy & ->) Hmax'].
    f_equal. specialize (Hmax _ Hy Hmy). specialize (Hmax' _ Hx Hmb). lia.
  - done.
  - intros [(x & Hx & Hmb & _) _]. by destruct (Hs x).
Qed.

(** Every receiver of a topic gets a delivery. *)
Lemma receives_delivery s topic q sub :
  wf_store s → receives s topic sub → ∃ qos, delivery s topic q (Sub_Mailbox sub) qos.
Proof.
  intros Hwf Hrec. destruct (GetSubscribers_receives s topic Hwf) as (subs & _ & Hin & _).
  pose proof (uniqueSubscribers_spec q subs (Sub_Mailbox sub)) as Hu.
  destruct (uniqueSubscribers q subs !! Sub_Mailbox sub) as [qos|] eqn:E.
  - exists qos. by apply (uniqueSubscribers_delivery s topic q subs).
  - by destruct (Hu sub (proj2 (Hin sub) Hrec)).
Qed.

Section Routing.
Context {S R : Type}.
Abbreviation B := (Broker S R).
Implicit Types (b : B).

Lemma getSubscribers_eq b topic :
  wf_store (topics b) →
  ∃ subs, getSubscribers topic b = Returns (subs, set_topics (advanced topic (topics b)) b, []) ∧
    ∀ sub, sub ∈ subs ↔ receives (topics b) topic sub.
Proof.
  intros Hwf. destruct (GetSubscribers_receives (topics b) topic Hwf) as (subs & Hg & Hin & _).
  exists subs. split; [|done]. unfold getSubscribers. by rewrite Hg.
Qed.

Lemma rules_eq topic payload qos id hs b :
  processMessageThroughRuleEngine topic payload qos id hs b =
  Returns ((), b, if hasRuleEngine b then [ERules topic payload qos id hs] else []).
Proof. unfold processMessageThroughRuleEngine, mbind, BM_bind, gets, when. simpl. by case_match. Qed.
Lemma integration_eq topic payload qos id hs b :
  processMessageThroughIntegration topic payload qos id hs b =
  Returns ((), b, if hasIntegrationEngine b then [EIntegration topic payload qos id hs] else []).
Proof. unfold processMessageThroughIntegration, mbind, BM_bind, gets, when. simpl. by case_match. Qed.

Lemma routeQoS_eq b topic payload q :
  wf_store (topics b) →
  ∃ subs, (∀ sub, sub ∈ subs ↔ receives (topics b) topic sub) ∧
    RouteToLocalSubscribersWithQoS topic payload q b =
    Returns ((), set_topics (advanced topic (topics b)) b,
      (if hasRuleEngine b then [ERules topic payload q "" ∅] else []) ++
      ((λ sub, ESend (Sub_Mailbox sub) (MPublish
          (mkPublish topic payload (Z.min q (Sub_QoS sub)) false ∅ 0 "" []))) <$> subs)).
Proof.
  intros Hwf. destruct (getSubscribers_eq b topic Hwf) as (subs & Hg & Hin). exists subs. split; [done|].
  unfold RouteToLocalSubscribersWithQoS. rewrite (bind_eq _ _ _ _ _ _ (rules_eq topic payload q "" ∅ b)).
  rewrite (bind_eq _ _ _ _ _ _ Hg).
  rewrite (forM_emits _ _ (λ sub, [ESend (Sub_Mailbox sub) (MPublish
    (mkPublish topic payload (Z.min q (Sub_QoS sub)) false ∅ 0 "" []))])).
  - simpl. by rewrite flat_map_singleton.
  - intros sub. by rewrite effectiveQoS_min.
Qed.

Lemma routeRequestResponse_eq b topic payload q up rt corr :
  wf_store (topics b) →
  ∃ deliveries,
    RouteToLocalSubscribersWithRequestResponse topic payload q up rt corr b =
    Returns ((), set_topics (advanced topic (topics b)) b,
      (if hasRuleEngine b then [ERules topic payload q "" (headersOf up)] else []) ++
      (if hasIntegrationEngine b then [EIntegration topic payload q "" (headersOf up)] else []) ++
      ((λ '(mb, qos), ESend mb (MPublish (mkPublish topic payload qos false up 0 rt corr)))
         <$> deliveries)) ∧
    NoDup deliveries.*1 ∧
    ∀ mb qos, (mb, qos) ∈ deliveries ↔ delivery (topics b) topic q mb qos.
Proof.
  intros Hwf. destruct (getSubscribers_eq b topic Hwf) as (subs & Hg & Hin).
  exists (map_to_list (uniqueSubscribers q subs)). split_and!.
  - unfold RouteToLocalSubscribersWithRequestResponse.
    rewrite (bind_eq _ _ _ _ _ _ (rules_eq topic payload q "" (headersOf up) b)).
    rewrite (bind_eq _ _ _ _ _ _ (integration_eq topic payload q "" (headersOf up) b)).
    rewrite (bind_eq _ _ _ _ _ _ Hg).
    rewrite (forM_emits _ _ (λ '(mb, qos),
      [ESend mb (MPublish (mkPublish topic payload qos false up 0 rt corr))])) by by intros [].
    simpl. do 4 f_equal. rewrite <-flat_map_singleton. apply flat_map_ext. by intros [].
  - apply NoDup_fst_map_to_list.
  - intros mb qos. rewrite elem_of_map_to_list. by apply uniqueSubscribers_delivery.
Qed.

(** The calls of a forward: one for every announced node that is a peer and not this one. *)
Definition forward_calls (m : Manager) (self topic : string) (payload : list byte) : list PeerCall :=
  flat_map (λ node, if node =s self then [] else ForwardPublish m topic payload node)
    (GetRemoteSubscribers m topic).

Lemma forwardToRemote_eq b topic payload :
  forwardToRemote topic payload b =
  Returns ((), b, ECall <$> match cluster b with
                            | Some m => forward_calls m (nodeID b) topic payload
                            | None => []
                            end).
Proof.
  unfold forwardToRemote, gets. unfold mbind at 1, BM_bind at 1. simpl.
  unfold mbind at 1, BM_bind at 1. simpl. destruct (cluster b) as [m|]; [|done].
  rewrite (forM_emits _ _ (λ node, ECall <$> if node =s nodeID b then [] else ForwardPublish m topic payload node)).
  - simpl. unfold forward_calls. induction (GetRemoteSubscribers m topic); simpl; [done|].
    rewrite fmap_app. simplify_eq/=. do 3 f_equal. congruence.
  - intros node. case_bool_decide; [done|]. rewrite (forM_emits _ _ (λ c, [ECall c])) by done.
    by rewrite flat_map_singleton.
Qed.

Lemma elem_of_forward_calls m self topic payload call :
  call ∈ forward_calls m self topic payload ↔
  ∃ node, node ∈ GetRemoteSubscribers m topic ∧ node ≠ self ∧ is_Some (peers m !! node) ∧
    call = CallForwardPublish node (mkPublishForward topic payload (NodeID m)).
Proof.
  unfold forward_calls. rewrite list_elem_of_In, in_flat_map. setoid_rewrite <-list_elem_of_In.
  unfold ForwardPublish. split.
  - intros (node & Hn & Hc). exists node. case_bool_decide; [by apply not_elem_of_nil in Hc|].
    destruct (peers m !! node); [|by apply not_elem_of_nil in Hc].
    apply list_elem_of_singleton in Hc as ->. by split_and!; eauto.
  - intros (node & Hn & Hne & [cl Hcl] & ->). exists node. split; [done|].
    rewrite bool_decide_false by done. rewrite Hcl. by apply list_elem_of_singleton.
Qed.

Lemma NoDup_forward_calls m self topic payload :
  NoDup (GetRemoteSubscribers m topic) → NoDup (forward_calls m self topic payload).
Proof.
  unfold forward_calls. induction 1 as [|node l Hnot _ IH]; simpl; [constructor|].
  apply NoDup_app. split_and!; [|intros call Hc Hc'|done].
  - case_bool_decide; [constructor|]. unfold ForwardPublish.
    destruct (peers m !! node); [apply NoDup_singleton|constructor].
  - case_bool_decide; [by apply not_elem_of_nil in Hc|]. unfold ForwardPublish in Hc.
    destruct (peers m !! node); [|by apply not_elem_of_nil in Hc].
    apply list_elem_of_singleton in Hc as ->.
    apply list_elem_of_In, in_flat_map in Hc' as (node' & Hn' & Hc'). apply list_elem_of_In in Hn', Hc'.
    case_bool_decide; [by apply not_elem_of_nil in Hc'|]. unfold ForwardPublish in Hc'.
    destruct (peers m !! node'); [|by apply not_elem_of_nil in Hc'].
    apply list_elem_of_singleton in Hc'. by simplify_eq.
Qed.
End Routing.

(** C2. Local delivery: routing a publish on a well-formed broker always returns; besides the
    hand-over to the rule and integration engines it sends exactly one message to each
    mailbox that receives the topic (a regular subscription with a filter that matches by
    the MQTT rule, or being the next member of a matching shared group), however many of its
    subscriptions match, and none to any other mailbox; the message carries the topic,
    payload, properties and, as QoS, the highest over its matching subscriptions of the
    lower of publish and subscription QoS; only the groups' rotation changes. *)
Theorem publish_delivery_exact {S R : Type} (b : Broker S R)
    topic payload q up rt corr :
  wf_store (topics b) →
  ∃ deliveries,
    RouteToLocalSubscribersWithRequestResponse topic payload q up rt corr b =
    Returns ((), set_topics (advanced topic (topics b)) b,
      (if hasRuleEngine b then [ERules topic payload q "" (headersOf up)] else []) ++
      (if hasIntegrationEngine b then [EIntegration topic payload q "" (headersOf up)] else []) ++
      ((λ '(mb, qos), ESend mb (MPublish (mkPublish topic payload qos false up 0 rt corr)))
         <$> deliveries)) ∧
    NoDup deliveries.*1 ∧
    ∀ mb qos, (mb, qos) ∈ deliveries ↔ delivery (topics b) topic q mb qos.
Proof. apply routeRequestResponse_eq. Qed.

(** A broker with regular and shared subscriptions. *)
Definition routed_broker : Broker (MemStore PersistentSession) unit :=
  set_topics example_store example_broker.

Lemma wf_routed_broker : wf_store (topics routed_broker).
Proof. unfold routed_broker, example_store. simpl. auto 10 with emqx. Qed.

Lemma publish_delivery_exact_witness :
  wf_store (topics routed_broker) ∧
  ∃ deliveries, (∃ b' effs, RouteToLocalSubscribersWithRequestResponse (S := MemStore PersistentSession)
      "a/x" [] 1 ∅ "" [] routed_broker = Returns ((), b', effs)) ∧
    NoDup deliveries.*1 ∧
    ∀ mb qos, (mb, qos) ∈ deliveries ↔ delivery (topics routed_broker) "a/x" 1 mb qos.
Proof.
  split; [exact wf_routed_broker|].
  destruct (publish_delivery_exact routed_broker "a/x" [] 1 ∅ "" [] wf_routed_broker)
    as (d & Heq & Hnd & Hin).
  exists d. split; [eexists _, _; exact Heq|]. split; [exact Hnd|exact Hin].
Defined.

(** C20. Cluster delivery in one hop: a routed publish calls, once each, exactly the nodes that
    announced its topic, are connected peers and are not the node itself, with the
    publisher's topic and payload; and whatever broker handles such a call (through the
    server's ForwardPublish and the broker's local publish function) delivers it to
    exactly its own receivers of the topic, at QoS 0, and calls no other node: a message is
    never forwarded twice. *)
Theorem cluster_delivery_one_hop {S R : Type}
    (b : Broker S R) m topic payload :
  cluster b = Some m → NoDup (GetRemoteSubscribers m topic) →
  let calls := forward_calls m (nodeID b) topic payload in
  forwardToRemote topic payload b = Returns ((), b, ECall <$> calls) ∧ NoDup calls ∧
  (∀ call, call ∈ calls ↔
     ∃ node, node ∈ GetRemoteSubscribers m topic ∧ node ≠ nodeID b ∧ is_Some (peers m !! node) ∧
       call = CallForwardPublish node (mkPublishForward topic payload (NodeID m))) ∧
  (∀ node req (b2 : Broker S R), CallForwardPublish node req ∈ calls → wf_store (topics b2) →
     ∃ b2' effs,
       Server_ForwardPublish (Some (λ t p o, let! '(_, b, e) := o in
         let! '(_, b', e') := RouteToLocalSubscribers t p b in Returns ((), b', e ++ e')))
         req (Returns ((), b2, [])) = Returns ((), b2', effs) ∧
       (∀ mb msg, ESend mb msg ∈ effs ↔
          ∃ sub, receives (topics b2) topic sub ∧ Sub_Mailbox sub = mb ∧
            msg = MPublish (mkPublish topic payload (Z.min 0 (Sub_QoS sub)) false ∅ 0 "" [])) ∧
       ∀ call, ECall call ∉ effs).
Proof.
  intros Hm Hnd calls. unfold calls.
  split_and!; [by rewrite forwardToRemote_eq, Hm|by apply NoDup_forward_calls|
    by intros call; rewrite elem_of_forward_calls|].
  intros node req b2 (n & _ & _ & _ & [= -> ->])%elem_of_forward_calls Hwf. simpl.
  unfold RouteToLocalSubscribers. destruct (routeQoS_eq b2 topic payload 0 Hwf) as (subs & Hin & Heq).
  rewrite Heq. simpl. eexists _, _. split; [done|]. setoid_rewrite elem_of_app.
  setoid_rewrite list_elem_of_fmap. split.
  - intros mb msg. split.
    + intros [He|(sub & [= -> ->] & Hs%Hin)]; [|by exists sub].
      destruct (hasRuleEngine b2); [by apply list_elem_of_singleton in He|by apply not_elem_of_nil in He].
    + intros (sub & Hs%Hin & <- & ->). right. by exists sub.
  - intros call [He|(sub & He & _)]; [|done].
    destruct (hasRuleEngine b2); [by apply list_elem_of_singleton in He|by apply not_elem_of_nil in He].
Qed.

(** A node whose peer announced the topic. *)
Definition clustered_manager : Manager :=
  AddRemoteRoute (AddPeer (NewManager "n1" ":1") "n2" ":2" true
    (Some (mkJoinResponse true "cluster-1" "" [])) (λ m, m)) "a/x" "n2".
Definition clustered_broker : Broker (MemStore PersistentSession) unit :=
  New "n1" (Some clustered_manager) NewMemStore 0.

Lemma cluster_delivery_one_hop_witness :
  cluster clustered_broker = Some clustered_manager ∧
  NoDup (GetRemoteSubscribers clustered_manager "a/x") ∧
  let calls := forward_calls clustered_manager "n1" "a/x" [] in
  forwardToRemote (S := MemStore PersistentSession) "a/x" [] clustered_broker =
    Returns ((), clustered_broker, ECall <$> calls) ∧
  CallForwardPublish "n2" (mkPublishForward "a/x" [] "n1") ∈ calls.
Proof.
  assert (Hnd : NoDup (GetRemoteSubscribers clustered_manager "a/x")) by (apply NoDup_singleton).
  split; [reflexivity|]. split; [exact Hnd|].
  destruct (cluster_delivery_one_hop clustered_broker clustered_manager "a/x" []
    eq_refl Hnd) as (Heq & _ & Hin & _).
  intros calls. split; [exact Heq|]. apply Hin. exists "n2".
  split_and!; [by constructor|done|by eexists|reflexivity].
Defined.

(** ** Duplicate suppression *)

(** The identifier was seen from the client less than the window ago. *)
Definition recent {S R} (b : Broker S R) (id : string) (pid : Z) (now : Time) : Prop :=
  ∃ ts, default ∅ (processedQoS1 b !! id) !! pid = Some ts ∧ now - ts < qosDuplicateWindow.

Section Duplicates.
Context {S R : Type}.
Implicit Types (b : Broker S R).

Lemma markAndCheck_recent b id pid now :
  pid ≠ 0 → (markAndCheckDuplicate b id pid now).1 = true ↔ recent b id pid now.
Proof.
  intros Hp. unfold markAndCheckDuplicate, recent. rewrite (proj2 (Z.eqb_neq pid 0)) by done.
  destruct (default ∅ _ !! pid) as [ts|]; simpl.
  - destruct (_ <? _) eqn:E; bool_prop; simpl; split; try done; [eauto|].
    intros (ts' & [= <-] & ?). lia.
  - split; [done|]. by intros (? & ? & _).
Qed.

(** The identifiers of the client after a check, looked up at a later time. *)
Lemma markAndCheck_after b id pid now id' pid' now' :
  pid ≠ 0 → now ≤ now' →
  recent (markAndCheckDuplicate b id pid now).2 id' pid' now' ↔
  if decide (id' = id ∧ pid' = pid) then now' - now < qosDuplicateWindow else recent b id' pid' now'.
Proof.
  intros Hp Hle. unfold markAndCheckDuplicate, recent. rewrite (proj2 (Z.eqb_neq pid 0)) by done.
  set (isDup := match _ !! pid with Some ts => _ | None => _ end). clearbody isDup.
  destruct (decide (id' = id)) as [->|Hid].
  2: { rewrite decide_False by tauto. destruct isDup; simpl; by rewrite lookup_insert_ne by done. }
  destruct isDup; simpl; rewrite lookup_insert_eq; simpl;
    [|rewrite go_range_imap, map_lookup_imap];
    (destruct (decide (pid' = pid)) as [->|Hpid];
     [rewrite decide_True by done; rewrite lookup_insert_eq
     |rewrite decide_False by tauto; rewrite lookup_insert_ne by done]); simpl.
  - split; [by intros (ts & [= <-] & ?)|by exists now].
  - done.
  - rewrite (proj2 (Z.leb_gt _ _)) by (unfold qosDuplicateWindow; unfold Second; lia).
    split; [by intros (ts & [= <-] & ?)|by exists now].
  - destruct (default ∅ _ !! pid') as [ts|]; simpl; [|done].
    destruct (_ <=? _) eqn:E; bool_prop; [|done].
    split; [by intros (? & ? & _)|]. intros (? & [= <-] & ?). lia.
Qed.
End Duplicates.

Section PublishAccepted.
Context {S R : Type}.
Context (MatchString : R → string → bool) (write_ok : OutPacket → bool).
Abbreviation B := (Broker S R).
Implicit Types (b : B).

(** The hand-over of an accepted publish. *)
Definition postAck (c : Conn) (pk : InPacket) (topic : string) : effect :=
  EGo (PostAck (clientID c) topic (I_Payload pk) (I_Qos pk) (I_Retain pk)
         (copyUserProperties (userPropertiesOf pk)) (I_ResponseTopic pk) (I_CorrelationData pk)).

(** The acknowledgement an accepted publish gets. *)
Definition acks (pk : InPacket) : list effect :=
  if I_Qos pk =? 1 then [EWrite (response TPuback (I_PacketID pk) 0)]
  else if I_Qos pk =? 2 then [EWrite (response TPubrec (I_PacketID pk) 0)]
  else [].

Lemma reject_not_Next p b c b' effs : reject (S := S) (R := R) write_ok p b ≠ Returns (Next c, b', effs).
Proof.
  unfold reject. intros (? & ? & ? & ? & _ & Hr & _)%bind_Returns. done.
Qed.

Lemma writePacket_Returns p b ok b' effs :
  writePacket (S := S) (R := R) write_ok p b = Returns (ok, b', effs) →
  b' = b ∧ effs = if ok then [EWrite p] else [].
Proof.
  unfold writePacket. destruct (negb _); [by intros [= <- <- <-]|].
  destruct (write_ok p); unfold mbind, BM_bind, emit; simpl; by intros [= <- <- <-].
Qed.

Lemma acknowledge_Returns pk b b' effs :
  acknowledge (S := S) (R := R) write_ok pk b = Returns (true, b', effs) → b' = b ∧ effs = acks pk.
Proof.
  unfold acknowledge, acks. destruct (I_Qos pk =? 1); [by apply writePacket_Returns|].
  destruct (I_Qos pk =? 2); [by apply writePacket_Returns|]. by intros [= <- <-].
Qed.

Lemma publishAccepted_Next c pk skip topic now b c' b' effs :
  publishAccepted MatchString write_ok (S := S) c pk skip topic now b = Returns (Next c', b', effs) →
  c' = c ∧ b' = b ∧ effs = acks pk ++ (if skip then [] else [postAck c pk topic]).
Proof.
  unfold publishAccepted.
  intros (chk & b1 & e1 & e2 & [= <- <- <-] & Hk & ->)%bind_Returns.
  destruct (CheckPublishAccess _ _ _ _ _ _ _) as [[allowed reason] blk]. simpl in Hk.
  destruct allowed; simpl in Hk.
  - apply bind_Returns in Hk as (ok & b2 & e3 & e4 & Ha & Hk & ->). destruct ok; simpl in Hk; [|done].
    apply acknowledge_Returns in Ha as [-> ->].
    apply bind_Returns in Hk as (u & b3 & e5 & e6 & Hw & [= <- <- <-] & ->).
    destruct skip; injection Hw as <- <- <-; by rewrite ?app_nil_r.
  - apply bind_Returns in Hk as (u & b2 & e3 & e4 & _ & Hk & ->).
    destruct (0 <? I_Qos pk); [by apply reject_not_Next in Hk|done].
Qed.

(** The topic an alias stands for is recorded in the alias tables only. *)
Lemma resolveTopic_Returns c pk b r b' effs :
  resolveTopic (S := S) (R := R) c pk b = Returns (r, b', effs) →
  effs = [] ∧ ∃ x, b' = set_aliases x b.
Proof.
  unfold resolveTopic. assert (b = set_aliases (topicAliasManagers b) b) as Hid by by destruct b.
  destruct (_ && _); [|by intros [= _ <- <-]; eauto].
  destruct (topicAliasManagers b !! clientID c); [|by intros [= _ <- <-]; eauto].
  destruct (resolveTopicAlias _ _ _). intros [= _ <- <-]. eauto.
Qed.

(** An accepted publish: the acknowledgement, then the hand-over unless it is a duplicate. *)
Lemma handlePublish_Next c pk now b c' b' effs :
  handlePublish MatchString write_ok (S := S) c pk now b = Returns (Next c', b', effs) →
  c' = c ∧ publishRefused pk = None ∧
  ∃ topic x, let '(skip, b1) := if I_Qos pk =? 1 then markAndCheckDuplicate b (clientID c) (I_PacketID pk) now
                                else (false, b) in
    b' = set_aliases x b1 ∧ effs = acks pk ++ (if skip then [] else [postAck c pk topic]).
Proof.
  unfold handlePublish. destruct (sessionMailbox c); [|done].
  destruct (publishRefused pk) as [[resp|]|]; [by intros ?%reject_not_Next|done|].
  intros (skip & b1 & e1 & e2 & Hskip & Hk & ->)%bind_Returns.
  apply bind_Returns in Hk as (r & b2 & e3 & e4 & Hres & Hk & ->).
  apply resolveTopic_Returns in Hres as [-> [x ->]].
  destruct r as [topic|]; [|by apply reject_not_Next in Hk].
  apply publishAccepted_Next in Hk as (-> & -> & ->). split_and!; [done..|]. exists topic, x.
  destruct (I_Qos pk =? 1).
  - unfold update in Hskip. destruct (markAndCheckDuplicate _ _ _ _). by injection Hskip as <- <- <-.
  - by injection Hskip as <- <- <-.
Qed.

Lemma not_refused_pid pk : publishRefused pk = None → 0 < I_Qos pk → I_PacketID pk ≠ 0.
Proof.
  unfold publishRefused. intros Hr Hq Hp. rewrite (proj2 (Z.ltb_lt _ _) Hq), Hp in Hr. simpl in Hr.
  by repeat case_match.
Qed.
End PublishAccepted.

(** C10. QoS 1 at most once: an accepted QoS 1 publish is always acknowledged with PUBACK, and is
    handed to processing exactly when its packet identifier was not seen from that client
    in the last 30 seconds; it is then remembered, so that every publish with that
    identifier in the next 30 seconds is acknowledged without being processed again (also
    one that is not a retransmission, since the DUP flag plays no part), and what is
    remembered of other identifiers and clients does not change. *)
Theorem qos1_at_most_once {S R : Type}
    (MatchString : R → string → bool) write_ok c pk now (b : Broker S R) c' b' effs :
  I_Qos pk = 1 →
  handlePublish MatchString write_ok c pk now b = Returns (Next c', b', effs) →
  (recent b (clientID c) (I_PacketID pk) now → effs = [EWrite (response TPuback (I_PacketID pk) 0)]) ∧
  (¬ recent b (clientID c) (I_PacketID pk) now →
     ∃ topic, effs = [EWrite (response TPuback (I_PacketID pk) 0); postAck c pk topic]) ∧
  (∀ id pid now', now ≤ now' →
     recent b' id pid now' ↔
     if decide (id = clientID c ∧ pid = I_PacketID pk) then now' - now < qosDuplicateWindow
     else recent b id pid now').
Proof.
  intros Hq (-> & Href & topic & x & Heff)%handlePublish_Next.
  assert (I_PacketID pk ≠ 0) as Hpid by (apply not_refused_pid; [done|lia]).
  rewrite Hq in Heff. simpl in Heff.
  pose proof (markAndCheck_recent b (clientID c) (I_PacketID pk) now Hpid) as Hdup.
  pose proof (λ id' pid' now', markAndCheck_after b (clientID c) (I_PacketID pk) now id' pid' now' Hpid) as Haft.
  destruct (markAndCheckDuplicate _ _ _ _) as [skip b1]. destruct Heff as [-> ->]. simpl in *.
  unfold acks. rewrite Hq. simpl. split_and!.
  - intros Hr%Hdup. by rewrite Hr.
  - intros Hr. destruct skip; [by destruct Hr; apply Hdup|]. by exists topic.
  - intros id pid now' Hle. by rewrite <-Haft.
Qed.

(** A connected client and a QoS 1 publish. *)
Definition no_connect : ConnectFields := mkConnectFields "" true 0 false false [] [] false "" [] 0 false.
Definition example_conn : Conn := mkConn "c" (Some 1%positive) 0 false "10.0.0.1:5000".
Definition example_publish : InPacket :=
  mkInPacket TPublish 1 false false 7 "a/x" [] [] no_connect false 0 [] "" [] "" 0.

Lemma qos1_at_most_once_witness :
  ∃ b' effs, handlePublish (λ _ _, false) (λ _, true) example_conn example_publish 0 routed_broker
               = Returns (Next example_conn, b', effs) ∧
    (¬ recent routed_broker "c" 7 0 →
       ∃ topic, effs = [EWrite (response TPuback 7 0); postAck example_conn example_publish topic]) ∧
    (recent b' "c" 7 29 ↔ 29 - 0 < qosDuplicateWindow).
Proof.
  eexists _, _. split; [vm_compute; reflexivity|].
  match goal with |- (_ → ∃ _, ?e = _) ∧ (recent ?b _ _ _ ↔ _) =>
    destruct (qos1_at_most_once (λ _ _, false) (λ _, true) example_conn example_publish 0
      routed_broker example_conn b e eq_refl) as (_ & H2 & H3); [vm_compute; reflexivity|] end.
  split; [exact H2|]. apply (H3 "c" 7 29). lia.
Defined.

(** ** Takeover *)

Lemma wf_takeover {S R : Type} (b b' : Broker S R) id :
  wf_sessions b → nextMailbox b' = Pos.succ (nextMailbox b) →
  (∀ id' p, data (sessions b') !! id' = Some p →
     (id' = id ∧ p = nextMailbox b) ∨ data (sessions b) !! id' = Some p) → wf_sessions b'.
Proof.
  intros Hwf Hn Hs id1 p [[-> ->]|Hp]%Hs; rewrite Hn.
  - split; [lia|]. intros id2 [[-> _]|Hp]%Hs; [done|]. destruct (Hwf _ _ Hp). lia.
  - destruct (Hwf _ _ Hp) as [Hlt Hinj]. split; [lia|]. intros id2 [[-> ->]|Hp2]%Hs; [lia|by apply Hinj].
Qed.

(** What registering a client does to the world: stop the old actor, start the new one. *)
Definition takeover_effects (old : MailboxPtr) (id : string) (v : Z) (mb : positive) : list effect :=
  match old with Some _ => [ESend old MStop] | None => [] end ++
  [EStartChild ("session-" +:+ id) (SetProtocolVersion (Session.New id) v) RestartTransient (Some mb)].

(** Takeover: registering a client gives it a mailbox that no live session has and starts
    its actor; when the client had a session, that session's actor is first told to stop
    and its mailbox loses every subscription, regular and shared; all other clients keep
    their mailboxes, and all other mailboxes their subscriptions. *)
Theorem session_takeover {S R : Type} (b : Broker S R) id v :
  wf_sessions b →
  let mb := nextMailbox b in
  ∃ b', registerSession id v b = Returns (Some mb, b', takeover_effects (data (sessions b) !! id) id v mb) ∧
  (∀ id', data (sessions b') !! id' = if decide (id' = id) then Some mb else data (sessions b) !! id') ∧
  (∀ id', data (sessions b) !! id' ≠ Some mb) ∧ wf_sessions b' ∧
  (∀ t mb', granted (topics b') t mb' =
     if decide (is_Some mb' ∧ data (sessions b) !! id = mb') then None
     else granted (topics b) t mb').
Proof.
  intros Hwf. unfold registerSession, mbind, BM_bind, gets, modify, emit, mret, BM_ret, KVStore.Get. simpl.
  assert (∀ id', data (sessions b) !! id' ≠ Some (nextMailbox b)) as Hfresh.
  { intros id' Hid. destruct (Hwf _ _ Hid). lia. }
  assert (∀ (m : gmap string positive) id', m !! id' = data (sessions b) !! id' ∨ id' = id →
    <[id := nextMailbox b]> m !! id' = if decide (id' = id) then Some (nextMailbox b) else data (sessions b) !! id')
    as Hins.
  { intros m id' Hm. case_decide; [subst; by rewrite lookup_insert_eq|]. rewrite lookup_insert_ne by done.
    by destruct Hm. }
  destruct (data (sessions b) !! id) as [old|] eqn:Hold; simpl; (eexists; split; [done|]);
    simpl; split_and!; try done.
  - intros id'. apply Hins. destruct (decide (id' = id)); [by right|left]. by rewrite lookup_delete_ne.
  - apply (wf_takeover b _ id); [done..|]. simpl. intros id' p [[<- <-]|[_ Hp]]%lookup_insert_Some; [by left|].
    right. by apply lookup_delete_Some in Hp as [_ Hp].
  - intros t mb'. transitivity (granted (RemoveAllSubscriptions (topics b) (Some old)).2 t mb'); [done|].
    rewrite granted_RemoveAll. destruct (decide (mb' = Some old)) as [->|Hne].
    + by rewrite decide_True by eauto.
    + rewrite decide_False; [done|]. intros [_ ?]. congruence.
  - intros id'. apply Hins. by left.
  - apply (wf_takeover b _ id); [done..|]. simpl.
    intros id' p [[<- <-]|[_ Hp]]%lookup_insert_Some; [by left|by right].
  - intros t mb'. rewrite decide_False; [done|]. intros [[? ->] ?]. congruence.
Qed.

Lemma session_takeover_witness :
  ∃ b1 b2 effs, registerSession (S := MemStore PersistentSession) "c" 4 example_broker =
      Returns (Some 1%positive, b1, effs) ∧
    wf_sessions b1 ∧
    registerSession "c" 4 b1 = Returns (Some 2%positive, b2,
      [ESend (Some 1%positive) MStop;
       EStartChild "session-c" (SetProtocolVersion (Session.New "c") 4) RestartTransient (Some 2%positive)]) ∧
    ∀ t, granted (topics b2) t (Some 1%positive) = None.
Proof.
  assert (H0 : wf_sessions example_broker) by (intros id p Hp; simpl in Hp; by rewrite lookup_empty in Hp).
  destruct (session_takeover example_broker "c" 4 H0) as (b1 & Hr1 & Hs1 & _ & Hw1 & _).
  assert (Hn : nextMailbox b1 = 2%positive)
    by (vm_compute in Hr1; injection Hr1 as <-; reflexivity).
  destruct (session_takeover b1 "c" 4 Hw1) as (b2 & Hr2 & _ & _ & _ & Hg).
  pose proof (Hs1 "c") as Hc. rewrite decide_True in Hc by done.
  exists b1, b2. eexists. split; [exact Hr1|]. split; [exact Hw1|]. split.
  - rewrite Hr2, Hc, Hn. reflexivity.
  - intros t. rewrite Hg, decide_True; [reflexivity|]. split; [by eexists|exact Hc].
Defined.
