(* ===== verification/BrokerProtocol.v ===== *)
(** * BrokerProtocol: the connection as a protocol state machine (pkg/broker/broker.go)

    What a connection can do before it is admitted, what admission requires and sets up,
    what SUBSCRIBE grants, and the ways a connection ends. *)

From S2P Require Import Prelude GoLib TopicMatch Actor TopicStore KVStore Will Persistent Offline.
From S2P Require Import Messages Retainer Session Auth Blacklist Cluster BrokerState BrokerConn.
From S2P Require Import BrokerProps BrokerRouting.
Local Open Scope emqx_scope.
Local Open Scope Z_scope.

Lemma forM_modify {B A} (l : list A) (f : A → B → B) b :
  forM l (λ a, modify (f a)) b = Returns ((), foldl (λ b a, f a b) b l, []).
Proof.
  revert b. induction l as [|a l IH]; intros b; simpl; [done|].
  rewrite (bind_eq (modify (f a)) _ b () (f a b) []) by done. by rewrite IH.
Qed.

Lemma when_modify {B} c (f : B → B) b :
  when c (modify f) b = Returns ((), if c then f b else b, []).
Proof. by destruct c. Qed.

(** ** Admission *)

Section Admission.
Context {S Data R : Type} `{KVStore S Data, SessionCodec Data}.
Context (MatchString : R → string → bool) (cidrContains : string → string → bool).
Context (write_ok : OutPacket → bool).
Abbreviation B := (Broker S R).
Implicit Types (b : B) (c : Conn) (pk : InPacket) (cf : ConnectFields) (now : Time).

Definition usernameOf cf : string := if C_UsernameFlag cf then string_of_bytes (C_Username cf) else "".
Definition passwordOf cf : string := if C_PasswordFlag cf then string_of_bytes (C_Password cf) else "".

(** The identifier is the client's own, or a generated one for a clean session. *)
Definition identifies cf now (id : string) : Prop :=
  (C_ClientIdentifier cf = id ∧ id ≠ "") ∨
  (C_ClientIdentifier cf = "" ∧ C_Clean cf = true ∧ generateClientID now = Returns id).

(** What a CONNECT must satisfy: an identifier, not blacklisted, and authenticated or
    exempt. *)
Definition admitted b c pk now (id : string) : Prop :=
  let cf := I_Connect pk in
  identifies cf now id ∧
  (MW_CheckClientConnection MatchString cidrContains (blacklistMiddleware b) id (usernameOf cf)
     (clientIP c) "mqtt" now).1.1 = true ∧
  (bypassesAuth id = true ∨
   AuthChain_Authenticate (authChain b) (usernameOf cf) (passwordOf cf) = AuthSuccess ∨
   AuthChain_Authenticate (authChain b) (usernameOf cf) (passwordOf cf) = AuthIgnore).

(** The only effects of a refused connection: a CONNACK with an error code, a record of a
    blacklist hit, and the end of the connection. *)
Definition refusal (e : effect) : Prop :=
  match e with
  | EWrite p => O_Type p = TConnack ∧ O_ReasonCode p ≠ 0
  | ECloseConn => True
  | EGo (RecordBlock _) => True
  | _ => False
  end.

Lemma reject_refusal p b v b' effs :
  O_Type p = TConnack → O_ReasonCode p ≠ 0 →
  reject (S := S) (R := R) write_ok p b = Returns (v, b', effs) →
  v = Return ∧ b' = b ∧ Forall refusal effs.
Proof.
  intros Ht Hc (ok & b1 & e1 & e2 & [-> ->]%writePacket_Returns & [= <- <- <-] & ->)%bind_Returns.
  split_and!; [done..|]. destruct ok; by repeat constructor.
Qed.

(** *** What an admitted client gets *)

Lemma foldl_subscribe (l : list (string * Z)) mb b :
  foldl (λ b '(t, q), set_topics (TopicStore.Subscribe (topics b) t mb q) b) b l =
  set_topics (foldl (λ st '(t, q), TopicStore.Subscribe st t mb q) (topics b) l) b.
Proof.
  revert b. induction l as [|[t q] l IH]; intros b; simpl; [by destruct b|]. by rewrite IH.
Qed.

Definition expiryOf cf : Duration :=
  if 0 <? C_Keepalive cf * Second then C_Keepalive cf * Second * 2 else 24 * Hour.
Definition willAccepted cf : bool :=
  C_WillFlag cf && (0 <? String.length (C_WillTopic cf))%nat && (C_WillQos cf <=? 2).

(** The session manager after the session is created and the will set. *)
Definition connectedManager b cf id now : PersistentSession * SessionManager S :=
  let '(s, sm) := CreateOrResumeSession (persistentSessionMgr b) id (C_Clean cf) (expiryOf cf) now (λ sm, sm) in
  (s, if willAccepted cf
      then (SetWillMessage sm id (C_WillTopic cf) (C_WillPayload cf) (C_WillQos cf) (C_WillRetain cf) 0).2
      else sm).

Lemma restore_eq (clean : bool) (l : list (string * Z)) mb b :
  when clean (forM l (λ '(topic, qos), modify (λ b, set_topics (TopicStore.Subscribe (topics b) topic mb qos) b))) b =
  Returns ((), if clean then set_topics (foldl (λ st '(t, q), TopicStore.Subscribe st t mb q) (topics b) l) b
               else b, []).
Proof.
  destruct clean; [|done]. simpl. rewrite <-foldl_subscribe. revert b.
  induction l as [|[t q] l IH]; intros b; simpl; [done|].
  rewrite (bind_eq (modify _) _ b () _ [] eq_refl). by rewrite IH.
Qed.

Lemma connectSession_eq c cf id now b :
  ∃ b' effs,
    connectSession c cf id now b =
    Returns (Next (mkConn id (Some (nextMailbox b)) (C_Keepalive cf * Second)
                     (receivedDisconnectPacket c) (remoteAddr c)), b', effs) ∧
    persistentSessionMgr b' = (connectedManager b cf id now).2 ∧
    data (sessions b') !! id = Some (nextMailbox b) ∧
    (C_Clean cf = false → ∃ st,
       topics b' = foldl (λ st '(t, q), TopicStore.Subscribe st t (Some (nextMailbox b)) q) st
                     (map_to_list (Subscriptions (connectedManager b cf id now).1))).
Proof.
  unfold connectSession, connectedManager, expiryOf.
  destruct (CreateOrResumeSession _ _ _ _ _ _) as [s sm] eqn:Ecr.
  rewrite (bind_eq _ _ b s (set_psm sm b) []) by (unfold update; by rewrite Ecr).
  rewrite (bind_eq _ _ _ _ _ _ (when_modify _ _ _)). fold (willAccepted cf).
  set (b1 := if willAccepted cf then _ else _).
  assert (nextMailbox b1 = nextMailbox b) as Hn by (unfold b1; by destruct (willAccepted cf)).
  assert (persistentSessionMgr b1 = if willAccepted cf
      then (SetWillMessage sm id (C_WillTopic cf) (C_WillPayload cf) (C_WillQos cf) (C_WillRetain cf) 0).2
      else sm) as Hpsm by (unfold b1; by destruct (willAccepted cf)).
  clearbody b1.
  assert (∃ b2 e2, registerSession id 4 b1 = Returns (Some (nextMailbox b1), b2, e2) ∧
    persistentSessionMgr b2 = persistentSessionMgr b1 ∧ data (sessions b2) !! id = Some (nextMailbox b1))
    as (b2 & e2 & Hreg & Hpsm2 & Hs2).
  { unfold registerSession, mbind, BM_bind, gets, modify, emit, mret, BM_ret. simpl.
    destruct (KVStore.Get _ _) as [old|?]; simpl; eexists _, _; (split; [done|]); simpl;
      by rewrite lookup_insert_eq. }
  rewrite Hn in *. rewrite (bind_eq _ _ _ _ _ _ Hreg).
  rewrite (bind_eq (modify _) _ b2 () _ [] eq_refl). rewrite (bind_eq (modify _) _ _ () _ [] eq_refl).
  rewrite (bind_eq _ _ _ _ _ _ (restore_eq _ _ _ _)).
  set (b4 := if negb (C_Clean cf) then _ else _).
  set (del := negb (C_Clean cf) && _).
  assert (persistentSessionMgr b4 = persistentSessionMgr b1 ∧ data (sessions b4) !! id = Some (nextMailbox b))
    as [H1 H2] by (unfold b4; by destruct (C_Clean cf)).
  destruct del; simpl; eexists _, _; (split; [done|]); split_and!; try congruence;
    intros Hcl; unfold b4; rewrite Hcl; by eexists.
Qed.

(** *** The gate *)

Lemma connackPacket_type b pk code :
  O_Type (connackPacket b pk code) = TConnack ∧ O_ReasonCode (connackPacket b pk code) = code.
Proof. unfold connackPacket. destruct (code =? 0) eqn:E; bool_prop; by subst. Qed.

Lemma connackCode_0 r : connackCode r = 0 ↔ r = AuthSuccess ∨ r = AuthIgnore.
Proof. destruct r; simpl; intuition done. Qed.

(** The outcome of a CONNECT: refused without a trace, or admitted and registered. *)
Definition connect_outcome b c pk now (v : verdict) b' (effs : list effect) : Prop :=
  match v with
  | Return => b' = b ∧ Forall refusal effs
  | Next c' =>
      admitted b c pk now (clientID c') ∧
      sessionMailbox c' = Some (nextMailbox b) ∧
      data (sessions b') !! clientID c' = Some (nextMailbox b) ∧
      receivedDisconnectPacket c' = receivedDisconnectPacket c ∧
      persistentSessionMgr b' = (connectedManager b (I_Connect pk) (clientID c') now).2 ∧
      ∃ resp effs', effs = EWrite resp :: effs' ∧ O_Type resp = TConnack ∧ O_ReasonCode resp = 0
  end.

Lemma connectAuthenticate_outcome c pk id now b v b' effs :
  identifies (I_Connect pk) now id →
  connectAuthenticate MatchString cidrContains write_ok c pk id (usernameOf (I_Connect pk))
    (passwordOf (I_Connect pk)) now b = Returns (v, b', effs) →
  connect_outcome b c pk now v b' effs.
Proof.
  intros Hid (chk & b1 & e1 & e2 & [= <- <- <-] & Hk & ->)%bind_Returns.
  destruct (MW_CheckClientConnection _ _ _ _ _ _ _ _) as [[allowed reason] blk] eqn:Echk.
  destruct allowed; simpl in Hk.
  - unfold gets in Hk. rewrite (bind_eq _ _ b _ b [] eq_refl) in Hk. simpl in Hk.
    set (r := if bypassesAuth id then _ else _) in Hk.
    rewrite (bind_eq _ _ b _ b [] eq_refl) in Hk. simpl in Hk.
    destruct (connackPacket_type b pk (connackCode r)) as [Htype Hcode].
    unfold mbind, BM_bind in Hk.
    destruct (writePacket _ _ _) as [[[ok b2] e2']| |] eqn:Ew; simpl in Hk; [|done..].
    apply writePacket_Returns in Ew as [-> ->]. destruct ok; simpl in Hk; [|by simplify_eq].
    destruct (connackCode r =? 0) eqn:Ecode; bool_prop; simpl in Hk.
    + destruct (connectSession_eq c (I_Connect pk) id now b) as (b3 & e3 & Heq & Hpsm & Hs & _).
      rewrite Heq in Hk. simplify_eq/=. split_and!; [|done|done|done|done|].
      * split_and!; [done|by rewrite Echk|]. apply connackCode_0 in Ecode.
        unfold r in Ecode. destruct (bypassesAuth id); [by left|by right].
      * eexists _, _. split_and!; [done..|congruence].
    + simplify_eq/=. split; [done|]. constructor; [|constructor]. split; [done|congruence].
  - destruct blk; unfold mbind, BM_bind in Hk; simpl in Hk; simplify_eq; (split; [done|]);
      by repeat constructor.
Qed.

Lemma handleConnect_outcome c pk now b v b' effs :
  handleConnect MatchString cidrContains write_ok c pk now b = Returns (v, b', effs) →
  connect_outcome b c pk now v b' effs.
Proof.
  unfold handleConnect. set (cf := I_Connect pk).
  assert (∀ p, O_Type p = TConnack → O_ReasonCode p ≠ 0 → reject write_ok p b = Returns (v, b', effs) →
    connect_outcome b c pk now v b' effs) as Hrej.
  { intros p Ht Hc Hr. apply reject_refusal in Hr as (-> & -> & ?); done. }
  destruct (65535 <? _); [by intros [= <- <- <-]; split|].
  destruct (_ || _); [by intros [= <- <- <-]; split|].
  destruct (_ && negb (C_Clean cf)) eqn:Eempty; [by apply Hrej|].
  intros (id & b1 & e1 & e2 & Hid & Hk & ->)%bind_Returns.
  assert (identifies cf now id ∧ b1 = b ∧ e1 = []) as (Hident & -> & ->).
  { unfold identifies. case_bool_decide as Eid; simpl in Eempty.
    - apply negb_false_iff in Eempty. unfold lift in Hid.
      destruct (generateClientID now); simplify_eq/=. split_and!; [by right|done..].
    - injection Hid as <- <- <-. split_and!; [by left|done..]. }
  clear Eempty Hid. destruct (C_PasswordFlag cf && _); [by eapply Hrej; [| |exact Hk]|].
  destruct (_ && _); [by eapply Hrej; [| |exact Hk]|]. by eapply connectAuthenticate_outcome.
Qed.
End Admission.

(** C4. Admission: a CONNECT that is refused leaves the broker exactly as it was, and its only
    effects are a CONNACK with an error code, the record of a blacklist hit and the end of
    the connection; a CONNECT that is accepted names a client (its own identifier, or a
    generated one for a clean session) that the blacklist allows and that is exempt
    from authentication, authenticated, or ignored by every authenticator; it is
    answered first of all with a CONNACK of code 0, the client is registered with a fresh
    mailbox, and its persistent session is created or resumed and given its will. *)
Theorem connect_admission {S Data R} `{KVStore S Data, SessionCodec Data}
    (MatchString : R → string → bool) cidrContains write_ok c pk now (b : Broker S R) v b' effs :
  handleConnect MatchString cidrContains write_ok c pk now b = Returns (v, b', effs) →
  match v with
  | Return => b' = b ∧ Forall refusal effs
  | Next c' =>
      admitted MatchString cidrContains b c pk now (clientID c') ∧
      sessionMailbox c' = Some (nextMailbox b) ∧
      data (sessions b') !! clientID c' = Some (nextMailbox b) ∧
      receivedDisconnectPacket c' = receivedDisconnectPacket c ∧
      persistentSessionMgr b' = (connectedManager b (I_Connect pk) (clientID c') now).2 ∧
      ∃ resp effs', effs = EWrite resp :: effs' ∧ O_Type resp = TConnack ∧ O_ReasonCode resp = 0
  end.
Proof. apply handleConnect_outcome. Qed.

(** A CONNECT with a will, of a persistent client. *)
Definition example_connect : InPacket :=
  mkInPacket TConnect 0 false false 0 "" [] []
    (mkConnectFields "c" false 60 false false [] [] true "last" [] 1 false) false 0 [] "" [] "" 0.

Lemma connect_admission_witness :
  ∃ c' b' effs,
    handleConnect (H0 := idCodec) (λ _ _, false) (λ _ _, false) (λ _, true) (newConn "10.0.0.1:5000")
      example_connect 1000000000 example_broker = Returns (Next c', b', effs) ∧
    admitted (λ _ _, false) (λ _ _, false) example_broker (newConn "10.0.0.1:5000") example_connect
      1000000000 (clientID c').
Proof.
  eexists _, _, _.
  match goal with |- ?P ∧ _ => assert (Hr : P) by (vm_compute; reflexivity) end.
  split; [exact Hr|].
  exact (proj1 (connect_admission (H0 := idCodec) _ _ _ _ _ _ _ _ _ _ Hr)).
Defined.

(** A DISCONNECT is never written. *)
Lemma writePacket_disconnect {S R A} write_ok code (k : bool → BM (Broker S R) A) b :
  (writePacket write_ok (response TDisconnect 0 code) ≫= k) b = k false b.
Proof.
  unfold writePacket. simpl. rewrite (bind_eq (mret false) _ b false b [] eq_refl).
  by destruct (k false b) as [[[? ?] ?]| |].
Qed.

(** C5. Nothing before CONNECT: on a new connection, unless the first read yields a CONNECT
    that is admitted, the whole connection function returns with the broker's state
    untouched, sends nothing to any session and starts no processing: its only effects are
    a refusing CONNACK, the record of a blacklist hit and the end of the connection.
    A CONNECT on a connection that has a session ends it at once in the same way. *)
Theorem nothing_before_connect {S Data R} `{KVStore S Data, SessionCodec Data}
    (MatchString : R → string → bool) cidrContains write_ok addr now r reads (b : Broker S R) u b' effs :
  (∀ pk id, r = ReadPacket pk → I_Type pk = TConnect →
     ¬ admitted MatchString cidrContains b (newConn addr) pk now id) →
  handleConnection MatchString cidrContains write_ok (newConn addr) ((now, r) :: reads) b =
    Returns (u, b', effs) →
  b' = b ∧ Forall refusal effs ∧
  (∀ c pk, is_Some (sessionMailbox c) → I_Type pk = TConnect →
     handlePacket MatchString cidrContains write_ok c pk now b = Returns (Return, b, [])).
Proof.
  intros Hadm Hr. apply and_assoc. split.
  - revert Hr. destruct r as [pk| | | |]; simpl;
      [|by rewrite (writePacket_disconnect write_ok); intros [= _ <- <-]; split; [|repeat constructor]
       |by rewrite (writePacket_disconnect write_ok); intros [= _ <- <-]; split; [|repeat constructor]
       |by intros [= _ <- <-]; split; [|repeat constructor]..].
    intros (v & b1 & e1 & e2 & Hp & Hk & ->)%bind_Returns. unfold handlePacket in Hp. simpl in Hp.
    case_bool_decide as Ht; simpl in Hp.
    + rewrite Ht in Hp. simpl in Hp. apply handleConnect_outcome in Hp. destruct v as [c'|]; simpl in Hp.
      { destruct Hp as [Ha _]. by destruct (Hadm pk (clientID c') eq_refl Ht). }
      destruct Hp as [-> Hf]. injection Hk as _ <- <-. split; [done|].
      apply Forall_app. split; [done|]. by repeat constructor.
    + injection Hp as <- <- <-. injection Hk as _ <- <-. split; [done|]. by repeat constructor.
  - intros c pk Hs Ht. unfold handlePacket. rewrite Ht, (bool_decide_true Hs). simpl.
    by rewrite andb_false_r.
Qed.

Lemma nothing_before_connect_witness :
  let pub := mkInPacket TPublish 1 false false 7 "a/x" [] [] no_connect false 0 [] "" [] "" 0 in
  ∃ effs, handleConnection (H0 := idCodec) (λ _ _, false) (λ _ _, false) (λ _, true)
            (newConn "10.0.0.1:5000") [(0, ReadPacket pub)] example_broker =
          Returns ((), example_broker, effs) ∧ Forall refusal effs.
Proof.
  intros pub. eexists.
  match goal with |- ?P ∧ _ => assert (Hr : P) by (vm_compute; reflexivity) end.
  split; [exact Hr|].
  refine (proj1 (proj2 (nothing_before_connect (H0 := idCodec) _ _ _ _ _ _ _ _ _ _ _ _ Hr))).
  intros pk id [= <-] Ht. discriminate.
Defined.

(** ** SUBSCRIBE *)

Section Subscribing.
Context {S Data R : Type} `{KVStore S Data, SessionCodec Data}.
Context (MatchString : R → string → bool) (write_ok : OutPacket → bool).
Abbreviation B := (Broker S R).
Implicit Types (b : B) (c : Conn) (now : Time) (f : FilterQos).

Definition subscribeCheck b c now f : bool * string * option BlacklistBlock :=
  CheckSubscribeAccess MatchString (blacklistMiddleware b) (clientID c) "" (clientIP c) (F_Filter f) now.

(** A filter is granted when it is well formed, harmless and not blacklisted. *)
Definition filterGranted b c now f : bool :=
  match filterRefused f with
  | Some _ => false
  | None => (subscribeCheck b c now f).1.1
  end.

(** Its reason code: the granted QoS, or why it is refused. *)
Definition filterCode b c now f : Z :=
  match filterRefused f with
  | Some code => code
  | None => if (subscribeCheck b c now f).1.1 then F_Qos f else 135
  end.

Lemma filterRefused_qos f : filterRefused f = None → F_Qos f ≤ 2.
Proof. unfold filterRefused. repeat case_match; bool_prop; by try lia. Qed.

Lemma filterCode_granted b c now f :
  0 ≤ F_Qos f → filterGranted b c now f = true ↔ filterCode b c now f < 128.
Proof.
  intros Hq. unfold filterGranted, filterCode. destruct (filterRefused f) as [code|] eqn:E.
  - assert (128 ≤ code); [|split; [done|lia]]. revert E. unfold filterRefused.
    repeat case_match; intros; simplify_eq; lia.
  - apply filterRefused_qos in E. destruct (subscribeCheck _ _ _ _).1.1; split; try done; lia.
Qed.

Definition routeOf b f : Route := mkRoute (F_Filter f) [nodeID b].
Definition record_only (e : effect) : Prop := ∃ blk, e = EGo (RecordBlock blk).

(** What a step of SUBSCRIBE leaves alone. *)
Definition same_setting b b' : Prop :=
  blacklistMiddleware b' = blacklistMiddleware b ∧ cluster b' = cluster b ∧ nodeID b' = nodeID b ∧
  sessions b' = sessions b.

Lemma subscribeFilter_eq c f now b :
  ∃ b' effs, subscribeFilter MatchString c f now b =
    Returns (filterCode b c now f, if filterGranted b c now f then [routeOf b f] else [], b', effs) ∧
  same_setting b b' ∧ Forall record_only effs ∧
  topics b' = if filterGranted b c now f
              then TopicStore.Subscribe (topics b) (F_Filter f) (sessionMailbox c) (F_Qos f) else topics b.
Proof.
  unfold subscribeFilter, filterCode, filterGranted, subscribeCheck.
  destruct (filterRefused f) as [code|] eqn:Ef; [by eexists _, _|]. unfold gets.
  rewrite (bind_eq _ _ b _ b [] eq_refl).
  destruct (CheckSubscribeAccess _ _ _ _ _ _ _) as [[allowed reason] blk]. simpl.
  destruct allowed; simpl.
  - apply filterRefused_qos in Ef. rewrite (proj2 (Z.ltb_ge 2 (F_Qos f))) by lia.
    unfold mbind, BM_bind, modify. simpl. eexists _, _. split; [done|]. done.
  - destruct blk; unfold mbind, BM_bind, emit; simpl; eexists _, _; (split; [done|]); split_and!; try done.
    constructor; [by eexists|constructor].
Qed.

Lemma filterGranted_setting b b' c now f :
  same_setting b b' → filterGranted b' c now f = filterGranted b c now f.
Proof. intros (Hb & _). unfold filterGranted, subscribeCheck. by rewrite Hb. Qed.
Lemma filterCode_setting b b' c now f :
  same_setting b b' → filterCode b' c now f = filterCode b c now f.
Proof. intros (Hb & _). unfold filterCode, subscribeCheck. by rewrite Hb. Qed.

Definition grantedFilters b c now (fs : list FilterQos) : list FilterQos :=
  List.filter (filterGranted b c now) fs.

Lemma subscribeFilters_eq c fs now b :
  ∃ b' effs, subscribeFilters MatchString c fs now b =
    Returns (filterCode b c now <$> fs, routeOf b <$> grantedFilters b c now fs, b', effs) ∧
  same_setting b b' ∧ Forall record_only effs ∧
  topics b' = foldl (λ st f, TopicStore.Subscribe st (F_Filter f) (sessionMailbox c) (F_Qos f)) (topics b)
                (grantedFilters b c now fs).
Proof.
  revert b. induction fs as [|f fs IH]; intros b; simpl; [by eexists _, _|].
  destruct (subscribeFilter_eq c f now b) as (b1 & e1 & Heq & Hs1 & He1 & Ht1).
  rewrite (bind_eq _ _ _ _ _ _ Heq). destruct (IH b1) as (b2 & e2 & Heq2 & Hs2 & He2 & Ht2).
  rewrite (bind_eq _ _ _ _ _ _ Heq2). simpl.
  assert (∀ fs, grantedFilters b1 c now fs = grantedFilters b c now fs) as Hg.
  { clear -Hs1. induction fs as [|x fs IH]; simpl; [done|].
    by rewrite (filterGranted_setting b b1), IH by done. }
  rewrite Hg, Ht1 in *. eexists _, _. split; [|split; [|split]].
  - do 4 f_equal; [f_equal; apply list_fmap_ext; intros; by apply filterCode_setting|].
    destruct Hs1 as (_ & _ & Hn & _). unfold routeOf. rewrite Hn. by destruct (filterGranted b c now f).
  - destruct Hs1 as (? & ? & ? & ?), Hs2 as (? & ? & ? & ?). split_and!; congruence.
  - rewrite app_nil_r. by apply Forall_app.
  - rewrite Ht2. by destruct (filterGranted b c now f).
Qed.

(** The calls that announce routes. *)
Lemma elem_of_broadcast m routes call :
  call ∈ BroadcastRouteUpdate m routes ↔
  ∃ peer, is_Some (peers m !! peer) ∧
    call = CallBatchUpdateRoutes peer (mkBatchUpdateRoutesRequest routes "add" (NodeID m)).
Proof.
  unfold BroadcastRouteUpdate. rewrite list_elem_of_fmap. split.
  - intros ([peer cl] & -> & Hin%elem_of_map_to_list). eauto.
  - intros (peer & [cl Hcl] & ->). exists (peer, cl). split; [done|]. by apply elem_of_map_to_list.
Qed.

Lemma announce_eq b m routes :
  forM (BroadcastRouteUpdate m routes) (λ call, emit (ECall call)) b =
  Returns ((), b, ECall <$> BroadcastRouteUpdate m routes).
Proof. rewrite (forM_emits _ _ (λ call, [ECall call])) by done. by rewrite flat_map_singleton. Qed.

(** The whole of a SUBSCRIBE that goes on. *)
Lemma handleSubscribe_Next c pk now b c' b' effs :
  I_PacketID pk ≠ 0 → I_Filters pk ≠ [] →
  handleSubscribe MatchString write_ok c pk now b = Returns (Next c', b', effs) →
  c' = c ∧ same_setting b b' ∧
  topics b' = foldl (λ st f, TopicStore.Subscribe st (F_Filter f) (sessionMailbox c) (F_Qos f)) (topics b)
                (grantedFilters b c now (I_Filters pk)) ∧
  ∃ e1, Forall record_only e1 ∧
    effs = e1 ++
      (ECall <$> match cluster b with
                 | Some m => BroadcastRouteUpdate m (routeOf b <$> grantedFilters b c now (I_Filters pk))
                 | None => []
                 end) ++
      [EWrite (responseCodes TSuback (I_PacketID pk) (filterCode b c now <$> I_Filters pk));
       EGo (SendRetained (sessionMailbox c) (I_Filters pk))].
Proof.
  intros Hpid Hne Hr. unfold handleSubscribe in Hr.
  destruct (sessionMailbox c) as [mb|] eqn:Hmb; [|done]. rewrite (proj2 (Z.eqb_neq _ _) Hpid) in Hr.
  destruct (length (I_Filters pk) =? 0)%nat eqn:El.
  { bool_prop. by apply length_zero_iff_nil in El. }
  destruct (subscribeFilters_eq c (I_Filters pk) now b) as (b1 & e1 & Heq & Hset & He1 & Ht).
  rewrite (bind_eq _ _ _ _ _ _ Heq) in Hr. rewrite (bind_eq _ _ b1 _ b1 [] eq_refl) in Hr.
  destruct Hset as (Hbl & Hcl & Hn & Hs). rewrite Hcl in Hr. simpl in Hr.
  assert (∀ k : () → BM B verdict,
    ((match cluster b with
      | Some m => forM (BroadcastRouteUpdate m (routeOf b <$> grantedFilters b c now (I_Filters pk)))
                    (λ call, emit (ECall call))
      | None => mret ()
      end) ≫= k) b1 =
    let! '(a', b2, e2) := k () b1 in
    Returns (a', b2, (ECall <$> match cluster b with
                 | Some m => BroadcastRouteUpdate m (routeOf b <$> grantedFilters b c now (I_Filters pk))
                 | None => []
                 end) ++ e2)) as Hann.
  { intros k. destruct (cluster b) as [m|]; [by rewrite (bind_eq _ _ _ _ _ _ (announce_eq b1 m _))|].
    by rewrite (bind_eq (mret ()) _ b1 () b1 [] eq_refl). }
  rewrite Hann in Hr. unfold mbind at 1, BM_bind at 1 in Hr.
  destruct (writePacket _ _ _) as [[[ok b2] e2]| |] eqn:Ew; simpl in Hr; [|done..].
  apply writePacket_Returns in Ew as [-> ->]. destruct ok; simpl in Hr; [|done].
  injection Hr as <- <- <-. rewrite Hmb in Ht. split_and!; [done..|]. by exists e1.
Qed.
End Subscribing.

(** C18. SUBSCRIBE: a SUBSCRIBE that goes on answers with one reason code per filter, in order:
    the requested QoS for a filter that is granted, an error code (128 or more) for
    one that is malformed, malicious or blacklisted; exactly the granted filters
    enter the topic store for the client's mailbox; exactly they are announced, with this
    node's name, to every peer; and retained messages are looked up for all filters of
    the packet, also for those that were refused. *)
Theorem subscribe_exact {S Data R} `{KVStore S Data, SessionCodec Data}
    (MatchString : R → string → bool) write_ok c pk now (b : Broker S R) c' b' effs :
  I_PacketID pk ≠ 0 → I_Filters pk ≠ [] → Forall (λ f, 0 ≤ F_Qos f) (I_Filters pk) →
  handleSubscribe MatchString write_ok c pk now b = Returns (Next c', b', effs) →
  let granted f := filterGranted MatchString b c now f in
  ∃ codes, c' = c ∧
    EWrite (responseCodes TSuback (I_PacketID pk) codes) ∈ effs ∧
    Forall2 (λ f code, if granted f then code = F_Qos f else 128 ≤ code) (I_Filters pk) codes ∧
    topics b' = foldl (λ st f, TopicStore.Subscribe st (F_Filter f) (sessionMailbox c) (F_Qos f)) (topics b)
                  (List.filter granted (I_Filters pk)) ∧
    (∀ call, ECall call ∈ effs ↔
       ∃ m peer, cluster b = Some m ∧ is_Some (peers m !! peer) ∧
         call = CallBatchUpdateRoutes peer (mkBatchUpdateRoutesRequest
                  (routeOf b <$> List.filter granted (I_Filters pk)) "add" (NodeID m))) ∧
    EGo (SendRetained (sessionMailbox c) (I_Filters pk)) ∈ effs.
Proof.
  intros Hpid Hne Hq (-> & _ & Ht & e1 & He1 & ->)%handleSubscribe_Next granted; [|done..].
  exists (filterCode MatchString b c now <$> I_Filters pk).
  split_and!; [done|set_solver| |done| |set_solver].
  - apply Forall2_fmap_r, Forall_Forall2_diag. eapply Forall_impl; [exact Hq|]. simpl. intros f Hf.
    pose proof (filterCode_granted MatchString b c now f Hf) as Hc. unfold granted.
    destruct (filterGranted MatchString b c now f) eqn:E; [|destruct (decide (128 ≤ filterCode MatchString b c now f));
      [done|by assert (false = true) by (apply Hc; lia)]].
    unfold filterCode, filterGranted in *. destruct (filterRefused f); [done|]. by rewrite E.
  - intros call. rewrite !elem_of_app. split.
    + intros [Hin|[(x & [= <-] & Hin)%list_elem_of_fmap|Hin]].
      * rewrite Forall_forall in He1. by destruct (He1 _ Hin).
      * destruct (cluster b) as [m|]; [|by apply not_elem_of_nil in Hin].
        apply elem_of_broadcast in Hin as (peer & ? & ->). by exists m, peer.
      * set_solver.
    + intros (m & peer & -> & Hp & ->). right; left. apply list_elem_of_fmap. eexists. split; [done|].
      apply elem_of_broadcast. eauto.
Qed.

(** A SUBSCRIBE of the client with a good and a malformed filter. *)
Definition example_subscribe : InPacket :=
  mkInPacket TSubscribe 1 false false 9 "" [] [mkFilterQos "a/+" 1; mkFilterQos "a/#/b" 1] no_connect
    false 0 [] "" [] "" 0.

Lemma subscribe_exact_witness :
  ∃ b' effs codes,
    handleSubscribe (H0 := idCodec) (λ _ _, false) (λ _, true) example_conn example_subscribe 0 clustered_broker
      = Returns (Next example_conn, b', effs) ∧
    EWrite (responseCodes TSuback 9 codes) ∈ effs ∧ length codes = 2%nat ∧
    EGo (SendRetained (Some 1%positive) [mkFilterQos "a/+" 1; mkFilterQos "a/#/b" 1]) ∈ effs.
Proof.
  eexists _, _.
  destruct (subscribe_exact (H0 := idCodec) (λ _ _, false) (λ _, true) example_conn example_subscribe 0
    clustered_broker example_conn _ _ ltac:(done) ltac:(done) ltac:(repeat constructor; done)
    ltac:(vm_compute; reflexivity)) as (codes & _ & Hw & HF & _ & _ & Hret).
  exists codes. split; [vm_compute; reflexivity|]. split; [exact Hw|]. split; [|exact Hret].
  apply Forall2_length in HF. exact (eq_sym HF).
Defined.

(** ** Subscribe, then publish *)

Lemma foldl_Subscribe_granted fs st mb t :
  (∃ f, f ∈ fs ∧ F_Filter f = t) →
  ∃ gq, granted (foldl (λ st f, TopicStore.Subscribe st (F_Filter f) mb (F_Qos f)) st fs) t mb = Some gq ∧
    (malformed_share t = false → ∃ f, f ∈ fs ∧ F_Filter f = t ∧ F_Qos f = gq).
Proof.
  induction fs as [|g fs IH] using rev_ind; intros (f & Hf & Ht).
  { by apply not_elem_of_nil in Hf. }
  rewrite foldl_snoc, granted_Subscribe. case_bool_decide as Hg.
  - eexists. split; [done|]. intros ->. exists g. split_and!; [set_solver|naive_solver|done].
  - destruct IH as (gq & Hgr & Hq).
    { exists f. split; [|done]. apply elem_of_app in Hf as [?|Hf]; [done|].
      apply list_elem_of_singleton in Hf as ->. by destruct Hg. }
    exists gq. split; [done|]. intros Hm. destruct (Hq Hm) as (f' & Hf' & ?).
    exists f'. split; [set_solver|done].
Qed.

Lemma wf_foldl_Subscribe fs st mb :
  wf_store st → wf_store (foldl (λ st f, TopicStore.Subscribe st (F_Filter f) mb (F_Qos f)) st fs).
Proof. revert st. induction fs as [|f fs IH]; intros st Hst; simpl; [done|]. by apply IH, wf_Subscribe. Qed.

Section PostAck.
Context {S Data R : Type} `{KVStore S Data, SessionCodec Data}.
Abbreviation B := (Broker S R).
Implicit Types (b : B).

Lemma routePublish_local_eq b topic payload q up rt corr b' effs :
  RouteToLocalSubscribersWithRequestResponse topic payload q up rt corr b = Returns ((), b', effs) →
  routePublishWithRequestResponse topic payload q up rt corr b =
  Returns ((), b', effs ++ (ECall <$> match cluster b' with
                                      | Some m => forward_calls m (nodeID b') topic payload
                                      | None => []
                                      end)).
Proof.
  intros Heq. unfold routePublishWithRequestResponse. rewrite (bind_eq _ _ _ _ _ _ Heq).
  by rewrite forwardToRemote_eq.
Qed.

(** Processing an accepted publish returns, and every receiver of the topic gets it. *)
Lemma processPublishPostAck_delivers b id topic payload q retain up rt corr now :
  Inv b →
  ∃ b' effs,
    processPublishPostAck id topic payload q retain up rt corr now b = Returns ((), b', effs) ∧
    ∀ sub, receives (topics b) topic sub → ∃ qos, Z.min q (Sub_QoS sub) ≤ qos ≤ q ∧
      ESend (Sub_Mailbox sub) (MPublish (mkPublish topic payload qos false up 0 rt corr)) ∈ effs.
Proof.
  intros Hb. unfold processPublishPostAck.
  assert (∃ b1, when retain (storeRetained topic payload q id now) b = Returns ((), b1, []) ∧
    topics b1 = topics b ∧ persistentSessionMgr b1 = persistentSessionMgr b) as (b1 & Heq1 & Ht1 & Hp1)
    by (destruct retain; by eexists).
  rewrite (bind_eq _ _ _ _ _ _ Heq1). rewrite <-Ht1.
  destruct (routeRequestResponse_eq b1 topic payload q up rt corr) as (ds & Heq2 & _ & Hds);
    [rewrite Ht1; by destruct Hb|].
  set (b2 := set_topics (advanced topic (topics b1)) b1) in *.
  destruct (queueOffline_returns (persistentSessionMgr b2) topic payload q retain BasicTopicMatcher_Matches
    now) as (sm & Hsm & _); [simpl; rewrite Hp1; by destruct Hb|].
  rewrite (bind_eq _ _ _ _ _ _ (routePublish_local_eq _ _ _ _ _ _ _ _ _ Heq2)).
  rewrite (bind_eq (emit _) _ b2 () b2 _ eq_refl). unfold queueForOffline. rewrite Hsm. simpl.
  eexists _, _. split; [done|]. intros sub Hrec.
  destruct (receives_delivery (topics b1) topic q sub) as (qos & Hdel); [rewrite Ht1; by destruct Hb|done|].
  exists qos. split.
  - destruct Hdel as [(s' & _ & _ & ->) Hmax]. specialize (Hmax _ Hrec eq_refl). lia.
  - apply Hds, (list_elem_of_fmap_2 (λ '(mb, qos), ESend mb (MPublish
      (mkPublish topic payload qos false up 0 rt corr)))) in Hdel.
    simpl. rewrite !elem_of_app. tauto.
Qed.
End PostAck.

(** The effects include the message's delivery to a mailbox, at a QoS between the granted one
    (or the publish's, if lower) and the publish's. *)
Definition sent_to (effs : list effect) (mb : MailboxPtr) (gq q : Z) (m : Z → Publish) : Prop :=
  ∃ qos, Z.min q gq ≤ qos ≤ q ∧ ESend mb (MPublish (m qos)) ∈ effs.

(** C3. Subscribe, then publish: once a client's SUBSCRIBE has been answered and a filter of it
    granted, the store holds the client's entry for the filter (at the QoS the SUBSCRIBE
    gave, unless the filter is a malformed shared one), and processing any accepted publish
    returns.  If the filter is not shared and matches the topic, the message is sent to the
    client's mailbox.  If it is $share/g/t and t matches, the client is a member of the group
    and the message is sent to the member whose turn it is, who may be another.  The QoS is
    between the receiver's granted one (or the publish's, if lower) and the publish's. *)
Theorem subscribe_then_publish {S Data R} `{KVStore S Data, SessionCodec Data}
    (MatchString : R → string → bool) write_ok c pk now (b : Broker S R) c' b1 effs1 f
    id topic payload q retain up rt corr now' :
  Inv b → I_PacketID pk ≠ 0 → f ∈ I_Filters pk →
  handleSubscribe MatchString write_ok c pk now b = Returns (Next c', b1, effs1) →
  filterGranted MatchString b c now f = true →
  let m qos := mkPublish topic payload qos false up 0 rt corr in
  ∃ gq b2 effs2,
    granted (topics b1) (F_Filter f) (sessionMailbox c) = Some gq ∧
    (malformed_share (F_Filter f) = false →
     ∃ f', f' ∈ I_Filters pk ∧ F_Filter f' = F_Filter f ∧ F_Qos f' = gq) ∧
    processPublishPostAck id topic payload q retain up rt corr now' b1 = Returns ((), b2, effs2) ∧
    match share_parts (F_Filter f) with
    | None => mqtt_match (levels topic) (levels (F_Filter f)) → sent_to effs2 (sessionMailbox c) gq q m
    | Some (g, t) => ∃ sh next,
        sharedSubscriptions (topics b1) !! group_key (g, t) = Some sh ∧
        mkSubscription (sessionMailbox c) gq ∈ Mailboxes sh ∧ Mailboxes sh !! NextIndex sh = Some next ∧
        (mqtt_match (levels topic) (levels t) → sent_to effs2 (Sub_Mailbox next) (Sub_QoS next) q m)
    end.
Proof.
  intros Hb Hpid Hf Hr Hg m.
  pose proof (safe_Returns _ _ _ _ _ (handleSubscribe_safe MatchString write_ok c pk now) Hb Hr) as Hb1.
  apply handleSubscribe_Next in Hr as (-> & _ & Ht & _); [|done|by destruct (I_Filters pk); [apply not_elem_of_nil in Hf|]].
  destruct (foldl_Subscribe_granted (grantedFilters MatchString b c now (I_Filters pk)) (topics b)
    (sessionMailbox c) (F_Filter f)) as (gq & Hgr & Hq).
  { exists f. split; [|done]. apply list_elem_of_In, filter_In. by rewrite <-list_elem_of_In. }
  rewrite <-Ht in Hgr.
  destruct (processPublishPostAck_delivers b1 id topic payload q retain up rt corr now' Hb1)
    as (b2 & effs2 & Heq & Hdel).
  exists gq, b2, effs2. split_and!; [done| |done|].
  - intros Hm. destruct (Hq Hm) as (f' & Hf' & ?). exists f'. split; [|done].
    apply list_elem_of_In, filter_In in Hf' as [Hf' _]. by apply list_elem_of_In.
  - destruct (share_parts (F_Filter f)) as [[g t]|] eqn:Hs.
    + destruct (granted_group_receives (topics b1) topic _ _ _ _ (inv_topics _ Hb1) Hs Hgr)
        as (sh & next & ? & ? & ? & Hrec).
      exists sh, next. split_and!; [done..|]. intros Hm. by apply Hdel, Hrec.
    + intros Hm. by apply (Hdel _ (granted_receives _ _ _ _ _ Hs Hgr Hm)).
Qed.

Lemma subscribe_then_publish_witness :
  ∃ b1 effs1 b2 effs2 qos,
    handleSubscribe (H0 := idCodec) (λ _ _, false) (λ _, true) example_conn example_subscribe 0 clustered_broker
      = Returns (Next example_conn, b1, effs1) ∧
    processPublishPostAck (H0 := idCodec) "p" "a/x" [] 1 false ∅ "" [] 5 b1 = Returns ((), b2, effs2) ∧
    ESend (Some 1%positive) (MPublish (mkPublish "a/x" [] qos false ∅ 0 "" [])) ∈ effs2.
Proof.
  assert (Hr : ∃ b1 effs1, handleSubscribe (H0 := idCodec) (λ _ _, false) (λ _, true) example_conn
    example_subscribe 0 clustered_broker = Returns (Next example_conn, b1, effs1))
    by (eexists _, _; vm_compute; reflexivity).
  destruct Hr as (b1 & effs1 & Hr).
  destruct (subscribe_then_publish (H0 := idCodec) (λ _ _, false) (λ _, true) example_conn example_subscribe 0
    clustered_broker example_conn b1 effs1 (mkFilterQos "a/+" 1) "p" "a/x" [] 1 false ∅ "" [] 5)
    as (gq & b2 & effs2 & _ & _ & Heq & Hin).
  - apply Inv_New.
  - done.
  - by constructor.
  - exact Hr.
  - vm_compute. reflexivity.
  - change (share_parts (F_Filter (mkFilterQos "a/+" 1))) with (@None (string * string)) in Hin.
    destruct Hin as (qos & _ & Hin); [apply matchesTopicFilter_iff; reflexivity|].
    exists b1, effs1, b2, effs2, qos. split; [exact Hr|]. split; [exact Heq|exact Hin].
Defined.
