(* ===== verification/BrokerEnds.v ===== *)
(** * BrokerEnds: how connections end (pkg/broker/broker.go)

    A graceful DISCONNECT, a broken connection, a time-out and the early returns of the
    connection function clean up differently.  The theorems state what each of them leaves
    behind. *)

From S2P Require Import Prelude GoLib TopicMatch Actor TopicStore KVStore Will Persistent Offline.
From S2P Require Import Messages Retainer Session Auth Blacklist Cluster BrokerState BrokerConn.
From S2P Require Import BrokerProps BrokerRouting BrokerProtocol.
Local Open Scope emqx_scope.
Local Open Scope Z_scope.

Section Ends.
Context {S Data R : Type} `{KVStore S Data, SessionCodec Data}.
Context (MatchString : R → string → bool) (cidrContains : string → string → bool).
Context (write_ok : OutPacket → bool).
Abbreviation B := (Broker S R).
Implicit Types (b : B) (c : Conn) (pk : InPacket) (now : Time) (sm : SessionManager S).

Lemma wills_deleteSession id sm : willManager (deleteSession id sm).2 = willManager sm.
Proof. unfold deleteSession. by destruct (kv_Delete _ _). Qed.

(** *** A broken connection of a client with a will *)

(** The client has a session with a will that is due at once. *)
Definition undelayed_will sm (id : string) : Prop :=
  ∃ s w, activeSessions sm !! id = Some s ∧ Session_Will s = Some w ∧ Will_DelayInterval w ≤ 0.

Lemma active_CreateOrResume sm id clean exp now :
  activeSessions (CreateOrResumeSession sm id clean exp now (λ sm, sm)).2 !! id =
  Some (CreateOrResumeSession sm id clean exp now (λ sm, sm)).1.
Proof.
  unfold CreateOrResumeSession. cbv beta. destruct (activeSessions sm !! id); simpl; [by rewrite lookup_insert_eq|].
  destruct (if clean then _ else _); simpl; [by rewrite lookup_insert_eq|].
  destruct clean; rewrite ?active_save_logged; simpl; by rewrite lookup_insert_eq.
Qed.

Lemma connectedManager_will b cf id now :
  willAccepted cf = true →
  ∃ s, activeSessions (connectedManager b cf id now).2 !! id = Some s ∧
    Session_Will s = Some (mkWillMessage (C_WillTopic cf) (C_WillPayload cf) (C_WillQos cf) (C_WillRetain cf) 0).
Proof.
  intros Hw. unfold connectedManager.
  pose proof (active_CreateOrResume (persistentSessionMgr b) id (C_Clean cf) (expiryOf cf) now) as Ha.
  destruct (CreateOrResumeSession _ _ _ _ _ _) as [s sm]. simpl in *. rewrite Hw.
  unfold SetWillMessage. rewrite Ha. simpl. rewrite lookup_insert_eq. by eexists.
Qed.

(** Publishing a will while holding the lock of a live session does not return. *)
Lemma publishWill_held_stuck id w now b r :
  is_Some (activeSessions (persistentSessionMgr b) !! id) →
  wf_store (topics b) →
  publishWill {[id]} w id now b ≠ Returns r.
Proof.
  intros Ha Hwf Hr. unfold publishWill in Hr. destruct r as [[u b'] e].
  apply bind_Returns in Hr as (u1 & b1 & e1 & e2 & H1 & Hr & ->).
  apply bind_Returns in Hr as (u2 & b2 & e3 & e4 & H2 & Hr & ->).
  assert (persistentSessionMgr b1 = persistentSessionMgr b ∧ topics b1 = topics b) as [Hp1 Ht1]
    by (destruct (Will_Retain w); by injection H1 as _ <- _).
  assert (persistentSessionMgr b2 = persistentSessionMgr b1) as Hp2.
  { unfold routePublish in H2. apply bind_Returns in H2 as (u3 & b3 & e5 & e6 & H3 & H4 & _).
    destruct (routeQoS_eq b1 (Will_Topic w) (Will_Payload w) (Will_QoS w)) as (subs & _ & Heq); [by rewrite Ht1|].
    rewrite Heq in H3. injection H3 as <- <- <-. rewrite forwardToRemote_eq in H4. by simplify_eq. }
  unfold queueForOffline in Hr. rewrite Hp2, Hp1 in Hr.
  apply outcome_bind_Returns in Hr as (sm & Hq & _).
  by apply (queue_held_stuck _ _ _ _ _ _ _ id) in Hq; [|set_solver|].
Qed.

Lemma disconnect_stuck id now b :
  Inv b → undelayed_will (persistentSessionMgr b) id → disconnectSession id false now b = Blocks.
Proof.
  intros Hb (s & w & Hs & Hw & Hd). pose proof (disconnectSession_safe id false now b Hb) as Hsafe.
  destruct (disconnectSession id false now b) as [r| |] eqn:Hr; [exfalso|done|done].
  revert Hr. unfold disconnectSession, DisconnectSession. simpl. rewrite Hs. simpl. rewrite Hw. simpl.
  unfold PublishWillMessage. rewrite (proj2 (Z.ltb_ge _ _)) by done. simpl.
  match goal with |- context [publishWill _ _ _ _ ?b0] =>
    destruct (publishWill {[id]} w id now b0) as [r'| |] eqn:Hp end; [|done..].
  apply publishWill_held_stuck in Hp; [done| |by destruct Hb].
  simpl. rewrite lookup_insert_eq. by eexists.
Qed.

Lemma identifies_nonempty cf now id : identifies cf now id → id ≠ "".
Proof.
  intros [[_ ?]|(_ & _ & Hg)]; [done|]. unfold generateClientID in Hg. case_match; [done|].
  by injection Hg as <-.
Qed.

(** *** Clean-up that returns *)

Lemma disconnectSession_eq b id graceful now s :
  activeSessions (persistentSessionMgr b) !! id = Some s → graceful = true ∨ Session_Will s = None →
  ∃ sm, disconnectSession id graceful now b = Returns (None, set_psm sm b, []) ∧
    willManager sm = (if graceful then CancelWillMessage (willManager (persistentSessionMgr b)) id
                      else willManager (persistentSessionMgr b)) ∧
    ∀ id', activeSessions sm !! id' =
      if decide (id' = id) then if CleanSession s then None else Some (with_will None (touch false now s))
      else activeSessions (persistentSessionMgr b) !! id'.
Proof.
  intros Hs Hw. unfold disconnectSession, DisconnectSession. simpl. rewrite Hs. simpl.
  destruct graceful; [destruct (Session_Will s)|destruct Hw as [?|Hw]; [done|rewrite Hw]]; simpl;
    (eexists; split; [done|]);
    destruct (CleanSession s); rewrite ?wills_save_logged, ?wills_deleteSession; (split; [done|]);
    intros id'; rewrite ?active_save_logged, ?active_deleteSession; simpl; rewrite ?insert_insert_eq;
    case_decide; subst; by rewrite ?lookup_delete_eq, ?lookup_delete_ne, ?lookup_insert_eq, ?lookup_insert_ne.
Qed.

(** What the clean-up of a client removes, and what it leaves. *)
Record cleaned b b' (id : string) (mb : positive) (s : PersistentSession) now : Prop := {
  cleaned_sessions id' :
    data (sessions b') !! id' = if decide (id' = id) then None else data (sessions b) !! id';
  cleaned_topics t m :
    granted (topics b') t m = if decide (m = Some mb) then None else granted (topics b) t m;
  cleaned_callbacks : offlineCallbacks b' = offlineCallbacks b ∖ {[id]};
  cleaned_aliases : topicAliasManagers b' = delete id (topicAliasManagers b);
  cleaned_processed : processedQoS1 b' = delete id (processedQoS1 b);
  cleaned_active id' :
    activeSessions (persistentSessionMgr b') !! id' =
      if decide (id' = id) then if CleanSession s then None else Some (with_will None (touch false now s))
      else activeSessions (persistentSessionMgr b) !! id';
}.

Lemma teardown_eq b id graceful now s mb :
  activeSessions (persistentSessionMgr b) !! id = Some s → data (sessions b) !! id = Some mb →
  graceful = true ∨ Session_Will s = None →
  ∃ b', teardown id graceful now b = Returns ((), b', []) ∧ cleaned b b' id mb s now ∧
  willManager (persistentSessionMgr b') =
    (if graceful then CancelWillMessage (willManager (persistentSessionMgr b)) id
     else willManager (persistentSessionMgr b)).
Proof.
  intros Hs Hmb Hw. destruct (disconnectSession_eq b id graceful now s Hs Hw) as (sm & Hd & Hwm & Ha).
  unfold teardown, unregisterSession, mbind, BM_bind, modify, gets, emit, KVStore.Get.
  rewrite Hd. simpl. rewrite Hmb. simpl. eexists. split; [done|]. simpl. split; [|done].
  split; try done; simpl.
  - intros id'. case_decide; [subst; by rewrite lookup_delete_eq|by rewrite lookup_delete_ne].
  - intros t m. by rewrite <-granted_RemoveAll.
Qed.
End Ends.

(** C22. A will is never fully published on a broken connection: DisconnectSession publishes the
    will while it holds the session's lock, and the publisher asks for the lock of every
    active session, so the call waits for itself.  For any session with an undelayed
    will the ungraceful disconnection blocks, and so the connection function of every
    client whose CONNECT carried an accepted will (the broker gives all wills delay 0)
    never gets to remove its callback, aliases, subscriptions and registration. *)
Theorem ungraceful_will_blocks {S Data R} `{KVStore S Data, SessionCodec Data}
    (MatchString : R → string → bool) cidrContains write_ok (b : Broker S R) :
  Inv b →
  (∀ id now, undelayed_will (persistentSessionMgr b) id → disconnectSession id false now b = Blocks) ∧
  (∀ c pk now c' b' effs now', clock_ok now → receivedDisconnectPacket c = false →
     willAccepted (I_Connect pk) = true →
     handleConnect MatchString cidrContains write_ok c pk now b = Returns (Next c', b', effs) →
     afterLoop c' now' b' = Blocks).
Proof.
  intros Hb. split; [intros; by apply disconnect_stuck|].
  intros c pk now c' b' effs now' Hn Hd Hw Hr.
  pose proof (safe_Returns _ _ _ _ _ (handleConnect_safe MatchString cidrContains write_ok c pk now Hn) Hb Hr) as Hb'.
  apply handleConnect_outcome in Hr as ((Hid & _) & _ & _ & Hd' & Hpsm & _).
  destruct (connectedManager_will b (I_Connect pk) (clientID c') now Hw) as (s & Hs & Hsw).
  rewrite <-Hpsm in Hs. unfold afterLoop.
  rewrite bool_decide_false by (by eapply identifies_nonempty). simpl. unfold teardown.
  unfold mbind at 1, BM_bind at 1. rewrite Hd', Hd. rewrite disconnect_stuck; [done..|].
  eexists s, _. split_and!; [done|exact Hsw|done].
Qed.

Lemma ungraceful_will_blocks_witness :
  ∃ c' b' effs,
    handleConnect (H0 := idCodec) (λ _ _, false) (λ _ _, false) (λ _, true) (newConn "10.0.0.1:5000")
      example_connect 1000000000 example_broker = Returns (Next c', b', effs) ∧
    afterLoop (H0 := idCodec) c' 2000000000 b' = Blocks.
Proof.
  assert (Hr : ∃ c' b' effs, handleConnect (H0 := idCodec) (λ _ _, false) (λ _ _, false) (λ _, true)
    (newConn "10.0.0.1:5000") example_connect 1000000000 example_broker = Returns (Next c', b', effs))
    by (eexists _, _, _; vm_compute; reflexivity).
  destruct Hr as (c' & b' & effs & Hr). exists c', b', effs. split; [exact Hr|].
  refine (proj2 (ungraceful_will_blocks (H0 := idCodec) _ _ _ example_broker _) _ _ _ _ _ _ _ _ _ _ Hr).
  - apply Inv_New.
  - unfold clock_ok. vm_compute. lia.
  - reflexivity.
  - reflexivity.
Defined.

(** C19. A graceful DISCONNECT always returns and closes the connection without publishing the
    will: the client's registration, its mailbox's subscriptions (and no one else's), its
    delivery callback, topic aliases and remembered packet identifiers are removed, its
    pending delayed wills are cancelled, and its persistent session is deleted if clean and
    otherwise kept, disconnected and without will; no other session changes. *)
Theorem graceful_disconnect_exact {S Data R} `{KVStore S Data, SessionCodec Data}
    (b : Broker S R) c now s mb :
  activeSessions (persistentSessionMgr b) !! clientID c = Some s →
  data (sessions b) !! clientID c = Some mb →
  ∃ b', handleDisconnect c now b = Returns (Return, b', [ECloseConn]) ∧
    cleaned b b' (clientID c) mb s now ∧
    willManager (persistentSessionMgr b') =
      CancelWillMessage (willManager (persistentSessionMgr b)) (clientID c).
Proof.
  intros Hs Hmb. destruct (teardown_eq b (clientID c) true now s mb Hs Hmb (or_introl eq_refl))
    as (b' & Heq & Hc & Hw).
  exists b'. split; [|done]. unfold handleDisconnect. by rewrite (bind_eq _ _ _ _ _ _ Heq).
Qed.

(** A broker that serves one persistent client. *)
Definition connected_broker : Broker (MemStore PersistentSession) unit :=
  set_sessions (mkMemStore {["c" := 1%positive]})
    (set_psm (CreateOrResumeSession (H0 := idCodec) (NewSessionManager NewMemStore None) "c" false 0 0 (λ sm, sm)).2
       routed_broker).

Lemma graceful_disconnect_exact_witness :
  ∃ s, activeSessions (persistentSessionMgr connected_broker) !! "c" = Some s ∧
    data (sessions connected_broker) !! "c" = Some 1%positive ∧
  ∃ b', handleDisconnect (H0 := idCodec) example_conn 5 connected_broker = Returns (Return, b', [ECloseConn]) ∧
    ∀ t, granted (topics b') t (Some 1%positive) = None.
Proof.
  eexists. split; [reflexivity|]. split; [reflexivity|].
  destruct (graceful_disconnect_exact (H0 := idCodec) connected_broker example_conn 5 _ 1%positive eq_refl eq_refl)
    as (b' & Hr & Hc & _).
  exists b'. split; [exact Hr|]. intros t. rewrite (cleaned_topics _ _ _ _ _ _ Hc). reflexivity.
Defined.

(** ** A connection that was taken over *)

(** The clean-up of a stale connection evicts its successor: when a client has reconnected,
    so that its name is registered with the new connection's mailbox, and the old
    connection then breaks (as a takeover makes it do), the old connection's clean-up, which goes by
    the client's name and not by its mailbox, removes the new connection's
    registration, all subscriptions of the new mailbox, the delivery callback and the
    aliases, and marks the session disconnected or deletes it. *)
Theorem stale_cleanup_evicts {S Data R} `{KVStore S Data, SessionCodec Data}
    (b : Broker S R) c now s mb :
  clientID c ≠ "" → sessionMailbox c ≠ Some mb →
  data (sessions b) !! clientID c = Some mb →
  activeSessions (persistentSessionMgr b) !! clientID c = Some s → Session_Will s = None →
  ∃ b', afterLoop c now b = Returns ((), b', []) ∧ cleaned b b' (clientID c) mb s now.
Proof.
  intros Hid _ Hmb Hs Hw.
  destruct (teardown_eq b (clientID c) (receivedDisconnectPacket c) now s mb Hs Hmb (or_intror Hw))
    as (b' & Heq & Hc & _).
  exists b'. unfold afterLoop. by rewrite (bool_decide_false Hid).
Qed.

(** The old connection of a client that is now served by mailbox 1. *)
Definition stale_conn : Conn := mkConn "c" (Some 9%positive) 0 false "10.0.0.1:4000".

Lemma stale_cleanup_evicts_witness :
  sessionMailbox stale_conn ≠ Some 1%positive ∧
  data (sessions connected_broker) !! "c" = Some 1%positive ∧
  ∃ b', afterLoop (H0 := idCodec) stale_conn 5 connected_broker = Returns ((), b', []) ∧
    data (sessions b') !! "c" = None ∧ ∀ t, granted (topics b') t (Some 1%positive) = None.
Proof.
  split; [done|]. split; [reflexivity|].
  destruct (stale_cleanup_evicts (H0 := idCodec) connected_broker stale_conn 5 _ 1%positive
    ltac:(done) ltac:(done) eq_refl eq_refl eq_refl) as (b' & Hr & Hc).
  exists b'. split; [exact Hr|]. split.
  - rewrite (cleaned_sessions _ _ _ _ _ _ Hc). reflexivity.
  - intros t. rewrite (cleaned_topics _ _ _ _ _ _ Hc). reflexivity.
Defined.

(** ** Connections that end without clean-up *)

Section Kept.
Context {S Data R : Type} `{KVStore S Data, SessionCodec Data}.
Context (MatchString : R → string → bool) (cidrContains : string → string → bool).
Context (write_ok : OutPacket → bool).
Abbreviation B := (Broker S R).
Implicit Types (b : B) (c : Conn) (pk : InPacket) (now : Time) (sm : SessionManager S).

(** Every session is as alive as before: connected as it was, with the will it had. *)
Definition sessions_alive sm sm' : Prop :=
  ∀ id s, activeSessions sm !! id = Some s →
    ∃ s', activeSessions sm' !! id = Some s' ∧ Connected s' = Connected s ∧ Session_Will s' = Session_Will s.
Definition kept b b' : Prop :=
  sessions b' = sessions b ∧ offlineCallbacks b' = offlineCallbacks b ∧
  sessions_alive (persistentSessionMgr b) (persistentSessionMgr b').

#[local] Instance sessions_alive_preorder : PreOrder sessions_alive.
Proof.
  split; [intros sm id s Hs; eauto|]. intros sm1 sm2 sm3 H12 H23 id s Hs.
  destruct (H12 _ _ Hs) as (s2 & Hs2 & ? & ?). destruct (H23 _ _ Hs2) as (s3 & Hs3 & ? & ?).
  exists s3. split_and!; congruence.
Qed.

Lemma alive_put id s s' sm :
  activeSessions sm !! id = Some s → Connected s' = Connected s → Session_Will s' = Session_Will s →
  sessions_alive sm (put_session id s' sm).
Proof.
  intros Hs Hc Hw id1 s1 Hs1. simpl. destruct (decide (id = id1)) as [<-|Hne].
  - exists s'. rewrite lookup_insert_eq. simplify_eq. done.
  - exists s1. by rewrite lookup_insert_ne.
Qed.
Lemma alive_save sm s sm' : sessions_alive sm sm' → sessions_alive sm (save_logged s sm').
Proof. intros Ha id s1 Hs1. rewrite active_save_logged. by apply Ha. Qed.

Lemma alive_AddSubscription sm id t q now : sessions_alive sm (AddSubscription sm id t q now).2.
Proof.
  unfold AddSubscription. destruct (activeSessions sm !! id) as [s|] eqn:Es; [|done]. cbn [snd].
  destruct (CleanSession _); [|apply alive_save]; by eapply alive_put.
Qed.
Lemma alive_RemoveSubscription sm id t now : sessions_alive sm (RemoveSubscription sm id t now).2.
Proof.
  unfold RemoveSubscription. destruct (activeSessions sm !! id) as [s|] eqn:Es; [|done]. cbn [snd].
  destruct (CleanSession _); [|apply alive_save]; by eapply alive_put.
Qed.

Lemma kept_refl b : kept b b.
Proof. by split_and!. Qed.
Lemma kept_set_psm b b' sm :
  kept b b' → sessions_alive (persistentSessionMgr b') sm → kept b (set_psm sm b').
Proof. intros (H1 & H2 & H3) Ha. split_and!; [done..|]. by etrans. Qed.

Context (b0 : B).

Ltac kept_op :=
  idtac; match goal with
  | |- safe _ (writePacket _ _) => unfold writePacket
  | |- safe _ (reject _ _) => unfold reject
  | |- safe _ (answer _ _ _) => unfold answer
  | |- safe _ (modify _) => apply safe_modify
  | |- safe _ (update _) => apply safe_update
  | Hk : kept b0 ?b |- kept b0 (set_topics _ ?b) => exact Hk
  | Hk : kept b0 ?b |- kept b0 (set_psm (AddSubscription _ _ _ _ _).2 ?b) =>
      apply kept_set_psm; [exact Hk|apply alive_AddSubscription]
  end.
Ltac solve_kept := solve_safe_with kept_op.

Lemma subscribeFilters_kept c fs now : safe (kept b0) (subscribeFilters MatchString (R := R) c fs now).
Proof.
  induction fs as [|f fs IH]; simpl; [apply safe_ret|]. apply safe_bind; [|intros; apply safe_bind; [done|solve_kept]].
  unfold subscribeFilter. solve_kept.
Qed.
Lemma handleSubscribe_kept c pk now : safe (kept b0) (handleSubscribe MatchString write_ok c pk now).
Proof.
  unfold handleSubscribe. solve_safe_with ltac:(idtac; first [apply subscribeFilters_kept | kept_op]).
Qed.
Lemma unsubscribeFilters_kept c fs now : safe (kept b0) (unsubscribeFilters (R := R) c fs now).
Proof.
  induction fs as [|f fs IH]; simpl; [apply safe_ret|]. apply safe_bind; [|intros; apply safe_bind; [done|solve_kept]].
  unfold unsubscribeFilter. apply safe_if; [solve_kept|]. apply safe_bind; [solve_kept|]. intros _.
  apply safe_bind; [|solve_kept]. apply safe_update. intros b Hb.
  pose proof (alive_RemoveSubscription (persistentSessionMgr b) (clientID c) (F_Filter f) now) as Ha.
  destruct (RemoveSubscription _ _ _ _) as [e sm]. by apply kept_set_psm.
Qed.
Lemma handleUnsubscribe_kept c pk now : safe (kept b0) (handleUnsubscribe write_ok c pk now).
Proof.
  unfold handleUnsubscribe. solve_safe_with ltac:(idtac; first [apply unsubscribeFilters_kept | kept_op]).
Qed.
Lemma handlePublish_kept c pk now : safe (kept b0) (handlePublish MatchString write_ok c pk now).
Proof.
  unfold handlePublish. destruct (sessionMailbox c); [|solve_kept].
  destruct (publishRefused pk) as [[?|]|]; [solve_kept..|]. apply safe_bind.
  { apply safe_if; [|solve_kept]. apply safe_update. intros b Hb. unfold markAndCheckDuplicate.
    by repeat case_match. }
  intros skip. apply safe_bind.
  { intros b Hb. destruct (resolveTopic c pk b) as [[[r b'] e]| |] eqn:Hr; [|unfold resolveTopic in Hr..].
    - by apply resolveTopic_Returns in Hr as [_ [x ->]].
    - by repeat case_match.
    - done. }
  intros [t|e]; [|solve_kept]. unfold publishAccepted, acknowledge. solve_kept.
Qed.
Lemma handleAck_kept c pk : safe (kept b0) (handleAck (R := R) write_ok c pk).
Proof. unfold handleAck. solve_kept. Qed.
End Kept.

(** Early returns leak the session: when the connection function returns because of a
    keep-alive time-out, a protocol violation found by a handler, or a failed write (that is,
    for any reason but a DISCONNECT packet, an end of file or a read error), the clean-up
    after the loop is skipped: all registrations and delivery callbacks stay, every
    session stays connected with its will, and the will is not published; on a time-out
    nothing at all is written, the DISCONNECT packet included. *)
Theorem early_return_leaks {S Data R} `{KVStore S Data, SessionCodec Data}
    (MatchString : R → string → bool) cidrContains write_ok c (b : Broker S R) now reads :
  handleConnection MatchString cidrContains write_ok c ((now, ReadTimeout) :: reads) b =
    Returns ((), b, [ECloseConn]) ∧
  (∀ pk b' effs, I_Type pk ≠ TDisconnect →
     handlePacket MatchString cidrContains write_ok c pk now b = Returns (Return, b', effs) →
     handleConnection MatchString cidrContains write_ok c ((now, ReadPacket pk) :: reads) b =
       Returns ((), b', effs ++ [ECloseConn]) ∧
     kept b b').
Proof.
  split; [simpl; by rewrite (writePacket_disconnect write_ok)|]. intros pk b' effs Ht Hr. split.
  { simpl. by rewrite (bind_eq _ _ _ _ _ _ Hr). }
  unfold handlePacket in Hr. destruct (_ && _); [injection Hr as <- <-; apply kept_refl|].
  destruct (_ && _); [injection Hr as <- <-; apply kept_refl|].
  assert (∀ m : BM (Broker S R) verdict, safe (kept b) m → m b = Returns (Return, b', effs) → kept b b') as Hk.
  { intros m Hm Heq. specialize (Hm b (kept_refl b)). by rewrite Heq in Hm. }
  destruct (I_Type pk); try done;
    [|by eapply Hk; [|exact Hr]; auto using handlePublish_kept, handleAck_kept, handleSubscribe_kept,
      handleUnsubscribe_kept..].
  apply handleConnect_outcome in Hr as [-> _]. apply kept_refl.
Qed.

(** ** Topic aliases *)

(** The aliases a client may use. *)
Definition alias_in_range (tam : ClientTopicAliasManager) (alias : Z) : Prop :=
  0 < alias ≤ tam_topicAliasMaximum tam.

(** Topic aliases: registering an alias in range makes the table resolve it, from then on, to
    the registered topic and disturbs no other alias; an alias above the maximum or
    unknown is an error and changes nothing.  But a publish that uses an alias in place of
    its topic never gets there: a PUBLISH with an empty topic name is refused first, with the
    broker's state unchanged and nothing handed to processing. *)
Theorem topic_aliases {S R : Type} (MatchString : R → string → bool) write_ok tam topic alias :
  alias_in_range tam alias → topic ≠ "" →
  let tam' := (resolveTopicAlias tam topic alias).2 in
  (resolveTopicAlias tam topic alias).1 = inl topic ∧
  resolveTopicAlias tam' "" alias = (inl topic, tam') ∧
  (∀ alias', alias' ≠ alias →
     (resolveTopicAlias tam' "" alias').1 = (resolveTopicAlias tam "" alias').1) ∧
  (∀ alias' t, alias' ≠ 0 → tam_topicAliasMaximum tam < alias' →
     resolveTopicAlias tam t alias' = (inr (AliasTooLarge alias' (tam_topicAliasMaximum tam)), tam)) ∧
  (∀ c pk now (b : Broker S R) v b' effs, I_TopicName pk = "" →
     handlePublish MatchString write_ok c pk now b = Returns (v, b', effs) →
     v = Return ∧ b' = b ∧ ∀ t, EGo t ∉ effs).
Proof.
  unfold alias_in_range. intros Hr Ht. unfold resolveTopicAlias. rewrite (proj2 (Z.eqb_neq alias 0)) by lia.
  rewrite (proj2 (Z.ltb_ge (tam_topicAliasMaximum tam) alias)) by lia. rewrite (bool_decide_false Ht). simpl.
  split_and!.
  - done.
  - rewrite (proj2 (Z.ltb_ge (tam_topicAliasMaximum tam) alias)) by lia.
    by rewrite lookup_insert_eq.
  - intros alias' Hne. rewrite lookup_insert_ne by done. by repeat case_match.
  - intros alias' t H0 Hlt. rewrite (proj2 (Z.eqb_neq alias' 0)) by lia.
    by rewrite (proj2 (Z.ltb_lt (tam_topicAliasMaximum tam) alias')) by lia.
  - intros c pk now b v b' effs Hn Hp. unfold handlePublish, publishRefused in Hp.
    rewrite (bool_decide_true Hn) in Hp. destruct (sessionMailbox c); [|by injection Hp as <- <- <-; set_solver].
    destruct (0 <? I_Qos pk); [|by injection Hp as <- <- <-; set_solver].
    apply bind_Returns in Hp as (ok & b1 & e1 & e2 & [-> ->]%writePacket_Returns & Hk & ->).
    injection Hk as <- <- <-. split_and!; [done..|]. intros t. destruct ok; simpl; set_solver.
Qed.

Lemma topic_aliases_witness :
  let tam := newClientTopicAliasManager 100 in
  let tam' := (resolveTopicAlias tam "a/x" 3).2 in
  resolveTopicAlias tam' "" 3 = (inl "a/x", tam').
Proof.
  exact (proj1 (proj2 (topic_aliases (S := unit) (R := unit) (λ _ _, false) (λ _, true)
    (newClientTopicAliasManager 100) "a/x" 3 ltac:(unfold alias_in_range; simpl; lia) ltac:(done)))).
Defined.
