(* ===== verification/RuleSQL.v ===== *)
(** * The rule language: parsing, printing and evaluation of conditions (pkg/rules/sql.go)

    [Parse] may panic: a slice expression of the source that is out of range is [Panics].
    The regular expression of [parseComparison] is written out; the one that [like] builds
    at run time is matched by the parameter [MatchString], and [json.Unmarshal] is a
    parameter too. *)

From S2P Require Import Prelude GoLib GoValue.
From Stdlib Require String Ascii.
Local Open Scope emqx_scope.
Local Open Scope Z_scope.

(** ** Data *)

(** The value of a comparison: a literal ([nil] for the NULL tests) or a field. *)
Inductive operand `{GoFloat} :=
  | Literal (v : any)
  | FieldReference (field : string).

Inductive SQLCondition `{GoFloat} :=
  | TrueCondition
  | AndCondition (Conditions : list SQLCondition)
  | OrCondition (Conditions : list SQLCondition)
  | NotCondition (Condition : SQLCondition)
  | ComparisonCondition (Field Operator : string) (Value : operand).

Record RuleContext `{GoFloat} := mkRuleContext {
  RC_Topic : string;
  RC_QoS : Z;
  RC_Payload : list byte;
  RC_Headers : gmap string string;
  RC_ClientID : string;
  RC_Username : string;
  RC_Timestamp : Time;
  RC_Metadata : gmap string any;
}.
Arguments mkRuleContext {_} _ _ _ _ _ _ _ _.

Section RuleSQL.
Context `{GoFloat} `{GoUnicode}.
(** [json.Unmarshal] into an [interface{}], [regexp.MatchString(pattern, s)]. *)
Context (Unmarshal : list byte → result any) (MatchString : string → string → result bool).

(** ** The parser *)

Definition isAlphaNumeric (c : Ascii.ascii) : bool :=
  in_range 97 122 (code c) || in_range 65 90 (code c) || in_range 48 57 (code c) || (code c =? 95).

Definition lparen : Ascii.ascii := chr 40.
Definition rparen : Ascii.ascii := chr 41.
Definition paren (c : Ascii.ascii) (level : Z) : Z :=
  if bool_decide (c = lparen) then level + 1
  else if bool_decide (c = rparen) then level - 1 else level.

(** The byte before the position is absent or not alphanumeric. *)
Definition boundary (prev : option Ascii.ascii) : bool :=
  match prev with Some c => negb (isAlphaNumeric c) | None => true end.

Definition head_byte (s : string) : option Ascii.ascii :=
  match s with String c _ => Some c | EmptyString => None end.

(** The operator stands at the head of [rest] as a whole word. *)
Definition operatorAt (operator : string) (prev : option Ascii.ascii) (rest : string) : bool :=
  let n := String.length operator in
  Nat.leb n (String.length rest)
  && (ToUpper (String.substring 0 n rest) =s operator)
  && boundary prev
  && boundary (head_byte (default "" (dropBytes n rest))).

(** The loop of [splitByOperator]; [skip] bytes of the operator found are still ahead. *)
Fixpoint splitLoop (operator rest : string) (prev : option Ascii.ascii) (skip : nat)
    (parenLevel : Z) (current : string) (parts : list string) : list string :=
  match rest with
  | EmptyString => if current <>s "" then parts ++ [TrimSpace current] else parts
  | String c rest' =>
      match skip with
      | Datatypes.S k => splitLoop operator rest' (Some c) k parenLevel current parts
      | O =>
          let parenLevel := paren c parenLevel in
          if (parenLevel =? 0) && operatorAt operator prev rest
          then splitLoop operator rest' (Some c) (String.length operator - 1) parenLevel ""
                 (parts ++ [TrimSpace current])
          else splitLoop operator rest' (Some c) 0 parenLevel (current +:+ string_of_byte c)%string parts
      end
  end.

Definition splitByOperator (expr operator : string) : list string :=
  let parts := splitLoop operator expr None 0 0 "" [] in
  if Nat.leb (length parts) 1 then [expr] else parts.

Definition quote1 : Ascii.ascii := chr 39.
Definition quote2 : Ascii.ascii := chr 34.
Definition quotedBy (q : Ascii.ascii) (value : string) : bool :=
  strings.HasPrefix value (String q "") && strings.HasSuffix value (String q "").

Definition parseValue (value : string) : outcome (result operand) :=
  let value := TrimSpace value in
  if quotedBy quote1 value || quotedBy quote2 value
  then let! s := slice value 1 (Z.of_nat (String.length value) - 1) in
       Returns (Ok (Literal (VString s)))
  else match ParseInt value with
       | Some intVal => Returns (Ok (Literal (VInt64 intVal)))
       | None =>
           match ParseFloat value with
           | Some floatVal => Returns (Ok (Literal (VFloat64 floatVal)))
           | None =>
               if (value =s "true") || (value =s "TRUE") then Returns (Ok (Literal (VBool true)))
               else if (value =s "false") || (value =s "FALSE")
               then Returns (Ok (Literal (VBool false)))
               else Returns (Ok (FieldReference value))
           end
       end.

(** ** The regular expression of [parseComparison]

    A shortest field of at least one byte other than a line feed, white space, one of the
    operators (the first alternative that lets the rest match), white space, and a rest
    without line feed. *)
Definition operators : list string :=
  ["="; "!="; "<>"; "<="; ">="; "<"; ">"; "LIKE"; "NOT LIKE"; "IN"; "NOT IN"; "IS NULL"; "IS NOT NULL"].

Definition linefeed : Ascii.ascii := chr 10.
(** [\s]: tab, line feed, form feed, carriage return, space. *)
Definition isRegexpSpace (c : Ascii.ascii) : bool :=
  (code c =? 9) || (code c =? 10) || (code c =? 12) || (code c =? 13) || (code c =? 32).

Fixpoint skipSpaces (s : string) : string :=
  match s with
  | String c s' => if isRegexpSpace c then skipSpaces s' else s
  | EmptyString => ""
  end.

Fixpoint matchOperator (ops : list string) (s : string) : option (string * string) :=
  match ops with
  | [] => None
  | op :: ops' =>
      if String.prefix op s then
        let value := skipSpaces (default "" (dropBytes (String.length op) s)) in
        if strings.ContainsByte value linefeed then matchOperator ops' s else Some (op, value)
      else matchOperator ops' s
  end.

(** [field] has been consumed, [rest] is ahead. *)
Fixpoint matchComparison (field rest : string) : option (string * string * string) :=
  match (if field <>s "" then matchOperator operators (skipSpaces rest) else None) with
  | Some (op, value) => Some (field, op, value)
  | None =>
      match rest with
      | EmptyString => None
      | String c rest' =>
          if bool_decide (c = linefeed) then None
          else matchComparison (field +:+ String c "")%string rest'
      end
  end.

Definition parseComparison (expr : string) : outcome (result SQLCondition) :=
  let expr := TrimSpace expr in
  match matchComparison "" expr with
  | None => Returns (Err ("invalid comparison expression: " +:+ expr)%string)
  | Some (m1, m2, m3) =>
      let field := TrimSpace m1 in
      let operator := ToUpper (TrimSpace m2) in
      let value := TrimSpace m3 in
      if operator =s "IS NULL" then Returns (Ok (ComparisonCondition field "IS NULL" (Literal VNil)))
      else if operator =s "IS NOT NULL"
      then Returns (Ok (ComparisonCondition field "IS NOT NULL" (Literal VNil)))
      else
        let! r := parseValue value in
        match r with
        | Ok parsedValue => Returns (Ok (ComparisonCondition field operator parsedValue))
        | Err e => Returns (Err ("invalid value in comparison: " +:+ e)%string)
        end
  end.

(** The loop over the parts: it stops at the first error. *)
Fixpoint sequenceParts (l : list (outcome (result SQLCondition)))
    : outcome (result (list SQLCondition)) :=
  match l with
  | [] => Returns (Ok [])
  | part :: l' =>
      let! r := part in
      match r with
      | Err e => Returns (Err e)
      | Ok cond =>
          let! rs := sequenceParts l' in
          Returns (let? conds := rs in Ok (cond :: conds))
      end
  end.

(** [parseExpression] calls itself on shorter strings; [fuel] bounds the depth of the
    calls, [None] means that it was not enough. *)
Fixpoint parseExpression (fuel : nat) (expr : string) : option (outcome (result SQLCondition)) :=
  match fuel with
  | O => None
  | Datatypes.S k =>
      let expr := TrimSpace expr in
      let orParts := splitByOperator expr "OR" in
      let andParts := splitByOperator expr "AND" in
      if Nat.ltb 1 (length orParts) then
        conds ← mapM (parseExpression k) orParts;
        Some (let! r := sequenceParts conds in Returns (let? cs := r in Ok (OrCondition cs)))
      else if Nat.ltb 1 (length andParts) then
        conds ← mapM (parseExpression k) andParts;
        Some (let! r := sequenceParts conds in Returns (let? cs := r in Ok (AndCondition cs)))
      else if strings.HasPrefix expr "(" && strings.HasSuffix expr ")" then
        match slice expr 1 (Z.of_nat (String.length expr) - 1) with
        | Returns inner => parseExpression k inner
        | Panics => Some Panics
        | Blocks => Some Blocks
        end
      else if strings.HasPrefix (ToUpper expr) "NOT " then
        match slice_from expr 4 with
        | Returns inner =>
            r ← parseExpression k inner;
            Some (let! c := r in Returns (let? c := c in Ok (NotCondition c)))
        | Panics => Some Panics
        | Blocks => Some Blocks
        end
      else Some (parseComparison expr)
  end.

(** One more call than there are bytes: see [parse_terminates]. *)
Definition Parse (sql : string) : option (outcome (result SQLCondition)) :=
  let sql := TrimSpace sql in
  let run sql := if sql =s "" then Some (Returns (Ok TrueCondition))
                 else parseExpression (Datatypes.S (String.length sql)) sql in
  if strings.HasPrefix (ToUpper sql) "SELECT" then
    match Index (ToUpper sql) "WHERE" with
    | None => Some (Returns (Ok TrueCondition))
    | Some whereIndex =>
        match slice_from sql (whereIndex + 5) with
        | Returns sql => run (TrimSpace sql)
        | Panics => Some Panics
        | Blocks => Some Blocks
        end
    end
  else run sql.

Definition Validate (sql : string) : option (outcome (option string)) :=
  r ← Parse sql;
  Some (let! c := r in Returns (match c with Ok _ => None | Err e => Some e end)).

(** ** Printing *)

Definition valueString (v : operand) : string :=
  match v with
  | Literal (VString s) => "'" +:+ s +:+ "'"
  | Literal x => Sprintv x
  | FieldReference f => f
  end%string.

Fixpoint condString (c : SQLCondition) : string :=
  match c with
  | TrueCondition => "TRUE"
  | AndCondition cs => "(" +:+ joinWith " AND " (condString <$> cs) +:+ ")"
  | OrCondition cs => "(" +:+ joinWith " OR " (condString <$> cs) +:+ ")"
  | NotCondition c => "NOT " +:+ condString c
  | ComparisonCondition f op v => f +:+ " " +:+ op +:+ " " +:+ valueString v
  end%string.

(** ** Evaluation *)

Definition getJSONField (payload : list byte) (path : string) : result any :=
  match Unmarshal payload with
  | Err e => Err e
  | Ok (VMap dataMap) => Ok (default VNil (dataMap !! path))
  | Ok _ => Ok VNil
  end.

Definition getFieldValue (ctx : RuleContext) (field : string) : result any :=
  if field =s "topic" then Ok (VString (RC_Topic ctx))
  else if field =s "qos" then Ok (VInt64 (RC_QoS ctx))
  else if field =s "payload" then Ok (VString (string_of_bytes (RC_Payload ctx)))
  else if field =s "clientid" then Ok (VString (RC_ClientID ctx))
  else if field =s "username" then Ok (VString (RC_Username ctx))
  else if field =s "timestamp" then Ok (VInt64 (RC_Timestamp ctx / Second))
  else if strings.HasPrefix field "payload."
  then getJSONField (RC_Payload ctx) (default "" (dropBytes 8 field))
  else if strings.HasPrefix field "headers."
  then match RC_Headers ctx !! default "" (dropBytes 8 field) with
       | Some value => Ok (VString value)
       | None => Ok VNil
       end
  else if strings.HasPrefix field "metadata."
  then match RC_Metadata ctx !! default "" (dropBytes 9 field) with
       | Some value => Ok value
       | None => Ok VNil
       end
  else Err ("unknown field: " +:+ field)%string.

Definition equals (a b : any) : bool :=
  if any_is_nil a && any_is_nil b then true
  else if any_is_nil a || any_is_nil b then false
  else Sprintv a =s Sprintv b.

Definition toFloat64 (value : any) : option float64 :=
  match value with
  | VFloat64 v | VFloat32 v => Some v
  | VInt v | VInt32 v | VInt64 v => Some (float_of_int v)
  | VString v => ParseFloat v
  | _ => None
  end.

Definition lessThan (a b : any) : bool :=
  match toFloat64 a, toFloat64 b with
  | Some aFloat, Some bFloat => float_ltb aFloat bFloat
  | _, _ => str_ltb (Sprintv a) (Sprintv b)
  end.

Definition greaterThan (a b : any) : bool :=
  match toFloat64 a, toFloat64 b with
  | Some aFloat, Some bFloat => float_ltb bFloat aFloat
  | _, _ => str_ltb (Sprintv b) (Sprintv a)
  end.

Definition likePattern (b : string) : string :=
  ("^" +:+ ReplaceAll (ReplaceAll b "%" ".*") "_" "." +:+ "$")%string.

Definition like (a b : any) : result bool := MatchString (likePattern (Sprintv b)) (Sprintv a).

Definition compareValues (Operator : string) (fieldValue compareValue : any) : result bool :=
  if Operator =s "=" then Ok (equals fieldValue compareValue)
  else if (Operator =s "!=") || (Operator =s "<>") then Ok (negb (equals fieldValue compareValue))
  else if Operator =s "<" then Ok (lessThan fieldValue compareValue)
  else if Operator =s "<=" then Ok (lessThan fieldValue compareValue || equals fieldValue compareValue)
  else if Operator =s ">" then Ok (greaterThan fieldValue compareValue)
  else if Operator =s ">=" then Ok (greaterThan fieldValue compareValue || equals fieldValue compareValue)
  else if Operator =s "LIKE" then like fieldValue compareValue
  else if Operator =s "NOT LIKE" then let? r := like fieldValue compareValue in Ok (negb r)
  else if Operator =s "IS NULL" then Ok (any_is_nil fieldValue)
  else if Operator =s "IS NOT NULL" then Ok (negb (any_is_nil fieldValue))
  else Err ("unsupported operator: " +:+ Operator)%string.

Definition evalComparison (ctx : RuleContext) (Field Operator : string) (Value : operand) : result bool :=
  let? fieldValue := getFieldValue ctx Field in
  let? compareValue := match Value with
                       | FieldReference f => getFieldValue ctx f
                       | Literal v => Ok v
                       end in
  compareValues Operator fieldValue compareValue.

(** The loops of [AndCondition.Evaluate] and [OrCondition.Evaluate]. *)
Fixpoint evalAnd (l : list (result bool)) : result bool :=
  match l with
  | [] => Ok true
  | r :: l' => let? b := r in if b then evalAnd l' else Ok false
  end.
Fixpoint evalOr (l : list (result bool)) : result bool :=
  match l with
  | [] => Ok false
  | r :: l' => let? b := r in if b then Ok true else evalOr l'
  end.

Fixpoint Evaluate (ctx : RuleContext) (c : SQLCondition) : result bool :=
  match c with
  | TrueCondition => Ok true
  | AndCondition cs => evalAnd (Evaluate ctx <$> cs)
  | OrCondition cs => evalOr (Evaluate ctx <$> cs)
  | NotCondition c => let? b := Evaluate ctx c in Ok (negb b)
  | ComparisonCondition f op v => evalComparison ctx f op v
  end.
End RuleSQL.

(** ** Integers as floats, to run the definitions *)
Definition intFloat : GoFloat := {|
  float64 := Z; ParseFloat := ParseInt; FormatFloat := pretty; FormatFloat32 := pretty;
  float_ltb := Z.ltb; float_of_int := id; int_of_float := id; float_mul := Z.mul; float_add := Z.add; float_div := Z.div
|}.
