(* ===== verification/RuleParse.v ===== *)
(** * The parser of the rule language: termination, panics and the print/parse round trip
    (pkg/rules/sql.go) *)

From S2P Require Import Prelude GoLib GoValue RuleSQL.
From Stdlib Require String Ascii.
Local Open Scope emqx_scope.
Local Open Scope Z_scope.

(** ** A measure for the recursive calls

    [splitByOperator] copies its parts byte by byte through [string(b)], which turns a byte
    outside ASCII into two: a part can be longer than the expression it comes from.  The
    number of ASCII bytes does decrease. *)
Fixpoint asciiCount (s : string) : nat :=
  match s with
  | EmptyString => 0
  | String c s' => (if is_ascii c then 1 else 0) + asciiCount s'
  end.

Lemma asciiCount_app s t : asciiCount (s +:+ t)%string = (asciiCount s + asciiCount t)%nat.
Proof. induction s as [|c s IH]; [done|]. rewrite string_app_cons. simpl. rewrite IH. lia. Qed.

Lemma asciiCount_length s : (asciiCount s ≤ String.length s)%nat.
Proof. induction s as [|c s IH]; simpl; [lia|]. case_match; lia. Qed.

Lemma asciiCount_trimLeft skip s : (asciiCount (trimLeft skip s) ≤ asciiCount s)%nat.
Proof.
  revert skip. induction s as [|c s IH]; intros skip; [simpl; lia|].
  destruct skip as [|k].
  - change (trimLeft 0 (String c s)) with
      (match leadingSpace (String c s) with O => String c s | Datatypes.S k => trimLeft k s end).
    destruct (leadingSpace _) as [|k]; [lia|]. specialize (IH k). simpl. case_match; lia.
  - simpl. specialize (IH k). case_match; lia.
Qed.

Lemma asciiCount_trimRight s : (asciiCount (trimRight s) ≤ asciiCount s)%nat.
Proof. induction s as [|c s IH]; simpl; [lia|]. case_match; simpl; lia. Qed.

Lemma asciiCount_TrimSpace s : (asciiCount (TrimSpace s) ≤ asciiCount s)%nat.
Proof.
  unfold TrimSpace. pose proof (asciiCount_trimRight (trimLeft 0 s)).
  pose proof (asciiCount_trimLeft 0 s). lia.
Qed.

Lemma asciiCount_string_of_byte c : asciiCount (string_of_byte c) = if is_ascii c then 1%nat else 0%nat.
Proof. destruct c as [[] [] [] [] [] [] [] []]; reflexivity. Qed.

Lemma asciiCount_drop n s t : dropBytes n s = Some t → (asciiCount t ≤ asciiCount s)%nat.
Proof.
  revert s. induction n as [|n IH]; intros s E; simpl in E; [by injection E as ->|].
  destruct s as [|c s]; [done|]. apply IH in E. simpl. lia.
Qed.

Lemma asciiCount_drop_lt n c s t :
  is_ascii c = true → dropBytes (Datatypes.S n) (String c s) = Some t →
  (asciiCount t < asciiCount (String c s))%nat.
Proof. intros Hc E. simpl in E. apply asciiCount_drop in E. simpl. rewrite Hc. lia. Qed.

Lemma asciiCount_substring n s : (asciiCount (String.substring 0 n s) ≤ asciiCount s)%nat.
Proof.
  revert n. induction s as [|c s IH]; intros [|n]; simpl; try lia. specialize (IH n). lia.
Qed.

Section Termination.
Context `{GoFloat} `{GoUnicode}.

Lemma operatorAt_ascii operator prev c rest :
  operator = "OR" ∨ operator = "AND" →
  operatorAt operator prev (String c rest) = true → is_ascii c = true.
Proof.
  intros Hop Ho. unfold operatorAt in Ho. bool_prop.
  match goal with H : ToUpper _ = operator |- _ => rename H into E end.
  destruct Hop as [-> | ->]; simpl in E;
    (eapply ToUpper_head; [exact E|vm_compute; congruence..]).
Qed.

(** Either no operator was found, or every part has fewer ASCII bytes than the whole. *)
Lemma splitLoop_smaller operator rest prev skip level current parts N :
  operator = "OR" ∨ operator = "AND" →
  (asciiCount current + asciiCount rest ≤ N)%nat →
  (parts = [] ∨ Forall (λ p, (asciiCount p < N)%nat) parts ∧ (asciiCount current + asciiCount rest < N)%nat) →
  let out := splitLoop operator rest prev skip level current parts in
  (length out ≤ 1)%nat ∨ Forall (λ p, (asciiCount p < N)%nat) out.
Proof.
  intros Hop. revert prev skip level current parts.
  induction rest as [|c rest IH]; intros prev skip level current parts HN Hp; simpl.
  - case_match; [|destruct Hp as [->|[? _]]; [left; simpl; lia|by right]].
    destruct Hp as [->|[Hp Hlt]]; [left; simpl; lia|right].
    apply Forall_app. split; [done|]. repeat constructor.
    pose proof (asciiCount_TrimSpace current). simpl in Hlt. lia.
  - destruct skip as [|k].
    + case_match eqn:Ho.
      * bool_prop. match goal with H : operatorAt _ _ _ = true |- _ => apply operatorAt_ascii in H; [|done] end.
        simpl in HN, Hp. assert (Hc : is_ascii c = true) by done. rewrite Hc in HN, Hp.
        pose proof (asciiCount_TrimSpace current).
        apply IH; [simpl; lia|]. right. split; [|simpl; lia].
        apply Forall_app. split; [by destruct Hp as [->|[? _]]|]. repeat constructor. lia.
      * simpl in HN, Hp. apply IH; rewrite asciiCount_app, asciiCount_string_of_byte; [lia|].
        destruct Hp as [->|[? ?]]; [by left|right]. split; [done|lia].
    + simpl in HN, Hp. apply IH; [lia|]. destruct Hp as [->|[? ?]]; [by left|right]. split; [done|lia].
Qed.

Lemma splitByOperator_smaller expr operator part :
  operator = "OR" ∨ operator = "AND" →
  (1 < length (splitByOperator expr operator))%nat →
  part ∈ splitByOperator expr operator → (asciiCount part < asciiCount expr)%nat.
Proof.
  intros Hop. unfold splitByOperator. case_match; [simpl; lia|]. bool_prop. intros _ Hin.
  destruct (splitLoop_smaller operator expr None 0 0 "" [] (asciiCount expr)) as [?|Hall];
    [done|simpl; lia|by left|lia|]; [].
  rewrite Forall_forall in Hall. by apply Hall.
Qed.

Lemma HasPrefix_cons c s t : strings.HasPrefix s (String c t) = true → ∃ s', s = String c s'.
Proof. intros Hp. apply prefix_app_inv in Hp as [u ->]. by eexists. Qed.

Lemma mapM_total {A B} (f : A → option B) l : (∀ x, x ∈ l → ∃ y, f x = Some y) → ∃ ys, mapM f l = Some ys.
Proof.
  induction l as [|x l IH]; intros Hf; [by eexists|].
  destruct (Hf x) as [y Hy]; [by left|]. destruct IH as [ys Hys]; [intros; apply Hf; by right|].
  exists (y :: ys). simpl. by rewrite Hy, Hys.
Qed.

(** Enough fuel: more than the number of ASCII bytes. *)
Lemma parseExpression_total fuel expr :
  (asciiCount expr < fuel)%nat → ∃ r, parseExpression fuel expr = Some r.
Proof.
  revert expr. induction fuel as [|k IH]; intros expr Hf; [lia|]. simpl.
  pose proof (asciiCount_TrimSpace expr). set (e := TrimSpace expr) in *.
  assert (Hparts : ∀ op, op = "OR" ∨ op = "AND" → (1 < length (splitByOperator e op))%nat →
            ∃ rs, mapM (parseExpression k) (splitByOperator e op) = Some rs).
  { intros op Hop Hl. apply mapM_total. intros part Hin. apply IH.
    pose proof (splitByOperator_smaller _ _ _ Hop Hl Hin). lia. }
  case_match; [bool_prop; destruct (Hparts "OR") as [rs ->]; eauto|].
  case_match; [bool_prop; destruct (Hparts "AND") as [rs ->]; eauto|].
  case_match.
  - bool_prop. unfold slice.
    destruct (_ && (_ <=? Z.of_nat (String.length e))); [|eauto]. apply IH.
    match goal with H : strings.HasPrefix e _ = true |- _ => apply HasPrefix_cons in H as [s' Es] end.
    rewrite Es. simpl. change (Pos.to_nat 1) with 1%nat. simpl.
    pose proof (asciiCount_substring (Z.to_nat (Z.of_nat (String.length e) - 1 - 1)) s') as Hs.
    rewrite Es in *. simpl in *. lia.
  - case_match; [|eauto]. unfold slice_from.
    destruct (dropBytes 4 e) as [t|] eqn:Ed; [|eauto].
    match goal with H : strings.HasPrefix _ _ = true |- _ => apply HasPrefix_cons in H as [s' Es] end.
    destruct e as [|c e']; [done|].
    apply ToUpper_head in Es; [|vm_compute; congruence..].
    apply asciiCount_drop_lt in Ed; [|done]. destruct (IH t) as [r ->]; [lia|]. simpl. eauto.
Qed.

(** C14. [Parse] terminates on every input, valid or not: the recursive descent of
    [parseExpression] comes to an end, although a part of a split expression can be longer
    than the expression itself.  The number of ASCII bytes bounds the depth of the recursion. *)
Theorem parse_terminates sql :
  (∃ r, Parse sql = Some r) ∧ ∀ extra, ∃ r, parseExpression (Datatypes.S (asciiCount sql + extra)) sql = Some r.
Proof.
  split; [|intros extra; apply parseExpression_total; lia].
  assert (Hrun : ∀ s, ∃ r, parseExpression (Datatypes.S (String.length s)) s = Some r).
  { intros s. apply parseExpression_total. pose proof (asciiCount_length s). lia. }
  unfold Parse. repeat case_match; eauto.
Qed.
End Termination.
