(* ===== verification/RulePrint.v ===== *)
(** * Printing and parsing rule conditions (pkg/rules/sql.go)

    [String] followed by [Parse] gives the condition back, for the conditions that
    [printable] describes. *)

From S2P Require Import Prelude GoLib GoValue RuleSQL RuleParse.
From Stdlib Require String Ascii.
Local Open Scope emqx_scope.
Local Open Scope Z_scope.

(** ** The conditions that can be printed and read back *)

(** Lower-case letters, digits, underscore and dot. *)
Definition isFieldByte (c : Ascii.ascii) : bool :=
  in_range 97 122 (code c) || in_range 48 57 (code c) || (code c =? 95) || (code c =? 46).

(** ASCII, no parenthesis, no line feed. *)
Definition isTextByte (c : Ascii.ascii) : bool :=
  is_ascii c && negb (bool_decide (c = lparen)) && negb (bool_decide (c = rparen))
  && negb (bool_decide (c = linefeed)).

(** Letters, digits and underscore. *)
Definition isWordByte (c : Ascii.ascii) : bool :=
  in_range 97 122 (code c) || in_range 65 90 (code c) || in_range 48 57 (code c) || (code c =? 95).

(** The words of a text: its maximal runs of word bytes; [w] is the run read so far. *)
Definition flush (w : string) : list string := if w <>s "" then [w] else [].
Fixpoint words_from (w s : string) : list string :=
  match s with
  | EmptyString => flush w
  | String c s' =>
      if isWordByte c then words_from (w +:+ String c "")%string s' else flush w ++ words_from "" s'
  end.
Definition words (s : string) : list string := words_from "" s.

(** No word of the text is AND or OR, in any mix of cases. *)
Definition ordinary (w : string) : bool := negb (bool_decide (mapBytes ascii_upper w ∈ ["OR"; "AND"])).
Definition no_connective (s : string) : bool := forallb ordinary (words s).

Section Printable.
Context `{GoFloat} `{GoUnicode}.

(** Starts and ends with a printable byte. *)
Definition trimmed (s : string) : Prop :=
  ∃ a s' c, s = String a s' ∧ is_graphic a = true ∧ last_byte s = Some c ∧ is_graphic c = true.

Definition plainText (s : string) : Prop :=
  trimmed s ∧ all_bytes isTextByte s = true ∧ quotedBy quote1 s = false ∧ quotedBy quote2 s = false.

Inductive printable_value : operand → Prop :=
  | PV_string s : all_bytes isTextByte s = true → printable_value (Literal (VString s))
  | PV_int z : - 2 ^ 63 ≤ z < 2 ^ 63 → printable_value (Literal (VInt64 z))
  | PV_bool b : ParseFloat (Sprintv (VBool b)) = None → printable_value (Literal (VBool b))
  | PV_float f : plainText (FormatFloat f) → ParseInt (FormatFloat f) = None →
      ParseFloat (FormatFloat f) = Some f → printable_value (Literal (VFloat64 f))
  | PV_field f : plainText f → ParseInt f = None → ParseFloat f = None →
      f ∉ ["true"; "TRUE"; "false"; "FALSE"] → printable_value (FieldReference f).

(** [scan] runs over the text as [splitByOperator] does and answers the parenthesis level at
    its end, if no AND or OR of the text is read as a connective. *)
Fixpoint scan (operator s : string) (prev : option Ascii.ascii) (level : Z) : option Z :=
  match s with
  | EmptyString => Some level
  | String c s' =>
      let level := paren c level in
      if (level =? 0) && operatorAt operator prev s then None else scan operator s' (Some c) level
  end.

Definition isNullTest (op : string) : Prop := op = "IS NULL" ∨ op = "IS NOT NULL".

Inductive printable : SQLCondition → Prop :=
  | P_Comparison f op v :
      f ≠ "" → f ≠ "not" → all_bytes isFieldByte f = true →
      op ∈ operators → (isNullTest op ∧ v = Literal VNil) ∨ (¬ isNullTest op ∧ printable_value v) →
      no_connective f = true → no_connective (valueString v) = true →
      printable (ComparisonCondition f op v)
  | P_Not c : printable c → printable (NotCondition c)
  | P_And cs : (2 ≤ length cs)%nat → Forall printable cs → printable (AndCondition cs)
  | P_Or cs : (2 ≤ length cs)%nat → Forall printable cs → printable (OrCondition cs).

(** Induction through the lists of conditions. *)
Section induction.
Context (Q : SQLCondition → Prop).
Context (HTrue : Q TrueCondition) (HAnd : ∀ cs, Forall Q cs → Q (AndCondition cs))
  (HOr : ∀ cs, Forall Q cs → Q (OrCondition cs)) (HNot : ∀ c, Q c → Q (NotCondition c))
  (HCmp : ∀ f op v, Q (ComparisonCondition f op v)).
Fixpoint SQLCondition_ind' (c : SQLCondition) : Q c :=
  let all := fix all (l : list SQLCondition) : Forall Q l :=
    match l with
    | [] => Forall_nil_2 Q
    | c :: l' => Forall_cons_2 Q c l' (SQLCondition_ind' c) (all l')
    end in
  match c with
  | TrueCondition => HTrue
  | AndCondition cs => HAnd cs (all cs)
  | OrCondition cs => HOr cs (all cs)
  | NotCondition c => HNot c (SQLCondition_ind' c)
  | ComparisonCondition f op v => HCmp f op v
  end.
End induction.

(** ** Scanning *)

Definition connective (operator : string) : Prop := operator = "OR" ∨ operator = "AND".

(** The next byte ends a word. *)
Definition stop (t : string) : bool :=
  match t with EmptyString => true | String c _ => is_ascii c && negb (isAlphaNumeric c) end.

Lemma mapBytes_app f s t : mapBytes f (s +:+ t)%string = (mapBytes f s +:+ mapBytes f t)%string.
Proof. induction s as [|c s IH]; [done|]. rewrite string_app_cons. simpl. by rewrite IH. Qed.

Lemma mapBytes_length f s : String.length (mapBytes f s) = String.length s.
Proof. induction s; simpl; by f_equal. Qed.

Lemma ToUpper_app_ascii s t :
  all_bytes is_ascii s = true → ToUpper (s +:+ t)%string = (mapBytes ascii_upper s +:+ ToUpper t)%string.
Proof.
  induction s as [|c s IH]; intros Hs; [done|]. simpl in Hs. apply andb_true_iff in Hs as [Hc Hs].
  rewrite string_app_cons, ToUpper_cons_ascii by done. simpl. by rewrite IH.
Qed.

Lemma operatorAt_head operator prev c rest d t :
  connective operator → operator = String d t →
  operatorAt operator prev (String c rest) = true → ascii_upper (code c) = code d.
Proof.
  intros Hop Ed Ho. pose proof (operatorAt_ascii _ _ _ _ Hop Ho) as Hc.
  unfold operatorAt in Ho. bool_prop.
  match goal with H : ToUpper _ = operator |- _ => rename H into E end. rewrite Ed in E.
  simpl in E. rewrite ToUpper_cons_ascii in E by done. injection E as Ea _.
  rewrite <- Ea, code_chr, Z.mod_small; [done|].
  pose proof (code_range c). unfold is_ascii in Hc. bool_prop.
  pose proof (ascii_upper_range (code c)). lia.
Qed.

(** A byte that is neither [o] nor [a] in either case starts no connective. *)
Lemma operatorAt_other operator prev c rest :
  connective operator → ascii_upper (code c) ≠ 79 → ascii_upper (code c) ≠ 65 →
  operatorAt operator prev (String c rest) = false.
Proof.
  intros Hop HO HA. destruct (operatorAt operator prev (String c rest)) eqn:E; [|done]. exfalso.
  destruct Hop as [-> | ->].
  - eapply operatorAt_head in E; [|by left|done]. by apply HO.
  - eapply operatorAt_head in E; [|by right|done]. by apply HA.
Qed.

Lemma dropBytes_app n s t : (n ≤ String.length s)%nat →
  dropBytes n (s +:+ t)%string = (λ u, u +:+ t)%string <$> dropBytes n s.
Proof.
  revert n. induction s as [|c s IH]; intros [|n] Hn; simpl in *; try done; try lia. apply IH. lia.
Qed.

Lemma dropBytes_split n s : (n ≤ String.length s)%nat →
  ∃ u t, s = (u +:+ t)%string ∧ dropBytes n s = Some t ∧ String.length u = n.
Proof.
  revert n. induction s as [|c s IH]; intros [|n] Hn; simpl in *; try lia.
  - by exists "", "".
  - by exists "", (String c s).
  - destruct (IH n) as (u & t & -> & Hd & <-); [lia|]. exists (String c u), t. by rewrite string_app_cons.
Qed.

Lemma dropBytes_Some n s : (n ≤ String.length s)%nat → ∃ t, dropBytes n s = Some t.
Proof.
  revert n. induction s as [|c s IH]; intros [|n] Hn; simpl in *; eauto; try lia. apply IH. lia.
Qed.

Lemma substring_app_le n s t : (n ≤ String.length s)%nat →
  String.substring 0 n (s +:+ t)%string = String.substring 0 n s.
Proof.
  revert n. induction s as [|c s IH]; intros [|n] Hn; simpl in *; try done; [by destruct t|lia|].
  f_equal. apply IH. lia.
Qed.

Lemma substring_app_gt n s c t : (String.length s < n)%nat →
  ∃ u, String.substring 0 n (s +:+ String c t)%string = (s +:+ String c u)%string.
Proof.
  revert n. induction s as [|a s IH]; intros [|n] Hn; simpl in *; try lia.
  - eexists. reflexivity.
  - destruct (IH n) as [u Hu]; [lia|]. exists u. by rewrite Hu.
Qed.

Lemma upper_stop c : isAlphaNumeric c = false → isAlphaNumeric (chr (ascii_upper (code c))) = false.
Proof. by destruct c as [[] [] [] [] [] [] [] []]. Qed.

(** A byte that ends a word is not part of a connective, and no connective spans it. *)
Lemma operatorAt_app operator prev s t :
  connective operator → s ≠ "" → all_bytes is_ascii s = true → stop t = true →
  operatorAt operator prev (s +:+ t)%string = operatorAt operator prev s.
Proof.
  intros Hop Hs Ha Ht. unfold operatorAt. cbn zeta. set (n := String.length operator).
  destruct (Nat.leb_spec n (String.length s)) as [Hn|Hn].
  - rewrite string_length_app, substring_app_le, dropBytes_app by done.
    rewrite (proj2 (Nat.leb_le _ _)) by lia. f_equal.
    destruct (dropBytes_Some n s Hn) as [u ->]. simpl. destruct u as [|c u]; [|done].
    destruct t as [|c t]; [done|]. simpl in *. by apply andb_true_iff in Ht as [_ ->].
  - simpl. apply not_true_iff_false. intros Hb. bool_prop.
    match goal with H : ToUpper _ = operator |- _ => rename H into E end.
    destruct t as [|c t]; [rewrite string_app_nil_r in *; lia|].
    destruct (substring_app_gt n s c t Hn) as [u Hu]. rewrite Hu, ToUpper_app_ascii in E by done.
    simpl in Ht. bool_prop. rewrite ToUpper_cons_ascii in E by done.
    assert (Hbad : isAlphaNumeric (chr (ascii_upper (code c))) = false).
    { by apply upper_stop. }
    assert (Hin : all_bytes isAlphaNumeric operator = true) by (by destruct Hop as [-> | ->]).
    rewrite <- E, all_bytes_app in Hin. simpl in Hin. by rewrite Hbad, andb_false_r in Hin.
Qed.

Definition prev_after (prev : option Ascii.ascii) (s : string) : option Ascii.ascii :=
  match last_byte s with Some c => Some c | None => prev end.

Lemma prev_after_cons prev c s : prev_after prev (String c s) = prev_after (Some c) s.
Proof.
  unfold prev_after. destruct s as [|d s]; [done|].
  change (last_byte (String c (String d s))) with (last_byte (String d s)).
  destruct (last_byte_Some d s) as [e ->]. done.
Qed.

Lemma scan_app operator s t prev l :
  connective operator → all_bytes is_ascii s = true → stop t = true →
  scan operator (s +:+ t)%string prev l =
    scan operator s prev l ≫= λ l', scan operator t (prev_after prev s) l'.
Proof.
  intros Hop. revert prev l. induction s as [|c s IH]; intros prev l Ha Ht; [done|].
  rewrite prev_after_cons, string_app_cons. cbn [scan]. rewrite <- string_app_cons.
  rewrite operatorAt_app by done. simpl in Ha. bool_prop. case_match; [done|]. by apply IH.
Qed.

Lemma string_of_byte_ascii c : is_ascii c = true → string_of_byte c = String c "".
Proof.
  intros Hc. unfold string_of_byte. pose proof (code_range c). unfold is_ascii in Hc. bool_prop.
  rewrite EncodeRune_ascii by lia. by rewrite chr_code.
Qed.

Lemma splitLoop_scan operator s t prev l l' current parts :
  connective operator → all_bytes is_ascii s = true → stop t = true →
  scan operator s prev l = Some l' →
  splitLoop operator (s +:+ t)%string prev 0 l current parts =
    splitLoop operator t (prev_after prev s) 0 l' (current +:+ s)%string parts.
Proof.
  intros Hop. revert prev l current. induction s as [|c s IH]; intros prev l current Ha Ht Hs.
  - simpl in Hs. injection Hs as ->. by rewrite string_app_nil_r.
  - rewrite prev_after_cons, string_app_cons. cbn [splitLoop scan] in *.
    rewrite <- string_app_cons, operatorAt_app by done. simpl in Ha. bool_prop.
    destruct (_ && _); [done|]. rewrite IH by done. f_equal.
    by rewrite string_of_byte_ascii, str_app_assoc.
Qed.

Lemma scan_prev operator s prev l : boundary prev = true → scan operator s prev l = scan operator s None l.
Proof. intros Hb. destruct s as [|c s]; [done|]. simpl. unfold operatorAt. by rewrite Hb. Qed.

Definition noParen (c : Ascii.ascii) : bool := negb (bool_decide (c = lparen)) && negb (bool_decide (c = rparen)).

(** Inside parentheses nothing is a connective. *)
Lemma scan_inside operator s t prev l :
  0 < l → all_bytes noParen s = true →
  scan operator (s +:+ t)%string prev l = scan operator t (prev_after prev s) l.
Proof.
  intros Hl. revert prev. induction s as [|c s IH]; intros prev Hs; [done|].
  rewrite prev_after_cons, string_app_cons. cbn [scan]. simpl in Hs. bool_prop.
  unfold noParen in *. bool_prop. unfold paren. rewrite !bool_decide_false by done.
  rewrite (proj2 (Z.eqb_neq l 0)) by lia. simpl. by apply IH.
Qed.

(** Scanning text with no connective outside parentheses leaves no split. *)
Lemma splitByOperator_quiet operator s :
  connective operator → all_bytes is_ascii s = true → scan operator s None 0 = Some 0 →
  splitByOperator s operator = [s].
Proof.
  intros Hop Ha Hs. unfold splitByOperator.
  pose proof (splitLoop_scan operator s "" None 0 0 "" [] Hop Ha eq_refl Hs) as E.
  rewrite string_app_nil_r in E. rewrite E. simpl. by destruct (bool_decide _).
Qed.

(** ** Printed text *)

Lemma trimmed_app s t : trimmed s → trimmed t → trimmed (s +:+ " " +:+ t)%string.
Proof.
  intros (a & s' & c & -> & Ha & _ & _) (b & t' & d & -> & _ & Hd & Hg).
  exists a, (s' +:+ " " +:+ String b t')%string, d. split_and!; try done.
  rewrite !last_byte_app; done.
Qed.

Lemma trimmed_enclosed a s c :
  is_graphic a = true → is_graphic c = true → trimmed (String a (s +:+ String c "")%string).
Proof.
  intros Ha Hc. exists a, (s +:+ String c "")%string, c. split_and!; try done.
  rewrite <- string_app_cons. by rewrite last_byte_app.
Qed.

Lemma TrimSpace_trimmed s : trimmed s → TrimSpace s = s.
Proof. intros (a & s' & c & -> & Ha & Hl & Hc). by eapply TrimSpace_id. Qed.

Lemma all_graphic_trimmed s : s ≠ "" → all_bytes is_graphic s = true → trimmed s.
Proof.
  destruct s as [|a s]; [done|]. intros _ Hs. destruct (last_byte_Some a s) as [c Hc].
  exists a, s, c. split_and!; try done; [by apply andb_true_iff in Hs as [? _]|].
  revert a Hs Hc. induction s as [|b s IH]; intros a Hs Hc.
  - simpl in *. simplify_eq. by rewrite andb_true_r in Hs.
  - apply (IH b); [|done]. by apply andb_true_iff in Hs as [_ ?].
Qed.

Lemma byte_test (f g : Ascii.ascii → bool) :
  (∀ b0 b1 b2 b3 b4 b5 b6 b7, implb (f (Ascii.Ascii b0 b1 b2 b3 b4 b5 b6 b7)) (g (Ascii.Ascii b0 b1 b2 b3 b4 b5 b6 b7)) = true) →
  ∀ c, f c = true → g c = true.
Proof. intros Hfg [b0 b1 b2 b3 b4 b5 b6 b7] Hf. specialize (Hfg b0 b1 b2 b3 b4 b5 b6 b7). by rewrite Hf in Hfg. Qed.

Ltac bytes := apply byte_test; intros [] [] [] [] [] [] [] []; reflexivity.

Lemma field_graphic c : isFieldByte c = true → is_graphic c && isTextByte c = true.
Proof. revert c. bytes. Qed.
Lemma digit_text c : is_digit c = true → is_graphic c && isTextByte c = true.
Proof. revert c. bytes. Qed.
Lemma text_ascii c : isTextByte c = true → is_ascii c = true.
Proof. revert c. bytes. Qed.
Lemma text_noParen c : isTextByte c = true → noParen c = true.
Proof. revert c. bytes. Qed.

Lemma field_text f : all_bytes isFieldByte f = true → all_bytes is_graphic f = true ∧ all_bytes isTextByte f = true.
Proof.
  intros Hf. split; (eapply all_bytes_impl; [|exact Hf]); intros c Hc; apply field_graphic in Hc;
    by apply andb_true_iff in Hc as [? ?].
Qed.

Lemma pretty_text (z : Z) : all_bytes is_graphic (pretty z) = true ∧ all_bytes isTextByte (pretty z) = true ∧ pretty z ≠ "".
Proof.
  assert (Hd : ∀ n : N, all_bytes is_graphic (pretty n) = true ∧ all_bytes isTextByte (pretty n) = true ∧ pretty n ≠ "").
  { intros n. destruct (pretty_N_digits n) as (_ & Ha & Hne). split_and!; [..|done];
      (eapply all_bytes_impl; [|exact Ha]); intros c Hc; apply digit_text in Hc; by apply andb_true_iff in Hc as [? ?]. }
  destruct z as [|p|p]; [done|apply (Hd (N.pos p))|].
  change (pretty (Z.neg p)) with (String (Ascii.ascii_of_N 45) (pretty (N.pos p))).
  destruct (Hd (N.pos p)) as (? & ? & ?). split_and!; [by simpl|by simpl|done].
Qed.

Lemma value_text v : printable_value v ∨ v = Literal VNil →
  trimmed (valueString v) ∧ all_bytes isTextByte (valueString v) = true.
Proof.
  intros [Hv| ->]; [|split; [by apply all_graphic_trimmed|done]].
  destruct Hv as [s Hs|z Hz|b Hb|f Hf ? ?|f Hf ? ? ?]; cbn [valueString Sprintv].
  - split; [by apply trimmed_enclosed|]. by rewrite !all_bytes_app, Hs.
  - destruct (pretty_text z) as (? & ? & ?). split; [by apply all_graphic_trimmed|done].
  - destruct b; (split; [by apply all_graphic_trimmed|done]).
  - by destruct Hf as (? & ? & _).
  - by destruct Hf as (? & ? & _).
Qed.

(** What the proofs use of a printed condition. *)
Record good (T : string) : Prop := {
  good_trimmed : trimmed T;
  good_ascii : all_bytes is_ascii T = true;
  good_scan operator prev l : connective operator → boundary prev = true → 0 ≤ l →
    scan operator T prev l = Some l;
}.

Definition opHead (operator : string) : Z :=
  match operator with String d _ => code d | EmptyString => 0 end.

(** A byte that is no parenthesis and cannot start the connective is passed over. *)
Lemma scan_step operator c s prev l :
  connective operator → noParen c = true →
  ascii_upper (code c) ≠ opHead operator ∨ boundary prev = false →
  scan operator (String c s) prev l = scan operator s (Some c) l.
Proof.
  intros Hop Hc Hh. cbn [scan]. unfold noParen in Hc. bool_prop.
  unfold paren. rewrite !bool_decide_false by done.
  replace (operatorAt operator prev (String c s)) with false; [by rewrite andb_false_r|].
  symmetry. apply not_true_iff_false. intros Ho. destruct Hh as [Hh|Hh].
  - apply Hh. destruct Hop as [-> | ->]; eapply operatorAt_head; eauto; [by left|by right].
  - unfold operatorAt in Ho. rewrite Hh in Ho. by rewrite andb_false_r in Ho.
Qed.

Lemma good_join_inside operator sep Ts t prev l :
  connective operator → Forall good Ts → sep = " AND " ∨ sep = " OR " →
  boundary prev = true → 0 < l → stop t = true →
  ∃ prev', scan operator (joinWith sep Ts +:+ t)%string prev l = scan operator t prev' l.
Proof.
  intros Hop HT Hsep Hp Hl Ht. revert prev Hp. induction HT as [|T Ts HgT HTs IH]; intros prev Hp.
  { by exists prev. }
  destruct Ts as [|T' Ts].
  - simpl. eexists. rewrite scan_app by (done || apply HgT).
    rewrite (good_scan _ HgT) by (done || lia). reflexivity.
  - destruct (IH (Some (chr 32))) as [prev' E]; [done|]. exists prev'. rewrite <- E.
    change (joinWith sep (T :: T' :: Ts)) with (T +:+ sep +:+ joinWith sep (T' :: Ts))%string.
    rewrite !str_app_assoc. rewrite scan_app;
      [|done|apply HgT|by destruct Hsep as [-> | ->]].
    rewrite (good_scan _ HgT) by (done || lia). cbn [mbind option_bind].
    rewrite scan_inside; [|done|by destruct Hsep as [-> | ->]]. by destruct Hsep as [-> | ->].
Qed.

Lemma good_enclosed sep Ts :
  Forall good Ts → sep = " AND " ∨ sep = " OR " → good (String lparen (joinWith sep Ts +:+ String rparen "")%string).
Proof.
  intros HT Hsep. split.
  - by apply trimmed_enclosed.
  - assert (Hj : all_bytes is_ascii (joinWith sep Ts) = true).
    { induction HT as [|T Ts HgT HTs IH]; [done|]. destruct Ts as [|T' Ts]; [apply HgT|].
      change (joinWith sep (T :: T' :: Ts)) with (T +:+ sep +:+ joinWith sep (T' :: Ts))%string.
      rewrite !all_bytes_app, (good_ascii _ HgT), IH. by destruct Hsep as [-> | ->]. }
    cbn [all_bytes]. by rewrite all_bytes_app, Hj.
  - intros operator prev l Hop Hp Hl. cbn [scan]. unfold paren at 1.
    rewrite bool_decide_true by done. rewrite (proj2 (Z.eqb_neq (l + 1) 0)) by lia. cbn [andb].
    destruct (good_join_inside operator sep Ts (String rparen "") (Some lparen) (l + 1)) as [prev' E];
      try done; [lia|]. unfold paren at 1. rewrite (bool_decide_true eq_refl), E. cbn [scan].
    unfold paren. rewrite bool_decide_false by done. rewrite bool_decide_true by done.
    rewrite operatorAt_other by done. rewrite andb_false_r. f_equal. lia.
Qed.

Lemma operators_text op : op ∈ operators → trimmed op ∧ all_bytes isTextByte op = true.
Proof.
  intros Hin. unfold operators in Hin. repeat (apply elem_of_cons in Hin as [-> | Hin]; 
    [split; [|done]; by (eexists _, _, _; split_and!) |]). by apply elem_of_nil in Hin.
Qed.

Lemma comparison_text f op v :
  f ≠ "" → all_bytes isFieldByte f = true → op ∈ operators → printable_value v ∨ v = Literal VNil →
  trimmed (condString (ComparisonCondition f op v)) ∧
  all_bytes isTextByte (condString (ComparisonCondition f op v)) = true.
Proof.
  intros Hf Hfb Hop Hv. destruct (field_text _ Hfb) as [Hfg Hft]. destruct (operators_text _ Hop) as [Ho Hot].
  destruct (value_text _ Hv) as [Hvt Hvb]. cbn [condString]. split.
  - apply trimmed_app; [by apply all_graphic_trimmed|]. by apply trimmed_app.
  - by rewrite !all_bytes_app, Hft, Hot, Hvb.
Qed.

(** *** Words and connectives *)

Lemma words_from_app_stop w s c t :
  isWordByte c = false → words_from w (s +:+ String c t)%string = words_from w s ++ words t.
Proof.
  intros Hc. revert w. induction s as [|a s IH]; intros w.
  - rewrite string_app_nil. simpl. by rewrite Hc.
  - rewrite string_app_cons. simpl. case_match; [apply IH|]. by rewrite IH, app_assoc.
Qed.

Lemma words_from_run w u t :
  all_bytes isWordByte u = true → words_from w (u +:+ t)%string = words_from (w +:+ u)%string t.
Proof.
  revert w. induction u as [|c u IH]; intros w Hu; [by rewrite string_app_nil, string_app_nil_r|].
  simpl in Hu. bool_prop. rewrite string_app_cons. simpl. rewrite H1, IH by done. by rewrite str_app_assoc.
Qed.

(** Upper-casing to a connective takes letters. *)
Lemma upper_letter_word c : in_range 65 90 (ascii_upper (code c)) = true → isWordByte c = true.
Proof. revert c. bytes. Qed.

Lemma upper_connective_word u :
  mapBytes ascii_upper u ∈ ["OR"; "AND"] → all_bytes is_ascii u = true → all_bytes isWordByte u = true.
Proof.
  intros Hu Ha. assert (all_bytes (λ c, in_range 65 90 (code c)) (mapBytes ascii_upper u) = true) as Hl.
  { rewrite !elem_of_cons in Hu. destruct Hu as [-> |[-> |Hu]]; [done|done|by apply elem_of_nil in Hu]. }
  clear Hu. induction u as [|c u IH]; [done|]. simpl in *. bool_prop.
  rewrite code_chr, Z.mod_small in *; [|pose proof (ascii_upper_range (code c)); unfold is_ascii in *; bool_prop;
    pose proof (code_range c); lia]. rewrite upper_letter_word by done. by apply IH.
Qed.

(** A connective found at a position is the word that starts there. *)
Lemma operatorAt_word operator prev s :
  connective operator → all_bytes is_ascii s = true → operatorAt operator prev s = true →
  no_connective s = false.
Proof.
  intros Hop Ha Ho. unfold operatorAt in Ho. bool_prop.
  match goal with H : (_ ≤ String.length s)%nat |- _ => rename H into Hn end.
  match goal with H : ToUpper _ = operator |- _ => rename H into Hu end.
  match goal with H : boundary (head_byte _) = true |- _ => rename H into Hh end.
  destruct (dropBytes_split _ _ Hn) as (u & t & -> & Hd & Hl).
  rewrite <-Hl, substring_prefix in Hu. rewrite Hd in Hh. simpl in Hh.
  rewrite all_bytes_app in Ha. bool_prop. rewrite ToUpper_ascii in Hu by done.
  assert (Hin : mapBytes ascii_upper u ∈ ["OR"; "AND"]).
  { rewrite Hu. destruct Hop as [-> | ->]; set_solver. }
  unfold no_connective, words. rewrite words_from_run, string_app_nil by by apply upper_connective_word.
  assert (Hne : u ≠ "") by (intros ->; simpl in Hl; by destruct Hop as [-> | ->]).
  assert (words_from u t = u :: words_from "" (default "" (dropBytes 1 t))) as ->.
  { destruct t as [|c t]; simpl; unfold flush.
    - by rewrite bool_decide_false by done.
    - simpl in Hh. change (isWordByte c) with (isAlphaNumeric c). rewrite negb_true_iff in Hh.
      rewrite Hh. by rewrite bool_decide_false by done. }
  simpl. unfold ordinary. by rewrite bool_decide_true by done.
Qed.

(** A text without the words AND and OR is passed over to its end. *)
Lemma scan_words operator s prev w :
  connective operator → all_bytes isTextByte s = true → (boundary prev = true → w = "") →
  forallb ordinary (words_from w s) = true → scan operator s prev 0 = Some 0.
Proof.
  intros Hop. revert prev w. induction s as [|c s IH]; intros prev w Hs Hw Ho; [done|].
  assert (Ha : all_bytes is_ascii (String c s) = true) by (eapply all_bytes_impl; [apply text_ascii|done]).
  assert (Hat : operatorAt operator prev (String c s) = false).
  { apply not_true_iff_false. intros E. pose proof (operatorAt_word _ _ _ Hop Ha E) as Hno.
    unfold operatorAt in E. bool_prop. rewrite Hw in Ho by done. unfold no_connective, words in Hno. congruence. }
  cbn [scan]. rewrite Hat, andb_false_r. simpl in Hs. bool_prop.
  pose proof (text_noParen c ltac:(done)) as Hp. unfold noParen in Hp. bool_prop.
  unfold paren. rewrite !bool_decide_false by done.
  simpl in Ho. destruct (isWordByte c) eqn:Hc.
  - apply (IH _ (w +:+ String c "")%string); [done| |done]. simpl.
    change (isAlphaNumeric c) with (isWordByte c). by rewrite Hc.
  - apply (IH _ ""); [done|done|]. rewrite forallb_app in Ho. by bool_prop.
Qed.

Lemma operators_ordinary op : op ∈ operators → no_connective op = true.
Proof.
  intros Hin. unfold operators in Hin.
  repeat (apply elem_of_cons in Hin as [-> | Hin]; [done|]). by apply elem_of_nil in Hin.
Qed.

Lemma comparison_scan operator f op v :
  connective operator → op ∈ operators → no_connective f = true → no_connective (valueString v) = true →
  all_bytes isTextByte (condString (ComparisonCondition f op v)) = true →
  scan operator (condString (ComparisonCondition f op v)) None 0 = Some 0.
Proof.
  intros Hop Hin Hf Hv Ht. apply (scan_words _ _ _ ""); [done..|]. cbn [condString].
  change (f +:+ " " +:+ op +:+ " " +:+ valueString v)%string
    with (f +:+ String (chr 32) (op +:+ String (chr 32) (valueString v)))%string.
  rewrite words_from_app_stop by done. unfold words. rewrite words_from_app_stop by done.
  rewrite !forallb_app. unfold no_connective, words in *. rewrite Hf, Hv.
  pose proof (operators_ordinary op Hin) as Ho. unfold no_connective, words in Ho. by rewrite Ho.
Qed.

Lemma cond_good c : printable c → good (condString c).
Proof.
  induction c as [|cs IH|cs IH|c IH|f op v] using SQLCondition_ind'; intros Hp; inversion Hp; subst.
  - apply (good_enclosed " AND "); [|by left]. apply Forall_fmap. rewrite Forall_forall in *. naive_solver.
  - apply (good_enclosed " OR "); [|by right]. apply Forall_fmap. rewrite Forall_forall in *. naive_solver.
  - destruct IH as [Ht Ha Hs]; [done|]. cbn [condString]. split.
    + change ("NOT " +:+ condString c)%string with ("NOT" +:+ " " +:+ condString c)%string.
      apply trimmed_app; [by apply all_graphic_trimmed|done].
    + by rewrite all_bytes_app, Ha.
    + intros operator prev l Hop Hb Hl.
      change ("NOT " +:+ condString c)%string with
        (String (chr 78) (String (chr 79) (String (chr 84) (String (chr 32) (condString c))))).
      rewrite scan_step; [|done|done|left; by destruct Hop as [-> | ->]].
      rewrite scan_step; [|done|done|by right].
      rewrite !scan_step; try done; try (left; by destruct Hop as [-> | ->]). by apply Hs.
  - assert (Hv : printable_value v ∨ v = Literal VNil) by naive_solver.
    destruct (comparison_text f op v) as [Ht Hb]; try done. split; [done| |].
    + eapply all_bytes_impl; [|exact Hb]. apply text_ascii.
    + intros operator prev l Hop Hbd Hl. destruct (decide (l = 0)) as [->|].
      * rewrite scan_prev by done. by apply comparison_scan.
      * rewrite <- (string_app_nil_r (condString _)). rewrite scan_inside; [done|lia|].
        eapply all_bytes_impl; [|exact Hb]. apply text_noParen.
Qed.
End Printable.
