(* ===== verification/RuleRoundTrip.v ===== *)
(** * The print/parse round trip of rule conditions (pkg/rules/sql.go) *)

From S2P Require Import Prelude GoLib GoValue RuleSQL RuleParse RulePrint.
From Stdlib Require String Ascii.
Local Open Scope emqx_scope.
Local Open Scope Z_scope.

Section RoundTrip.
Context `{GoFloat} `{GoUnicode}.

(** ** Splitting what [Join] put together *)

Lemma joinWith_cons sep T T' Ts :
  joinWith sep (T :: T' :: Ts) = (T +:+ sep +:+ joinWith sep (T' :: Ts))%string.
Proof. done. Qed.

Lemma TrimSpace_piece T pre post : good T → pre = "" ∨ pre = " " → post = "" ∨ post = " " →
  TrimSpace (pre +:+ T +:+ post)%string = T.
Proof. intros [(a & s & c & -> & Ha & Hl & Hc) _ _] Hpre Hpost. by eapply TrimSpace_around. Qed.

Lemma ToUpper_connective operator : connective operator → ToUpper operator = operator.
Proof. intros [-> | ->]; by rewrite ToUpper_ascii. Qed.

Lemma splitLoop_separator operator J prev current parts :
  connective operator →
  splitLoop operator (String (chr 32) (operator +:+ String (chr 32) J))%string prev 0 0 current parts =
  splitLoop operator J (Some (chr 32)) 0 0 " " (parts ++ [TrimSpace (current +:+ " ")%string]).
Proof.
  intros Hop.
  assert (Hskip : operatorAt operator prev (String (chr 32) (operator +:+ String (chr 32) J)%string) = false)
    by (by apply operatorAt_other).
  assert (Hat : operatorAt operator (Some (chr 32)) (operator +:+ String (chr 32) J)%string = true).
  { unfold operatorAt. rewrite substring_prefix, ToUpper_connective by done.
    rewrite string_length_app, bool_decide_true by done.
    rewrite (proj2 (Nat.leb_le _ _)) by lia. simpl. rewrite dropBytes_app by done.
    destruct Hop as [-> | ->]; done. }
  change (splitLoop operator (String (chr 32) (operator +:+ String (chr 32) J))%string prev 0 0 current parts)
    with (if (0 =? 0) && operatorAt operator prev (String (chr 32) (operator +:+ String (chr 32) J)%string)
          then splitLoop operator (operator +:+ String (chr 32) J)%string (Some (chr 32))
                 (String.length operator - 1) 0 "" (parts ++ [TrimSpace current])
          else splitLoop operator (operator +:+ String (chr 32) J)%string (Some (chr 32)) 0 0
                 (current +:+ string_of_byte (chr 32))%string parts).
  rewrite Hskip, andb_false_r.
  destruct Hop as [-> | ->]; rewrite !string_app_cons in Hat; rewrite !string_app_cons;
    (rewrite string_app_nil in Hat; rewrite string_app_nil);
    cbn [splitLoop]; change (paren (Ascii.Ascii _ _ _ _ _ _ _ _) 0) with 0; cbv zeta; rewrite Hat; cbn [andb Z.eqb];
    cbn [String.length Nat.sub splitLoop]; change (paren (chr 32) 0) with 0; cbv zeta;
    rewrite operatorAt_other by (done || (by left) || (by right)); rewrite andb_false_r; done.
Qed.

Lemma splitLoop_join operator Ts prev current parts :
  connective operator → Ts ≠ [] → Forall good Ts → boundary prev = true →
  current = "" ∨ current = " " →
  splitLoop operator (joinWith (" " +:+ operator +:+ " ")%string Ts) prev 0 0 current parts = parts ++ Ts.
Proof.
  intros Hop Hne HT. revert prev current parts Hne.
  induction HT as [|T Ts HgT HTs IH]; intros prev current parts Hne Hp Hc; [done|].
  assert (Hscan : scan operator T prev 0 = Some 0) by (apply HgT; done).
  destruct Ts as [|T' Ts].
  - simpl. pose proof (splitLoop_scan operator T "" prev 0 0 current parts Hop (good_ascii _ HgT) eq_refl Hscan) as E.
    rewrite string_app_nil_r in E. rewrite E. cbn [splitLoop].
    assert (HT : TrimSpace (current +:+ T)%string = T).
    { rewrite <- (string_app_nil_r T) at 1. apply TrimSpace_piece; [done|done|by left]. }
    rewrite HT. rewrite bool_decide_false; [done|].
    destruct HgT as [(a & s & c & -> & _) _ _]. destruct Hc as [-> | ->]; done.
  - rewrite joinWith_cons.
    erewrite splitLoop_scan; [|done|apply HgT|done|exact Hscan].
    replace ((" " +:+ operator +:+ " ") +:+ joinWith (" " +:+ operator +:+ " ") (T' :: Ts))%string
      with (String (chr 32) (operator +:+ String (chr 32) (joinWith (" " +:+ operator +:+ " ") (T' :: Ts))))%string
      by (by rewrite !str_app_assoc).
    rewrite splitLoop_separator by done.
    rewrite IH; [|done|done|by right]. rewrite <- app_assoc. f_equal. simpl. f_equal.
    rewrite str_app_assoc. apply TrimSpace_piece; [done|done|by right].
Qed.

Lemma splitByOperator_join operator Ts :
  connective operator → (2 ≤ length Ts)%nat → Forall good Ts →
  splitByOperator (joinWith (" " +:+ operator +:+ " ")%string Ts) operator = Ts.
Proof.
  intros Hop Hl HT. unfold splitByOperator.
  rewrite splitLoop_join; [|done|intros ->; simpl in Hl; lia|done|done|by left]. simpl.
  by rewrite (proj2 (Nat.leb_gt _ _)) by lia.
Qed.

(** In a conjunction no OR is found outside parentheses. *)
Lemma scan_conjunction Ts prev : Forall good Ts → boundary prev = true →
  scan "OR" (joinWith " AND " Ts) prev 0 = Some 0.
Proof.
  intros HT. assert (Hop : connective "OR") by by left. revert prev.
  induction HT as [|T Ts HgT HTs IH]; intros prev Hp; [done|].
  destruct Ts as [|T' Ts]; [by apply HgT|]. rewrite joinWith_cons.
  rewrite scan_app by (done || apply HgT). rewrite (good_scan _ HgT) by done. cbn [mbind option_bind].
  rewrite !string_app_cons, string_app_nil. rewrite !scan_step; try done; try (by left). by apply IH.
Qed.

Lemma good_join sep Ts : Ts ≠ [] → Forall good Ts → sep = " AND " ∨ sep = " OR " →
  trimmed (joinWith sep Ts) ∧ all_bytes is_ascii (joinWith sep Ts) = true.
Proof.
  intros Hne HT Hsep. induction HT as [|T Ts HgT HTs IH]; [done|].
  destruct Ts as [|T' Ts]; [split; apply HgT|]. destruct IH as [IHt IHa]; [done|].
  rewrite joinWith_cons. split.
  - assert (Hs : ∃ w, trimmed w ∧ sep = (" " +:+ w +:+ " ")%string).
    { destruct Hsep as [-> | ->]; [exists "AND"|exists "OR"]; (split; [by apply all_graphic_trimmed|done]). }
    destruct Hs as (w & Hw & ->). rewrite !str_app_assoc.
    apply trimmed_app; [apply HgT|]. by apply trimmed_app.
  - rewrite !all_bytes_app, IHa, (good_ascii _ HgT). by destruct Hsep as [-> | ->].
Qed.

Lemma asciiCount_join sep Ts T : T ∈ Ts → (asciiCount T ≤ asciiCount (joinWith sep Ts))%nat.
Proof.
  induction Ts as [|T' Ts IH]; intros Hin; [by apply elem_of_nil in Hin|].
  destruct Ts as [|T'' Ts]; [apply list_elem_of_singleton in Hin; by subst|].
  rewrite joinWith_cons, !asciiCount_app. apply elem_of_cons in Hin as [-> |Hin]; [lia|].
  specialize (IH Hin). lia.
Qed.

Lemma good_quiet operator T : good T → connective operator → splitByOperator T operator = [T].
Proof. intros Hg Hop. apply splitByOperator_quiet; [done|apply Hg|by apply Hg]. Qed.

(** ** Comparisons *)

Lemma HasSuffix_app s t : strings.HasSuffix (s +:+ t)%string t = true.
Proof.
  induction s as [|c s IH].
  - rewrite string_app_nil. destruct t; cbn [strings.HasSuffix]; rewrite (bool_decide_true eq_refl); done.
  - rewrite string_app_cons. simpl. by rewrite IH, orb_true_r.
Qed.

Lemma slice_enclosed a s b :
  slice (String a (s +:+ String b "")%string) 1
    (Z.of_nat (String.length (String a (s +:+ String b "")%string)) - 1) = Returns s.
Proof.
  unfold slice. cbn [String.length]. rewrite string_length_app. cbn [String.length].
  assert (Hb : (0 <=? 1) && (1 <=? Z.of_nat (S (String.length s + 1)) - 1)
     && (Z.of_nat (S (String.length s + 1)) - 1 <=? Z.of_nat (S (String.length s + 1))) = true).
  { rewrite !andb_true_iff. repeat split; apply Z.leb_le; lia. }
  rewrite Hb. f_equal. replace (Z.to_nat (Z.of_nat (S (String.length s + 1)) - 1 - 1)) with (String.length s) by lia.
  change (Z.to_nat 1) with 1%nat. cbn [String.substring]. apply substring_prefix.
Qed.

Lemma quotedBy_head q a s : quotedBy q (String a s) = true → a = q.
Proof.
  unfold quotedBy. intros Hq. bool_prop.
  match goal with H : strings.HasPrefix _ _ = true |- _ => apply prefix_app_inv in H as [u E] end.
  by injection E as ->.
Qed.

Lemma parseValue_printed v : printable_value v → parseValue (valueString v) = Returns (Ok v).
Proof.
  intros Hv. destruct (value_text v (or_introl Hv)) as [Ht _]. unfold parseValue.
  rewrite TrimSpace_trimmed by done. clear Ht.
  assert (Hplain : ∀ t, quotedBy quote1 t = false → quotedBy quote2 t = false →
            quotedBy quote1 t || quotedBy quote2 t = false) by (by intros t -> ->).
  destruct Hv as [s Hs|z Hz|b Hb|f (Hf & _ & Hq1 & Hq2) Hi Hfl|f (Hf & _ & Hq1 & Hq2) Hi Hfl Hnb];
    cbn [valueString Sprintv] in *.
  - replace ("'" +:+ s +:+ "'")%string with (String quote1 (s +:+ String quote1 "")%string) by done.
    assert (Hq : quotedBy quote1 (String quote1 (s +:+ String quote1 "")%string) = true).
    { unfold quotedBy. apply andb_true_iff. split.
      - apply (HasPrefix_app (String quote1 "") (s +:+ String quote1 "")).
      - rewrite <- string_app_cons. apply HasSuffix_app. }
    rewrite Hq. cbn [orb]. by rewrite slice_enclosed.
  - rewrite Hplain, ParseInt_pretty; [done|done|..]; apply not_true_iff_false; intros Hq;
      destruct (pretty z) as [|a t] eqn:E; try discriminate; apply quotedBy_head in Hq; subst a;
      destruct (pretty_text z) as (Hg & _); pose proof (ParseInt_pretty z Hz) as Hp; rewrite E in Hp; discriminate.
  - destruct b; rewrite Hb; done.
  - by rewrite Hplain, Hi, Hfl.
  - rewrite Hplain, Hi, Hfl by done. rewrite !bool_decide_false; [done|..]; set_solver.
Qed.

Lemma field_no_operator c s : isFieldByte c = true → matchOperator operators (skipSpaces (String c s)) = None.
Proof.
  intros Hc. assert (Hs : isRegexpSpace c = false).
  { revert c Hc. intros c. destruct c as [[] [] [] [] [] [] [] []]; done. }
  cbn [skipSpaces]. rewrite Hs. clear Hs.
  assert (Hp : ∀ op, op ∈ operators → String.prefix op (String c s) = false).
  { intros op Hop. unfold operators in Hop.
    repeat (apply elem_of_cons in Hop as [-> |Hop]; [by destruct c as [[] [] [] [] [] [] [] []]|]).
    by apply elem_of_nil in Hop. }
  revert Hp. generalize operators. intros l Hp. induction l as [|op l IH]; [done|]. cbn [matchOperator].
  rewrite Hp by (by left). apply IH. intros. apply Hp. by right.
Qed.

Lemma matchOperator_printed op v :
  op ∈ operators → trimmed v → all_bytes isTextByte v = true →
  matchOperator operators (skipSpaces (String (chr 32) (op +:+ " " +:+ v)%string)) = Some (op, v).
Proof.
  intros Hop Hv Hb.
  assert (Hsp : skipSpaces v = v).
  { destruct Hv as (a & s & c & -> & Ha & _). cbn.
    destruct (isRegexpSpace a) eqn:E; [|done].
    exfalso. destruct a as [[] [] [] [] [] [] [] []]; done. }
  assert (Hlf : strings.ContainsByte v linefeed = false).
  { clear -Hb. induction v as [|c v IH]; [done|]. cbn in *. bool_prop.
    unfold isTextByte in *. bool_prop. rewrite bool_decide_false by done. by apply IH. }
  unfold operators in Hop.
  repeat (apply elem_of_cons in Hop as [-> |Hop];
    [simpl; rewrite ?string_app_nil, Hsp, Hlf; done|]).
  by apply elem_of_nil in Hop.
Qed.

Lemma matchComparison_printed field f op v :
  (field +:+ f)%string ≠ "" → all_bytes isFieldByte f = true →
  op ∈ operators → trimmed v → all_bytes isTextByte v = true →
  matchComparison field (f +:+ " " +:+ op +:+ " " +:+ v)%string = Some ((field +:+ f)%string, op, v).
Proof.
  intros Hne Hf Hop Hv Hb. revert field Hne. induction f as [|c f IH]; intros field Hne.
  - rewrite string_app_nil_r in *. rewrite string_app_nil.
    change (" " +:+ op +:+ " " +:+ v)%string with (String (chr 32) (op +:+ " " +:+ v)%string).
    cbn [matchComparison]. rewrite bool_decide_false by done. cbn [negb].
    by rewrite matchOperator_printed.
  - cbn [all_bytes] in Hf. apply andb_true_iff in Hf as [Hc Hf].
    rewrite string_app_cons. cbn [matchComparison].
    rewrite field_no_operator by done.
    assert (Hlf : bool_decide (c = linefeed) = false).
    { apply bool_decide_false. intros ->. discriminate. }
    rewrite Hlf. replace (if field <>s "" then None else None) with (@None (string * string)) by (by case_match).
    rewrite IH; [by rewrite str_app_assoc| done|]. destruct field; discriminate.
Qed.

Lemma upper_field_inj c d : isFieldByte c = true → isFieldByte d = true →
  chr (ascii_upper (code c)) = chr (ascii_upper (code d)) → c = d.
Proof.
  intros Hc Hd E. apply (f_equal code) in E.
  rewrite !code_chr in E. unfold isFieldByte, ascii_upper, in_range in *.
  pose proof (code_range c). pose proof (code_range d). apply code_inj.
  rewrite !Z.mod_small in E by (repeat case_match; bool_prop; lia).
  apply orb_true_iff in Hc, Hd. rewrite !orb_true_iff, !andb_true_iff, !Z.leb_le, !Z.eqb_eq in Hc, Hd.
  repeat case_match; bool_prop; lia.
Qed.

Lemma upper_field_not_space c : isFieldByte c = true → chr (ascii_upper (code c)) ≠ chr 32.
Proof. destruct c as [[] [] [] [] [] [] [] []]; done. Qed.

(** Only the field [not] makes a printed comparison look like a negation. *)
Lemma field_not_NOT f rest : f ≠ "" → f ≠ "not" → all_bytes isFieldByte f = true →
  strings.HasPrefix (ToUpper (f +:+ String (chr 32) rest)%string) "NOT " = false.
Proof.
  intros Hne Hn Hf. apply not_true_iff_false. intros Hp. apply prefix_app_inv in Hp as [t E].
  rewrite ToUpper_app_ascii, ToUpper_cons_ascii in E;
    [|done|eapply all_bytes_impl; [|by apply field_text in Hf as [_ Hf]]; apply text_ascii].
  change (chr (ascii_upper (code (chr 32)))) with (chr 32) in E.
  destruct f as [|c0 f]; [done|]. cbn [all_bytes] in Hf. bool_prop.
  change "NOT "%string with (String (chr 78) (String (chr 79) (String (chr 84) (String (chr 32) "")))) in E.
  cbn [mapBytes] in E. rewrite !string_app_cons in E. injection E as E0 E.
  destruct f as [|c1 f]; [by rewrite string_app_nil in E|]. cbn [all_bytes mapBytes] in *. bool_prop.
  rewrite !string_app_cons in E. injection E as E1 E.
  destruct f as [|c2 f]; [by rewrite string_app_nil in E|]. cbn [all_bytes mapBytes] in *. bool_prop.
  rewrite !string_app_cons in E. injection E as E2 E.
  destruct f as [|c3 f]; cbn [all_bytes mapBytes] in *; bool_prop.
  - apply Hn. f_equal; [|f_equal; [|f_equal]]; apply upper_field_inj; done.
  - rewrite string_app_cons in E. injection E as E3 _. by eapply upper_field_not_space.
Qed.

Lemma parseComparison_printed f op v : printable (ComparisonCondition f op v) →
  parseComparison (condString (ComparisonCondition f op v)) = Returns (Ok (ComparisonCondition f op v)).
Proof.
  intros Hp. pose proof (cond_good _ Hp) as Hg. inversion Hp as [? ? ? Hf Hn Hfb Hop Hv _ _| | |]; subst.
  assert (Hv' : printable_value v ∨ v = Literal VNil) by naive_solver.
  destruct (value_text v Hv') as [Hvt Hvb]. destruct (operators_text _ Hop) as [Hot _].
  unfold parseComparison. rewrite TrimSpace_trimmed by apply Hg. cbn [condString].
  rewrite matchComparison_printed by done. rewrite string_app_nil.
  rewrite !TrimSpace_trimmed by (done || by apply all_graphic_trimmed; [done|apply field_text]).
  assert (Hup : ToUpper op = op).
  { clear -Hop. unfold operators in Hop.
    repeat (apply elem_of_cons in Hop as [-> |Hop]; [by rewrite ToUpper_ascii|]). by apply elem_of_nil in Hop. }
  rewrite Hup. destruct Hv as [[[-> | ->] ->]|[Hnn Hpv]]; [done|done|].
  rewrite !bool_decide_false by (unfold isNullTest in Hnn; naive_solver).
  by rewrite parseValue_printed.
Qed.

(** ** Printed conditions parse back *)

Lemma sequenceParts_Ok cs : sequenceParts ((λ c, Returns (Ok c)) <$> cs) = Returns (Ok cs).
Proof. induction cs as [|c cs IH]; [done|]. cbn. by rewrite IH. Qed.

Lemma mapM_map {A B C} (f : A → option C) (g : B → A) (h : B → C) l :
  (∀ x, x ∈ l → f (g x) = Some (h x)) → mapM f (g <$> l) = Some (h <$> l).
Proof.
  induction l as [|x l IH]; intros Hl; [done|]. cbn. rewrite Hl by (by left). cbn.
  rewrite IH by (intros; apply Hl; by right). done.
Qed.

(** The step that removes the parentheses of a printed list of conditions. *)
Lemma parseExpression_enclosed k sep Ts :
  Forall good Ts → sep = " AND " ∨ sep = " OR " →
  parseExpression (S k) (String lparen (joinWith sep Ts +:+ String rparen "")%string) =
  parseExpression k (joinWith sep Ts).
Proof.
  intros HT Hsep. pose proof (good_enclosed sep Ts HT Hsep) as Hg.
  cbn [parseExpression]. rewrite TrimSpace_trimmed by apply Hg. cbv zeta.
  rewrite (good_quiet "OR") by (done || (by left)). rewrite (good_quiet "AND") by (done || (by right)).
  cbn [length Nat.ltb Nat.leb].
  replace (strings.HasPrefix _ "(" && _) with true; [by rewrite slice_enclosed|].
  symmetry. apply andb_true_iff. split.
  - apply (HasPrefix_app "(" (joinWith sep Ts +:+ String rparen "")).
  - rewrite <- string_app_cons. apply HasSuffix_app.
Qed.

Lemma parse_list k operator (mk : list SQLCondition → SQLCondition) cs :
  connective operator → (operator = "OR" ∧ mk = OrCondition ∨ operator = "AND" ∧ mk = AndCondition) →
  (2 ≤ length cs)%nat → Forall printable cs →
  (∀ c, c ∈ cs → parseExpression k (condString c) = Some (Returns (Ok c))) →
  parseExpression (S k) (joinWith (" " +:+ operator +:+ " ")%string (condString <$> cs)) =
  Some (Returns (Ok (mk cs))).
Proof.
  intros Hop Hmk Hl Hcs Hk. set (sep := (" " +:+ operator +:+ " ")%string).
  assert (Hsep : sep = " AND " ∨ sep = " OR ") by (destruct Hop as [-> | ->]; [by right|by left]).
  assert (HT : Forall good (condString <$> cs)).
  { apply Forall_fmap. eapply Forall_impl; [exact Hcs|]. apply cond_good. }
  assert (Hl' : (2 ≤ length (condString <$> cs))%nat) by (by rewrite length_fmap).
  destruct (good_join sep (condString <$> cs)) as [Ht Ha]; [destruct cs; [simpl in Hl; lia|done]|done|done|].
  cbn [parseExpression]. rewrite TrimSpace_trimmed by done. cbv zeta.
  assert (Hsplit : splitByOperator (joinWith sep (condString <$> cs)) operator = condString <$> cs)
    by (by apply splitByOperator_join).
  assert (Hm : mapM (parseExpression k) (condString <$> cs) = Some ((λ c, Returns (Ok c)) <$> cs))
    by (by apply mapM_map).
  destruct Hmk as [[-> ->]|[-> ->]].
  - rewrite Hsplit, (proj2 (Nat.ltb_lt _ _)), Hm by lia. cbn [mbind option_bind]. by rewrite sequenceParts_Ok.
  - rewrite (splitByOperator_quiet "OR"); [|by left|done|by apply scan_conjunction]. cbn [length]. change (1 <? 1)%nat with false. cbv iota.
    rewrite Hsplit, (proj2 (Nat.ltb_lt _ _)), Hm by lia. cbn [mbind option_bind]. by rewrite sequenceParts_Ok.
Qed.

Lemma parse_enclosed_list k operator (mk : list SQLCondition → SQLCondition) cs :
  connective operator → (operator = "OR" ∧ mk = OrCondition ∨ operator = "AND" ∧ mk = AndCondition) →
  (2 ≤ length cs)%nat → Forall printable cs →
  Forall (λ c, ∀ k, printable c → (asciiCount (condString c) < k)%nat →
    parseExpression k (condString c) = Some (Returns (Ok c))) cs →
  (asciiCount (condString (mk cs)) < k)%nat →
  parseExpression k (condString (mk cs)) = Some (Returns (Ok (mk cs))).
Proof.
  intros Hop Hmk Hl Hcs IH Hk. set (sep := (" " +:+ operator +:+ " ")%string).
  assert (Hsep : sep = " AND " ∨ sep = " OR ") by (destruct Hop as [-> | ->]; [by right|by left]).
  assert (HT : Forall good (condString <$> cs)).
  { apply Forall_fmap. eapply Forall_impl; [exact Hcs|]. apply cond_good. }
  assert (Hstr : condString (mk cs) = String lparen (joinWith sep (condString <$> cs) +:+ String rparen "")%string)
    by (by destruct Hmk as [[-> ->]|[-> ->]]).
  rewrite Hstr in *. cbn [asciiCount] in Hk. rewrite asciiCount_app in Hk.
  change (asciiCount (String rparen "")) with 1%nat in Hk. change (is_ascii lparen) with true in Hk. cbv iota in Hk.
  destruct k as [|[|k]]; [lia|lia|]. rewrite parseExpression_enclosed by done.
  apply parse_list; try done. intros c Hc. rewrite Forall_forall in IH, Hcs. apply IH; [done|by apply Hcs|].
  assert (Hin : condString c ∈ condString <$> cs) by (by apply list_elem_of_fmap_2).
  apply (asciiCount_join sep) in Hin. lia.
Qed.

Lemma parseExpression_printed c k :
  printable c → (asciiCount (condString c) < k)%nat →
  parseExpression k (condString c) = Some (Returns (Ok c)).
Proof.
  revert k. induction c as [|cs IH|cs IH|c IH|f op v] using SQLCondition_ind'; intros k Hp Hk.
  - by inversion Hp.
  - inversion Hp; subst. by apply (parse_enclosed_list k "AND"); [right|right|..].
  - inversion Hp; subst. by apply (parse_enclosed_list k "OR"); [left|left|..].
  - inversion Hp; subst. destruct k as [|k]; [lia|]. pose proof (cond_good _ Hp) as Hg.
    cbn [parseExpression]. rewrite TrimSpace_trimmed by apply Hg. cbv zeta.
    rewrite (good_quiet "OR") by (done || (by left)). rewrite (good_quiet "AND") by (done || (by right)).
    cbn [length Nat.ltb Nat.leb]. cbn [condString] in *.
    assert (Hpar : strings.HasPrefix ("NOT " +:+ condString c)%string "(" = false) by done.
    assert (Hnot : strings.HasPrefix (ToUpper ("NOT " +:+ condString c)%string) "NOT " = true).
    { rewrite (ToUpper_app_ascii "NOT ") by done. apply HasPrefix_app. }
    rewrite Hpar, Hnot. cbn [andb].
    change (slice_from ("NOT " +:+ condString c)%string 4) with (Returns (condString c)). cbv iota.
    rewrite IH; [done|done|]. rewrite asciiCount_app in Hk. simpl in Hk. lia.
  - destruct k as [|k]; [lia|]. pose proof (cond_good _ Hp) as Hg.
    cbn [parseExpression]. rewrite TrimSpace_trimmed by apply Hg. cbv zeta.
    rewrite (good_quiet "OR") by (done || (by left)). rewrite (good_quiet "AND") by (done || (by right)).
    cbn [length Nat.ltb Nat.leb]. inversion Hp; subst.
    assert (Hpar : strings.HasPrefix (condString (ComparisonCondition f op v)) "(" = false).
    { cbn [condString]. destruct f as [|c f]; [done|]. apply not_true_iff_false. intros Hb.
      apply HasPrefix_cons in Hb as [s' E]. rewrite string_app_cons in E. injection E as -> _. done. }
    rewrite Hpar. cbn [andb].
    assert (Hnot : strings.HasPrefix (ToUpper (condString (ComparisonCondition f op v))) "NOT " = false)
      by (by apply field_not_NOT).
    rewrite Hnot. by rewrite parseComparison_printed.
Qed.

(** A text that the parser takes for a SELECT statement. *)
Definition statement_like (text : string) : bool := strings.HasPrefix (ToUpper text) "SELECT".

(** C13. Printing a condition and parsing the text gives the condition back, for every nesting
    of AND and OR (of two conditions or more), NOT and comparisons that is [printable]: the
    field of a comparison is a non-empty name of lower-case letters, digits, underscores and
    dots other than "not"; the value is a string of ASCII bytes without parentheses and line
    feeds, a 64-bit integer, a boolean, a float whose text reads back as that float and not as
    an integer, or a field reference whose text is not quoted, a number or a boolean (null
    with IS NULL and IS NOT NULL only); and no word of the field or of the value's text is AND
    or OR in any case, which the parser would take for a connective inside quotes too.  The
    whole text may not start with SELECT, which [Parse] takes for a statement. *)
Theorem print_parse_roundtrip c :
  printable c → statement_like (condString c) = false →
  Parse (condString c) = Some (Returns (Ok c)).
Proof.
  intros Hp Hs. pose proof (cond_good _ Hp) as Hg. unfold statement_like in Hs. unfold Parse.
  rewrite TrimSpace_trimmed by apply Hg. cbv zeta. rewrite Hs.
  rewrite bool_decide_false; [|destruct (good_trimmed _ Hg) as (? & ? & ? & -> & _); done].
  apply parseExpression_printed; [done|]. pose proof (asciiCount_length (condString c)). lia.
Qed.
End RoundTrip.

Section RoundTripWitness.
Local Existing Instance intFloat.
Local Existing Instance asciiUnicode.

(** topic = 'a b' AND (qos >= 1 OR NOT clientid LIKE 'x%') AND username IS NULL *)
Definition example_condition : SQLCondition :=
  AndCondition
    [ComparisonCondition "topic" "=" (Literal (VString "a b"));
     OrCondition [ComparisonCondition "qos" ">=" (Literal (VInt64 (-1)));
                  NotCondition (ComparisonCondition "clientid" "LIKE" (Literal (VString "x%")))];
     ComparisonCondition "username" "IS NULL" (Literal VNil)].

Lemma print_parse_roundtrip_witness :
  printable example_condition ∧ Parse (condString example_condition) = Some (Returns (Ok example_condition)).
Proof.
  assert (Hp : printable example_condition).
  { assert (Hcmp : ∀ f op v,
      f ≠ "" → f ≠ "not" → all_bytes isFieldByte f = true → bool_decide (op ∈ operators) = true →
      (isNullTest op ∧ v = Literal VNil) ∨ (¬ isNullTest op ∧ printable_value v) →
      no_connective f = true → no_connective (valueString v) = true →
      printable (ComparisonCondition f op v)).
    { intros. constructor; try done; by eapply bool_decide_eq_true_1. }
    assert (Hne : ∀ op, bool_decide (op = "IS NULL") = false → bool_decide (op = "IS NOT NULL") = false →
              ¬ isNullTest op) by (intros op ?? [?|?]; bool_prop; done).
    unfold example_condition.
    constructor; [simpl; lia|]. repeat apply Forall_cons_2; [..|apply Forall_nil_2].
    - apply Hcmp; try done. right. split; [by apply Hne|by constructor].
    - constructor; [simpl; lia|]. repeat apply Forall_cons_2; [..|apply Forall_nil_2].
      + apply Hcmp; try done. right. split; [by apply Hne|by constructor].
      + constructor. apply Hcmp; try done. right. split; [by apply Hne|by constructor].
    - apply Hcmp; try done. left. split; [by left|done]. }
  split; [done|]. apply print_parse_roundtrip; [done|]. by vm_compute.
Defined.
End RoundTripWitness.
