(* ===== verification/RuleEval.v ===== *)
(** * Evaluation of rule conditions (pkg/rules/sql.go): the connectives and their errors,
    numeric comparisons, LIKE, and the inputs on which the parser panics *)

From S2P Require Import Prelude GoLib GoValue RuleSQL RuleParse.
From Stdlib Require String Ascii.
Local Open Scope emqx_scope.
Local Open Scope Z_scope.

(** ** Connectives *)

Section Connectives.
Context `{GoFloat} (Unmarshal : list byte → result any) (MatchString : string → string → result bool).
Abbreviation Eval := (Evaluate Unmarshal MatchString).

Lemma evalAnd_spec l r :
  evalAnd l = r ↔
  (r = Ok true ∧ Forall (λ x, x = Ok true) l) ∨
  (r ≠ Ok true ∧ ∃ pre post, l = pre ++ r :: post ∧ Forall (λ x, x = Ok true) pre).
Proof.
  revert r. induction l as [|x l IH]; intros r; simpl.
  - split; [intros <-; by left|]. intros [[-> _]|(_ & pre & post & E & _)]; [done|by destruct pre].
  - destruct x as [[]|e]; simpl.
    + rewrite IH. split.
      * intros [[-> Hl]|(Hr & pre & post & -> & Hp)]; [left; split; [done|by constructor]|].
        right. split; [done|]. exists (Ok true :: pre), post. split; [done|by constructor].
      * intros [[-> Hl]|(Hr & pre & post & E & Hp)]; [left; split; [done|by inversion Hl]|].
        right. split; [done|]. destruct pre as [|y pre]; simplify_eq/=.
        exists pre, post. split; [done|by inversion Hp].
    + split.
      * intros <-. right. split; [done|]. by exists [], l.
      * intros [[-> Hl]|(Hr & pre & post & E & Hp)]; [by inversion Hl|].
        destruct pre as [|y pre]; simplify_eq/=; [done|]. inversion Hp; simplify_eq.
    + split.
      * intros <-. right. split; [done|]. by exists [], l.
      * intros [[-> Hl]|(Hr & pre & post & E & Hp)]; [by inversion Hl|].
        destruct pre as [|y pre]; simplify_eq/=; [done|]. inversion Hp; simplify_eq.
Qed.

Definition result_negb (r : result bool) : result bool := let? b := r in Ok (negb b).

Lemma evalOr_evalAnd l : evalOr l = result_negb (evalAnd (result_negb <$> l)).
Proof. induction l as [|[[]|e] l IH]; simpl; done. Qed.

Lemma result_negb_involutive r : result_negb (result_negb r) = r.
Proof. by destruct r as [[]|]. Qed.

Lemma Forall_fmap_Eval ctx cs v :
  Forall (λ x, x = v) (Eval ctx <$> cs) ↔ Forall (λ c, Eval ctx c = v) cs.
Proof. apply Forall_fmap. Qed.

(** AND is evaluated from the left and stops at the first condition that is not true:
    it is true exactly when every condition is, and any other answer, false or an error, is
    the answer of a condition all of whose predecessors are true.  So an error behind a
    false condition is never seen. *)
Theorem and_first_failure ctx cs r :
  Eval ctx (AndCondition cs) = r ↔
  (r = Ok true ∧ Forall (λ c, Eval ctx c = Ok true) cs) ∨
  (r ≠ Ok true ∧ ∃ pre c post, cs = pre ++ c :: post ∧ Eval ctx c = r ∧
     Forall (λ c, Eval ctx c = Ok true) pre).
Proof.
  cbn [Evaluate]. rewrite evalAnd_spec. setoid_rewrite Forall_fmap_Eval.
  f_equiv. f_equiv. split.
  - intros (pre & post & E & Hp). apply fmap_app_inv in E as (l1 & l2 & -> & E2 & ->).
    symmetry in E2. apply fmap_cons_inv in E2 as (c & l2' & -> & -> & ->).
    exists l1, c, l2'. split_and!; [done|done|]. by apply Forall_fmap_Eval.
  - intros (pre & c & post & -> & <- & Hp). exists (Eval ctx <$> pre), (Eval ctx <$> post).
    rewrite fmap_app, fmap_cons. split; [done|]. by apply Forall_fmap_Eval.
Qed.

(** De Morgan's laws hold, errors included: the negation of a conjunction evaluates as
    the disjunction of the negations, and the negation of a disjunction as the conjunction
    of the negations; a double negation changes nothing. *)
Theorem de_morgan ctx cs c :
  Eval ctx (NotCondition (AndCondition cs)) = Eval ctx (OrCondition (NotCondition <$> cs)) ∧
  Eval ctx (NotCondition (OrCondition cs)) = Eval ctx (AndCondition (NotCondition <$> cs)) ∧
  Eval ctx (NotCondition (NotCondition c)) = Eval ctx c.
Proof.
  cbn [Evaluate]. rewrite <- !list_fmap_compose. change (result_bind ?r (λ b, Ok (negb b))) with (result_negb r).
  split_and!.
  - rewrite evalOr_evalAnd, <- list_fmap_compose. do 2 f_equal. apply list_fmap_ext. intros i x _.
    simpl. symmetry. apply result_negb_involutive.
  - rewrite evalOr_evalAnd, result_negb_involutive, <- list_fmap_compose. done.
  - apply (result_negb_involutive (Eval ctx c)).
Qed.
End Connectives.

(** ** Numeric comparisons *)

Section Numbers.
Context `{GoFloat} (Unmarshal : list byte → result any) (MatchString : string → string → result bool).
(** IEEE 754: integers of up to 53 bits are represented exactly. *)
Hypothesis float_exact : ∀ a b, Z.abs a ≤ 2 ^ 53 → Z.abs b ≤ 2 ^ 53 →
  float_ltb (float_of_int a) (float_of_int b) = (a <? b).

Definition compareZ (op : string) (a b : Z) : option bool :=
  if op =s "=" then Some (a =? b)
  else if (op =s "!=") || (op =s "<>") then Some (negb (a =? b))
  else if op =s "<" then Some (a <? b)
  else if op =s "<=" then Some (a <=? b)
  else if op =s ">" then Some (b <? a)
  else if op =s ">=" then Some (b <=? a)
  else None.

Lemma equals_int a b : equals (VInt64 a) (VInt64 b) = (a =? b).
Proof.
  unfold equals. cbn [any_is_nil andb orb Sprintv]. destruct (Z.eqb_spec a b) as [->|Hn].
  - by rewrite bool_decide_true.
  - rewrite bool_decide_false; [done|]. intros E. by apply Hn, (inj pretty).
Qed.

(** On the numeric fields a comparison with an integer literal decides the order of the
    integers, for each of the seven relational operators, although the source compares
    floating point numbers and, for equality, printed text. *)
Theorem numeric_comparison ctx field a op b r :
  getFieldValue Unmarshal ctx field = Ok (VInt64 a) →
  Z.abs a ≤ 2 ^ 53 → Z.abs b ≤ 2 ^ 53 → compareZ op a b = Some r →
  Evaluate Unmarshal MatchString ctx (ComparisonCondition field op (Literal (VInt64 b))) = Ok r.
Proof using float_exact.
  intros Hf Ha Hb Hc. cbn [Evaluate]. unfold evalComparison. rewrite Hf. cbn [result_bind].
  unfold compareValues, lessThan, greaterThan. cbn [toFloat64].
  rewrite equals_int, !float_exact by done. unfold compareZ in Hc.
  repeat case_match; simplify_eq; bool_prop; try done; f_equal.
  - destruct (Z.ltb_spec a b), (Z.eqb_spec a b), (Z.leb_spec a b); simpl; lia || done.
  - destruct (Z.ltb_spec b a), (Z.eqb_spec a b), (Z.leb_spec b a); simpl; lia || done.
Qed.
End Numbers.

(** ** LIKE *)

Inductive likeToken := TLit (c : Ascii.ascii) | TOne | TAny.

Definition tokenOf (c : Ascii.ascii) : likeToken :=
  if bool_decide (c = chr 37) then TAny else if bool_decide (c = chr 95) then TOne else TLit c.

Fixpoint likeTokens (s : string) : list likeToken :=
  match s with EmptyString => [] | String c s' => tokenOf c :: likeTokens s' end.

Definition renderToken (t : likeToken) : string :=
  match t with TLit c => String c "" | TOne => "." | TAny => ".*" end.

Definition render (ts : list likeToken) : string := foldr (λ t s, renderToken t +:+ s)%string "" ts.

(** No character that means something else in a regular expression. *)
Definition plainByte (c : Ascii.ascii) : bool :=
  is_ascii c && negb (existsb (λ d, code c =? d) [92; 46; 43; 42; 63; 40; 41; 124; 91; 93; 123; 125; 94; 36]).

Definition plainToken (t : likeToken) : bool := match t with TLit c => plainByte c | _ => true end.

(** A literal is itself, [.] one rune other than the line feed, [.*] any number of them. *)
Fixpoint tokensMatch (ts : list likeToken) : list Z → bool :=
  match ts with
  | [] => λ rs, match rs with [] => true | _ => false end
  | TLit c :: ts => λ rs, match rs with r :: rs => (r =? code c) && tokensMatch ts rs | [] => false end
  | TOne :: ts => λ rs, match rs with r :: rs => negb (r =? 10) && tokensMatch ts rs | [] => false end
  | TAny :: ts =>
      fix star (rs : list Z) : bool :=
        tokensMatch ts rs || match rs with r :: rs => negb (r =? 10) && star rs | [] => false end
  end.

Section Like.
Context `{GoFloat} (MatchString : string → string → result bool).
(** What package [regexp] documents of anchored patterns of literals, [.] and [.*]. *)
Hypothesis MatchString_simple : ∀ ts s, forallb plainToken ts = true →
  MatchString ("^" +:+ render ts +:+ "$")%string s = Ok (tokensMatch ts (runes s)).

Lemma ReplaceAll_cons_ne c s d new :
  c ≠ d → ReplaceAll (String c s) (String d "") new = String c (ReplaceAll s (String d "") new).
Proof. intros Hn. unfold ReplaceAll. cbn. destruct (Ascii.ascii_dec d c); [congruence|done]. Qed.

Lemma ReplaceAll_cons_eq s d new :
  ReplaceAll (String d s) (String d "") new = (new +:+ ReplaceAll s (String d "") new)%string.
Proof.
  unfold ReplaceAll. cbn. destruct (Ascii.ascii_dec d d); [|done].
  assert (String.prefix "" s = true) as -> by (by destruct s). done.
Qed.

Lemma likePattern_render b : likePattern b = ("^" +:+ render (likeTokens b) +:+ "$")%string.
Proof.
  unfold likePattern. do 2 f_equal. induction b as [|c b IH]; [done|]. cbn [likeTokens render foldr].
  fold (render (likeTokens b)). rewrite <- IH. unfold tokenOf.
  change "%"%string with (String (chr 37) ""). change "_"%string with (String (chr 95) "").
  case_bool_decide as E1; [subst|].
  - rewrite ReplaceAll_cons_eq. change ".*"%string with (String (chr 46) (String (chr 42) "")).
    rewrite !string_app_cons, string_app_nil. rewrite !ReplaceAll_cons_ne by done. done.
  - rewrite ReplaceAll_cons_ne by done. case_bool_decide as E2; [subst|].
    + by rewrite ReplaceAll_cons_eq.
    + by rewrite ReplaceAll_cons_ne.
Qed.

(** LIKE with a pattern that holds no regular-expression metacharacter matches the whole
    text rune by rune: [%] any sequence of runes, [_] any one rune, anything else itself,
    except that neither wildcard ever matches a line feed. *)
Theorem like_matches a b :
  all_bytes plainByte b = true →
  like MatchString (VString a) (VString b) = Ok (tokensMatch (likeTokens b) (runes a)).
Proof using MatchString_simple.
  intros Hb. unfold like. cbn [Sprintv]. rewrite likePattern_render. apply MatchString_simple.
  induction b as [|c b IH]; [done|]. cbn in *. apply andb_true_iff in Hb as [Hc Hb].
  rewrite IH by done. rewrite andb_true_r. unfold tokenOf. by repeat case_bool_decide.
Qed.
End Like.

(** A matcher for such patterns, to run the definitions. *)
Fixpoint readTokens (s : string) : list likeToken :=
  match s with
  | EmptyString => []
  | String c s' =>
      if bool_decide (c = chr 46)
      then match s' with
           | String d s'' => if bool_decide (d = chr 42) then TAny :: readTokens s'' else TOne :: readTokens s'
           | EmptyString => [TOne]
           end
      else TLit c :: readTokens s'
  end.

Fixpoint dropLast (s : string) : string :=
  match s with
  | EmptyString => ""
  | String _ EmptyString => ""
  | String c s' => String c (dropLast s')
  end.

Definition simpleMatch (pattern s : string) : result bool :=
  Ok (tokensMatch (readTokens (dropLast (default "" (dropBytes 1 pattern)))) (runes s)).

Lemma dropLast_app s c : dropLast (s +:+ String c "")%string = s.
Proof.
  induction s as [|a s IH]; [done|]. rewrite string_app_cons.
  destruct (s +:+ String c "")%string as [|b t] eqn:E; [by destruct s|].
  change (dropLast (String a (String b t))) with (String a (dropLast (String b t))). by rewrite IH.
Qed.

Lemma readTokens_render ts : forallb plainToken ts = true → readTokens (render ts) = ts.
Proof.
  induction ts as [|t ts IH]; [done|]. cbn [forallb]. rewrite andb_true_iff. intros [Ht Hts].
  specialize (IH Hts). cbn [render foldr]. fold (render ts). destruct t as [c| |]; cbn [renderToken].
  - rewrite string_app_cons, string_app_nil. cbn [readTokens]. rewrite bool_decide_false; [by rewrite IH|].
    intros ->. done.
  - change ("." +:+ render ts)%string with (String (chr 46) (render ts)).
    destruct ts as [|u ts]; [done|].
    assert (Hh : ∃ d s, render (u :: ts) = String d s ∧ d ≠ chr 42).
    { cbn [forallb] in Hts. apply andb_true_iff in Hts as [Hu _]. cbn [render foldr]. fold (render ts).
      destruct u as [d| |]; cbn [renderToken]; rewrite ?string_app_cons; eexists _, _; (split; [reflexivity|]); [|done..].
      intros ->. done. }
    destruct Hh as (d & s & E & Hd). rewrite E in *. cbn [readTokens] in *.
    rewrite (bool_decide_true eq_refl). rewrite (bool_decide_false Hd). f_equal. exact IH.
  - change (".*" +:+ render ts)%string with (String (chr 46) (String (chr 42) (render ts))).
    cbn [readTokens]. rewrite !(bool_decide_true eq_refl). by rewrite IH.
Qed.

Lemma simpleMatch_simple ts s : forallb plainToken ts = true →
  simpleMatch ("^" +:+ render ts +:+ "$")%string s = Ok (tokensMatch ts (runes s)).
Proof.
  intros Ht. unfold simpleMatch.
  change (default "" (dropBytes 1 ("^" +:+ render ts +:+ "$"))%string) with (render ts +:+ String (chr 36) "")%string.
  by rewrite dropLast_app, readTokens_render.
Qed.

Lemma like_matches_witness :
  all_bytes plainByte "a_/%d" = true ∧
  like (H := intFloat) simpleMatch (VString "ab/c/d") (VString "a_/%d") =
    Ok (tokensMatch (likeTokens "a_/%d") (runes "ab/c/d")) ∧
  tokensMatch (likeTokens "a_/%d") (runes "ab/c/d") = true ∧
  tokensMatch (likeTokens "%") [10] = false.
Proof.
  split_and!; [done| |done|done].
  apply (like_matches (H := intFloat) simpleMatch simpleMatch_simple). done.
Defined.

(** ** Panics *)

Section Panics.
Context `{GoFloat} `{GoUnicode}.

(** Reading the value of a comparison panics exactly when, white space apart, it is a
    single quote character or a single double quote: the slice that drops the first and
    the last byte is then out of range.  Every other text is a literal or a field name and
    gives no error. *)
Theorem parseValue_panics value :
  (parseValue value = Panics ↔ TrimSpace value = String quote1 "" ∨ TrimSpace value = String quote2 "") ∧
  (parseValue value ≠ Panics → ∃ v, parseValue value = Returns (Ok v)).
Proof.
  unfold parseValue. set (v := TrimSpace value). cbv zeta.
  destruct (quotedBy quote1 v || quotedBy quote2 v) eqn:Eq.
  - assert (Hlen : v ≠ "") by (intros E; by rewrite E in Eq).
    assert (Hone : String.length v = 1%nat ↔ v = String quote1 "" ∨ v = String quote2 "").
    { split; [|by intros [-> | ->]]. intros Hl. destruct v as [|a [|b t]]; [done| |done].
      apply orb_true_iff in Eq as [Eq|Eq]; unfold quotedBy in Eq; apply andb_true_iff in Eq as [Eq _];
        apply prefix_app_inv in Eq as [u Eu]; injection Eu as -> _; [by left|by right]. }
    rewrite <- Hone. unfold slice.
    destruct v as [|a v]; [done|]. cbn [String.length].
    destruct v as [|b t].
    + cbn. split; [done|]. intros E. done.
    + replace ((0 <=? 1) && (1 <=? Z.of_nat (S (String.length (String b t))) - 1) &&
        (Z.of_nat (S (String.length (String b t))) - 1 <=? Z.of_nat (S (String.length (String b t))))) with true.
      * cbn [outcome_bind]. split; [split; [done|cbn; lia]|]. intros _. by eexists.
      * symmetry. rewrite !andb_true_iff. cbn [String.length]. repeat split; apply Z.leb_le; lia.
  - assert (Hno : ¬ (v = String quote1 "" ∨ v = String quote2 "")).
    { intros [E|E]; rewrite E in Eq; done. }
    split.
    + split; [|done]. repeat case_match; done.
    + intros _. repeat case_match; eauto.
Qed.
End Panics.

Section Examples.
Local Existing Instance intFloat.
Local Existing Instance asciiUnicode.

Definition panics {A} (r : option (outcome A)) : bool := match r with Some Panics => true | _ => false end.

(** A conjunction that is cut inside a literal leaves such a value. *)
Example literal_with_AND_panics : panics (Parse "topic = ' AND '") = true.
Proof. vm_compute. reflexivity. Qed.
(** The index found in the upper-case text is used on the text itself. *)
Example where_index_panics :
  panics (Parse ("SELECT " +:+ string_of_codes [255; 255; 255] +:+ " WHERE")%string) = true.
Proof. vm_compute. reflexivity. Qed.
(** Any text that starts with the letters of SELECT is a statement, here without condition. *)
Example selected_is_true :
  match Parse "selected = 1" with Some (Returns (Ok TrueCondition)) => true | _ => false end = true.
Proof. vm_compute. reflexivity. Qed.
(** IN is accepted and can never be evaluated. *)
Example in_unsupported :
  match Parse "qos IN 1" with
  | Some (Returns (Ok c)) =>
      match Evaluate (λ _, Err "") (λ _ _, Err "") (mkRuleContext "t" 1 [] ∅ "" "" 0 ∅) c with
      | Err msg => msg =s "unsupported operator: IN"
      | Ok _ => false
      end
  | _ => false
  end = true.
Proof. vm_compute. reflexivity. Qed.
End Examples.

Lemma numeric_comparison_witness :
  let ctx := mkRuleContext (H := intFloat) "t" 1 [] ∅ "" "" 0 ∅ in
  getFieldValue (H := intFloat) (λ _, Err "") ctx "qos" = Ok (VInt64 1) ∧
  Evaluate (H := intFloat) (λ _, Err "") (λ _ _, Err "") ctx
    (ComparisonCondition "qos" ">=" (Literal (VInt64 (-3)))) = Ok true.
Proof.
  split; [done|]. apply (numeric_comparison (H := intFloat) (λ _, Err "") (λ _ _, Err "") (λ a b _ _, eq_refl) _ "qos" 1);
    (done || lia).
Defined.
