(* ===== verification/Connector.v ===== *)
(** * Connectors: the common base and the manager (pkg/connector/base.go, connector.go)

    [BaseConnector] carries its read-write mutex as the flag [bc_locked]: an operation that
    takes the mutex while the same goroutine holds it never returns ([Blocks]).  The manager
    is written against the interface [Connector], as in the source; the connectors of this
    library implement it in their own files. *)

From S2P Require Import Prelude GoLib GoValue.
Local Open Scope emqx_scope.
Local Open Scope Z_scope.

(** ** Data (connector.go) *)

Inductive ConnectorState :=
  | StateCreated | StateStarting | StateRunning | StateStopping | StateStopped | StateFailed
  | StateReconnecting.
#[export] Instance ConnectorState_eq_dec : EqDecision ConnectorState.
Proof. solve_decision. Defined.

Definition ConnectorTypeHTTP : string := "http".
Definition ConnectorTypeMySQL : string := "mysql".
Definition ConnectorTypePostgreSQL : string := "postgresql".
Definition ConnectorTypeRedis : string := "redis".
Definition ConnectorTypeKafka : string := "kafka".

Record HealthCheckConfig := mkHealthCheckConfig {
  HC_Enabled : bool;
  HC_Interval : Duration;
  HC_Timeout : Duration;
  HC_MaxFails : Z;
}.

Record RetryConfig `{GoFloat} := mkRetryConfig {
  MaxAttempts : Z;
  InitialBackoff : Duration;
  MaxBackoff : Duration;
  BackoffMultiplier : float64;
}.

Record PoolConfig := mkPoolConfig {
  PC_MaxSize : Z;
  PC_MinSize : Z;
  PC_MaxIdle : Duration;
  PC_MaxLifetime : Duration;
}.

Record ConnectorConfig `{GoFloat} := mkConnectorConfig {
  CC_ID : string;
  CC_Name : string;
  CC_Type : string;
  CC_Description : string;
  CC_Enabled : bool;
  CC_Parameters : gmap string any;
  CC_HealthCheck : HealthCheckConfig;
  CC_Retry : RetryConfig;
  CC_Pool : PoolConfig;
  CC_Tags : list string;
  CC_CreatedAt : Time;
  CC_UpdatedAt : Time;
}.
Arguments mkConnectorConfig {_} _ _ _ _ _ _ _ _ _ _ _ _.

Record ConnectorMetrics `{GoFloat} := mkConnectorMetrics {
  MessagesSent : Z;
  MessagesReceived : Z;
  MessagesDropped : Z;
  ErrorCount : Z;
  SuccessCount : Z;
  AvgLatency : Duration;
  MinLatency : Duration;
  MaxLatency : Duration;
  ThroughputPerSec : float64;
  ActiveConnections : Z;
  LastMessageTime : option Time;
}.
Arguments mkConnectorMetrics {_} _ _ _ _ _ _ _ _ _ _ _.

Record HealthStatus := mkHealthStatus {
  Healthy : bool;
  LastCheckTime : Time;
  CheckCount : Z;
  FailureCount : Z;
  HS_Message : string;
}.

Record ConnectorStatus `{GoFloat} := mkConnectorStatus {
  ST_ID : string;
  ST_State : ConnectorState;
  ST_LastError : string;
  ST_LastErrorTime : option Time;
  ST_StartTime : option Time;
  ST_UpdateTime : Time;
  ST_Metrics : ConnectorMetrics;
  ST_HealthStatus : HealthStatus;
  ST_NextRetryTime : option Time;
  ST_RetryCount : Z;
}.
Arguments mkConnectorStatus {_} _ _ _ _ _ _ _ _ _ _.

Record ConnMessage `{GoFloat} := mkConnMessage {
  CM_ID : string;
  CM_Topic : string;
  CM_Payload : list byte;
  CM_Headers : gmap string string;
  CM_Timestamp : Time;
  CM_Metadata : gmap string any;
}.
Arguments mkConnMessage {_} _ _ _ _ _ _.

Record MessageResult := mkMessageResult {
  MR_MessageID : string;
  MR_Success : bool;
  MR_Error : string;
  MR_Latency : Duration;
  MR_Timestamp : Time;
}.

(** [time.Time{}]. *)
Definition zeroTime : Time := - 62135596800 * Second.

(** ** The base connector (base.go) *)

Record BaseConnector `{GoFloat} := mkBaseConnector {
  bc_config : ConnectorConfig;
  bc_state : ConnectorState;
  bc_status : ConnectorStatus;
  bc_metrics : ConnectorMetrics;
  bc_locked : bool;                    (* bc.mu *)
  bc_cancelled : bool;                 (* bc.ctx *)
  bc_healthTicker : option Duration;
  bc_retryCount : Z;
  bc_lastError : option string;
  bc_startTime : option Time;
}.
Arguments mkBaseConnector {_} _ _ _ _ _ _ _ _ _ _.

Section Base.
Context `{GoFloat}.
Implicit Types bc : BaseConnector.

Definition zeroMetrics : ConnectorMetrics :=
  mkConnectorMetrics 0 0 0 0 0 0 0 0 (float_of_int 0) 0 None.

Definition NewBaseConnector (config : ConnectorConfig) (now : Time) : BaseConnector :=
  let created := if CC_CreatedAt config =? zeroTime then now else CC_CreatedAt config in
  let config := mkConnectorConfig (CC_ID config) (CC_Name config) (CC_Type config) (CC_Description config)
    (CC_Enabled config) (CC_Parameters config) (CC_HealthCheck config) (CC_Retry config) (CC_Pool config)
    (CC_Tags config) created now in
  mkBaseConnector config StateCreated
    (mkConnectorStatus (CC_ID config) StateCreated "" None None now zeroMetrics
       (mkHealthStatus false now 0 0 "") None 0)
    zeroMetrics false false None 0 None None.

(** [bc.mu.Lock(); defer bc.mu.Unlock()] around a body that takes no lock itself. *)
Definition withLock {A} bc (body : BaseConnector → A) : outcome A :=
  if bc_locked bc then Blocks else Returns (body bc).

Definition setLocked (b : bool) bc : BaseConnector :=
  mkBaseConnector (bc_config bc) (bc_state bc) (bc_status bc) (bc_metrics bc) b (bc_cancelled bc)
    (bc_healthTicker bc) (bc_retryCount bc) (bc_lastError bc) (bc_startTime bc).

Definition putStatus (st : ConnectorStatus) bc : BaseConnector :=
  mkBaseConnector (bc_config bc) (bc_state bc) st (bc_metrics bc) (bc_locked bc) (bc_cancelled bc)
    (bc_healthTicker bc) (bc_retryCount bc) (bc_lastError bc) (bc_startTime bc).

Definition putMetrics (m : ConnectorMetrics) bc : BaseConnector :=
  mkBaseConnector (bc_config bc) (bc_state bc) (bc_status bc) m (bc_locked bc) (bc_cancelled bc)
    (bc_healthTicker bc) (bc_retryCount bc) (bc_lastError bc) (bc_startTime bc).

Definition GetConfig bc : outcome ConnectorConfig := withLock bc bc_config.

Definition Status bc (now : Time) : outcome ConnectorStatus :=
  withLock bc (λ bc, let st := bc_status bc in
    mkConnectorStatus (ST_ID st) (ST_State st) (ST_LastError st) (ST_LastErrorTime st) (ST_StartTime st)
      now (bc_metrics bc) (ST_HealthStatus st) (ST_NextRetryTime st) (bc_retryCount bc)).

Definition GetMetrics bc : outcome ConnectorMetrics := withLock bc bc_metrics.

Definition ResetMetrics bc : outcome BaseConnector := withLock bc (putMetrics zeroMetrics).

Definition IsRunning bc : outcome bool :=
  withLock bc (λ bc, bool_decide (bc_state bc = StateRunning)).

Definition UpdateConfig bc (config : ConnectorConfig) (now : Time) : outcome (BaseConnector * option string) :=
  withLock bc (λ bc,
    if CC_ID config <>s CC_ID (bc_config bc) then (bc, Some "cannot change connector ID")
    else if CC_Type config <>s CC_Type (bc_config bc) then (bc, Some "cannot change connector type")
    else
      let config := mkConnectorConfig (CC_ID config) (CC_Name config) (CC_Type config) (CC_Description config)
        (CC_Enabled config) (CC_Parameters config) (CC_HealthCheck config) (CC_Retry config) (CC_Pool config)
        (CC_Tags config) (CC_CreatedAt (bc_config bc)) now in
      let st := bc_status bc in
      (mkBaseConnector config (bc_state bc)
         (mkConnectorStatus (ST_ID st) (ST_State st) (ST_LastError st) (ST_LastErrorTime st) (ST_StartTime st)
            now (ST_Metrics st) (ST_HealthStatus st) (ST_NextRetryTime st) (ST_RetryCount st))
         (bc_metrics bc) (bc_locked bc) (bc_cancelled bc) (bc_healthTicker bc) (bc_retryCount bc)
         (bc_lastError bc) (bc_startTime bc), None)).

Definition setState (state : ConnectorState) (now : Time) bc : outcome BaseConnector :=
  withLock bc (λ bc, let st := bc_status bc in
    mkBaseConnector (bc_config bc) state
      (mkConnectorStatus (ST_ID st) state (ST_LastError st) (ST_LastErrorTime st) (ST_StartTime st)
         now (ST_Metrics st) (ST_HealthStatus st) (ST_NextRetryTime st) (ST_RetryCount st))
      (bc_metrics bc) (bc_locked bc) (bc_cancelled bc) (bc_healthTicker bc) (bc_retryCount bc)
      (bc_lastError bc) (bc_startTime bc)).

Definition addErrors (n : Z) (m : ConnectorMetrics) : ConnectorMetrics :=
  mkConnectorMetrics (MessagesSent m) (MessagesReceived m) (MessagesDropped m) (i64 (ErrorCount m + n))
    (SuccessCount m) (AvgLatency m) (MinLatency m) (MaxLatency m) (ThroughputPerSec m)
    (ActiveConnections m) (LastMessageTime m).

Definition setError (err : string) (now : Time) bc : outcome BaseConnector :=
  withLock bc (λ bc, let st := bc_status bc in
    mkBaseConnector (bc_config bc) (bc_state bc)
      (mkConnectorStatus (ST_ID st) (ST_State st) err (Some now) (ST_StartTime st)
         (ST_UpdateTime st) (ST_Metrics st) (ST_HealthStatus st) (ST_NextRetryTime st) (ST_RetryCount st))
      (addErrors 1 (bc_metrics bc)) (bc_locked bc) (bc_cancelled bc) (bc_healthTicker bc)
      (i64 (bc_retryCount bc + 1)) (Some err) (bc_startTime bc)).

Definition recordSuccess (latency : Duration) (now : Time) bc : outcome BaseConnector :=
  withLock bc (λ bc, let m := bc_metrics bc in
    putMetrics (mkConnectorMetrics (MessagesSent m) (MessagesReceived m) (MessagesDropped m) (ErrorCount m)
      (i64 (SuccessCount m + 1))
      (if AvgLatency m =? 0 then latency else Z.quot (i64 (AvgLatency m + latency)) 2)
      (if (MinLatency m =? 0) || (latency <? MinLatency m) then latency else MinLatency m)
      (if MaxLatency m <? latency then latency else MaxLatency m)
      (ThroughputPerSec m) (ActiveConnections m) (Some now)) bc).

(** The counters are atomic and take no lock. *)
Definition recordSentMessage bc : BaseConnector :=
  let m := bc_metrics bc in
  putMetrics (mkConnectorMetrics (i64 (MessagesSent m + 1)) (MessagesReceived m) (MessagesDropped m)
    (ErrorCount m) (SuccessCount m) (AvgLatency m) (MinLatency m) (MaxLatency m) (ThroughputPerSec m)
    (ActiveConnections m) (LastMessageTime m)) bc.

Definition recordReceivedMessage bc : BaseConnector :=
  let m := bc_metrics bc in
  putMetrics (mkConnectorMetrics (MessagesSent m) (i64 (MessagesReceived m + 1)) (MessagesDropped m)
    (ErrorCount m) (SuccessCount m) (AvgLatency m) (MinLatency m) (MaxLatency m) (ThroughputPerSec m)
    (ActiveConnections m) (LastMessageTime m)) bc.

Definition recordDroppedMessage bc : BaseConnector :=
  let m := bc_metrics bc in
  putMetrics (mkConnectorMetrics (MessagesSent m) (MessagesReceived m) (i64 (MessagesDropped m + 1))
    (ErrorCount m) (SuccessCount m) (AvgLatency m) (MinLatency m) (MaxLatency m) (ThroughputPerSec m)
    (ActiveConnections m) (LastMessageTime m)) bc.

(** The ticker of the health checks; the goroutine that waits on it runs
    [performHealthCheck] at every tick until the context is cancelled. *)
Definition startHealthCheck bc : BaseConnector :=
  let hc := CC_HealthCheck (bc_config bc) in
  if negb (HC_Enabled hc) then bc
  else
    let interval := if HC_Interval hc =? 0 then 30 * Second else HC_Interval hc in
    mkBaseConnector (bc_config bc) (bc_state bc) (bc_status bc) (bc_metrics bc) (bc_locked bc)
      (bc_cancelled bc) (Some interval) (bc_retryCount bc) (bc_lastError bc) (bc_startTime bc).

(** The health status after a check that answered [err]. *)
Definition checkedHealth (hs : HealthStatus) (err : option string) (now : Time) : HealthStatus :=
  match err with
  | Some e => mkHealthStatus false now (i64 (CheckCount hs + 1)) (i64 (FailureCount hs + 1)) e
  | None => mkHealthStatus true now (i64 (CheckCount hs + 1)) 0 ""
  end.

Definition putHealth (hs : HealthStatus) bc : BaseConnector :=
  let st := bc_status bc in
  putStatus (mkConnectorStatus (ST_ID st) (ST_State st) (ST_LastError st) (ST_LastErrorTime st)
    (ST_StartTime st) (ST_UpdateTime st) (ST_Metrics st) hs (ST_NextRetryTime st) (ST_RetryCount st)) bc.

(** The connector in the middle of [performHealthCheck]: the mutex is held. *)
Definition healthCheckLocked bc (err : option string) (now : Time) : BaseConnector :=
  putHealth (checkedHealth (ST_HealthStatus (bc_status bc)) err now) (setLocked true bc).

Definition tooManyFailures bc (err : option string) : bool :=
  let maxFails := HC_MaxFails (CC_HealthCheck (bc_config bc)) in
  bool_decide (err ≠ None) && (0 <? maxFails)
  && (maxFails <=? i64 (FailureCount (ST_HealthStatus (bc_status bc)) + 1)).

(** [err] is the answer of the health check function. *)
Definition performHealthCheck bc (err : option string) (now : Time) : outcome BaseConnector :=
  if bc_locked bc then Blocks
  else
    let bc' := healthCheckLocked bc err now in
    if tooManyFailures bc err
    then let! bc' := setState StateFailed now bc' in Returns (setLocked false bc')
    else Returns (setLocked false bc').

Definition nextBackoff bc (backoff : Duration) : Duration :=
  let r := CC_Retry (bc_config bc) in
  let multiplier :=
    if negb (float_ltb (float_of_int 0) (BackoffMultiplier r)) then float_of_int 2 else BackoffMultiplier r in
  let backoff := int_of_float (float_mul (float_of_int backoff) multiplier) in
  if (0 <? MaxBackoff r) && (MaxBackoff r <? backoff) then MaxBackoff r else backoff.

Definition setNextRetry (t : Time) bc : BaseConnector :=
  let st := bc_status bc in
  putStatus (mkConnectorStatus (ST_ID st) (ST_State st) (ST_LastError st) (ST_LastErrorTime st)
    (ST_StartTime st) (ST_UpdateTime st) (ST_Metrics st) (ST_HealthStatus st) (Some t) (ST_RetryCount st)) bc.

Definition resetRetryCount bc : BaseConnector :=
  mkBaseConnector (bc_config bc) (bc_state bc) (bc_status bc) (bc_metrics bc) (bc_locked bc) (bc_cancelled bc)
    (bc_healthTicker bc) 0 (bc_lastError bc) (bc_startTime bc).

(** The retry loop with [n] attempts left.  [outcomes] are the answers of [retryFunc], one
    per attempt ([None] is success, a missing one a failure); the answer lists the waits. *)
Fixpoint retryLoop (n : nat) (backoff : Duration) (now : Time) (outcomes : list (option string)) bc
    : outcome (BaseConnector * list Duration) :=
  match n with
  | O => let! bc := setState StateFailed now bc in Returns (bc, [])
  | Datatypes.S n =>
      if bc_cancelled bc then Returns (bc, [])
      else if bool_decide (bc_state bc ≠ StateFailed) && bool_decide (bc_state bc ≠ StateReconnecting)
      then Returns (bc, [])
      else
        let! bc := setState StateReconnecting now bc in
        let bc := setNextRetry (now + backoff) bc in
        match outcomes with
        | None :: _ =>
            let! bc := setState StateRunning (now + backoff) (resetRetryCount bc) in
            Returns (bc, [backoff])
        | _ =>
            let! '(bc', waits) :=
              retryLoop n (nextBackoff bc backoff) (now + backoff) (tail outcomes) bc in
            Returns (bc', backoff :: waits)
        end
  end.

Definition startRetryMechanism bc (now : Time) (outcomes : list (option string))
    : outcome (BaseConnector * list Duration) :=
  let r := CC_Retry (bc_config bc) in
  if MaxAttempts r <=? 0 then Returns (bc, [])
  else
    let backoff := if InitialBackoff r =? 0 then Second else InitialBackoff r in
    retryLoop (Z.to_nat (MaxAttempts r)) backoff now outcomes bc.

Definition BaseClose (now : Time) bc : outcome BaseConnector :=
  let bc := mkBaseConnector (bc_config bc) (bc_state bc) (bc_status bc) (bc_metrics bc) (bc_locked bc) true
    None (bc_retryCount bc) (bc_lastError bc) (bc_startTime bc) in
  setState StateStopped now bc.

Definition DefaultHealthCheckConfig : HealthCheckConfig :=
  mkHealthCheckConfig true (30 * Second) (10 * Second) 3.
Definition DefaultRetryConfig : RetryConfig :=
  mkRetryConfig _ 3 Second (60 * Second) (float_of_int 2).
Definition DefaultPoolConfig : PoolConfig := mkPoolConfig 10 1 (5 * Minute) (30 * Minute).

End Base.

(** ** Errors (errors.go) *)
Definition ErrConnectorExists : string := "connector already exists".
Definition ErrConnectorNotFound : string := "connector not found".
Definition ErrConnectorTypeNotSupported : string := "connector type not supported".
Definition ErrConnectorNotRunning : string := "connector is not running".
Definition ErrConnectorAlreadyRunning : string := "connector is already running".

(** ** The interfaces (connector.go)

    A method takes the connector and answers it as changed; [now] is the reading of the
    clock during the call. *)
Class Connector `{GoFloat} (C : Type) := {
  Start : C → Time → outcome (C * option string);
  Stop : C → Time → outcome (C * option string);
  Restart : C → Time → outcome (C * option string);
  con_Status : C → Time → outcome ConnectorStatus;
  HealthCheck : C → Time → option string;
  con_IsRunning : C → outcome bool;
  Send : C → ConnMessage → Time → outcome (C * (option MessageResult * option string));
  SendBatch : C → list ConnMessage → Time → outcome (C * (list (option MessageResult) * option string));
  con_GetConfig : C → outcome ConnectorConfig;
  con_UpdateConfig : C → ConnectorConfig → Time → outcome (C * option string);
  con_GetMetrics : C → outcome ConnectorMetrics;
  con_ResetMetrics : C → outcome C;
  Close : C → Time → outcome (C * option string);
}.

Record ConnectorFactory `{GoFloat} (C : Type) := mkConnectorFactory {
  f_Type : string;
  f_Create : ConnectorConfig → Time → result C;
  f_ValidateConfig : ConnectorConfig → option string;
  f_GetDefaultConfig : ConnectorConfig;
  f_GetConfigSchema : any;
}.
Arguments mkConnectorFactory {_ _} _ _ _ _ _.
Arguments f_Type {_ _} _.
Arguments f_Create {_ _} _ _ _.
Arguments f_ValidateConfig {_ _} _ _.
Arguments f_GetDefaultConfig {_ _} _.
Arguments f_GetConfigSchema {_ _} _.

Record ConnectorManager `{GoFloat} (C : Type) := mkConnectorManager {
  connectors : gmap string C;
  factories : gmap string (ConnectorFactory C);
  cm_cancelled : bool;
}.
Arguments mkConnectorManager {_ _} _ _ _.
Arguments connectors {_ _} _.
Arguments factories {_ _} _.
Arguments cm_cancelled {_ _} _.

Record ConnectorInfo `{GoFloat} := mkConnectorInfo { CI_Config : ConnectorConfig; CI_Status : ConnectorStatus }.
Arguments mkConnectorInfo {_} _ _.

Section Manager.
Context `{GoFloat} {C : Type} `{!Connector C}.
Implicit Types cm : ConnectorManager C.

Definition NewConnectorManager : ConnectorManager C := mkConnectorManager ∅ ∅ false.

Definition putConnectors (m : gmap string C) cm : ConnectorManager C :=
  mkConnectorManager m (factories cm) (cm_cancelled cm).

Definition RegisterFactory (factory : ConnectorFactory C) cm : ConnectorManager C :=
  mkConnectorManager (connectors cm) (<[f_Type factory := factory]> (factories cm)) (cm_cancelled cm).

(** The second component tells whether a goroutine was started that calls [Start]. *)
Definition CreateConnector (config : ConnectorConfig) (now : Time) cm
    : ConnectorManager C * bool * option string :=
  match connectors cm !! CC_ID config with
  | Some _ => (cm, false, Some ErrConnectorExists)
  | None =>
      match factories cm !! CC_Type config with
      | None => (cm, false, Some ErrConnectorTypeNotSupported)
      | Some factory =>
          match f_ValidateConfig factory config with
          | Some err => (cm, false, Some err)
          | None =>
              match f_Create factory config now with
              | Err err => (cm, false, Some err)
              | Ok connector =>
                  (putConnectors (<[CC_ID config := connector]> (connectors cm)) cm, CC_Enabled config, None)
              end
          end
      end
  end.

Definition GetConnector (id : string) cm : result C :=
  match connectors cm !! id with Some connector => Ok connector | None => Err ErrConnectorNotFound end.

Definition ListConnectors cm : gmap string C := connectors cm.

Definition GetConnectorInfo (id : string) (now : Time) cm : outcome (result ConnectorInfo) :=
  match GetConnector id cm with
  | Err e => Returns (Err e)
  | Ok connector =>
      let! config := con_GetConfig connector in
      let! status := con_Status connector now in
      Returns (Ok (mkConnectorInfo config status))
  end.

(** A method call through the manager: the connector under [id] changes in place. *)
Definition onConnector (id : string) (f : C → outcome (C * option string)) cm
    : outcome (ConnectorManager C * option string) :=
  match GetConnector id cm with
  | Err e => Returns (cm, Some e)
  | Ok connector =>
      let! '(connector, err) := f connector in
      Returns (putConnectors (<[id := connector]> (connectors cm)) cm, err)
  end.

Definition UpdateConnector (id : string) (config : ConnectorConfig) (now : Time) cm
    : outcome (ConnectorManager C * option string) :=
  onConnector id (λ connector,
    match factories cm !! CC_Type config with
    | None => Returns (connector, Some ErrConnectorTypeNotSupported)
    | Some factory =>
        match f_ValidateConfig factory config with
        | Some err => Returns (connector, Some err)
        | None => con_UpdateConfig connector config now
        end
    end) cm.

Definition DeleteConnector (id : string) (now : Time) cm : outcome (ConnectorManager C * option string) :=
  match connectors cm !! id with
  | None => Returns (cm, Some ErrConnectorNotFound)
  | Some connector =>
      let! running := con_IsRunning connector in
      let! '(connector, stopErr) := if running then Stop connector now else Returns (connector, None) in
      let cm := putConnectors (<[id := connector]> (connectors cm)) cm in
      match stopErr with
      | Some err => Returns (cm, Some err)
      | None =>
          let! '(connector, closeErr) := Close connector now in
          let cm := putConnectors (<[id := connector]> (connectors cm)) cm in
          match closeErr with
          | Some err => Returns (cm, Some err)
          | None => Returns (putConnectors (delete id (connectors cm)) cm, None)
          end
      end
  end.

Definition StartConnector (id : string) (now : Time) : ConnectorManager C → outcome (ConnectorManager C * option string) :=
  onConnector id (λ connector, Start connector now).
Definition StopConnector (id : string) (now : Time) : ConnectorManager C → outcome (ConnectorManager C * option string) :=
  onConnector id (λ connector, Stop connector now).
Definition RestartConnector (id : string) (now : Time) : ConnectorManager C → outcome (ConnectorManager C * option string) :=
  onConnector id (λ connector, Restart connector now).

Definition GetConnectorTypes cm : list string := (map_to_list (factories cm)).*1.

Definition GetConnectorSchema (connectorType : string) cm : result any :=
  match factories cm !! connectorType with
  | None => Err ErrConnectorTypeNotSupported
  | Some factory => Ok (f_GetConfigSchema factory)
  end.

(** One entry of [HealthCheckAll] per running connector. *)
Definition HealthCheckAll (now : Time) cm : outcome (gmap string (option string)) :=
  go_range (λ id connector acc,
    let! results := acc in
    let! running := con_IsRunning connector in
    Returns (if running then <[id := HealthCheck connector now]> results else results))
    (connectors cm) (Returns ∅).

Definition GetAllMetrics cm : outcome (gmap string ConnectorMetrics) :=
  go_range (λ id connector acc,
    let! results := acc in
    let! m := con_GetMetrics connector in
    Returns (<[id := m]> results)) (connectors cm) (Returns ∅).

Definition closeOne (now : Time) (id : string) (connector : C) (cm : ConnectorManager C)
    : outcome (ConnectorManager C) :=
  let! '(connector, _) := Stop connector now in
  let! '(connector, _) := Close connector now in
  Returns (putConnectors (<[id := connector]> (connectors cm)) cm).

(** Every connector is stopped and closed; their errors are ignored. *)
Definition ManagerClose (now : Time) cm : outcome (ConnectorManager C) :=
  let cm := mkConnectorManager (connectors cm) (factories cm) true in
  go_range (λ id connector acc, let! cm := acc in closeOne now id connector cm) (connectors cm) (Returns cm).
End Manager.
