(* ===== verification/ConnHTTP.v ===== *)
(** * The HTTP connector (pkg/connector/http.go)

    The network and the client libraries are parameters: what they answer to a request.
    [time.ParseDuration], [url.Parse], header canonicalisation and the basic
    authentication header are parameters too. *)

From S2P Require Import Prelude GoLib GoValue Connector.
Local Open Scope emqx_scope.
Local Open Scope Z_scope.

(** ** Shared steps *)

Section Lifecycle.
Context `{GoFloat}.

(** [Start]: [health] is the answer of the initial health check. *)
Definition startWith (health : option string) (bc : BaseConnector) (now : Time)
    : outcome (BaseConnector * option string) :=
  let! running := IsRunning bc in
  if (running : bool) then Returns (bc, Some ErrConnectorAlreadyRunning)
  else
    let! bc := setState StateStarting now bc in
    match health with
    | Some err =>
        let! bc := setError err now bc in
        let! bc := setState StateFailed now bc in
        Returns (bc, Some err)
    | None =>
        let bc := mkBaseConnector (bc_config bc) (bc_state bc) (bc_status bc) (bc_metrics bc) (bc_locked bc)
          (bc_cancelled bc) (bc_healthTicker bc) (bc_retryCount bc) (bc_lastError bc) (Some now) in
        let! bc := setState StateRunning now bc in
        Returns (startHealthCheck bc, None)
    end.

(** [Stop]: [closeErr] is the error of closing the client, if any. *)
Definition stopWith (closeErr : option string) (bc : BaseConnector) (now : Time)
    : outcome (BaseConnector * option string) :=
  let! running := IsRunning bc in
  if negb running then Returns (bc, Some ErrConnectorNotRunning)
  else
    let! bc := setState StateStopping now bc in
    let! bc := match closeErr with Some err => setError err now bc | None => Returns bc end in
    let! bc := setState StateStopped now bc in
    Returns (bc, None).

Definition restartWith {A} (stop start : A → Time → outcome (A * option string)) (c : A) (now : Time)
    : outcome (A * option string) :=
  let! '(c, err) := stop c now in
  match err with
  | Some e => Returns (c, Some e)
  | None => start c now
  end.

(** The three endings of [Send]: failure with a result, success. *)
Definition sendFailed (bc : BaseConnector) (message : ConnMessage) (resultError err : string)
    (latency : Duration) (start now : Time)
    : outcome (BaseConnector * (option MessageResult * option string)) :=
  let! bc := setError err now bc in
  Returns (recordDroppedMessage bc,
           (Some (mkMessageResult (CM_ID message) false resultError latency start), Some err)).

Definition sendSucceeded (bc : BaseConnector) (message : ConnMessage) (latency : Duration) (start now : Time)
    : outcome (BaseConnector * (option MessageResult * option string)) :=
  let! bc := recordSuccess latency now bc in
  Returns (recordSentMessage bc,
           (Some (mkMessageResult (CM_ID message) true "" latency start), None)).

(** [convertToInt] *)
Definition convertToInt (val : any) : option Z :=
  match val with
  | VInt v => Some v
  | VFloat64 v => Some (int_of_float v)
  | VString v => ParseInt v
  | _ => None
  end.

(** [if val, ok := params[key]; ok { if n, err := convertToInt(val); err == nil ... } }] *)
Definition intParam (params : gmap string any) (key : string) (dflt : Z) : Z :=
  match params !! key with
  | Some v => default dflt (convertToInt v)
  | None => dflt
  end.
Definition stringParam (params : gmap string any) (key : string) (dflt : string) : string :=
  default dflt (as_string (params !! key)).
Definition boolParam (params : gmap string any) (key : string) (dflt : bool) : bool :=
  match params !! key with Some (VBool b) => b | _ => dflt end.
Definition durationParam (ParseDuration : string → option Duration) (params : gmap string any) (key : string)
    (dflt : Duration) : Duration :=
  match as_string (params !! key) with
  | Some s => default dflt (ParseDuration s)
  | None => dflt
  end.
Definition schemaField (fields : list (string * any)) : any := VMap (list_to_map fields).
End Lifecycle.

(** ** HTTP (http.go) *)

Record BasicAuth := mkBasicAuth { BA_Username : string; BA_Password : string }.

Record HTTPConnectorConfig := mkHTTPConnectorConfig {
  H_URL : string;
  H_Method : string;
  H_Headers : gmap string string;
  H_Timeout : Duration;
  H_MaxIdleConns : Z;
  H_MaxConnsPerHost : Z;
  H_IdleConnTimeout : Duration;
  H_TLSHandshakeTimeout : Duration;
  H_ExpectContinueTimeout : Duration;
  H_InsecureSkipVerify : bool;
  H_EnableKeepAlive : bool;
  H_BasicAuth : option BasicAuth;
  H_BearerToken : string;
  H_RequestTemplate : string;
  H_ResponseHandler : string;
}.

Record HTTPConnector `{GoFloat} := mkHTTPConnector { hc_base : BaseConnector; httpConfig : HTTPConnectorConfig }.
Arguments mkHTTPConnector {_} _ _.

Record HTTPRequest := mkHTTPRequest {
  R_Method : string;
  R_URL : string;
  R_Header : gmap string string;
  R_Body : list byte;
}.

Section HTTP.
Context `{GoFloat} `{GoUnicode}.
Context (ParseDuration : string → option Duration).
(** [url.Parse]: its error. *)
Context (urlParse : string → option string).
(** [http.NewRequestWithContext(method, url)]: its error. *)
Context (newRequest : string → string → option string).
(** [client.Do]: when it answers, and the status code with the body or the error. *)
Context (httpDo : Time → HTTPRequest → Time * result (Z * string)).
Context (CanonicalHeaderKey : string → string) (basicAuthHeader : string → string → string).

Definition parseHTTPConfig (params : gmap string any) : result HTTPConnectorConfig :=
  match as_string (params !! "url") with
  | None => Err "url is required"
  | Some urlStr =>
      match urlParse urlStr with
      | Some err => Err ("invalid URL: " +:+ err)%string
      | None =>
          let method := match as_string (params !! "method") with Some m => ToUpper m | None => "POST" end in
          let timeout := match params !! "timeout" with
                         | Some (VString s) => default (30 * Second) (ParseDuration s)
                         | Some (VFloat64 f) => i64 (int_of_float f * Second)
                         | _ => 30 * Second
                         end in
          let headers := match params !! "headers" with
                         | Some (VMap hs) => omap (λ v, match v with VString s => Some s | _ => None end) hs
                         | _ => ∅
                         end in
          let basicAuth := match params !! "basic_auth" with
                           | Some (VMap ba) =>
                               Some (mkBasicAuth (stringParam ba "username" "") (stringParam ba "password" ""))
                           | _ => None
                           end in
          Ok (mkHTTPConnectorConfig urlStr method headers timeout
                (intParam params "max_idle_conns" 100) (intParam params "max_conns_per_host" 10)
                (durationParam ParseDuration params "idle_conn_timeout" (90 * Second))
                (durationParam ParseDuration params "tls_handshake_timeout" (10 * Second))
                (durationParam ParseDuration params "expect_continue_timeout" Second)
                (boolParam params "insecure_skip_verify" false) (boolParam params "enable_keepalive" true)
                basicAuth (stringParam params "bearer_token" "") (stringParam params "request_template" "")
                (stringParam params "response_handler" ""))
      end
  end.

Definition HTTPCreate (config : ConnectorConfig) (now : Time) : result HTTPConnector :=
  match parseHTTPConfig (CC_Parameters config) with
  | Err err => Err ("invalid HTTP configuration: " +:+ err)%string
  | Ok httpConfig => Ok (mkHTTPConnector (NewBaseConnector config now) httpConfig)
  end.

Definition HTTPValidateConfig (config : ConnectorConfig) : option string :=
  match parseHTTPConfig (CC_Parameters config) with Err err => Some err | Ok _ => None end.

Definition HTTPGetDefaultConfig : ConnectorConfig :=
  mkConnectorConfig "" "" ConnectorTypeHTTP "" false
    (list_to_map
      [("url", VString "http://localhost:8080/webhook"); ("method", VString "POST");
       ("timeout", VString "30s"); ("max_idle_conns", VInt 100); ("max_conns_per_host", VInt 10);
       ("idle_conn_timeout", VString "90s"); ("tls_handshake_timeout", VString "10s");
       ("expect_continue_timeout", VString "1s"); ("enable_keepalive", VBool true);
       ("insecure_skip_verify", VBool false);
       ("headers", schemaField [("Content-Type", VString "application/json");
                                ("User-Agent", VString "emqx-go-connector")])])
    DefaultHealthCheckConfig DefaultRetryConfig (mkPoolConfig 0 0 0 0) [] zeroTime zeroTime.

Definition HTTPGetConfigSchema : any :=
  schemaField
    [("type", VString "object");
     ("properties", schemaField
       [("url", schemaField [("type", VString "string"); ("description", VString "HTTP/HTTPS endpoint URL");
                             ("format", VString "uri")]);
        ("method", schemaField [("type", VString "string"); ("description", VString "HTTP method");
           ("enum", VSlice [VString "GET"; VString "POST"; VString "PUT"; VString "DELETE"; VString "PATCH"]);
           ("default", VString "POST")]);
        ("timeout", schemaField [("type", VString "string"); ("description", VString "Request timeout duration");
                                 ("default", VString "30s")]);
        ("headers", schemaField [("type", VString "object");
           ("description", VString "HTTP headers to include in requests");
           ("additionalProperties", schemaField [("type", VString "string")])]);
        ("basic_auth", schemaField [("type", VString "object");
           ("description", VString "HTTP basic authentication");
           ("properties", schemaField [("username", schemaField [("type", VString "string")]);
                                       ("password", schemaField [("type", VString "string")])])]);
        ("bearer_token", schemaField [("type", VString "string");
                                      ("description", VString "Bearer token for authentication")]);
        ("insecure_skip_verify", schemaField [("type", VString "boolean");
           ("description", VString "Skip TLS certificate verification"); ("default", VBool false)])]);
     ("required", VSlice [VString "url"])].

Definition setHeader (k v : string) (h : gmap string string) : gmap string string :=
  <[CanonicalHeaderKey k := v]> h.
Definition setHeaders (hs h : gmap string string) : gmap string string := go_range setHeader hs h.

Definition addAuthentication (config : HTTPConnectorConfig) (h : gmap string string) : gmap string string :=
  let h := match H_BasicAuth config with
           | Some ba => setHeader "Authorization" (basicAuthHeader (BA_Username ba) (BA_Password ba)) h
           | None => h
           end in
  if H_BearerToken config <>s ""
  then setHeader "Authorization" ("Bearer " +:+ H_BearerToken config)%string h else h.

Definition HTTPHealthCheck (hc : HTTPConnector) (now : Time) : option string :=
  let config := httpConfig hc in
  let method := if H_Method config =s "GET" then "GET" else "HEAD" in
  match newRequest method (H_URL config) with
  | Some err => Some ("failed to create health check request: " +:+ err)%string
  | None =>
      let header := addAuthentication config (setHeaders (H_Headers config) ∅) in
      match (httpDo now (mkHTTPRequest method (H_URL config) header [])).2 with
      | Err err => Some ("health check request failed: " +:+ err)%string
      | Ok (code, _) =>
          if 400 <=? code then Some ("health check failed with status: " +:+ pretty code)%string else None
      end
  end.

Definition lift (hc : HTTPConnector) {A} (o : outcome (BaseConnector * A)) : outcome (HTTPConnector * A) :=
  let! '(bc, a) := o in Returns (mkHTTPConnector bc (httpConfig hc), a).

Definition HTTPStart (hc : HTTPConnector) (now : Time) : outcome (HTTPConnector * option string) :=
  lift hc (startWith (HTTPHealthCheck hc now) (hc_base hc) now).
(** Idle connections are closed; that reports no error. *)
Definition HTTPStop (hc : HTTPConnector) (now : Time) : outcome (HTTPConnector * option string) :=
  lift hc (stopWith None (hc_base hc) now).
Definition HTTPRestart : HTTPConnector → Time → outcome (HTTPConnector * option string) :=
  restartWith HTTPStop HTTPStart.

(** The headers of a request: those of the configuration, then those of the message, then
    the topic, then the credentials. *)
Definition requestHeaders (config : HTTPConnectorConfig) (message : ConnMessage) : gmap string string :=
  let h := setHeaders (CM_Headers message) (setHeaders (H_Headers config) ∅) in
  let h := if CM_Topic message <>s "" then setHeader "X-MQTT-Topic" (CM_Topic message) h else h in
  addAuthentication config h.

Definition HTTPSend (hc : HTTPConnector) (message : ConnMessage) (start : Time)
    : outcome (HTTPConnector * (option MessageResult * option string)) :=
  let config := httpConfig hc in
  let! running := IsRunning (hc_base hc) in
  if negb running then Returns (hc, (None, Some ErrConnectorNotRunning))
  else lift hc
    match newRequest (H_Method config) (H_URL config) with
    | Some err => sendFailed (hc_base hc) message err err 0 start start
    | None =>
        let req := mkHTTPRequest (H_Method config) (H_URL config) (requestHeaders config message) (CM_Payload message) in
        let '(now, resp) := httpDo start req in
        match resp with
        | Err err => sendFailed (hc_base hc) message err err 0 start now
        | Ok (code, body) =>
            if 400 <=? code
            then sendFailed (hc_base hc) message ("HTTP " +:+ pretty code +:+ ": " +:+ body)%string
                   ("HTTP request failed with status " +:+ pretty code)%string (now - start) start now
            else sendSucceeded (hc_base hc) message (now - start) start now
        end
    end.

Fixpoint HTTPSendBatch (hc : HTTPConnector) (messages : list ConnMessage) (now : Time)
    : outcome (HTTPConnector * (list (option MessageResult) * option string)) :=
  match messages with
  | [] => Returns (hc, ([], None))
  | message :: messages =>
      let! '(hc, (result, _)) := HTTPSend hc message now in
      let! '(hc, (results, err)) := HTTPSendBatch hc messages now in
      Returns (hc, (result :: results, err))
  end.

Definition HTTPClose (hc : HTTPConnector) (now : Time) : outcome (HTTPConnector * option string) :=
  let! bc := BaseClose now (hc_base hc) in Returns (mkHTTPConnector bc (httpConfig hc), None).

#[export] Instance HTTPConnector_Connector : Connector HTTPConnector := {
  Start := HTTPStart;
  Stop := HTTPStop;
  Restart := HTTPRestart;
  con_Status hc now := Status (hc_base hc) now;
  HealthCheck := HTTPHealthCheck;
  con_IsRunning hc := IsRunning (hc_base hc);
  Send := HTTPSend;
  SendBatch := HTTPSendBatch;
  con_GetConfig hc := GetConfig (hc_base hc);
  con_UpdateConfig hc config now := lift hc (UpdateConfig (hc_base hc) config now);
  con_GetMetrics hc := GetMetrics (hc_base hc);
  con_ResetMetrics hc :=
    let! bc := ResetMetrics (hc_base hc) in Returns (mkHTTPConnector bc (httpConfig hc));
  Close := HTTPClose;
}.

Definition HTTPConnectorFactory : ConnectorFactory HTTPConnector :=
  mkConnectorFactory ConnectorTypeHTTP HTTPCreate HTTPValidateConfig HTTPGetDefaultConfig HTTPGetConfigSchema.
End HTTP.
