(* ===== verification/ConnProps.v ===== *)
(** * Properties of the connectors and of their manager (pkg/connector) *)

From S2P Require Import Prelude GoLib GoValue Connector RuleSQL ConnHTTP.
Local Open Scope emqx_scope.
Local Open Scope Z_scope.

(** ** Health checks *)

Section Health.
Context `{GoFloat}.
Implicit Types bc : BaseConnector.

Lemma withLock_unlocked {A} bc (f : BaseConnector → A) : bc_locked bc = false → withLock bc f = Returns (f bc).
Proof. unfold withLock. by intros ->. Qed.

Lemma withLock_locked {A} bc (f : BaseConnector → A) : bc_locked bc = true → withLock bc f = Blocks.
Proof. unfold withLock. by intros ->. Qed.

(** Every operation that takes the mutex. *)
Definition all_block bc : Prop :=
  ∀ now, IsRunning bc = Blocks ∧ GetConfig bc = Blocks ∧ Status bc now = Blocks ∧ GetMetrics bc = Blocks ∧
    ResetMetrics bc = Blocks ∧ BaseClose now bc = Blocks ∧ startWith None bc now = Blocks ∧
    stopWith None bc now = Blocks ∧
    (∀ s, setState s now bc = Blocks) ∧ (∀ e, setError e now bc = Blocks) ∧
    (∀ l, recordSuccess l now bc = Blocks) ∧ (∀ c, UpdateConfig bc c now = Blocks) ∧
    (∀ e, performHealthCheck bc e now = Blocks).

Lemma locked_blocks bc : bc_locked bc = true → all_block bc.
Proof.
  intros Hl now.
  assert (Hw : ∀ A (f : BaseConnector → A), withLock bc f = Blocks) by (intros; by apply withLock_locked).
  unfold IsRunning, GetConfig, Status, GetMetrics, ResetMetrics, setState, setError, recordSuccess, UpdateConfig.
  repeat split; try (apply Hw); intros; try (apply Hw).
  - unfold BaseClose, setState. by apply withLock_locked.
  - unfold startWith, IsRunning. by rewrite Hw.
  - unfold stopWith, IsRunning. by rewrite Hw.
  - unfold performHealthCheck. by rewrite Hl.
Qed.

(** A health check of a connector at rest never returns exactly when it fails and the
    number of consecutive failures reaches the configured maximum: it calls [setState]
    while it holds the mutex that [setState] takes.  From then on every operation of the
    connector that takes the mutex blocks.  In all other cases the check returns, leaves
    the state alone, counts the failure or resets the count. *)
Theorem health_check_deadlock bc err now :
  bc_locked bc = false →
  (performHealthCheck bc err now = Blocks ↔ tooManyFailures bc err = true) ∧
  (tooManyFailures bc err = true → all_block (healthCheckLocked bc err now)) ∧
  (tooManyFailures bc err = false → ∃ bc', performHealthCheck bc err now = Returns bc' ∧
     bc_locked bc' = false ∧ bc_state bc' = bc_state bc ∧
     ST_HealthStatus (bc_status bc') = checkedHealth (ST_HealthStatus (bc_status bc)) err now).
Proof.
  intros Hl. unfold performHealthCheck. rewrite Hl.
  assert (Hlk : bc_locked (healthCheckLocked bc err now) = true) by done.
  split_and!.
  - destruct (tooManyFailures bc err); [|by split].
    unfold setState. by rewrite withLock_locked.
  - intros _. by apply locked_blocks.
  - intros ->. eexists. split_and!; reflexivity.
Qed.

Lemma startWith_healthy bc now :
  bc_locked bc = false → bc_state bc ≠ StateRunning →
  ∃ bc', startWith None bc now = Returns (bc', None) ∧ bc_locked bc' = false ∧ bc_config bc' = bc_config bc ∧
    bc_state bc' = StateRunning ∧ ST_HealthStatus (bc_status bc') = ST_HealthStatus (bc_status bc).
Proof.
  intros Hl Hs. unfold startWith, IsRunning, setState. rewrite withLock_unlocked by done.
  cbn [outcome_bind]. rewrite bool_decide_false by done.
  repeat (rewrite withLock_unlocked by done; cbn [outcome_bind]). eexists. split; [reflexivity|].
  unfold startHealthCheck. case_match; done.
Qed.

(** [n] failing checks in a row. *)
Fixpoint failingChecks (n : nat) (e : string) (now : Time) bc : outcome BaseConnector :=
  match n with
  | O => Returns bc
  | S n => let! bc := performHealthCheck bc (Some e) now in failingChecks n e now bc
  end.

Lemma failingChecks_end n e now bc :
  failingChecks (S n) e now bc = (let! bc := failingChecks n e now bc in performHealthCheck bc (Some e) now).
Proof.
  revert bc. induction n as [|n IH]; intros bc.
  - cbn. by destruct (performHealthCheck bc (Some e) now).
  - change (failingChecks (S (S n)) e now bc) with
      (let! bc := performHealthCheck bc (Some e) now in failingChecks (S n) e now bc).
    cbn [failingChecks]. destruct (performHealthCheck bc (Some e) now) as [b| |]; [|done..].
    cbn [outcome_bind]. apply IH.
Qed.

Lemma failingChecks_count n e now bc :
  bc_locked bc = false → 0 ≤ FailureCount (ST_HealthStatus (bc_status bc)) →
  FailureCount (ST_HealthStatus (bc_status bc)) + Z.of_nat n < HC_MaxFails (CC_HealthCheck (bc_config bc)) < 2 ^ 63 →
  ∃ bc', failingChecks n e now bc = Returns bc' ∧ bc_locked bc' = false ∧ bc_config bc' = bc_config bc ∧
    bc_state bc' = bc_state bc ∧
    FailureCount (ST_HealthStatus (bc_status bc')) = FailureCount (ST_HealthStatus (bc_status bc)) + Z.of_nat n.
Proof.
  revert bc. induction n as [|n IH]; intros bc Hl H0 Hn; [exists bc; split_and!; try done; lia|].
  cbn [failingChecks]. unfold performHealthCheck. rewrite Hl.
  assert (Ht : tooManyFailures bc (Some e) = false).
  { unfold tooManyFailures. apply andb_false_iff. right. apply Z.leb_gt. rewrite i64_id; lia. }
  rewrite Ht. cbn [outcome_bind].
  destruct (IH (setLocked false (healthCheckLocked bc (Some e) now))) as (bc' & -> & Hl' & Hc & Hs & Hf).
  - done.
  - simpl. rewrite i64_id; lia.
  - simpl. rewrite i64_id; lia.
  - exists bc'. split_and!; try done. rewrite Hf. simpl. rewrite i64_id; lia.
Qed.

(** A connector with the default health-check settings that is running and whose target
    goes away is still reported as running after two failed checks; the third one never
    returns. *)
Theorem third_failure_hangs config now e later :
  CC_HealthCheck config = DefaultHealthCheckConfig →
  ∃ bc bc2, startWith None (NewBaseConnector config now) now = Returns (bc, None) ∧
    failingChecks 2 e later bc = Returns bc2 ∧ IsRunning bc2 = Returns true ∧
    performHealthCheck bc2 (Some e) later = Blocks ∧ failingChecks 3 e later bc = Blocks.
Proof.
  intros Hd. destruct (startWith_healthy (NewBaseConnector config now) now) as (b1 & E1 & Hl & Hcfg & Hs & Hhs);
    [done|done|]. exists b1.
  assert (Hc : CC_HealthCheck (bc_config b1) = DefaultHealthCheckConfig) by (by rewrite Hcfg).
  assert (Hf : FailureCount (ST_HealthStatus (bc_status b1)) = 0) by (by rewrite Hhs).
  destruct (failingChecks_count 2 e later b1 Hl) as (bc2 & E2 & Hl2 & Hc2 & Hs2 & Hf2);
    [lia|rewrite Hc, Hf; simpl; lia|].
  assert (Hb : performHealthCheck bc2 (Some e) later = Blocks).
  { unfold performHealthCheck. rewrite Hl2.
    assert (tooManyFailures bc2 (Some e) = true) as ->.
    { unfold tooManyFailures. rewrite Hc2, Hc, Hf2, Hf. done. }
    unfold setState. by rewrite withLock_locked. }
  exists bc2. split_and!; try done.
  - unfold IsRunning. rewrite withLock_unlocked by done. f_equal. apply bool_decide_true. congruence.
  - by rewrite failingChecks_end, E2.
Qed.

(** ** Latencies *)

Definition recordAll (ls : list Duration) (now : Time) bc : outcome BaseConnector :=
  foldl (λ o l, let! bc := o in recordSuccess l now bc) (Returns bc) ls.

Lemma foldl_bind_Returns ls now bc bc1 l :
  recordSuccess l now bc = Returns bc1 →
  recordAll (l :: ls) now bc = recordAll ls now bc1.
Proof. unfold recordAll. cbn [foldl outcome_bind]. by intros ->. Qed.

(** What holds of the latency figures after the latencies [seen]. *)
Definition latency_ok (m : ConnectorMetrics) (seen : list Duration) : Prop :=
  match seen with
  | [] => MinLatency m = 0 ∧ MaxLatency m = 0 ∧ AvgLatency m = 0
  | _ => MinLatency m ∈ seen ∧ MaxLatency m ∈ seen ∧
         (∀ l, l ∈ seen → MinLatency m ≤ l ≤ MaxLatency m) ∧
         MinLatency m ≤ AvgLatency m ≤ MaxLatency m
  end.

Lemma recordSuccess_latency bc l now seen bc' :
  recordSuccess l now bc = Returns bc' →
  Forall (λ l, 0 < l < 2 ^ 62) seen → 0 < l < 2 ^ 62 →
  latency_ok (bc_metrics bc) seen → latency_ok (bc_metrics bc') (seen ++ [l]).
Proof.
  unfold recordSuccess, withLock. case_match; [done|]. intros E Hs Hl Hok. injection E as <-.
  unfold latency_ok in *. cbn [bc_metrics putMetrics MinLatency MaxLatency AvgLatency].
  destruct seen as [|x seen].
  - destruct Hok as (-> & -> & ->). cbn [app Z.eqb orb].
    rewrite (proj2 (Z.ltb_lt 0 l)) by lia. split_and!; try (by left); try lia.
    intros y Hy. apply list_elem_of_singleton in Hy. lia.
  - destruct Hok as (Hmin & Hmax & Hall & Havg). rewrite Forall_forall in Hs.
    pose proof (Hs _ Hmin). pose proof (Hs _ Hmax).
    rewrite (proj2 (Z.eqb_neq (MinLatency (bc_metrics bc)) 0)) by lia.
    rewrite (proj2 (Z.eqb_neq (AvgLatency (bc_metrics bc)) 0)) by lia. cbn [orb].
    cbn [app]. rewrite app_comm_cons.
    assert (Hq : i64 (AvgLatency (bc_metrics bc) + l) = AvgLatency (bc_metrics bc) + l) by (apply i64_id; lia).
    rewrite Hq. rewrite Z.quot_div_nonneg by lia.
    pose proof (Z.div_mod (AvgLatency (bc_metrics bc) + l) 2 ltac:(lia)).
    pose proof (Z.mod_pos_bound (AvgLatency (bc_metrics bc) + l) 2 ltac:(lia)).
    split_and!.
    + case_match; bool_prop; rewrite elem_of_app; [right; by left|by left].
    + case_match; bool_prop; rewrite elem_of_app; [right; by left|by left].
    + intros y Hy. apply elem_of_app in Hy as [Hy|Hy].
      * specialize (Hall y Hy). repeat case_match; bool_prop; lia.
      * apply list_elem_of_singleton in Hy. subst. repeat case_match; bool_prop; lia.
    + repeat case_match; bool_prop; lia.
    + repeat case_match; bool_prop; lia.
Qed.

(** After any sequence of successful sends with positive latencies the recorded minimum
    and maximum are those of the sequence, and the moving average lies between them. *)
Theorem latency_figures config now later ls bc :
  Forall (λ l, 0 < l < 2 ^ 62) ls → ls ≠ [] →
  recordAll ls later (NewBaseConnector config now) = Returns bc →
  MinLatency (bc_metrics bc) ∈ ls ∧ MaxLatency (bc_metrics bc) ∈ ls ∧
  (∀ l, l ∈ ls → MinLatency (bc_metrics bc) ≤ l ≤ MaxLatency (bc_metrics bc)) ∧
  MinLatency (bc_metrics bc) ≤ AvgLatency (bc_metrics bc) ≤ MaxLatency (bc_metrics bc).
Proof.
  intros Hls Hne.
  assert (Hgen : ∀ ls seen b, Forall (λ l, 0 < l < 2 ^ 62) ls → Forall (λ l, 0 < l < 2 ^ 62) seen →
            latency_ok (bc_metrics b) seen → recordAll ls later b = Returns bc →
            latency_ok (bc_metrics bc) (seen ++ ls)).
  { clear. induction ls as [|l ls IH]; intros seen b Hls Hseen Hok E.
    - injection E as ->. by rewrite app_nil_r.
    - inversion Hls; subst. destruct (recordSuccess l later b) as [b1| |] eqn:Eb.
      + rewrite (foldl_bind_Returns _ _ _ _ _ Eb) in E.
        replace (seen ++ l :: ls) with ((seen ++ [l]) ++ ls) by (by rewrite <- app_assoc).
        eapply IH; [done| |by eapply recordSuccess_latency|done].
        apply Forall_app. split; [done|by constructor].
      + exfalso. unfold recordAll in E. cbn [foldl outcome_bind] in E. rewrite Eb in E.
        clear -E. induction ls as [|? ls IH]; [done|]. by apply IH.
      + exfalso. unfold recordAll in E. cbn [foldl outcome_bind] in E. rewrite Eb in E.
        clear -E. induction ls as [|? ls IH]; [done|]. by apply IH. }
  intros E. specialize (Hgen ls [] (NewBaseConnector config now) Hls (Forall_nil_2 _)).
  simpl in Hgen. destruct ls; [done|]. by apply Hgen.
Qed.
End Health.

(** ** Counting *)

Section Counting.
Context `{GoFloat}.

(** The four counters of deliveries and failures. *)
Definition counters (m : ConnectorMetrics) : Z * Z * Z * Z :=
  (MessagesSent m, SuccessCount m, MessagesDropped m, ErrorCount m).

Definition counted (ok : bool) (c : Z * Z * Z * Z) : Z * Z * Z * Z :=
  let '(sent, success, dropped, errors) := c in
  if ok then (i64 (sent + 1), i64 (success + 1), dropped, errors)
  else (sent, success, i64 (dropped + 1), i64 (errors + 1)).

Fixpoint countOk (l : list bool) : Z * Z :=
  match l with
  | [] => (0, 0)
  | b :: l => let '(ok, bad) := countOk l in if b then (ok + 1, bad) else (ok, bad + 1)
  end.

Definition counters_plus (n : Z * Z) (c : Z * Z * Z * Z) : Z * Z * Z * Z :=
  let '(sent, success, dropped, errors) := c in
  (i64 (sent + n.1), i64 (success + n.1), i64 (dropped + n.2), i64 (errors + n.2)).

Definition counters_in_range (c : Z * Z * Z * Z) : Prop :=
  let '(a, b, c, d) := c in i64 a = a ∧ i64 b = b ∧ i64 c = c ∧ i64 d = d.

Lemma counters_in_range_counted ok c : counters_in_range c → counters_in_range (counted ok c).
Proof. destruct c as [[[a b] c] d], ok; simpl; rewrite ?i64_i64; tauto. Qed.

Lemma counters_plus_counted ok n c :
  counters_in_range c →
  counters_plus n (counted ok c) = counters_plus (if ok then (n.1 + 1, n.2) else (n.1, n.2 + 1)) c.
Proof.
  destruct c as [[[a b] c] d], ok; simpl; intros (Ha & Hb & Hc & Hd); rewrite !i64_add_l.
  - by rewrite <- !Z.add_assoc, (Z.add_comm 1 n.1).
  - by rewrite <- !Z.add_assoc, (Z.add_comm 1 n.2).
Qed.
End Counting.

(** ** Sending over HTTP *)

Section HTTPProps.
Context `{GoFloat} `{GoUnicode}.
Context (ParseDuration : string → option Duration) (urlParse : string → option string).
Context (newRequest : string → string → option string).
Context (httpDo : Time → HTTPRequest → Time * result (Z * string)).
Context (CanonicalHeaderKey : string → string) (basicAuthHeader : string → string → string).
Implicit Types (hc : HTTPConnector) (message : ConnMessage).

Abbreviation hSend := (HTTPSend newRequest httpDo CanonicalHeaderKey basicAuthHeader).
Abbreviation hBatch := (HTTPSendBatch newRequest httpDo CanonicalHeaderKey basicAuthHeader).
Abbreviation hHealth := (HTTPHealthCheck newRequest httpDo CanonicalHeaderKey basicAuthHeader).
Abbreviation hStart := (HTTPStart newRequest httpDo CanonicalHeaderKey basicAuthHeader).
Abbreviation hRestart := (HTTPRestart newRequest httpDo CanonicalHeaderKey basicAuthHeader).

(** The endpoint accepts the message. *)
Definition accepted hc message (start : Time) : bool :=
  let config := httpConfig hc in
  match newRequest (H_Method config) (H_URL config) with
  | Some _ => false
  | None =>
      match (httpDo start (mkHTTPRequest (H_Method config) (H_URL config)
               (requestHeaders CanonicalHeaderKey basicAuthHeader config message) (CM_Payload message))).2 with
      | Ok (code, _) => code <? 400
      | Err _ => false
      end
  end.

Lemma sendFailed_exact bc message e err latency start now :
  bc_locked bc = false →
  ∃ bc', sendFailed bc message e err latency start now =
      Returns (bc', (Some (mkMessageResult (CM_ID message) false e latency start), Some err)) ∧
    bc_locked bc' = false ∧ bc_state bc' = bc_state bc ∧ bc_config bc' = bc_config bc ∧
    counters (bc_metrics bc') = counted false (counters (bc_metrics bc)).
Proof.
  intros Hl. unfold sendFailed, setError. rewrite withLock_unlocked by done. cbn [outcome_bind].
  eexists. split_and!; reflexivity || done.
Qed.

Lemma sendSucceeded_exact bc message latency start now :
  bc_locked bc = false →
  ∃ bc', sendSucceeded bc message latency start now =
      Returns (bc', (Some (mkMessageResult (CM_ID message) true "" latency start), None)) ∧
    bc_locked bc' = false ∧ bc_state bc' = bc_state bc ∧ bc_config bc' = bc_config bc ∧
    counters (bc_metrics bc') = counted true (counters (bc_metrics bc)).
Proof.
  intros Hl. unfold sendSucceeded, recordSuccess. rewrite withLock_unlocked by done. cbn [outcome_bind].
  eexists. split_and!; reflexivity || done.
Qed.

Lemma HTTPSend_exact hc message start :
  bc_locked (hc_base hc) = false → bc_state (hc_base hc) = StateRunning →
  ∃ bc' r err, hSend hc message start = Returns (mkHTTPConnector bc' (httpConfig hc), (Some r, err)) ∧
    MR_MessageID r = CM_ID message ∧ MR_Success r = accepted hc message start ∧
    (err = None ↔ accepted hc message start = true) ∧
    bc_locked bc' = false ∧ bc_state bc' = StateRunning ∧ bc_config bc' = bc_config (hc_base hc) ∧
    counters (bc_metrics bc') = counted (accepted hc message start) (counters (bc_metrics (hc_base hc))).
Proof.
  intros Hl Hs. unfold HTTPSend, IsRunning. rewrite withLock_unlocked by done. cbn [outcome_bind].
  rewrite bool_decide_true by done. cbn [negb]. unfold accepted. cbv zeta.
  assert (Hfail : ∀ e err latency now,
    ∃ bc' r er, lift hc (sendFailed (hc_base hc) message e err latency start now) =
        Returns (mkHTTPConnector bc' (httpConfig hc), (Some r, er)) ∧
      MR_MessageID r = CM_ID message ∧ MR_Success r = false ∧ (er = None ↔ false = true) ∧
      bc_locked bc' = false ∧ bc_state bc' = StateRunning ∧ bc_config bc' = bc_config (hc_base hc) ∧
      counters (bc_metrics bc') = counted false (counters (bc_metrics (hc_base hc)))).
  { intros e err latency now.
    destruct (sendFailed_exact (hc_base hc) message e err latency start now Hl) as (bc' & -> & ? & Hst & ? & ?).
    eexists bc', _, _. split; [reflexivity|]. by rewrite Hst, Hs. }
  destruct (newRequest _ _); [by apply Hfail|].
  destruct (httpDo _ _) as [now [[code body]|err]]; cbn [snd]; [|by apply Hfail].
  destruct (Z.leb_spec 400 code); destruct (Z.ltb_spec code 400); try lia; [by apply Hfail|].
  destruct (sendSucceeded_exact (hc_base hc) message (now - start) start now Hl) as (bc' & -> & ? & Hst & ? & ?).
  eexists bc', _, _. split; [reflexivity|]. by rewrite Hst, Hs.
Qed.

(** A batch over HTTP answers one result per message, in order, each naming its message
    and telling whether the endpoint accepted it; a failure does not stop the messages
    behind it.  The counters of sent and of dropped messages grow by the numbers of
    accepted and of refused messages, and the connector stays as it was otherwise. *)
Theorem http_batch_accounting messages hc start :
  bc_locked (hc_base hc) = false → bc_state (hc_base hc) = StateRunning →
  counters_in_range (counters (bc_metrics (hc_base hc))) →
  ∃ bc' rs, hBatch hc messages start = Returns (mkHTTPConnector bc' (httpConfig hc), (Some <$> rs, None)) ∧
    MR_MessageID <$> rs = CM_ID <$> messages ∧
    MR_Success <$> rs = (λ m, accepted hc m start) <$> messages ∧
    bc_locked bc' = false ∧ bc_state bc' = StateRunning ∧ bc_config bc' = bc_config (hc_base hc) ∧
    counters (bc_metrics bc') =
      counters_plus (countOk ((λ m, accepted hc m start) <$> messages)) (counters (bc_metrics (hc_base hc))).
Proof.
  revert hc. induction messages as [|m messages IH]; intros hc Hl Hs Hr.
  { exists (hc_base hc), []. split_and!; try done; [by destruct hc|].
    destruct (counters (bc_metrics (hc_base hc))) as [[[a b] c] d]. simpl in *.
    rewrite !Z.add_0_r. destruct Hr as (-> & -> & -> & ->). done. }
  cbn [HTTPSendBatch].
  destruct (HTTPSend_exact hc m start Hl Hs) as (b1 & r & err & -> & Hid & Hok & _ & Hl1 & Hs1 & Hc1 & Hm1).
  cbn [outcome_bind].
  destruct (IH (mkHTTPConnector b1 (httpConfig hc))) as (b2 & rs & -> & Hids & Hoks & Hl2 & Hs2 & Hc2 & Hm2);
    [done|done|cbn [hc_base]; rewrite Hm1; by apply counters_in_range_counted|].
  cbn [outcome_bind httpConfig]. exists b2, (r :: rs). cbn [fmap list_fmap].
  split_and!; [done|by f_equal|by f_equal|done|done|by rewrite Hc2|].
  rewrite Hm2. cbn [hc_base]. rewrite Hm1, counters_plus_counted by done. cbn [countOk].
  change (accepted (mkHTTPConnector b1 (httpConfig hc))) with (accepted hc).
  by destruct (countOk _) as [ok bad], (accepted hc m start).
Qed.

(** The life cycle: starting a running connector and stopping one that is not running
    are errors that change nothing; a start succeeds exactly when the health check does,
    and leaves the connector running, otherwise failed; a restart of a connector that is
    not running is refused, so a failed connector cannot be restarted, only started. *)
Theorem http_life_cycle hc now :
  bc_locked (hc_base hc) = false →
  (bc_state (hc_base hc) = StateRunning →
     hStart hc now = Returns (hc, Some ErrConnectorAlreadyRunning) ∧
     ∃ hc', HTTPStop hc now = Returns (hc', None) ∧ bc_state (hc_base hc') = StateStopped ∧ httpConfig hc' = httpConfig hc) ∧
  (bc_state (hc_base hc) ≠ StateRunning →
     HTTPStop hc now = Returns (hc, Some ErrConnectorNotRunning) ∧
     hRestart hc now = Returns (hc, Some ErrConnectorNotRunning) ∧
     ∃ hc', hStart hc now = Returns (hc', hHealth hc now) ∧ httpConfig hc' = httpConfig hc ∧
       bc_state (hc_base hc') = match hHealth hc now with None => StateRunning | Some _ => StateFailed end).
Proof.
  intros Hl. assert (Eta : ∀ c, mkHTTPConnector (hc_base c) (httpConfig c) = c) by (by intros []).
  split; intros Hs.
  - split.
    + unfold HTTPStart, startWith, IsRunning. rewrite withLock_unlocked by done. cbn [outcome_bind].
      rewrite bool_decide_true by done. cbn. by rewrite Eta.
    + unfold HTTPStop, stopWith, IsRunning, setState. rewrite withLock_unlocked by done. cbn [outcome_bind].
      rewrite bool_decide_true by done. cbn [negb].
      repeat (rewrite withLock_unlocked by done; cbn [outcome_bind]). eexists. split; [reflexivity|done].
  - assert (Estop : HTTPStop hc now = Returns (hc, Some ErrConnectorNotRunning)).
    { unfold HTTPStop, stopWith, IsRunning. rewrite withLock_unlocked by done. cbn [outcome_bind].
      rewrite bool_decide_false by done. cbn. by rewrite Eta. }
    split_and!; [done|unfold HTTPRestart, restartWith; by rewrite Estop|].
    unfold HTTPStart. destruct (hHealth hc now) as [err|].
    + unfold startWith, IsRunning, setState, setError. rewrite withLock_unlocked by done. cbn [outcome_bind].
      rewrite bool_decide_false by done.
      repeat (rewrite withLock_unlocked by done; cbn [outcome_bind]). eexists. split; [reflexivity|done].
    + destruct (startWith_healthy (hc_base hc) now Hl Hs) as (bc' & -> & _ & _ & Hst & _).
      eexists. split; [reflexivity|done].
Qed.

(** Updating the configuration of an HTTP connector through the manager stores the new
    configuration, and changes nothing of what is sent and where: the settings that
    [Send] uses were read when the connector was created. *)
Theorem update_keeps_endpoint hc config now hc' message start :
  con_UpdateConfig (C := HTTPConnector) (Connector := HTTPConnector_Connector newRequest httpDo CanonicalHeaderKey basicAuthHeader)
    hc config now = Returns (hc', None) →
  CC_Parameters (bc_config (hc_base hc')) = CC_Parameters config ∧
  accepted hc' message start = accepted hc message start ∧ httpConfig hc' = httpConfig hc.
Proof.
  cbn [con_UpdateConfig HTTPConnector_Connector]. unfold lift, UpdateConfig, withLock.
  destruct (bc_locked _); [done|].
  repeat case_match; cbn [outcome_bind]; intros E; simplify_eq; done.
Qed.
End HTTPProps.

(** ** Examples *)

Section ConnWitness.
Local Existing Instance intFloat.

Definition example_config : ConnectorConfig :=
  mkConnectorConfig "c1" "" ConnectorTypeHTTP "" true {[ "url" := VString "http://x" ]}
    DefaultHealthCheckConfig DefaultRetryConfig DefaultPoolConfig [] zeroTime zeroTime.

Definition example_base (s : ConnectorState) : BaseConnector :=
  let bc := NewBaseConnector example_config 5 in
  mkBaseConnector (bc_config bc) s (bc_status bc) (bc_metrics bc) false false None 0 None None.

(** An endpoint that refuses empty payloads. *)
Definition example_do (now : Time) (r : HTTPRequest) : Time * result (Z * string) :=
  (now + 7, Ok (if bool_decide (R_Body r = []) then 400 else 200, "")).

Definition example_http (s : ConnectorState) : HTTPConnector :=
  mkHTTPConnector (example_base s)
    (mkHTTPConnectorConfig "http://x" "POST" ∅ 0 0 0 0 0 0 false true None "" "" "").

Definition example_message (id : string) (payload : list byte) : ConnMessage :=
  mkConnMessage id "t" payload ∅ 0 ∅.

Lemma health_check_deadlock_witness :
  let hs := mkHealthStatus false 1 2 2 "down" in
  let bc := putHealth hs (example_base StateRunning) in
  bc_locked bc = false ∧ tooManyFailures bc (Some "down") = true ∧
  performHealthCheck bc (Some "down") 9 = Blocks.
Proof.
  intros hs bc. split_and!; [done|done|].
  apply (proj1 (health_check_deadlock bc (Some "down") 9 eq_refl)). done.
Defined.

Lemma third_failure_hangs_witness :
  CC_HealthCheck example_config = DefaultHealthCheckConfig ∧
  ∃ bc bc2, startWith None (NewBaseConnector example_config 5) 5 = Returns (bc, None) ∧
    failingChecks 2 "down" 6 bc = Returns bc2 ∧ IsRunning bc2 = Returns true ∧
    performHealthCheck bc2 (Some "down") 6 = Blocks ∧ failingChecks 3 "down" 6 bc = Blocks.
Proof. split; [done|]. by apply (third_failure_hangs example_config 5 "down" 6). Defined.

Lemma latency_figures_witness :
  ∃ bc, recordAll [7; 3; 9] 6 (NewBaseConnector example_config 5) = Returns bc ∧
    (∀ l, l ∈ [7; 3; 9] → MinLatency (bc_metrics bc) ≤ l ≤ MaxLatency (bc_metrics bc)).
Proof.
  eexists. split; [reflexivity|].
  eapply (latency_figures example_config 5 6 [7; 3; 9]); [|done|reflexivity].
  repeat constructor; lia.
Defined.

Lemma http_batch_accounting_witness :
  counters_in_range (counters (bc_metrics (hc_base (example_http StateRunning)))) ∧
  ∃ bc' rs, HTTPSendBatch (λ _ _, None) example_do id (λ _ _, "") (example_http StateRunning)
      [example_message "a" []; example_message "b" [Byte.x01]] 3 =
      Returns (mkHTTPConnector bc' (httpConfig (example_http StateRunning)), (Some <$> rs, None)) ∧
    MR_MessageID <$> rs = ["a"; "b"] ∧ MR_Success <$> rs = [false; true] ∧
    counters (bc_metrics bc') = (1, 1, 1, 1).
Proof.
  split; [done|].
  destruct (http_batch_accounting (λ _ _, None) example_do id (λ _ _, "")
    [example_message "a" []; example_message "b" [Byte.x01]] (example_http StateRunning) 3)
    as (bc' & rs & E & Hid & Hok & _ & _ & _ & Hc); [done|done|done|].
  exists bc', rs. split_and!; [exact E|exact Hid|exact Hok|exact Hc].
Defined.

Lemma http_life_cycle_witness :
  let hc := example_http StateFailed in
  bc_locked (hc_base hc) = false ∧ bc_state (hc_base hc) ≠ StateRunning ∧
  HTTPRestart (λ _ _, None) (λ now _, (now, Ok (200, ""))) id (λ _ _, "") hc 3 = Returns (hc, Some ErrConnectorNotRunning).
Proof.
  intros hc. split_and!; [done|done|].
  by apply (http_life_cycle (λ _ _, None) (λ now _, (now, Ok (200, ""))) id (λ _ _, "") hc 3).
Defined.

Lemma update_keeps_endpoint_witness :
  let hc := example_http StateRunning in
  let config := mkConnectorConfig "c1" "" ConnectorTypeHTTP "" true {[ "url" := VString "http://y" ]}
    DefaultHealthCheckConfig DefaultRetryConfig DefaultPoolConfig [] zeroTime zeroTime in
  ∃ hc', con_UpdateConfig (Connector := HTTPConnector_Connector (λ _ _, None) example_do id (λ _ _, "")) hc config 8
      = Returns (hc', None) ∧
    CC_Parameters (bc_config (hc_base hc')) = CC_Parameters config ∧ httpConfig hc' = httpConfig hc.
Proof.
  intros hc config. eexists. split; [reflexivity|].
  match goal with |- CC_Parameters (bc_config (hc_base ?h)) = _ ∧ _ =>
    destruct (update_keeps_endpoint (λ _ _, None) example_do id (λ _ _, "") hc config 8 h
                (example_message "a" []) 9 eq_refl) as (? & _ & ?) end. done.
Defined.
End ConnWitness.
