(* ===== verification/ConnManager.v ===== *)
(** * Properties of the connector manager (pkg/connector/connector.go), proved against the
    laws of the [Connector] interface, which the HTTP connector satisfies *)

From S2P Require Import Prelude GoLib GoValue RuleSQL Connector ConnHTTP ConnProps.
Local Open Scope emqx_scope.
Local Open Scope Z_scope.

(** What the manager relies on: a connector has an identifier, the one of its
    configuration, and no method changes it. *)
Class ConnectorLaws `{GoFloat} (C : Type) `{!Connector C} := {
  connID : C → string;
  GetConfig_ID c config : con_GetConfig c = Returns config → CC_ID config = connID c;
  Start_ID c now c' err : Start c now = Returns (c', err) → connID c' = connID c;
  Stop_ID c now c' err : Stop c now = Returns (c', err) → connID c' = connID c;
  Restart_ID c now c' err : Restart c now = Returns (c', err) → connID c' = connID c;
  UpdateConfig_ID c config now c' err : con_UpdateConfig c config now = Returns (c', err) → connID c' = connID c;
  Send_ID c message now c' r : Send c message now = Returns (c', r) → connID c' = connID c;
  Close_ID c now c' err : Close c now = Returns (c', err) → connID c' = connID c;
}.

(** A factory names the connectors it makes after their configuration. *)
Definition factory_ok `{ConnectorLaws C} (f : ConnectorFactory C) : Prop :=
  ∀ config now c, f_Create f config now = Ok c → connID c = CC_ID config.

Section ManagerProps.
Context `{GoFloat} {C : Type} `{!Connector C} `{!ConnectorLaws C}.
Implicit Types cm : ConnectorManager C.

(** ** Well-formed managers *)
Record manager_wf cm : Prop := {
  wf_ids id c : connectors cm !! id = Some c → connID c = id;
  wf_types t f : factories cm !! t = Some f → f_Type f = t ∧ factory_ok f;
}.

(** One call of the manager that changes its state. *)
Inductive manager_step : ConnectorManager C → ConnectorManager C → Prop :=
  | MS_Register f cm : factory_ok f → manager_step cm (RegisterFactory f cm)
  | MS_Create config now cm cm' started err :
      CreateConnector config now cm = (cm', started, err) → manager_step cm cm'
  | MS_Update id config now cm cm' err : UpdateConnector id config now cm = Returns (cm', err) → manager_step cm cm'
  | MS_Delete id now cm cm' err : DeleteConnector id now cm = Returns (cm', err) → manager_step cm cm'
  | MS_Start id now cm cm' err : StartConnector id now cm = Returns (cm', err) → manager_step cm cm'
  | MS_Stop id now cm cm' err : StopConnector id now cm = Returns (cm', err) → manager_step cm cm'
  | MS_Restart id now cm cm' err : RestartConnector id now cm = Returns (cm', err) → manager_step cm cm'
  | MS_Send id c c' message now r cm :
      connectors cm !! id = Some c → Send c message now = Returns (c', r) →
      manager_step cm (putConnectors (<[id := c']> (connectors cm)) cm)
  | MS_Close now cm cm' : ManagerClose now cm = Returns cm' → manager_step cm cm'.

Lemma manager_wf_put cm id c : manager_wf cm → connID c = id →
  manager_wf (putConnectors (<[id := c]> (connectors cm)) cm).
Proof.
  intros [Hi Ht] Hc. split; [|done]. intros id' c'. cbn [putConnectors connectors].
  rewrite lookup_insert_Some. intros [[-> <-]|[_ ?]]; [done|by apply Hi].
Qed.

Lemma manager_wf_delete cm id : manager_wf cm → manager_wf (putConnectors (delete id (connectors cm)) cm).
Proof.
  intros [Hi Ht]. split; [|done]. intros id' c'. cbn [putConnectors connectors].
  rewrite lookup_delete_Some. intros [_ ?]. by apply Hi.
Qed.

Lemma onConnector_wf cm id f cm' err :
  manager_wf cm → (∀ c c' e, f c = Returns (c', e) → connID c' = connID c) →
  onConnector id f cm = Returns (cm', err) → manager_wf cm'.
Proof.
  intros Hwf Hf. unfold onConnector, GetConnector.
  destruct (connectors cm !! id) as [c|] eqn:E; [|intros; by simplify_eq].
  rewrite outcome_bind_Returns. intros ([c' e] & Hc & Er). simplify_eq.
  apply manager_wf_put; [done|]. erewrite Hf by done. by apply (wf_ids _ Hwf).
Qed.

Lemma DeleteConnector_wf cm id now cm' err :
  manager_wf cm → DeleteConnector id now cm = Returns (cm', err) → manager_wf cm'.
Proof.
  intros Hwf. unfold DeleteConnector.
  destruct (connectors cm !! id) as [c|] eqn:E; [|intros; by simplify_eq].
  pose proof (wf_ids _ Hwf _ _ E) as Hid.
  rewrite outcome_bind_Returns. intros (running & _ & Er).
  rewrite outcome_bind_Returns in Er. destruct Er as ([c1 stopErr] & Hstop & Er).
  assert (H1 : connID c1 = id).
  { destruct running; [erewrite Stop_ID by done; done|by simplify_eq]. }
  destruct stopErr; [simplify_eq; by apply manager_wf_put|].
  rewrite outcome_bind_Returns in Er. destruct Er as ([c2 closeErr] & Hclose & Er).
  assert (H2 : connID c2 = id) by (erewrite Close_ID by done; done).
  assert (Hwf2 : manager_wf (putConnectors (<[id := c2]> (connectors (putConnectors (<[id := c1]> (connectors cm)) cm)))
                   (putConnectors (<[id := c1]> (connectors cm)) cm))).
  { apply manager_wf_put; [by apply manager_wf_put|done]. }
  destruct closeErr; simplify_eq; [done|]. exact (manager_wf_delete _ _ Hwf2).
Qed.

Lemma ManagerClose_wf cm now cm' : manager_wf cm → ManagerClose now cm = Returns cm' → manager_wf cm'.
Proof.
  intros Hwf. unfold ManagerClose, go_range. cbn [connectors].
  assert (Hl : ∀ kv, kv ∈ map_to_list (connectors cm) → connID kv.2 = kv.1).
  { intros [k v] Hin. apply elem_of_map_to_list in Hin. by apply (wf_ids _ Hwf). }
  revert Hl. generalize (map_to_list (connectors cm)). intros l Hl.
  set (cm0 := mkConnectorManager (connectors cm) (factories cm) true).
  assert (Hwf0 : manager_wf cm0) by (destruct Hwf; by split).
  generalize dependent cm0. clear Hwf. induction l as [|[id c] l IH]; intros cm0 Hwf0; cbn [foldl].
  - intros E. by simplify_eq.
  - cbn [outcome_bind fst snd]. intros E. destruct (closeOne now id c cm0) as [cm1| |] eqn:Es.
    + eapply IH; [intros; apply Hl; by right| |exact E].
      unfold closeOne in Es. rewrite outcome_bind_Returns in Es. destruct Es as ([c1 ?] & Hs & Es).
      rewrite outcome_bind_Returns in Es. destruct Es as ([c2 ?] & Hc & Es). simplify_eq.
      apply manager_wf_put; [done|]. erewrite Close_ID, Stop_ID by done. apply (Hl (id, c)). by left.
    + exfalso. clear -E. induction l as [|[] l IH]; [done|]. by apply IH.
    + exfalso. clear -E. induction l as [|[] l IH]; [done|]. by apply IH.
Qed.

Lemma manager_step_wf cm cm' : manager_step cm cm' → manager_wf cm → manager_wf cm'.
Proof.
  destruct 1 as [f cm Hf|config now cm cm' started err E|id config now cm cm' err E|id now cm cm' err E
    |id now cm cm' err E|id now cm cm' err E|id now cm cm' err E|id c c' message now r cm Hc Hs|now cm cm' E]; intros Hwf.
  - destruct Hwf as [Hi Ht]. split; [done|]. intros t g. cbn [RegisterFactory factories].
    rewrite lookup_insert_Some. intros [[<- <-]|[_ ?]]; [done|by apply Ht].
  - unfold CreateConnector in E. repeat case_match; simplify_eq; try done.
    apply manager_wf_put; [done|].
    match goal with H : factories _ !! _ = Some _ |- _ => apply (wf_types _ Hwf) in H as [_ Hf] end.
    by eapply Hf.
  - revert E. apply onConnector_wf; [done|]. intros c c' e. repeat case_match; intros E';
      first [by eapply UpdateConfig_ID | by simplify_eq].
  - by eapply DeleteConnector_wf.
  - revert E. apply onConnector_wf; [done|]. intros ? ? ? E. by eapply Start_ID.
  - revert E. apply onConnector_wf; [done|]. intros ? ? ? E. by eapply Stop_ID.
  - revert E. apply onConnector_wf; [done|]. intros ? ? ? E. by eapply Restart_ID.
  - apply manager_wf_put; [done|]. erewrite Send_ID by done. by apply (wf_ids _ Hwf).
  - by eapply ManagerClose_wf.
Qed.

(** Whatever calls are made to a new manager, in any order and with any arguments, every
    connector it holds is stored under the identifier of its own configuration and every
    factory under the type it declares, so that looking a connector up and asking it for
    its configuration agree. *)
Theorem manager_well_formed cm :
  rtc manager_step NewConnectorManager cm →
  manager_wf cm ∧
  (∀ id c config, GetConnector id cm = Ok c → con_GetConfig c = Returns config → CC_ID config = id).
Proof.
  intros Hr. assert (Hwf : manager_wf cm).
  { remember NewConnectorManager as c0 eqn:E.
    assert (H0 : manager_wf c0) by (subst; split; intros ? ? Hx; cbn in Hx; by rewrite lookup_empty in Hx).
    clear E. induction Hr as [|a b c Hab _ IH]; [done|]. by apply IH, (manager_step_wf a). }
  split; [done|]. intros id c config. unfold GetConnector. case_match; [|done].
  intros E Hc. simplify_eq. rewrite (GetConfig_ID c config) by done. by apply (wf_ids _ Hwf).
Qed.

(** The answer to a request that is refused: nothing changes, nothing is started. *)
Definition refused cm (e : string) : ConnectorManager C * bool * option string := (cm, false, Some e).

(** [CreateConnector] fails exactly for an identifier in use, an unknown type, a
    configuration its factory refuses or cannot build, in this order, and a failure changes
    nothing; otherwise exactly the new connector is added, under its identifier, and it is
    started in the background exactly when the configuration enables it. *)
Theorem create_connector_exact config now cm :
  match connectors cm !! CC_ID config, factories cm !! CC_Type config with
  | Some _, _ => CreateConnector config now cm = refused cm ErrConnectorExists
  | None, None => CreateConnector config now cm = refused cm ErrConnectorTypeNotSupported
  | None, Some f =>
      match f_ValidateConfig f config, f_Create f config now with
      | Some e, _ => CreateConnector config now cm = refused cm e
      | None, Err e => CreateConnector config now cm = refused cm e
      | None, Ok c =>
          ∃ cm', CreateConnector config now cm = (cm', CC_Enabled config, None) ∧
            GetConnector (CC_ID config) cm' = Ok c ∧
            (∀ id, id ≠ CC_ID config → GetConnector id cm' = GetConnector id cm) ∧
            factories cm' = factories cm ∧
            CreateConnector config now cm' = refused cm' ErrConnectorExists
      end
  end.
Proof.
  unfold CreateConnector. destruct (connectors cm !! CC_ID config) eqn:E1; [done|].
  destruct (factories cm !! CC_Type config) as [f|] eqn:E2; [|done].
  destruct (f_ValidateConfig f config); [done|]. destruct (f_Create f config now) as [c|]; [|done].
  eexists. split; [reflexivity|]. unfold GetConnector. cbn [putConnectors connectors factories].
  rewrite lookup_insert_eq. split_and!; [done| |done|done].
  intros id Hne. by rewrite lookup_insert_ne.
Qed.
End ManagerProps.

(** ** The HTTP connector satisfies the laws *)

Section HTTPLaws.
Context `{GoFloat} `{GoUnicode}.
Context (newRequest : string → string → option string)
  (httpDo : Time → HTTPRequest → Time * result (Z * string))
  (CanonicalHeaderKey : string → string) (basicAuthHeader : string → string → string).
Abbreviation inst := (HTTPConnector_Connector newRequest httpDo CanonicalHeaderKey basicAuthHeader).

Definition baseID (bc : BaseConnector) : string := CC_ID (bc_config bc).

Lemma withLock_Returns {A} (bc : BaseConnector) (f : BaseConnector → A) a : withLock bc f = Returns a → a = f bc.
Proof. unfold withLock. case_match; naive_solver. Qed.

Lemma setState_ID s now (bc : BaseConnector) bc' : setState s now bc = Returns bc' → baseID bc' = baseID bc.
Proof. intros E. apply withLock_Returns in E as ->. done. Qed.
Lemma setError_ID e now (bc : BaseConnector) bc' : setError e now bc = Returns bc' → baseID bc' = baseID bc.
Proof. intros E. apply withLock_Returns in E as ->. done. Qed.
Lemma recordSuccess_ID l now (bc : BaseConnector) bc' : recordSuccess l now bc = Returns bc' → baseID bc' = baseID bc.
Proof. intros E. apply withLock_Returns in E as ->. done. Qed.
Lemma startHealthCheck_ID (bc : BaseConnector) : baseID (startHealthCheck bc) = baseID bc.
Proof. unfold startHealthCheck. by case_match. Qed.

(** Follow the binds of a call that returns. *)
Ltac inv_binds := repeat match goal with
  | E : outcome_bind _ _ = Returns _ |- _ => apply outcome_bind_Returns in E as (? & ? & E)
  | E : (let '(_, _) := ?x in _) = Returns _ |- _ => destruct x
  | E : Returns _ = Returns _ |- _ => simplify_eq
  | E : setState _ _ _ = Returns _ |- _ => apply setState_ID in E
  | E : setError _ _ _ = Returns _ |- _ => apply setError_ID in E
  | E : recordSuccess _ _ _ = Returns _ |- _ => apply recordSuccess_ID in E
  | E : (if ?b then _ else _) = Returns _ |- _ => destruct b
  | E : match ?x with _ => _ end = Returns _ |- _ => destruct x
  end.

Lemma startWith_ID h (bc : BaseConnector) now bc' err : startWith h bc now = Returns (bc', err) → baseID bc' = baseID bc.
Proof. unfold startWith. intros E. inv_binds; rewrite ?startHealthCheck_ID; unfold baseID in *; simpl in *; congruence. Qed.
Lemma stopWith_ID h (bc : BaseConnector) now bc' err : stopWith h bc now = Returns (bc', err) → baseID bc' = baseID bc.
Proof. unfold stopWith. intros E. inv_binds; unfold baseID in *; simpl in *; congruence. Qed.
Lemma sendFailed_ID (bc : BaseConnector) m e err l s now bc' r :
  sendFailed bc m e err l s now = Returns (bc', r) → baseID bc' = baseID bc.
Proof. unfold sendFailed. intros E. inv_binds. done. Qed.
Lemma sendSucceeded_ID (bc : BaseConnector) m l s now bc' r :
  sendSucceeded bc m l s now = Returns (bc', r) → baseID bc' = baseID bc.
Proof. unfold sendSucceeded. intros E. inv_binds. done. Qed.

Lemma lift_ID {A} hc (o : outcome (BaseConnector * A)) hc' a :
  (∀ bc a, o = Returns (bc, a) → baseID bc = baseID (hc_base hc)) →
  lift hc o = Returns (hc', a) → baseID (hc_base hc') = baseID (hc_base hc).
Proof. unfold lift. intros Ho E. destruct o as [[bc x]| |]; simplify_eq/=. by eapply Ho. Qed.

Lemma HTTPStart_ID hc now hc' err :
  HTTPStart newRequest httpDo CanonicalHeaderKey basicAuthHeader hc now = Returns (hc', err) →
  baseID (hc_base hc') = baseID (hc_base hc).
Proof. apply lift_ID. intros. by eapply startWith_ID. Qed.
Lemma HTTPStop_ID hc now hc' err : HTTPStop hc now = Returns (hc', err) → baseID (hc_base hc') = baseID (hc_base hc).
Proof. apply lift_ID. intros. by eapply stopWith_ID. Qed.

#[export] Program Instance HTTPConnector_laws : ConnectorLaws HTTPConnector (Connector0 := inst) := {|
  connID hc := baseID (hc_base hc)
|}.
Next Obligation. intros c config E. apply withLock_Returns in E as ->. done. Qed.
Next Obligation. intros c now c' err. apply HTTPStart_ID. Qed.
Next Obligation. intros c now c' err. apply HTTPStop_ID. Qed.
Next Obligation.
  intros c now c' err E. simpl in E. unfold HTTPRestart, restartWith in E.
  apply outcome_bind_Returns in E as ([c1 e1] & E1 & E). apply HTTPStop_ID in E1.
  destruct e1; [by simplify_eq|]. apply HTTPStart_ID in E. congruence.
Qed.
Next Obligation.
  intros c config now c' err. apply lift_ID. intros bc a E. apply withLock_Returns in E.
  cbv zeta in E. unfold baseID. repeat case_match; simplify_eq; bool_prop; simpl; congruence.
Qed.
Next Obligation.
  intros c message now c' r E. simpl in E. unfold HTTPSend in E. apply outcome_bind_Returns in E as (running & _ & E).
  destruct running; cbn [negb] in E; [|by simplify_eq]. revert E. apply lift_ID. intros bc a E.
  repeat case_match; first [by eapply sendFailed_ID | by eapply sendSucceeded_ID].
Qed.
Next Obligation.
  intros c now c' err E. simpl in E. unfold HTTPClose in E. apply outcome_bind_Returns in E as (bc & Eb & E).
  simplify_eq. unfold BaseClose in Eb. apply setState_ID in Eb. done.
Qed.

Context (ParseDuration : string → option Duration) (urlParse : string → option string).
Lemma HTTPFactory_ok :
  factory_ok (Connector0 := inst) (HTTPConnectorFactory ParseDuration urlParse).
Proof.
  intros config now c E. simpl in E. unfold HTTPCreate in E. case_match; simplify_eq. done.
Qed.
End HTTPLaws.

Section ManagerWitness.
Local Existing Instance intFloat.
Local Existing Instance asciiUnicode.
Definition example_inst : Connector HTTPConnector := HTTPConnector_Connector (λ _ _, None) example_do id (λ _ _, "").
Local Existing Instance example_inst.
Definition example_laws : ConnectorLaws HTTPConnector := HTTPConnector_laws (λ _ _, None) example_do id (λ _ _, "").
Local Existing Instance example_laws.

Lemma manager_well_formed_witness :
  let f := HTTPConnectorFactory (λ _, None) (λ _, None) in
  let cm := (CreateConnector example_config 5 (RegisterFactory f NewConnectorManager)).1.1 in
  rtc manager_step NewConnectorManager cm ∧ manager_wf cm ∧ is_Some (connectors cm !! "c1").
Proof.
  intros f cm.
  assert (Hr : rtc manager_step NewConnectorManager cm).
  { eapply rtc_l; [apply (MS_Register f); apply HTTPFactory_ok|]. apply rtc_once.
    set (x := CreateConnector example_config 5 (RegisterFactory f NewConnectorManager)) in *.
    apply (MS_Create example_config 5 _ _ x.1.2 x.2). fold x. unfold cm. by destruct x as [[? ?] ?]. }
  split_and!; [done| |by eexists].
  by apply (manager_well_formed cm).
Defined.
End ManagerWitness.
