(* ===== verification/ConnDrivers.v ===== *)
(** * The Redis, MySQL, PostgreSQL and Kafka connectors (pkg/connector)

    The client libraries are classes: a client with its server is a state [D], and an
    operation answers the new state, the time after the call and the error.  Everything around
    the calls is the code of the connectors: configuration, life cycle, the commands and
    statements that are built, batches, results and counters. *)

From S2P Require Import Prelude GoLib GoValue Connector ConnHTTP.
Local Open Scope emqx_scope.
Local Open Scope Z_scope.

(** ** Shared steps *)

(** A connector with a client. *)
Record DriverConnector `{GoFloat} (Cfg D : Type) := mkDriverConnector {
  dc_base : BaseConnector;
  dc_config : Cfg;
  dc_client : D;
}.
Arguments mkDriverConnector {_ _ _} _ _ _.
Arguments dc_base {_ _ _} _.
Arguments dc_config {_ _ _} _.
Arguments dc_client {_ _ _} _.

Section Driver.
Context `{GoFloat} {Cfg D : Type}.
Implicit Types (c : DriverConnector Cfg D) (message : ConnMessage).

Definition put_base c (bc : BaseConnector) : DriverConnector Cfg D :=
  mkDriverConnector bc (dc_config c) (dc_client c).
Definition put_client c (d : D) : DriverConnector Cfg D :=
  mkDriverConnector (dc_base c) (dc_config c) d.
Definition lift_base c {A} (o : outcome (BaseConnector * A)) : outcome (DriverConnector Cfg D * A) :=
  let! '(bc, a) := o in Returns (put_base c bc, a).

(** [Start] and [Stop]; the client is closed only when the connector runs. *)
Definition driverStart (health : DriverConnector Cfg D → Time → option string) c (now : Time)
    : outcome (DriverConnector Cfg D * option string) :=
  lift_base c (startWith (health c now) (dc_base c) now).
Definition driverStop (close : D → D * option string) c (now : Time)
    : outcome (DriverConnector Cfg D * option string) :=
  let! running := IsRunning (dc_base c) in
  if negb running then Returns (c, Some ErrConnectorNotRunning)
  else
    let '(d, err) := close (dc_client c) in
    lift_base (put_client c d) (stopWith err (dc_base c) now).
Definition driverClose (close : D → D * option string) c (now : Time)
    : outcome (DriverConnector Cfg D * option string) :=
  let d := (close (dc_client c)).1 in
  let! bc := BaseClose now (dc_base c) in
  Returns (put_base (put_client c d) bc, None).

(** [Send]: one call of the client. *)
Definition driverSend (call : D → ConnMessage → Time → D * Time * option string) c message (start : Time)
    : outcome (DriverConnector Cfg D * (option MessageResult * option string)) :=
  let! running := IsRunning (dc_base c) in
  if negb running then Returns (c, (None, Some ErrConnectorNotRunning))
  else
    let '(d, now, err) := call (dc_client c) message start in
    lift_base (put_client c d)
      match err with
      | Some e => sendFailed (dc_base c) message e e 0 start now
      | None => sendSucceeded (dc_base c) message (now - start) start now
      end.

Definition failedResult message (err : string) (at_ : Time) : option MessageResult :=
  Some (mkMessageResult (CM_ID message) false err 0 at_).

(** The end of one message of a batch, with the error of its call. *)
Definition batchResult message (err : option string) (start now : Time) (bc : BaseConnector)
    : outcome (BaseConnector * option MessageResult) :=
  match err with
  | Some e =>
      let! bc := setError e now bc in
      Returns (recordDroppedMessage bc, failedResult message e now)
  | None =>
      let! bc := recordSuccess (now - start) now bc in
      Returns (recordSentMessage bc, Some (mkMessageResult (CM_ID message) true "" (now - start) now))
  end.

(** [results[i:end]] after a batch: the results of an erroneous one are completed with the
    error, the others copied. *)
Fixpoint fillResults (messages : list ConnMessage) (batchResults : list (option MessageResult))
    (err : option string) (now : Time) : list (option MessageResult) :=
  match messages with
  | [] => []
  | message :: messages' =>
      match batchResults with
      | result :: batchResults' => result :: fillResults messages' batchResults' err now
      | [] =>
          match err with Some e => failedResult message e now | None => None end
          :: fillResults messages' [] err now
      end
  end.

(** The loop of [SendBatch]; the fuel is the number of messages. *)
Fixpoint batchLoop
    (process : DriverConnector Cfg D → list ConnMessage → Time →
               outcome (DriverConnector Cfg D * Time * (list (option MessageResult) * option string)))
    (fuel : nat) (batchSize : nat) c (messages : list ConnMessage) (now : Time)
    : outcome (DriverConnector Cfg D * list (option MessageResult)) :=
  match fuel, messages with
  | O, _ | _, [] => Returns (c, [])
  | Datatypes.S fuel, _ =>
      let batch := take batchSize messages in
      let! '(c, now, (results, err)) := process c batch now in
      let! '(c, rest) := batchLoop process fuel batchSize c (drop batchSize messages) now in
      Returns (c, fillResults batch results err now ++ rest)
  end.

Definition sendBatches
    (process : DriverConnector Cfg D → list ConnMessage → Time →
               outcome (DriverConnector Cfg D * Time * (list (option MessageResult) * option string)))
    (batchSize : Z) c (messages : list ConnMessage) (now : Time)
    : outcome (DriverConnector Cfg D * (list (option MessageResult) * option string)) :=
  let batchSize := if batchSize <=? 0 then 1000 else batchSize in
  let! '(c, results) := batchLoop process (length messages) (Z.to_nat (Z.min batchSize (blen messages))) c messages now in
  Returns (c, (results, None)).
(** The methods a connector inherits from its base, around those of its own. *)
Definition driverConnector (health : DriverConnector Cfg D → Time → option string)
    (close : D → D * option string)
    (send : DriverConnector Cfg D → D → ConnMessage → Time → D * Time * option string)
    (sendBatch : DriverConnector Cfg D → list ConnMessage → Time →
                 outcome (DriverConnector Cfg D * (list (option MessageResult) * option string)))
    : Connector (DriverConnector Cfg D) := {|
  Start := driverStart health; Stop := driverStop close;
  Restart := restartWith (driverStop close) (driverStart health);
  con_Status c now := Status (dc_base c) now; HealthCheck := health;
  con_IsRunning c := IsRunning (dc_base c); Send c := driverSend (send c) c; SendBatch := sendBatch;
  con_GetConfig c := GetConfig (dc_base c);
  con_UpdateConfig c config now := lift_base c (UpdateConfig (dc_base c) config now);
  con_GetMetrics c := GetMetrics (dc_base c);
  con_ResetMetrics c := let! bc := ResetMetrics (dc_base c) in Returns (put_base c bc);
  Close := driverClose close;
|}.
End Driver.

(** ** Redis (redis.go) *)

Record RedisConnectorConfig `{GoFloat} := mkRedisConnectorConfig {
  RD_Host : string; RD_Port : Z; RD_Username : string; RD_Password : string; RD_Database : Z;
  RD_PoolSize : Z; RD_MinIdleConn : Z; RD_MaxConnAge : Duration; RD_PoolTimeout : Duration;
  RD_IdleTimeout : Duration; RD_ReadTimeout : Duration; RD_WriteTimeout : Duration;
  RD_Command : string; RD_Key : string; RD_TTL : Duration; RD_BatchSize : Z; RD_UseTLS : bool;
  RD_TLSConfig : option (gmap string any);
}.
Arguments mkRedisConnectorConfig {_} _ _ _ _ _ _ _ _ _ _ _ _ _ _ _ _ _ _.

(** [redis.Options] as [initClient] sets them. *)
Record RedisOptions := mkRedisOptions {
  O_Addr : string; O_Username : string; O_Password : string; O_DB : Z; O_PoolSize : Z;
  O_MinIdleConns : Z; O_ConnMaxLifetime : Duration; O_ConnMaxIdleTime : Duration;
  O_PoolTimeout : Duration; O_ReadTimeout : Duration; O_WriteTimeout : Duration;
}.

Inductive RedisCmd `{GoFloat} :=
  | CmdSet (key payload : string) (ttl : Duration)
  | CmdHSet (key : string) (fields : gmap string any)
  | CmdLPush (key : string) (data : gmap string any)
  | CmdRPush (key : string) (data : gmap string any)
  | CmdPublish (channel payload : string)
  | CmdZAdd (key : string) (score : float64) (member : gmap string any)
  | CmdExpire (key : string) (ttl : Duration).

(** go-redis: a command, a pipeline (an error, or the error of each of its commands), ping. *)
Class RedisClient `{GoFloat} (D : Type) := {
  redisNewClient : RedisOptions → D;
  redisPing : D → Time → result string;
  redisDo : D → RedisCmd → Time → D * Time * option string;
  redisPipeline : D → list RedisCmd → Time → D * Time * result (list (option string));
  redisClose : D → D * option string;
}.

Section Redis.
Context `{GoFloat} `{GoUnicode} {D : Type} `{!RedisClient D} (ParseDuration : string → option Duration).
Abbreviation RedisConnector := (DriverConnector RedisConnectorConfig D).
Implicit Types (rc : RedisConnector) (message : ConnMessage).

Definition parseRedisConfig (params : gmap string any) : result RedisConnectorConfig :=
  match as_string (params !! "host") with
  | None => Err "host is required"
  | Some host =>
      let dur := durationParam ParseDuration params in
      Ok (mkRedisConnectorConfig host (intParam params "port" 6379) (stringParam params "username" "")
            (stringParam params "password" "") (intParam params "database" 0)
            (intParam params "pool_size" 10) (intParam params "min_idle_conn" 1)
            (dur "max_conn_age" (30 * Minute)) (dur "pool_timeout" (4 * Second))
            (dur "idle_timeout" (5 * Minute)) (dur "read_timeout" (3 * Second))
            (dur "write_timeout" (3 * Second))
            (match as_string (params !! "command") with Some s => ToUpper s | None => "PUBLISH" end)
            (stringParam params "key" "mqtt:messages") (dur "ttl" Hour)
            (intParam params "batch_size" 1000) (boolParam params "use_tls" false)
            (match params !! "tls_config" with Some (VMap m) => Some m | _ => None end))
  end.

(** TLS is not configured, whatever the configuration says. *)
Definition redisOptions (c : RedisConnectorConfig) : RedisOptions :=
  mkRedisOptions (RD_Host c +:+ ":" +:+ pretty (RD_Port c))%string (RD_Username c) (RD_Password c)
    (RD_Database c) (RD_PoolSize c) (RD_MinIdleConn c) (RD_MaxConnAge c) (RD_IdleTimeout c)
    (RD_PoolTimeout c) (RD_ReadTimeout c) (RD_WriteTimeout c).

Definition RedisCreate (config : ConnectorConfig) (now : Time) : result RedisConnector :=
  match parseRedisConfig (CC_Parameters config) with
  | Err e => Err ("invalid Redis configuration: " +:+ e)%string
  | Ok c => Ok (mkDriverConnector (NewBaseConnector config now) c (redisNewClient (redisOptions c)))
  end.
Definition RedisValidateConfig (config : ConnectorConfig) : option string :=
  match parseRedisConfig (CC_Parameters config) with Err e => Some e | Ok _ => None end.

Definition RedisGetDefaultConfig : ConnectorConfig :=
  mkConnectorConfig "" "" ConnectorTypeRedis "" false
    (list_to_map
      [("host", VString "localhost"); ("port", VInt 6379); ("username", VString ""); ("password", VString "");
       ("database", VInt 0); ("pool_size", VInt 10); ("min_idle_conn", VInt 1); ("max_conn_age", VString "30m");
       ("pool_timeout", VString "4s"); ("idle_timeout", VString "5m"); ("read_timeout", VString "3s");
       ("write_timeout", VString "3s"); ("command", VString "PUBLISH"); ("key", VString "mqtt:messages");
       ("ttl", VString "1h"); ("batch_size", VInt 1000); ("use_tls", VBool false)])
    DefaultHealthCheckConfig DefaultRetryConfig (mkPoolConfig 0 0 0 0) [] zeroTime zeroTime.

Definition described (type description : string) (more : list (string * any)) : any :=
  schemaField ([("type", VString type); ("description", VString description)] ++ more).
Definition portField (what : string) (dflt : Z) : any :=
  described "integer" what [("default", VInt dflt); ("minimum", VInt 1); ("maximum", VInt 65535)].
Definition schemaObject (properties : list (string * any)) (required : list string) : any :=
  schemaField [("type", VString "object"); ("properties", schemaField properties);
               ("required", VSlice (VString <$> required))].

Definition RedisGetConfigSchema : any :=
  schemaObject
    [("host", described "string" "Redis server host" [("default", VString "localhost")]);
     ("port", portField "Redis server port" 6379);
     ("username", described "string" "Redis username (Redis 6.0+)" []);
     ("password", described "string" "Redis password" []);
     ("database", described "integer" "Redis database number"
        [("default", VInt 0); ("minimum", VInt 0); ("maximum", VInt 15)]);
     ("command", described "string" "Redis command to execute"
        [("enum", VSlice (VString <$> ["SET"; "HSET"; "LPUSH"; "RPUSH"; "PUBLISH"; "ZADD"]));
         ("default", VString "PUBLISH")]);
     ("key", described "string" "Redis key pattern" [("default", VString "mqtt:messages")]);
     ("ttl", described "string" "Time to live for stored data" [("default", VString "1h")]);
     ("use_tls", described "boolean" "Enable TLS connection" [("default", VBool false)])]
    ["host"].

Definition formatKey (c : RedisConnectorConfig) (topic : string) : string :=
  if topic <>s "" then
    if strings.Contains (RD_Key c) "{topic}" then ReplaceAll (RD_Key c) "{topic}" topic
    else (RD_Key c +:+ ":" +:+ topic)%string
  else RD_Key c.

Definition payloadText message : string := string_of_bytes (CM_Payload message).
Definition unixOf (t : Time) : Z := t / Second.

(** A command, and [Expire] after it when it succeeded. *)
Definition doAndExpire (c : RedisConnectorConfig) (cmd : RedisCmd) (key : string) (d : D) (start : Time)
    : D * Time * option string :=
  let '(d, now, err) := redisDo d cmd start in
  match err with
  | Some e => (d, now, Some e)
  | None =>
      if 0 <? RD_TTL c then
        let '(d, now, _) := redisDo d (CmdExpire key (RD_TTL c)) now in (d, now, None)
      else (d, now, None)
  end.

Definition recordFields message : gmap string any :=
  list_to_map [("topic", VString (CM_Topic message)); ("payload", VString (payloadText message));
               ("timestamp", VInt64 (unixOf (CM_Timestamp message)))].

Definition executeSet (c : RedisConnectorConfig) (d : D) message (start : Time) : D * Time * option string :=
  redisDo d (CmdSet (formatKey c (CM_Topic message)) (payloadText message) (RD_TTL c)) start.
Definition executeHSet (c : RedisConnectorConfig) (d : D) message (start : Time) : D * Time * option string :=
  let key := formatKey c "" in doAndExpire c (CmdHSet key (recordFields message)) key d start.
Definition executeListPush (c : RedisConnectorConfig) (d : D) message (start : Time) : D * Time * option string :=
  let key := formatKey c "" in
  let data := recordFields message in
  doAndExpire c (if RD_Command c =s "LPUSH" then CmdLPush key data else CmdRPush key data) key d start.
Definition executePublish (c : RedisConnectorConfig) (d : D) message (start : Time) : D * Time * option string :=
  redisDo d (CmdPublish (formatKey c (CM_Topic message)) (payloadText message)) start.
Definition executeZAdd (c : RedisConnectorConfig) (d : D) message (start : Time) : D * Time * option string :=
  let key := formatKey c "" in
  let member := list_to_map [("topic", VString (CM_Topic message)); ("payload", VString (payloadText message))] in
  doAndExpire c (CmdZAdd key (float_of_int (unixOf (CM_Timestamp message))) member) key d start.

Definition redisCall (c : RedisConnectorConfig) (d : D) message (start : Time) : D * Time * option string :=
  let command := RD_Command c in
  if command =s "SET" then executeSet c d message start
  else if command =s "HSET" then executeHSet c d message start
  else if (command =s "LPUSH") || (command =s "RPUSH") then executeListPush c d message start
  else if command =s "PUBLISH" then executePublish c d message start
  else if command =s "ZADD" then executeZAdd c d message start
  else (d, start, Some ("unsupported Redis command: " +:+ command)%string).

Definition RedisHealthCheck rc (now : Time) : option string :=
  match redisPing (dc_client rc) now with
  | Err e => Some ("Redis ping failed: " +:+ e)%string
  | Ok pong => if pong <>s "PONG" then Some ("unexpected ping response: " +:+ pong)%string else None
  end.

Definition RedisStart : RedisConnector → Time → outcome (RedisConnector * option string) :=
  driverStart RedisHealthCheck.
Definition RedisStop : RedisConnector → Time → outcome (RedisConnector * option string) :=
  driverStop redisClose.
Definition RedisRestart : RedisConnector → Time → outcome (RedisConnector * option string) :=
  restartWith RedisStop RedisStart.
Definition RedisSend rc message (start : Time) : outcome (RedisConnector * (option MessageResult * option string)) :=
  driverSend (redisCall (dc_config rc)) rc message start.

(** Commands other than SET and PUBLISH put nothing into the pipeline. *)
Definition pipelineCmd (c : RedisConnectorConfig) message : list RedisCmd :=
  if RD_Command c =s "SET"
  then [CmdSet (formatKey c (CM_Topic message)) (payloadText message) (RD_TTL c)]
  else if RD_Command c =s "PUBLISH"
  then [CmdPublish (formatKey c (CM_Topic message)) (payloadText message)]
  else [].

(** The loop over the answers of the pipeline; a result that no answer reaches stays nil, and
    an answer beyond the messages is an index out of range. *)
Fixpoint pipelineResults (messages : list ConnMessage) (cmds : list (option string)) (start now : Time)
    (bc : BaseConnector) : outcome (BaseConnector * list (option MessageResult)) :=
  match cmds, messages with
  | [], _ => Returns (bc, const None <$> messages)
  | _ :: _, [] => Panics
  | err :: cmds, message :: messages =>
      let! '(bc, result) := batchResult message err start now bc in
      let! '(bc, results) := pipelineResults messages cmds start now bc in
      Returns (bc, result :: results)
  end.

Definition RedisProcessBatch rc (messages : list ConnMessage) (start : Time)
    : outcome (RedisConnector * Time * (list (option MessageResult) * option string)) :=
  match messages with
  | [] => Returns (rc, start, ([], None))
  | _ =>
      let '(d, now, answer) := redisPipeline (dc_client rc) (flat_map (pipelineCmd (dc_config rc)) messages) start in
      let rc := put_client rc d in
      match answer with
      | Err e =>
          let! bc := setError e now (dc_base rc) in
          Returns (put_base rc bc, now, ((λ m, failedResult m e start) <$> messages, Some e))
      | Ok cmds =>
          let! '(bc, results) := pipelineResults messages cmds start now (dc_base rc) in
          Returns (put_base rc bc, now, (results, None))
      end
  end.

Definition RedisSendBatch rc (messages : list ConnMessage) (now : Time)
    : outcome (RedisConnector * (list (option MessageResult) * option string)) :=
  sendBatches RedisProcessBatch (RD_BatchSize (dc_config rc)) rc messages now.

Definition RedisClose : RedisConnector → Time → outcome (RedisConnector * option string) :=
  driverClose redisClose.

Definition RedisConnector_Connector : Connector RedisConnector :=
  driverConnector RedisHealthCheck redisClose (λ rc, redisCall (dc_config rc)) RedisSendBatch.

Definition RedisConnectorFactory : ConnectorFactory RedisConnector :=
  mkConnectorFactory ConnectorTypeRedis RedisCreate RedisValidateConfig RedisGetDefaultConfig RedisGetConfigSchema.
End Redis.

(** ** MySQL and PostgreSQL (mysql.go, postgresql.go)

    The two files differ in their settings, in the data source name and in the text of the
    default statement. *)

Record SQLConnectorConfig := mkSQLConnectorConfig {
  SQ_Host : string; SQ_Port : Z; SQ_Username : string; SQ_Password : string; SQ_Database : string;
  SQ_Schema : string;                    (* PostgreSQL only *)
  SQ_Table : string; SQ_MaxOpenConns : Z; SQ_MaxIdleConns : Z; SQ_ConnMaxLifetime : Duration;
  SQ_ConnMaxIdleTime : Duration;
  SQ_Charset : string;                   (* MySQL only *)
  SQ_SSLMode : string; SQ_Query : string; SQ_BatchSize : Z; SQ_Timeout : Duration;
}.

(** The arguments of a statement. *)
Inductive sqlArg `{GoFloat} := ArgValue (v : any) | ArgTime (t : Time).

(** database/sql with its driver: a transaction is part of the state. *)
Class SQLDriver `{GoFloat} (D : Type) := {
  sqlOpen : string → string → result D;
  sqlSetPool : Z → Z → Duration → Duration → D → D;
  sqlPing : D → Time → option string;
  sqlExec : D → string → list sqlArg → Time → D * Time * option string;
  sqlBeginTx : D → D * option string;
  sqlPrepare : D → string → D * option string;
  sqlStmtExec : D → list sqlArg → Time → D * Time * option string;
  sqlCommit : D → D * option string;
  sqlRollback : D → D;
  sqlClose : D → D * option string;
}.

Section SQL.
Context `{GoFloat} {D : Type} `{!SQLDriver D}.
Context (ParseDuration : string → option Duration) (Unmarshal : list byte → result any).
Abbreviation SQLConnector := (DriverConnector SQLConnectorConfig D).
Implicit Types (sc : SQLConnector) (message : ConnMessage).

Definition required (params : gmap string any) (key : string) : result string :=
  match as_string (params !! key) with Some s => Ok s | None => Err (key +:+ " is required")%string end.

(** The parameters that both read, in the order of their checks. *)
Definition parseSQLConfig (port : Z) (schema charset sslMode : string) (params : gmap string any)
    : result SQLConnectorConfig :=
  let? host := required params "host" in
  let? username := required params "username" in
  let? database := required params "database" in
  let? table := required params "table" in
  let dur := durationParam ParseDuration params in
  Ok (mkSQLConnectorConfig host (intParam params "port" port) username (stringParam params "password" "")
        database schema table (intParam params "max_open_conns" 10) (intParam params "max_idle_conns" 5)
        (dur "conn_max_lifetime" Hour) (dur "conn_max_idle_time" (10 * Minute)) charset
        (stringParam params "ssl_mode" sslMode) (stringParam params "query" "")
        (intParam params "batch_size" 1000) (dur "timeout" (30 * Second))).

Definition parseMySQLConfig (params : gmap string any) : result SQLConnectorConfig :=
  parseSQLConfig 3306 "" (stringParam params "charset" "utf8mb4") "disable" params.
Definition parsePostgreSQLConfig (params : gmap string any) : result SQLConnectorConfig :=
  parseSQLConfig 5432 (stringParam params "schema" "public") "" "disable" params.

Definition mysqlDSN (c : SQLConnectorConfig) : string :=
  (SQ_Username c +:+ ":" +:+ SQ_Password c +:+ "@tcp(" +:+ SQ_Host c +:+ ":" +:+ pretty (SQ_Port c) +:+ ")/"
   +:+ SQ_Database c +:+ "?charset=" +:+ SQ_Charset c +:+ "&parseTime=true"
   +:+ (if SQ_SSLMode c <>s "" then "&tls=" +:+ SQ_SSLMode c else ""))%string.
Definition postgresDSN (c : SQLConnectorConfig) : string :=
  ("host=" +:+ SQ_Host c +:+ " port=" +:+ pretty (SQ_Port c) +:+ " user=" +:+ SQ_Username c +:+ " password="
   +:+ SQ_Password c +:+ " dbname=" +:+ SQ_Database c +:+ " sslmode=" +:+ SQ_SSLMode c)%string.

Definition initConnection (driver product dsn : string) (c : SQLConnectorConfig) : result D :=
  match sqlOpen driver dsn with
  | Err e => Err ("failed to open " +:+ product +:+ " connection: " +:+ e)%string
  | Ok d => Ok (sqlSetPool (SQ_MaxOpenConns c) (SQ_MaxIdleConns c) (SQ_ConnMaxLifetime c) (SQ_ConnMaxIdleTime c) d)
  end.

Definition sqlCreate (product : string) (parse : gmap string any → result SQLConnectorConfig)
    (init : SQLConnectorConfig → result D) (config : ConnectorConfig) (now : Time) : result SQLConnector :=
  match parse (CC_Parameters config) with
  | Err e => Err ("invalid " +:+ product +:+ " configuration: " +:+ e)%string
  | Ok c =>
      match init c with
      | Err e => Err ("failed to initialize " +:+ product +:+ " connection: " +:+ e)%string
      | Ok d => Ok (mkDriverConnector (NewBaseConnector config now) c d)
      end
  end.
Definition mysqlInit (c : SQLConnectorConfig) : result D := initConnection "mysql" "MySQL" (mysqlDSN c) c.
Definition postgresInit (c : SQLConnectorConfig) : result D :=
  initConnection "postgres" "PostgreSQL" (postgresDSN c) c.
Definition MySQLCreate : ConnectorConfig → Time → result SQLConnector :=
  sqlCreate "MySQL" parseMySQLConfig mysqlInit.
Definition PostgreSQLCreate : ConnectorConfig → Time → result SQLConnector :=
  sqlCreate "PostgreSQL" parsePostgreSQLConfig postgresInit.
Definition MySQLValidateConfig (config : ConnectorConfig) : option string :=
  match parseMySQLConfig (CC_Parameters config) with Err e => Some e | Ok _ => None end.
Definition PostgreSQLValidateConfig (config : ConnectorConfig) : option string :=
  match parsePostgreSQLConfig (CC_Parameters config) with Err e => Some e | Ok _ => None end.

Definition sqlDefaults (port : Z) (user query : string) (more : list (string * any)) : gmap string any :=
  list_to_map
    ([("host", VString "localhost"); ("port", VInt port); ("username", VString user); ("password", VString "");
      ("database", VString "emqx"); ("table", VString "mqtt_messages"); ("max_open_conns", VInt 10);
      ("max_idle_conns", VInt 5); ("conn_max_lifetime", VString "1h"); ("conn_max_idle_time", VString "10m");
      ("ssl_mode", VString "disable"); ("query", VString query); ("batch_size", VInt 1000);
      ("timeout", VString "30s")] ++ more).
Definition sqlDefaultConfig (type : string) (params : gmap string any) : ConnectorConfig :=
  mkConnectorConfig "" "" type "" false params DefaultHealthCheckConfig DefaultRetryConfig
    (mkPoolConfig 0 0 0 0) [] zeroTime zeroTime.
Definition MySQLGetDefaultConfig : ConnectorConfig :=
  sqlDefaultConfig ConnectorTypeMySQL
    (sqlDefaults 3306 "root" "INSERT INTO mqtt_messages (topic, payload, qos, timestamp) VALUES (?, ?, ?, ?)"
       [("charset", VString "utf8mb4")]).
Definition PostgreSQLGetDefaultConfig : ConnectorConfig :=
  sqlDefaultConfig ConnectorTypePostgreSQL
    (sqlDefaults 5432 "postgres"
       "INSERT INTO mqtt_messages (topic, payload, qos, timestamp) VALUES ($1, $2, $3, $4)"
       [("schema", VString "public")]).

Definition sqlSchema (product : string) (port : Z) (more : list (string * any)) : any :=
  schemaObject
    ([("host", described "string" (product +:+ " server host")%string [("default", VString "localhost")]);
      ("port", portField (product +:+ " server port")%string port);
      ("username", described "string" (product +:+ " username")%string []);
      ("password", described "string" (product +:+ " password")%string []);
      ("database", described "string" (product +:+ " database name")%string []);
      ("table", described "string" "Target table name" []);
      ("query", described "string" "SQL query template for inserting messages" []);
      ("ssl_mode", described "string" "SSL mode for connection"
         [("enum", VSlice (VString <$> ["disable"; "require"; "verify-ca"; "verify-full"]));
          ("default", VString "disable")])] ++ more)
    ["host"; "username"; "database"; "table"].
Definition MySQLGetConfigSchema : any := sqlSchema "MySQL" 3306 [].
Definition PostgreSQLGetConfigSchema : any :=
  sqlSchema "PostgreSQL" 5432
    [("schema", described "string" "PostgreSQL schema name" [("default", VString "public")])].

Definition mysqlInsert (c : SQLConnectorConfig) : string :=
  ("INSERT INTO " +:+ SQ_Table c +:+ " (topic, payload, timestamp) VALUES (?, ?, ?)")%string.
Definition postgresInsert (c : SQLConnectorConfig) : string :=
  let tableName := if (SQ_Schema c <>s "") && (SQ_Schema c <>s "public")
                   then (SQ_Schema c +:+ "." +:+ SQ_Table c)%string else SQ_Table c in
  ("INSERT INTO " +:+ tableName +:+ " (topic, payload, timestamp) VALUES ($1, $2, $3)")%string.

(** A payload that is JSON is handed over as its value. *)
Definition payloadData message : any :=
  match Unmarshal (CM_Payload message) with
  | Ok v => v
  | Err _ => VString (string_of_bytes (CM_Payload message))
  end.
Definition sqlArgs (c : SQLConnectorConfig) message : list sqlArg :=
  [ArgValue (VString (CM_Topic message)); ArgValue (payloadData message)]
  ++ (if SQ_Query c <>s "" then [ArgValue (VInt 0)] else []) ++ [ArgTime (CM_Timestamp message)].
Definition statement (insert : SQLConnectorConfig → string) (c : SQLConnectorConfig) : string :=
  if SQ_Query c <>s "" then SQ_Query c else insert c.

Definition sqlHealthCheck sc (now : Time) : option string :=
  match sqlPing (dc_client sc) now with
  | Some e => Some ("database ping failed: " +:+ e)%string
  | None => None
  end.
Definition sqlStart : SQLConnector → Time → outcome (SQLConnector * option string) := driverStart sqlHealthCheck.
Definition sqlStop : SQLConnector → Time → outcome (SQLConnector * option string) := driverStop sqlClose.
Definition sqlRestart : SQLConnector → Time → outcome (SQLConnector * option string) :=
  restartWith sqlStop sqlStart.

Definition sqlSend (insert : SQLConnectorConfig → string) sc message (start : Time)
    : outcome (SQLConnector * (option MessageResult * option string)) :=
  driverSend (λ d m start, sqlExec d (statement insert (dc_config sc)) (sqlArgs (dc_config sc) m) start)
    sc message start.

(** The statements of a batch. *)
Fixpoint execBatch (c : SQLConnectorConfig) (messages : list ConnMessage) (start now : Time) (d : D)
    (bc : BaseConnector) : outcome (D * Time * BaseConnector * list (option MessageResult)) :=
  match messages with
  | [] => Returns (d, now, bc, [])
  | message :: messages =>
      let '(d, now, err) := sqlStmtExec d (sqlArgs c message) now in
      let! '(bc, result) := batchResult message err start now bc in
      let! '(d, now, bc, results) := execBatch c messages start now d bc in
      Returns (d, now, bc, result :: results)
  end.

(** When the commit fails, the successful results become failures; the counters stay. *)
Definition uncommitted (e : string) (r : option MessageResult) : option MessageResult :=
  (λ r, if MR_Success r then mkMessageResult (MR_MessageID r) false e (MR_Latency r) (MR_Timestamp r) else r) <$> r.

Definition sqlProcessBatch (insert : SQLConnectorConfig → string) sc (messages : list ConnMessage) (start : Time)
    : outcome (SQLConnector * Time * (list (option MessageResult) * option string)) :=
  let allFailed e := (λ m, failedResult m e start) <$> messages in
  match messages with
  | [] => Returns (sc, start, ([], None))
  | _ =>
      let '(d, err) := sqlBeginTx (dc_client sc) in
      match err with
      | Some e =>
          let! bc := setError e start (dc_base sc) in
          Returns (put_base (put_client sc d) bc, start, (allFailed e, Some e))
      | None =>
          let '(d, err) := sqlPrepare d (statement insert (dc_config sc)) in
          match err with
          | Some e =>
              let! bc := setError e start (dc_base sc) in
              Returns (put_base (put_client sc (sqlRollback d)) bc, start, (allFailed e, Some e))
          | None =>
              let! '(d, now, bc, results) := execBatch (dc_config sc) messages start start d (dc_base sc) in
              let '(d, err) := sqlCommit d in
              let sc := put_client sc (sqlRollback d) in
              match err with
              | Some e =>
                  let! bc := setError e now bc in
                  Returns (put_base sc bc, now, (uncommitted e <$> results, Some e))
              | None => Returns (put_base sc bc, now, (results, None))
              end
          end
      end
  end.

Definition sqlSendBatch (insert : SQLConnectorConfig → string) sc (messages : list ConnMessage) (now : Time)
    : outcome (SQLConnector * (list (option MessageResult) * option string)) :=
  sendBatches (sqlProcessBatch insert) (SQ_BatchSize (dc_config sc)) sc messages now.
Definition sqlConnectorClose : SQLConnector → Time → outcome (SQLConnector * option string) := driverClose sqlClose.

Definition sqlConnector (insert : SQLConnectorConfig → string) : Connector SQLConnector :=
  driverConnector sqlHealthCheck sqlClose
    (λ sc d m start, sqlExec d (statement insert (dc_config sc)) (sqlArgs (dc_config sc) m) start)
    (sqlSendBatch insert).

(** The methods of the two connectors. *)
Definition MySQLSend := sqlSend mysqlInsert.
Definition MySQLProcessBatch := sqlProcessBatch mysqlInsert.
Definition MySQLSendBatch := sqlSendBatch mysqlInsert.
Definition PostgreSQLStart := sqlStart.
Definition PostgreSQLStop := sqlStop.
Definition PostgreSQLRestart := sqlRestart.
Definition PostgreSQLHealthCheck := sqlHealthCheck.
Definition PostgreSQLSend := sqlSend postgresInsert.
Definition PostgreSQLProcessBatch := sqlProcessBatch postgresInsert.
Definition PostgreSQLSendBatch := sqlSendBatch postgresInsert.
Definition PostgreSQLClose := sqlConnectorClose.
Definition MySQLConnector_Connector : Connector SQLConnector := sqlConnector mysqlInsert.
Definition PostgreSQLConnector_Connector : Connector SQLConnector := sqlConnector postgresInsert.

Definition MySQLConnectorFactory : ConnectorFactory SQLConnector :=
  mkConnectorFactory ConnectorTypeMySQL MySQLCreate MySQLValidateConfig MySQLGetDefaultConfig MySQLGetConfigSchema.
Definition PostgreSQLConnectorFactory : ConnectorFactory SQLConnector :=
  mkConnectorFactory ConnectorTypePostgreSQL PostgreSQLCreate PostgreSQLValidateConfig PostgreSQLGetDefaultConfig
    PostgreSQLGetConfigSchema.
End SQL.

(** ** Kafka (kafka.go) *)

Record KafkaConnectorConfig := mkKafkaConnectorConfig {
  KF_Brokers : list string; KF_Topic : string; KF_Partition : Z; KF_RequiredAcks : Z; KF_BatchSize : Z;
  KF_BatchTimeout : Duration; KF_ReadTimeout : Duration; KF_WriteTimeout : Duration;
  KF_CompressionType : string; KF_MaxMessageBytes : Z; KF_UseSSL : bool; KF_SASLMechanism : string;
  KF_SASLUsername : string; KF_SASLPassword : string; KF_TopicTemplate : string; KF_KeyTemplate : string;
  KF_HeaderTemplate : gmap string string;
}.

Inductive Compression := NoCompression | Gzip | Snappy | Lz4 | Zstd.
(** [kafka.Writer] as [initWriter] sets it; SSL and SASL settings do not reach it. *)
Record WriterConfig := mkWriterConfig {
  WC_Addr : list string; WC_Topic : string; WC_RequiredAcks : Z; WC_BatchSize : Z;
  WC_BatchTimeout : Duration; WC_ReadTimeout : Duration; WC_WriteTimeout : Duration;
  WC_Compression : Compression;
}.
Record KafkaMessage := mkKafkaMessage {
  KM_Topic : string; KM_Key : string; KM_Value : list byte; KM_Headers : list (string * string);
}.

Class KafkaClient (D : Type) := {
  kafkaNewWriter : WriterConfig → D;
  kafkaDial : string → Time → option string;
  kafkaReadPartitions : string → string → Time → result Z;
  kafkaWrite : D → list KafkaMessage → Time → D * Time * option string;
  kafkaClose : D → D * option string;
}.

Section Kafka.
Context `{GoFloat} {D : Type} `{!KafkaClient D}.
Context (ParseDuration : string → option Duration) (formatRFC3339 : Time → string).
Abbreviation KafkaConnector := (DriverConnector KafkaConnectorConfig D).
Implicit Types (kc : KafkaConnector) (message : ConnMessage).

Definition comma : Ascii.ascii := Ascii.ascii_of_nat 44.
Definition parseBrokers (v : option any) : list string :=
  match v with
  | Some (VSlice l) => (λ b, match b with VString s => s | _ => "" end) <$> l
  | Some (VString s) => strings.Split s comma
  | _ => []
  end.

Definition parseKafkaConfig (params : gmap string any) : result KafkaConnectorConfig :=
  let brokers := parseBrokers (params !! "brokers") in
  match brokers with
  | [] => Err "brokers are required"
  | _ =>
      let? topic := required params "topic" in
      let dur := durationParam ParseDuration params in
      Ok (mkKafkaConnectorConfig brokers topic (intParam params "partition" 0) (intParam params "required_acks" 1)
            (intParam params "batch_size" 100) (dur "batch_timeout" Second) (dur "read_timeout" (10 * Second))
            (dur "write_timeout" (10 * Second)) (stringParam params "compression_type" "none")
            (intParam params "max_message_bytes" 1000000) (boolParam params "use_ssl" false)
            (stringParam params "sasl_mechanism" "") (stringParam params "sasl_username" "")
            (stringParam params "sasl_password" "") (stringParam params "topic_template" "")
            (stringParam params "key_template" "")
            (match params !! "header_template" with
             | Some (VMap m) => omap (λ v, match v with VString s => Some s | _ => None end) m
             | _ => ∅
             end))
  end.

Definition initWriter (c : KafkaConnectorConfig) : D :=
  let t := KF_CompressionType c in
  kafkaNewWriter (mkWriterConfig (KF_Brokers c) (KF_Topic c) (KF_RequiredAcks c) (KF_BatchSize c)
    (KF_BatchTimeout c) (KF_ReadTimeout c) (KF_WriteTimeout c)
    (if t =s "gzip" then Gzip else if t =s "snappy" then Snappy else if t =s "lz4" then Lz4
     else if t =s "zstd" then Zstd else NoCompression)).

Definition KafkaCreate (config : ConnectorConfig) (now : Time) : result KafkaConnector :=
  match parseKafkaConfig (CC_Parameters config) with
  | Err e => Err ("invalid Kafka configuration: " +:+ e)%string
  | Ok c => Ok (mkDriverConnector (NewBaseConnector config now) c (initWriter c))
  end.
Definition KafkaValidateConfig (config : ConnectorConfig) : option string :=
  match parseKafkaConfig (CC_Parameters config) with Err e => Some e | Ok _ => None end.

Definition KafkaGetDefaultConfig : ConnectorConfig :=
  mkConnectorConfig "" "" ConnectorTypeKafka "" false
    (list_to_map
      [("brokers", VSlice [VString "localhost:9092"]); ("topic", VString "mqtt-messages"); ("partition", VInt 0);
       ("required_acks", VInt 1); ("batch_size", VInt 100); ("batch_timeout", VString "1s");
       ("read_timeout", VString "10s"); ("write_timeout", VString "10s"); ("compression_type", VString "none");
       ("max_message_bytes", VInt 1000000); ("use_ssl", VBool false); ("sasl_mechanism", VString "");
       ("sasl_username", VString ""); ("sasl_password", VString ""); ("topic_template", VString "");
       ("key_template", VString ""); ("header_template", VMap ∅)])
    DefaultHealthCheckConfig DefaultRetryConfig (mkPoolConfig 0 0 0 0) [] zeroTime zeroTime.

Definition KafkaGetConfigSchema : any :=
  schemaObject
    [("brokers", described "array" "Kafka broker addresses"
        [("items", schemaField [("type", VString "string")]); ("default", VSlice [VString "localhost:9092"])]);
     ("topic", described "string" "Kafka topic name" [("default", VString "mqtt-messages")]);
     ("partition", described "integer" "Target partition (use -1 for automatic)" [("default", VInt 0)]);
     ("required_acks", described "integer" "Required acknowledgments (0=none, 1=leader, -1=all)"
        [("enum", VSlice [VInt (-1); VInt 0; VInt 1]); ("default", VInt 1)]);
     ("compression_type", described "string" "Compression algorithm"
        [("enum", VSlice (VString <$> ["none"; "gzip"; "snappy"; "lz4"; "zstd"])); ("default", VString "none")]);
     ("use_ssl", described "boolean" "Enable SSL/TLS encryption" [("default", VBool false)]);
     ("sasl_mechanism", described "string" "SASL authentication mechanism"
        [("enum", VSlice (VString <$> [""; "PLAIN"; "SCRAM-SHA-256"; "SCRAM-SHA-512"]))]);
     ("topic_template", described "string" "Topic template with placeholders" []);
     ("key_template", described "string" "Message key template" [])]
    ["brokers"; "topic"].

(** The brokers are not empty: [parseKafkaConfig] has refused that. *)
Definition KafkaHealthCheck kc (now : Time) : option string :=
  let c := dc_config kc in
  let broker := default "" (head (KF_Brokers c)) in
  match kafkaDial broker now with
  | Some e => Some ("failed to connect to Kafka broker: " +:+ e)%string
  | None =>
      match kafkaReadPartitions broker (KF_Topic c) now with
      | Err e => Some ("failed to read topic partitions: " +:+ e)%string
      | Ok n => if n =? 0 then Some ("topic " +:+ KF_Topic c +:+ " has no partitions")%string else None
      end
  end.
Definition KafkaStart : KafkaConnector → Time → outcome (KafkaConnector * option string) :=
  driverStart KafkaHealthCheck.
Definition KafkaStop : KafkaConnector → Time → outcome (KafkaConnector * option string) :=
  driverStop kafkaClose.
Definition KafkaRestart : KafkaConnector → Time → outcome (KafkaConnector * option string) :=
  restartWith KafkaStop KafkaStart.

Definition formatTemplate (template : string) message : string :=
  let result := ReplaceAll template "{topic}" (CM_Topic message) in
  let result := ReplaceAll result "{message_id}" (CM_ID message) in
  let result := ReplaceAll result "{timestamp}" (formatRFC3339 (CM_Timestamp message)) in
  go_range (λ k v result, ReplaceAll result ("{header." +:+ k +:+ "}")%string v) (CM_Headers message) result.

Definition kafkaMessage (c : KafkaConnectorConfig) message : KafkaMessage :=
  mkKafkaMessage
    (if KF_TopicTemplate c <>s "" then formatTemplate (KF_TopicTemplate c) message else "")
    (if KF_KeyTemplate c <>s "" then formatTemplate (KF_KeyTemplate c) message else "")
    (CM_Payload message)
    (go_range (λ k v l, l ++ [(k, v)]) (CM_Headers message)
       (go_range (λ k v l, l ++ [(k, formatTemplate v message)]) (KF_HeaderTemplate c) [])).

Definition KafkaSend kc message (start : Time)
    : outcome (KafkaConnector * (option MessageResult * option string)) :=
  driverSend (λ d m start, kafkaWrite d [kafkaMessage (dc_config kc) m] start) kc message start.

(** One result per message, all with the outcome of the one write. *)
Fixpoint kafkaResults (messages : list ConnMessage) (err : option string) (latency : Duration) (now : Time)
    (bc : BaseConnector) : outcome (BaseConnector * list (option MessageResult)) :=
  match messages with
  | [] => Returns (bc, [])
  | message :: messages =>
      let! bc :=
        match err with
        | Some e => let! bc := setError e now bc in Returns (recordDroppedMessage bc)
        | None => let! bc := recordSuccess latency now bc in Returns (recordSentMessage bc)
        end in
      let! '(bc, results) := kafkaResults messages err latency now bc in
      Returns (bc, Some (mkMessageResult (CM_ID message) (negb (bool_decide (is_Some err))) (default "" err)
                           latency now) :: results)
  end.

Definition KafkaSendBatch kc (messages : list ConnMessage) (start : Time)
    : outcome (KafkaConnector * (list (option MessageResult) * option string)) :=
  match messages with
  | [] => Returns (kc, ([], None))
  | _ =>
      let '(d, now, err) := kafkaWrite (dc_client kc) (kafkaMessage (dc_config kc) <$> messages) start in
      let kc := put_client kc d in
      let! '(bc, results) := kafkaResults messages err (now - start) now (dc_base kc) in
      Returns (put_base kc bc, (results, None))
  end.

Definition KafkaClose : KafkaConnector → Time → outcome (KafkaConnector * option string) := driverClose kafkaClose.

Definition KafkaConnector_Connector : Connector KafkaConnector :=
  driverConnector KafkaHealthCheck kafkaClose
    (λ kc d m start, kafkaWrite d [kafkaMessage (dc_config kc) m] start) KafkaSendBatch.

Definition KafkaConnectorFactory : ConnectorFactory KafkaConnector :=
  mkConnectorFactory ConnectorTypeKafka KafkaCreate KafkaValidateConfig KafkaGetDefaultConfig KafkaGetConfigSchema.
End Kafka.
