(* ===== verification/ConnRegistry.v ===== *)
(** * The registered connectors (pkg/connector/registry.go)

    A value of the [Connector] interface is a connector of one of the registered types: the sum
    of their models, with the methods of the side it is on.  The manager of [Connector.v] and
    its theorems apply to it, since every connector satisfies the laws of [ConnManager.v]. *)

From S2P Require Import Prelude GoLib GoValue Connector ConnHTTP ConnProps ConnManager ConnDrivers.
Local Open Scope emqx_scope.
Local Open Scope Z_scope.

(** ** Interface values *)

Section Sum.
Context `{GoFloat} {A B : Type} (ca : Connector A) (cb : Connector B).

Definition inject {X Y T} (f : X → Y) (o : outcome (X * T)) : outcome (Y * T) :=
  let! '(x, t) := o in Returns (f x, t).

Definition sumConnector : Connector (A + B) := {|
  Start c now := match c with inl a => inject inl (Start a now) | inr b => inject inr (Start b now) end;
  Stop c now := match c with inl a => inject inl (Stop a now) | inr b => inject inr (Stop b now) end;
  Restart c now := match c with inl a => inject inl (Restart a now) | inr b => inject inr (Restart b now) end;
  con_Status c now := match c with inl a => con_Status a now | inr b => con_Status b now end;
  HealthCheck c now := match c with inl a => HealthCheck a now | inr b => HealthCheck b now end;
  con_IsRunning c := match c with inl a => con_IsRunning a | inr b => con_IsRunning b end;
  Send c m now := match c with inl a => inject inl (Send a m now) | inr b => inject inr (Send b m now) end;
  SendBatch c ms now :=
    match c with inl a => inject inl (SendBatch a ms now) | inr b => inject inr (SendBatch b ms now) end;
  con_GetConfig c := match c with inl a => con_GetConfig a | inr b => con_GetConfig b end;
  con_UpdateConfig c config now :=
    match c with
    | inl a => inject inl (con_UpdateConfig a config now)
    | inr b => inject inr (con_UpdateConfig b config now)
    end;
  con_GetMetrics c := match c with inl a => con_GetMetrics a | inr b => con_GetMetrics b end;
  con_ResetMetrics c :=
    match c with
    | inl a => let! a := con_ResetMetrics a in Returns (inl a)
    | inr b => let! b := con_ResetMetrics b in Returns (inr b)
    end;
  Close c now := match c with inl a => inject inl (Close a now) | inr b => inject inr (Close b now) end;
|}.
End Sum.

(** A factory whose connectors are seen as interface values. *)
Definition mapFactory `{GoFloat} {A B} (f : A → B) (fa : ConnectorFactory A) : ConnectorFactory B :=
  mkConnectorFactory (f_Type fa)
    (λ config now, match f_Create fa config now with Ok a => Ok (f a) | Err e => Err e end)
    (f_ValidateConfig fa) (f_GetDefaultConfig fa) (f_GetConfigSchema fa).

(** ** The registry *)

Section Registry.
Context `{GoFloat} `{GoUnicode}.
Context (ParseDuration : string → option Duration) (urlParse : string → option string)
  (newRequest : string → string → option string)
  (httpDo : Time → HTTPRequest → Time * result (Z * string))
  (CanonicalHeaderKey : string → string) (basicAuthHeader : string → string → string)
  (Unmarshal : list byte → result any) (formatRFC3339 : Time → string).
Context {DS DR DK : Type} `{!SQLDriver DS} `{!RedisClient DR} `{!KafkaClient DK}.

Abbreviation MySQLConnector := (DriverConnector SQLConnectorConfig DS).
Abbreviation PostgreSQLConnector := (DriverConnector SQLConnectorConfig DS).
Abbreviation AnyConnector :=
  (HTTPConnector + (MySQLConnector + (PostgreSQLConnector +
    (DriverConnector RedisConnectorConfig DR + DriverConnector KafkaConnectorConfig DK))))%type.

Definition anyConnector : Connector AnyConnector :=
  sumConnector (HTTPConnector_Connector newRequest httpDo CanonicalHeaderKey basicAuthHeader)
    (sumConnector (MySQLConnector_Connector Unmarshal)
      (sumConnector (PostgreSQLConnector_Connector Unmarshal)
        (sumConnector RedisConnector_Connector (KafkaConnector_Connector formatRFC3339)))).

Definition RegisterDefaultFactories (manager : ConnectorManager AnyConnector) : ConnectorManager AnyConnector :=
  let manager := RegisterFactory (mapFactory inl (HTTPConnectorFactory ParseDuration urlParse)) manager in
  let manager := RegisterFactory (mapFactory (inr ∘ inl) (MySQLConnectorFactory ParseDuration)) manager in
  let manager := RegisterFactory (mapFactory (inr ∘ inr ∘ inl) (PostgreSQLConnectorFactory ParseDuration)) manager in
  let manager := RegisterFactory (mapFactory (inr ∘ inr ∘ inr ∘ inl) (RedisConnectorFactory ParseDuration)) manager in
  RegisterFactory (mapFactory (inr ∘ inr ∘ inr ∘ inr) (KafkaConnectorFactory ParseDuration)) manager.

Definition GetRegisteredConnectorTypes : list string :=
  [ConnectorTypeHTTP; ConnectorTypeMySQL; ConnectorTypePostgreSQL; ConnectorTypeRedis; ConnectorTypeKafka].

Definition CreateDefaultConnectorManager : ConnectorManager AnyConnector :=
  RegisterDefaultFactories NewConnectorManager.
End Registry.

(** ** The laws *)

Section DriverLaws.
Context `{GoFloat} {Cfg D : Type}.
Implicit Types c : DriverConnector Cfg D.

Definition driverID c : string := baseID (dc_base c).

Lemma lift_base_ID {X} c (o : outcome (BaseConnector * X)) c' x :
  (∀ bc x, o = Returns (bc, x) → baseID bc = baseID (dc_base c)) →
  lift_base c o = Returns (c', x) → driverID c' = driverID c.
Proof. unfold lift_base. intros Ho E. destruct o as [[bc y]| |]; simplify_eq/=. by eapply Ho. Qed.

Lemma driverStart_ID health c now c' err : driverStart health c now = Returns (c', err) → driverID c' = driverID c.
Proof. apply lift_base_ID. intros. by eapply startWith_ID. Qed.

Lemma driverStop_ID close c now c' err : driverStop close c now = Returns (c', err) → driverID c' = driverID c.
Proof.
  unfold driverStop. intros E. apply outcome_bind_Returns in E as (running & _ & E).
  destruct running; cbn [negb] in E; [|by simplify_eq]. destruct (close (dc_client c)) as [d e].
  revert E. apply (lift_base_ID (put_client c d)). intros. by eapply stopWith_ID.
Qed.

Lemma driverSend_ID call c m now c' r : driverSend call c m now = Returns (c', r) → driverID c' = driverID c.
Proof.
  unfold driverSend. intros E. apply outcome_bind_Returns in E as (running & _ & E).
  destruct running; cbn [negb] in E; [|by simplify_eq]. destruct (call (dc_client c) m now) as [[d t] e].
  revert E. apply (lift_base_ID (put_client c d)). intros bc x.
  destruct e; [apply sendFailed_ID | apply sendSucceeded_ID].
Qed.

#[export] Program Instance driver_laws health close send sendBatch :
  ConnectorLaws (DriverConnector Cfg D) (Connector0 := driverConnector health close send sendBatch) := {|
  connID := driverID
|}.
Next Obligation. intros ? ? ? ? c config E. apply withLock_Returns in E as ->. done. Qed.
Next Obligation. intros ? ? ? ? c now c' err. apply driverStart_ID. Qed.
Next Obligation. intros ? ? ? ? c now c' err. apply driverStop_ID. Qed.
Next Obligation.
  intros ? ? ? ? c now c' err E. simpl in E. unfold restartWith in E.
  apply outcome_bind_Returns in E as ([c1 e1] & E1 & E). apply driverStop_ID in E1.
  destruct e1; [by simplify_eq|]. apply driverStart_ID in E. congruence.
Qed.
Next Obligation.
  intros ? ? ? ? c config now c' err. apply lift_base_ID. intros bc a E. apply withLock_Returns in E.
  cbv zeta in E. unfold baseID. repeat case_match; simplify_eq; bool_prop; simpl; congruence.
Qed.
Next Obligation. intros ? ? ? ? c message now c' r. apply driverSend_ID. Qed.
Next Obligation.
  intros ? ? ? ? c now c' err E. simpl in E. unfold driverClose in E.
  apply outcome_bind_Returns in E as (bc & Eb & E). simplify_eq. unfold BaseClose in Eb. apply setState_ID in Eb. done.
Qed.
End DriverLaws.

Section SumLaws.
Context `{GoFloat} {A B : Type} {ca : Connector A} {cb : Connector B}.
Context {la : ConnectorLaws A} {lb : ConnectorLaws B}.

Definition sumID (c : A + B) : string := match c with inl a => connID a | inr b => connID b end.

Lemma inject_Returns {X Y T} (f : X → Y) o y (t : T) :
  inject f o = Returns (y, t) → ∃ x, o = Returns (x, t) ∧ y = f x.
Proof. unfold inject. destruct o as [[x t']| |]; simpl; intros; simplify_eq. by exists x. Qed.

(** A method of the sum is a method of the side. *)
Ltac side E lem := match type of E with
  | match ?c with inl _ => _ | inr _ => _ end = _ =>
      destruct c; apply inject_Returns in E as (? & E & ->); simpl; by eapply lem
  end.
#[export] Program Instance sum_laws : ConnectorLaws (A + B) (Connector0 := sumConnector ca cb) := {|
  connID := sumID
|}.
Next Obligation. intros [a|b] config E; simpl in *; by eapply GetConfig_ID. Qed.
Next Obligation. intros c now c' err E. simpl in E. side E @Start_ID. Qed.
Next Obligation. intros c now c' err E. simpl in E. side E @Stop_ID. Qed.
Next Obligation. intros c now c' err E. simpl in E. side E @Restart_ID. Qed.
Next Obligation. intros c config now c' err E. simpl in E. side E @UpdateConfig_ID. Qed.
Next Obligation. intros c m now c' r E. simpl in E. side E @Send_ID. Qed.
Next Obligation. intros c now c' err E. simpl in E. side E @Close_ID. Qed.
End SumLaws.

(** ** The default manager *)

Section RegistryProps.
Context `{GoFloat} `{GoUnicode}.
Context (ParseDuration : string → option Duration) (urlParse : string → option string)
  (newRequest : string → string → option string)
  (httpDo : Time → HTTPRequest → Time * result (Z * string))
  (CanonicalHeaderKey : string → string) (basicAuthHeader : string → string → string)
  (Unmarshal : list byte → result any) (formatRFC3339 : Time → string).
Context {DS DR DK : Type} `{!SQLDriver DS} `{!RedisClient DR} `{!KafkaClient DK}.

Local Instance registered : Connector _ :=
  anyConnector newRequest httpDo CanonicalHeaderKey basicAuthHeader Unmarshal formatRFC3339
    (DS := DS) (DR := DR) (DK := DK).
Local Instance registered_laws : ConnectorLaws _ :=
  sum_laws (la := HTTPConnector_laws newRequest httpDo CanonicalHeaderKey basicAuthHeader)
    (lb := sum_laws (la := driver_laws _ _ _ _)
      (lb := sum_laws (la := driver_laws _ _ _ _)
        (lb := sum_laws (la := driver_laws _ _ _ _) (lb := driver_laws _ _ _ _)))).

Abbreviation defaultManager :=
  (CreateDefaultConnectorManager ParseDuration urlParse (DS := DS) (DR := DR) (DK := DK)).

(** The type of the connector behind an interface value. *)
Definition typeOf (c : HTTPConnector + (DriverConnector SQLConnectorConfig DS + (DriverConnector SQLConnectorConfig DS +
    (DriverConnector RedisConnectorConfig DR + DriverConnector KafkaConnectorConfig DK)))) : string :=
  match c with
  | inl _ => ConnectorTypeHTTP
  | inr (inl _) => ConnectorTypeMySQL
  | inr (inr (inl _)) => ConnectorTypePostgreSQL
  | inr (inr (inr (inl _))) => ConnectorTypeRedis
  | inr (inr (inr (inr _))) => ConnectorTypeKafka
  end.

Lemma default_factories :
  ∃ f1 f2 f3 f4 f5, factories defaultManager =
    <[ConnectorTypeKafka := f5]> (<[ConnectorTypeRedis := f4]> (<[ConnectorTypePostgreSQL := f3]>
      (<[ConnectorTypeMySQL := f2]> (<[ConnectorTypeHTTP := f1]> ∅)))) ∧
    connectors defaultManager = ∅ ∧
    Forall (λ f, factory_ok f ∧ ∀ config now c, f_Create f config now = Ok c → typeOf c = f_Type f)
      [f1; f2; f3; f4; f5] ∧ f_Type <$> [f1; f2; f3; f4; f5] = GetRegisteredConnectorTypes.
Proof.
  do 5 eexists. split_and!; [reflexivity|reflexivity| |reflexivity].
  repeat constructor; intros config now c E; cbn [mapFactory f_Create] in E;
    (case_match eqn:Ec; [|done]); simplify_eq; try done; revert Ec;
    cbn [f_Create HTTPConnectorFactory MySQLConnectorFactory PostgreSQLConnectorFactory RedisConnectorFactory
         KafkaConnectorFactory];
    unfold HTTPCreate, MySQLCreate, PostgreSQLCreate, sqlCreate, RedisCreate, KafkaCreate;
    intros Ec; repeat case_match; by simplify_eq.
Qed.

Lemma default_factory t f :
  factories defaultManager !! t = Some f →
  f_Type f = t ∧ t ∈ GetRegisteredConnectorTypes ∧ factory_ok f ∧
  (∀ config now c, f_Create f config now = Ok c → typeOf c = t).
Proof.
  destruct default_factories as (f1 & f2 & f3 & f4 & f5 & -> & _ & Hok & Ht).
  rewrite !Forall_cons in Hok. unfold GetRegisteredConnectorTypes in *. cbn in Ht. simplify_eq.
  destruct Hok as ([? Hk1] & [? Hk2] & [? Hk3] & [? Hk4] & [? Hk5] & _).
  intros Hl. repeat (apply lookup_insert_Some in Hl as [[<- <-]|[_ Hl]]; [split_and!; [congruence|by repeat constructor|done|]|]).
  all: try (intros ? ? ? E; first [by apply Hk5 in E as ->|by apply Hk4 in E as ->|by apply Hk3 in E as ->
                                  |by apply Hk2 in E as ->|by apply Hk1 in E as ->]).
  by rewrite lookup_empty in Hl.
Qed.

(** C37. The manager with the default factories knows exactly the types that
    [GetRegisteredConnectorTypes] lists; every manager reached from it files each connector
    under its own identifier; and a connector it creates is of the type that was asked for. *)
Theorem default_manager_exact :
  (∀ t, is_Some (factories defaultManager !! t) ↔ t ∈ GetRegisteredConnectorTypes) ∧
  (∀ cm, rtc manager_step defaultManager cm → manager_wf cm) ∧
  (∀ config now cm started, CreateConnector config now defaultManager = (cm, started, None) →
     ∃ c, connectors cm = {[CC_ID config := c]} ∧ typeOf c = CC_Type config ∧
       CC_Type config ∈ GetRegisteredConnectorTypes ∧ started = CC_Enabled config) ∧
  (∀ config now, CC_Type config ∉ GetRegisteredConnectorTypes →
     CreateConnector config now defaultManager = refused defaultManager ErrConnectorTypeNotSupported).
Proof.
  assert (Hc : connectors defaultManager = ∅) by done.
  assert (Ht : ∀ t, is_Some (factories defaultManager !! t) ↔ t ∈ GetRegisteredConnectorTypes).
  { intros t. split.
    - intros [f Hf]. by apply default_factory in Hf as (_ & ? & _).
    - destruct default_factories as (f1 & f2 & f3 & f4 & f5 & -> & _). unfold GetRegisteredConnectorTypes.
      rewrite !lookup_insert_is_Some', !elem_of_cons. intuition (subst; auto). by destruct (not_elem_of_nil t). }
  split_and!; [done| | |].
  - intros cm Hr. assert (Hwf : manager_wf defaultManager).
    { split.
      - intros id c. by rewrite Hc, lookup_empty.
      - intros t f Hf. by apply default_factory in Hf as (? & _ & ? & _). }
    clear Hc Ht. induction Hr as [|x y z Hxy _ IH]; [done|]. by apply IH, (manager_step_wf x).
  - intros config now cm started. unfold CreateConnector. rewrite Hc, lookup_empty.
    destruct (factories defaultManager !! CC_Type config) as [f|] eqn:Ef; [|done].
    apply default_factory in Ef as (_ & ? & _ & Htype). repeat case_match; intros; simplify_eq.
    eexists. split_and!; [|by eapply Htype|done|done]. cbn [putConnectors connectors]. by rewrite ?Hc.
  - intros config now Hn. unfold CreateConnector. rewrite Hc, lookup_empty.
    destruct (factories defaultManager !! CC_Type config) eqn:Ef; [|done].
    exfalso. apply Hn, Ht. by rewrite Ef.
Qed.
End RegistryProps.
