(* ===== verification/ConnDriversProps.v ===== *)
(** * Theorems about the Redis, SQL and Kafka connectors

    Batches are cut into pieces that cover every message once and in order, whatever the batch
    size; what a restart does to a connector whose client was closed; what the counters of a
    batch say when its transaction is not committed. *)

From S2P Require Import Prelude GoLib GoValue Connector RuleSQL ConnHTTP ConnProps ConnManager ConnDrivers ConnRegistry.
Local Open Scope emqx_scope.
Local Open Scope Z_scope.

(** ** The loop over the batches *)

Section Batches.
Context `{GoFloat} {Cfg D : Type}.
Implicit Types (c : DriverConnector Cfg D) (messages : list ConnMessage).
Implicit Type process : DriverConnector Cfg D → list ConnMessage → Time →
  outcome (DriverConnector Cfg D * Time * (list (option MessageResult) * option string)).

Definition unlocked c : Prop := bc_locked (dc_base c) = false.
Definition countable c : Prop := unlocked c ∧ counters_in_range (counters (bc_metrics (dc_base c))).

(** A batch function answers one result per message of its batch, in their order, provided its
    connector satisfies [ok]. *)
Definition answersAll (ok : DriverConnector Cfg D → Prop) process : Prop :=
  ∀ c messages now, ok c → ∃ c' now' rs err,
    process c messages now = Returns (c', now', (Some <$> rs, err)) ∧ ok c' ∧
    MR_MessageID <$> rs = CM_ID <$> messages.

Lemma fillResults_all messages (rs : list MessageResult) err now :
  length rs = length messages → fillResults messages (Some <$> rs) err now = Some <$> rs.
Proof. revert rs. induction messages as [|m ms IH]; intros [|r rs]; simpl; try lia; [done|]. intros. f_equal. by apply IH; lia. Qed.

Lemma batchLoop_all ok process fuel n c messages now :
  answersAll ok process → ok c → (0 < n)%nat → (length messages ≤ fuel)%nat →
  ∃ c' rs, batchLoop process fuel n c messages now = Returns (c', Some <$> rs) ∧ ok c' ∧
    MR_MessageID <$> rs = CM_ID <$> messages.
Proof.
  intros Hp. revert c messages now. induction fuel as [|fuel IH]; intros c messages now Hc Hn Hl.
  { destruct messages; simpl in Hl; [|lia]. by exists c, []. }
  destruct messages as [|m ms]; [by exists c, []|]. set (all := m :: ms) in *. cbn [batchLoop].
  destruct (Hp c (take n all) now Hc) as (c1 & now1 & rs1 & err & -> & Hc1 & Hr1). cbn [outcome_bind].
  destruct (IH c1 (drop n all) now1 Hc1 Hn) as (c2 & rs2 & -> & Hc2 & Hr2).
  { rewrite length_drop. unfold all in *. simpl in *. lia. }
  cbn [outcome_bind]. exists c2, (rs1 ++ rs2). split_and!; [|done|].
  - unfold all at 1. rewrite fmap_app. f_equal. f_equal. f_equal. apply fillResults_all.
    apply (f_equal length) in Hr1. by rewrite !length_fmap in Hr1.
  - by rewrite fmap_app, Hr1, Hr2, <-fmap_app, take_drop.
Qed.

Lemma sendBatches_all ok process batchSize c messages now :
  answersAll ok process → ok c →
  ∃ c' rs, sendBatches process batchSize c messages now = Returns (c', (Some <$> rs, None)) ∧ ok c' ∧
    MR_MessageID <$> rs = CM_ID <$> messages.
Proof.
  intros Hp Hc. unfold sendBatches. destruct messages as [|m ms]; [by exists c, []|]. set (all := m :: ms).
  destruct (batchLoop_all ok process (length all)
    (Z.to_nat (Z.min (if batchSize <=? 0 then 1000 else batchSize) (blen all))) c all now) as (c' & rs & E & ? & ?); try done.
  - unfold blen, all. cbn [length]. case_match; bool_prop; lia.
  - exists c', rs. by rewrite E.
Qed.
End Batches.

(** ** The base connector under a batch *)

Section Base.
Context `{GoFloat}.

(** [bc'] is [bc] after [oks] were counted. *)
Record afterCounting (oks : list bool) (bc bc' : BaseConnector) : Prop := {
  ac_locked : bc_locked bc' = false;
  ac_state : bc_state bc' = bc_state bc;
  ac_config : bc_config bc' = bc_config bc;
  ac_range : counters_in_range (counters (bc_metrics bc'));
  ac_counters : counters (bc_metrics bc') = counters_plus (countOk oks) (counters (bc_metrics bc));
}.

Lemma counters_plus_0 c : counters_in_range c → counters_plus (0, 0) c = c.
Proof. destruct c as [[[? ?] ?] ?]. simpl. rewrite !Z.add_0_r. by intros (-> & -> & -> & ->). Qed.

Lemma afterCounting_nil bc :
  bc_locked bc = false → counters_in_range (counters (bc_metrics bc)) → afterCounting [] bc bc.
Proof. intros. split; try done. by rewrite counters_plus_0. Qed.

Lemma afterCounting_cons ok oks bc bc1 bc' :
  counters_in_range (counters (bc_metrics bc)) →
  bc_state bc1 = bc_state bc → bc_config bc1 = bc_config bc →
  counters (bc_metrics bc1) = counted ok (counters (bc_metrics bc)) →
  afterCounting oks bc1 bc' → afterCounting (ok :: oks) bc bc'.
Proof.
  intros Hr Hs Hc Hm [Hl Hs' Hc' Hr' Hm']. split; [done|congruence|congruence|done|].
  rewrite Hm', Hm, counters_plus_counted by done. cbn [countOk]. destruct (countOk oks), ok; done.
Qed.

Lemma batchResult_exact message err start now bc :
  bc_locked bc = false →
  ∃ bc' r, batchResult message err start now bc = Returns (bc', Some r) ∧
    MR_MessageID r = CM_ID message ∧ MR_Success r = bool_decide (err = None) ∧
    bc_locked bc' = false ∧ bc_state bc' = bc_state bc ∧ bc_config bc' = bc_config bc ∧
    counters (bc_metrics bc') = counted (bool_decide (err = None)) (counters (bc_metrics bc)).
Proof.
  intros Hl. unfold batchResult. destruct err; unfold setError, recordSuccess; rewrite withLock_unlocked by done;
    cbn [outcome_bind]; do 2 eexists; split_and!; reflexivity || done.
Qed.

Lemma countOk_all_true (rs : list MessageResult) :
  Forall (λ r, MR_Success r = true) rs → countOk (MR_Success <$> rs) = (blen rs, 0).
Proof.
  induction 1 as [|r rs Hr _ IH]; [done|]. rewrite fmap_cons. cbn [countOk]. rewrite IH, Hr. unfold blen.
  cbn [length]. f_equal. lia.
Qed.

(** One error that no message is counted for. *)
Lemma setError_unlocked e now bc :
  bc_locked bc = false → ∃ bc', setError e now bc = Returns bc' ∧ bc_locked bc' = false ∧
    bc_state bc' = bc_state bc ∧ bc_config bc' = bc_config bc ∧
    MessagesSent (bc_metrics bc') = MessagesSent (bc_metrics bc) ∧
    MessagesDropped (bc_metrics bc') = MessagesDropped (bc_metrics bc) ∧
    SuccessCount (bc_metrics bc') = SuccessCount (bc_metrics bc) ∧
    (counters_in_range (counters (bc_metrics bc)) → counters_in_range (counters (bc_metrics bc'))).
Proof.
  intros Hl. unfold setError. rewrite withLock_unlocked by done. eexists. split; [reflexivity|].
  split_and!; try done. simpl. rewrite i64_i64. tauto.
Qed.

Lemma IsRunning_unlocked bc :
  bc_locked bc = false → IsRunning bc = Returns (bool_decide (bc_state bc = StateRunning)).
Proof. intros. unfold IsRunning. by rewrite withLock_unlocked. Qed.
Lemma setState_unlocked s now bc :
  bc_locked bc = false → ∃ bc', setState s now bc = Returns bc' ∧ bc_locked bc' = false ∧ bc_state bc' = s.
Proof. intros. unfold setState. rewrite withLock_unlocked by done. by eexists. Qed.
End Base.

(** ** MySQL and PostgreSQL *)

Section SQLProps.
Context `{GoFloat} {D : Type} `{!SQLDriver D} (Unmarshal : list byte → result any).
Context (insert : SQLConnectorConfig → string).
Abbreviation SQLConnector := (DriverConnector SQLConnectorConfig D).
Implicit Types (sc : SQLConnector) (messages : list ConnMessage).

Lemma execBatch_exact c messages start now d bc :
  bc_locked bc = false → counters_in_range (counters (bc_metrics bc)) →
  ∃ d' now' bc' rs, execBatch Unmarshal c messages start now d bc = Returns (d', now', bc', Some <$> rs) ∧
    MR_MessageID <$> rs = CM_ID <$> messages ∧ afterCounting (MR_Success <$> rs) bc bc' ∧
    ((∀ d args t, (sqlStmtExec d args t).2 = None) → Forall (λ r, MR_Success r = true) rs).
Proof.
  revert now d bc. induction messages as [|m ms IH]; intros now d bc Hl Hr; cbn [execBatch].
  { exists d, now, bc, []. split_and!; try done. by apply afterCounting_nil. }
  destruct (sqlStmtExec d (sqlArgs Unmarshal c m) now) as [[d1 now1] err] eqn:Ex.
  destruct (batchResult_exact m err start now1 bc Hl) as (bc1 & r & -> & Hid & Hok & Hl1 & Hs & Hc & Hm).
  cbn [outcome_bind].
  destruct (IH now1 d1 bc1) as (d' & now' & bc' & rs & -> & Hids & Hac & Hall); [done| |].
  { rewrite Hm. by apply counters_in_range_counted. }
  cbn [outcome_bind]. exists d', now', bc', (r :: rs). split_and!; [done| | |].
  - rewrite !fmap_cons. by f_equal.
  - rewrite fmap_cons, Hok. by eapply afterCounting_cons.
  - intros He. constructor; [|by apply Hall]. specialize (He d (sqlArgs Unmarshal c m) now).
    rewrite Ex in He. simpl in He. by rewrite Hok, He.
Qed.

Lemma failedResults_IDs messages e (at_ : Time) :
  ∃ rs, (λ m, failedResult m e at_) <$> messages = Some <$> rs ∧ MR_MessageID <$> rs = CM_ID <$> messages.
Proof.
  exists ((λ m, mkMessageResult (CM_ID m) false e 0 at_) <$> messages). split.
  - by rewrite <-list_fmap_compose.
  - by rewrite <-list_fmap_compose.
Qed.

Lemma uncommitted_results e (rs : list MessageResult) :
  ∃ rs', uncommitted e <$> (Some <$> rs) = Some <$> rs' ∧ MR_MessageID <$> rs' = MR_MessageID <$> rs ∧
    Forall (λ r, MR_Success r = false) rs'.
Proof.
  induction rs as [|r rs (rs' & E & Hid & Hs)]; [by exists []|].
  eexists (_ :: rs'). rewrite !fmap_cons, E. split; [reflexivity|].
  split; [|constructor; [|done]]; destruct (MR_Success r) eqn:Er; rewrite ?fmap_cons; simpl; congruence.
Qed.

Lemma sqlProcessBatch_all : answersAll countable (sqlProcessBatch Unmarshal insert).
Proof.
  intros sc messages start [Hl Hr]. unfold sqlProcessBatch.
  destruct messages as [|m ms]; [by exists sc, start, [], None|]. set (all := m :: ms).
  assert (Hrefused : ∀ d e, ∃ c' now' rs err,
    (let! bc := setError e start (dc_base sc) in
     Returns (put_base (put_client sc d) bc, start, ((λ m, failedResult m e start) <$> all, Some e))) =
      Returns (c', now', (Some <$> rs, err)) ∧ countable c' ∧ MR_MessageID <$> rs = CM_ID <$> all).
  { intros d e. destruct (setError_unlocked e start (dc_base sc) Hl) as (bc & -> & Hl' & _ & _ & _ & _ & _ & Hr').
    destruct (failedResults_IDs all e start) as (rs & -> & Hids). cbn [outcome_bind].
    eexists _, _, rs, _. split; [reflexivity|]. split; [|done]. by split; [|apply Hr']. }
  destruct (sqlBeginTx (dc_client sc)) as [d1 [e|]]; [apply Hrefused|].
  destruct (sqlPrepare d1 _) as [d2 [e|]]; [apply Hrefused|].
  destruct (execBatch_exact (dc_config sc) all start start d2 (dc_base sc) Hl Hr)
    as (d3 & now & bc & rs & -> & Hids & Hac & _). cbn [outcome_bind].
  destruct (sqlCommit d3) as [d4 [e|]].
  - destruct (setError_unlocked e now bc (ac_locked _ _ _ Hac)) as (bc' & -> & Hl' & _ & _ & _ & _ & _ & Hr').
    destruct (uncommitted_results e rs) as (rs' & -> & Hid' & _). cbn [outcome_bind].
    eexists _, _, rs', _. split; [reflexivity|]. split; [|congruence]. split; [done|]. by apply Hr', (ac_range _ _ _ Hac).
  - eexists _, _, rs, _. split; [reflexivity|]. split; [|done]. by split; [apply (ac_locked _ _ _ Hac)|apply (ac_range _ _ _ Hac)].
Qed.

(** C38. [SendBatch] of the SQL connectors always returns: one result per message, in the order of
    the messages and naming them, for every driver, every batch size (also zero, negative or
    larger than the list) and every failure of a transaction or of a statement. *)
Theorem sql_batch_answers sc messages now :
  countable sc →
  ∃ sc' rs, sqlSendBatch Unmarshal insert sc messages now = Returns (sc', (Some <$> rs, None)) ∧ countable sc' ∧
    MR_MessageID <$> rs = CM_ID <$> messages.
Proof. apply sendBatches_all, sqlProcessBatch_all. Qed.

(** When the statements of a batch succeed and its transaction is not committed, every result
    is a failure, and yet the messages are counted as sent and none as dropped. *)
Theorem uncommitted_counted sc messages start d1 d2 e :
  countable sc → messages ≠ [] →
  sqlBeginTx (dc_client sc) = (d1, None) →
  sqlPrepare d1 (statement insert (dc_config sc)) = (d2, None) →
  (∀ d args t, (sqlStmtExec d args t).2 = None) → (∀ d, (sqlCommit d).2 = Some e) →
  ∃ sc' now rs, sqlProcessBatch Unmarshal insert sc messages start = Returns (sc', now, (Some <$> rs, Some e)) ∧
    MR_MessageID <$> rs = CM_ID <$> messages ∧ Forall (λ r, MR_Success r = false) rs ∧
    MessagesSent (bc_metrics (dc_base sc')) = i64 (MessagesSent (bc_metrics (dc_base sc)) + blen messages) ∧
    MessagesDropped (bc_metrics (dc_base sc')) = MessagesDropped (bc_metrics (dc_base sc)).
Proof.
  intros [Hl Hr] Hne Hb Hp He Hc. unfold sqlProcessBatch. destruct messages as [|m ms]; [done|].
  set (all := m :: ms) in *. rewrite Hb, Hp.
  destruct (execBatch_exact (dc_config sc) all start start d2 (dc_base sc) Hl Hr)
    as (d3 & now & bc & rs & -> & Hids & Hac & Hall). cbn [outcome_bind].
  specialize (Hall He). specialize (Hc d3). destruct (sqlCommit d3) as [d4 err]. simpl in Hc. subst err.
  destruct (setError_unlocked e now bc (ac_locked _ _ _ Hac)) as (bc' & -> & _ & _ & _ & Hs & Hd & _).
  destruct (uncommitted_results e rs) as (rs' & -> & Hid' & Hf). cbn [outcome_bind].
  assert (Hlen : blen rs = blen all).
  { apply (f_equal length) in Hids. rewrite !length_fmap in Hids. unfold blen. by rewrite Hids. }
  eexists _, _, rs'. split; [reflexivity|]. split_and!; [congruence|done| |]; cbn [put_base dc_base].
  all: pose proof (ac_counters _ _ _ Hac) as Hm; rewrite (countOk_all_true rs Hall) in Hm;
    unfold counters, counters_plus in Hm; cbn [fst snd] in Hm; simplify_eq/=.
  - by rewrite Hs, <-Hlen.
  - rewrite Hd. destruct Hr as (_ & _ & Hd' & _). match goal with H : MessagesDropped (bc_metrics bc) = _ |- _ => rewrite H end.
    by rewrite Z.add_0_r.
Qed.
End SQLProps.

(** ** Redis *)

Section RedisProps.
Context `{GoFloat} {D : Type} `{!RedisClient D}.
(** go-redis: [Exec] answers an error or the list of the queued commands, and nothing is sent
    for an empty pipeline. *)
Context (Exec_length : ∀ (d : D) cmds t l, (redisPipeline d cmds t).2 = Ok l → length l = length cmds)
  (Exec_empty : ∀ (d : D) t, redisPipeline d [] t = (d, t, Ok [])).
Abbreviation RedisConnector := (DriverConnector RedisConnectorConfig D).
Implicit Types (rc : RedisConnector) (messages : list ConnMessage).

Definition pipelined (c : RedisConnectorConfig) : Prop := RD_Command c = "SET" ∨ RD_Command c = "PUBLISH".

#[export] Instance pipelined_dec c : Decision (pipelined c).
Proof. unfold pipelined. apply _. Defined.

Lemma pipeline_length c messages :
  pipelined c → length (flat_map (pipelineCmd c) messages) = length messages.
Proof.
  intros Hc. assert (Hm : ∀ m, length (pipelineCmd c m) = 1%nat).
  { intros m. unfold pipelineCmd. destruct Hc as [-> | ->]; reflexivity. }
  induction messages as [|m ms IH]; [done|]. cbn [flat_map]. by rewrite length_app, Hm, IH.
Qed.

Lemma pipeline_empty c messages : ¬ pipelined c → flat_map (pipelineCmd c) messages = [].
Proof.
  intros Hc. induction messages as [|m ms IH]; [done|]. cbn [flat_map]. rewrite IH, app_nil_r.
  unfold pipelineCmd. repeat case_match; bool_prop; unfold pipelined in Hc; try done; exfalso; apply Hc; auto.
Qed.

Lemma pipelineResults_exact messages cmds start now bc :
  length cmds = length messages → bc_locked bc = false → counters_in_range (counters (bc_metrics bc)) →
  ∃ bc' rs, pipelineResults messages cmds start now bc = Returns (bc', Some <$> rs) ∧
    MR_MessageID <$> rs = CM_ID <$> messages ∧ afterCounting (MR_Success <$> rs) bc bc'.
Proof.
  revert messages bc. induction cmds as [|err cmds IH]; intros [|m ms] bc Hlen Hl Hr; simpl in Hlen; try lia.
  { exists bc, []. split_and!; try done. by apply afterCounting_nil. }
  cbn [pipelineResults].
  destruct (batchResult_exact m err start now bc Hl) as (bc1 & r & -> & Hid & Hok & Hl1 & Hs & Hc & Hm).
  cbn [outcome_bind]. destruct (IH ms bc1) as (bc' & rs & -> & Hids & Hac); [lia|done| |].
  { rewrite Hm. by apply counters_in_range_counted. }
  cbn [outcome_bind]. exists bc', (r :: rs). split_and!; [done| |].
  - rewrite !fmap_cons. by f_equal.
  - rewrite fmap_cons, Hok. by eapply afterCounting_cons.
Qed.

Lemma RedisProcessBatch_all : answersAll (λ rc, pipelined (dc_config rc) ∧ countable rc) RedisProcessBatch.
Proof using Exec_length.
  intros rc messages start (Hp & Hl & Hr). unfold RedisProcessBatch.
  destruct messages as [|m ms]; [by exists rc, start, [], None|]. set (all := m :: ms).
  destruct (redisPipeline (dc_client rc) (flat_map (pipelineCmd (dc_config rc)) all) start) as [[d now] [cmds|e]] eqn:E.
  - destruct (pipelineResults_exact all cmds start now (dc_base rc)) as (bc & rs & Er & Hids & Hac); [|done|done|].
    { rewrite <-(pipeline_length (dc_config rc) all Hp). eapply Exec_length. by rewrite E. }
    cbn [put_client dc_base]. rewrite Er. cbn [outcome_bind]. eexists _, _, rs, _. split; [reflexivity|].
    split; [|done]. split; [done|]. by split; [apply (ac_locked _ _ _ Hac)|apply (ac_range _ _ _ Hac)].
  - cbn [put_client dc_base].
    destruct (setError_unlocked e now (dc_base rc) Hl) as (bc & -> & Hl' & _ & _ & _ & _ & _ & Hr').
    destruct (failedResults_IDs all e start) as (rs & -> & Hids). cbn [outcome_bind].
    eexists _, _, rs, _. split; [reflexivity|]. split; [|done]. split; [done|]. by split; [|apply Hr'].
Qed.

Lemma RedisProcessBatch_none rc messages start :
  ¬ pipelined (dc_config rc) →
  RedisProcessBatch rc messages start = Returns (rc, start, (const None <$> messages, None)).
Proof using Exec_empty.
  intros Hp. unfold RedisProcessBatch. destruct messages as [|m ms]; [done|]. rewrite (pipeline_empty _ _ Hp), Exec_empty.
  by destruct rc.
Qed.

Lemma fillResults_none messages now :
  fillResults messages (const None <$> messages) None now = const None <$> messages.
Proof. induction messages as [|m ms IH]; [done|]. cbn. f_equal. apply IH. Qed.

Lemma batchLoop_none fuel n rc messages now :
  ¬ pipelined (dc_config rc) → (0 < n)%nat → (length messages ≤ fuel)%nat →
  batchLoop RedisProcessBatch fuel n rc messages now = Returns (rc, const None <$> messages).
Proof using Exec_empty.
  intros Hp Hn. revert messages. induction fuel as [|fuel IH]; intros messages Hl.
  { by destruct messages; simpl in Hl; [|lia]. }
  destruct messages as [|m ms]; [done|]. set (all := m :: ms) in *. cbn [batchLoop].
  rewrite RedisProcessBatch_none by done. cbn [outcome_bind]. rewrite IH.
  - cbn [outcome_bind]. unfold all at 1. rewrite fillResults_none. by rewrite <-fmap_app, take_drop.
  - rewrite length_drop. unfold all in *. simpl in *. lia.
Qed.

(** [SendBatch] of the Redis connector with SET or PUBLISH answers one result per message, in
    order; with any other command, also the ones [Send] supports, it sends nothing, changes
    nothing and reports no error: every result is nil. *)
Theorem redis_batch_answers rc messages now :
  countable rc →
  if decide (pipelined (dc_config rc)) then
    ∃ rc' rs, RedisSendBatch rc messages now = Returns (rc', (Some <$> rs, None)) ∧
      MR_MessageID <$> rs = CM_ID <$> messages
  else RedisSendBatch rc messages now = Returns (rc, (const None <$> messages, None)).
Proof using Exec_length Exec_empty.
  intros Hc. case_decide as Hp.
  - destruct (sendBatches_all _ _ (RD_BatchSize (dc_config rc)) rc messages now RedisProcessBatch_all)
      as (rc' & rs & E & _ & ?); [done|]. by exists rc', rs.
  - unfold RedisSendBatch, sendBatches. destruct messages as [|m ms]; [done|].
    rewrite batchLoop_none; [done|done| |done]. unfold blen. cbn [length]. case_match; bool_prop; lia.
Qed.
End RedisProps.

(** ** Restarting *)

Section Restart.
Context `{GoFloat} {Cfg D : Type}.
Implicit Types c : DriverConnector Cfg D.

Definition running c : Prop := unlocked c ∧ bc_state (dc_base c) = StateRunning.

Lemma driverStop_running close c now :
  running c → ∃ bc, driverStop close c now = Returns (mkDriverConnector bc (dc_config c) (close (dc_client c)).1, None) ∧
    bc_locked bc = false ∧ bc_state bc = StateStopped.
Proof.
  intros [Hl Hs]. unfold driverStop, lift_base, stopWith. rewrite IsRunning_unlocked by done. cbn [outcome_bind].
  rewrite bool_decide_true by done. cbn [negb]. destruct (close (dc_client c)) as [d err]. cbn [put_client dc_base].
  rewrite ?IsRunning_unlocked by done. cbn [outcome_bind]. rewrite ?bool_decide_true by done. cbn [negb].
  destruct (setState_unlocked StateStopping now (dc_base c) Hl) as (b1 & -> & Hl1 & _). cbn [outcome_bind].
  assert (∃ b2, match err with Some e => setError e now b1 | None => Returns b1 end = Returns b2 ∧ bc_locked b2 = false)
    as (b2 & -> & Hl2).
  { destruct err as [e|]; [|by exists b1]. destruct (setError_unlocked e now b1 Hl1) as (b2 & ? & ? & _). by exists b2. }
  cbn [outcome_bind]. destruct (setState_unlocked StateStopped now b2 Hl2) as (b3 & -> & ? & ?). by exists b3.
Qed.

(** The step of [Start] after the state was checked. *)
Lemma driverStart_stopped health c now :
  unlocked c → bc_state (dc_base c) = StateStopped →
  ∃ bc, driverStart health c now = Returns (put_base c bc, health c now) ∧ bc_locked bc = false ∧
    bc_state bc = match health c now with Some _ => StateFailed | None => StateRunning end.
Proof.
  intros Hl Hs. unfold driverStart, lift_base. destruct (health c now) as [e|].
  - unfold startWith. rewrite IsRunning_unlocked by done. cbn [outcome_bind]. rewrite bool_decide_false by congruence.
    destruct (setState_unlocked StateStarting now (dc_base c) Hl) as (b1 & -> & Hl1 & _). cbn [outcome_bind].
    destruct (setError_unlocked e now b1 Hl1) as (b2 & -> & Hl2 & _). cbn [outcome_bind].
    destruct (setState_unlocked StateFailed now b2 Hl2) as (b3 & -> & ? & ?). cbn [outcome_bind]. by exists b3.
  - destruct (startWith_healthy (dc_base c) now) as (bc & -> & ? & ? & ? & ?); [done|by rewrite Hs|]. by exists bc.
Qed.

Lemma driverRestart_exact health close c now :
  running c →
  ∃ bc1 bc2, let c1 := mkDriverConnector bc1 (dc_config c) (close (dc_client c)).1 in
    restartWith (driverStop close) (driverStart health) c now = Returns (put_base c1 bc2, health c1 now) ∧
    bc_locked bc2 = false ∧ bc_state bc2 = match health c1 now with Some _ => StateFailed | None => StateRunning end.
Proof.
  intros Hr. destruct (driverStop_running close c now Hr) as (bc1 & E & Hl & Hs).
  destruct (driverStart_stopped health (mkDriverConnector bc1 (dc_config c) (close (dc_client c)).1) now)
    as (bc2 & E2 & Hl2 & Hs2); [done..|]. exists bc1, bc2. split; [|done].
  unfold restartWith. rewrite E. cbn [outcome_bind]. exact E2.
Qed.

Lemma driverSend_stopped call c message now :
  unlocked c → bc_state (dc_base c) ≠ StateRunning →
  driverSend call c message now = Returns (c, (None, Some ErrConnectorNotRunning)).
Proof.
  intros Hl Hs. unfold driverSend. rewrite IsRunning_unlocked by done. cbn [outcome_bind].
  by rewrite bool_decide_false.
Qed.

Lemma driverSend_fails call c message now d t e :
  running c → call (dc_client c) message now = (d, t, Some e) →
  ∃ bc r, driverSend call c message now = Returns (mkDriverConnector bc (dc_config c) d, (Some r, Some e)) ∧
    MR_Success r = false ∧ bc_locked bc = false ∧ bc_state bc = StateRunning.
Proof.
  intros [Hl Hs] E. unfold driverSend. rewrite IsRunning_unlocked by done. cbn [outcome_bind].
  rewrite bool_decide_true by done. cbn [negb]. rewrite E.
  destruct (sendFailed_exact (dc_base c) message e e 0 now t Hl) as (bc & Es & Hl' & Hs' & _).
  exists bc. eexists. unfold lift_base. cbn [put_client dc_base]. rewrite Es. split; [reflexivity|].
  split_and!; [done|done|congruence].
Qed.
End Restart.

Section RestartProps.
Context `{GoFloat} {DR DS DK : Type} `{!RedisClient DR} `{!SQLDriver DS} `{!KafkaClient DK}.
Context (Unmarshal : list byte → result any) (formatRFC3339 : Time → string).
Abbreviation redis := (RedisConnector_Connector (D := DR)).
Abbreviation sql insert := (sqlConnector Unmarshal insert (D := DS)).
Abbreviation kafka := (KafkaConnector_Connector formatRFC3339 (D := DK)).

(** Messages sent one after the other. *)
Fixpoint sendEach `{!Connector C} (messages : list (ConnMessage * Time)) (c : C)
    : outcome (C * list (option MessageResult * option string)) :=
  match messages with
  | [] => Returns (c, [])
  | (message, now) :: messages =>
      let! '(c, r) := Send c message now in
      let! '(c, rs) := sendEach messages c in
      Returns (c, r :: rs)
  end.

Lemma kafka_sends_fail (closed : DK → Prop) messages kc :
  (∀ d ms t, closed d → ∃ d' t' e, kafkaWrite d ms t = (d', t', Some e) ∧ closed d') →
  running kc → closed (dc_client kc) →
  ∃ kc' rs, sendEach (Connector0 := kafka) messages kc = Returns (kc', rs) ∧ running kc' ∧
    length rs = length messages ∧ Forall (λ r, is_Some r.2) rs.
Proof.
  intros Hw. revert kc. induction messages as [|[m t] ms IH]; intros kc Hr Hc; [by exists kc, []|].
  cbn [sendEach]. destruct (Hw (dc_client kc) [kafkaMessage formatRFC3339 (dc_config kc) m] t Hc) as (d' & t' & e & E & Hc').
  destruct (driverSend_fails (λ d m start, kafkaWrite d [kafkaMessage formatRFC3339 (dc_config kc) m] start)
    kc m t d' t' e Hr E) as (bc & r & Es & _ & Hl & Hs).
  change (Send kc m t) with (driverSend (λ d m start, kafkaWrite d [kafkaMessage formatRFC3339 (dc_config kc) m] start) kc m t).
  rewrite Es. cbn [outcome_bind].
  destruct (IH (mkDriverConnector bc (dc_config kc) d')) as (kc' & rs & -> & ? & ? & ?); [done|done|].
  cbn [outcome_bind]. eexists kc', (_ :: rs). split; [reflexivity|]. split_and!; [done|simpl; congruence|].
  by constructor; [eexists|].
Qed.

(** [Restart] of a connector that runs does not bring it back, because [Stop] closes its client
    and [Start] opens no new one: the Redis and SQL connectors, whose closed clients answer no
    ping, end in StateFailed and refuse every message; the Kafka connector, whose health check uses a connection of its own, reports success and runs, and
    fails every message it is given. *)
Theorem restart_keeps_closed_client now :
  (∀ (closed : DR → Prop) (rc : DriverConnector RedisConnectorConfig DR),
     (∀ d, closed (redisClose d).1) → (∀ d t, closed d → ∃ e, redisPing d t = Err e) → running rc →
     ∃ rc' e, Restart (Connector := redis) rc now = Returns (rc', Some e) ∧
       bc_state (dc_base rc') = StateFailed ∧
       ∀ m t, Send (Connector := redis) rc' m t = Returns (rc', (None, Some ErrConnectorNotRunning))) ∧
  (∀ insert (closed : DS → Prop) (sc : DriverConnector SQLConnectorConfig DS),
     (∀ d, closed (sqlClose d).1) → (∀ d t, closed d → is_Some (sqlPing d t)) → running sc →
     ∃ sc' e, Restart (Connector := sql insert) sc now = Returns (sc', Some e) ∧
       bc_state (dc_base sc') = StateFailed ∧
       ∀ m t, Send (Connector := sql insert) sc' m t = Returns (sc', (None, Some ErrConnectorNotRunning))) ∧
  (∀ (closed : DK → Prop) (kc : DriverConnector KafkaConnectorConfig DK) broker n,
     (∀ d, closed (kafkaClose d).1) →
     (∀ d ms t, closed d → ∃ d' t' e, kafkaWrite d ms t = (d', t', Some e) ∧ closed d') →
     head (KF_Brokers (dc_config kc)) = Some broker → kafkaDial (D := DK) broker now = None →
     kafkaReadPartitions (D := DK) broker (KF_Topic (dc_config kc)) now = Ok n → n ≠ 0 → running kc →
     ∃ kc', Restart (Connector := kafka) kc now = Returns (kc', None) ∧ running kc' ∧
       ∀ messages, ∃ kc'' rs, sendEach (Connector0 := kafka) messages kc' = Returns (kc'', rs) ∧
         length rs = length messages ∧ Forall (λ r, is_Some r.2) rs).
Proof.
  split_and!.
  - intros closed rc Hclose Hping Hr.
    destruct (driverRestart_exact RedisHealthCheck redisClose rc now Hr) as (bc1 & bc2 & E & Hl & Hs).
    destruct (Hping _ now (Hclose (dc_client rc))) as [e He]. cbv zeta in *. unfold RedisHealthCheck in *.
    cbn [dc_client] in *. rewrite He in E, Hs.
    eexists _, _. split; [exact E|]. split; [done|]. intros m t. apply driverSend_stopped; [done|]. cbn. by rewrite Hs.
  - intros insert closed sc Hclose Hping Hr.
    destruct (driverRestart_exact sqlHealthCheck sqlClose sc now Hr) as (bc1 & bc2 & E & Hl & Hs).
    destruct (Hping _ now (Hclose (dc_client sc))) as [e He]. cbv zeta in *. unfold sqlHealthCheck in *.
    cbn [dc_client] in *. rewrite He in E, Hs.
    eexists _, _. split; [exact E|]. split; [done|]. intros m t. apply driverSend_stopped; [done|]. cbn. by rewrite Hs.
  - intros closed kc broker n Hclose Hw Hb Hd Hp Hn Hr.
    destruct (driverRestart_exact KafkaHealthCheck kafkaClose kc now Hr) as (bc1 & bc2 & E & Hl & Hs).
    cbv zeta in *. unfold KafkaHealthCheck in E, Hs. cbn [dc_client dc_config] in *. rewrite Hb in E, Hs. simpl default in *.
    rewrite Hd, Hp, (proj2 (Z.eqb_neq n 0) Hn) in E, Hs.
    eexists. split; [exact E|]. split; [done|]. intros messages.
    destruct (kafka_sends_fail closed messages (put_base (mkDriverConnector bc1 (dc_config kc) (kafkaClose (dc_client kc)).1) bc2))
      as (kc' & rs & ? & _ & ? & ?); [done|done|apply Hclose|]. by exists kc', rs.
Qed.
End RestartProps.

(** ** Witnesses

    A client is open ([true]) or closed; a transaction is not committed on a closed one. *)
Section DriverWitness.
Local Existing Instance intFloat.

Local Instance sampleRedis : RedisClient bool := {|
  redisNewClient _ := true;
  redisPing d _ := if d then Ok "PONG" else Err "redis: client is closed";
  redisDo d _ t := (d, t + 1, if d then None else Some "redis: client is closed");
  redisPipeline d cmds t := if cmds is [] then (d, t, Ok []) else (d, t + 1, Ok (const None <$> cmds));
  redisClose _ := (false, None);
|}.
Local Instance sampleSQL : SQLDriver bool := {|
  sqlOpen _ _ := Ok true;
  sqlSetPool _ _ _ _ d := d;
  sqlPing d _ := if d then None else Some "sql: database is closed";
  sqlExec d _ _ t := (d, t + 1, None);
  sqlBeginTx d := (d, None);
  sqlPrepare d _ := (d, None);
  sqlStmtExec d _ t := (d, t + 1, None);
  sqlCommit d := (d, Some "deadlock");
  sqlRollback d := d;
  sqlClose _ := (false, None);
|}.
Local Instance sampleKafka : KafkaClient bool := {|
  kafkaNewWriter _ := true;
  kafkaDial _ _ := None;
  kafkaReadPartitions _ _ _ := Ok 3;
  kafkaWrite d _ t := (d, t + 1, if d then None else Some "io: read/write on closed pipe");
  kafkaClose _ := (false, None);
|}.

Definition running_with {Cfg} (cfg : Cfg) : DriverConnector Cfg bool :=
  mkDriverConnector (example_base StateRunning) cfg true.
Definition sampleRedisConfig (command : string) : RedisConnectorConfig :=
  mkRedisConnectorConfig "h" 6379 "" "" 0 10 1 0 0 0 0 0 command "k" 0 2 false None.
Definition sampleSQLConfig : SQLConnectorConfig :=
  mkSQLConnectorConfig "h" 3306 "u" "" "db" "" "t" 10 5 0 0 "utf8mb4" "disable" "" 2 0.
Definition sampleKafkaConfig : KafkaConnectorConfig :=
  mkKafkaConnectorConfig ["b1"; "b2"] "mqtt" 0 1 100 0 0 0 "none" 1000000 false "" "" "" "" "" ∅.
Definition threeMessages : list ConnMessage :=
  [example_message "a" []; example_message "b" [Byte.x01]; example_message "c" []].
Abbreviation noJSON := (λ _, Err "invalid character").

Lemma running_with_ok {Cfg} (cfg : Cfg) : running (running_with cfg) ∧ countable (running_with cfg).
Proof. split; [done|]. split; [done|]. vm_compute. tauto. Qed.

Lemma sql_batch_answers_witness :
  countable (running_with sampleSQLConfig) ∧
  ∃ sc' rs, sqlSendBatch noJSON mysqlInsert (running_with sampleSQLConfig) threeMessages 3 =
      Returns (sc', (Some <$> rs, None)) ∧ countable sc' ∧ MR_MessageID <$> rs = ["a"; "b"; "c"].
Proof.
  split; [apply running_with_ok|]. apply (sql_batch_answers noJSON mysqlInsert), running_with_ok.
Defined.

Lemma uncommitted_counted_witness :
  ∃ sc' now rs, sqlProcessBatch noJSON mysqlInsert (running_with sampleSQLConfig) threeMessages 3 =
      Returns (sc', now, (Some <$> rs, Some "deadlock")) ∧
    Forall (λ r, MR_Success r = false) rs ∧ MessagesSent (bc_metrics (dc_base sc')) = 3.
Proof.
  destruct (uncommitted_counted noJSON mysqlInsert (running_with sampleSQLConfig) threeMessages 3 true true "deadlock")
    as (sc' & now & rs & E & _ & Hf & Hs & _); [apply running_with_ok|done..|].
  exists sc', now, rs. split; [exact E|]. split; [exact Hf|]. rewrite Hs. reflexivity.
Defined.

Lemma redis_batch_answers_witness :
  RedisSendBatch (running_with (sampleRedisConfig "LPUSH")) threeMessages 3 =
    Returns (running_with (sampleRedisConfig "LPUSH"), ([None; None; None], None)).
Proof.
  refine (redis_batch_answers _ _ (running_with (sampleRedisConfig "LPUSH")) threeMessages 3 _).
  - intros d [|x l] t l' E; cbn in E; simplify_eq; [done|]. cbn. by rewrite length_fmap.
  - done.
  - apply running_with_ok.
Defined.

Lemma restart_keeps_closed_client_witness :
  ∃ kc', Restart (Connector := KafkaConnector_Connector (λ _, "")) (running_with sampleKafkaConfig) 4 =
      Returns (kc', None) ∧ running kc' ∧
    ∀ messages, ∃ kc'' rs, sendEach (Connector0 := KafkaConnector_Connector (λ _, "")) messages kc' = Returns (kc'', rs) ∧
      length rs = length messages ∧ Forall (λ r, is_Some r.2) rs.
Proof.
  apply (proj2 (proj2 (restart_keeps_closed_client (DR := bool) (DS := bool) (DK := bool) noJSON (λ _, "") 4))
           (λ d, d = false) (running_with sampleKafkaConfig) "b1" 3); try done.
  intros d ms t ->. by exists false, (t + 1)%Z, "io: read/write on closed pipe".
Defined.
End DriverWitness.
