(* ===== verification/RuleEngine.v ===== *)
(** * The rule engine and its actions (pkg/rules/engine.go, actions.go)

    Rules are shared objects: the engine maps identifiers to pointers, and a message that is
    being processed keeps using the objects it started with.  [World] holds the objects, the
    connectors, what was printed and the state of the broker; an operation is a function of
    the world in the monad [RM].  The clock is a sequence of readings. *)

From S2P Require Import Prelude GoLib GoValue Connector ConnHTTP RuleSQL.
Local Open Scope emqx_scope.
Local Open Scope Z_scope.

(** ** Data (engine.go) *)

(** The status is a string in the source; a request can set one that has no name. *)
Inductive RuleStatus :=
  | RuleStatusEnabled | RuleStatusDisabled | RuleStatusStopped | RuleStatusFailed
  | RuleStatusOther (s : string).
#[export] Instance RuleStatus_eq_dec : EqDecision RuleStatus.
Proof. solve_decision. Defined.

Definition ActionTypeConsole : string := "console".
Definition ActionTypeHTTP : string := "http".
Definition ActionTypeConnector : string := "connector".
Definition ActionTypeRepublish : string := "republish".
Definition ActionTypeDiscard : string := "discard".

Record Action `{GoFloat} := mkAction { A_Type : string; A_Parameters : gmap string any }.
Arguments mkAction {_} _ _.

Record RuleMetrics := mkRuleMetrics {
  MatchedCount : Z;
  ExecutedCount : Z;
  FailedCount : Z;
  RM_AvgLatency : Duration;
  LastExecution : option Time;
  RM_LastError : string;
  RM_LastErrorTime : option Time;
}.
Definition noMetrics : RuleMetrics := mkRuleMetrics 0 0 0 0 None "" None.

Record Rule `{GoFloat} := mkRule {
  R_ID : string;
  R_Name : string;
  R_Description : string;
  R_SQL : string;
  R_Actions : list Action;
  R_Status : RuleStatus;
  R_Priority : Z;
  R_CreatedAt : Time;
  R_UpdatedAt : Time;
  R_Metrics : RuleMetrics;
  R_Metadata : gmap string any;
}.
Arguments mkRule {_} _ _ _ _ _ _ _ _ _ _ _.

(** The output of an action: text, a map, or the answer of a connector. *)
Inductive Output `{GoFloat} :=
  | NoOutput
  | OutText (s : string)
  | OutMap (m : gmap string any)
  | OutMessageResult (r : MessageResult).

Record ActionResult `{GoFloat} := mkActionResult {
  AR_Success : bool;
  AR_Error : string;
  AR_Latency : Duration;
  AR_Timestamp : Time;
  AR_Output : Output;
}.
Arguments mkActionResult {_} _ _ _ _ _.

Abbreviation ruleptr := positive.

Record World `{GoFloat} (C B : Type) := mkWorld {
  ruleHeap : gmap ruleptr Rule;
  rules : gmap string ruleptr;
  connManager : ConnectorManager C;
  console : list string;
  broker : B;
  ticks : nat;
}.
Arguments mkWorld {_ _ _} _ _ _ _ _ _.
Arguments ruleHeap {_ _ _} _.
Arguments rules {_ _ _} _.
Arguments connManager {_ _ _} _.
Arguments console {_ _ _} _.
Arguments broker {_ _ _} _.
Arguments ticks {_ _ _} _.

(** ** Operations on the world *)
Definition RM `{GoFloat} (C B A : Type) : Type := World C B → outcome (A * World C B).

#[export] Instance RM_ret `{GoFloat} {C B} : MRet (RM C B) := λ A a w, Returns (a, w).
#[export] Instance RM_bind `{GoFloat} {C B} : MBind (RM C B) :=
  λ A A' k m w, let! '(a, w) := m w in k a w.

(** [e.republishCallback]: a function of the broker that may call the engine again. *)
Definition Callback `{GoFloat} (C B : Type) : Type :=
  string → Z → list byte → RM C B (option string).

Inductive ActionExecutor `{GoFloat} (C B : Type) :=
  | ConsoleActionExecutor
  | HTTPActionExecutor
  | ConnectorActionExecutor
  | RepublishActionExecutor (republishCallback : option (Callback C B))
  | DiscardActionExecutor
  | CustomActionExecutor (execute : RuleContext → gmap string any → RM C B (ActionResult * option string))
      (validate : gmap string any → option string) (schema : any).
Arguments ConsoleActionExecutor {_ _ _}.
Arguments HTTPActionExecutor {_ _ _}.
Arguments ConnectorActionExecutor {_ _ _}.
Arguments RepublishActionExecutor {_ _ _} _.
Arguments DiscardActionExecutor {_ _ _}.
Arguments CustomActionExecutor {_ _ _} _ _ _.

Section RuleEngine.
Context `{GoFloat} `{GoUnicode} {C : Type} `{!Connector C} {B : Type}.
Context (Unmarshal : list byte → result any) (MatchString : string → string → result bool).
Context (FormatRFC3339 : Time → string).
Context (newRequest : string → string → option string)
  (httpDo : Time → HTTPRequest → Time * result (Z * string)) (CanonicalHeaderKey : string → string).
(** The readings of the clock. *)
Context (clock : nat → Time).
Abbreviation M := (RM C B).
Implicit Types (w : World C B) (ctx : RuleContext) (params : gmap string any) (rule : Rule).

Definition Now : M Time := λ w,
  Returns (clock (ticks w),
           mkWorld (ruleHeap w) (rules w) (connManager w) (console w) (broker w) (S (ticks w))).
Definition gets {A} (f : World C B → A) : M A := λ w, Returns (f w, w).
Definition printLine (s : string) : M () := λ w,
  Returns (tt, mkWorld (ruleHeap w) (rules w) (connManager w) (console w ++ [s]) (broker w) (ticks w)).
Definition putConnManager (cm : ConnectorManager C) : M () := λ w,
  Returns (tt, mkWorld (ruleHeap w) (rules w) cm (console w) (broker w) (ticks w)).
Definition putRules (r : gmap string ruleptr) : M () := λ w,
  Returns (tt, mkWorld (ruleHeap w) r (connManager w) (console w) (broker w) (ticks w)).
Definition putRule (p : ruleptr) (r : Rule) : M () := λ w,
  Returns (tt, mkWorld (<[p := r]> (ruleHeap w)) (rules w) (connManager w) (console w) (broker w) (ticks w)).
(** Dereferencing a pointer. *)
Definition derefRule (p : ruleptr) : M Rule := λ w,
  match ruleHeap w !! p with Some r => Returns (r, w) | None => Panics end.
Definition lift_outcome {A} (o : outcome A) : M A := λ w, let! a := o in Returns (a, w).

(** ** Actions (actions.go) *)

Definition replaceVariables (template : string) ctx : string :=
  let result := template in
  let result := ReplaceAll result "${topic}" (RC_Topic ctx) in
  let result := ReplaceAll result "${payload}" (string_of_bytes (RC_Payload ctx)) in
  let result := ReplaceAll result "${clientid}" (RC_ClientID ctx) in
  let result := ReplaceAll result "${username}" (RC_Username ctx) in
  let result := ReplaceAll result "${qos}" (pretty (RC_QoS ctx)) in
  let result := ReplaceAll result "${timestamp}" (FormatRFC3339 (RC_Timestamp ctx)) in
  result.

(** [time.Since(start)] and [time.Now()] of the result, and the result. *)
Definition finish (start : Time) (success : bool) (error : string) (output : Output) (err : option string)
    : M (ActionResult * option string) :=
  t ← Now; now ← Now; mret (mkActionResult success error (t - start) now output, err).

Definition consoleExecute ctx params : M (ActionResult * option string) :=
  start ← Now;
  let level := stringParam params "level" "info" in
  let template := stringParam params "template" "${topic}: ${payload}" in
  let message := replaceVariables template ctx in
  let logMessage := ("[" +:+ ToUpper level +:+ "] " +:+ message)%string in
  _ ← printLine logMessage;
  finish start true "" (OutText logMessage) None.

Definition consoleValidate params : option string :=
  match params !! "level" with
  | Some (VString levelStr) =>
      if existsb (λ valid, levelStr =s valid) ["debug"; "info"; "warn"; "error"] then None
      else Some ("invalid log level: " +:+ levelStr)%string
  | Some _ => Some "level must be a string"
  | None => None
  end.

Definition consoleSchema : any :=
  schemaField [("type", VString "object");
    ("properties", schemaField
      [("level", schemaField [("type", VString "string"); ("description", VString "Log level");
          ("enum", VSlice [VString "debug"; VString "info"; VString "warn"; VString "error"]);
          ("default", VString "info")]);
       ("template", schemaField [("type", VString "string");
          ("description", VString "Message template with variables like ${topic}, ${payload}");
          ("default", VString "${topic}: ${payload}")])])].

(** The header entries that are strings, with their variables replaced. *)
Definition setParamHeaders ctx (params : gmap string any) (h : gmap string string) : gmap string string :=
  match params !! "headers" with
  | Some (VMap headers) =>
      go_range (λ key value h, match value with
        | VString valueStr => <[CanonicalHeaderKey key := replaceVariables valueStr ctx]> h
        | _ => h
        end) headers h
  | _ => h
  end.

Definition httpExecute ctx params : M (ActionResult * option string) :=
  start ← Now;
  match as_string (params !! "url") with
  | None => finish start false "url parameter is required" NoOutput (Some "url parameter is required")
  | Some url =>
      let method := match as_string (params !! "method") with Some m => ToUpper m | None => "POST" end in
      let body := replaceVariables (stringParam params "body" "${payload}") ctx in
      match newRequest method url with
      | Some err => finish start false ("failed to create request: " +:+ err)%string NoOutput (Some err)
      | None =>
          let header := setParamHeaders ctx params {[ CanonicalHeaderKey "Content-Type" := "application/json" ]} in
          sent ← Now;
          match (httpDo sent (mkHTTPRequest method url header (bytes_of_string body))).2 with
          | Err err => finish start false ("HTTP request failed: " +:+ err)%string NoOutput (Some err)
          | Ok (code, respBody) =>
              if 400 <=? code
              then finish start false ("HTTP " +:+ pretty code +:+ ": " +:+ respBody)%string NoOutput
                     (Some ("HTTP request failed with status " +:+ pretty code)%string)
              else finish start true ""
                     (OutMap {[ "status_code" := VInt code; "response" := VString respBody ]}) None
          end
      end
  end.

Definition httpValidate params : option string :=
  match as_string (params !! "url") with
  | None => Some "url parameter is required"
  | Some _ =>
      match params !! "method" with
      | Some (VString methodStr) =>
          if existsb (λ valid, ToUpper methodStr =s valid) ["GET"; "POST"; "PUT"; "DELETE"; "PATCH"] then None
          else Some ("invalid HTTP method: " +:+ methodStr)%string
      | Some _ => Some "method must be a string"
      | None => None
      end
  end.

Definition httpSchema : any :=
  schemaField [("type", VString "object");
    ("properties", schemaField
      [("url", schemaField [("type", VString "string"); ("description", VString "HTTP endpoint URL");
          ("format", VString "uri")]);
       ("method", schemaField [("type", VString "string"); ("description", VString "HTTP method");
          ("enum", VSlice [VString "GET"; VString "POST"; VString "PUT"; VString "DELETE"; VString "PATCH"]);
          ("default", VString "POST")]);
       ("headers", schemaField [("type", VString "object"); ("description", VString "HTTP headers");
          ("additionalProperties", schemaField [("type", VString "string")])]);
       ("body", schemaField [("type", VString "string"); ("description", VString "Request body template");
          ("default", VString "${payload}")])]);
    ("required", VSlice [VString "url"])].

(** The message a connector is given: topic and payload may be overridden. *)
Definition connectorMessage ctx params (nanos : Z) : ConnMessage :=
  let topic := match as_string (params !! "topic") with
               | Some t => replaceVariables t ctx | None => RC_Topic ctx end in
  let payload := match as_string (params !! "payload_template") with
                 | Some t => bytes_of_string (replaceVariables t ctx) | None => RC_Payload ctx end in
  mkConnMessage ("rule-" +:+ pretty nanos)%string topic payload (RC_Headers ctx) (RC_Timestamp ctx) (RC_Metadata ctx).

Definition connectorExecute ctx params : M (ActionResult * option string) :=
  start ← Now;
  match as_string (params !! "connector_id") with
  | None => finish start false "connector_id parameter is required" NoOutput
              (Some "connector_id parameter is required")
  | Some connectorID =>
      cm ← gets connManager;
      match GetConnector connectorID cm with
      | Err err => finish start false ("connector not found: " +:+ err)%string NoOutput (Some err)
      | Ok conn =>
          nanos ← Now;
          now ← Now;
          sent ← lift_outcome (Send conn (connectorMessage ctx params nanos) now);
          let '(conn, (res, err)) := sent in
          _ ← putConnManager (putConnectors (<[connectorID := conn]> (connectors cm)) cm);
          match err, res with
          | Some e, _ => finish start false ("failed to send to connector: " +:+ e)%string NoOutput (Some e)
          | None, None => λ _, Panics
          | None, Some r =>
              if MR_Success r then finish start true "" (OutMessageResult r) None
              else finish start false (MR_Error r) NoOutput
                     (Some ("connector send failed: " +:+ MR_Error r)%string)
          end
      end
  end.

Definition connectorValidate params : option string :=
  match as_string (params !! "connector_id") with
  | None => Some "connector_id parameter is required"
  | Some _ => None
  end.

Definition connectorSchema : any :=
  schemaField [("type", VString "object");
    ("properties", schemaField
      [("connector_id", schemaField [("type", VString "string");
          ("description", VString "ID of the connector to send message to")]);
       ("topic", schemaField [("type", VString "string"); ("description", VString "Override topic (optional)")]);
       ("payload_template", schemaField [("type", VString "string");
          ("description", VString "Payload transformation template (optional)")])]);
    ("required", VSlice [VString "connector_id"])].

Definition republishQoS ctx params : Z :=
  match params !! "qos" with
  | Some (VFloat64 q) => int_of_float q
  | Some (VInt q) => q
  | _ => RC_QoS ctx
  end.
Definition republishPayload ctx params : list byte :=
  match as_string (params !! "payload_template") with
  | Some t => bytes_of_string (replaceVariables t ctx)
  | None => RC_Payload ctx
  end.

Definition republishExecute (callback : option (Callback C B)) ctx params : M (ActionResult * option string) :=
  start ← Now;
  match as_string (params !! "topic") with
  | None => finish start false "topic parameter is required" NoOutput (Some "topic parameter is required")
  | Some topic =>
      let targetTopic := replaceVariables topic ctx in
      let qos := republishQoS ctx params in
      let payload := republishPayload ctx params in
      err ← match callback with Some cb => cb targetTopic qos payload | None => mret None end;
      match err with
      | Some e => finish start false ("republish failed: " +:+ e)%string NoOutput (Some e)
      | None => finish start true ""
                  (OutMap {[ "target_topic" := VString targetTopic; "qos" := VInt qos;
                             "payload_size" := VInt (blen payload) ]}) None
      end
  end.

Definition republishValidate params : option string :=
  match as_string (params !! "topic") with
  | None => Some "topic parameter is required"
  | Some _ =>
      let check q := if (q <? 0) || (2 <? q) then Some "qos must be 0, 1, or 2" else None in
      match params !! "qos" with
      | None => None
      | Some (VInt v) => check v
      | Some (VFloat64 v) => check (int_of_float v)
      | Some _ => Some "qos must be an integer"
      end
  end.

Definition republishSchema : any :=
  schemaField [("type", VString "object");
    ("properties", schemaField
      [("topic", schemaField [("type", VString "string"); ("description", VString "Target topic for republishing")]);
       ("qos", schemaField [("type", VString "integer"); ("description", VString "QoS level for republished message");
          ("enum", VSlice [VInt 0; VInt 1; VInt 2]); ("default", VInt 0)]);
       ("payload_template", schemaField [("type", VString "string");
          ("description", VString "Payload transformation template (optional)")])]);
    ("required", VSlice [VString "topic"])].

Definition discardExecute params : M (ActionResult * option string) :=
  start ← Now;
  finish start true ""
    (OutMap {[ "action" := VString "discard";
               "reason" := VString (stringParam params "reason" "Message discarded by rule") ]}) None.

Definition discardSchema : any :=
  schemaField [("type", VString "object");
    ("properties", schemaField
      [("reason", schemaField [("type", VString "string"); ("description", VString "Reason for discarding the message");
          ("default", VString "Message discarded by rule")])])].

(** The interface [ActionExecutor]. *)
Definition Execute (e : ActionExecutor C B) ctx params : M (ActionResult * option string) :=
  match e with
  | ConsoleActionExecutor => consoleExecute ctx params
  | HTTPActionExecutor => httpExecute ctx params
  | ConnectorActionExecutor => connectorExecute ctx params
  | RepublishActionExecutor cb => republishExecute cb ctx params
  | DiscardActionExecutor => discardExecute params
  | CustomActionExecutor execute _ _ => execute ctx params
  end.
Definition ValidateAction (e : ActionExecutor C B) params : option string :=
  match e with
  | ConsoleActionExecutor => consoleValidate params
  | HTTPActionExecutor => httpValidate params
  | ConnectorActionExecutor => connectorValidate params
  | RepublishActionExecutor _ => republishValidate params
  | DiscardActionExecutor => None
  | CustomActionExecutor _ validate _ => validate params
  end.
Definition GetSchema (e : ActionExecutor C B) : any :=
  match e with
  | ConsoleActionExecutor => consoleSchema
  | HTTPActionExecutor => httpSchema
  | ConnectorActionExecutor => connectorSchema
  | RepublishActionExecutor _ => republishSchema
  | DiscardActionExecutor => discardSchema
  | CustomActionExecutor _ _ schema => schema
  end.

(** ** The engine (engine.go)

    [re.actions], the table of executors; the rules themselves are in the world. *)
Abbreviation Actions := (gmap string (ActionExecutor C B)).
Implicit Types actions : Actions.

Definition RegisterAction (actionType : string) (executor : ActionExecutor C B) actions : Actions :=
  <[actionType := executor]> actions.

Definition NewRuleEngine : Actions :=
  RegisterAction ActionTypeDiscard DiscardActionExecutor
    (RegisterAction ActionTypeRepublish (RepublishActionExecutor None)
      (RegisterAction ActionTypeConnector ConnectorActionExecutor
        (RegisterAction ActionTypeHTTP HTTPActionExecutor
          (RegisterAction ActionTypeConsole ConsoleActionExecutor ∅)))).

(** [SetRepublishCallback] on the registered executor. *)
Definition SetRepublishCallback (callback : Callback C B) actions : Actions :=
  match actions !! ActionTypeRepublish with
  | Some (RepublishActionExecutor _) =>
      <[ActionTypeRepublish := RepublishActionExecutor (Some callback)]> actions
  | _ => actions
  end.

(** [re.sqlParser.Parse] and [Validate]; [Parse] always has an answer ([parse_terminates]). *)
Definition parseSQL (sql : string) : outcome (result SQLCondition) :=
  match Parse sql with Some o => o | None => Panics end.
Definition validateSQL (sql : string) : outcome (option string) :=
  match Validate sql with Some o => o | None => Panics end.

(** The loop that validates the actions, from index [i]. *)
Fixpoint validateActions actions (i : Z) (l : list Action) : option string :=
  match l with
  | [] => None
  | action :: l' =>
      match actions !! A_Type action with
      | None => Some ("unknown action type: " +:+ A_Type action)%string
      | Some executor =>
          match ValidateAction executor (A_Parameters action) with
          | Some err => Some ("invalid action " +:+ pretty i +:+ ": " +:+ err)%string
          | None => validateActions actions (i + 1) l'
          end
      end
  end.

(** The checks that [CreateRule] and [UpdateRule] share. *)
Definition validateRule actions rule : outcome (option string) :=
  let! err := validateSQL (R_SQL rule) in
  Returns match err with
          | Some e => Some ("invalid SQL: " +:+ e)%string
          | None => validateActions actions 0 (R_Actions rule)
          end.

Definition withTimes (created updated : Time) (m : RuleMetrics) rule : Rule :=
  mkRule (R_ID rule) (R_Name rule) (R_Description rule) (R_SQL rule) (R_Actions rule) (R_Status rule)
    (R_Priority rule) created updated m (R_Metadata rule).
Definition withStatus (s : RuleStatus) (updated : Time) rule : Rule :=
  mkRule (R_ID rule) (R_Name rule) (R_Description rule) (R_SQL rule) (R_Actions rule) s
    (R_Priority rule) (R_CreatedAt rule) updated (R_Metrics rule) (R_Metadata rule).
Definition withMetrics (m : RuleMetrics) rule : Rule :=
  mkRule (R_ID rule) (R_Name rule) (R_Description rule) (R_SQL rule) (R_Actions rule) (R_Status rule)
    (R_Priority rule) (R_CreatedAt rule) (R_UpdatedAt rule) m (R_Metadata rule).

(** [re.rules[id] = &rule]: a new object. *)
Definition allocRule (id : string) rule : M () := λ w,
  let p := fresh (dom (ruleHeap w)) in
  Returns (tt, mkWorld (<[p := rule]> (ruleHeap w)) (<[id := p]> (rules w)) (connManager w) (console w)
                 (broker w) (ticks w)).

Definition notFound (id : string) : string := ("rule not found: " +:+ id)%string.

Definition CreateRule actions rule : M (option string) :=
  rs ← gets rules;
  match rs !! R_ID rule with
  | Some _ => mret (Some ("rule with ID " +:+ R_ID rule +:+ " already exists")%string)
  | None =>
      err ← lift_outcome (validateRule actions rule);
      match err with
      | Some e => mret (Some e)
      | None =>
          now ← Now;
          _ ← allocRule (R_ID rule) (withTimes now now noMetrics rule);
          mret None
      end
  end.

Definition GetRule (id : string) : M (result Rule) :=
  rs ← gets rules;
  match rs !! id with
  | None => mret (Err (notFound id))
  | Some p => r ← derefRule p; mret (Ok r)
  end.

Definition UpdateRule actions (id : string) rule : M (option string) :=
  rs ← gets rules;
  match rs !! id with
  | None => mret (Some (notFound id))
  | Some p =>
      existing ← derefRule p;
      err ← lift_outcome (validateRule actions rule);
      match err with
      | Some e => mret (Some e)
      | None =>
          now ← Now;
          _ ← allocRule id (withTimes (R_CreatedAt existing) now (R_Metrics existing) rule);
          mret None
      end
  end.

Definition DeleteRule (id : string) : M (option string) :=
  rs ← gets rules;
  match rs !! id with
  | None => mret (Some (notFound id))
  | Some _ => _ ← putRules (delete id rs); mret None
  end.

(** Copies of all rules. *)
Definition ListRules w : gmap string Rule := omap (λ p, ruleHeap w !! p) (rules w).

Definition setRuleStatus (s : RuleStatus) (id : string) : M (option string) :=
  rs ← gets rules;
  match rs !! id with
  | None => mret (Some (notFound id))
  | Some p =>
      rule ← derefRule p;
      now ← Now;
      _ ← putRule p (withStatus s now rule);
      mret None
  end.
Definition EnableRule : string → M (option string) := setRuleStatus RuleStatusEnabled.
Definition DisableRule : string → M (option string) := setRuleStatus RuleStatusDisabled.

(** ** Processing *)

Definition recordRuleMatch (p : ruleptr) : M () :=
  rule ← derefRule p;
  let m := R_Metrics rule in
  putRule p (withMetrics (mkRuleMetrics (i64 (MatchedCount m + 1)) (ExecutedCount m) (FailedCount m)
    (RM_AvgLatency m) (LastExecution m) (RM_LastError m) (RM_LastErrorTime m)) rule).

Definition recordRuleExecution (p : ruleptr) (latency : Duration) : M () :=
  now ← Now;
  rule ← derefRule p;
  let m := R_Metrics rule in
  let n := i64 (ExecutedCount m + 1) in
  let avg := if n =? 1 then latency
             else Z.quot (i64 (i64 (RM_AvgLatency m * (n - 1)) + latency)) n in
  putRule p (withMetrics (mkRuleMetrics (MatchedCount m) n (FailedCount m) avg (Some now)
    (RM_LastError m) (RM_LastErrorTime m)) rule).

Definition recordRuleError (p : ruleptr) (errorMsg : string) : M () :=
  now ← Now;
  rule ← derefRule p;
  let m := R_Metrics rule in
  putRule p (withMetrics (mkRuleMetrics (MatchedCount m) (ExecutedCount m) (i64 (FailedCount m + 1))
    (RM_AvgLatency m) (LastExecution m) errorMsg (Some now)) rule).

(** One action of a rule that matched; an error is recorded and the next action runs. *)
Definition runAction actions (p : ruleptr) ctx (action : Action) : M () :=
  match actions !! A_Type action with
  | None => recordRuleError p ("unknown action type: " +:+ A_Type action)%string
  | Some executor =>
      re ← Execute executor ctx (A_Parameters action);
      match re with
      | (_, Some err) => recordRuleError p ("action execution error: " +:+ err)%string
      | (result, None) =>
          if negb (AR_Success result) then recordRuleError p (AR_Error result) else mret tt
      end
  end.

Fixpoint runActions actions (p : ruleptr) ctx (l : list Action) : M () :=
  match l with
  | [] => mret tt
  | action :: l' => _ ← runAction actions p ctx action; runActions actions p ctx l'
  end.

Definition processRule actions (p : ruleptr) ctx : M (option string) :=
  start ← Now;
  rule ← derefRule p;
  r ← lift_outcome (parseSQL (R_SQL rule));
  match r with
  | Err err => _ ← recordRuleError p ("SQL parse error: " +:+ err)%string; mret (Some err)
  | Ok condition =>
      match Evaluate Unmarshal MatchString ctx condition with
      | Err err => _ ← recordRuleError p ("SQL evaluation error: " +:+ err)%string; mret (Some err)
      | Ok false => mret None
      | Ok true =>
          _ ← recordRuleMatch p;
          _ ← runActions actions p ctx (R_Actions rule);
          t ← Now;
          _ ← recordRuleExecution p (t - start);
          mret None
      end
  end.

(** The exchange sort of [ProcessMessage]: the element at position [i] is compared with all
    the later ones and exchanged with each that has a higher priority. *)
Fixpoint exchange (prio : ruleptr → Z) (x : ruleptr) (rest : list ruleptr) : ruleptr * list ruleptr :=
  match rest with
  | [] => (x, [])
  | y :: rest' =>
      if prio x <? prio y
      then let '(m, r) := exchange prio y rest' in (m, x :: r)
      else let '(m, r) := exchange prio x rest' in (m, y :: r)
  end.
Fixpoint sortFrom (prio : ruleptr → Z) (fuel : nat) (l : list ruleptr) : list ruleptr :=
  match fuel, l with
  | S fuel, x :: rest => let '(m, r) := exchange prio x rest in m :: sortFrom prio fuel r
  | _, _ => l
  end.
Definition sortRules (prio : ruleptr → Z) (l : list ruleptr) : list ruleptr := sortFrom prio (length l) l.

Definition priorityOf w (p : ruleptr) : Z :=
  match ruleHeap w !! p with Some r => R_Priority r | None => 0 end.
Definition isEnabled w (p : ruleptr) : bool :=
  match ruleHeap w !! p with Some r => bool_decide (R_Status r = RuleStatusEnabled) | None => false end.
Definition enabledRules w : list ruleptr := filter (λ p, isEnabled w p) ((map_to_list (rules w)).*2).

Fixpoint processRules actions ctx (l : list ruleptr) : M () :=
  match l with
  | [] => mret tt
  | p :: l' => _ ← processRule actions p ctx; processRules actions ctx l'
  end.

Definition ProcessMessage actions ctx : M (option string) :=
  enabled ← gets (λ w, sortRules (priorityOf w) (enabledRules w));
  _ ← processRules actions ctx enabled;
  mret None.

(** ** Reading *)

Definition GetRuleMetrics (id : string) : M (result RuleMetrics) :=
  rs ← gets rules;
  match rs !! id with
  | None => mret (Err (notFound id))
  | Some p => r ← derefRule p; mret (Ok (R_Metrics r))
  end.
Definition GetAllRuleMetrics w : gmap string RuleMetrics := R_Metrics <$> ListRules w.
Definition GetActionTypes actions : list string := (map_to_list actions).*1.
Definition GetActionExecutor actions (actionType : string) : result (ActionExecutor C B) :=
  match actions !! actionType with
  | None => Err ("unknown action type: " +:+ actionType)%string
  | Some executor => Ok executor
  end.
Definition GetActionSchema actions (actionType : string) : result any :=
  match actions !! actionType with
  | None => Err ("unknown action type: " +:+ actionType)%string
  | Some executor => Ok (GetSchema executor)
  end.
End RuleEngine.
