(* ===== verification/RuleEngineProps.v ===== *)
(** * Properties of the rule engine (pkg/rules/engine.go): the order of the rules, the rule
    store as a map, the metrics, and republishing into the engine's own rules *)

From S2P Require Import Prelude GoLib GoValue Connector ConnHTTP RuleSQL RuleParse RuleEngine.
From Stdlib Require Import Sorting.Sorted.
Local Open Scope emqx_scope.
Local Open Scope Z_scope.

(** ** The exchange sort *)

Section Sorting.
Context (prio : ruleptr → Z).

Lemma exchange_perm x rest m r : exchange prio x rest = (m, r) → m :: r ≡ₚ x :: rest.
Proof.
  revert x m r. induction rest as [|y rest IH]; intros x m r E; simpl in E; [by simplify_eq|].
  case_match; destruct (exchange prio _ rest) as [m' r'] eqn:E'; simplify_eq; apply IH in E'.
  - by rewrite Permutation_swap, E'.
  - rewrite Permutation_swap, E'. apply Permutation_swap.
Qed.

Lemma exchange_max x rest m r :
  exchange prio x rest = (m, r) → prio x ≤ prio m ∧ Forall (λ y, prio y ≤ prio m) r.
Proof.
  revert x m r. induction rest as [|y rest IH]; intros x m r E; simpl in E.
  { simplify_eq. split; [lia|constructor]. }
  case_match; bool_prop; destruct (exchange prio _ rest) as [m' r'] eqn:E'; simplify_eq; apply IH in E' as [? ?].
  - split; [lia|]. constructor; [lia|done].
  - split; [done|]. constructor; [lia|done].
Qed.

Lemma exchange_length x rest m r : exchange prio x rest = (m, r) → length r = length rest.
Proof. intros E. apply exchange_perm, Permutation_length in E. simpl in E. lia. Qed.

Lemma sortFrom_spec fuel l : (length l ≤ fuel)%nat →
  sortFrom prio fuel l ≡ₚ l ∧ StronglySorted (λ x y, prio y ≤ prio x) (sortFrom prio fuel l).
Proof.
  revert l. induction fuel as [|fuel IH]; intros l Hl.
  { destruct l; [|simpl in Hl; lia]. split; [done|constructor]. }
  destruct l as [|x rest]; [split; [done|constructor]|]. cbn [sortFrom].
  destruct (exchange prio x rest) as [m r] eqn:E.
  pose proof (exchange_perm _ _ _ _ E) as Hp. pose proof (exchange_max _ _ _ _ E) as [_ Hm].
  pose proof (exchange_length _ _ _ _ E). simpl in Hl. destruct (IH r) as [Hr Hs]; [lia|].
  split; [by rewrite Hr|]. constructor; [done|]. by rewrite Hr.
Qed.
End Sorting.

Section EngineProps.
Context `{GoFloat} `{GoUnicode} {C : Type} `{!Connector C} {B : Type}.
Context (Unmarshal : list byte → result any) (MatchString : string → string → result bool).
Context (FormatRFC3339 : Time → string).
Context (newRequest : string → string → option string)
  (httpDo : Time → HTTPRequest → Time * result (Z * string)) (CanonicalHeaderKey : string → string).
Context (clock : nat → Time).
Abbreviation M := (RM C B).
Abbreviation Actions := (gmap string (ActionExecutor C B)).
Implicit Types (w : World C B) (ctx : RuleContext) (rule : Rule) (actions : Actions).
Abbreviation Exec := (Execute FormatRFC3339 newRequest httpDo CanonicalHeaderKey clock).
Abbreviation processOne := (processRule Unmarshal MatchString FormatRFC3339 newRequest httpDo CanonicalHeaderKey clock).
Abbreviation processAll := (processRules Unmarshal MatchString FormatRFC3339 newRequest httpDo CanonicalHeaderKey clock).
Abbreviation runAll := (runActions FormatRFC3339 newRequest httpDo CanonicalHeaderKey clock).
Abbreviation runOne := (runAction FormatRFC3339 newRequest httpDo CanonicalHeaderKey clock).

Lemma RM_bind_Returns {A A'} (m : M A) (k : A → M A') w r :
  (m ≫= k) w = Returns r ↔ ∃ a w1, m w = Returns (a, w1) ∧ k a w1 = Returns r.
Proof.
  unfold mbind, RM_bind. destruct (m w) as [[a w1]| |]; simpl; [|naive_solver..].
  split; [by exists a, w1|]. intros (a' & w1' & ? & ?). by simplify_eq.
Qed.

(** ** The rule store is a map from identifiers to rules *)

(** Every pointer of the engine is valid and distinct identifiers have distinct objects. *)
Record store_wf w : Prop := {
  wf_valid id p : rules w !! id = Some p → is_Some (ruleHeap w !! p);
  wf_inj id1 id2 p : rules w !! id1 = Some p → rules w !! id2 = Some p → id1 = id2;
}.

Lemma ListRules_lookup w id : ListRules w !! id = (rules w !! id ≫= λ p, ruleHeap w !! p).
Proof. unfold ListRules. by rewrite lookup_omap. Qed.

Lemma ListRules_None w id : store_wf w → ListRules w !! id = None ↔ rules w !! id = None.
Proof.
  intros Hwf. rewrite ListRules_lookup. destruct (rules w !! id) as [p|] eqn:E; simpl; [|done].
  destruct (wf_valid _ Hwf _ _ E) as [r ->]. done.
Qed.

(** The readings of the clock do not matter to the store. *)
Definition same_store w w' : Prop := ruleHeap w' = ruleHeap w ∧ rules w' = rules w.

Lemma same_store_wf w w' : same_store w w' → store_wf w → store_wf w'.
Proof. intros [Eh Er] [Hv Hi]. split; rewrite ?Eh, ?Er; eauto. Qed.

Lemma same_store_list w w' : same_store w w' → ListRules w' = ListRules w.
Proof. intros [Eh Er]. unfold ListRules. by rewrite Eh, Er. Qed.

Lemma alloc_store w id rule u w' :
  allocRule id rule w = Returns (u, w') → store_wf w →
  store_wf w' ∧ ListRules w' = <[id := rule]> (ListRules w).
Proof.
  unfold allocRule. intros E Hwf. simplify_eq. set (p := fresh (dom (ruleHeap w))).
  assert (Hp : ruleHeap w !! p = None) by (apply not_elem_of_dom, is_fresh).
  assert (Hne : ∀ id' q, rules w !! id' = Some q → q ≠ p).
  { intros id' q Hq ->. destruct (wf_valid _ Hwf _ _ Hq) as [? ?]. congruence. }
  split.
  - split; cbn [rules ruleHeap].
    + intros id' q. rewrite !lookup_insert_Some. intros [[<- <-]|[_ Hq]].
      * rewrite lookup_insert_eq. eauto.
      * rewrite lookup_insert_ne by (symmetry; eauto). by apply (wf_valid _ Hwf id').
    + intros id1 id2 q. rewrite !lookup_insert_Some.
      intros [[<- <-]|[? Hq1]] [[<- ?]|[? Hq2]]; try done; subst;
        [by apply Hne in Hq2|by apply Hne in Hq1|by eapply (wf_inj _ Hwf)].
  - apply map_eq. intros id'. rewrite ListRules_lookup. cbn [rules ruleHeap].
    destruct (decide (id' = id)) as [->|Hid].
    + rewrite !lookup_insert_eq. simpl. by rewrite lookup_insert_eq.
    + rewrite !lookup_insert_ne by done. rewrite ListRules_lookup.
      destruct (rules w !! id') as [q|] eqn:Eq; simpl; [|done].
      rewrite lookup_insert_ne; [done|]. symmetry. eauto.
Qed.

Lemma put_store w id p rule u w' :
  putRule p rule w = Returns (u, w') → store_wf w → rules w !! id = Some p →
  store_wf w' ∧ ListRules w' = <[id := rule]> (ListRules w).
Proof.
  unfold putRule. intros E Hwf Hp. simplify_eq. split.
  - split; cbn [rules ruleHeap]; [|apply (wf_inj _ Hwf)].
    intros id' q Hq. rewrite lookup_insert_is_Some. destruct (decide (p = q)); [by left|right].
    split; [done|]. by apply (wf_valid _ Hwf id').
  - apply map_eq. intros id'. rewrite ListRules_lookup. cbn [rules ruleHeap].
    destruct (decide (id' = id)) as [->|Hid].
    + rewrite Hp, lookup_insert_eq. simpl. by rewrite lookup_insert_eq.
    + rewrite (lookup_insert_ne (ListRules w)) by done. rewrite ListRules_lookup.
      destruct (rules w !! id') as [q|] eqn:Eq; simpl; [|done].
      rewrite lookup_insert_ne; [done|]. intros <-. apply Hid. by eapply (wf_inj _ Hwf).
Qed.

(** The specification: what each operation does to the map of rules and what it answers.
    [now] is the reading of the clock. *)
Inductive rule_op := OpCreate (rule : Rule) | OpUpdate (id : string) (rule : Rule) | OpDelete (id : string)
  | OpEnable (id : string) | OpDisable (id : string).

Definition runOp actions (op : rule_op) : M (option string) :=
  match op with
  | OpCreate rule => CreateRule clock actions rule
  | OpUpdate id rule => UpdateRule clock actions id rule
  | OpDelete id => DeleteRule id
  | OpEnable id => EnableRule clock id
  | OpDisable id => DisableRule clock id
  end.

Definition specOp actions (op : rule_op) (m : gmap string Rule) (now : Time) : outcome (gmap string Rule * option string) :=
  match op with
  | OpCreate rule =>
      match m !! R_ID rule with
      | Some _ => Returns (m, Some ("rule with ID " +:+ R_ID rule +:+ " already exists")%string)
      | None =>
          let! err := validateRule actions rule in
          Returns match err with
                  | Some e => (m, Some e)
                  | None => (<[R_ID rule := withTimes now now noMetrics rule]> m, None)
                  end
      end
  | OpUpdate id rule =>
      match m !! id with
      | None => Returns (m, Some (notFound id))
      | Some existing =>
          let! err := validateRule actions rule in
          Returns match err with
                  | Some e => (m, Some e)
                  | None => (<[id := withTimes (R_CreatedAt existing) now (R_Metrics existing) rule]> m, None)
                  end
      end
  | OpDelete id =>
      Returns match m !! id with None => (m, Some (notFound id)) | Some _ => (delete id m, None) end
  | OpEnable id =>
      Returns match m !! id with
              | None => (m, Some (notFound id))
              | Some rule => (<[id := withStatus RuleStatusEnabled now rule]> m, None)
              end
  | OpDisable id =>
      Returns match m !! id with
              | None => (m, Some (notFound id))
              | Some rule => (<[id := withStatus RuleStatusDisabled now rule]> m, None)
              end
  end.

Ltac run := unfold mbind, RM_bind, mret, RM_ret, gets, lift_outcome, derefRule, Now; cbn [outcome_bind].

Lemma setRuleStatus_spec s id w :
  store_wf w →
  match ListRules w !! id with
  | None => setRuleStatus clock s id w = Returns (Some (notFound id), w)
  | Some rule => ∃ w', setRuleStatus clock s id w = Returns (None, w') ∧ store_wf w' ∧
      ListRules w' = <[id := withStatus s (clock (ticks w)) rule]> (ListRules w)
  end.
Proof.
  intros Hwf. rewrite ListRules_lookup. unfold setRuleStatus. run.
  destruct (rules w !! id) as [p|] eqn:Ep; cbn [mbind option_bind]; [|done].
  destruct (wf_valid _ Hwf _ _ Ep) as [rule Hr]. rewrite Hr. run. rewrite ?Hr. cbn [outcome_bind].
  set (w1 := mkWorld _ _ _ _ _ _).
  destruct (put_store w1 id p (withStatus s (clock (ticks w)) rule) tt _ eq_refl) as [Hwf' El];
    [by apply (same_store_wf w)|done|].
  eexists. split_and!; [reflexivity|done|]. by rewrite El, (same_store_list w w1).
Qed.

(** C15. The engine is a map from identifiers to rules: creating, updating, deleting,
    enabling and disabling a rule answer and change the listed rules exactly as the
    specification on maps says, with all its errors (identifier in use, unknown rule,
    invalid condition, unknown or invalid action), a panic of the parser included; the
    store stays well formed, and an update keeps the creation time and the metrics. *)
Theorem engine_refines_map actions op w :
  store_wf w →
  match specOp actions op (ListRules w) (clock (ticks w)) with
  | Returns (m, err) => ∃ w', runOp actions op w = Returns (err, w') ∧ ListRules w' = m ∧ store_wf w'
  | Panics => runOp actions op w = Panics
  | Blocks => runOp actions op w = Blocks
  end.
Proof.
  intros Hwf. destruct op as [rule|id rule|id|id|id]; cbn [specOp runOp].
  - unfold CreateRule. run. rewrite ListRules_lookup.
    destruct (rules w !! R_ID rule) as [p|] eqn:Ep; cbn [mbind option_bind].
    { destruct (wf_valid _ Hwf _ _ Ep) as [r ->]. eauto. }
    run. destruct (validateRule actions rule) as [[e|]| |]; cbn [outcome_bind]; try done; [eauto|].
    set (w1 := mkWorld _ _ _ _ _ _).
    destruct (alloc_store w1 (R_ID rule) (withTimes (clock (ticks w)) (clock (ticks w)) noMetrics rule) tt _ eq_refl)
      as [Hwf' El]; [by apply (same_store_wf w)|].
    eexists. split_and!; [reflexivity| |done]. by rewrite El, (same_store_list w w1).
  - unfold UpdateRule. run. rewrite ListRules_lookup.
    destruct (rules w !! id) as [p|] eqn:Ep; cbn [mbind option_bind]; [|eauto].
    destruct (wf_valid _ Hwf _ _ Ep) as [r Hr]. rewrite Hr. run. rewrite ?Hr. cbn [outcome_bind].
    destruct (validateRule actions rule) as [[e|]| |]; cbn [outcome_bind]; try done; [eauto|].
    set (w1 := mkWorld _ _ _ _ _ _).
    destruct (alloc_store w1 id (withTimes (R_CreatedAt r) (clock (ticks w)) (R_Metrics r) rule) tt _ eq_refl)
      as [Hwf' El]; [by apply (same_store_wf w)|].
    eexists. split_and!; [reflexivity| |done]. by rewrite El, (same_store_list w w1).
  - unfold DeleteRule. run. rewrite ListRules_lookup.
    destruct (rules w !! id) as [p|] eqn:Ep; cbn [mbind option_bind]; [|eauto].
    destruct (wf_valid _ Hwf _ _ Ep) as [r Hr]. rewrite Hr. run.
    eexists. split_and!; [reflexivity| |].
    + unfold ListRules. cbn [rules ruleHeap]. by rewrite omap_delete.
    + destruct Hwf as [Hv Hi]. split; cbn [rules ruleHeap].
      * intros id' q. rewrite lookup_delete_Some. intros [_ ?]. by eapply Hv.
      * intros id1 id2 q. rewrite !lookup_delete_Some. intros [_ ?] [_ ?]. by eapply Hi.
  - unfold EnableRule. pose proof (setRuleStatus_spec RuleStatusEnabled id w Hwf) as Hs.
    destruct (ListRules w !! id); [destruct Hs as (w' & -> & ? & ?)|rewrite Hs]; eauto.
  - unfold DisableRule. pose proof (setRuleStatus_spec RuleStatusDisabled id w Hwf) as Hs.
    destruct (ListRules w !! id); [destruct Hs as (w' & -> & ? & ?)|rewrite Hs]; eauto.
Qed.

(** ** Processing *)

(** A rule comes before those of lower priority. *)
Definition byPriority (w : World C B) (p q : ruleptr) : Prop := priorityOf w q ≤ priorityOf w p.

(** An operation that does not touch the rules. *)
Definition quiet {A} (m : M A) : Prop := ∀ w a w', m w = Returns (a, w') → same_store w w'.

Lemma quiet_ret {A} (a : A) : quiet (mret a).
Proof. intros w a' w' E. unfold mret, RM_ret in E. by simplify_eq. Qed.
Lemma quiet_bind {A A'} (m : M A) (k : A → M A') : quiet m → (∀ a, quiet (k a)) → quiet (m ≫= k).
Proof.
  intros Hm Hk w a w' E. apply RM_bind_Returns in E as (x & w1 & E1 & E2).
  apply Hm in E1 as [? ?]. apply Hk in E2 as [? ?]. split; congruence.
Qed.
Lemma quiet_Now : quiet (Now clock).
Proof. intros w a w' E. unfold Now in E. by simplify_eq. Qed.
Lemma quiet_gets {A} (f : World C B → A) : quiet (gets f).
Proof. intros w a w' E. unfold gets in E. by simplify_eq. Qed.
Lemma quiet_printLine s : quiet (printLine s).
Proof. intros w a w' E. unfold printLine in E. by simplify_eq. Qed.
Lemma quiet_putConnManager cm : quiet (putConnManager cm).
Proof. intros w a w' E. unfold putConnManager in E. by simplify_eq. Qed.
Lemma quiet_lift {A} (o : outcome A) : quiet (lift_outcome o).
Proof. intros w a w' E. unfold lift_outcome in E. destruct o; simplify_eq/=. done. Qed.
Lemma quiet_Panics {A} : quiet (λ _, Panics : outcome (A * World C B)).
Proof. by intros w a w' E. Qed.

Create HintDb quiet.
#[local] Hint Resolve quiet_ret quiet_Now quiet_gets quiet_printLine quiet_putConnManager quiet_lift quiet_Panics : quiet.
Ltac solve_quiet := repeat first
  [ solve [eauto with quiet]
  | apply quiet_bind; [|intros]
  | progress (unfold finish)
  | case_match ].

(** The executors of the engine leave the rules alone, as long as the republish callback
    does. *)
Definition leaves_rules (e : ActionExecutor C B) : Prop :=
  match e with
  | RepublishActionExecutor (Some cb) => ∀ t q p, quiet (cb t q p)
  | CustomActionExecutor execute _ _ => ∀ ctx params, quiet (execute ctx params)
  | _ => True
  end.

Lemma Execute_quiet e ctx params : leaves_rules e → quiet (Exec e ctx params).
Proof.
  destruct e as [| | |cb| |execute v sc]; intros He; cbn [Execute].
  - unfold consoleExecute. solve_quiet.
  - unfold httpExecute. solve_quiet.
  - unfold connectorExecute. solve_quiet.
  - unfold republishExecute. destruct cb as [cb|]; solve_quiet.
  - unfold discardExecute. solve_quiet.
  - apply He.
Qed.

(** The counters of a rule. *)
Definition ruleCounts (r : Rule) : Z * Z * Z :=
  (MatchedCount (R_Metrics r), ExecutedCount (R_Metrics r), FailedCount (R_Metrics r)).

(** Only the metrics of the rule [p] changed, its counters to [c]. *)
Definition only_metrics (p : ruleptr) (c : Z * Z * Z) w w' : Prop :=
  rules w' = rules w ∧ ∃ r m, ruleHeap w !! p = Some r ∧ ruleHeap w' = <[p := withMetrics m r]> (ruleHeap w) ∧
    ruleCounts (withMetrics m r) = c.

Lemma only_metrics_trans p c1 c2 w w1 w2 :
  only_metrics p c1 w w1 → only_metrics p c2 w1 w2 → only_metrics p c2 w w2.
Proof.
  intros [E1 (r & m & Hr & Hh & _)] [E2 (r2 & m2 & Hr2 & Hh2 & Hc)]. split; [congruence|].
  rewrite Hh, lookup_insert_eq in Hr2. simplify_eq. exists r, m2. split_and!; [done| |done].
  by rewrite Hh2, Hh, insert_insert_eq.
Qed.

Lemma only_metrics_same p c w w1 w2 : only_metrics p c w w1 → same_store w1 w2 → only_metrics p c w w2.
Proof. intros [E (r & m & Hr & Hh & Hc)] [Eh Er]. split; [congruence|]. exists r, m. by rewrite Eh. Qed.

Lemma same_only_metrics p c w w1 w2 : same_store w w1 → only_metrics p c w1 w2 → only_metrics p c w w2.
Proof. intros [Eh Er] [E (r & m & Hr & Hh & Hc)]. split; [congruence|]. exists r, m. by rewrite <- Eh. Qed.

Lemma recordRuleError_spec p msg w u w' r :
  recordRuleError clock p msg w = Returns (u, w') → ruleHeap w !! p = Some r →
  only_metrics p (MatchedCount (R_Metrics r), ExecutedCount (R_Metrics r), i64 (FailedCount (R_Metrics r) + 1)) w w'.
Proof.
  unfold recordRuleError. run. intros E Hr. cbn [ruleHeap] in E. rewrite Hr in E. cbn [outcome_bind] in E.
  unfold putRule in E. simplify_eq. split; [done|]. eexists r, _. split_and!; [done|reflexivity|done].
Qed.

(** The rule [p] with the counters [c]. *)
Definition has_counts w (p : ruleptr) (c : Z * Z * Z) : Prop :=
  ∃ r, ruleHeap w !! p = Some r ∧ ruleCounts r = c.

Lemma only_metrics_counts p c w w' : only_metrics p c w w' → has_counts w' p c.
Proof. intros [_ (r & m & _ & Hh & Hc)]. exists (withMetrics m r). by rewrite Hh, lookup_insert_eq. Qed.

(** Each action adds at most one failure. *)
Lemma runAction_spec actions p ctx action w u w' a b c :
  (∀ t e, actions !! t = Some e → leaves_rules e) →
  runOne actions p ctx action w = Returns (u, w') → has_counts w p (a, b, c) →
  same_store w w' ∨ only_metrics p (a, b, i64 (c + 1)) w w'.
Proof.
  intros Hq E (r & Hr & Hc). unfold ruleCounts in Hc. simplify_eq. unfold runAction in E.
  destruct (actions !! A_Type action) as [e|] eqn:Ea; [|right; by eapply recordRuleError_spec].
  apply RM_bind_Returns in E as ([res err] & w1 & E1 & E2). apply Execute_quiet in E1; [|by eapply Hq].
  assert (Hr1 : ruleHeap w1 !! p = Some r) by (destruct E1 as [-> _]; done).
  destruct err; [right; eapply same_only_metrics; [done|]; by eapply recordRuleError_spec|].
  destruct (AR_Success res); cbn [negb] in E2.
  - left. unfold mret, RM_ret in E2. by simplify_eq.
  - right. eapply same_only_metrics; [done|]. by eapply recordRuleError_spec.
Qed.

Lemma runActions_spec actions p ctx l w u w' a b c :
  (∀ t e, actions !! t = Some e → leaves_rules e) →
  runAll actions p ctx l w = Returns (u, w') → has_counts w p (a, b, c) →
  ∃ k, 0 ≤ k ≤ Z.of_nat (length l) ∧
    (k = 0 ∧ same_store w w' ∨ 0 < k ∧ only_metrics p (a, b, i64 (c + k)) w w').
Proof.
  intros Hq. revert w c. induction l as [|action l IH]; intros w c E Hc; cbn [runActions] in E.
  { unfold mret, RM_ret in E. simplify_eq. exists 0. split; [simpl; lia|]. by left. }
  apply RM_bind_Returns in E as (x & w1 & E1 & E2).
  destruct (runAction_spec _ _ _ _ _ _ _ _ _ _ Hq E1 Hc) as [Hs|Ho].
  - destruct (IH w1 c E2) as (k & Hk & Hcase).
    { destruct Hc as (r & Hr & Hc). exists r. destruct Hs as [-> _]. done. }
    exists k. split; [simpl; lia|]. destruct Hcase as [[-> Hs']|[Hpos Ho]].
    + left. split; [done|]. destruct Hs, Hs'. split; congruence.
    + right. split; [done|]. by eapply same_only_metrics.
  - destruct (IH w1 (i64 (c + 1)) E2 (only_metrics_counts _ _ _ _ Ho)) as (k & Hk & Hcase).
    exists (k + 1). split; [simpl; lia|]. right. split; [lia|].
    assert (Ei : i64 (i64 (c + 1) + k) = i64 (c + (k + 1))).
    { unfold i64. replace ((c + 1 + 2 ^ 63) mod 2 ^ 64 - 2 ^ 63 + k + 2 ^ 63) with ((c + 1 + 2 ^ 63) mod 2 ^ 64 + k) by lia.
      rewrite Z.add_mod_idemp_l by lia. repeat (f_equal; try lia). }
    destruct Hcase as [[-> Hs]|[_ Ho2]].
    + rewrite Z.add_0_l. by eapply only_metrics_same.
    + rewrite Ei in Ho2. by eapply only_metrics_trans.
Qed.

(** What processing one rule does to its counters, when the actions leave the rules
    alone: a condition that cannot be parsed or evaluated counts one failure; one that is
    false counts nothing; one that is true counts one match and one execution, and at most
    one failure per action, so a rule all of whose actions failed still counts as
    executed.  No other rule changes. *)
Theorem rule_metrics_exact actions p ctx w e w' r :
  (∀ t x, actions !! t = Some x → leaves_rules x) →
  ruleHeap w !! p = Some r → processOne actions p ctx w = Returns (e, w') →
  let m := R_Metrics r in
  (∃ msg, (parseSQL (R_SQL r) = Returns (Err msg) ∨
           ∃ c, parseSQL (R_SQL r) = Returns (Ok c) ∧ Evaluate Unmarshal MatchString ctx c = Err msg) ∧
     e = Some msg ∧ only_metrics p (MatchedCount m, ExecutedCount m, i64 (FailedCount m + 1)) w w') ∨
  (∃ c, parseSQL (R_SQL r) = Returns (Ok c) ∧ Evaluate Unmarshal MatchString ctx c = Ok false ∧
     e = None ∧ same_store w w') ∨
  (∃ c k, parseSQL (R_SQL r) = Returns (Ok c) ∧ Evaluate Unmarshal MatchString ctx c = Ok true ∧
     e = None ∧ 0 ≤ k ≤ Z.of_nat (length (R_Actions r)) ∧
     only_metrics p (i64 (MatchedCount m + 1), i64 (ExecutedCount m + 1),
                     if k =? 0 then FailedCount m else i64 (FailedCount m + k)) w w').
Proof.
  intros Hq Hr E m. unfold processRule in E.
  apply RM_bind_Returns in E as (start & w0 & E0 & E). apply quiet_Now in E0.
  assert (Hr0 : ruleHeap w0 !! p = Some r) by (destruct E0 as [-> _]; done).
  apply RM_bind_Returns in E as (r' & w0' & Ed & E). unfold derefRule in Ed. rewrite Hr0 in Ed. simplify_eq.
  apply RM_bind_Returns in E as (pr & w1 & Ep & E). unfold lift_outcome in Ep.
  destruct (parseSQL (R_SQL r')) as [pr'| |] eqn:Eparse; simplify_eq/=. destruct pr as [c|msg].
  2: { left. exists msg. apply RM_bind_Returns in E as (x & w2 & E1 & E2). unfold mret, RM_ret in E2. simplify_eq.
       split_and!; [by left|done|]. eapply same_only_metrics; [done|]. by eapply recordRuleError_spec. }
  destruct (Evaluate Unmarshal MatchString ctx c) as [[]|msg] eqn:Eev.
  - right. right.
    apply RM_bind_Returns in E as (x & w2 & Em & E).
    assert (Hm : only_metrics p (i64 (MatchedCount m + 1), ExecutedCount m, FailedCount m) w1 w2).
    { revert Em. unfold recordRuleMatch. run. rewrite Hr0. cbn [outcome_bind]. unfold putRule. intros Em. simplify_eq.
      split; [done|]. eexists r', _. split_and!; [done|reflexivity|done]. }
    apply RM_bind_Returns in E as (y & w3 & Ea & E).
    destruct (runActions_spec _ _ _ _ _ _ _ _ _ _ Hq Ea (only_metrics_counts _ _ _ _ Hm)) as (k & Hk & Hcase).
    apply RM_bind_Returns in E as (t & w4 & Et & E). apply quiet_Now in Et.
    apply RM_bind_Returns in E as (z & w5 & Ex & E). unfold mret, RM_ret in E. simplify_eq.
    assert (Hm4 : only_metrics p (i64 (MatchedCount m + 1), ExecutedCount m,
                    if k =? 0 then FailedCount m else i64 (FailedCount m + k)) w1 w4).
    { eapply only_metrics_same; [|exact Et]. destruct Hcase as [[-> Hs]|[Hpos Ho]]; [by eapply only_metrics_same|].
      rewrite (proj2 (Z.eqb_neq k 0)) by lia. by eapply only_metrics_trans. }
    exists c, k. split_and!; try done; [lia..|]. eapply same_only_metrics; [done|].
    eapply only_metrics_trans; [done|].
    destruct (only_metrics_counts _ _ _ _ Hm4) as (r4 & Hr4 & Hc4). unfold ruleCounts in Hc4. simplify_eq.
    revert Ex. unfold recordRuleExecution. run. cbn [ruleHeap]. rewrite Hr4. cbn [outcome_bind].
    unfold putRule. intros Ex. simplify_eq. split; [done|]. eexists r4, _. split_and!; [done|reflexivity|].
    unfold ruleCounts. cbn. congruence.
  - right. left. unfold mret, RM_ret in E. simplify_eq. by exists c.
  - left. exists msg. apply RM_bind_Returns in E as (x & w2 & E1 & E2). unfold mret, RM_ret in E2. simplify_eq.
    split_and!; [right; by exists c|done|]. eapply same_only_metrics; [done|]. by eapply recordRuleError_spec.
Qed.
(** ** Processing a message *)

(** Giving a message to some rules one after the other, whatever each of them returns. *)
Definition put_to_all actions ctx (order : list ruleptr) (w : World C B) : outcome (World C B) :=
  foldl (λ o p, let! w1 := o in let! '(_, w2) := processOne actions p ctx w1 in Returns w2) (Returns w) order.

(** The rule's condition holds of the message. *)
Definition holds_for ctx (r : Rule) : Prop :=
  ∃ c, parseSQL (R_SQL r) = Returns (Ok c) ∧ Evaluate Unmarshal MatchString ctx c = Ok true.

Lemma put_to_all_cons actions ctx p order w :
  put_to_all actions ctx (p :: order) w =
  let! '(_, w1) := processOne actions p ctx w in put_to_all actions ctx order w1.
Proof.
  unfold put_to_all. simpl. destruct (processOne actions p ctx w) as [[e w1]| |]; simpl; [done|..];
    induction order as [|q order IH]; simpl; done.
Qed.

Lemma processAll_put_to_all actions ctx order w :
  processAll actions ctx order w = let! w' := put_to_all actions ctx order w in Returns ((), w').
Proof.
  revert w. induction order as [|p order IH]; intros w; [done|].
  rewrite put_to_all_cons. cbn [processRules]. unfold mbind, RM_bind.
  destruct (processOne actions p ctx w) as [[e w1]| |]; simpl; [apply IH|done..].
Qed.

(** One rule more on its counters when its condition holds, nothing otherwise; and nothing on
    those of the other rules. *)
Lemma processOne_counts actions p ctx w e w' q r :
  (∀ t x, actions !! t = Some x → leaves_rules x) →
  processOne actions p ctx w = Returns (e, w') → ruleHeap w !! q = Some r →
  ∃ r', ruleHeap w' !! q = Some r' ∧ R_SQL r' = R_SQL r ∧
    (q = p → holds_for ctx r →
       MatchedCount (R_Metrics r') = i64 (MatchedCount (R_Metrics r) + 1) ∧
       ExecutedCount (R_Metrics r') = i64 (ExecutedCount (R_Metrics r) + 1)) ∧
    (q ≠ p ∨ ¬ holds_for ctx r →
       MatchedCount (R_Metrics r') = MatchedCount (R_Metrics r) ∧
       ExecutedCount (R_Metrics r') = ExecutedCount (R_Metrics r)).
Proof.
  intros Hq E Hr. assert (∃ rp, ruleHeap w !! p = Some rp) as [rp Hrp].
  { unfold processRule in E. apply RM_bind_Returns in E as (start & w0 & E0 & E). apply quiet_Now in E0 as [<- _].
    apply RM_bind_Returns in E as (rp & w1 & Ed & _). unfold derefRule in Ed.
    destruct (ruleHeap w0 !! p); [eauto|discriminate]. }
  assert (Hmetrics : ∀ c, only_metrics p c w w' → ∃ r', ruleHeap w' !! q = Some r' ∧ R_SQL r' = R_SQL r ∧
    if decide (q = p) then rp = r ∧ ruleCounts r' = c else r' = r).
  { intros c [_ (r0 & m & Hr0 & -> & Hc)]. case_decide as Hqp.
    - subst q. rewrite lookup_insert_eq. simplify_eq. by eexists.
    - rewrite lookup_insert_ne by done. by eexists. }
  unfold ruleCounts in Hmetrics.
  destruct (rule_metrics_exact actions p ctx w e w' rp Hq Hrp E) as [(msg & Hc & _ & Ho)|[(c & Hc & He & _ & Hs)|(c & k & Hc & He & _ & _ & Ho)]].
  - destruct (Hmetrics _ Ho) as (r' & Hr' & Hsql & Hcase). exists r'. split_and!; [done|done|..].
    + intros -> (c & Hc' & He). simplify_eq. destruct Hc as [Hc|(c' & Hc & He')]; congruence.
    + intros _. case_decide; naive_solver.
  - destruct Hs as [Hh _]. rewrite Hh. exists r. split_and!; [done|done| |done].
    intros -> (c' & Hc' & He'). simplify_eq. congruence.
  - destruct (Hmetrics _ Ho) as (r' & Hr' & Hsql & Hcase). exists r'. split_and!; [done|done|..].
    + intros -> _. rewrite decide_True in Hcase by done. naive_solver.
    + intros Hor. case_decide as Hqp; [|naive_solver]. subst q. destruct Hcase as [-> _].
      destruct Hor as [?|Hor]; [done|]. destruct Hor. by exists c.
Qed.

Lemma put_to_all_counts actions ctx order w w' q r :
  (∀ t x, actions !! t = Some x → leaves_rules x) → NoDup order →
  put_to_all actions ctx order w = Returns w' → ruleHeap w !! q = Some r →
  ∃ r', ruleHeap w' !! q = Some r' ∧
    (q ∈ order → holds_for ctx r →
       MatchedCount (R_Metrics r') = i64 (MatchedCount (R_Metrics r) + 1) ∧
       ExecutedCount (R_Metrics r') = i64 (ExecutedCount (R_Metrics r) + 1)) ∧
    (q ∉ order ∨ ¬ holds_for ctx r →
       MatchedCount (R_Metrics r') = MatchedCount (R_Metrics r) ∧
       ExecutedCount (R_Metrics r') = ExecutedCount (R_Metrics r)).
Proof.
  intros Hq Hnd. revert w r. induction Hnd as [|p order Hp Hnd IH]; intros w r E Hr.
  { unfold put_to_all in E. simplify_eq/=. exists r. split_and!; [done|by intros ?%not_elem_of_nil|done]. }
  rewrite put_to_all_cons in E. destruct (processOne actions p ctx w) as [[e w1]| |] eqn:E1; simplify_eq/=.
  destruct (processOne_counts _ _ _ _ _ _ q r Hq E1 Hr) as (r1 & Hr1 & Hsql & Hin1 & Hout1).
  destruct (IH w1 r1 E Hr1) as (r2 & Hr2 & Hin2 & Hout2).
  assert (Hh : holds_for ctx r1 ↔ holds_for ctx r) by (unfold holds_for; by rewrite Hsql).
  rewrite Hh in Hin2, Hout2. exists r2. split; [done|]. rewrite elem_of_cons. split.
  - intros [->|Hin] Hr0.
    + destruct (Hin1 eq_refl Hr0) as [<- <-]. by apply Hout2; left.
    + destruct Hout1 as [<- <-]; [left; by intros -> |]. by apply Hin2.
  - intros Hor. destruct Hout1 as [<- <-]; [tauto|]. apply Hout2. tauto.
Qed.

(** The rules a message goes to: every identifier of an enabled rule once, by descending
    priority. *)
Definition enabled_order w (ids : list string) (order : list ruleptr) : Prop :=
  NoDup ids ∧
  (∀ id, id ∈ ids ↔ ∃ p r, rules w !! id = Some p ∧ ruleHeap w !! p = Some r ∧ R_Status r = RuleStatusEnabled) ∧
  Forall2 (λ id p, rules w !! id = Some p) ids order ∧
  StronglySorted (byPriority w) order.

Lemma sortRules_enabled_order w :
  ∃ ids, enabled_order w ids (sortRules (priorityOf w) (enabledRules w)).
Proof.
  destruct (sortFrom_spec (priorityOf w) (length (enabledRules w)) (enabledRules w)) as [Hp Hs]; [done|].
  set (L := filter (λ kv : string * ruleptr, isEnabled w kv.2) (map_to_list (rules w))).
  assert (HL : enabledRules w = L.*2).
  { unfold enabledRules, L. induction (map_to_list (rules w)) as [|[k v] l IH]; [done|].
    rewrite fmap_cons, !filter_cons. simpl. case_decide; simpl; by rewrite IH. }
  rewrite HL in Hp at 3. apply Permutation_map_inv in Hp as (L' & HL' & Hperm).
  exists L'.*1. unfold enabled_order. split_and!.
  - rewrite <-Hperm. eapply sublist_NoDup; [apply (NoDup_fst_map_to_list (rules w))|].
    apply fmap_sublist, sublist_filter.
  - intros id. rewrite <-Hperm, list_elem_of_fmap. unfold L. split.
    + intros ([id' p] & -> & Hin). apply list_elem_of_filter in Hin as [He Hin%elem_of_map_to_list].
      unfold isEnabled in He. simpl in *. destruct (ruleHeap w !! p) as [r|] eqn:Er; [|done].
      exists p, r. by apply Is_true_true, bool_decide_eq_true_1 in He.
    + intros (p & r & Hid & Hr & Hst). exists (id, p). split; [done|]. apply list_elem_of_filter. split.
      * unfold isEnabled. simpl. rewrite Hr. by apply bool_decide_pack.
      * by apply elem_of_map_to_list.
  - unfold sortRules. rewrite HL'. apply Forall2_fmap_2, Forall2_same_length_lookup_2; [done|].
    intros i x y Hx Hy. simplify_eq. assert (x ∈ L) as Hin by (rewrite Hperm; by eapply list_elem_of_lookup_2).
    unfold L in Hin. apply list_elem_of_filter in Hin as [_ Hin]. destruct x. by apply elem_of_map_to_list.
  - exact Hs.
Qed.

Lemma enabled_order_NoDup w ids order : store_wf w → enabled_order w ids order → NoDup order.
Proof.
  intros [_ Hinj] (Hnd & _ & HF & _). revert Hnd. induction HF as [|id p ids order Hid HF IH]; [constructor|].
  intros [Hni Hnd]%NoDup_cons. constructor; [|by apply IH]. intros Hin.
  apply list_elem_of_lookup in Hin as [i Hi]. destruct (Forall2_lookup_r _ _ _ _ _ HF Hi) as (id' & Hi' & Hid').
  apply Hni. rewrite (Hinj _ _ _ Hid Hid'). by eapply list_elem_of_lookup_2.
Qed.

Lemma enabled_order_member w ids order id p r :
  store_wf w → enabled_order w ids order → rules w !! id = Some p → ruleHeap w !! p = Some r →
  p ∈ order ↔ R_Status r = RuleStatusEnabled.
Proof.
  intros [_ Hinj] (_ & Hids & HF & _) Hid Hr. split.
  - intros [i Hi]%list_elem_of_lookup. destruct (Forall2_lookup_r _ _ _ _ _ HF Hi) as (id' & Hi' & Hid').
    assert (id' ∈ ids) as (p' & r' & ? & ? & ?)%Hids by (by eapply list_elem_of_lookup_2). congruence.
  - intros Hst. assert (id ∈ ids) as [i Hi]%list_elem_of_lookup by (apply Hids; eauto).
    destruct (Forall2_lookup_l _ _ _ _ _ HF Hi) as (p' & Hi' & Hp'). simplify_eq. by eapply list_elem_of_lookup_2.
Qed.

(** C16. A message is put to the enabled rules and to no other, to each exactly once and in
    the order of descending priority: the call is the composition of the single rules'
    processing, whose errors it drops (neither an error nor an action of a rule, a discard
    included, keeps the message from the rules behind it), and itself reports no error.
    So, when the actions leave the rule table alone, after the call every enabled rule whose
    condition holds of the message counts one match and one execution more, and every other
    rule counts what it counted. *)
Theorem process_in_priority_order actions ctx w :
  ∃ ids order, enabled_order w ids order ∧
    ProcessMessage Unmarshal MatchString FormatRFC3339 newRequest httpDo CanonicalHeaderKey clock actions ctx w =
      (let! w' := put_to_all actions ctx order w in Returns (None, w')) ∧
    (store_wf w → (∀ t x, actions !! t = Some x → leaves_rules x) →
     ∀ w', put_to_all actions ctx order w = Returns w' →
     ∀ id p r, rules w !! id = Some p → ruleHeap w !! p = Some r →
     ∃ r', ruleHeap w' !! p = Some r' ∧
       (R_Status r = RuleStatusEnabled ∧ holds_for ctx r →
          MatchedCount (R_Metrics r') = i64 (MatchedCount (R_Metrics r) + 1) ∧
          ExecutedCount (R_Metrics r') = i64 (ExecutedCount (R_Metrics r) + 1)) ∧
       (R_Status r ≠ RuleStatusEnabled ∨ ¬ holds_for ctx r →
          MatchedCount (R_Metrics r') = MatchedCount (R_Metrics r) ∧
          ExecutedCount (R_Metrics r') = ExecutedCount (R_Metrics r))).
Proof.
  destruct (sortRules_enabled_order w) as [ids Ho].
  exists ids, (sortRules (priorityOf w) (enabledRules w)). split_and!; [done|..].
  { unfold ProcessMessage, gets, mbind, RM_bind. simpl. rewrite processAll_put_to_all.
    by destruct (put_to_all _ _ _ _). }
  intros Hwf Hq w' E id p r Hid Hr. pose proof (enabled_order_NoDup _ _ _ Hwf Ho) as Hnd.
  destruct (put_to_all_counts _ _ _ _ _ p r Hq Hnd E Hr) as (r' & Hr' & Hin & Hout).
  assert (Hmem : p ∈ sortRules (priorityOf w) (enabledRules w) ↔ R_Status r = RuleStatusEnabled)
    by by eapply enabled_order_member.
  exists r'. rewrite <-Hmem. split_and!; [done|naive_solver|done].
Qed.
End EngineProps.
