(* ===== verification/RuleBroker.v ===== *)
(** * The rule engine inside the broker (pkg/broker/broker.go, pkg/rules)

    The broker gives every message it routes to the rule engine, and gives the rule engine a
    callback that routes republished messages: the two call each other.  [depth] bounds the
    depth of these calls as the stack does; to exceed it is fatal ([Panics]). *)

From S2P Require Import Prelude GoLib GoValue Connector ConnHTTP RuleSQL RuleParse RuleEngine RuleEngineProps ConnProps.
From Stdlib Require Import Sorting.Sorted.
Local Open Scope emqx_scope.
Local Open Scope Z_scope.

Section RuleBroker.
Context `{GoFloat} `{GoUnicode} {C : Type} `{!Connector C} {B : Type}.
Context (Unmarshal : list byte → result any) (MatchString : string → string → result bool).
Context (FormatRFC3339 : Time → string).
Context (newRequest : string → string → option string)
  (httpDo : Time → HTTPRequest → Time * result (Z * string)) (CanonicalHeaderKey : string → string).
Context (clock : nat → Time).
Abbreviation M := (RM C B).
Abbreviation Actions := (gmap string (ActionExecutor C B)).
(** The loop over the subscribers of the topic. *)
Context (deliver : string → list byte → Z → M ()).

Definition ruleContext (topicName : string) (payload : list byte) (qos : Z) (clientID : string)
    (headers : gmap string string) (now : Time) : RuleContext :=
  mkRuleContext topicName qos payload headers clientID "" now ∅.

Definition processThroughRules (actions : Actions) (topicName : string) (payload : list byte) (qos : Z)
    (clientID : string) (headers : gmap string string) : M () :=
  now ← Now clock;
  _ ← ProcessMessage Unmarshal MatchString FormatRFC3339 newRequest httpDo CanonicalHeaderKey clock actions
        (ruleContext topicName payload qos clientID headers now);
  mret tt.

(** [RouteToLocalSubscribersWithQoS]; the callback of [setupRepublishCallback] calls it. *)
Fixpoint routeWithQoS (depth : nat) (actions : Actions) (topicName : string) (payload : list byte)
    (publishQoS : Z) : M () :=
  match depth with
  | O => λ _, Panics
  | S depth =>
      let republishCallback topic qos payload :=
        _ ← routeWithQoS depth actions topic payload (u8 qos); mret None in
      _ ← processThroughRules (SetRepublishCallback republishCallback actions) topicName payload publishQoS "" ∅;
      deliver topicName payload publishQoS
  end.

(** ** Republishing into one's own rule *)

(** The engine has one rule: it is enabled, its condition holds for every message on [t],
    and its first action republishes such a message on [t] again. *)
Record loops (t : string) (id : string) (p : ruleptr) (w : World C B) : Prop := {
  loop_only : rules w = {[ id := p ]};
  loop_rule : ∃ r c tp params rest, ruleHeap w !! p = Some r ∧ R_Status r = RuleStatusEnabled ∧
    parseSQL (R_SQL r) = Returns (Ok c) ∧
    (∀ ctx, RC_Topic ctx = t → Evaluate Unmarshal MatchString ctx c = Ok true) ∧
    R_Actions r = mkAction ActionTypeRepublish params :: rest ∧
    as_string (params !! "topic") = Some tp ∧
    (∀ ctx, RC_Topic ctx = t → replaceVariables FormatRFC3339 tp ctx = t);
}.

Lemma loops_tick t id p w n :
  loops t id p w → loops t id p (mkWorld (ruleHeap w) (rules w) (connManager w) (console w) (broker w) n).
Proof. intros [? ?]. by split. Qed.

Lemma loops_metrics t id p w r m :
  loops t id p w → ruleHeap w !! p = Some r →
  loops t id p (mkWorld (<[p := withMetrics m r]> (ruleHeap w)) (rules w) (connManager w) (console w) (broker w) (ticks w)).
Proof.
  intros [Ho (r' & c & tp & params & rest & Hr & Hs & Hc & Hev & Ha & Ht & Hrep)] Hr'. simplify_eq.
  split; [done|]. exists (withMetrics m r'), c, tp, params, rest. cbn [ruleHeap].
  rewrite lookup_insert_eq. done.
Qed.

Lemma loops_enabled t id p w : loops t id p w → sortRules (priorityOf w) (enabledRules w) = [p].
Proof.
  intros [Ho (r & c & tp & params & rest & Hr & Hs & _)]. unfold enabledRules.
  rewrite Ho, map_to_list_singleton. cbn. rewrite decide_True; [done|].
  unfold isEnabled. rewrite Hr. by apply bool_decide_pack.
Qed.

Ltac run := unfold mbind, RM_bind, mret, RM_ret, gets, lift_outcome, derefRule, Now; cbn [outcome_bind].

(** A rule that republishes the messages it matches on a topic it matches again is fatal
    to the broker: the first message on the topic makes the broker and the rule engine call
    each other without end, at whatever depth the stack gives out. *)
Theorem republish_loop_fatal depth actions cb t id p w payload qos :
  actions !! ActionTypeRepublish = Some (RepublishActionExecutor cb) →
  loops t id p w →
  routeWithQoS depth actions t payload qos w = Panics.
Proof.
  intros Hact. revert w payload qos. induction depth as [|depth IH]; intros w payload qos Hl; [done|].
  cbn [routeWithQoS]. set (callback := λ topic qos payload, _).
  assert (Hcb : ∀ q b w', loops t id p w' → callback t q b w' = Panics).
  { intros q b w' Hl'. unfold callback. run. by rewrite IH. }
  unfold processThroughRules, ProcessMessage. run.
  set (w1 := mkWorld _ _ _ _ _ (S (ticks w))).
  assert (Hl1 : loops t id p w1) by (by apply loops_tick).
  rewrite (loops_enabled _ _ _ _ Hl1). cbn [processRules]. unfold processRule. run.
  pose proof Hl1 as [_ (r & c & tp & params & rest & Hr & Hs & Hc & Hev & Ha & Ht & Hrep)].
  cbn [ruleHeap]. rewrite Hr. cbn [outcome_bind]. rewrite Hc. cbn [outcome_bind].
  set (ctx := ruleContext _ _ _ _ _ _). rewrite (Hev ctx) by done. unfold recordRuleMatch. run.
  cbn [ruleHeap]. rewrite Hr. cbn [outcome_bind]. unfold putRule at 1. cbn [outcome_bind].
  rewrite Ha. cbn [runActions]. unfold runAction. cbn [A_Type A_Parameters].
  unfold SetRepublishCallback. rewrite Hact, lookup_insert_eq. cbn [Execute].
  unfold republishExecute. run. rewrite Ht. rewrite (Hrep ctx) by done.
  rewrite Hcb; [done|]. apply loops_tick. cbn [ruleHeap rules connManager console broker ticks].
  apply (loops_metrics t id p (mkWorld (ruleHeap w1) (rules w1) (connManager w1) (console w1) (broker w1) (S (ticks w1)))); [by apply loops_tick|done].
Qed.
End RuleBroker.

(** ** Examples *)

Section RuleWitness.
Local Existing Instance intFloat.
Local Existing Instance asciiUnicode.

(** A connector type without connectors. *)
Definition noConnector : Connector unit := {|
  Start c _ := Returns (c, None); Stop c _ := Returns (c, None); Restart c _ := Returns (c, None);
  con_Status _ now := Returns (mkConnectorStatus "" StateCreated "" None None now zeroMetrics
                                 (mkHealthStatus false now 0 0 "") None 0);
  HealthCheck _ _ := None; con_IsRunning _ := Returns false;
  Send c _ _ := Returns (c, (None, Some ErrConnectorNotRunning));
  SendBatch c _ _ := Returns (c, ([], None));
  con_GetConfig _ := Panics; con_UpdateConfig c _ _ := Returns (c, None);
  con_GetMetrics _ := Returns zeroMetrics; con_ResetMetrics c := Returns c; Close c _ := Returns (c, None)
|}.
Local Existing Instance noConnector.

Definition example_rule (sql : string) (acts : list Action) : Rule :=
  mkRule "r1" "" "" sql acts RuleStatusEnabled 1 0 0 noMetrics ∅.

Definition example_world (r : Rule) : World unit unit :=
  mkWorld {[ 1%positive := r ]} {[ "r1" := 1%positive ]} (mkConnectorManager ∅ ∅ false) [] tt 0.

Lemma example_world_wf r : store_wf (example_world r).
Proof.
  split; cbn; intros id p; [|intros q]; rewrite !lookup_singleton_Some.
  - intros [<- <-]. eauto.
  - intros [<- _] [<- _]. done.
Qed.

(** On [a], republish on [a]. *)
Definition loop_rule_example : Rule :=
  example_rule "topic = 'a'" [mkAction ActionTypeRepublish {[ "topic" := VString "a" ]}].

Definition loop_condition : SQLCondition := ComparisonCondition "topic" "=" (Literal (VString "a")).

Lemma republish_loop_fatal_witness :
  let deliver := λ _ _ _, mret tt in
  let w := example_world loop_rule_example in
  (NewRuleEngine (C := unit) (B := unit)) !! ActionTypeRepublish = Some (RepublishActionExecutor None) ∧
  loops (λ _, Err "") (λ _ _, Err "") (λ _, "") "a" "r1" 1 w ∧
  routeWithQoS (λ _, Err "") (λ _ _, Err "") (λ _, "") (λ _ _, None) example_do id Z.of_nat deliver
    1000 NewRuleEngine "a" [] 0 w = Panics.
Proof.
  intros deliver w.
  assert (Hl : loops (λ _, Err "") (λ _ _, Err "") (λ _, "") "a" "r1" 1 w).
  { split; [done|].
    exists loop_rule_example, loop_condition, "a", {[ "topic" := VString "a" ]}, [].
    split_and!; try done.
    intros ctx Ht. change (Ok (equals (VString (RC_Topic ctx)) (VString "a")) = Ok true). by rewrite Ht. }
  split_and!; [done|done|].
  by apply (republish_loop_fatal (λ _, Err "") (λ _ _, Err "") (λ _, "") (λ _ _, None) example_do id Z.of_nat deliver
    1000 NewRuleEngine None "a" "r1" 1 w).
Defined.

(** A rule whose only action fails counts as executed. *)
Lemma rule_metrics_exact_witness :
  let r := example_rule "" [mkAction "unknown" ∅] in
  let w := example_world r in
  let ctx := mkRuleContext "t" 0 [] ∅ "" "" 0 ∅ in
  ∃ w', processRule (λ _, Err "") (λ _ _, Err "") (λ _, "") (λ _ _, None) example_do id Z.of_nat ∅ 1 ctx w
      = Returns (None, w') ∧
    ∃ k, 0 ≤ k ≤ 1 ∧ only_metrics 1 (1, 1, if k =? 0 then 0 else i64 k) w w'.
Proof.
  intros r w ctx.
  assert (Hok : match processRule (λ _, Err "") (λ _ _, Err "") (λ _, "") (λ _ _, None) example_do id Z.of_nat ∅ 1 ctx w
                with Returns (None, _) => true | _ => false end = true) by (vm_compute; reflexivity).
  destruct (processRule _ _ _ _ _ _ _ _ 1 ctx w) as [[[e|] w']| |] eqn:E; [discriminate| |discriminate..].
  exists w'. split; [reflexivity|]. clear Hok.
  destruct (rule_metrics_exact (λ _, Err "") (λ _ _, Err "") (λ _, "") (λ _ _, None) example_do id Z.of_nat
      (∅ : gmap string (ActionExecutor unit unit)) 1 ctx w None w' r)
      as [(msg & _ & Hm & _)|[(c & Ep & Ee & _)|(c & k & _ & _ & _ & Hk & Ho)]].
  - intros t x Hx. by rewrite lookup_empty in Hx.
  - reflexivity.
  - exact E.
  - discriminate.
  - assert (Ep' : parseSQL (R_SQL r) = Returns (Ok TrueCondition)) by reflexivity.
    rewrite Ep' in Ep. injection Ep as <-. discriminate.
  - exists k. split; [exact Hk|exact Ho].
Defined.

(** A rule that fails is counted as matched, and the call reports no error. *)
Lemma process_in_priority_order_witness :
  let r := example_rule "" [mkAction "unknown" ∅] in
  let w := example_world r in
  let ctx := mkRuleContext "t" 0 [] ∅ "" "" 0 ∅ in
  ∃ w' r', ProcessMessage (λ _, Err "") (λ _ _, Err "") (λ _, "") (λ _ _, None) example_do id Z.of_nat ∅ ctx w
      = Returns (None, w') ∧
    ruleHeap w' !! 1%positive = Some r' ∧ MatchedCount (R_Metrics r') = 1 ∧ ExecutedCount (R_Metrics r') = 1.
Proof.
  intros r w ctx.
  destruct (process_in_priority_order (λ _, Err "") (λ _ _, Err "") (λ _, "") (λ _ _, None) example_do id Z.of_nat
      (∅ : gmap string (ActionExecutor unit unit)) ctx w) as (ids & order & _ & Heq & Hcount).
  assert (Hok : match ProcessMessage (λ _, Err "") (λ _ _, Err "") (λ _, "") (λ _ _, None) example_do id Z.of_nat
                        (∅ : gmap string (ActionExecutor unit unit)) ctx w
                with Returns _ => true | _ => false end = true) by (vm_compute; reflexivity).
  rewrite Heq in *. destruct (put_to_all _ _ _ _ _ _ _ _ _ order w) as [w'| |]; [|discriminate Hok..].
  destruct (Hcount (example_world_wf r) ltac:(intros t x Hx; by rewrite lookup_empty in Hx) w' eq_refl "r1" 1%positive r
    eq_refl eq_refl) as (r' & Hr' & Hin & _).
  exists w', r'. split; [reflexivity|]. split; [exact Hr'|].
  apply Hin. split; [reflexivity|]. exists TrueCondition. split; reflexivity.
Defined.

Lemma engine_refines_map_witness :
  let w := example_world loop_rule_example in
  store_wf w ∧ ∃ w', runOp Z.of_nat NewRuleEngine (OpDelete "r1") w = Returns (None, w') ∧ ListRules w' = ∅ ∧ store_wf w'.
Proof.
  intros w. pose proof (example_world_wf loop_rule_example) as Hwf. split; [exact Hwf|].
  pose proof (engine_refines_map Z.of_nat NewRuleEngine (OpDelete "r1") w Hwf) as Hx.
  exact Hx.
Defined.
End RuleWitness.
