(* ===== verification/Mria.v ===== *)
(** * Mria: roles, cluster state and leader election (pkg/mria/manager.go)

    A node is a core or a replicant and keeps a table of the nodes of each role.  The
    node's own entry in the table is a pointer to its [nodeInfo], so it follows every
    later change of it ([Self]); the entries of other nodes are never changed in place.
    The loops are represented by their bodies. *)

From S2P Require Import Prelude GoLib GoValue Cluster.
Local Open Scope emqx_scope.
Local Open Scope Z_scope.

(** ** Roles, configuration and node records *)

Definition NodeRole : Type := string.
Definition CoreNode : NodeRole := "core".
Definition ReplicantNode : NodeRole := "replicant".

Definition NodeStatusStarting : Z := 1.
Definition NodeStatusRunning : Z := 2.
Definition NodeStatusStopping : Z := 3.

Record MriaConfig := mkMriaConfig {
  Cfg_NodeID : string;
  Cfg_NodeRole : NodeRole;
  ListenAddress : string;
  Cfg_CoreNodes : list string;
  HeartbeatInterval : Duration;
  ElectionTimeout : Duration;
  MaxReplicantNodes : Z;
  AutoDiscoveryEnabled : bool;
  ClusterSecret : string;
}.

Definition DefaultMriaConfig (nodeID listenAddress : string) : MriaConfig :=
  mkMriaConfig nodeID CoreNode listenAddress [] (5 * Second) (10 * Second) 100 true "".

Definition set_role (r : NodeRole) (c : MriaConfig) : MriaConfig :=
  mkMriaConfig (Cfg_NodeID c) r (ListenAddress c) (Cfg_CoreNodes c) (HeartbeatInterval c)
    (ElectionTimeout c) (MaxReplicantNodes c) (AutoDiscoveryEnabled c) (ClusterSecret c).
Definition set_listen (a : string) (c : MriaConfig) : MriaConfig :=
  mkMriaConfig (Cfg_NodeID c) (Cfg_NodeRole c) a (Cfg_CoreNodes c) (HeartbeatInterval c)
    (ElectionTimeout c) (MaxReplicantNodes c) (AutoDiscoveryEnabled c) (ClusterSecret c).

(** The fields of [clusterpb.NodeInfo] the package uses. *)
Record NodeInfo := mkNodeInfo {
  NI_NodeId : string; NI_Address : string; NI_Version : string;
  NI_Status : Z; NI_LastSeen : Z; NI_Uptime : Z;
}.

(** A node record on the wire of pkg/cluster: the fields it does not set are zero. *)
Definition wireNode (n : Cluster.NodeInfo) : NodeInfo :=
  mkNodeInfo (Cluster.NodeId n) (Cluster.Node_Address n) (Cluster.Node_Version n) 0 0 0.

(** An entry of the node tables: the manager's own [nodeInfo], or another record. *)
Inductive NodePtr :=
  | Self
  | Ptr (n : NodeInfo).

Record ClusterState := mkClusterState {
  ClusterID : string;
  Leader : string;
  CoreNodes : gmap string NodePtr;
  ReplicantNodes : gmap string NodePtr;
  LastUpdated : Time;
}.

Record MriaManager := mkMriaManager {
  config : MriaConfig;
  nodeInfo : NodeInfo;
  clusterState : ClusterState;
  clusterManager : Manager;
  stopCh_closed : bool;
  isLeader : bool;
  leaderElectionCh : list bool;
}.

Definition NewMriaManager (config : MriaConfig) (now : Time) : MriaManager :=
  mkMriaManager config
    (mkNodeInfo (Cfg_NodeID config) (ListenAddress config) "1.0.0-mria" NodeStatusStarting (now / Second) 0)
    (mkClusterState ("emqx-cluster-" +:+ pretty (now / Second))%string "" ∅ ∅ now)
    (NewManager (Cfg_NodeID config) (ListenAddress config))
    false false [].

Definition set_nodeInfo (n : NodeInfo) (m : MriaManager) : MriaManager :=
  mkMriaManager (config m) n (clusterState m) (clusterManager m) (stopCh_closed m) (isLeader m) (leaderElectionCh m).
Definition set_clusterState (cs : ClusterState) (m : MriaManager) : MriaManager :=
  mkMriaManager (config m) (nodeInfo m) cs (clusterManager m) (stopCh_closed m) (isLeader m) (leaderElectionCh m).
Definition set_config (c : MriaConfig) (m : MriaManager) : MriaManager :=
  mkMriaManager c (nodeInfo m) (clusterState m) (clusterManager m) (stopCh_closed m) (isLeader m) (leaderElectionCh m).
Definition set_electionCh (ch : list bool) (m : MriaManager) : MriaManager :=
  mkMriaManager (config m) (nodeInfo m) (clusterState m) (clusterManager m) (stopCh_closed m) (isLeader m) ch.

Definition put_core (id : string) (p : NodePtr) (cs : ClusterState) : ClusterState :=
  mkClusterState (ClusterID cs) (Leader cs) (<[id := p]> (CoreNodes cs)) (ReplicantNodes cs) (LastUpdated cs).
Definition put_replicant (id : string) (p : NodePtr) (cs : ClusterState) : ClusterState :=
  mkClusterState (ClusterID cs) (Leader cs) (CoreNodes cs) (<[id := p]> (ReplicantNodes cs)) (LastUpdated cs).

(** ** Queries *)

Definition deref (m : MriaManager) (p : NodePtr) : NodeInfo :=
  match p with Self => nodeInfo m | Ptr n => n end.

Definition GetNodeRole (m : MriaManager) : NodeRole := Cfg_NodeRole (config m).

Definition IsLeader (m : MriaManager) : bool := isLeader m && (Cfg_NodeRole (config m) =s CoreNode).

(** The copy shares the node records with the original, not the tables. *)
Definition GetClusterState (m : MriaManager) : ClusterState :=
  mkClusterState (ClusterID (clusterState m)) (Leader (clusterState m))
    (go_range (λ k v acc, <[k := v]> acc) (CoreNodes (clusterState m)) ∅)
    (go_range (λ k v acc, <[k := v]> acc) (ReplicantNodes (clusterState m)) ∅)
    (LastUpdated (clusterState m)).

(** Go ranges over a map in an unspecified order; [map_to_list] is one of them. *)
Definition GetCoreNodes (m : MriaManager) : list NodeInfo :=
  (λ '(_, p), deref m p) <$> map_to_list (CoreNodes (clusterState m)).
Definition GetReplicantNodes (m : MriaManager) : list NodeInfo :=
  (λ '(_, p), deref m p) <$> map_to_list (ReplicantNodes (clusterState m)).

(** ** Start and stop *)

(** What discovery answers: the peers found (id and address), or an error. *)
Definition Discovery : Type := option (list (string * string)).

(** The peers the started goroutines call [AddPeer] for. *)
Definition connectToKnownNodes (m : MriaManager) : list (string * string) :=
  filter (λ '(nodeID, _), nodeID ≠ Cfg_NodeID (config m))
    (imap (λ i address, (("core-" +:+ pretty i)%string, address)) (Cfg_CoreNodes (config m))).

Definition startDiscovery (m : MriaManager) (discovery : option Discovery) : list (string * string) :=
  if negb (AutoDiscoveryEnabled (config m)) then connectToKnownNodes m
  else
    match discovery with
    | None => connectToKnownNodes m
    | Some None => connectToKnownNodes m
    | Some (Some peers) => filter (λ '(id, _), id ≠ Cfg_NodeID (config m)) peers
    end.

(** [Start] never fails: [startDiscovery] falls back to the known nodes. *)
Definition Start (m : MriaManager) (discovery : option Discovery) (now : Time)
    : MriaManager * list (string * string) :=
  let n := nodeInfo m in
  let m := set_nodeInfo (mkNodeInfo (NI_NodeId n) (NI_Address n) (NI_Version n) NodeStatusRunning
                           (NI_LastSeen n) (now / Second)) m in
  let m := if Cfg_NodeRole (config m) =s CoreNode
           then set_clusterState (put_core (Cfg_NodeID (config m)) Self (clusterState m)) m
           else set_clusterState (put_replicant (Cfg_NodeID (config m)) Self (clusterState m)) m in
  (m, startDiscovery m discovery).

(** Closing the stop channel twice panics; the connection tables are always empty. *)
Definition Stop (m : MriaManager) : outcome MriaManager :=
  let n := nodeInfo m in
  let m := set_nodeInfo (mkNodeInfo (NI_NodeId n) (NI_Address n) (NI_Version n) NodeStatusStopping
                           (NI_LastSeen n) (NI_Uptime n)) m in
  if stopCh_closed m then Panics
  else Returns (mkMriaManager (config m) (nodeInfo m) (clusterState m) (clusterManager m) true
                  (isLeader m) (leaderElectionCh m)).

(** ** Forwarding *)

(** The node with the leader's identifier, else the first of the list. *)
Definition chooseCore (leader : string) (coreNodes : list NodeInfo) : option NodeInfo :=
  match (if leader <>s "" then List.find (λ n, NI_NodeId n =s leader) coreNodes else None) with
  | Some n => Some n
  | None => head coreNodes
  end.

Definition ForwardMessageToCore (m : MriaManager) (topic : string) (payload : list byte)
    : result (list PeerCall) :=
  if Cfg_NodeRole (config m) =s CoreNode then Ok []
  else
    let coreNodes := GetCoreNodes m in
    match coreNodes with
    | [] => Err "no core nodes available"
    | _ =>
        match chooseCore (Leader (clusterState m)) coreNodes with
        | None => Err "no suitable core node found"
        | Some n => Ok (ForwardPublish (clusterManager m) topic payload (NI_NodeId n))
        end
    end.

(** The body that would send the data is not written yet: nothing is replicated. *)
Definition ReplicateToReplicants (m : MriaManager) : result unit :=
  if Cfg_NodeRole (config m) <>s CoreNode then Err "only core nodes can replicate data" else Ok ().

(** ** The loops' bodies *)

Definition sendHeartbeat (m : MriaManager) (now : Time) : MriaManager :=
  let n := nodeInfo m in
  set_nodeInfo (mkNodeInfo (NI_NodeId n) (NI_Address n) (NI_Version n) (NI_Status n) (now / Second)
                  (i64 (now / Second - NI_Uptime n))) m.

Definition performMaintenance (m : MriaManager) (now : Time) : MriaManager :=
  let cs := clusterState m in
  set_clusterState (mkClusterState (ClusterID cs) (Leader cs) (CoreNodes cs) (ReplicantNodes cs) now) m.

(** The scan for the least identifier among the running nodes. *)
Definition electStep (leader : string) (node : NodeInfo) : string :=
  if NI_Status node =? NodeStatusRunning then
    if (leader =s "") || str_ltb (NI_NodeId node) leader then NI_NodeId node else leader
  else leader.
Definition electLeader (nodes : list NodeInfo) : string := foldl electStep "" nodes.

(** The channel holds one notice; the loop that sends it is also the one that takes it. *)
Definition notify (b : bool) (m : MriaManager) : outcome MriaManager :=
  match leaderElectionCh m with
  | [] => Returns (set_electionCh [b] m)
  | _ => Blocks
  end.

Definition performLeaderElection (m : MriaManager) : outcome MriaManager :=
  if Cfg_NodeRole (config m) <>s CoreNode then Returns m
  else
    let coreNodes := GetCoreNodes m in
    match coreNodes with
    | [] => Returns m
    | _ =>
        let leader := electLeader coreNodes in
        let cs := clusterState m in
        let oldLeader := Leader cs in
        let wasLeader := isLeader m in
        let m := mkMriaManager (config m) (nodeInfo m)
                   (mkClusterState (ClusterID cs) leader (CoreNodes cs) (ReplicantNodes cs) (LastUpdated cs))
                   (clusterManager m) (stopCh_closed m) (leader =s Cfg_NodeID (config m)) (leaderElectionCh m) in
        if oldLeader <>s leader then
          if isLeader m && negb wasLeader then notify true m
          else if negb (isLeader m) && wasLeader then notify false m
          else Returns m
        else Returns m
    end.

(** The callbacks act on a state of their owner. *)
Definition handleLeadershipChange {W} (onBecomeLeader onLoseLeadership : option (W → W))
    (becomeLeader : bool) (w : W) : W :=
  if becomeLeader
  then match onBecomeLeader with Some f => f w | None => w end
  else match onLoseLeadership with Some f => f w | None => w end.

(** One round of [leaderElectionLoop] on a pending notice. *)
Definition takeNotice {W} (onBecomeLeader onLoseLeadership : option (W → W)) (m : MriaManager) (w : W)
    : MriaManager * W :=
  match leaderElectionCh m with
  | [] => (m, w)
  | b :: ch => (set_electionCh ch m, handleLeadershipChange onBecomeLeader onLoseLeadership b w)
  end.

(** ** The order of strings *)

Lemma ascii_compare_Lt a b : Ascii.compare a b = Lt ↔ (Ascii.N_of_ascii a < Ascii.N_of_ascii b)%N.
Proof. done. Qed.

Lemma str_ltb_Lt a b : str_ltb a b = true ↔ String.compare a b = Lt.
Proof. unfold str_ltb. by destruct (String.compare a b). Qed.

Lemma str_ltb_cons a s b t :
  str_ltb (String a s) (String b t) = true ↔
  (Ascii.N_of_ascii a < Ascii.N_of_ascii b)%N ∨ a = b ∧ str_ltb s t = true.
Proof.
  rewrite !str_ltb_Lt. simpl. destruct (Ascii.compare a b) eqn:E.
  - apply Ascii.compare_eq_iff in E as ->. split; [auto|]. intros [?|[_ ?]]; [lia|done].
  - split; [left; by apply ascii_compare_Lt|done].
  - split; [done|]. intros [Hlt%ascii_compare_Lt|[-> _]]; [congruence|].
    unfold Ascii.compare in E. by rewrite N.compare_refl in E.
Qed.

Lemma str_ltb_irrefl s : str_ltb s s = false.
Proof.
  apply not_true_is_false. induction s as [|a s IH]; [done|].
  rewrite str_ltb_cons. intros [?|[_ ?]]; [lia|done].
Qed.

Lemma str_ltb_trans s t u : str_ltb s t = true → str_ltb t u = true → str_ltb s u = true.
Proof.
  revert t u. induction s as [|a s IH]; intros [|b t] [|c u]; try done.
  rewrite !str_ltb_cons. intros [?|[-> ?]] [?|[-> ?]]; [left; lia|auto|auto|].
  right. split; [done|]. by eapply IH.
Qed.

Lemma str_ltb_total s t : str_ltb s t = false → str_ltb t s = false → s = t.
Proof.
  unfold str_ltb. rewrite (String.compare_antisym t s).
  destruct (String.compare s t) eqn:E; simpl; try done. intros _ _. by apply String.compare_eq_iff.
Qed.

(** ** Leader election *)

Definition running (n : NodeInfo) : Prop := NI_Status n = NodeStatusRunning.

(** [l] is the least identifier of the running nodes, or empty when there is none. *)
Definition least_running (nodes : list NodeInfo) (l : string) : Prop :=
  (l = "" ∧ ∀ n, n ∈ nodes → ¬ running n) ∨
  (l ≠ "" ∧ (∃ n, n ∈ nodes ∧ running n ∧ NI_NodeId n = l) ∧
   ∀ n, n ∈ nodes → running n → str_ltb (NI_NodeId n) l = false).

Definition named (nodes : list NodeInfo) : Prop := ∀ n, n ∈ nodes → NI_NodeId n ≠ "".

Lemma least_running_unique nodes l l' : least_running nodes l → least_running nodes l' → l = l'.
Proof.
  intros [[-> H]|(Hl & (n & Hn & Hr & <-) & H)] [[-> H']|(Hl' & (n' & Hn' & Hr' & <-) & H')].
  - done.
  - by destruct (H n').
  - by destruct (H' n).
  - apply str_ltb_total; [by apply H'|by apply H].
Qed.

(** Which nodes run decides, not their order. *)
Lemma least_running_same nodes nodes' l :
  (∀ n, running n → n ∈ nodes ↔ n ∈ nodes') → least_running nodes l → least_running nodes' l.
Proof.
  intros Hs [[-> H]|(Hl & (n & Hn & Hr & Hi) & H)]; [left|right].
  - split; [done|]. intros n Hn Hr. by eapply H; [apply Hs|].
  - split_and!; [done|exists n; by rewrite <- Hs|]. intros n' Hn' Hr'. apply H; [by apply Hs|done].
Qed.

Lemma electStep_least nodes l n :
  NI_NodeId n ≠ "" → least_running nodes l → least_running (nodes ++ [n]) (electStep l n).
Proof.
  intros Hne H. unfold electStep. destruct (NI_Status n =? NodeStatusRunning) eqn:Es; bool_prop; last first.
  { eapply least_running_same; [|exact H]. intros n' Hr. rewrite elem_of_app, list_elem_of_singleton.
    split; [by left|]. intros [?| ->]; done. }
  right. destruct H as [[-> H]|(Hl & (n0 & Hn0 & Hr0 & Hid0) & H)]; simpl.
  - split_and!; [done|exists n; set_solver|]. intros n'.
    rewrite elem_of_app, list_elem_of_singleton. intros [Hn'| ->] Hr; [by destruct (H n')|].
    apply str_ltb_irrefl.
  - rewrite (bool_decide_eq_false_2 (l = "")) by done. simpl.
    destruct (str_ltb (NI_NodeId n) l) eqn:Elt.
    + split_and!; [done|exists n; set_solver|]. intros n'.
      rewrite elem_of_app, list_elem_of_singleton. intros [Hn'| ->] Hr; [|apply str_ltb_irrefl].
      apply not_true_is_false. intros Hlt. specialize (H n' Hn' Hr).
      by rewrite (str_ltb_trans _ _ _ Hlt Elt) in H.
    + split_and!; [done|exists n0; set_solver|]. intros n'.
      rewrite elem_of_app, list_elem_of_singleton. intros [Hn'| ->] Hr; [by apply H|done].
Qed.

Lemma electLeader_least nodes : named nodes → least_running nodes (electLeader nodes).
Proof.
  induction nodes as [|n nodes IH] using rev_ind; intros Hn.
  - left. split; [done|]. intros n Hin. by apply not_elem_of_nil in Hin.
  - unfold electLeader. rewrite foldl_snoc. apply electStep_least; [apply Hn; set_solver|].
    apply IH. intros n' ?. apply Hn. set_solver.
Qed.

Lemma GetCoreNodes_nil m : GetCoreNodes m = [] ↔ CoreNodes (clusterState m) = ∅.
Proof.
  unfold GetCoreNodes. rewrite <- map_to_list_empty_iff.
  by destruct (map_to_list _).
Qed.

(** What a round of the election does, apart from the notice. *)
Definition elected (m : MriaManager) : MriaManager :=
  let cs := clusterState m in
  let leader := electLeader (GetCoreNodes m) in
  mkMriaManager (config m) (nodeInfo m)
    (mkClusterState (ClusterID cs) leader (CoreNodes cs) (ReplicantNodes cs) (LastUpdated cs))
    (clusterManager m) (stopCh_closed m) (leader =s Cfg_NodeID (config m)) (leaderElectionCh m).

(** A notice is due when the leadership of this node changes with the leader. *)
Definition notice (m : MriaManager) : list bool :=
  let m' := elected m in
  if bool_decide (Leader (clusterState m) ≠ Leader (clusterState m')) && xorb (isLeader m) (isLeader m')
  then [isLeader m'] else [].

Lemma performLeaderElection_core m :
  GetNodeRole m = CoreNode → CoreNodes (clusterState m) ≠ ∅ → leaderElectionCh m = [] →
  performLeaderElection m = Returns (set_electionCh (notice m) (elected m)).
Proof.
  intros Hr Hc Hch. unfold performLeaderElection. unfold GetNodeRole in Hr.
  rewrite (bool_decide_eq_true_2 (Cfg_NodeRole _ = _)) by done. simpl.
  destruct (GetCoreNodes m) as [|n ns] eqn:En; [by apply GetCoreNodes_nil in En|].
  rewrite <- En. unfold notice. simpl. fold (elected m).
  destruct (bool_decide (Leader (clusterState m) = electLeader (GetCoreNodes m))) eqn:El; bool_prop.
  - rewrite (bool_decide_eq_false_2 (_ ≠ _)) by (intros Hne; by apply Hne). simpl. unfold elected, set_electionCh.
    simpl. by rewrite Hch.
  - rewrite (bool_decide_eq_true_2 (_ ≠ _)) by done. simpl. unfold notify. simpl. rewrite Hch.
    destruct (isLeader m), (electLeader (GetCoreNodes m) =s Cfg_NodeID (config m)) eqn:E; simpl;
      unfold elected, set_electionCh; simpl; by rewrite ?Hch, ?E.
Qed.

(** A round of leader election on a core node that knows itself, with no notice pending,
    returns; the leader is the least identifier of the core nodes that run, this node leads
    exactly when it is that one, the node tables stay, and exactly one notice is queued when the
    node's leadership changed.  Two nodes that know the same running core nodes elect the same
    leader, in whatever order they iterate over their tables. *)
Theorem election_exact m :
  GetNodeRole m = CoreNode → CoreNodes (clusterState m) ≠ ∅ → leaderElectionCh m = [] →
  named (GetCoreNodes m) →
  ∃ m', performLeaderElection m = Returns m' ∧
    least_running (GetCoreNodes m) (Leader (clusterState m')) ∧
    (IsLeader m' = true ↔ Leader (clusterState m') = Cfg_NodeID (config m)) ∧
    CoreNodes (clusterState m') = CoreNodes (clusterState m) ∧
    ReplicantNodes (clusterState m') = ReplicantNodes (clusterState m) ∧
    leaderElectionCh m' = notice m ∧
    ∀ nodes, named nodes → (∀ n, running n → n ∈ nodes ↔ n ∈ GetCoreNodes m) →
      electLeader nodes = Leader (clusterState m').
Proof.
  intros Hr Hc Hch Hn. exists (set_electionCh (notice m) (elected m)).
  pose proof (electLeader_least _ Hn) as Hl. unfold GetNodeRole in Hr.
  split_and!; try done; simpl.
  - by apply performLeaderElection_core.
  - unfold IsLeader. simpl. rewrite andb_true_iff, !bool_decide_eq_true. tauto.
  - intros nodes Hn' Hs. eapply least_running_unique; [by apply electLeader_least|].
    eapply least_running_same; [|exact Hl]. intros n ?. by rewrite Hs.
Qed.

Definition sampleCore (id : string) : MriaManager :=
  (Start (NewMriaManager (DefaultMriaConfig id ":1883") 0) None 0).1.

Lemma named_Forall nodes : bool_decide (Forall (λ n, NI_NodeId n ≠ "") nodes) = true → named nodes.
Proof. rewrite bool_decide_eq_true, Forall_forall. by intros H n Hn; apply H. Qed.

Lemma election_exact_witness :
  let m := set_clusterState (put_core "core-0" (Ptr (mkNodeInfo "core-0" "h:1" "v" NodeStatusRunning 0 0))
             (clusterState (sampleCore "core-1"))) (sampleCore "core-1") in
  ∃ m', performLeaderElection m = Returns m' ∧ Leader (clusterState m') = "core-0".
Proof.
  intros m. assert (named (GetCoreNodes m)) as Hn by (apply named_Forall; by vm_compute).
  destruct (election_exact m) as (m' & Hm' & Hl & _); [done| |done|done|].
  - intros E. unfold m in E. simpl in E. exact (insert_non_empty _ _ _ E).
  - exists m'. split; [done|].
    rewrite (least_running_unique _ _ _ Hl (electLeader_least _ Hn)). by vm_compute.
Defined.
