(* ===== verification/Replication.v ===== *)
(** * Replication: the replicated tables and their log (pkg/mria/replication.go)

    A core node records every change of its subscription, session and route tables in a log
    that a loop takes from a channel, keeps for a while and forwards to the replicants, which
    apply it to their tables.  The changes and the loop interleave in any order; each change
    is atomic.  The Mria manager is only read here and is an argument. *)

From S2P Require Import Prelude GoLib GoValue Cluster GoJSON Mria.
Local Open Scope emqx_scope.
Local Open Scope Z_scope.

(** ** Data *)

Record SubscriptionData := mkSubscriptionData {
  Sub_ClientID : string; Sub_TopicFilter : string; Sub_QoS : Z; Sub_NodeID : string }.
Record SessionData := mkSessionData {
  Ses_ClientID : string; Ses_NodeID : string; Ses_Connected : bool; Ses_CleanSession : bool;
  Ses_ExpiryTime : Time }.
Record RouteData := mkRouteData { Rt_TopicFilter : string; Rt_NodeIDs : list string }.

(** The [Data] of an entry: one of the records, or any tree (an [interface{}]). *)
Inductive LogData :=
  | DSubscription (s : SubscriptionData)
  | DSession (s : SessionData)
  | DRoute (r : RouteData)
  | DTree (j : json).

Record ReplicationLog := mkReplicationLog {
  L_ID : string; L_Timestamp : Z; L_NodeID : string; L_Operation : string; L_Table : string;
  L_Data : LogData; L_Version : Z }.

Record ReplicationState := mkReplicationState {
  subscriptions : gmap string SubscriptionData;
  sessions : gmap string SessionData;
  routes : gmap string RouteData;
  replicationLogs : list ReplicationLog;
  lastLogID : Z;
  version : Z;
}.
Definition NewReplicationState : ReplicationState := mkReplicationState ∅ ∅ ∅ [] 0 0.

(** [replicationCh] holds up to 1000 entries.  [rm_running]: the loop was started and has not
    been stopped.  [rm_sent] lists the calls made to peers so far. *)
Record ReplicationManager := mkReplicationManager {
  rm_nodeID : string;
  rm_nodeRole : NodeRole;
  rm_state : ReplicationState;
  replicationCh : list ReplicationLog;
  rm_running : bool;
  rm_stopped : bool;
  rm_sent : list PeerCall;
}.
Definition NewReplicationManager (nodeID : string) (nodeRole : NodeRole) : ReplicationManager :=
  mkReplicationManager nodeID nodeRole NewReplicationState [] false false [].

Definition set_state (st : ReplicationState) (rm : ReplicationManager) : ReplicationManager :=
  mkReplicationManager (rm_nodeID rm) (rm_nodeRole rm) st (replicationCh rm) (rm_running rm) (rm_stopped rm) (rm_sent rm).
Definition set_ch (ch : list ReplicationLog) (rm : ReplicationManager) : ReplicationManager :=
  mkReplicationManager (rm_nodeID rm) (rm_nodeRole rm) (rm_state rm) ch (rm_running rm) (rm_stopped rm) (rm_sent rm).
Definition add_sent (l : list PeerCall) (rm : ReplicationManager) : ReplicationManager :=
  mkReplicationManager (rm_nodeID rm) (rm_nodeRole rm) (rm_state rm) (replicationCh rm) (rm_running rm) (rm_stopped rm) (rm_sent rm ++ l).

(** A change of a table, with the version that counts it. *)
Definition set_subs (m : gmap string SubscriptionData) (v : Z) (st : ReplicationState) : ReplicationState :=
  mkReplicationState m (sessions st) (routes st) (replicationLogs st) (lastLogID st) v.
Definition set_sessions (m : gmap string SessionData) (v : Z) (st : ReplicationState) : ReplicationState :=
  mkReplicationState (subscriptions st) m (routes st) (replicationLogs st) (lastLogID st) v.
Definition set_routes (m : gmap string RouteData) (v : Z) (st : ReplicationState) : ReplicationState :=
  mkReplicationState (subscriptions st) (sessions st) m (replicationLogs st) (lastLogID st) v.
Definition nextVersion (rm : ReplicationManager) : Z := i64 (version (rm_state rm) + 1).

Definition subKey (clientID topicFilter : string) : string := (clientID +:+ ":" +:+ topicFilter)%string.

(** ** Life cycle *)

Definition RM_Start (rm : ReplicationManager) : ReplicationManager :=
  mkReplicationManager (rm_nodeID rm) (rm_nodeRole rm) (rm_state rm) (replicationCh rm)
    (negb (rm_stopped rm)) (rm_stopped rm) (rm_sent rm).
Definition RM_Stop (rm : ReplicationManager) : outcome ReplicationManager :=
  if rm_stopped rm then Panics
  else Returns (mkReplicationManager (rm_nodeID rm) (rm_nodeRole rm) (rm_state rm) (replicationCh rm)
                  false true (rm_sent rm)).

(** ** Writing entries *)

Section json.
Context `{JSONText}.

(** A nil and an empty slice are not told apart: both decode to no element. *)
Definition dataTree (d : LogData) : option json :=
  match d with
  | DSubscription s =>
      Some (JObject [("client_id", JString (Sub_ClientID s)); ("topic_filter", JString (Sub_TopicFilter s));
                     ("qos", JInt (Sub_QoS s)); ("node_id", JString (Sub_NodeID s))])
  | DSession s =>
      t ← timeText (Ses_ExpiryTime s);
      Some (JObject [("client_id", JString (Ses_ClientID s)); ("node_id", JString (Ses_NodeID s));
                     ("connected", JBool (Ses_Connected s)); ("clean_session", JBool (Ses_CleanSession s));
                     ("expiry_time", JString t)])
  | DRoute r =>
      Some (JObject [("topic_filter", JString (Rt_TopicFilter r));
                     ("node_ids", JArray (JString <$> Rt_NodeIDs r))])
  | DTree j => Some j
  end.

Definition marshalLog (e : ReplicationLog) : option (list byte) :=
  d ← dataTree (L_Data e);
  Some (jtext (JObject [("id", JString (L_ID e)); ("timestamp", JInt (L_Timestamp e));
                        ("node_id", JString (L_NodeID e)); ("operation", JString (L_Operation e));
                        ("table", JString (L_Table e)); ("data", d); ("version", JInt (L_Version e))])).

(** ** Reading entries *)

Definition unmarshalLog (b : list byte) : option ReplicationLog :=
  j ← jparse b;
  l ← fieldsOf j;
  id ← field decString "" "id" l;
  timestamp ← field decInt 0 "timestamp" l;
  node ← field decString "" "node_id" l;
  operation ← field decString "" "operation" l;
  table ← field decString "" "table" l;
  data ← field decAny JNull "data" l;
  version ← field decInt 0 "version" l;
  Some (mkReplicationLog id timestamp node operation table (DTree data) version).

(** The data of an entry is written again and read as the record of its table. *)
Definition rereadData (d : LogData) : option (list (string * json)) :=
  j ← dataTree d;
  j ← jparse (jtext j);
  fieldsOf j.

Definition readSubscription (d : LogData) : option SubscriptionData :=
  l ← rereadData d;
  client ← field decString "" "client_id" l;
  topic ← field decString "" "topic_filter" l;
  qos ← field decInt 0 "qos" l;
  node ← field decString "" "node_id" l;
  Some (mkSubscriptionData client topic qos node).

(** [zeroTime]: the zero value of [time.Time], 1 January of year 1. *)
Definition zeroTime : Time := -62135596800 * Second.

Definition readSession (d : LogData) : option SessionData :=
  l ← rereadData d;
  client ← field decString "" "client_id" l;
  node ← field decString "" "node_id" l;
  connected ← field decBool false "connected" l;
  clean ← field decBool false "clean_session" l;
  expiry ← field decTime zeroTime "expiry_time" l;
  Some (mkSessionData client node connected clean expiry).

Definition readRoute (d : LogData) : option RouteData :=
  l ← rereadData d;
  topic ← field decString "" "topic_filter" l;
  nodes ← field decStrings [] "node_ids" l;
  Some (mkRouteData topic nodes).

(** ** The loop *)

Section manager.
(** [rm.mria]: nil, or the Mria manager of the node. *)
Context (mria : option MriaManager).
Implicit Types rm : ReplicationManager.

Definition replicateToReplicants (entry : ReplicationLog) rm : ReplicationManager :=
  match mria with
  | None => rm
  | Some m =>
      let replicantNodes := GetReplicantNodes m in
      match replicantNodes with
      | [] => rm
      | _ =>
          match marshalLog entry with
          | None => rm
          | Some data =>
              foldl (λ rm node,
                add_sent (ForwardPublish (clusterManager m)
                            ("$mria/replication/" +:+ NI_NodeId node)%string data (NI_NodeId node)) rm)
                rm replicantNodes
          end
      end
  end.

Definition processReplicationLog (entry : ReplicationLog) rm : ReplicationManager :=
  let st := rm_state rm in
  let logs := replicationLogs st ++ [entry] in
  let logs := if (1000 <? length logs)%nat then drop (length logs - 1000) logs else logs in
  let rm := set_state (mkReplicationState (subscriptions st) (sessions st) (routes st) logs
                         (lastLogID st) (version st)) rm in
  if rm_nodeRole rm =s CoreNode then replicateToReplicants entry rm else rm.

(** One round of [replicationLoop]. *)
Definition loopRound rm : ReplicationManager :=
  match replicationCh rm with
  | e :: ch => if rm_running rm then processReplicationLog e (set_ch ch rm) else rm
  | [] => rm
  end.

(** [rm.replicationCh <- entry]: on a full channel the sender waits until the loop takes an
    entry, for ever when there is no loop. *)
Definition sendLog (entry : ReplicationLog) rm : outcome ReplicationManager :=
  if (length (replicationCh rm) <? 1000)%nat then Returns (set_ch (replicationCh rm ++ [entry]) rm)
  else if rm_running rm then
    let rm := loopRound rm in Returns (set_ch (replicationCh rm ++ [entry]) rm)
  else Blocks.

Definition generateLogID (now : Time) rm : string * ReplicationManager :=
  let st := rm_state rm in
  let id := i64 (lastLogID st + 1) in
  ((rm_nodeID rm +:+ "-" +:+ pretty now +:+ "-" +:+ pretty id)%string,
   set_state (mkReplicationState (subscriptions st) (sessions st) (routes st) (replicationLogs st) id (version st)) rm).

(** The entry a core node writes for a change it has made; other nodes write none. *)
Definition logChange (operation table : string) (data : LogData) (now : Time) rm : outcome ReplicationManager :=
  if rm_nodeRole rm =s CoreNode then
    let '(id, rm) := generateLogID now rm in
    sendLog (mkReplicationLog id (now / Second) (rm_nodeID rm) operation table data (version (rm_state rm))) rm
  else Returns rm.

(** A callback, when it is set, runs after the change and its entry. *)
Definition callback {X} (f : option (X → string → ReplicationManager → outcome ReplicationManager))
    (x : X) (operation : string) rm : outcome ReplicationManager :=
  match f with Some f => f x operation rm | None => Returns rm end.

(** ** Operations *)

Context (onSubscriptionChange : option (SubscriptionData → string → ReplicationManager → outcome ReplicationManager))
        (onSessionChange : option (SessionData → string → ReplicationManager → outcome ReplicationManager))
        (onRouteChange : option (RouteData → string → ReplicationManager → outcome ReplicationManager)).

Definition AddSubscription (clientID topicFilter : string) (qos : Z) (now : Time) rm : outcome ReplicationManager :=
  let key := subKey clientID topicFilter in
  let subscription := mkSubscriptionData clientID topicFilter qos (rm_nodeID rm) in
  let rm := set_state (set_subs (<[key := subscription]> (subscriptions (rm_state rm))) (nextVersion rm) (rm_state rm)) rm in
  let! rm := logChange "INSERT" "subscriptions" (DSubscription subscription) now rm in
  callback onSubscriptionChange subscription "INSERT" rm.

Definition RemoveSubscription (clientID topicFilter : string) (now : Time) rm : outcome (result ReplicationManager) :=
  let key := subKey clientID topicFilter in
  match subscriptions (rm_state rm) !! key with
  | None => Returns (Err "subscription not found")
  | Some subscription =>
      let rm := set_state (set_subs (delete key (subscriptions (rm_state rm))) (nextVersion rm) (rm_state rm)) rm in
      let! rm := logChange "DELETE" "subscriptions" (DSubscription subscription) now rm in
      let! rm := callback onSubscriptionChange subscription "DELETE" rm in
      Returns (Ok rm)
  end.

(** The test for an existing session comes after the insertion. *)
Definition AddSession (clientID : string) (connected cleanSession : bool) (expiryTime now : Time) rm
    : outcome ReplicationManager :=
  let session := mkSessionData clientID (rm_nodeID rm) connected cleanSession expiryTime in
  let rm := set_state (set_sessions (<[clientID := session]> (sessions (rm_state rm))) (nextVersion rm) (rm_state rm)) rm in
  let operation := match sessions (rm_state rm) !! clientID with Some _ => "UPDATE" | None => "INSERT" end in
  let! rm := logChange operation "sessions" (DSession session) now rm in
  callback onSessionChange session "UPSERT" rm.

Definition RemoveSession (clientID : string) (now : Time) rm : outcome (result ReplicationManager) :=
  match sessions (rm_state rm) !! clientID with
  | None => Returns (Err "session not found")
  | Some session =>
      let rm := set_state (set_sessions (delete clientID (sessions (rm_state rm))) (nextVersion rm) (rm_state rm)) rm in
      let! rm := logChange "DELETE" "sessions" (DSession session) now rm in
      let! rm := callback onSessionChange session "DELETE" rm in
      Returns (Ok rm)
  end.

Definition UpdateRoute (topicFilter : string) (nodeIDs : list string) (now : Time) rm : outcome ReplicationManager :=
  let route := mkRouteData topicFilter nodeIDs in
  let rm := set_state (set_routes (<[topicFilter := route]> (routes (rm_state rm))) (nextVersion rm) (rm_state rm)) rm in
  let! rm := logChange "UPDATE" "routes" (DRoute route) now rm in
  callback onRouteChange route "UPDATE" rm.

(** ** Applying entries

    The texts of encoding/json's own errors are left out. *)

Definition isUpsert (operation : string) : bool := (operation =s "INSERT") || (operation =s "UPDATE").

Definition applySubscriptionChange (e : ReplicationLog) rm : outcome (result ReplicationManager) :=
  match readSubscription (L_Data e) with
  | None => Returns (Err "json")
  | Some subscription =>
      let key := subKey (Sub_ClientID subscription) (Sub_TopicFilter subscription) in
      let subs := subscriptions (rm_state rm) in
      let subs := if isUpsert (L_Operation e) then <[key := subscription]> subs
                  else if L_Operation e =s "DELETE" then delete key subs else subs in
      let rm := set_state (set_subs subs (L_Version e) (rm_state rm)) rm in
      let! rm := callback onSubscriptionChange subscription (L_Operation e) rm in
      Returns (Ok rm)
  end.

Definition applySessionChange (e : ReplicationLog) rm : outcome (result ReplicationManager) :=
  match readSession (L_Data e) with
  | None => Returns (Err "json")
  | Some session =>
      let m := sessions (rm_state rm) in
      let m := if isUpsert (L_Operation e) then <[Ses_ClientID session := session]> m
               else if L_Operation e =s "DELETE" then delete (Ses_ClientID session) m else m in
      let rm := set_state (set_sessions m (L_Version e) (rm_state rm)) rm in
      let! rm := callback onSessionChange session (L_Operation e) rm in
      Returns (Ok rm)
  end.

Definition applyRouteChange (e : ReplicationLog) rm : outcome (result ReplicationManager) :=
  match readRoute (L_Data e) with
  | None => Returns (Err "json")
  | Some route =>
      let m := routes (rm_state rm) in
      let m := if isUpsert (L_Operation e) then <[Rt_TopicFilter route := route]> m
               else if L_Operation e =s "DELETE" then delete (Rt_TopicFilter route) m else m in
      let rm := set_state (set_routes m (L_Version e) (rm_state rm)) rm in
      let! rm := callback onRouteChange route (L_Operation e) rm in
      Returns (Ok rm)
  end.

Definition ApplyReplicationLog (logData : list byte) rm : outcome (result ReplicationManager) :=
  match unmarshalLog logData with
  | None => Returns (Err "failed to unmarshal replication log")
  | Some e =>
      if L_Table e =s "subscriptions" then applySubscriptionChange e rm
      else if L_Table e =s "sessions" then applySessionChange e rm
      else if L_Table e =s "routes" then applyRouteChange e rm
      else Returns (Err ("unknown table: " +:+ L_Table e)%string)
  end.

(** ** Queries *)

Definition GetSubscriptions (clientID : string) rm : list SubscriptionData :=
  go_range (λ _ sub out, if Sub_ClientID sub =s clientID then out ++ [sub] else out) (subscriptions (rm_state rm)) [].
Definition GetSession (clientID : string) rm : option SessionData := sessions (rm_state rm) !! clientID.
Definition GetRoute (topicFilter : string) rm : option RouteData := routes (rm_state rm) !! topicFilter.
Definition copyMap {V} (m : gmap string V) : gmap string V := go_range (λ k v acc, <[k := v]> acc) m ∅.
Definition GetAllSubscriptions rm : gmap string SubscriptionData := copyMap (subscriptions (rm_state rm)).
Definition GetAllSessions rm : gmap string SessionData := copyMap (sessions (rm_state rm)).
Definition GetAllRoutes rm : gmap string RouteData := copyMap (routes (rm_state rm)).

(** The core node a replicant would ask; the request itself is not written yet. *)
Definition syncFromCore rm : option NodeInfo :=
  if rm_nodeRole rm <>s ReplicantNode then None
  else
    match mria with
    | None => None
    | Some m => chooseCore (Leader (GetClusterState m)) (GetCoreNodes m)
    end.
End manager.
End json.
