(* ===== verification/ReplicationProps.v ===== *)
(** * ReplicationProps: replicas converge, entries keep their order (pkg/mria/replication.go)

    The entries a core node forwards to a replicant, applied in the order they were sent, lead to
    the tables of the core node. *)

From S2P Require Import Prelude GoLib GoValue Cluster GoJSON Mria Replication.
Local Open Scope emqx_scope.
Local Open Scope Z_scope.

(** ** The effect of an entry on the tables *)

Record Tables := mkTables {
  T_subs : gmap string SubscriptionData; T_sessions : gmap string SessionData;
  T_routes : gmap string RouteData; T_version : Z }.
Definition emptyTables : Tables := mkTables ∅ ∅ ∅ 0.
Definition tablesOf (rm : ReplicationManager) : Tables :=
  let st := rm_state rm in mkTables (subscriptions st) (sessions st) (routes st) (version st).

Definition change {V} (operation k : string) (v : V) (m : gmap string V) : gmap string V :=
  if isUpsert operation then <[k := v]> m else if operation =s "DELETE" then delete k m else m.

Definition effect (t : Tables) (e : ReplicationLog) : Tables :=
  match L_Data e with
  | DSubscription s =>
      mkTables (change (L_Operation e) (subKey (Sub_ClientID s) (Sub_TopicFilter s)) s (T_subs t))
        (T_sessions t) (T_routes t) (L_Version e)
  | DSession s =>
      mkTables (T_subs t) (change (L_Operation e) (Ses_ClientID s) s (T_sessions t)) (T_routes t) (L_Version e)
  | DRoute r =>
      mkTables (T_subs t) (T_sessions t) (change (L_Operation e) (Rt_TopicFilter r) r (T_routes t)) (L_Version e)
  | DTree _ => t
  end.

(** ** Entries that survive the transport *)

Definition int64 (z : Z) : Prop := - 2 ^ 63 ≤ z < 2 ^ 63.

Section codec.
Context {HJ : JSONText} {HL : JSONTextLaws}.

(** Valid UTF-8 strings, a level that a float64 holds, a time that can be written. *)
Definition good_data (d : LogData) : Prop :=
  match d with
  | DSubscription s =>
      valid_utf8 (Sub_ClientID s) ∧ valid_utf8 (Sub_TopicFilter s) ∧ valid_utf8 (Sub_NodeID s) ∧
      Z.abs (Sub_QoS s) ≤ 2 ^ 53
  | DSession s =>
      valid_utf8 (Ses_ClientID s) ∧ valid_utf8 (Ses_NodeID s) ∧ is_Some (timeText (Ses_ExpiryTime s))
  | DRoute r => valid_utf8 (Rt_TopicFilter r) ∧ Forall valid_utf8 (Rt_NodeIDs r)
  | DTree _ => False
  end.
Definition table_of (d : LogData) : string :=
  match d with
  | DSubscription _ => "subscriptions" | DSession _ => "sessions" | DRoute _ => "routes" | DTree _ => ""
  end.
Definition good_entry (e : ReplicationLog) : Prop :=
  good_data (L_Data e) ∧ L_Table e = table_of (L_Data e) ∧
  valid_utf8 (L_Operation e) ∧ int64 (L_Timestamp e) ∧ int64 (L_Version e).

Lemma in_int64 z : int64 z → in_range (- 2 ^ 63) (2 ^ 63 - 1) z = true.
Proof. unfold int64, in_range. intros. apply andb_true_iff. rewrite !Z.leb_le. lia. Qed.

Lemma decInt_int64 z cur : int64 z → decInt (JInt z) cur = Some z.
Proof. intros Hz. unfold decInt. by rewrite in_int64. Qed.

Lemma unmarshal_marshal e b :
  good_entry e → marshalLog e = Some b →
  ∃ j, dataTree (L_Data e) = Some j ∧
    unmarshalLog b = Some (mkReplicationLog (toValid (L_ID e)) (L_Timestamp e) (toValid (L_NodeID e))
      (L_Operation e) (L_Table e) (DTree (viaInterface (jclean j))) (L_Version e)).
Proof using HL.
  intros (_ & Ht & Ho & Hts & Hv) Hm. unfold marshalLog in Hm.
  destruct (dataTree (L_Data e)) as [j|]; [|done]. simpl in Hm. injection Hm as <-.
  exists j. split; [done|]. unfold unmarshalLog. rewrite jparse_jtext. simpl.
  run_fields. unfold decInt, decAny. rewrite !in_int64 by done. simpl.
  rewrite Ho. assert (toValid (L_Table e) = L_Table e) as ->; [|done].
  rewrite Ht. by destruct (L_Data e).
Qed.

Lemma read_subscription s :
  good_data (DSubscription s) →
  ∃ j, dataTree (DSubscription s) = Some j ∧ readSubscription (DTree (viaInterface (jclean j))) = Some s.
Proof using HL.
  intros (Hc & Hf & Hn & Hq). eexists. split; [done|].
  unfold readSubscription, rereadData. simpl. rewrite (reint_exact (Sub_QoS s)) by done.
  eval_keys. simpl. rewrite jparse_jtext. simpl. rewrite !Hc, !Hf, !Hn.
  run_fields. rewrite in_int64 by (unfold int64; lia). by destruct s.
Qed.

Lemma read_session s :
  good_data (DSession s) →
  ∃ j, dataTree (DSession s) = Some j ∧ readSession (DTree (viaInterface (jclean j))) = Some s.
Proof using HL.
  intros (Hc & Hn & [t Ht]). destruct (parseTime_timeText _ _ Ht) as [Hv Hp].
  eexists. split; [simpl; by rewrite Ht|].
  unfold readSession, rereadData. simpl. eval_keys. simpl. rewrite jparse_jtext. simpl.
  rewrite !Hc, !Hn, !Hv. run_fields. rewrite Hp. by destruct s.
Qed.

Lemma viaInterface_strings (l : list string) : viaInterface <$> (JString <$> l) = JString <$> l.
Proof. induction l as [|x l IH]; [done|]. by rewrite !fmap_cons, IH. Qed.

Lemma read_route r :
  good_data (DRoute r) →
  ∃ j, dataTree (DRoute r) = Some j ∧ readRoute (DTree (viaInterface (jclean j))) = Some r.
Proof using HL.
  intros (Hf & Hn). eexists. split; [done|].
  unfold readRoute, rereadData. simpl. rewrite !jclean_strings, !viaInterface_strings by done.
  eval_keys. simpl. rewrite jparse_jtext. simpl. rewrite !jclean_strings by done. rewrite !Hf.
  run_fields. rewrite decElems_strings. by destruct r.
Qed.

(** A replicant without callbacks that gets the text of an entry makes its change. *)
Lemma apply_effect e b rm :
  good_entry e → marshalLog e = Some b →
  ∃ rm', ApplyReplicationLog None None None b rm = Returns (Ok rm') ∧
    tablesOf rm' = effect (tablesOf rm) e.
Proof using HL.
  intros He Hb. destruct (unmarshal_marshal _ _ He Hb) as (j & Hj & Hu).
  destruct He as (Hd & Ht & _). unfold ApplyReplicationLog. rewrite Hu. simpl. rewrite Ht.
  unfold effect. destruct (L_Data e) as [s|s|r|]; [..|done]; simpl.
  - destruct (read_subscription s Hd) as (j' & Hj' & Hr). rewrite Hj' in Hj. injection Hj as ->.
    unfold applySubscriptionChange. simpl. rewrite Hr. simpl. eexists. split; [done|]. done.
  - destruct (read_session s Hd) as (j' & Hj' & Hr). rewrite Hj' in Hj. injection Hj as ->.
    unfold applySessionChange. simpl. rewrite Hr. simpl. eexists. split; [done|]. done.
  - destruct (read_route r Hd) as (j' & Hj' & Hr). rewrite Hj' in Hj. injection Hj as ->.
    unfold applyRouteChange. simpl. rewrite Hr. simpl. eexists. split; [done|]. done.
Qed.

Lemma marshal_good e : good_entry e → is_Some (marshalLog e).
Proof using HL.
  intros (Hd & _). unfold marshalLog. destruct (L_Data e) as [s|s|r|]; simpl in *; try by eexists.
  destruct Hd as (_ & _ & [t ->]). by eexists.
Qed.

End codec.

(** ** Messages to a replicant *)

(** The payloads of the calls made to node [r], in order. *)
Definition payload_to (r : string) (c : PeerCall) : option (list byte) :=
  match c with
  | CallForwardPublish peer req => if peer =s r then Some (PF_Payload req) else None
  | CallBatchUpdateRoutes _ _ => None
  end.
Definition payloads (r : string) (l : list PeerCall) : list (list byte) := omap (payload_to r) l.

(** The manager lists [r] as a replicant and has a connection to it; every node is listed under
    its identifier. *)
Definition connected_replicant (m : MriaManager) (r : string) : Prop :=
  is_Some (peers (clusterManager m) !! r) ∧ is_Some (ReplicantNodes (clusterState m) !! r) ∧
  ∀ k p, ReplicantNodes (clusterState m) !! k = Some p → NI_NodeId (deref m p) = k.

Lemma payloads_app r l1 l2 : payloads r (l1 ++ l2) = payloads r l1 ++ payloads r l2.
Proof. apply omap_app. Qed.

(** The calls one entry gives rise to. *)
Definition forwards (m : MriaManager) (data : list byte) (nodes : list NodeInfo) : list PeerCall :=
  flat_map (λ node, ForwardPublish (clusterManager m)
    ("$mria/replication/" +:+ NI_NodeId node)%string data (NI_NodeId node)) nodes.

(** A call that carries a log entry. *)
Definition replication_call (c : PeerCall) : Prop :=
  ∃ peer node data from,
    c = CallForwardPublish peer (mkPublishForward ("$mria/replication/" +:+ node)%string data from).

Lemma forwards_calls m data nodes : Forall replication_call (forwards m data nodes).
Proof.
  apply Forall_flat_map, Forall_forall. intros n _. unfold ForwardPublish.
  destruct (peers (clusterManager m) !! NI_NodeId n); repeat constructor.
  by exists (NI_NodeId n), (NI_NodeId n), data, (NodeID (clusterManager m)).
Qed.

Lemma forwards_sent m data nodes rm :
  foldl (λ rm node, add_sent (ForwardPublish (clusterManager m)
           ("$mria/replication/" +:+ NI_NodeId node)%string data (NI_NodeId node)) rm) rm nodes
  = add_sent (forwards m data nodes) rm.
Proof.
  revert rm. induction nodes as [|n nodes IH]; intros rm; simpl.
  - unfold add_sent. rewrite app_nil_r. by destruct rm.
  - rewrite IH. unfold add_sent. simpl. by rewrite <- app_assoc.
Qed.

Lemma payloads_forward m data n r :
  payloads r (ForwardPublish (clusterManager m) ("$mria/replication/" +:+ NI_NodeId n)%string data (NI_NodeId n)) =
  if decide (NI_NodeId n = r ∧ is_Some (peers (clusterManager m) !! r)) then [data] else [].
Proof.
  unfold ForwardPublish. destruct (peers (clusterManager m) !! NI_NodeId n) eqn:Ep; simpl.
  - case_bool_decide as E; simpl.
    + rewrite decide_True; [done|]. subst. eauto.
    + rewrite decide_False; [done|]. naive_solver.
  - rewrite decide_False; [done|]. intros [<- [? ?]]. congruence.
Qed.

Lemma payloads_forwards m data r nodes :
  payloads r (forwards m data nodes) =
  flat_map (λ n, if decide (NI_NodeId n = r ∧ is_Some (peers (clusterManager m) !! r)) then [data] else []) nodes.
Proof.
  induction nodes as [|n nodes IH]; simpl; [done|]. by rewrite payloads_app, payloads_forward, IH.
Qed.

Lemma flat_map_const_nil {A B} (f : A → list B) l : (∀ x, x ∈ l → f x = []) → flat_map f l = [].
Proof.
  induction l as [|x l IH]; intros Hl; simpl; [done|]. rewrite Hl by set_solver.
  apply IH. intros y ?. apply Hl. set_solver.
Qed.

(** A connected replicant gets every entry once. *)
Lemma payloads_replicants m data r :
  connected_replicant m r → payloads r (forwards m data (GetReplicantNodes m)) = [data].
Proof.
  intros (Hp & [p Hr] & Hk). rewrite payloads_forwards. unfold GetReplicantNodes.
  pose proof (map_to_list_delete _ _ _ Hr) as Hperm. symmetry in Hperm.
  apply Permutation_singleton_r. apply (fmap_Permutation (λ '(_, p), deref m p)) in Hperm.
  rewrite Hperm. simpl. rewrite decide_True by (split; [by apply Hk|done]). simpl.
  rewrite flat_map_const_nil; [done|]. intros n ([k p'] & -> & Hin)%list_elem_of_fmap.
  apply elem_of_map_to_list, lookup_delete_Some in Hin as [Hne Hk']. apply Hk in Hk' as <-.
  rewrite decide_False; [done|]. naive_solver.
Qed.

(** ** Runs of a core node *)

Section run.
Context {HJ : JSONText} {HL : JSONTextLaws}.
Context (m : MriaManager).

(** The changes of the tables, and rounds of the loop between them. *)
Inductive CoreStep :=
  | SAddSubscription (clientID topicFilter : string) (qos : Z) (now : Time)
  | SRemoveSubscription (clientID topicFilter : string) (now : Time)
  | SAddSession (clientID : string) (connected cleanSession : bool) (expiryTime now : Time)
  | SRemoveSession (clientID : string) (now : Time)
  | SUpdateRoute (topicFilter : string) (nodeIDs : list string) (now : Time)
  | SLoop.

(** A removal that finds nothing leaves the node as it is. *)
Definition kept (rm : ReplicationManager) (o : outcome (result ReplicationManager)) : outcome ReplicationManager :=
  let! r := o in Returns (match r with Ok rm' => rm' | Err _ => rm end).

Definition core_step (s : CoreStep) (rm : ReplicationManager) : outcome ReplicationManager :=
  match s with
  | SAddSubscription c f q now => AddSubscription (Some m) None c f q now rm
  | SRemoveSubscription c f now => kept rm (RemoveSubscription (Some m) None c f now rm)
  | SAddSession c conn clean exp now => AddSession (Some m) None c conn clean exp now rm
  | SRemoveSession c now => kept rm (RemoveSession (Some m) None c now rm)
  | SUpdateRoute f ns now => UpdateRoute (Some m) None f ns now rm
  | SLoop => Returns (loopRound (Some m) rm)
  end.
Definition core_run (steps : list CoreStep) (rm : ReplicationManager) : outcome ReplicationManager :=
  foldl (λ o s, let! rm := o in core_step s rm) (Returns rm) steps.

(** The clock fits 64 bits, strings are valid, levels are small, times can be written. *)
Definition clock (now : Time) : Prop := int64 (now / Second).
Definition step_ok (s : CoreStep) : Prop :=
  match s with
  | SAddSubscription c f q now => valid_utf8 c ∧ valid_utf8 f ∧ Z.abs q ≤ 2 ^ 53 ∧ clock now
  | SRemoveSubscription _ _ now | SRemoveSession _ now => clock now
  | SAddSession c _ _ exp now => valid_utf8 c ∧ is_Some (timeText exp) ∧ clock now
  | SUpdateRoute f ns now => valid_utf8 f ∧ Forall valid_utf8 ns ∧ clock now
  | SLoop => True
  end.

Lemma processReplicationLog_spec mria e rm :
  let rm' := processReplicationLog mria e rm in
  tablesOf rm' = tablesOf rm ∧ replicationCh rm' = replicationCh rm ∧ rm_nodeRole rm' = rm_nodeRole rm ∧
  rm_nodeID rm' = rm_nodeID rm ∧ rm_running rm' = rm_running rm.
Proof.
  simpl. unfold processReplicationLog, replicateToReplicants. case_bool_decide; [|done].
  destruct mria as [m'|]; [|done]. destruct (GetReplicantNodes m') as [|n ns]; [done|].
  destruct (marshalLog e); [|done]. by rewrite forwards_sent.
Qed.

Lemma processReplicationLog_calls mria e rm :
  Forall replication_call (rm_sent rm) → Forall replication_call (rm_sent (processReplicationLog mria e rm)).
Proof.
  intros Hc. unfold processReplicationLog, replicateToReplicants. case_bool_decide; [|done].
  destruct mria as [m'|]; [|done]. destruct (GetReplicantNodes m') as [|n ns]; [done|].
  destruct (marshalLog e); [|done]. rewrite forwards_sent.
  exact (proj2 (Forall_app _ _ _) (conj Hc (forwards_calls _ _ _))).
Qed.

Lemma processReplicationLog_payloads r e b rm :
  connected_replicant m r → rm_nodeRole rm = CoreNode → marshalLog e = Some b →
  payloads r (rm_sent (processReplicationLog (Some m) e rm)) = payloads r (rm_sent rm) ++ [b].
Proof.
  intros Hc Hr Hb. unfold processReplicationLog, replicateToReplicants. simpl.
  rewrite bool_decide_eq_true_2 by done.
  pose proof (payloads_replicants m b r Hc) as Hp.
  destruct (GetReplicantNodes m) as [|n ns] eqn:En; [done|].
  rewrite Hb, forwards_sent, <- En. simpl. by rewrite payloads_app, En, Hp.
Qed.

(** [hist] lists the entries sent on the channel so far, [new] those whose change has been made but
    that are yet to be sent.  The tables are the effect of all of them, and the replicant was sent
    the first of them up to those still in the channel. *)
Record core_inv (r : string) (rm : ReplicationManager) (hist new : list ReplicationLog) : Prop := {
  ci_role : rm_nodeRole rm = CoreNode;
  ci_running : rm_running rm = true;
  ci_node : valid_utf8 (rm_nodeID rm);
  ci_tables : tablesOf rm = foldl effect emptyTables (hist ++ new);
  ci_good : Forall good_entry (hist ++ new);
  ci_subs : map_Forall (λ k s, k = subKey (Sub_ClientID s) (Sub_TopicFilter s) ∧ good_data (DSubscription s))
              (subscriptions (rm_state rm));
  ci_sessions : map_Forall (λ k s, k = Ses_ClientID s ∧ good_data (DSession s)) (sessions (rm_state rm));
  ci_calls : Forall replication_call (rm_sent rm);
  ci_sent : ∃ sent, hist = sent ++ replicationCh rm ∧ Some <$> payloads r (rm_sent rm) = marshalLog <$> sent;
}.

Lemma loopRound_inv r rm hist new :
  connected_replicant m r → core_inv r rm hist new → core_inv r (loopRound (Some m) rm) hist new.
Proof using HL.
  intros Hc Hi. unfold loopRound. destruct (replicationCh rm) as [|e ch] eqn:Ech; [done|].
  rewrite (ci_running _ _ _ _ Hi). destruct (ci_sent _ _ _ _ Hi) as (sent & Hh & Hs).
  assert (He : good_entry e).
  { eapply Forall_forall; [apply (ci_good _ _ _ _ Hi)|]. rewrite Hh, Ech. set_solver. }
  destruct (marshal_good e He) as [b Hb].
  destruct (processReplicationLog_spec (Some m) e (set_ch ch rm)) as (Ht & Hch & Hr & Hn & Hu).
  assert (Hst : subscriptions (rm_state (processReplicationLog (Some m) e (set_ch ch rm))) = subscriptions (rm_state rm) ∧
    sessions (rm_state (processReplicationLog (Some m) e (set_ch ch rm))) = sessions (rm_state rm)).
  { unfold tablesOf in Ht. simpl in Ht. by simplify_eq. }
  destruct Hst as [Hst1 Hst2]. destruct Hi as [I1 I2 I3 I4 I5 I6 I7 IC I8]. split.
  - by rewrite Hr.
  - by rewrite Hu.
  - by rewrite Hn.
  - by rewrite Ht, <- I4.
  - done.
  - by rewrite Hst1.
  - by rewrite Hst2.
  - by apply processReplicationLog_calls.
  - exists (sent ++ [e]). rewrite Hch. simpl. split; [by rewrite Hh, Ech, <- app_assoc|].
    rewrite (processReplicationLog_payloads r e b) by done. rewrite !fmap_app, !fmap_cons, Hb. simpl.
    by rewrite Hs.
Qed.

Lemma set_ch_inv r rm hist e :
  core_inv r rm hist [e] → core_inv r (set_ch (replicationCh rm ++ [e]) rm) (hist ++ [e]) [].
Proof.
  intros [I1 I2 I3 I4 I5 I6 I7 IC (sent & Hh & Hs)]. split; try done; rewrite ?app_nil_r; try done.
  exists sent. simpl. split; [|done]. by rewrite Hh, app_assoc.
Qed.

(** Waiting for room on the channel is a round of the loop. *)
Lemma sendLog_inv r rm e hist :
  connected_replicant m r → core_inv r rm hist [e] →
  ∃ rm', sendLog (Some m) e rm = Returns rm' ∧ core_inv r rm' (hist ++ [e]) [].
Proof using HL.
  intros Hc Hi. unfold sendLog. rewrite (ci_running _ _ _ _ Hi).
  case_match; eexists; (split; [done|]); apply set_ch_inv; [done|by apply loopRound_inv].
Qed.

(** A change that has been made in the tables is logged: the entry makes the same change. *)
Lemma logChange_inv r rm st operation d now hist :
  connected_replicant m r → core_inv r rm hist [] → clock now → good_data d → valid_utf8 operation →
  int64 (version st) →
  (∀ id ts node, tablesOf (set_state st rm) =
     effect (tablesOf rm) (mkReplicationLog id ts node operation (table_of d) d (version st))) →
  map_Forall (λ k s, k = subKey (Sub_ClientID s) (Sub_TopicFilter s) ∧ good_data (DSubscription s)) (subscriptions st) →
  map_Forall (λ k s, k = Ses_ClientID s ∧ good_data (DSession s)) (sessions st) →
  ∃ rm' e, logChange (Some m) operation (table_of d) d now (set_state st rm) = Returns rm' ∧
    core_inv r rm' (hist ++ [e]) [].
Proof using HL.
  intros Hc [I1 I2 I3 I4 I5 I6 I7 IC I8] Hnow Hd Hop Hv Ht Hsub Hses.
  unfold logChange. simpl. rewrite bool_decide_eq_true_2 by done.
  match goal with |- ∃ _ _, sendLog _ ?e ?rm = _ ∧ _ => set (e0 := e); set (rm0 := rm) end.
  destruct (sendLog_inv r rm0 e0 hist Hc) as (rm' & Hs & Hi); [|by exists rm', e0].
  rewrite app_nil_r in I4, I5. split; try done; simpl.
  - change (tablesOf rm0) with (tablesOf (set_state st rm)). rewrite foldl_snoc, <- I4. apply Ht.
  - apply Forall_app. split; [done|]. apply Forall_singleton. done.
Qed.

Lemma core_step_inv r rm hist s :
  connected_replicant m r → core_inv r rm hist [] → step_ok s →
  ∃ rm' hist', core_step s rm = Returns rm' ∧ core_inv r rm' hist' [].
Proof using HL.
  intros Hc Hi Hs. pose proof Hi as [I1 I2 I3 I4 I5 I6 I7 IC I8]. pose proof (i64_range (version (rm_state rm) + 1)) as Hv.
  destruct s as [c f q now|c f now|c conn clean exp now|c now|f ns now|]; simpl.
  - destruct Hs as (Hcv & Hfv & Hq & Hnow). unfold AddSubscription.
    edestruct (logChange_inv r rm) as (rm' & e & Hl & Hi'); [done|done|exact Hnow| | | | | | |
      change "subscriptions" with (table_of (DSubscription (mkSubscriptionData c f q (rm_nodeID rm))));
      rewrite Hl; simpl; eauto]; try done.
    apply map_Forall_insert_2; [|done]. done.
  - unfold RemoveSubscription. destruct (subscriptions (rm_state rm) !! subKey c f) as [s|] eqn:Es; [|simpl; eauto].
    destruct (I6 _ _ Es) as [Hk Hg].
    edestruct (logChange_inv r rm) as (rm' & e & Hl & Hi'); [done|done|exact Hs|exact Hg| | | | | |
      change "subscriptions" with (table_of (DSubscription s));
      rewrite Hl; simpl; eauto]; try done.
    + intros id ts node. unfold effect, tablesOf, change. simpl. by rewrite <- Hk.
    + by apply map_Forall_delete.
  - destruct Hs as (Hcv & Hexp & Hnow). unfold AddSession. simpl. rewrite lookup_insert_eq.
    edestruct (logChange_inv r rm) as (rm' & e & Hl & Hi'); [done|done|exact Hnow| | | | | | |
      change "sessions" with (table_of (DSession (mkSessionData c (rm_nodeID rm) conn clean exp)));
      rewrite Hl; simpl; eauto]; try done.
    apply map_Forall_insert_2; done.
  - unfold RemoveSession. destruct (sessions (rm_state rm) !! c) as [s|] eqn:Es; [|simpl; eauto].
    destruct (I7 _ _ Es) as [Hk Hg].
    edestruct (logChange_inv r rm) as (rm' & e & Hl & Hi'); [done|done|exact Hs|exact Hg| | | | | |
      change "sessions" with (table_of (DSession s)); rewrite Hl; simpl; eauto]; try done.
    + intros id ts node. unfold effect, tablesOf, change. simpl. by rewrite <- Hk.
    + by apply map_Forall_delete.
  - destruct Hs as (Hfv & Hns & Hnow). unfold UpdateRoute.
    edestruct (logChange_inv r rm) as (rm' & e & Hl & Hi'); [done|done|exact Hnow| | | | | | |
      change "routes" with (table_of (DRoute (mkRouteData f ns))); rewrite Hl; simpl; eauto]; try done.
  - exists (loopRound (Some m) rm), hist. split; [done|]. by apply loopRound_inv.
Qed.

Lemma core_run_inv r steps rm hist :
  connected_replicant m r → core_inv r rm hist [] → Forall step_ok steps →
  ∃ rm' hist', core_run steps rm = Returns rm' ∧ core_inv r rm' hist' [].
Proof using HL.
  intros Hc Hi Hs. revert rm hist Hi. induction Hs as [|s steps Hs _ IH]; intros rm hist Hi; [by exists rm, hist|].
  destruct (core_step_inv r rm hist s Hc Hi Hs) as (rm1 & hist1 & E & Hi1).
  destruct (IH rm1 hist1 Hi1) as (rm2 & hist2 & E2 & Hi2). exists rm2, hist2. split; [|done].
  unfold core_run. simpl. rewrite E. apply E2.
Qed.

Lemma started_inv r nodeID : valid_utf8 nodeID → core_inv r (RM_Start (NewReplicationManager nodeID CoreNode)) [] [].
Proof. intros Hn. split; try done. by exists []. Qed.

(** The loop empties the channel. *)
Definition drain (rm : ReplicationManager) : ReplicationManager :=
  Nat.iter (length (replicationCh rm)) (loopRound (Some m)) rm.

Lemma loopRound_ch rm : rm_running rm = true → replicationCh (loopRound (Some m) rm) = tail (replicationCh rm).
Proof.
  intros Hr. unfold loopRound. destruct (replicationCh rm) as [|e ch] eqn:E; [by rewrite E|].
  rewrite Hr. by destruct (processReplicationLog_spec (Some m) e (set_ch ch rm)) as (_ & -> & _).
Qed.

Lemma drain_inv r rm hist :
  connected_replicant m r → core_inv r rm hist [] → core_inv r (drain rm) hist [] ∧ replicationCh (drain rm) = [].
Proof using HL.
  intros Hc Hi. unfold drain. remember (length (replicationCh rm)) as n eqn:En. revert rm Hi En.
  induction n as [|n IH]; intros rm Hi En.
  - split; [done|]. simpl. by apply nil_length_inv.
  - rewrite Nat.iter_succ_r. apply IH; [by apply loopRound_inv|].
    rewrite loopRound_ch by apply Hi. destruct (replicationCh rm); simpl in *; lia.
Qed.
End run.

(** ** The replicant *)

Definition apply_all {HJ : JSONText} (msgs : list (list byte)) (rm : ReplicationManager)
    : outcome (result ReplicationManager) :=
  foldl (λ o b, let! r := o in match r with Ok rm => ApplyReplicationLog None None None b rm | Err e => Returns (Err e) end)
    (Returns (Ok rm)) msgs.

Lemma apply_all_effects `{JSONTextLaws} sent msgs rm :
  Forall good_entry sent → Some <$> msgs = marshalLog <$> sent →
  ∃ rm', apply_all msgs rm = Returns (Ok rm') ∧ tablesOf rm' = foldl effect (tablesOf rm) sent.
Proof.
  intros Hg. revert msgs rm. induction Hg as [|e sent He _ IH]; intros [|b msgs] rm; try done.
  - intros _. by exists rm.
  - rewrite !fmap_cons. intros [= Hb Hm]. destruct (apply_effect e b rm He) as (rm1 & E1 & Ht1); [done|].
    destruct (IH msgs rm1 Hm) as (rm2 & E2 & Ht2). exists rm2. split; [|by rewrite Ht2, Ht1].
    unfold apply_all. simpl. rewrite E1. apply E2.
Qed.

(** C12. Replicas converge: a running core node carries out any sequence of changes, interleaved in
    any way with its replication loop, without blocking; once the loop has emptied the channel,
    a connected replicant that applies the messages sent to it, in order, accepts them all and has
    the same subscriptions, sessions, routes and version as the core node. *)
Theorem replica_converges {HJ : JSONText} {HL : JSONTextLaws} m r nodeID steps :
  connected_replicant m r → valid_utf8 nodeID → Forall step_ok steps →
  ∃ core rep,
    core_run m steps (RM_Start (NewReplicationManager nodeID CoreNode)) = Returns core ∧
    replicationCh (drain m core) = [] ∧ tablesOf (drain m core) = tablesOf core ∧
    apply_all (payloads r (rm_sent (drain m core))) (NewReplicationManager r ReplicantNode) = Returns (Ok rep) ∧
    tablesOf rep = tablesOf core.
Proof.
  intros Hc Hn Hs. destruct (core_run_inv m r steps _ _ Hc (started_inv r nodeID Hn) Hs) as (core & hist & E & Hi).
  destruct (drain_inv m r core hist Hc Hi) as [Hi' Hch].
  assert (Ht : tablesOf (drain m core) = tablesOf core).
  { by rewrite (ci_tables _ _ _ _ Hi), (ci_tables _ _ _ _ Hi'). }
  destruct (ci_sent _ _ _ _ Hi') as (sent & Hh & Hp). rewrite Hch, app_nil_r in Hh. subst sent.
  pose proof (ci_good _ _ _ _ Hi') as Hg. rewrite app_nil_r in Hg.
  destruct (apply_all_effects hist _ (NewReplicationManager r ReplicantNode) Hg Hp) as (rep & E' & Ht').
  exists core, rep. split_and!; try done.
  by rewrite Ht', (ci_tables _ _ _ _ Hi), app_nil_r.
Qed.

(** A core node connected to one replicant. *)
Definition sampleHub : MriaManager :=
  let m := sampleCore "core-1" in
  mkMriaManager (config m) (nodeInfo m)
    (put_replicant "rep-1" (Ptr (mkNodeInfo "rep-1" "h:2" "v" NodeStatusRunning 0 0)) (clusterState m))
    (mkManager "core-1" ":1883" {[ "rep-1" := mkClient "core-1" "h:2" ]} ∅)
    false false [].

Lemma sampleHub_connected : connected_replicant sampleHub "rep-1".
Proof.
  split_and!; [by vm_compute; eexists|by vm_compute; eexists|].
  intros k p Hk. unfold sampleHub in Hk. simpl in Hk.
  apply lookup_insert_Some in Hk as [[<- <-]|[_ Hk]]; [done|]. by rewrite lookup_empty in Hk.
Qed.

Lemma replica_converges_witness :
  let steps := [SAddSubscription "c1" "a/b" 1 (5 * Second); SAddSession "c1" true false (90 * Second) (5 * Second);
                SUpdateRoute "a/b" ["core-1"] (6 * Second); SLoop; SRemoveSubscription "c1" "a/b" (7 * Second)] in
  let J := digitsJSON in
  ∃ core rep,
    core_run sampleHub steps (RM_Start (NewReplicationManager "core-1" CoreNode)) = Returns core ∧
    replicationCh (drain sampleHub core) = [] ∧ tablesOf (drain sampleHub core) = tablesOf core ∧
    apply_all (payloads "rep-1" (rm_sent (drain sampleHub core))) (NewReplicationManager "rep-1" ReplicantNode)
      = Returns (Ok rep) ∧
    tablesOf rep = tablesOf core.
Proof.
  intros steps J. apply (replica_converges (HJ := digitsJSON) (HL := digitsJSON_laws)).
  - apply sampleHub_connected.
  - done.
  - repeat constructor; try done; try lia; by eexists.
Defined.
