(* ===== verification/MriaServer.v ===== *)
(** * MriaServer: the Mria node as a whole (pkg/mria/integration.go, server.go)

    [BrokerIntegration] ties the Mria manager, the replication manager and the cluster server of a
    node to its broker.  The server's handlers act on the same objects, so they are operations of the
    same state.  The gRPC transport and the listener are parameters: whether the address can be
    listened on is an argument, outgoing calls are collected. *)

From S2P Require Import Prelude GoLib GoValue Cluster GoJSON Mria Replication.
Local Open Scope emqx_scope.
Local Open Scope Z_scope.

(** ** State *)

Record SessionInfo := mkSessionInfo {
  SI_ClientID : string; SI_Connected : bool; SI_CleanSession : bool; SI_ConnectedAt : Time; SI_LastSeen : Time }.

(** Which of the broker's callbacks are set, and the calls made to them. *)
Record BrokerCallbacks := mkBrokerCallbacks {
  cb_onMessagePublish : bool; cb_onClientConnect : bool; cb_onClientDisconnect : bool;
  cb_onSubscribe : bool; cb_onUnsubscribe : bool }.
Inductive BrokerEvent :=
  | EvPublish (topic : string) (payload : list byte) (qos : Z) (retain : bool)
  | EvConnect (clientID : string) (cleanSession : bool)
  | EvDisconnect (clientID : string)
  | EvSubscribe (clientID topicFilter : string) (qos : Z)
  | EvUnsubscribe (clientID topicFilter : string).

Record BrokerIntegration := mkBrokerIntegration {
  bi_nodeID : string;
  bi_nodeRole : NodeRole;
  mriaManager : MriaManager;
  replicationManager : ReplicationManager;
  server_listenAddr : string;
  server_serving : bool;
  callbacks : BrokerCallbacks;
  localSessions : gmap string SessionInfo;
  localRoutes : gmap string (list string);
  isInitialized : bool;
  events : list BrokerEvent;
  calls : list PeerCall;
}.

Definition NewBrokerIntegration (nodeID : string) (nodeRole : NodeRole) (now : Time) : BrokerIntegration :=
  let config := set_role nodeRole (DefaultMriaConfig nodeID ":0") in
  mkBrokerIntegration nodeID nodeRole (NewMriaManager config now) (NewReplicationManager nodeID nodeRole)
    "" false (mkBrokerCallbacks false false false false false) ∅ ∅ false [] [].

Definition set_mria (m : MriaManager) (bi : BrokerIntegration) : BrokerIntegration :=
  mkBrokerIntegration (bi_nodeID bi) (bi_nodeRole bi) m (replicationManager bi) (server_listenAddr bi) (server_serving bi)
    (callbacks bi) (localSessions bi) (localRoutes bi) (isInitialized bi) (events bi) (calls bi).
Definition set_rm (rm : ReplicationManager) (bi : BrokerIntegration) : BrokerIntegration :=
  mkBrokerIntegration (bi_nodeID bi) (bi_nodeRole bi) (mriaManager bi) rm (server_listenAddr bi) (server_serving bi)
    (callbacks bi) (localSessions bi) (localRoutes bi) (isInitialized bi) (events bi) (calls bi).
Definition set_server (addr : string) (serving : bool) (bi : BrokerIntegration) : BrokerIntegration :=
  mkBrokerIntegration (bi_nodeID bi) (bi_nodeRole bi) (mriaManager bi) (replicationManager bi) addr serving
    (callbacks bi) (localSessions bi) (localRoutes bi) (isInitialized bi) (events bi) (calls bi).
Definition set_localSessions (l : gmap string SessionInfo) (bi : BrokerIntegration) : BrokerIntegration :=
  mkBrokerIntegration (bi_nodeID bi) (bi_nodeRole bi) (mriaManager bi) (replicationManager bi) (server_listenAddr bi) (server_serving bi)
    (callbacks bi) l (localRoutes bi) (isInitialized bi) (events bi) (calls bi).
Definition set_localRoutes (l : gmap string (list string)) (bi : BrokerIntegration) : BrokerIntegration :=
  mkBrokerIntegration (bi_nodeID bi) (bi_nodeRole bi) (mriaManager bi) (replicationManager bi) (server_listenAddr bi) (server_serving bi)
    (callbacks bi) (localSessions bi) l (isInitialized bi) (events bi) (calls bi).
Definition set_initialized (b : bool) (bi : BrokerIntegration) : BrokerIntegration :=
  mkBrokerIntegration (bi_nodeID bi) (bi_nodeRole bi) (mriaManager bi) (replicationManager bi) (server_listenAddr bi) (server_serving bi)
    (callbacks bi) (localSessions bi) (localRoutes bi) b (events bi) (calls bi).
Definition emit (set : BrokerCallbacks → bool) (e : BrokerEvent) (bi : BrokerIntegration) : BrokerIntegration :=
  if set (callbacks bi) then
    mkBrokerIntegration (bi_nodeID bi) (bi_nodeRole bi) (mriaManager bi) (replicationManager bi) (server_listenAddr bi) (server_serving bi)
      (callbacks bi) (localSessions bi) (localRoutes bi) (isInitialized bi) (events bi ++ [e]) (calls bi)
  else bi.
Definition add_calls (l : list PeerCall) (bi : BrokerIntegration) : BrokerIntegration :=
  mkBrokerIntegration (bi_nodeID bi) (bi_nodeRole bi) (mriaManager bi) (replicationManager bi) (server_listenAddr bi) (server_serving bi)
    (callbacks bi) (localSessions bi) (localRoutes bi) (isInitialized bi) (events bi) (calls bi ++ l).

Definition SetBrokerCallbacks (cb : BrokerCallbacks) (bi : BrokerIntegration) : BrokerIntegration :=
  mkBrokerIntegration (bi_nodeID bi) (bi_nodeRole bi) (mriaManager bi) (replicationManager bi) (server_listenAddr bi) (server_serving bi)
    cb (localSessions bi) (localRoutes bi) (isInitialized bi) (events bi) (calls bi).

(** ** Life cycle *)

(** [listenOk]: whether the cluster server can listen on the address.  The answer has the error, if
    any, and the peers that goroutines connect to.  The manager's [nodeInfo] keeps the address it was
    made with. *)
Definition Initialize (listenAddr : string) (listenOk : bool) (discovery : option Discovery) (now : Time)
    (bi : BrokerIntegration) : option string * list (string * string) * BrokerIntegration :=
  if isInitialized bi then (Some "broker integration already initialized", [], bi)
  else
    let bi := set_mria (set_config (set_listen listenAddr (config (mriaManager bi))) (mriaManager bi)) bi in
    let bi := set_server listenAddr (server_serving bi) bi in
    if negb listenOk then (Some ("failed to start cluster server: failed to listen on " +:+ listenAddr)%string, [], bi)
    else
      let bi := set_server listenAddr true bi in
      let bi := set_rm (RM_Start (replicationManager bi)) bi in
      let '(m, peers) := Start (mriaManager bi) discovery now in
      (None, peers, set_initialized true (set_mria m bi)).

Definition Shutdown (bi : BrokerIntegration) : outcome BrokerIntegration :=
  if negb (isInitialized bi) then Returns bi
  else
    let bi := set_initialized false bi in
    let! m := Stop (mriaManager bi) in
    let bi := set_mria m bi in
    let! rm := RM_Stop (replicationManager bi) in
    let bi := set_rm rm bi in
    Returns (set_server (server_listenAddr bi) false bi).

Definition IsInitialized (bi : BrokerIntegration) : bool := isInitialized bi.

(** ** Routes *)

Section node.
Context `{JSONText}.

Definition handleRouteChange (route : RouteData) (operation : string) (rm : ReplicationManager)
    : outcome ReplicationManager := Returns rm.
Definition handleSessionChange (session : SessionData) (operation : string) (rm : ReplicationManager)
    : outcome ReplicationManager := Returns rm.

Definition route_update (mria : MriaManager) (topicFilter : string) (nodeIDs : list string) (now : Time)
    (rm : ReplicationManager) : outcome ReplicationManager :=
  UpdateRoute (Some mria) (Some handleRouteChange) topicFilter nodeIDs now rm.

(** The nodes of a route with [nodeID] kept or left out; [found]: whether it was there. *)
Definition withRemote (nodeIDs : list string) (nodeID : string) (add : bool) : list string :=
  let kept := if add then nodeIDs else filter (λ n, n ≠ nodeID) nodeIDs in
  if add && negb (existsb (λ n, n =s nodeID) nodeIDs) then kept ++ [nodeID] else kept.

Definition updateRemoteRoute (mria : MriaManager) (topicFilter nodeID : string) (add : bool) (now : Time)
    (rm : ReplicationManager) : outcome ReplicationManager :=
  match GetRoute topicFilter rm with
  | None => if add then route_update mria topicFilter [nodeID] now rm else Returns rm
  | Some route => route_update mria topicFilter (withRemote (Rt_NodeIDs route) nodeID add) now rm
  end.

Definition handleSubscriptionChange (mria : MriaManager) (self : string) (now : Time)
    (sub : SubscriptionData) (operation : string) (rm : ReplicationManager) : outcome ReplicationManager :=
  if Sub_NodeID sub <>s self then
    updateRemoteRoute mria (Sub_TopicFilter sub) (Sub_NodeID sub) (operation <>s "DELETE") now rm
  else Returns rm.

(** The callbacks [setupCallbacks] gives to the replication manager. *)
Definition subscriptionCallback (bi : BrokerIntegration) (now : Time) :=
  Some (handleSubscriptionChange (mriaManager bi) (bi_nodeID bi) now).
Definition sessionCallback := Some handleSessionChange.
Definition routeCallback := Some handleRouteChange.

Definition with_rm (o : outcome ReplicationManager) (bi : BrokerIntegration) : outcome BrokerIntegration :=
  let! rm := o in Returns (set_rm rm bi).
(** A failed removal is logged and leaves the tables as they are. *)
Definition logged (rm : ReplicationManager) (o : outcome (result ReplicationManager)) : outcome ReplicationManager :=
  let! r := o in Returns (match r with Ok rm' => rm' | Err _ => rm end).

Definition updateClusterRoute (topicFilter : string) (now : Time) (bi : BrokerIntegration) : outcome BrokerIntegration :=
  let hasLocalSubscribers := bool_decide (default [] (localRoutes bi !! topicFilter) ≠ []) in
  let nodeIDs := if hasLocalSubscribers then [bi_nodeID bi] else [] in
  let nodeIDs := match GetRoute topicFilter (replicationManager bi) with
                 | Some route => nodeIDs ++ filter (λ n, n ≠ bi_nodeID bi) (Rt_NodeIDs route)
                 | None => nodeIDs
                 end in
  with_rm (route_update (mriaManager bi) topicFilter nodeIDs now (replicationManager bi)) bi.

(** ** Client events *)

Definition HandleClientConnect (clientID : string) (cleanSession : bool) (now : Time) (bi : BrokerIntegration)
    : outcome BrokerIntegration :=
  let bi := set_localSessions (<[clientID := mkSessionInfo clientID true cleanSession now now]> (localSessions bi)) bi in
  let expiryTime := if cleanSession then now else now + 24 * Hour in
  let! bi := with_rm (AddSession (Some (mriaManager bi)) sessionCallback clientID true cleanSession expiryTime now
                        (replicationManager bi)) bi in
  Returns (emit cb_onClientConnect (EvConnect clientID cleanSession) bi).

(** The local session is looked up again after a clean one has been removed. *)
Definition HandleClientDisconnect (clientID : string) (now : Time) (bi : BrokerIntegration)
    : outcome BrokerIntegration :=
  let bi := match localSessions bi !! clientID with
            | Some s =>
                let s := mkSessionInfo (SI_ClientID s) false (SI_CleanSession s) (SI_ConnectedAt s) now in
                let l := <[clientID := s]> (localSessions bi) in
                set_localSessions (if SI_CleanSession s then delete clientID l else l) bi
            | None => bi
            end in
  let! bi :=
    match localSessions bi !! clientID with
    | Some s =>
        if SI_CleanSession s
        then with_rm (logged (replicationManager bi)
               (RemoveSession (Some (mriaManager bi)) sessionCallback clientID now (replicationManager bi))) bi
        else with_rm (AddSession (Some (mriaManager bi)) sessionCallback clientID false false (now + 24 * Hour) now
                        (replicationManager bi)) bi
    | None => with_rm (AddSession (Some (mriaManager bi)) sessionCallback clientID false false (now + 24 * Hour) now
                         (replicationManager bi)) bi
    end in
  Returns (emit cb_onClientDisconnect (EvDisconnect clientID) bi).

Definition HandleSubscribe (clientID topicFilter : string) (qos : Z) (now : Time) (bi : BrokerIntegration)
    : outcome BrokerIntegration :=
  let routes :=
    match localRoutes bi !! topicFilter with
    | Some clients =>
        if existsb (λ c, c =s clientID) clients then localRoutes bi
        else <[topicFilter := clients ++ [clientID]]> (localRoutes bi)
    | None => <[topicFilter := [clientID]]> (localRoutes bi)
    end in
  let bi := set_localRoutes routes bi in
  let! bi := with_rm (AddSubscription (Some (mriaManager bi)) (subscriptionCallback bi now) clientID topicFilter qos now
                        (replicationManager bi)) bi in
  let! bi := updateClusterRoute topicFilter now bi in
  Returns (emit cb_onSubscribe (EvSubscribe clientID topicFilter qos) bi).

Definition HandleUnsubscribe (clientID topicFilter : string) (now : Time) (bi : BrokerIntegration)
    : outcome BrokerIntegration :=
  let routes :=
    match localRoutes bi !! topicFilter with
    | Some clients =>
        let newClients := filter (λ c, c ≠ clientID) clients in
        if bool_decide (newClients = []) then delete topicFilter (localRoutes bi)
        else <[topicFilter := newClients]> (localRoutes bi)
    | None => localRoutes bi
    end in
  let bi := set_localRoutes routes bi in
  let! bi := with_rm (logged (replicationManager bi)
      (RemoveSubscription (Some (mriaManager bi)) (subscriptionCallback bi now) clientID topicFilter now
         (replicationManager bi))) bi in
  let! bi := updateClusterRoute topicFilter now bi in
  Returns (emit cb_onUnsubscribe (EvUnsubscribe clientID topicFilter) bi).

Definition hasLocalSubscribers (topic : string) (bi : BrokerIntegration) : bool :=
  match localRoutes bi !! topic with Some _ => true | None => false end.

Definition handleClusterRouting (topic : string) (payload : list byte) (bi : BrokerIntegration) : BrokerIntegration :=
  match GetRoute topic (replicationManager bi) with
  | None => bi
  | Some route =>
      foldl (λ bi nodeID,
        if nodeID <>s bi_nodeID bi
        then add_calls (ForwardPublish (clusterManager (mriaManager bi)) topic payload nodeID) bi else bi)
        bi (Rt_NodeIDs route)
  end.

(** User properties, response topic and correlation data go to the callback unchanged and are left
    out of the event. *)
Definition HandleMessagePublish (topic : string) (payload : list byte) (qos : Z) (retain : bool) (bi : BrokerIntegration)
    : BrokerIntegration :=
  let bi :=
    if bi_nodeRole bi =s ReplicantNode then
      if negb (hasLocalSubscribers topic bi) then
        match ForwardMessageToCore (mriaManager bi) topic payload with
        | Ok l => add_calls l bi
        | Err _ => bi
        end
      else bi
    else bi in
  let bi := emit cb_onMessagePublish (EvPublish topic payload qos retain) bi in
  if bi_nodeRole bi =s CoreNode then handleClusterRouting topic payload bi else bi.

(** ** Nodes that leave *)

Definition range_outcome {V S} (body : string → V → S → outcome S) (m : gmap string V) (s : S) : outcome S :=
  foldl (λ o '(k, v), let! s := o in body k v s) (Returns s) (map_to_list m).

(** The bodies of the three loops. *)
Definition cleanRoute (mria : MriaManager) (nodeID : string) (now : Time) (topicFilter : string) (route : RouteData)
    (rm : ReplicationManager) : outcome ReplicationManager :=
  let newNodeIDs := filter (λ n, n ≠ nodeID) (Rt_NodeIDs route) in
  if bool_decide (length newNodeIDs ≠ length (Rt_NodeIDs route))
  then route_update mria topicFilter newNodeIDs now rm else Returns rm.

Definition cleanSession (mria : MriaManager) (nodeID : string) (now : Time) (clientID : string) (session : SessionData)
    (rm : ReplicationManager) : outcome ReplicationManager :=
  if Ses_NodeID session =s nodeID
  then logged rm (RemoveSession (Some mria) sessionCallback clientID now rm) else Returns rm.

Definition cleanSubscription (mria : MriaManager) (self nodeID : string) (now : Time) (_ : string)
    (subscription : SubscriptionData) (rm : ReplicationManager) : outcome ReplicationManager :=
  if Sub_NodeID subscription =s nodeID
  then logged rm (RemoveSubscription (Some mria) (Some (handleSubscriptionChange mria self now))
                    (Sub_ClientID subscription) (Sub_TopicFilter subscription) now rm)
  else Returns rm.

Definition cleanupNodeData (nodeID : string) (now : Time) (bi : BrokerIntegration) : outcome BrokerIntegration :=
  let mria := mriaManager bi in
  let rm := replicationManager bi in
  let! rm := range_outcome (cleanRoute mria nodeID now) (GetAllRoutes rm) rm in
  let! rm := range_outcome (cleanSession mria nodeID now) (GetAllSessions rm) rm in
  let! rm := range_outcome (cleanSubscription mria (bi_nodeID bi) nodeID now) (GetAllSubscriptions rm) rm in
  Returns (set_rm rm bi).

Definition handleNodeLeave (nodeID : string) (now : Time) (bi : BrokerIntegration) : outcome BrokerIntegration :=
  cleanupNodeData nodeID now bi.

(** The state a joining node would be sent is not written yet: the goroutine only logs. *)
Definition handleNodeJoin (node : NodeInfo) (bi : BrokerIntegration) : BrokerIntegration := bi.

(** ** The cluster server *)

Record MriaJoinResponse := mkMriaJoinResponse {
  MJ_Success : bool; MJ_Message : string; MJ_ClusterNodes : list NodeInfo; MJ_ClusterId : string }.
Record NodesResponse := mkNodesResponse { NR_Success : bool; NR_Message : string; NR_Nodes : list NodeInfo }.
Record ForwardAck := mkForwardAck {
  FA_MessageId : string; FA_Success : bool; FA_Message : string; FA_ToNode : string }.
Record CountResponse := mkCountResponse { CR_Success : bool; CR_Message : string; CR_Count : Z }.

(** All nodes of a cluster state, core nodes first. *)
Definition nodesOf (m : MriaManager) (cs : ClusterState) : list NodeInfo :=
  ((λ '(_, p), deref m p) <$> map_to_list (CoreNodes cs)) ++ ((λ '(_, p), deref m p) <$> map_to_list (ReplicantNodes cs)).

Definition roleByName (nodeID : string) : NodeRole :=
  if (nodeID =s "core") || ((4 <? String.length nodeID)%nat && String.prefix "core" nodeID) then CoreNode
  else ReplicantNode.

(** A request without a node is a nil dereference. *)
Definition Server_Join (req : option NodeInfo) (bi : BrokerIntegration) : outcome (MriaJoinResponse * BrokerIntegration) :=
  match req with
  | None => Panics
  | Some node =>
      if NI_NodeId node =s bi_nodeID bi then Returns (mkMriaJoinResponse false "Cannot join self" [] "", bi)
      else
        match (if bi_nodeRole bi =s ReplicantNode then GetCoreNodes (mriaManager bi) else []) with
        | core :: _ =>
            Returns (mkMriaJoinResponse false
                       ("Replicant node - please join via core node at " +:+ NI_Address core)%string [] "", bi)
        | [] =>
            let m := mriaManager bi in
            let cs := GetClusterState m in
            let allNodes := nodesOf m cs in
            let bi :=
              if NI_NodeId node <>s "" then
                let cs' := if roleByName (NI_NodeId node) =s CoreNode
                           then put_core (NI_NodeId node) (Ptr node) (clusterState m)
                           else put_replicant (NI_NodeId node) (Ptr node) (clusterState m) in
                handleNodeJoin node (set_mria (set_clusterState cs' m) bi)
              else bi in
            Returns (mkMriaJoinResponse true ("Successfully joined cluster as " +:+ bi_nodeRole bi +:+ " node")%string
                       allNodes (ClusterID cs), bi)
        end
  end.

(** [GetClusterState] answers a copy, and the entries are removed from the copy. *)
Definition Server_Leave (nodeID : string) (now : Time) (bi : BrokerIntegration) : outcome (NodesResponse * BrokerIntegration) :=
  let cs := GetClusterState (mriaManager bi) in
  let cs := mkClusterState (ClusterID cs) (Leader cs) (delete nodeID (CoreNodes cs)) (delete nodeID (ReplicantNodes cs)) (LastUpdated cs) in
  let! bi := handleNodeLeave nodeID now bi in
  Returns (mkNodesResponse true "Node removed from cluster" (nodesOf (mriaManager bi) cs), bi).

(** The status is written to a copy as well. *)
Definition Server_SyncNodeStatus (req : option NodeInfo) (bi : BrokerIntegration) : outcome (NodesResponse * BrokerIntegration) :=
  match req with
  | None => Panics
  | Some node =>
      let cs := GetClusterState (mriaManager bi) in
      let cs := match CoreNodes cs !! NI_NodeId node with
                | Some _ => put_core (NI_NodeId node) (Ptr node) cs
                | None => put_replicant (NI_NodeId node) (Ptr node) cs
                end in
      Returns (mkNodesResponse true "Status synchronized" (nodesOf (mriaManager bi) cs), bi)
  end.

(** Subscriptions of a request: client, filter, level.  [AddSubscription] never fails. *)
Definition Server_SyncSubscriptions (subs : list (string * string * Z)) (now : Time) (bi : BrokerIntegration)
    : outcome (CountResponse * BrokerIntegration) :=
  let! bi := foldl (λ o '(c, f, q), let! bi := o in
      with_rm (AddSubscription (Some (mriaManager bi)) (subscriptionCallback bi now) c f q now (replicationManager bi)) bi)
    (Returns bi) subs in
  let n := Z.of_nat (length subs) in
  Returns (mkCountResponse true ("Processed " +:+ pretty n +:+ " subscriptions")%string n, bi).

(** [PF_MessageId] is carried beside the request. *)
Definition handleReplicationMessage (msgId : string) (req : PublishForward) (now : Time) (bi : BrokerIntegration)
    : outcome (ForwardAck * BrokerIntegration) :=
  if bi_nodeRole bi <>s ReplicantNode then
    Returns (mkForwardAck msgId false "Replication messages are only for replicant nodes" (bi_nodeID bi), bi)
  else
    let! r := ApplyReplicationLog (subscriptionCallback bi now) sessionCallback routeCallback (PF_Payload req)
                (replicationManager bi) in
    Returns (match r with
             | Err e => (mkForwardAck msgId false ("Failed to apply replication: " +:+ e)%string (bi_nodeID bi), bi)
             | Ok rm => (mkForwardAck msgId true "Replication applied successfully" (bi_nodeID bi), set_rm rm bi)
             end).

(** The slice has 16 bytes, the text it is compared with 17. *)
Definition handleMriaMessage (msgId : string) (req : PublishForward) (now : Time) (bi : BrokerIntegration)
    : outcome (ForwardAck * BrokerIntegration) :=
  if (16 <? String.length (PF_Topic req))%nat && (String.substring 0 16 (PF_Topic req) =s "$mria/replication")
  then handleReplicationMessage msgId req now bi
  else Returns (mkForwardAck msgId false "Unknown Mria message type" (bi_nodeID bi), bi).

Definition Server_ForwardPublish (msgId : string) (req : PublishForward) (now : Time) (bi : BrokerIntegration)
    : outcome (ForwardAck * BrokerIntegration) :=
  if (6 <? String.length (PF_Topic req))%nat && (String.substring 0 6 (PF_Topic req) =s "$mria/")
  then handleMriaMessage msgId req now bi
  else Returns (mkForwardAck msgId true "Message forwarded successfully" (bi_nodeID bi), bi).

(** An unknown operation counts as an update. *)
Definition Server_BatchUpdateRoutes (req : BatchUpdateRoutesRequest) (now : Time) (bi : BrokerIntegration)
    : outcome (CountResponse * BrokerIntegration) :=
  let! bi := foldl (λ o route, let! bi := o in
      if (BU_OpType req =s "add") || (BU_OpType req =s "update")
      then with_rm (route_update (mriaManager bi) (Route_Topic route) (Route_NodeIds route) now (replicationManager bi)) bi
      else if BU_OpType req =s "delete"
      then with_rm (route_update (mriaManager bi) (Route_Topic route) [] now (replicationManager bi)) bi
      else Returns bi)
    (Returns bi) (BU_Routes req) in
  let n := Z.of_nat (length (BU_Routes req)) in
  Returns (mkCountResponse true ("Updated " +:+ pretty n +:+ " routes")%string n, bi).

Definition Server_SyncConfig (bi : BrokerIntegration) : result (gmap string string) :=
  if bi_nodeRole bi <>s CoreNode then Err "Configuration sync only available on core nodes"
  else Ok (<["node.id" := bi_nodeID bi]> (<["cluster.name" := ClusterID (GetClusterState (mriaManager bi))]>
             (<["node.role" := bi_nodeRole bi]> ∅))).

Definition Server_GetClusterStats (bi : BrokerIntegration) : gmap string Z :=
  let cs := GetClusterState (mriaManager bi) in
  let rm := replicationManager bi in
  <["is_leader" := if IsLeader (mriaManager bi) then 1 else 0]>
  (<["routes" := Z.of_nat (size (GetAllRoutes rm))]>
  (<["sessions" := Z.of_nat (size (GetAllSessions rm))]>
  (<["subscriptions" := Z.of_nat (size (GetAllSubscriptions rm))]>
  (<["replicant_nodes" := Z.of_nat (size (ReplicantNodes cs))]>
  (<["core_nodes" := Z.of_nat (size (CoreNodes cs))]> ∅))))).

(** The version of an entry made here is the clock. *)
Definition HandleMriaReplication (operation table : string) (data : LogData) (now : Time) (bi : BrokerIntegration)
    : outcome (result BrokerIntegration) :=
  let e := mkReplicationLog (bi_nodeID bi +:+ "-" +:+ pretty now)%string (now / Second) (bi_nodeID bi) operation table
             data (now / Second) in
  match marshalLog e with
  | None => Returns (Err "failed to marshal log entry")
  | Some b =>
      let! r := ApplyReplicationLog (subscriptionCallback bi now) sessionCallback routeCallback b (replicationManager bi) in
      Returns (match r with Ok rm => Ok (set_rm rm bi) | Err e => Err e end)
  end.
End node.
