(* ===== verification/MriaProps.v ===== *)
(** * MriaProps: what a Mria node does with joins, leaves, clients and replication

    Theorems on [BrokerIntegration] and its cluster server (pkg/mria/integration.go, server.go). *)

From S2P Require Import Prelude GoLib GoValue Cluster GoJSON Mria Replication ReplicationProps MriaServer.
Local Open Scope emqx_scope.
Local Open Scope Z_scope.

(** ** Operations of the replication manager that return *)

(** The node writes no log, or its loop runs. *)
Definition ready (rm : ReplicationManager) : Prop := rm_nodeRole rm ≠ CoreNode ∨ rm_running rm = true.

(** Nothing but the bookkeeping of the log changes. *)
Definition same_tables (rm rm' : ReplicationManager) : Prop :=
  tablesOf rm' = tablesOf rm ∧ rm_nodeID rm' = rm_nodeID rm ∧ rm_nodeRole rm' = rm_nodeRole rm ∧
  rm_running rm' = rm_running rm.

Lemma same_tables_ready rm rm' : same_tables rm rm' → ready rm → ready rm'.
Proof. unfold ready. intros (_ & _ & -> & ->). done. Qed.

Section ops.
Context {HJ : JSONText}.
Implicit Types rm : ReplicationManager.

Lemma loopRound_same mria rm : same_tables rm (loopRound mria rm).
Proof.
  unfold loopRound. destruct (replicationCh rm) as [|e ch]; [done|]. destruct (rm_running rm) eqn:E; [|done].
  destruct (processReplicationLog_spec mria e (set_ch ch rm)) as (Ht & _ & Hr & Hn & Hu). done.
Qed.

Lemma logChange_same mria operation table d now rm :
  ready rm → ∃ rm', logChange mria operation table d now rm = Returns rm' ∧ same_tables rm rm'.
Proof.
  intros Hr. unfold logChange. case_bool_decide as E; [|by exists rm].
  destruct Hr as [?|Hr]; [done|]. unfold generateLogID, sendLog. simpl. rewrite Hr.
  case_match; [by eexists|]. eexists. split; [done|].
  match goal with |- context [loopRound mria ?x] => destruct (loopRound_same mria x) as (Ht & Hn & Ho & Hu) end.
  done.
Qed.

(** The fields of the state a change touches. *)
Lemma same_state rm rm' :
  same_tables rm rm' →
  subscriptions (rm_state rm') = subscriptions (rm_state rm) ∧ sessions (rm_state rm') = sessions (rm_state rm) ∧
  routes (rm_state rm') = routes (rm_state rm).
Proof. intros (Ht & _). unfold tablesOf in Ht. by simplify_eq. Qed.

Lemma route_update_spec mria f ns now rm :
  ready rm →
  ∃ rm', route_update mria f ns now rm = Returns rm' ∧ ready rm' ∧ rm_nodeID rm' = rm_nodeID rm ∧
    subscriptions (rm_state rm') = subscriptions (rm_state rm) ∧ sessions (rm_state rm') = sessions (rm_state rm) ∧
    routes (rm_state rm') = <[f := mkRouteData f ns]> (routes (rm_state rm)).
Proof.
  intros Hr. unfold route_update, UpdateRoute.
  match goal with |- context [logChange ?a ?b ?c ?d ?e ?s] =>
    destruct (logChange_same a b c d e s Hr) as (rm' & -> & Hs) end.
  exists rm'. simpl. split_and!; try done; try apply (same_state _ _ Hs);
    [by eapply same_tables_ready|apply Hs].
Qed.

Lemma AddSession_spec mria c conn clean exp now rm :
  ready rm →
  ∃ rm', AddSession mria sessionCallback c conn clean exp now rm = Returns rm' ∧ ready rm' ∧
    rm_nodeID rm' = rm_nodeID rm ∧
    subscriptions (rm_state rm') = subscriptions (rm_state rm) ∧ routes (rm_state rm') = routes (rm_state rm) ∧
    sessions (rm_state rm') = <[c := mkSessionData c (rm_nodeID rm) conn clean exp]> (sessions (rm_state rm)).
Proof.
  intros Hr. unfold AddSession.
  match goal with |- context [logChange ?a ?b ?c ?d ?e ?s] =>
    destruct (logChange_same a b c d e s Hr) as (rm' & -> & Hs) end.
  exists rm'. simpl. split_and!; try done; try apply (same_state _ _ Hs);
    [by eapply same_tables_ready|apply Hs].
Qed.

Lemma RemoveSession_spec mria c now rm :
  ready rm →
  ∃ rm', logged rm (RemoveSession mria sessionCallback c now rm) = Returns rm' ∧ ready rm' ∧
    rm_nodeID rm' = rm_nodeID rm ∧
    subscriptions (rm_state rm') = subscriptions (rm_state rm) ∧ routes (rm_state rm') = routes (rm_state rm) ∧
    sessions (rm_state rm') = delete c (sessions (rm_state rm)).
Proof.
  intros Hr. unfold RemoveSession, logged. destruct (sessions (rm_state rm) !! c) eqn:E; simpl.
  - match goal with |- context [logChange ?a ?b ?c ?d ?e ?s] =>
      destruct (logChange_same a b c d e s Hr) as (rm' & -> & Hs) end.
    exists rm'. simpl. split_and!; try done; try apply (same_state _ _ Hs);
      [by eapply same_tables_ready|apply Hs].
  - exists rm. by rewrite delete_id.
Qed.

(** What a change of subscriptions does to the routes when it comes from another node. *)
Definition ids (rm : ReplicationManager) (f : string) : option (list string) :=
  Rt_NodeIDs <$> routes (rm_state rm) !! f.

Lemma updateRemoteRoute_spec mria f n add now rm :
  ready rm →
  ∃ rm', updateRemoteRoute mria f n add now rm = Returns rm' ∧ ready rm' ∧ rm_nodeID rm' = rm_nodeID rm ∧
    subscriptions (rm_state rm') = subscriptions (rm_state rm) ∧ sessions (rm_state rm') = sessions (rm_state rm) ∧
    (∀ f', ids rm' f' = if decide (f' = f) then
       match ids rm f with
       | Some l => Some (withRemote l n add)
       | None => if add then Some [n] else None
       end else ids rm f').
Proof.
  intros Hr. unfold updateRemoteRoute, GetRoute, ids. destruct (routes (rm_state rm) !! f) as [rt|] eqn:E.
  - destruct (route_update_spec mria f (withRemote (Rt_NodeIDs rt) n add) now rm Hr)
      as (rm' & -> & Hr' & Hn & Hs1 & Hs2 & Hrt).
    exists rm'. split_and!; try done. intros f'. rewrite Hrt. case_decide as Ef.
    + subst. by rewrite lookup_insert_eq.
    + by rewrite lookup_insert_ne.
  - destruct add; last first.
    { exists rm. split_and!; try done. intros f'. case_decide; [|done]. subst. by rewrite E. }
    destruct (route_update_spec mria f [n] now rm Hr) as (rm' & -> & Hr' & Hn & Hs1 & Hs2 & Hrt).
    exists rm'. split_and!; try done. intros f'. rewrite Hrt. case_decide as Ef.
    + subst. by rewrite lookup_insert_eq.
    + by rewrite lookup_insert_ne.
Qed.

Lemma filter_absent (l : list string) n : n ∉ l → filter (λ x, x ≠ n) l = l.
Proof.
  induction l as [|x l IH]; intros Hn; [done|]. rewrite not_elem_of_cons in Hn. destruct Hn as [Hx Hl].
  rewrite filter_cons_True by done. by rewrite IH.
Qed.

(** Removing a subscription of a node that no route lists leaves the routes' nodes alone. *)
Lemma RemoveSubscription_spec mria self n c f now rm :
  ready rm → (∀ f l, ids rm f = Some l → n ∉ l) →
  (∀ s, subscriptions (rm_state rm) !! subKey c f = Some s → Sub_NodeID s = n) →
  ∃ rm', logged rm (RemoveSubscription (Some mria) (Some (handleSubscriptionChange mria self now)) c f now rm) = Returns rm' ∧
    ready rm' ∧ rm_nodeID rm' = rm_nodeID rm ∧ sessions (rm_state rm') = sessions (rm_state rm) ∧
    subscriptions (rm_state rm') = delete (subKey c f) (subscriptions (rm_state rm)) ∧
    ∀ f', ids rm' f' = ids rm f'.
Proof.
  intros Hr Hn Hs. unfold RemoveSubscription, logged. destruct (subscriptions (rm_state rm) !! subKey c f) as [s|] eqn:E; simpl.
  - match goal with |- context [logChange ?a ?b ?c ?d ?e ?s] =>
      destruct (logChange_same a b c d e s Hr) as (rm1 & -> & Hsame) end. simpl.
    destruct (same_state _ _ Hsame) as (S1 & S2 & S3). simpl in S1, S2, S3.
    unfold handleSubscriptionChange. rewrite (Hs s eq_refl).
    destruct (n <>s self); simpl; last first.
    { exists rm1. split_and!; try done; [by eapply same_tables_ready|apply Hsame|].
      intros f'. unfold ids. by rewrite S3. }
    destruct (updateRemoteRoute_spec mria (Sub_TopicFilter s) n false now rm1) as (rm2 & -> & R2 & N2 & Q1 & Q2 & Q3).
    { by eapply same_tables_ready. }
    exists rm2. simpl. split_and!; try done.
    + rewrite N2. apply Hsame.
    + by rewrite Q2.
    + by rewrite Q1.
    + assert (Hids : ∀ f', ids rm1 f' = ids rm f') by (intros f'; unfold ids; by rewrite S3).
      intros f'. rewrite Q3. case_decide as Ef; [subst f'|by rewrite Hids].
      rewrite Hids. destruct (ids rm (Sub_TopicFilter s)) as [l|] eqn:El; [|done].
      unfold withRemote. simpl. by rewrite filter_absent by (by eapply Hn).
  - exists rm. by rewrite delete_id.
Qed.
End ops.

(** ** Loops over copies of the tables *)

Lemma copyMap_id {V} (m : gmap string V) : copyMap m = m.
Proof.
  unfold copyMap, go_range. apply map_eq. intros k.
  assert (H : ∀ l (acc : gmap string V), NoDup l.*1 →
    foldl (λ acc kv, <[kv.1:=kv.2]> acc) acc l !! k = match (list_to_map l : gmap string V) !! k with Some v => Some v | None => acc !! k end).
  { induction l as [|[k' v] l IH]; intros acc Hnd; simpl; [by rewrite lookup_empty|].
    apply NoDup_cons in Hnd as [Hni Hnd]. rewrite IH by done. destruct (decide (k = k')) as [->|Hne].
    - rewrite lookup_insert_eq. rewrite not_elem_of_list_to_map_1 by done. by rewrite lookup_insert_eq.
    - by rewrite !lookup_insert_ne by done. }
  rewrite H by apply NoDup_fst_map_to_list. rewrite list_to_map_to_list.
  by destruct (m !! k); rewrite ?lookup_empty.
Qed.

Lemma range_outcome_ind {V S} (body : string → V → S → outcome S) (m : gmap string V)
    (P : list string → S → Prop) s :
  P [] s →
  (∀ done k v s, P done s → m !! k = Some v → k ∉ done →
     ∃ s', body k v s = Returns s' ∧ P (done ++ [k]) s') →
  ∃ s', range_outcome body m s = Returns s' ∧ P ((map_to_list m).*1) s'.
Proof.
  intros H0 Hstep. unfold range_outcome.
  assert (H : ∀ l done s, P done s → NoDup (done ++ l.*1) → (∀ k v, (k, v) ∈ l → m !! k = Some v) →
    ∃ s', foldl (λ o '(k, v), let! s := o in body k v s) (Returns s) l = Returns s' ∧ P (done ++ l.*1) s').
  { induction l as [|[k v] l IH]; intros done s' HP Hnd Hl; simpl.
    - exists s'. by rewrite app_nil_r.
    - simpl in Hnd. destruct (Hstep done k v s' HP) as (s1 & -> & HP1).
      + apply Hl. set_solver.
      + apply NoDup_app in Hnd as (_ & Hd & _). intros Hk. apply (Hd k Hk). set_solver.
      + destruct (IH (done ++ [k]) s1 HP1) as (s2 & -> & HP2).
        * by rewrite <- app_assoc.
        * intros k' v' ?. apply Hl. set_solver.
        * exists s2. split; [done|]. by rewrite <- app_assoc in HP2. }
  destruct (H (map_to_list m) [] s H0) as (s' & Hs & HP); [apply NoDup_fst_map_to_list| |eauto].
  intros k v. apply elem_of_map_to_list.
Qed.

Lemma elem_of_keys {V} (m : gmap string V) k : k ∈ (map_to_list m).*1 ↔ is_Some (m !! k).
Proof.
  rewrite list_elem_of_fmap. split.
  - intros ([k' v] & -> & Hin). apply elem_of_map_to_list in Hin. by eexists.
  - intros [v Hv]. exists (k, v). split; [done|]. by apply elem_of_map_to_list.
Qed.

(** ** A node that leaves *)

Section leave.
Context {HJ : JSONText}.

Lemma filter_length_id (l : list string) n :
  length (filter (λ x, x ≠ n) l) = length l → filter (λ x, x ≠ n) l = l.
Proof.
  induction l as [|x l IH]; [done|]. destruct (decide (x ≠ n)) as [Hx|Hx].
  - rewrite filter_cons_True by done. simpl. intros [= Hl]. by rewrite IH.
  - rewrite filter_cons_False by done. intros Hl. simpl in Hl.
    pose proof (length_filter (λ x, x ≠ n) l). lia.
Qed.

Lemma clean_routes mria n now rm :
  ready rm →
  ∃ rm', range_outcome (cleanRoute mria n now) (GetAllRoutes rm) rm = Returns rm' ∧ ready rm' ∧
    rm_nodeID rm' = rm_nodeID rm ∧ subscriptions (rm_state rm') = subscriptions (rm_state rm) ∧
    sessions (rm_state rm') = sessions (rm_state rm) ∧
    ∀ f, ids rm' f = filter (λ x, x ≠ n) <$> ids rm f.
Proof.
  intros Hr. unfold GetAllRoutes. rewrite copyMap_id.
  destruct (range_outcome_ind (cleanRoute mria n now) (routes (rm_state rm))
    (λ done rm', ready rm' ∧ rm_nodeID rm' = rm_nodeID rm ∧ subscriptions (rm_state rm') = subscriptions (rm_state rm) ∧
       sessions (rm_state rm') = sessions (rm_state rm) ∧
       ∀ f, ids rm' f = if decide (f ∈ done) then filter (λ x, x ≠ n) <$> ids rm f else ids rm f) rm)
    as (rm' & E & R & N & S1 & S2 & S3).
  - split_and!; try done. 
  - intros done f rt rm1 (R & N & S1 & S2 & S3) Hf Hni. unfold cleanRoute.
    assert (Hids : ids rm f = Some (Rt_NodeIDs rt)) by (unfold ids; by rewrite Hf).
    case_bool_decide as Hlen.
    + destruct (route_update_spec mria f (filter (λ x, x ≠ n) (Rt_NodeIDs rt)) now rm1 R)
        as (rm2 & -> & R2 & N2 & Q1 & Q2 & Q3).
      exists rm2. split_and!; try done; [by rewrite N2|by rewrite Q1|by rewrite Q2|].
      intros f'. unfold ids at 1. rewrite Q3. destruct (decide (f' = f)) as [->|Hne].
      * rewrite lookup_insert_eq, decide_True by set_solver. by rewrite Hids.
      * rewrite lookup_insert_ne by done. fold (ids rm1 f'). rewrite S3.
        destruct (decide (f' ∈ done)); [rewrite decide_True|rewrite decide_False]; set_solver.
    + exists rm1. split_and!; try done. intros f'. rewrite S3.
      destruct (decide (f' = f)) as [->|Hne].
      * rewrite decide_False, decide_True by set_solver. rewrite Hids. simpl. by rewrite filter_length_id.
      * destruct (decide (f' ∈ done)); [rewrite decide_True|rewrite decide_False]; set_solver.
  - exists rm'. split_and!; try done. intros f. rewrite S3. case_decide as Hf; [done|].
    rewrite elem_of_keys in Hf. unfold ids. destruct (routes (rm_state rm) !! f); [|done]. destruct Hf. by eexists.
Qed.

Lemma clean_sessions mria n now rm :
  ready rm →
  ∃ rm', range_outcome (cleanSession mria n now) (GetAllSessions rm) rm = Returns rm' ∧ ready rm' ∧
    rm_nodeID rm' = rm_nodeID rm ∧ subscriptions (rm_state rm') = subscriptions (rm_state rm) ∧
    (∀ f, ids rm' f = ids rm f) ∧
    ∀ c s, sessions (rm_state rm') !! c = Some s ↔ sessions (rm_state rm) !! c = Some s ∧ Ses_NodeID s ≠ n.
Proof.
  intros Hr. unfold GetAllSessions. rewrite copyMap_id.
  destruct (range_outcome_ind (cleanSession mria n now) (sessions (rm_state rm))
    (λ done rm', ready rm' ∧ rm_nodeID rm' = rm_nodeID rm ∧ subscriptions (rm_state rm') = subscriptions (rm_state rm) ∧
       (∀ f, ids rm' f = ids rm f) ∧
       ∀ c s, sessions (rm_state rm') !! c = Some s ↔
         sessions (rm_state rm) !! c = Some s ∧ (c ∈ done → Ses_NodeID s ≠ n)) rm)
    as (rm' & E & R & N & S1 & S2 & S3).
  - split_and!; try done. intros c s. set_solver.
  - intros done c s rm1 (R & N & S1 & S2 & S3) Hc Hni. unfold cleanSession. case_bool_decide as Hn.
    + destruct (RemoveSession_spec (Some mria) c now rm1 R) as (rm2 & -> & R2 & N2 & Q1 & Q2 & Q3).
      exists rm2. split_and!; try done; [by rewrite N2|by rewrite Q1|intros f; unfold ids; rewrite Q2; apply S2|].
      intros c' s'. rewrite Q3, lookup_delete_Some, S3. split.
      * intros [Hne [Hs Hd]]. split; [done|]. set_solver.
      * intros [Hs Hd]. split; [|set_solver]. intros ->. apply Hd; [set_solver|]. congruence.
    + exists rm1. split_and!; try done. intros c' s'. rewrite S3. split; intros [Hs Hd]; (split; [done|]); [|set_solver].
      intros [?| ->%list_elem_of_singleton]%elem_of_app; [auto|]. congruence.
  - exists rm'. split_and!; try done. intros c s. rewrite S3. split; intros [Hs Hd]; (split; [done|]); [|done].
    apply Hd, elem_of_keys. by eexists.
Qed.

(** Every subscription is filed under its own key. *)
Definition subs_keyed (rm : ReplicationManager) : Prop :=
  ∀ k s, subscriptions (rm_state rm) !! k = Some s → k = subKey (Sub_ClientID s) (Sub_TopicFilter s).

Lemma clean_subscriptions mria self n now rm :
  ready rm → subs_keyed rm → (∀ f l, ids rm f = Some l → n ∉ l) →
  ∃ rm', range_outcome (cleanSubscription mria self n now) (GetAllSubscriptions rm) rm = Returns rm' ∧ ready rm' ∧
    rm_nodeID rm' = rm_nodeID rm ∧ sessions (rm_state rm') = sessions (rm_state rm) ∧ (∀ f, ids rm' f = ids rm f) ∧
    ∀ k s, subscriptions (rm_state rm') !! k = Some s ↔ subscriptions (rm_state rm) !! k = Some s ∧ Sub_NodeID s ≠ n.
Proof.
  intros Hr Hk Hids. unfold GetAllSubscriptions. rewrite copyMap_id.
  destruct (range_outcome_ind (cleanSubscription mria self n now) (subscriptions (rm_state rm))
    (λ done rm', ready rm' ∧ rm_nodeID rm' = rm_nodeID rm ∧ sessions (rm_state rm') = sessions (rm_state rm) ∧
       (∀ f, ids rm' f = ids rm f) ∧
       ∀ k s, subscriptions (rm_state rm') !! k = Some s ↔
         subscriptions (rm_state rm) !! k = Some s ∧ (k ∈ done → Sub_NodeID s ≠ n)) rm)
    as (rm' & E & R & N & S1 & S2 & S3).
  - split_and!; try done. intros c s. set_solver.
  - intros done k s rm1 (R & N & S1 & S2 & S3) Hs Hni. unfold cleanSubscription. case_bool_decide as Hn.
    + destruct (RemoveSubscription_spec mria self n (Sub_ClientID s) (Sub_TopicFilter s) now rm1 R)
        as (rm2 & -> & R2 & N2 & Q1 & Q2 & Q3).
      { intros f l. rewrite S2. apply Hids. }
      { intros s' Hs'. rewrite <- (Hk k s Hs) in Hs'. apply S3 in Hs' as [Hs' _]. congruence. }
      exists rm2. rewrite <- (Hk k s Hs) in Q2. split_and!; try done; [by rewrite N2|by rewrite Q1|intros f; rewrite Q3; apply S2|].
      intros k' s'. rewrite Q2, lookup_delete_Some, S3. split.
      * intros [Hne [Hs' Hd]]. split; [done|]. set_solver.
      * intros [Hs' Hd]. split; [|set_solver]. intros ->. apply Hd; [set_solver|]. congruence.
    + exists rm1. split_and!; try done. intros k' s'. rewrite S3. split; intros [Hs' Hd]; (split; [done|]); [|set_solver].
      intros [?| ->%list_elem_of_singleton]%elem_of_app; [auto|]. congruence.
  - exists rm'. split_and!; try done. intros k s. rewrite S3. split; intros [Hs Hd]; (split; [done|]); [|done].
    apply Hd, elem_of_keys. by eexists.
Qed.
End leave.

(** A leave request for a node always succeeds on a node whose loop runs (or that is no core
    node): its sessions and subscriptions are gone and no route lists it, all others stay as they
    were; yet the tables of core and replicant nodes still hold the departed node, because the
    handler deletes it from a copy, so it stays eligible as leader and as a target of replication. *)
Theorem leave_exact {HJ : JSONText} n now bi :
  ready (replicationManager bi) → subs_keyed (replicationManager bi) →
  ∃ resp bi', Server_Leave n now bi = Returns (resp, bi') ∧ NR_Success resp = true ∧
    (∀ f, ids (replicationManager bi') f = filter (λ x, x ≠ n) <$> ids (replicationManager bi) f) ∧
    (∀ c s, sessions (rm_state (replicationManager bi')) !! c = Some s ↔
       sessions (rm_state (replicationManager bi)) !! c = Some s ∧ Ses_NodeID s ≠ n) ∧
    (∀ k s, subscriptions (rm_state (replicationManager bi')) !! k = Some s ↔
       subscriptions (rm_state (replicationManager bi)) !! k = Some s ∧ Sub_NodeID s ≠ n) ∧
    mriaManager bi' = mriaManager bi ∧ localSessions bi' = localSessions bi ∧ localRoutes bi' = localRoutes bi.
Proof.
  intros Hr Hk. unfold Server_Leave, handleNodeLeave, cleanupNodeData.
  destruct (clean_routes (mriaManager bi) n now _ Hr) as (rm1 & -> & R1 & N1 & A1 & A2 & A3). simpl.
  destruct (clean_sessions (mriaManager bi) n now _ R1) as (rm2 & -> & R2 & N2 & B1 & B2 & B3). simpl.
  destruct (clean_subscriptions (mriaManager bi) (bi_nodeID bi) n now rm2 R2) as (rm3 & -> & R3 & N3 & C1 & C2 & C3).
  { intros k s. rewrite B1, A1. apply Hk. }
  { intros f l. rewrite B2, A3. intros (l0 & _ & ->)%fmap_Some. rewrite list_elem_of_filter. by intros [? _]. }
  simpl. eexists _, _. split; [done|]. simpl. split_and!; try done.
  - intros f. by rewrite C2, B2, A3.
  - intros c s. by rewrite C1, B3, A2.
  - intros k s. by rewrite C3, B1, A1.
Qed.

(** ** Replication messages *)

Lemma substring_length n m s : (String.length (String.substring n m s) ≤ m)%nat.
Proof.
  revert n m. induction s as [|c s IH]; intros [|n] [|m]; simpl; try lia; [|apply IH..].
  specialize (IH O m). lia.
Qed.

Lemma handleMriaMessage_refuses {HJ : JSONText} msgId req now bi :
  handleMriaMessage msgId req now bi =
  Returns (mkForwardAck msgId false "Unknown Mria message type" (bi_nodeID bi), bi).
Proof.
  unfold handleMriaMessage. rewrite (bool_decide_eq_false_2 (String.substring _ _ _ = _)); [by rewrite andb_false_r|].
  intros E. pose proof (substring_length 0 16 (PF_Topic req)) as H. rewrite E in H. simpl in H. lia.
Qed.

(** Handing the calls a core node made for [r] to the server of [r]. *)
Definition deliver_one {HJ : JSONText} (r : string) (now : Time) (st : list ForwardAck * BrokerIntegration) (c : PeerCall)
    : outcome (list ForwardAck * BrokerIntegration) :=
  match c with
  | CallForwardPublish peer req =>
      if peer =s r then let! '(ack, bi) := Server_ForwardPublish "" req now st.2 in Returns (st.1 ++ [ack], bi)
      else Returns st
  | CallBatchUpdateRoutes _ _ => Returns st
  end.
Definition deliver {HJ : JSONText} (r : string) (now : Time) (l : list PeerCall) (bi : BrokerIntegration)
    : outcome (list ForwardAck * BrokerIntegration) :=
  foldl (λ o c, let! st := o in deliver_one r now st c) (Returns ([], bi)) l.

Lemma refused_topic {HJ : JSONText} msgId topic data from now bi :
  Server_ForwardPublish msgId (mkPublishForward ("$mria/replication/" +:+ topic)%string data from) now bi =
  Returns (mkForwardAck msgId false "Unknown Mria message type" (bi_nodeID bi), bi).
Proof. apply handleMriaMessage_refuses. Qed.

Lemma deliver_refused {HJ : JSONText} r now l bi acks :
  Forall replication_call l → Forall (λ a, FA_Success a = false) acks →
  ∃ acks', foldl (λ o c, let! st := o in deliver_one r now st c) (Returns (acks, bi)) l = Returns (acks', bi) ∧
    Forall (λ a, FA_Success a = false) acks' ∧
    length acks' = (length acks + length (payloads r l))%nat.
Proof.
  intros Hl. revert acks. induction Hl as [|c l (peer & node & data & from & ->) _ IH]; intros acks Ha.
  - exists acks. simpl. split_and!; try done.
  - cbn [foldl outcome_bind]. unfold deliver_one at 2. unfold payloads. cbn [omap list_omap payload_to PF_Payload].
    case_bool_decide as E.
    + cbn [fst snd]. rewrite refused_topic. cbn [outcome_bind].
      destruct (IH (acks ++ [mkForwardAck "" false "Unknown Mria message type" (bi_nodeID bi)])) as (acks' & -> & Ha' & Hlen).
      { apply Forall_app. split; [done|]. by apply Forall_singleton. }
      exists acks'. split_and!; try done. rewrite Hlen, length_app. simpl. unfold payloads. lia.
    + apply IH. done.
Qed.

(** Replication never reaches a replicant: whatever changes a core node makes, its messages to a
    connected replicant, one for every entry, are all refused by the replicant's server and leave
    its state untouched, because the handler compares a slice of 16 bytes of the topic with a text of 17. *)
Theorem replication_never_delivered {HJ : JSONText} {HL : JSONTextLaws} m r nodeID steps now bi :
  connected_replicant m r → valid_utf8 nodeID → Forall step_ok steps →
  ∃ core acks,
    core_run m steps (RM_Start (NewReplicationManager nodeID CoreNode)) = Returns core ∧
    deliver r now (rm_sent (drain m core)) bi = Returns (acks, bi) ∧
    Forall (λ a, FA_Success a = false) acks ∧
    length acks = length (payloads r (rm_sent (drain m core))).
Proof.
  intros Hc Hn Hs. destruct (core_run_inv m r steps _ _ Hc (started_inv r nodeID Hn) Hs) as (core & hist & E & Hi).
  destruct (drain_inv m r core hist Hc Hi) as [Hi' _].
  destruct (deliver_refused r now (rm_sent (drain m core)) bi [] (ci_calls _ _ _ _ Hi')) as (acks & Hd & Ha & Hl); [done|].
  by exists core, acks.
Qed.

Definition sampleReplicant : BrokerIntegration :=
  (Initialize ":2883" true None 0 (NewBrokerIntegration "rep-1" ReplicantNode 0)).2.

Lemma replication_never_delivered_witness :
  let steps := [SAddSubscription "c1" "a/b" 1 (5 * Second); SUpdateRoute "a/b" ["core-1"] (6 * Second)] in
  let J := digitsJSON in
  ∃ core acks,
    core_run sampleHub steps (RM_Start (NewReplicationManager "core-1" CoreNode)) = Returns core ∧
    deliver "rep-1" 0 (rm_sent (drain sampleHub core)) sampleReplicant = Returns (acks, sampleReplicant) ∧
    Forall (λ a, FA_Success a = false) acks ∧
    length acks = length (payloads "rep-1" (rm_sent (drain sampleHub core))).
Proof.
  intros steps J. apply (replication_never_delivered (HJ := digitsJSON) (HL := digitsJSON_laws)).
  - apply sampleHub_connected.
  - done.
  - repeat constructor; try done; lia.
Defined.

Lemma leave_exact_witness :
  let J := digitsJSON in
  let bi := sampleReplicant in
  ∃ resp bi', Server_Leave "core-1" 0 bi = Returns (resp, bi') ∧ mriaManager bi' = mriaManager bi.
Proof.
  intros J bi. destruct (leave_exact (HJ := digitsJSON) "core-1" 0 bi) as (resp & bi' & E & _ & _ & _ & _ & Hm & _).
  - by left.
  - intros k s Hs. unfold bi, sampleReplicant in Hs. simpl in Hs. by rewrite lookup_empty in Hs.
  - by exists resp, bi'.
Defined.

(** ** Every core node leads itself *)

(** The request the cluster package sends when it connects to a peer. *)
Definition peerNode (other : Manager) (now : Time) : NodeInfo := wireNode (JR_Node (joinRequest other now)).

Definition join_all (others : list (Manager * Time)) (bi : BrokerIntegration) : outcome BrokerIntegration :=
  foldl (λ o '(other, now), let! bi := o in
    let! '(_, bi) := Server_Join (Some (peerNode other now)) bi in Returns bi) (Returns bi) others.

(** The only core node known to run is the node itself. *)
Definition alone (bi : BrokerIntegration) : Prop :=
  let m := mriaManager bi in
  bi_nodeRole bi = CoreNode ∧ GetNodeRole m = CoreNode ∧ Cfg_NodeID (config m) = bi_nodeID bi ∧ bi_nodeID bi ≠ "" ∧
  NI_NodeId (nodeInfo m) = bi_nodeID bi ∧ running (nodeInfo m) ∧ leaderElectionCh m = [] ∧
  CoreNodes (clusterState m) !! bi_nodeID bi = Some Self ∧
  ∀ k p, CoreNodes (clusterState m) !! k = Some p →
    p = Self ∨ ∃ n, p = Ptr n ∧ NI_NodeId n ≠ "" ∧ ¬ running n.

Lemma join_alone other now bi :
  alone bi → ∃ resp bi', Server_Join (Some (peerNode other now)) bi = Returns (resp, bi') ∧ alone bi'.
Proof.
  intros (H1 & H2 & H3 & H4 & H5 & H6 & H7 & H8 & H9). unfold Server_Join.
  case_bool_decide as Hself; [by eexists _, _|].
  rewrite (bool_decide_eq_false_2 (bi_nodeRole bi = ReplicantNode)) by (rewrite H1; done).
  eexists _, _. split; [done|]. case_bool_decide as Hne; simpl in Hne; [done|]. simpl in Hself. simpl.
  case_bool_decide; split_and!; try done; simpl.
  - by rewrite lookup_insert_ne.
  - intros k p. rewrite lookup_insert_Some. intros [[<- <-]|[_ Hk]]; [|by eapply H9].
    right. eexists. by split_and!.
Qed.

Lemma join_all_alone others bi : alone bi → ∃ bi', join_all others bi = Returns bi' ∧ alone bi'.
Proof.
  revert bi. induction others as [|[other now] others IH]; intros bi Ha; [by exists bi|].
  unfold join_all. cbn [foldl outcome_bind]. destruct (join_alone other now bi Ha) as (resp & bi1 & -> & Ha1).
  by apply IH.
Qed.

Lemma elect_alone bi :
  alone bi → ∃ m', performLeaderElection (mriaManager bi) = Returns m' ∧ IsLeader m' = true.
Proof.
  intros (H1 & H2 & H3 & H4 & H5 & H6 & H7 & H8 & H9). set (m := mriaManager bi) in *.
  assert (Hn : named (GetCoreNodes m)).
  { intros n ([k p] & -> & Hin%elem_of_map_to_list)%list_elem_of_fmap. simpl.
    destruct (H9 k p Hin) as [->|(n & -> & ? & _)]; simpl; [by rewrite H5|done]. }
  exists (set_electionCh (notice m) (elected m)). split.
  { apply performLeaderElection_core; try done. intros E. by rewrite E, lookup_empty in H8. }
  unfold IsLeader. simpl. unfold GetNodeRole in H2. rewrite H2. rewrite andb_true_iff, !bool_decide_eq_true.
  split; [|done]. rewrite H3. eapply least_running_unique; [by apply electLeader_least|]. right.
  assert (Hself : nodeInfo m ∈ GetCoreNodes m).
  { apply list_elem_of_fmap. exists (bi_nodeID bi, Self). split; [done|]. by apply elem_of_map_to_list. }
  split_and!; [done|by exists (nodeInfo m)|].
  intros n ([k p] & -> & Hin%elem_of_map_to_list)%list_elem_of_fmap Hr. simpl in *.
  destruct (H9 k p Hin) as [->|(n & -> & _ & Hnr)]; simpl in *; [|done]. rewrite H5. apply str_ltb_irrefl.
Qed.

Lemma initialized_alone nodeID addr disc now now' :
  nodeID ≠ "" → alone (Initialize addr true disc now (NewBrokerIntegration nodeID CoreNode now')).2.
Proof.
  intros Hne. split_and!; try done; simpl.
  - by rewrite lookup_insert_eq.
  - intros k p. rewrite lookup_insert_Some, lookup_empty. intros [[_ <-]|[_ ?]]; [by left|done].
Qed.

(** Core nodes that joined each other all lead: after a core node has been started, however many
    nodes join it through the requests of the cluster package, its next leader election makes it the
    leader, because those requests carry no status and no handler ever stores one; a cluster of several
    core nodes has as many leaders. *)
Theorem every_core_leads nodeID addr disc now now' others :
  nodeID ≠ "" →
  ∃ bi m', join_all others (Initialize addr true disc now (NewBrokerIntegration nodeID CoreNode now')).2 = Returns bi ∧
    performLeaderElection (mriaManager bi) = Returns m' ∧ IsLeader m' = true.
Proof.
  intros Hne. destruct (join_all_alone others _ (initialized_alone nodeID addr disc now now' Hne)) as (bi & E & Ha).
  destruct (elect_alone bi Ha) as (m' & Em & Hl). by exists bi, m'.
Qed.

Lemma every_core_leads_witness :
  let other := NewManager "core-0" "h:1" in
  ∃ bi m', join_all [(other, 0)] (Initialize ":1883" true None 0 (NewBrokerIntegration "core-1" CoreNode 0)).2 = Returns bi ∧
    performLeaderElection (mriaManager bi) = Returns m' ∧ IsLeader m' = true.
Proof. intros other. by apply every_core_leads. Defined.

(** ** Clients that disconnect *)

(** A disconnection never removes a session from replication: a clean session disappears from the
    local table first, so the lookup that should lead to its removal finds nothing, and the session is
    replicated as a persistent one, disconnected, that expires a day later. *)
Theorem clean_session_kept {HJ : JSONText} c now bi :
  ready (replicationManager bi) →
  ∃ bi', HandleClientDisconnect c now bi = Returns bi' ∧
    sessions (rm_state (replicationManager bi')) =
      <[c := mkSessionData c (rm_nodeID (replicationManager bi)) false false (now + 24 * Hour)]>
        (sessions (rm_state (replicationManager bi))) ∧
    localSessions bi' !! c =
      (s ← localSessions bi !! c;
       if SI_CleanSession s then None else Some (mkSessionInfo (SI_ClientID s) false false (SI_ConnectedAt s) now)) ∧
    ∀ c', c' ≠ c → localSessions bi' !! c' = localSessions bi !! c'.
Proof.
  intros Hr. unfold HandleClientDisconnect.
  assert (Hadd : ∀ b, replicationManager b = replicationManager bi →
    ∃ rm', AddSession (Some (mriaManager b)) sessionCallback c false false (now + 24 * Hour) now (replicationManager b)
             = Returns rm' ∧ sessions (rm_state rm') =
      <[c := mkSessionData c (rm_nodeID (replicationManager bi)) false false (now + 24 * Hour)]>
        (sessions (rm_state (replicationManager bi)))).
  { intros b ->. destruct (AddSession_spec (Some (mriaManager b)) c false false (now + 24 * Hour) now _ Hr)
      as (rm' & E & _ & _ & _ & _ & Hs). by exists rm'. }
  destruct (localSessions bi !! c) as [s|] eqn:Es.
  - cbn [SI_CleanSession]. destruct (SI_CleanSession s) eqn:Ec.
    + cbn [set_localSessions localSessions]. rewrite lookup_delete_eq.
      destruct (Hadd (set_localSessions (delete c (<[c := mkSessionInfo (SI_ClientID s) false true (SI_ConnectedAt s) now]>
        (localSessions bi))) bi)) as (rm' & E & Hs); [done|]. cbn [replicationManager set_localSessions mriaManager] in E.
      simpl. rewrite E. simpl. eexists. split; [done|]. unfold emit. case_match; simpl; rewrite Ec;
      (split_and!; [done|by rewrite lookup_delete_eq|intros c' ?; by rewrite lookup_delete_ne, lookup_insert_ne]).
    + cbn [set_localSessions localSessions]. rewrite lookup_insert_eq. cbn [SI_CleanSession].
      destruct (Hadd bi eq_refl) as (rm' & E & Hs). simpl. rewrite E. simpl. eexists. split; [done|].
      unfold emit. case_match; simpl; rewrite Ec;
      (split_and!; [done|by rewrite lookup_insert_eq|intros c' ?; by rewrite lookup_insert_ne]).
  - rewrite Es. destruct (Hadd bi eq_refl) as (rm' & E & Hs). rewrite E. simpl. eexists. split; [done|].
    unfold emit. case_match; simpl; by rewrite Es.
Qed.

Lemma clean_session_kept_witness :
  let J := digitsJSON in
  ∃ bi bi', HandleClientConnect "c1" true 0 sampleReplicant = Returns bi ∧ HandleClientDisconnect "c1" 5 bi = Returns bi' ∧
    localSessions bi' !! "c1" = None ∧ is_Some (sessions (rm_state (replicationManager bi')) !! "c1").
Proof.
  intros J. eexists _. destruct (clean_session_kept (HJ := digitsJSON) "c1" 5
    (match HandleClientConnect "c1" true 0 sampleReplicant with Returns b => b | _ => sampleReplicant end))
    as (bi' & E & Hs & Hl & _); [by left|].
  exists bi'. split; [done|]. split; [exact E|]. split; [by rewrite Hl|]. rewrite Hs, lookup_insert_eq. by eexists.
Defined.

(** ** Local routes *)

Inductive LocalEvent :=
  | LSubscribe (clientID topicFilter : string) (qos : Z) (now : Time)
  | LUnsubscribe (clientID topicFilter : string) (now : Time).

Definition local_step {HJ : JSONText} (e : LocalEvent) (bi : BrokerIntegration) : outcome BrokerIntegration :=
  match e with
  | LSubscribe c f q now => HandleSubscribe c f q now bi
  | LUnsubscribe c f now => HandleUnsubscribe c f now bi
  end.
Definition local_run {HJ : JSONText} (l : list LocalEvent) (bi : BrokerIntegration) : outcome BrokerIntegration :=
  foldl (λ o e, let! bi := o in local_step e bi) (Returns bi) l.

(** The specification: the clients of each filter, in the order they subscribed. *)
Definition subscribers_step (t : string → list string) (e : LocalEvent) : string → list string :=
  match e with
  | LSubscribe c f _ _ => λ f', if decide (f' = f) then add_new (t f') c else t f'
  | LUnsubscribe c f _ => λ f', if decide (f' = f) then filter (λ x, x ≠ c) (t f') else t f'
  end.
Definition subscribers (l : list LocalEvent) : string → list string := foldl subscribers_step (λ _, []) l.

(** The other nodes a route lists. *)
Definition others_of (self : string) (o : option (list string)) : list string := filter (λ x, x ≠ self) (default [] o).

Section local.
Context {HJ : JSONText}.

(** All subscriptions are the node's own. *)
Record local_inv (t : string → list string) (r0 : string → list string) (bi : BrokerIntegration) : Prop := {
  li_ready : ready (replicationManager bi);
  li_node : rm_nodeID (replicationManager bi) = bi_nodeID bi;
  li_own : ∀ k s, subscriptions (rm_state (replicationManager bi)) !! k = Some s → Sub_NodeID s = bi_nodeID bi;
  li_local : ∀ f, localRoutes bi !! f = match t f with [] => None | l => Some l end;
  li_others : ∀ f, others_of (bi_nodeID bi) (ids (replicationManager bi) f) = r0 f;
  li_self : ∀ f, bi_nodeID bi ∈ default [] (ids (replicationManager bi) f) ↔ t f ≠ [];
}.

Lemma updateClusterRoute_spec f now bi :
  ready (replicationManager bi) →
  ∃ rm', updateClusterRoute f now bi = Returns (set_rm rm' bi) ∧ ready rm' ∧
    rm_nodeID rm' = rm_nodeID (replicationManager bi) ∧
    subscriptions (rm_state rm') = subscriptions (rm_state (replicationManager bi)) ∧
    ∀ f', default [] (ids rm' f') = if decide (f' = f) then
        (if decide (default [] (localRoutes bi !! f) = []) then [] else [bi_nodeID bi]) ++
        others_of (bi_nodeID bi) (ids (replicationManager bi) f)
      else default [] (ids (replicationManager bi) f').
Proof.
  intros Hr. unfold updateClusterRoute, with_rm.
  match goal with |- context [route_update ?a ?b ?c ?d ?e] =>
    destruct (route_update_spec a b c d e Hr) as (rm' & -> & R & N & S1 & S2 & S3) end.
  exists rm'. simpl. split_and!; try done. intros f'. unfold ids at 1. rewrite S3.
  destruct (decide (f' = f)) as [->|Hne]; [|by rewrite lookup_insert_ne].
  rewrite lookup_insert_eq. simpl. unfold GetRoute, others_of, ids.
  destruct (decide (default [] (localRoutes bi !! f) = [])) as [->|Hne]; simpl.
  - by destruct (routes (rm_state (replicationManager bi)) !! f).
  - rewrite bool_decide_eq_true_2 by done.
    destruct (routes (rm_state (replicationManager bi)) !! f); simpl; [done|by rewrite ?app_nil_r].
Qed.

Lemma others_of_app self l (o : option (list string)) :
  (∀ x, x ∈ l → x = self) → filter (λ x, x ≠ self) (l ++ others_of self o) = others_of self o.
Proof.
  intros Hl. rewrite filter_app.
  assert (filter (λ x, x ≠ self) l = []) as ->.
  { induction l as [|x l IH]; [done|]. rewrite filter_cons_False by (intros Hx; apply Hx, Hl; set_solver).
    apply IH. intros y ?. apply Hl. set_solver. }
  simpl. apply filter_absent. unfold others_of. rewrite list_elem_of_filter. by intros [? _].
Qed.

Lemma AddSubscription_own mria self c f q now rm :
  ready rm → rm_nodeID rm = self →
  ∃ rm', AddSubscription (Some mria) (Some (handleSubscriptionChange mria self now)) c f q now rm = Returns rm' ∧
    ready rm' ∧ rm_nodeID rm' = self ∧ routes (rm_state rm') = routes (rm_state rm) ∧
    subscriptions (rm_state rm') = <[subKey c f := mkSubscriptionData c f q self]> (subscriptions (rm_state rm)).
Proof.
  intros Hr <-. unfold AddSubscription.
  match goal with |- context [logChange ?a ?b ?c ?d ?e ?s] =>
    destruct (logChange_same a b c d e s Hr) as (rm' & -> & Hs) end.
  exists rm'. simpl. unfold handleSubscriptionChange. simpl. rewrite bool_decide_eq_true_2 by done. simpl.
  destruct (same_state _ _ Hs) as (? & ? & ?). split_and!; try done; [by eapply same_tables_ready|apply Hs].
Qed.

Lemma RemoveSubscription_own mria self c f now rm :
  ready rm → rm_nodeID rm = self → (∀ k s, subscriptions (rm_state rm) !! k = Some s → Sub_NodeID s = self) →
  ∃ rm', logged rm (RemoveSubscription (Some mria) (Some (handleSubscriptionChange mria self now)) c f now rm) = Returns rm' ∧
    ready rm' ∧ rm_nodeID rm' = self ∧ routes (rm_state rm') = routes (rm_state rm) ∧
    subscriptions (rm_state rm') = delete (subKey c f) (subscriptions (rm_state rm)).
Proof.
  intros Hr <- Hown. unfold RemoveSubscription, logged.
  destruct (subscriptions (rm_state rm) !! subKey c f) as [s|] eqn:E; simpl; [|exists rm; by rewrite delete_id].
  match goal with |- context [logChange ?a ?b ?c ?d ?e ?s] =>
    destruct (logChange_same a b c d e s Hr) as (rm' & -> & Hs) end.
  exists rm'. simpl. unfold handleSubscriptionChange. rewrite bool_decide_eq_true_2 by (by eapply Hown). simpl.
  destruct (same_state _ _ Hs) as (? & ? & ?). split_and!; try done; [by eapply same_tables_ready|apply Hs].
Qed.

(** The local table after a client came or went. *)
Lemma subscribe_table t f c (lr : gmap string (list string)) :
  (∀ f', lr !! f' = match t f' with [] => None | l => Some l end) →
  ∀ f', (match lr !! f with
         | Some clients => if existsb (λ x, x =s c) clients then lr else <[f := clients ++ [c]]> lr
         | None => <[f := [c]]> lr
         end) !! f' =
        match (if decide (f' = f) then add_new (t f') c else t f') with [] => None | l => Some l end.
Proof.
  intros Hlr f'. rewrite (Hlr f). destruct (t f) as [|x l] eqn:Et.
  - destruct (decide (f' = f)) as [->|Hne]; [by rewrite lookup_insert_eq, Et|by rewrite lookup_insert_ne].
  - rewrite existsb_eq_elem. unfold add_new. destruct (decide (f' = f)) as [->|Hne].
    + rewrite Et. case_bool_decide; [by rewrite Hlr, Et|by rewrite lookup_insert_eq].
    + case_bool_decide; [apply Hlr|by rewrite lookup_insert_ne].
Qed.

Lemma unsubscribe_table t f c (lr : gmap string (list string)) :
  (∀ f', lr !! f' = match t f' with [] => None | l => Some l end) →
  ∀ f', (match lr !! f with
         | Some clients =>
             let newClients := filter (λ x, x ≠ c) clients in
             if bool_decide (newClients = []) then delete f lr else <[f := newClients]> lr
         | None => lr
         end) !! f' =
        match (if decide (f' = f) then filter (λ x, x ≠ c) (t f') else t f') with [] => None | l => Some l end.
Proof.
  intros Hlr f'. rewrite (Hlr f). destruct (t f) as [|x l] eqn:Et.
  - rewrite Hlr. destruct (decide (f' = f)) as [->|Hne]; [by rewrite Et|done].
  - cbv zeta. case_bool_decide as En; (destruct (decide (f' = f)) as [->|Hne]).
    + by rewrite lookup_delete_eq, Et, En.
    + by rewrite lookup_delete_ne.
    + rewrite lookup_insert_eq, Et. by destruct (filter _ (x :: l)).
    + by rewrite lookup_insert_ne.
Qed.

(** The route of the filter is published after its clients have changed. *)
Lemma updateClusterRoute_inv t t' r0 f now bi rm lr :
  local_inv t r0 bi → ready rm → rm_nodeID rm = bi_nodeID bi →
  (∀ k s, subscriptions (rm_state rm) !! k = Some s → Sub_NodeID s = bi_nodeID bi) →
  routes (rm_state rm) = routes (rm_state (replicationManager bi)) →
  (∀ f', lr !! f' = match t' f' with [] => None | l => Some l end) → (∀ f', f' ≠ f → t' f' = t f') →
  ∃ bi', updateClusterRoute f now (set_rm rm (set_localRoutes lr bi)) = Returns bi' ∧ bi_nodeID bi' = bi_nodeID bi ∧
    local_inv t' r0 bi'.
Proof.
  intros [I1 I2 I3 I4 I5 I6] Hr Hn Hown Hrt Hlr Ht.
  destruct (updateClusterRoute_spec f now (set_rm rm (set_localRoutes lr bi)) Hr) as (rm' & -> & R & N & S & Q).
  cbn [bi_nodeID set_rm set_localRoutes localRoutes replicationManager] in Q.
  assert (Hids : ∀ f', ids rm f' = ids (replicationManager bi) f') by (intros f'; unfold ids; by rewrite Hrt).
  eexists. split; [done|]. split; [done|]. split; cbn [bi_nodeID set_rm set_localRoutes localRoutes replicationManager]; try done.
  - by rewrite N.
  - by rewrite S.
  - intros f'. unfold others_of. rewrite Q. destruct (decide (f' = f)) as [->|Hf]; [|rewrite Hids; apply I5].
    rewrite others_of_app; [rewrite Hids; apply I5|]. case_decide; set_solver.
  - intros f'. rewrite Q. destruct (decide (f' = f)) as [->|Hf]; [|rewrite Hids, Ht by done; apply I6].
    rewrite elem_of_app. unfold others_of. rewrite list_elem_of_filter. rewrite Hlr.
    destruct (t' f); simpl; set_solver.
Qed.

Lemma local_step_inv t r0 e bi :
  local_inv t r0 bi →
  ∃ bi', local_step e bi = Returns bi' ∧ bi_nodeID bi' = bi_nodeID bi ∧ local_inv (subscribers_step t e) r0 bi'.
Proof.
  intros Hi. pose proof Hi as [I1 I2 I3 I4 I5 I6].
  assert (Hemit : ∀ set ev b t, local_inv t r0 b → local_inv t r0 (emit set ev b)).
  { intros set ev b t1 Hb. unfold emit. case_match; [|done]. by destruct Hb. }
  assert (Hid : ∀ set ev b, bi_nodeID (emit set ev b) = bi_nodeID b) by (intros; unfold emit; by case_match).
  destruct e as [c f q now|c f now]; simpl.
  - unfold HandleSubscribe, with_rm, subscriptionCallback. simpl.
    destruct (AddSubscription_own (mriaManager bi) (bi_nodeID bi) c f q now _ I1 I2) as (rm1 & -> & R1 & N1 & S1 & S2). simpl.
    edestruct (updateClusterRoute_inv t (subscribers_step t (LSubscribe c f q now)) r0 f now bi rm1)
      as (bi' & Eu & Hn & Hi'); [done|done|done| |done|exact (subscribe_table t f c _ I4)| |].
    + intros k s. rewrite S2, lookup_insert_Some. intros [[_ <-]|[_ Hk]]; [done|by eapply I3].
    + intros f' ?. simpl. by rewrite decide_False.
    + rewrite Eu. simpl. eexists. split; [done|]. split; [by rewrite Hid|]. by apply Hemit.
  - unfold HandleUnsubscribe, with_rm, subscriptionCallback. simpl.
    destruct (RemoveSubscription_own (mriaManager bi) (bi_nodeID bi) c f now _ I1 I2 I3) as (rm1 & -> & R1 & N1 & S1 & S2). simpl.
    edestruct (updateClusterRoute_inv t (subscribers_step t (LUnsubscribe c f now)) r0 f now bi rm1)
      as (bi' & Eu & Hn & Hi'); [done|done|done| |done|exact (unsubscribe_table t f c _ I4)| |].
    + intros k s. rewrite S2, lookup_delete_Some. intros [_ Hk]. by eapply I3.
    + intros f' ?. simpl. by rewrite decide_False.
    + cbv zeta in Eu. rewrite Eu. simpl. eexists. split; [done|]. split; [by rewrite Hid|]. by apply Hemit.
Qed.

Lemma local_run_inv t r0 l bi :
  local_inv t r0 bi →
  ∃ bi', local_run l bi = Returns bi' ∧ bi_nodeID bi' = bi_nodeID bi ∧ local_inv (foldl subscribers_step t l) r0 bi'.
Proof.
  revert t bi. induction l as [|e l IH]; intros t bi Hi; [by exists bi|].
  destruct (local_step_inv t r0 e bi Hi) as (bi1 & E & Hn & Hi1).
  destruct (IH _ bi1 Hi1) as (bi2 & E2 & Hn2 & Hi2). exists bi2. unfold local_run. simpl. rewrite E.
  split_and!; [exact E2|congruence|done].
Qed.
End local.

(** C27. The local routes refine the subscriptions of the node's clients: after any sequence of
    subscribe and unsubscribe events the handlers have returned, a filter's entry lists exactly the
    clients that subscribe to it, in order and once, and is absent when there are none; the
    replicated route of a filter lists this node exactly when such a client exists, and its other
    nodes are those it had before. *)
Theorem local_routes_refine {HJ : JSONText} l bi :
  ready (replicationManager bi) → rm_nodeID (replicationManager bi) = bi_nodeID bi →
  (∀ k s, subscriptions (rm_state (replicationManager bi)) !! k = Some s → Sub_NodeID s = bi_nodeID bi) →
  localRoutes bi = ∅ → (∀ f, bi_nodeID bi ∉ default [] (ids (replicationManager bi) f)) →
  ∃ bi', local_run l bi = Returns bi' ∧
    (∀ f, localRoutes bi' !! f = match subscribers l f with [] => None | cs => Some cs end) ∧
    (∀ f, bi_nodeID bi ∈ default [] (ids (replicationManager bi') f) ↔ subscribers l f ≠ []) ∧
    (∀ f, others_of (bi_nodeID bi) (ids (replicationManager bi') f) = others_of (bi_nodeID bi) (ids (replicationManager bi) f)).
Proof.
  intros Hr Hn Hown Hl Hself.
  destruct (local_run_inv (λ _, []) (λ f, others_of (bi_nodeID bi) (ids (replicationManager bi) f)) l bi)
    as (bi' & E & Hid & [I1 I2 I3 I4 I5 I6]).
  - split; try done; [intros f; by rewrite Hl|]. intros f. split; [intros Hf; by destruct (Hself f)|done].
  - exists bi'. rewrite Hid in I5, I6. done.
Qed.

Lemma local_routes_refine_witness :
  let J := digitsJSON in
  let l := [LSubscribe "c1" "a" 0 0; LSubscribe "c2" "a" 1 0; LSubscribe "c1" "b" 0 0; LUnsubscribe "c1" "a" 0; LUnsubscribe "c1" "b" 0] in
  ∃ bi', local_run l sampleReplicant = Returns bi' ∧ localRoutes bi' !! "a" = Some ["c2"] ∧ localRoutes bi' !! "b" = None.
Proof.
  intros J l. destruct (local_routes_refine (HJ := digitsJSON) l sampleReplicant) as (bi' & E & Hl & _).
  - by left.
  - done.
  - intros k s Hs. unfold sampleReplicant in Hs. simpl in Hs. by rewrite lookup_empty in Hs.
  - done.
  - intros f. unfold ids, sampleReplicant. simpl. rewrite lookup_empty. simpl. set_solver.
  - exists bi'. split_and!; [done|by rewrite Hl|by rewrite Hl].
Defined.

(** ** Restarting *)

(** The integration cannot be restarted: a second start without a stop is refused, and after a
    stop a second start succeeds although the replication loop no longer runs (its stop channel stays
    closed), and the next stop panics on closing that channel again. *)
Theorem restart_panics nodeID role addr disc now now' :
  let bi0 := NewBrokerIntegration nodeID role now' in
  let '(e1, _, bi1) := Initialize addr true disc now bi0 in
  e1 = None ∧ (Initialize addr true disc now bi1).1.1 = Some "broker integration already initialized" ∧
  ∃ bi2, Shutdown bi1 = Returns bi2 ∧ Shutdown bi2 = Returns bi2 ∧
    let '(e3, _, bi3) := Initialize addr true disc now bi2 in
    e3 = None ∧ rm_running (replicationManager bi3) = false ∧ Shutdown bi3 = Panics.
Proof.
  unfold Initialize, Start. simpl. destruct (role =s CoreNode) eqn:E; simpl; split_and!; try done.
  all: eexists; split; [reflexivity|]; split; [reflexivity|]; simpl; rewrite E; by split_and!.
Qed.
