(* ===== verification/Integration.v ===== *)
(** * Integration: data processors (pkg/integration/processors.go)

    A message that crosses a bridge can be rewritten by a processor.  Go maps are references: the
    decoded payload, the maps nested in it, the values of the configuration and the metadata of a
    message can be the same map, and a write through one name is seen through the others.  Maps
    therefore live in a store; a nil map has no cell.  Regular expressions, the texts of numbers and
    times and the text format of JSON are parameters. *)

From S2P Require Import Prelude GoLib GoValue GoJSON.
Local Open Scope emqx_scope.
Local Open Scope Z_scope.

Section values.
Context `{GoFloat}.

(** ** Values and the store *)

Definition loc := N.

(** The dynamic types that occur: those of decoded JSON, and integers and times set by the code. *)
Inductive hval :=
  | HNil
  | HBool (b : bool)
  | HInt (n : Z)
  | HFloat (f : float64)
  | HString (s : string)
  | HTime (t : Time)
  | HList (l : list hval)
  | HMap (m : option loc).

Record Store := mkStore { cells : gmap loc (gmap string hval); next : loc }.
Definition emptyStore : Store := mkStore ∅ 0%N.

Definition alloc (m : gmap string hval) (st : Store) : loc * Store :=
  (next st, mkStore (<[next st := m]> (cells st)) (next st + 1)%N).
Definition cell (l : loc) (st : Store) : gmap string hval := default ∅ (cells st !! l).
Definition write (l : loc) (k : string) (v : hval) (st : Store) : Store :=
  mkStore (<[l := <[k := v]> (cell l st)]> (cells st)) (next st).

(** [m[k]] on a map that may be nil; [m[k] = v] panics on a nil map. *)
Definition mapGet (m : option loc) (k : string) (st : Store) : option hval :=
  l ← m; cell l st !! k.
Definition mapSet (m : option loc) (k : string) (v : hval) (st : Store) : outcome Store :=
  match m with Some l => Returns (write l k v st) | None => Panics end.
Definition mapDelete (m : option loc) (k : string) (st : Store) : Store :=
  match m with Some l => mkStore (<[l := delete k (cell l st)]> (cells st)) (next st) | None => st end.

(** ** Paths *)

Definition dot : Ascii.ascii := Ascii.ascii_of_nat 46.

Definition stepPath (st : Store) (current : hval) (part : string) : hval :=
  match current with
  | HMap m => default HNil (mapGet m part st)
  | _ => HNil
  end.
Definition getValueByPath (data : option loc) (path : string) (st : Store) : hval :=
  if path =s "" then HMap data
  else foldl (stepPath st) (HMap data) (strings.Split path dot).

Fixpoint setParts (current : option loc) (parts : list string) (value : hval) (st : Store) : outcome Store :=
  match parts with
  | [] => Returns st
  | [part] => mapSet current part value st
  | part :: rest =>
      let! st :=
        match mapGet current part st with
        | Some _ => Returns st
        | None => let '(l, st) := alloc ∅ st in mapSet current part (HMap (Some l)) st
        end in
      match mapGet current part st with
      | Some (HMap nested) => setParts nested rest value st
      | _ => Returns st
      end
  end.
Definition setValueByPath (data : option loc) (path : string) (value : hval) (st : Store) : outcome Store :=
  if path =s "" then Returns st else setParts data (strings.Split path dot) value st.

Fixpoint removeParts (current : option loc) (parts : list string) (st : Store) : Store :=
  match parts with
  | [] => st
  | [part] => mapDelete current part st
  | part :: rest =>
      match mapGet current part st with
      | Some (HMap nested) => removeParts nested rest st
      | _ => st
      end
  end.
Definition removeFieldByPath (data : option loc) (path : string) (st : Store) : Store :=
  if path =s "" then st else removeParts data (strings.Split path dot) st.

(** ** Printing and writing values

    Following more references than there are maps means that a map contains itself: printing then
    overflows the stack, writing JSON is an error. *)
Context (FormatRFC3339 : Time → string) (formatTime : Time → string).

Fixpoint sprint (fuel : nat) (st : Store) : hval → option string :=
  fix go (v : hval) : option string :=
    match v with
    | HNil => Some "<nil>"
    | HBool b => Some (if b then "true" else "false")
    | HInt n => Some (pretty n)
    | HFloat f => Some (FormatFloat f)
    | HString s => Some s
    | HTime t => Some (formatTime t)
    | HList l => (λ ss, "[" +:+ joinWith " " ss +:+ "]") <$> mapM go l
    | HMap m =>
        match fuel with
        | O => None
        | S fuel =>
            entries ← mapM (λ e, (λ s, (e.1, s)) <$> sprint fuel st e.2)
                        (map_to_list (match m with Some l => cell l st | None => ∅ end));
            Some ("map[" +:+ joinWith " " ((λ e, e.1 +:+ ":" +:+ e.2) <$> foldr insertEntry [] entries) +:+ "]")
        end
    end%string.
Definition Sprint (v : hval) (st : Store) : outcome string :=
  match sprint (S (size (cells st))) st v with Some s => Returns s | None => Panics end.

(** How a float64 is written (NaN and the infinities cannot be), and a time. *)
Context (floatJSON : float64 → option json) (timeJSON : Time → option json).

Fixpoint toJSON (fuel : nat) (st : Store) : hval → option json :=
  fix go (v : hval) : option json :=
    match v with
    | HNil => Some JNull
    | HBool b => Some (JBool b)
    | HInt n => Some (JInt n)
    | HFloat f => floatJSON f
    | HString s => Some (JString s)
    | HTime t => timeJSON t
    | HList l => JArray <$> mapM go l
    | HMap None => Some JNull
    | HMap (Some l) =>
        match fuel with
        | O => None
        | S fuel =>
            entries ← mapM (λ e, (λ j, (e.1, j)) <$> toJSON fuel st e.2) (map_to_list (cell l st));
            Some (JObject (foldr (λ e acc, insertKey e.1 e.2 acc) [] entries))
        end
    end.

(** ** Reading values: [json.Unmarshal] into an [interface{}] *)

(** Read the elements in turn. *)
Definition fromAll {A B} (f : A → Store → option (B * Store)) (l : list A) (st : Store) : option (list B * Store) :=
  foldl (λ acc x, '(ys, st) ← acc; '(y, st) ← f x st; Some (ys ++ [y], st)) (Some ([], st)) l.

Fixpoint fromJSON (j : json) (st : Store) : option (hval * Store) :=
  match j with
  | JNull => Some (HNil, st)
  | JBool b => Some (HBool b, st)
  | JInt z => Some (HFloat (float_of_int z), st)
  | JDecimal text => f ← ParseFloat text; Some (HFloat f, st)
  | JString s => Some (HString s, st)
  | JArray l =>
      '(vs, st) ← fromAll fromJSON l st;
      Some (HList vs, st)
  | JObject l =>
      '(es, st) ← fromAll (λ e st, '(v, st) ← fromJSON e.2 st; Some ((e.1, v), st)) l st;
      let '(r, st) := alloc (foldl (λ m e, <[e.1 := e.2]> m) ∅ es) st in
      Some (HMap (Some r), st)
  end.

(** ** Conditions *)

(** [strings.Fields]: the pieces between runs of white space. *)
Fixpoint fieldsFrom (skip : nat) (s cur : string) : list string :=
  let flush := if cur =s "" then [] else [cur] in
  match s with
  | EmptyString => flush
  | String c s' =>
      match skip with
      | S k => fieldsFrom k s' cur
      | O =>
          match leadingSpace s with
          | O => fieldsFrom 0 s' (cur +:+ String c "")%string
          | S k => flush ++ fieldsFrom k s' ""
          end
      end
  end.
Definition Fields (s : string) : list string := fieldsFrom 0 s "".

(** [strings.Trim] with the two quotation marks as its cut set. *)
Definition isQuote (c : Ascii.ascii) : bool := (code c =? 39) || (code c =? 34).
Fixpoint trimQuotesLeft (s : string) : string :=
  match s with
  | String c s' => if isQuote c then trimQuotesLeft s' else s
  | EmptyString => ""
  end.
Fixpoint trimQuotesRight (s : string) : string :=
  match s with
  | EmptyString => ""
  | String c s' => if all_bytes isQuote s then "" else String c (trimQuotesRight s')
  end.
Definition TrimQuotes (s : string) : string := trimQuotesRight (trimQuotesLeft s).

(** [a <= b] on floats is not the negation of [b < a]: both fail on NaN. *)
Context (float_leb : float64 → float64 → bool).
(** [regexp.MatchString]; [None]: the pattern does not compile. *)
Context (MatchString : string → string → option bool).

Definition hvalFloat64 (v : hval) : option float64 :=
  match v with
  | HFloat f => Some f
  | HInt n => Some (float_of_int n)
  | HString s => ParseFloat s
  | _ => None
  end.
Definition compareNumeric (actual : hval) (expected : string) (compare : float64 → float64 → bool) : bool :=
  match hvalFloat64 actual, ParseFloat expected with
  | Some a, Some b => compare a b
  | _, _ => false
  end.

Definition compareHvals (actual : hval) (operator expected : string) (st : Store) : outcome bool :=
  if (operator =s "==") || (operator =s "=") then let! s := Sprint actual st in Returns (s =s TrimQuotes expected)
  else if operator =s "!=" then let! s := Sprint actual st in Returns (s <>s TrimQuotes expected)
  else if operator =s ">" then Returns (compareNumeric actual expected (λ a b, float_ltb b a))
  else if operator =s "<" then Returns (compareNumeric actual expected float_ltb)
  else if operator =s ">=" then Returns (compareNumeric actual expected (λ a b, float_leb b a))
  else if operator =s "<=" then Returns (compareNumeric actual expected float_leb)
  else if operator =s "contains" then let! s := Sprint actual st in Returns (strings.Contains s (TrimQuotes expected))
  else if operator =s "matches" then
    let! s := Sprint actual st in Returns (default false (MatchString (TrimQuotes expected) s))
  else Returns false.

(** A condition that is not three words counts as true. *)
Definition evaluateCondition (payload : option loc) (condition : string) (st : Store) : outcome bool :=
  match Fields condition with
  | [fieldPath; operator; expectedValue] =>
      match getValueByPath payload fieldPath st with
      | HNil => Returns false
      | actual => compareHvals actual operator expectedValue st
      end
  | _ => Returns true
  end.

(** ** Messages and transformations *)

(** Headers are only read; the metadata map is shared by all copies of a message. *)
Record Message := mkMessage {
  M_ID : string; M_Topic : string; M_Payload : list byte; M_QoS : Z;
  M_Headers : gmap string string; M_Metadata : option loc; M_Timestamp : Time;
  M_SourceType : string; M_SourceID : string; M_DestinationType : string; M_DestinationID : string }.

Record JSONTransformation := mkJSONTransformation {
  Tr_Type : string; Tr_SourcePath : string; Tr_TargetPath : string; Tr_Value : hval;
  Tr_Condition : string; Tr_Operation : string; Tr_DefaultValue : hval; Tr_Template : string;
  Tr_Parameters : option loc }.

Definition is_nil (v : hval) : bool := match v with HNil => true | _ => false end.

(** The maps are visited in the order of [map_to_list]. *)
Definition applyTemplate (template : string) (payload : option loc) (msg : Message) (st : Store) : outcome string :=
  let entries m := map_to_list (match m with Some l => cell l st | None => ∅ end) in
  let replaceValues prefix m acc :=
    foldl (λ o e, let! result := o in
             let! s := Sprint e.2 st in
             Returns (ReplaceAll result ("${" +:+ prefix +:+ e.1 +:+ "}")%string s)) acc (entries m) in
  let! result := replaceValues "" payload (Returns template) in
  let result := ReplaceAll result "${topic}" (M_Topic msg) in
  let result := ReplaceAll result "${source_id}" (M_SourceID msg) in
  let result := ReplaceAll result "${timestamp}" (FormatRFC3339 (M_Timestamp msg)) in
  let result := ReplaceAll result "${unix_timestamp}" (pretty (M_Timestamp msg / Second)) in
  let result := foldl (λ result e, ReplaceAll result ("${headers." +:+ e.1 +:+ "}")%string e.2) result
                  (map_to_list (M_Headers msg)) in
  replaceValues "metadata." (M_Metadata msg) (Returns result).

Context (jparseText : list byte → option json).

Definition applyMapTransformation (payload : option loc) (t : JSONTransformation) (st : Store) : outcome Store :=
  let sourceValue := getValueByPath payload (Tr_SourcePath t) st in
  let sourceValue := if is_nil sourceValue && negb (is_nil (Tr_DefaultValue t)) then Tr_DefaultValue t else sourceValue in
  if negb (is_nil sourceValue) then setValueByPath payload (Tr_TargetPath t) sourceValue st else Returns st.

Definition applyFilterTransformation (payload : option loc) (t : JSONTransformation) (st : Store) : outcome Store :=
  if Tr_Condition t <>s "" then
    let! b := evaluateCondition payload (Tr_Condition t) st in
    Returns (if b then st else removeFieldByPath payload (Tr_TargetPath t) st)
  else Returns st.

Definition applyEnrichTransformation (payload : option loc) (t : JSONTransformation) (msg : Message) (now : Time)
    (st : Store) : outcome Store :=
  let! enrichValue :=
    if negb (is_nil (Tr_Value t)) then Returns (Tr_Value t)
    else if Tr_Template t <>s "" then let! s := applyTemplate (Tr_Template t) payload msg st in Returns (HString s)
    else if Tr_TargetPath t =s "timestamp" then Returns (HInt (now / Second))
    else if Tr_TargetPath t =s "iso_timestamp" then Returns (HString (FormatRFC3339 now))
    else if Tr_TargetPath t =s "topic" then Returns (HString (M_Topic msg))
    else if Tr_TargetPath t =s "source_id" then Returns (HString (M_SourceID msg))
    else Returns (Tr_DefaultValue t) in
  if negb (is_nil enrichValue) then setValueByPath payload (Tr_TargetPath t) enrichValue st else Returns st.

Definition applyExtractTransformation (payload : option loc) (t : JSONTransformation) (st : Store) : outcome Store :=
  match getValueByPath payload (Tr_SourcePath t) st with
  | HString jsonStr =>
      match jparseText (bytes_of_string jsonStr) ≫= λ j, fromJSON j st with
      | Some (parsed, st) => setValueByPath payload (Tr_TargetPath t) parsed st
      | None => Returns st
      end
  | _ => Returns st
  end.

Definition applyTemplateTransformation (payload : option loc) (t : JSONTransformation) (msg : Message) (st : Store)
    : outcome Store :=
  if Tr_Template t =s "" then Returns st
  else
    let! result := applyTemplate (Tr_Template t) payload msg st in
    setValueByPath payload (Tr_TargetPath t) (HString result) st.

(** The error, if any, and the store. *)
Definition applyTransformation (payload : option loc) (t : JSONTransformation) (msg : Message) (now : Time)
    (st : Store) : outcome (option string * Store) :=
  let ok (o : outcome Store) : outcome (option string * Store) := let! st := o in Returns (None, st) in
  if Tr_Type t =s "map" then ok (applyMapTransformation payload t st)
  else if Tr_Type t =s "filter" then ok (applyFilterTransformation payload t st)
  else if Tr_Type t =s "enrich" then ok (applyEnrichTransformation payload t msg now st)
  else if Tr_Type t =s "extract" then ok (applyExtractTransformation payload t st)
  else if Tr_Type t =s "template" then ok (applyTemplateTransformation payload t msg st)
  else Returns (Some ("unknown transformation type: " +:+ Tr_Type t)%string, st).

(** ** The processors *)

Record JSONProcessor := mkJSONProcessor {
  jp_id : string; jp_name : string; jp_transformations : list JSONTransformation; jp_config : option loc }.
Definition NewJSONProcessor (id name : string) (transformations : list JSONTransformation) (st : Store)
    : JSONProcessor * Store :=
  let '(l, st) := alloc ∅ st in (mkJSONProcessor id name transformations (Some l), st).

(** The payload as a map: the text [null] leaves the map nil, other text that is no object is wrapped. *)
Definition parsePayload (b : list byte) (st : Store) : option loc * Store :=
  let wrap := let '(l, st) := alloc {[ "raw_data" := HString (string_of_bytes b) ]} st in (Some l, st) in
  match jparseText b with
  | Some JNull => (None, st)
  | Some (JObject l) =>
      match fromJSON (JObject l) st with
      | Some (HMap r, st) => (r, st)
      | _ => wrap
      end
  | _ => wrap
  end.

Context (jsonText : json → list byte).

Fixpoint applyAll (payload : option loc) (ts : list JSONTransformation) (msg : Message) (now : Time) (st : Store)
    : outcome (option string * Store) :=
  match ts with
  | [] => Returns (None, st)
  | t :: ts =>
      let! '(err, st) := applyTransformation payload t msg now st in
      match err with
      | None => applyAll payload ts msg now st
      | Some e => Returns (Some ("transformation failed: " +:+ e)%string, st)
      end
  end.

(** The new message has the metadata map of the old one, which is written to. *)
Definition processed (id : string) (payload : list byte) (msg : Message) (now : Time) (st : Store) : outcome (Message * Store) :=
  let '(metadata, st) := match M_Metadata msg with
                         | Some l => (Some l, st)
                         | None => let '(l, st) := alloc ∅ st in (Some l, st)
                         end in
  let! st := mapSet metadata "processed_by" (HString id) st in
  let! st := mapSet metadata "processed_at" (HTime now) st in
  Returns (mkMessage (M_ID msg) (M_Topic msg) payload (M_QoS msg) (M_Headers msg) metadata (M_Timestamp msg)
             (M_SourceType msg) (M_SourceID msg) (M_DestinationType msg) (M_DestinationID msg), st).

Definition JSONProcess (jp : JSONProcessor) (msg : Message) (now : Time) (st : Store) : outcome (result Message * Store) :=
  let '(payload, st) := parsePayload (M_Payload msg) st in
  let! '(err, st) := applyAll payload (jp_transformations jp) msg now st in
  match err with
  | Some e => Returns (Err e, st)
  | None =>
      match toJSON (S (size (cells st))) st (HMap payload) with
      | None => Returns (Err "failed to marshal processed payload", st)
      | Some j => let! '(msg, st) := processed (jp_id jp) (jsonText j) msg now st in Returns (Ok msg, st)
      end
  end.

(** Decode a transformation; the values are kept as trees until the fields have been read. *)
Definition decTree (j : json) (_ : json) : option json := Some j.
Definition decTransformation (j : json) (st : Store) : option (JSONTransformation * Store) :=
  l ← fieldsOf j;
  type ← field decString "" "type" l;
  source ← field decString "" "source_path" l;
  target ← field decString "" "target_path" l;
  value ← field decTree JNull "value" l;
  condition ← field decString "" "condition" l;
  operation ← field decString "" "operation" l;
  defaultValue ← field decTree JNull "default_value" l;
  template ← field decString "" "template" l;
  parameters ← field decTree JNull "parameters" l;
  '(value, st) ← fromJSON value st;
  '(defaultValue, st) ← fromJSON defaultValue st;
  '(parameters, st) ← fromJSON parameters st;
  match parameters with
  | HNil => Some (mkJSONTransformation type source target value condition operation defaultValue template None, st)
  | HMap m => Some (mkJSONTransformation type source target value condition operation defaultValue template m, st)
  | _ => None
  end.

(** The value of a key of a configuration, when it is a string. *)
Definition stringAt (config : option loc) (k : string) (st : Store) : option string :=
  match mapGet config k st with Some (HString s) => Some s | _ => None end.

(** Identifier and name are set even when the transformations are refused. *)
Definition JSONSetConfiguration (config : option loc) (jp : JSONProcessor) (st : Store)
    : option string * JSONProcessor * Store :=
  let id := default (jp_id jp) (stringAt config "id" st) in
  let name := default (jp_name jp) (stringAt config "name" st) in
  let jp := mkJSONProcessor id name (jp_transformations jp) (jp_config jp) in
  let setConfig jp st :=
    match mapGet config "config" st with
    | Some (HMap m) => mkJSONProcessor (jp_id jp) (jp_name jp) (jp_transformations jp) m
    | _ => jp
    end in
  match mapGet config "transformations" st with
  | None => (None, setConfig jp st, st)
  | Some v =>
      match toJSON (S (size (cells st))) st v with
      | None => (Some "failed to marshal transformations", jp, st)
      | Some j =>
          match (j' ← jparseText (jsonText j);
                 match j' with JArray l => fromAll decTransformation l st | JNull => Some ([], st) | _ => None end) with
          | None => (Some "failed to unmarshal transformations", jp, st)
          | Some (ts, st) => (None, setConfig (mkJSONProcessor id name ts (jp_config jp)) st, st)
          end
      end
  end.

Record PlainTextProcessor := mkPlainTextProcessor { ptp_id : string; ptp_name : string; ptp_config : option loc }.
Definition NewPlainTextProcessor (id name : string) (st : Store) : PlainTextProcessor * Store :=
  let '(l, st) := alloc ∅ st in (mkPlainTextProcessor id name (Some l), st).

(** The keys of the object are written in order. *)
Definition PlainTextProcess (ptp : PlainTextProcessor) (msg : Message) (now : Time) (st : Store)
    : outcome (result Message * Store) :=
  let j := JObject [("length", JInt (Z.of_nat (length (M_Payload msg))));
                    ("raw_text", JString (string_of_bytes (M_Payload msg)));
                    ("timestamp", JString (FormatRFC3339 (M_Timestamp msg)));
                    ("topic", JString (M_Topic msg))] in
  let! '(msg, st) := processed (ptp_id ptp) (jsonText j) msg now st in
  Returns (Ok msg, st).

Definition PlainTextSetConfiguration (config : option loc) (ptp : PlainTextProcessor) (st : Store) : PlainTextProcessor :=
  mkPlainTextProcessor (default (ptp_id ptp) (stringAt config "id" st)) (default (ptp_name ptp) (stringAt config "name" st))
    (match mapGet config "config" st with Some (HMap m) => m | _ => ptp_config ptp end).
End values.
