(* ===== verification/IntegrationEngine.v ===== *)
(** * IntegrationEngine: bridges between the broker and external systems (pkg/integration/engine.go)

    The engine keeps bridges, connectors and data processors, hands every message to the bridges that
    apply and counts what becomes of it.  Connectors and processors are used through interfaces. *)

From S2P Require Import Prelude GoLib GoValue GoJSON Integration.
Local Open Scope emqx_scope.
Local Open Scope Z_scope.

(** ** Interfaces *)

Class DataProcessor `{GoFloat} (P : Type) := {
  dp_ID : P → string;
  dp_Process : P → Message → Time → Store → outcome (result Message * Store);
}.

(** A connector changes its state when it connects, disconnects and sends. *)
Class BridgeConnector `{GoFloat} (C : Type) := {
  bc_ID : C → string;
  bc_IsConnected : C → bool;
  bc_Connect : C → C * option string;
  bc_Disconnect : C → C * option string;
  bc_Send : Message → Store → C → C * option string;
}.

Section engine.
Context `{GoFloat} {P C : Type} `{!DataProcessor P} `{!BridgeConnector C}.

(** ** Data *)

Record BridgeMetrics := mkBridgeMetrics {
  MessagesProcessed : Z; MessagesSucceeded : Z; MessagesFailed : Z; BytesProcessed : Z;
  BM_AverageLatency : float64; LastActivity : Time; ErrorRate : float64 }.
Definition zeroBridgeMetrics : BridgeMetrics := mkBridgeMetrics 0 0 0 0 (float_of_int 0) 0 (float_of_int 0).

Record Bridge := mkBridge {
  B_ID : string; B_Name : string; B_Description : string; B_Type : string; B_Direction : string;
  B_SourceConnector : string; B_TargetConnector : string; B_DataProcessor : string;
  B_Configuration : gmap string hval; B_Status : string; B_Metrics : BridgeMetrics;
  B_CreatedAt : Time; B_UpdatedAt : Time }.

Definition with_status (status : string) (now : Time) (b : Bridge) : Bridge :=
  mkBridge (B_ID b) (B_Name b) (B_Description b) (B_Type b) (B_Direction b) (B_SourceConnector b) (B_TargetConnector b)
    (B_DataProcessor b) (B_Configuration b) status (B_Metrics b) (B_CreatedAt b) now.

Record IntegrationMetrics := mkIntegrationMetrics {
  TotalBridges : Z; ActiveBridges : Z; TotalConnectors : Z; ConnectedSources : Z; TotalMessages : Z;
  IM_BridgeMetrics : gmap string BridgeMetrics }.

Record DataIntegrationEngine := mkEngine {
  bridges : gmap string Bridge;
  ie_connectors : gmap string C;
  processors : gmap string P;
  ie_metrics : IntegrationMetrics;
  cancelled : bool;
}.
Implicit Types die : DataIntegrationEngine.

Definition NewDataIntegrationEngine : DataIntegrationEngine :=
  mkEngine ∅ ∅ ∅ (mkIntegrationMetrics 0 0 0 0 0 ∅) false.

Definition set_bridges (b : gmap string Bridge) (m : IntegrationMetrics) die : DataIntegrationEngine :=
  mkEngine b (ie_connectors die) (processors die) m (cancelled die).
Definition set_connectors (c : gmap string C) die : DataIntegrationEngine :=
  mkEngine (bridges die) c (processors die) (ie_metrics die) (cancelled die).
Definition count_bridges (total active : Z) (m : IntegrationMetrics) : IntegrationMetrics :=
  mkIntegrationMetrics (TotalBridges m + total) (ActiveBridges m + active) (TotalConnectors m) (ConnectedSources m)
    (TotalMessages m) (IM_BridgeMetrics m).

(** ** Bridges *)

Definition validateBridge (b : Bridge) : option string :=
  if B_ID b =s "" then Some "bridge ID is required"
  else if B_Name b =s "" then Some "bridge name is required"
  else if B_Type b =s "" then Some "bridge type is required"
  else if B_Direction b =s "" then Some "bridge direction is required"
  else if negb ((B_Direction b =s "ingress") || (B_Direction b =s "egress") || (B_Direction b =s "bidirectional"))
  then Some ("invalid bridge direction: " +:+ B_Direction b)%string
  else None.

(** Every operation answers the error, if any, and the engine. *)
Definition CreateBridge (b : Bridge) (now : Time) die : option string * DataIntegrationEngine :=
  match bridges die !! B_ID b with
  | Some _ => (Some ("bridge with ID " +:+ B_ID b +:+ " already exists")%string, die)
  | None =>
      match validateBridge b with
      | Some e => (Some ("invalid bridge configuration: " +:+ e)%string, die)
      | None =>
          let b := mkBridge (B_ID b) (B_Name b) (B_Description b) (B_Type b) (B_Direction b) (B_SourceConnector b)
                     (B_TargetConnector b) (B_DataProcessor b) (B_Configuration b) "disabled" zeroBridgeMetrics now now in
          (None, set_bridges (<[B_ID b := b]> (bridges die)) (count_bridges 1 0 (ie_metrics die)) die)
      end
  end.

Definition notFound (kind id : string) : string := (kind +:+ " " +:+ id +:+ " not found")%string.

Definition GetBridge (id : string) die : result Bridge :=
  match bridges die !! id with Some b => Ok b | None => Err (notFound "bridge" id) end.
Definition ListBridges die : list Bridge := (map_to_list (bridges die)).*2.

(** The status is taken from the update. *)
Definition UpdateBridge (id : string) (u : Bridge) (now : Time) die : option string * DataIntegrationEngine :=
  match bridges die !! id with
  | None => (Some (notFound "bridge" id), die)
  | Some existing =>
      let u := mkBridge (B_ID existing) (B_Name u) (B_Description u) (B_Type u) (B_Direction u) (B_SourceConnector u)
                 (B_TargetConnector u) (B_DataProcessor u) (B_Configuration u) (B_Status u) (B_Metrics existing)
                 (B_CreatedAt existing) now in
      match validateBridge u with
      | Some e => (Some ("invalid bridge configuration: " +:+ e)%string, die)
      | None => (None, set_bridges (<[id := u]> (bridges die)) (ie_metrics die) die)
      end
  end.

(** [stopBridge] does nothing yet. *)
Definition stopBridge (id : string) : option string := None.

Definition DeleteBridge (id : string) die : option string * DataIntegrationEngine :=
  match bridges die !! id with
  | None => (Some (notFound "bridge" id), die)
  | Some _ =>
      match stopBridge id with
      | Some e => (Some ("failed to stop bridge: " +:+ e)%string, die)
      | None =>
          let m := ie_metrics die in
          (None, set_bridges (delete id (bridges die))
                   (mkIntegrationMetrics (TotalBridges m - 1) (ActiveBridges m) (TotalConnectors m) (ConnectedSources m)
                      (TotalMessages m) (delete id (IM_BridgeMetrics m))) die)
      end
  end.

(** Connect a connector that is registered and not connected. *)
Definition connectIfNeeded (id : string) die : option string * DataIntegrationEngine :=
  if id =s "" then (None, die)
  else
    match ie_connectors die !! id with
    | None => (None, die)
    | Some c =>
        if bc_IsConnected c then (None, die)
        else let '(c, err) := bc_Connect c in (err, set_connectors (<[id := c]> (ie_connectors die)) die)
    end.

Definition startBridge (b : Bridge) die : option string * DataIntegrationEngine :=
  let '(err, die) := connectIfNeeded (B_SourceConnector b) die in
  match err with
  | Some e => (Some ("failed to connect source connector: " +:+ e)%string, die)
  | None =>
      let '(err, die) := connectIfNeeded (B_TargetConnector b) die in
      match err with
      | Some e => (Some ("failed to connect target connector: " +:+ e)%string, die)
      | None => (None, die)
      end
  end.

Definition EnableBridge (id : string) (now : Time) die : option string * DataIntegrationEngine :=
  match bridges die !! id with
  | None => (Some (notFound "bridge" id), die)
  | Some b =>
      if B_Status b =s "enabled" then (None, die)
      else
        let '(err, die) := startBridge b die in
        match err with
        | Some e => (Some ("failed to start bridge: " +:+ e)%string, die)
        | None =>
            (None, set_bridges (<[id := with_status "enabled" now b]> (bridges die)) (count_bridges 0 1 (ie_metrics die)) die)
        end
  end.

Definition DisableBridge (id : string) (now : Time) die : option string * DataIntegrationEngine :=
  match bridges die !! id with
  | None => (Some (notFound "bridge" id), die)
  | Some b =>
      if B_Status b =s "disabled" then (None, die)
      else
        match stopBridge id with
        | Some e => (Some ("failed to stop bridge: " +:+ e)%string, die)
        | None =>
            (None, set_bridges (<[id := with_status "disabled" now b]> (bridges die)) (count_bridges 0 (-1) (ie_metrics die)) die)
        end
  end.

(** ** Connectors and processors *)

Definition RegisterConnector (c : C) die : option string * DataIntegrationEngine :=
  match ie_connectors die !! bc_ID c with
  | Some _ => (Some ("connector with ID " +:+ bc_ID c +:+ " already exists")%string, die)
  | None =>
      let m := ie_metrics die in
      (None, mkEngine (bridges die) (<[bc_ID c := c]> (ie_connectors die)) (processors die)
               (mkIntegrationMetrics (TotalBridges m) (ActiveBridges m) (TotalConnectors m + 1) (ConnectedSources m)
                  (TotalMessages m) (IM_BridgeMetrics m)) (cancelled die))
  end.
Definition GetConnector (id : string) die : result C :=
  match ie_connectors die !! id with Some c => Ok c | None => Err (notFound "connector" id) end.
Definition ListConnectors die : list C := (map_to_list (ie_connectors die)).*2.

Definition RegisterDataProcessor (p : P) die : option string * DataIntegrationEngine :=
  match processors die !! dp_ID p with
  | Some _ => (Some ("data processor with ID " +:+ dp_ID p +:+ " already exists")%string, die)
  | None => (None, mkEngine (bridges die) (ie_connectors die) (<[dp_ID p := p]> (processors die)) (ie_metrics die) (cancelled die))
  end.

(** ** Messages *)

Definition matchTopic (filter topic : string) : bool := (filter =s "#") || (filter =s topic).

Definition shouldProcessMessage (b : Bridge) (msg : Message) : bool :=
  match B_Configuration b !! "topic_filter" with
  | Some (HString topicFilter) => matchTopic topicFilter (M_Topic msg)
  | _ => true
  end.

(** The bridges for which a goroutine is started, and the engine. *)
Definition ProcessMessage (msg : Message) die : list Bridge * DataIntegrationEngine :=
  let m := ie_metrics die in
  let die := set_bridges (bridges die)
               (mkIntegrationMetrics (TotalBridges m) (ActiveBridges m) (TotalConnectors m) (ConnectedSources m)
                  (i64 (TotalMessages m + 1)) (IM_BridgeMetrics m)) die in
  (go_range (λ _ b tasks,
     if B_Status b <>s "enabled" then tasks
     else if shouldProcessMessage b msg then tasks ++ [b] else tasks) (bridges die) [], die).

Definition updateBridgeMetrics (id : string) (success : bool) (bytes : Z) (latency : Duration) (now : Time) die
    : DataIntegrationEngine :=
  let m := default zeroBridgeMetrics (IM_BridgeMetrics (ie_metrics die) !! id) in
  let processed := i64 (MessagesProcessed m + 1) in
  let succeeded := if success then i64 (MessagesSucceeded m + 1) else MessagesSucceeded m in
  let failed := if success then MessagesFailed m else i64 (MessagesFailed m + 1) in
  let ms := float_div (float_of_int latency) (float_of_int 1000000) in
  let average := if processed =? 1 then ms else float_div (float_add (BM_AverageLatency m) ms) (float_of_int 2) in
  let rate := if 0 <? processed
              then float_mul (float_div (float_of_int failed) (float_of_int processed)) (float_of_int 100)
              else ErrorRate m in
  let m := mkBridgeMetrics processed succeeded failed (i64 (BytesProcessed m + bytes)) average now rate in
  let im := ie_metrics die in
  set_bridges (bridges die)
    (mkIntegrationMetrics (TotalBridges im) (ActiveBridges im) (TotalConnectors im) (ConnectedSources im) (TotalMessages im)
       (<[id := m]> (IM_BridgeMetrics im))) die.

(** The body of a goroutine; [start], [now]: the clock when it starts and when it ends. *)
Definition processThroughBridge (b : Bridge) (msg : Message) (start now : Time) die (st : Store)
    : outcome (DataIntegrationEngine * Store) :=
  let latency := now - start in
  let! '(r, st) :=
    if B_DataProcessor b =s "" then Returns (Ok msg, st)
    else match processors die !! B_DataProcessor b with
         | Some p => dp_Process p msg start st
         | None => Returns (Ok msg, st)
         end in
  match r with
  | Err _ => Returns (updateBridgeMetrics (B_ID b) false 0 latency now die, st)
  | Ok processedMsg =>
      let bytes := Z.of_nat (length (M_Payload processedMsg)) in
      let '(err, die) :=
        if B_TargetConnector b =s "" then (None, die)
        else match ie_connectors die !! B_TargetConnector b with
             | None => (None, die)
             | Some c => let '(c, err) := bc_Send processedMsg st c in
                         (err, set_connectors (<[B_TargetConnector b := c]> (ie_connectors die)) die)
             end in
      let success := match err with Some _ => false | None => true end in
      Returns (updateBridgeMetrics (B_ID b) success bytes latency now die, st)
  end.

(** ** Metrics and shutdown *)

Definition updateMetrics die : DataIntegrationEngine :=
  let activeCount := go_range (λ _ b n, if B_Status b =s "enabled" then n + 1 else n) (bridges die) 0 in
  let connectedCount := go_range (λ _ c n, if bc_IsConnected c then n + 1 else n) (ie_connectors die) 0 in
  let m := ie_metrics die in
  set_bridges (bridges die)
    (mkIntegrationMetrics (TotalBridges m) activeCount (TotalConnectors m) connectedCount (TotalMessages m) (IM_BridgeMetrics m)) die.
Definition GetMetrics die : IntegrationMetrics * DataIntegrationEngine :=
  let die := updateMetrics die in (ie_metrics die, die).

Definition Close die : DataIntegrationEngine :=
  mkEngine (bridges die)
    (go_range (λ id c acc, if bc_IsConnected c then <[id := (bc_Disconnect c).1]> acc else acc) (ie_connectors die) (ie_connectors die))
    (processors die) (ie_metrics die) true.
End engine.

Arguments DataIntegrationEngine {_} P C.
