(* ===== verification/IntegrationProps.v ===== *)
(** * IntegrationProps: properties of the data integration engine and its processors (pkg/integration) *)

From S2P Require Import Prelude GoLib GoValue GoJSON RuleSQL Integration IntegrationEngine.
Local Open Scope emqx_scope.
Local Open Scope Z_scope.

(** ** The engine in every run *)

Section engine.
Context `{GoFloat} {P C : Type} `{!DataProcessor P} `{!BridgeConnector C}.
Implicit Types die : DataIntegrationEngine P C.

(** One call or goroutine. *)
Inductive engine_step : DataIntegrationEngine P C → DataIntegrationEngine P C → Prop :=
  | ES_Create b now die e die' : CreateBridge b now die = (e, die') → engine_step die die'
  | ES_Update id u now die e die' : UpdateBridge id u now die = (e, die') → engine_step die die'
  | ES_Delete id die e die' : DeleteBridge id die = (e, die') → engine_step die die'
  | ES_Enable id now die e die' : EnableBridge id now die = (e, die') → engine_step die die'
  | ES_Disable id now die e die' : DisableBridge id now die = (e, die') → engine_step die die'
  | ES_Connector c die e die' : RegisterConnector c die = (e, die') → engine_step die die'
  | ES_Processor p die e die' : RegisterDataProcessor p die = (e, die') → engine_step die die'
  | ES_Message msg die tasks die' : ProcessMessage msg die = (tasks, die') → engine_step die die'
  | ES_Bridge b msg start now die st die' st' :
      processThroughBridge b msg start now die st = Returns (die', st') → engine_step die die'
  | ES_Metrics die m die' : GetMetrics die = (m, die') → engine_step die die'
  | ES_Close die : engine_step die (Close die).

(** Bridges are valid and stored under their identifiers, the totals are the sizes of the tables, and a
    bridge has processed what succeeded and what failed (in 64 bits). *)
Record engine_wf die : Prop := {
  ew_bridges id b : bridges die !! id = Some b → B_ID b = id ∧ validateBridge b = None;
  ew_total : TotalBridges (ie_metrics die) = Z.of_nat (size (bridges die));
  ew_connectors : TotalConnectors (ie_metrics die) = Z.of_nat (size (ie_connectors die));
  ew_metrics id m : IM_BridgeMetrics (ie_metrics die) !! id = Some m →
    MessagesProcessed m = i64 (MessagesSucceeded m + MessagesFailed m);
}.

Lemma i64_succ a b : i64 (i64 (a + b) + 1) = i64 (i64 (a + 1) + b) ∧ i64 (i64 (a + b) + 1) = i64 (a + i64 (b + 1)).
Proof.
  unfold i64. split.
  - replace ((a + b + 2 ^ 63) mod 2 ^ 64 - 2 ^ 63 + 1 + 2 ^ 63) with ((a + b + 2 ^ 63) mod 2 ^ 64 + 1) by lia.
    replace ((a + 1 + 2 ^ 63) mod 2 ^ 64 - 2 ^ 63 + b + 2 ^ 63) with ((a + 1 + 2 ^ 63) mod 2 ^ 64 + b) by lia.
    rewrite !Zplus_mod_idemp_l. f_equal. f_equal. lia.
  - replace ((a + b + 2 ^ 63) mod 2 ^ 64 - 2 ^ 63 + 1 + 2 ^ 63) with ((a + b + 2 ^ 63) mod 2 ^ 64 + 1) by lia.
    replace (a + ((b + 1 + 2 ^ 63) mod 2 ^ 64 - 2 ^ 63) + 2 ^ 63) with ((b + 1 + 2 ^ 63) mod 2 ^ 64 + a) by lia.
    rewrite !Zplus_mod_idemp_l. f_equal. f_equal. lia.
Qed.

(** Operations that keep the bridges and only touch metrics and connectors in the allowed way. *)
Lemma set_connectors_wf id c c' die :
  ie_connectors die !! id = Some c → engine_wf die → engine_wf (set_connectors (<[id := c']> (ie_connectors die)) die).
Proof.
  intros Hc [W1 W2 W3 W4]. split; try done. cbn [set_connectors ie_connectors ie_metrics].
  rewrite W3. rewrite map_size_insert_Some; [done|]. by eexists.
Qed.

Lemma updateBridgeMetrics_wf id success bytes latency now die :
  engine_wf die → engine_wf (updateBridgeMetrics id success bytes latency now die).
Proof.
  intros [W1 W2 W3 W4]. split; try done. intros id' m. cbn [updateBridgeMetrics set_bridges ie_metrics IM_BridgeMetrics].
  rewrite lookup_insert_Some. intros [[<- <-]|[_ Hm]]; [|by eapply W4]. simpl.
  assert (Hm : ∀ m, IM_BridgeMetrics (ie_metrics die) !! id = Some m ∨ m = zeroBridgeMetrics →
    MessagesProcessed m = i64 (MessagesSucceeded m + MessagesFailed m)) by (intros m [?| ->]; [by eapply W4|done]).
  specialize (Hm (default zeroBridgeMetrics (IM_BridgeMetrics (ie_metrics die) !! id))).
  rewrite Hm by (destruct (IM_BridgeMetrics (ie_metrics die) !! id); auto).
  destruct success; apply i64_succ.
Qed.

Lemma connectIfNeeded_wf id die e die' :
  connectIfNeeded id die = (e, die') → engine_wf die → engine_wf die' ∧ bridges die' = bridges die.
Proof.
  unfold connectIfNeeded. intros E W. repeat case_match; simplify_eq; try done.
  split; [by eapply set_connectors_wf|done].
Qed.

Lemma startBridge_wf b die e die' :
  startBridge b die = (e, die') → engine_wf die → engine_wf die' ∧ bridges die' = bridges die.
Proof.
  unfold startBridge. intros E W. destruct (connectIfNeeded (B_SourceConnector b) die) as [e1 die1] eqn:E1.
  destruct (connectIfNeeded_wf _ _ _ _ E1 W) as [W1 B1]. destruct e1; [by simplify_eq|].
  destruct (connectIfNeeded (B_TargetConnector b) die1) as [e2 die2] eqn:E2.
  destruct (connectIfNeeded_wf _ _ _ _ E2 W1) as [W2 B2]. destruct e2; simplify_eq; (split; [done|congruence]).
Qed.

(** Replacing a bridge by a valid one with its identifier. *)
Lemma put_bridge_wf id b b' a die :
  bridges die !! id = Some b → B_ID b' = id → validateBridge b' = None → engine_wf die →
  engine_wf (set_bridges (<[id := b']> (bridges die)) (count_bridges 0 a (ie_metrics die)) die).
Proof.
  intros Hb Hid Hv [W1 W2 W3 W4]. split; try done; cbn [set_bridges bridges ie_metrics count_bridges TotalBridges].
  - intros id' b0. rewrite lookup_insert_Some. intros [[<- <-]|[_ ?]]; [done|by apply W1].
  - rewrite map_size_insert_Some by (by eexists). rewrite W2. lia.
Qed.

Lemma close_size die : size (ie_connectors (Close die)) = size (ie_connectors die).
Proof.
  unfold Close, go_range. cbn [ie_connectors].
  assert (Hf : ∀ (l : list (string * C)) (acc : gmap string C), (∀ k v, (k, v) ∈ l → is_Some (acc !! k)) →
    size (foldl (λ s kv, if bc_IsConnected kv.2 then <[kv.1 := (bc_Disconnect kv.2).1]> s else s) acc l) = size acc).
  { induction l as [|[k v] l IH]; intros acc Hl; [done|]. simpl. rewrite IH.
    - case_match; [|done]. apply map_size_insert_Some. eapply Hl. by left.
    - intros k' v' Hin. case_match; [|eapply Hl; by right]. apply lookup_insert_is_Some'. right. eapply Hl. by right. }
  apply Hf. intros k v Hin. apply elem_of_map_to_list in Hin. by eexists.
Qed.

Lemma engine_step_wf die die' : engine_step die die' → engine_wf die → engine_wf die'.
Proof.
  destruct 1 as [b now die e die' E|id u now die e die' E|id die e die' E|id now die e die' E|id now die e die' E
    |c die e die' E|p die e die' E|msg die tasks die' E|b msg start now die st die' st' E|die m die' E|die]; intros W.
  - unfold CreateBridge in E. repeat case_match; simplify_eq; try done. destruct W as [W1 W2 W3 W4].
    split; try done; cbn [set_bridges bridges ie_metrics count_bridges TotalBridges].
    + intros id b0. rewrite lookup_insert_Some. intros [[<- <-]|[_ ?]]; [done|by apply W1].
    + rewrite map_size_insert_None by done. rewrite W2. lia.
  - unfold UpdateBridge in E. destruct (bridges die !! id) as [b|] eqn:Eb; [|by simplify_eq].
    match type of E with match validateBridge ?u' with _ => _ end = _ => set (u0 := u') in E end.
    destruct (validateBridge u0) eqn:Ev; [by simplify_eq|]. injection E as <- <-.
    destruct (put_bridge_wf id b u0 0 die Eb (proj1 (ew_bridges _ W _ _ Eb)) Ev W) as [W1 W2 W3 W4].
    destruct W as [V1 V2 V3 V4]. split; try done. cbn [set_bridges bridges ie_metrics count_bridges TotalBridges] in *. lia.
  - unfold DeleteBridge, stopBridge in E. repeat case_match; simplify_eq; try done. destruct W as [W1 W2 W3 W4].
    split; try done; cbn [set_bridges bridges ie_metrics TotalBridges IM_BridgeMetrics].
    + intros id' b0. rewrite lookup_delete_Some. intros [_ ?]. by apply W1.
    + rewrite map_size_delete_Some by (by eexists). rewrite W2.
      assert (size (bridges die) ≠ 0)%nat; [|lia]. apply map_size_ne_0_lookup. eauto.
    + intros id' m0. rewrite lookup_delete_Some. intros [_ ?]. by eapply W4.
  - unfold EnableBridge in E. destruct (bridges die !! id) as [b|] eqn:Eb; [|by simplify_eq].
    case_match; [by simplify_eq|]. destruct (startBridge b die) as [e1 die1] eqn:E1.
    destruct (startBridge_wf _ _ _ _ E1 W) as [W1 B1]. destruct e1; simplify_eq; [done|].
    eapply put_bridge_wf; [by rewrite B1|exact (proj1 (ew_bridges _ W _ _ Eb))|exact (proj2 (ew_bridges _ W _ _ Eb))|done].
  - unfold DisableBridge, stopBridge in E. destruct (bridges die !! id) as [b|] eqn:Eb; [|by simplify_eq].
    case_match; simplify_eq; [done|].
    eapply put_bridge_wf; [done|exact (proj1 (ew_bridges _ W _ _ Eb))|exact (proj2 (ew_bridges _ W _ _ Eb))|done].
  - unfold RegisterConnector in E. repeat case_match; simplify_eq; try done. destruct W as [W1 W2 W3 W4].
    split; try done; cbn [ie_connectors ie_metrics TotalConnectors]. rewrite map_size_insert_None by done. rewrite W3. lia.
  - unfold RegisterDataProcessor in E. repeat case_match; simplify_eq; try done. by destruct W.
  - unfold ProcessMessage in E. simplify_eq. by destruct W.
  - unfold processThroughBridge in E. apply outcome_bind_Returns in E as ([r st1] & _ & E). destruct r.
    + repeat case_match; simplify_eq; apply updateBridgeMetrics_wf; try done; by eapply set_connectors_wf.
    + simplify_eq. by apply updateBridgeMetrics_wf.
  - unfold GetMetrics in E. simplify_eq. by destruct W.
  - destruct W as [W1 W2 W3 W4]. split; try done. cbn [Close ie_metrics]. by rewrite close_size.
Qed.
End engine.

Lemma count_range {V} (c : V → bool) (m : gmap string V) :
  go_range (λ _ v n, if c v then n + 1 else n) m 0 = Z.of_nat (length (filter (λ v, c v = true) (map_to_list m).*2)).
Proof.
  unfold go_range. assert (Hf : ∀ (l : list (string * V)) n,
    foldl (λ n kv, if c kv.2 then n + 1 else n) n l = n + Z.of_nat (length (filter (λ v, c v = true) l.*2))).
  { induction l as [|[k v] l IH]; intros n; [simpl; lia|]. rewrite fmap_cons, filter_cons. cbn [foldl snd]. rewrite IH.
    destruct (c v) eqn:Ec; [rewrite decide_True by done|rewrite decide_False by done]; cbn [length]; lia. }
  by rewrite Hf.
Qed.

Lemma integration_invariant_wf `{GoFloat} {P C : Type} `{!DataProcessor P} `{!BridgeConnector C}
    (die : DataIntegrationEngine P C) : rtc engine_step NewDataIntegrationEngine die → engine_wf die.
Proof.
  intros Hr. remember NewDataIntegrationEngine as die0 eqn:E0.
  assert (W0 : engine_wf die0) by (subst; split; try done; intros ? ? Hx; cbn in Hx; by rewrite lookup_empty in Hx).
  clear E0. revert W0. induction Hr as [|a b c Hab _ IH]; [done|]. intros W. by eapply IH, engine_step_wf.
Qed.

(** C26. In every run of the engine, all bridges are valid and stored under their own identifier, the
    totals of bridges and connectors are the sizes of the tables, and for every bridge the messages
    processed are those that succeeded and those that failed; a reading of the metrics counts exactly
    the enabled bridges and connected connectors. *)
Theorem integration_invariant `{GoFloat} {P C : Type} `{!DataProcessor P} `{!BridgeConnector C}
    (die : DataIntegrationEngine P C) :
  rtc engine_step NewDataIntegrationEngine die →
  engine_wf die ∧
  ActiveBridges (GetMetrics die).1 = Z.of_nat (length (filter (λ b, B_Status b = "enabled") (ListBridges die))) ∧
  ConnectedSources (GetMetrics die).1 = Z.of_nat (length (filter (λ c, bc_IsConnected c = true) (ListConnectors die))).
Proof.
  intros Hr. split; [by apply integration_invariant_wf|].
  cbn [GetMetrics updateMetrics set_bridges ie_metrics fst ActiveBridges ConnectedSources].
  rewrite !count_range. split; [|done]. f_equal. unfold ListBridges. f_equal.
  apply list_filter_iff. intros b. by rewrite bool_decide_eq_true.
Qed.

(** ** Which bridges get a message *)

Lemma foldl_same {A B} (f g : B → A → B) l b : (∀ x y, f x y = g x y) → foldl f b l = foldl g b l.
Proof. intros Hfg. revert b. induction l as [|y l IH]; intros b; [done|]. simpl. by rewrite Hfg, IH. Qed.

(** A message is handed to exactly the enabled bridges whose topic filter is absent, is the single
    wildcard or equals the topic, each once; other wildcard filters match nothing, and only the count of
    messages changes. *)
Theorem message_targets_exact `{GoFloat} {P C : Type} `{!DataProcessor P} `{!BridgeConnector C}
    (die : DataIntegrationEngine P C) msg :
  engine_wf die →
  let '(tasks, die') := ProcessMessage msg die in
  NoDup (B_ID <$> tasks) ∧
  (∀ b, b ∈ tasks ↔ bridges die !! B_ID b = Some b ∧ B_Status b = "enabled" ∧
     match B_Configuration b !! "topic_filter" with
     | Some (HString f) => f = "#" ∨ f = M_Topic msg
     | _ => True
     end) ∧
  bridges die' = bridges die ∧ ie_connectors die' = ie_connectors die ∧
  TotalMessages (ie_metrics die') = i64 (TotalMessages (ie_metrics die) + 1).
Proof.
  intros W. unfold ProcessMessage. cbn [bridges set_bridges].
  set (c := λ (_ : string) b, (B_Status b =s "enabled") && shouldProcessMessage b msg).
  assert (E : go_range (λ _ b tasks, if B_Status b <>s "enabled" then tasks
      else if shouldProcessMessage b msg then tasks ++ [b] else tasks) (bridges die) [] =
    range_collect c (λ _ b, [b]) (bridges die)).
  { rewrite <- (app_nil_l (range_collect c _ _)), <- go_range_collect. unfold go_range.
    apply foldl_same. intros acc [k b]. unfold c. cbn [fst snd]. case_bool_decide; simpl; [|done]. by case_match. }
  rewrite E. split_and!; try done.
  - unfold range_collect. pose proof (NoDup_fst_map_to_list (bridges die)) as Hnd.
    assert (Hl : ∀ k b, (k, b) ∈ map_to_list (bridges die) → B_ID b = k)
      by (intros k b Hin%elem_of_map_to_list; by apply (ew_bridges _ W)).
    induction (map_to_list (bridges die)) as [|[k b] l IH]; [constructor|]. cbn [flat_map fst snd].
    apply NoDup_cons in Hnd as [Hk Hnd].
    assert (IH' : NoDup (B_ID <$> flat_map (λ kv, if c kv.1 kv.2 then [kv.2] else []) l))
      by (apply IH; [done|intros; apply Hl; by right]).
    case_match; [|done]. cbn [app]. rewrite fmap_cons. constructor; [|done].
    rewrite (Hl k b) by (by left). intros (b' & Eb & Hin)%list_elem_of_fmap.
    apply list_elem_of_In, in_flat_map in Hin as ([k' b''] & Hin & Hb'). cbn [fst snd] in Hb'.
    case_match; [|done]. destruct Hb' as [->|[]]. apply Hk, list_elem_of_fmap. exists (k', b').
    apply list_elem_of_In in Hin. split; [|done]. cbn [fst]. rewrite Eb. by apply Hl; right.
  - intros b. rewrite elem_of_range_collect. unfold c, shouldProcessMessage, matchTopic. split.
    + intros (k & b' & Hk & Hc & ->%list_elem_of_singleton). bool_prop.
      destruct (ew_bridges _ W _ _ Hk) as [<- _]. split_and!; try done.
      repeat case_match; try done. match goal with Ho : orb _ _ = true |- _ => apply orb_true_iff in Ho as [?|?] end; bool_prop; auto.
    + intros (Hb & Hs & Hf). exists (B_ID b), b. split_and!; [done| |by apply list_elem_of_singleton].
      rewrite bool_decide_eq_true_2 by done. simpl. repeat case_match; try done.
      apply orb_true_iff. rewrite !bool_decide_eq_true. done.
Qed.

(** ** Processors *)

Section processors.
Context `{GoFloat} (FormatRFC3339 formatTime : Time → string).
Context (floatJSON : float64 → option json) (timeJSON : Time → option json).
Context (float_leb : float64 → float64 → bool) (MatchString : string → string → option bool).
Context (jparseText : list byte → option json) (jsonText : json → list byte).
Context {C : Type} `{!BridgeConnector C}.

Abbreviation json_process :=
  (JSONProcess FormatRFC3339 formatTime floatJSON timeJSON float_leb MatchString jparseText jsonText).

(** The JSON processor behind the interface of the engine. *)
Definition jsonDataProcessor : DataProcessor JSONProcessor := {| dp_ID := jp_id; dp_Process := json_process |}.

(** Setting a value in a nil map panics, whatever the path. *)
Lemma setValueByPath_nil path v st : path ≠ "" → setValueByPath None path v st = Panics.
Proof.
  intros Hp. unfold setValueByPath. rewrite bool_decide_eq_false_2 by done.
  pose proof (Split_nonempty path dot) as Hne. destruct (strings.Split path dot) as [|p [|q parts]]; done.
Qed.

(** A transformation that has a value to set at some path. *)
Definition sets_value (t : JSONTransformation) : Prop :=
  Tr_TargetPath t ≠ "" ∧
  ((Tr_Type t = "enrich" ∧ Tr_Value t ≠ HNil) ∨ (Tr_Type t = "map" ∧ Tr_DefaultValue t ≠ HNil) ∨
   (Tr_Type t = "template" ∧ Tr_Template t ≠ "")).

Lemma is_nil_false v : v ≠ HNil → is_nil v = false.
Proof. by destruct v. Qed.

Lemma applyTemplate_not_blocked (o : outcome string) (k : string → outcome Store) :
  (∀ s, k s = Panics) → o ≠ Blocks → outcome_bind o k = Panics.
Proof. intros Hk Ho. destruct o; simpl; done. Qed.

Lemma Sprint_not_blocked v st : Sprint formatTime v st ≠ Blocks.
Proof. unfold Sprint. by case_match. Qed.

Lemma replace_not_blocked st (f : string → string * hval → string → string) l o :
  o ≠ Blocks →
  foldl (λ o e, let! result := o in let! s := Sprint formatTime e.2 st in Returns (f result e s)) o l ≠ Blocks.
Proof.
  revert o. induction l as [|e l IH]; intros o Ho; [done|]. cbn [foldl]. apply IH.
  destruct o; simpl; try done. pose proof (Sprint_not_blocked e.2 st). by destruct (Sprint formatTime e.2 st).
Qed.

Lemma applyTemplate_returns template payload msg st : applyTemplate FormatRFC3339 formatTime template payload msg st ≠ Blocks.
Proof.
  unfold applyTemplate. match goal with |- outcome_bind ?o _ ≠ _ => assert (Ho : o ≠ Blocks) end.
  { by apply (replace_not_blocked st (λ result e s, ReplaceAll result ("${" +:+ "" +:+ e.1 +:+ "}")%string s)). }
  match goal with |- outcome_bind ?o _ ≠ _ => destruct o; [|done|done] end. simpl.
  by apply (replace_not_blocked st (λ result e s, ReplaceAll result ("${" +:+ "metadata." +:+ e.1 +:+ "}")%string s)).
Qed.

Lemma applyTransformation_nil t msg now st :
  sets_value t →
  applyTransformation FormatRFC3339 formatTime float_leb MatchString jparseText None t msg now st = Panics.
Proof.
  intros (Hp & Ht). unfold applyTransformation. destruct Ht as [[-> Hv]|[[-> Hv]|[-> Hv]]]; simpl.
  - unfold applyEnrichTransformation. rewrite is_nil_false by done. simpl. rewrite is_nil_false by done. simpl.
    by rewrite setValueByPath_nil.
  - unfold applyMapTransformation. destruct (is_nil (getValueByPath None (Tr_SourcePath t) st)) eqn:En; simpl.
    + rewrite (is_nil_false (Tr_DefaultValue t)) by done. simpl. rewrite is_nil_false by done. simpl. by rewrite setValueByPath_nil.
    + rewrite En. simpl. by rewrite setValueByPath_nil.
  - unfold applyTemplateTransformation. rewrite bool_decide_eq_false_2 by done.
    rewrite applyTemplate_not_blocked; [done|intros s; by apply setValueByPath_nil|apply applyTemplate_returns].
Qed.

(** A payload that is the JSON text null brings the process down: when a bridge has a JSON processor
    whose first transformation sets a value, the goroutine that handles such a message panics, because
    decoding null leaves the payload map nil and the transformation writes to it. *)
Theorem null_payload_crashes (die : DataIntegrationEngine JSONProcessor C) b jp t ts msg start now st :
  B_DataProcessor b ≠ "" → processors die !! B_DataProcessor b = Some jp →
  jp_transformations jp = t :: ts → sets_value t → jparseText (M_Payload msg) = Some JNull →
  processThroughBridge (DataProcessor0 := jsonDataProcessor) b msg start now die st = Panics.
Proof.
  intros Hb Hp Hts Ht Hj. unfold processThroughBridge. rewrite bool_decide_eq_false_2 by done. rewrite Hp.
  cbn [dp_Process jsonDataProcessor]. unfold JSONProcess, parsePayload. rewrite Hj, Hts. cbn [applyAll].
  by rewrite applyTransformation_nil.
Qed.

(** What both processors do to the metadata of a message that has some. *)
Lemma processed_metadata id payload msg now st l m st' :
  M_Metadata msg = Some l → processed id payload msg now st = Returns (m, st') →
  M_Metadata m = Some l ∧ mapGet (Some l) "processed_by" st' = Some (HString id) ∧ M_Payload m = payload.
Proof.
  unfold processed. intros -> E. cbn in E. injection E as <- <-. split_and!; try done.
  cbn. unfold cell, write. cbn [cells]. rewrite lookup_insert_eq. cbn.
  unfold cell. cbn [cells]. rewrite lookup_insert_eq. cbn. rewrite lookup_insert_ne by done. by rewrite lookup_insert_eq.
Qed.

(** All bridges share the metadata of a message: when two of them process the same message, the two
    results have one metadata map, the original one, and the first result, too, says that it was
    processed by the second processor. *)
Theorem metadata_shared jp ptp msg l now now' st m1 st1 m2 st2 :
  M_Metadata msg = Some l →
  json_process jp msg now st = Returns (Ok m1, st1) →
  PlainTextProcess FormatRFC3339 jsonText ptp msg now' st1 = Returns (Ok m2, st2) →
  M_Metadata m1 = Some l ∧ M_Metadata m2 = Some l ∧
  mapGet (M_Metadata m1) "processed_by" st1 = Some (HString (jp_id jp)) ∧
  mapGet (M_Metadata m1) "processed_by" st2 = Some (HString (ptp_id ptp)).
Proof.
  intros Hl E1 E2. unfold JSONProcess in E1. destruct (parsePayload jparseText (M_Payload msg) st) as [payload st0].
  apply outcome_bind_Returns in E1 as ([err st0'] & _ & E1). destruct err; [done|].
  destruct (toJSON _ _ _ _ _) as [j|]; [|done]. apply outcome_bind_Returns in E1 as ([m st'] & Ep & E1).
  injection E1 as <- <-. destruct (processed_metadata _ _ _ _ _ _ _ _ Hl Ep) as (H1 & H2 & _).
  unfold PlainTextProcess in E2. apply outcome_bind_Returns in E2 as ([m' st''] & Ep' & E2).
  injection E2 as <- <-. destruct (processed_metadata _ _ _ _ _ _ _ _ Hl Ep') as (H3 & H4 & _).
  rewrite H1. done.
Qed.
End processors.

(** ** Concrete engines *)

Section witnesses.
Local Existing Instance intFloat.

(** A connector that is always connected and takes everything. *)
Definition sinkConnector : BridgeConnector string := {|
  bc_ID c := c; bc_IsConnected _ := true; bc_Connect c := (c, None); bc_Disconnect c := (c, None);
  bc_Send _ _ c := (c, None) |}.
Local Existing Instance sinkConnector.

Definition nullParse (b : list byte) : option json :=
  if bool_decide (b = bytes_of_string "null") then Some JNull else None.
Definition sampleProcessor : DataProcessor JSONProcessor :=
  jsonDataProcessor (λ _, "") (λ _, "") (λ _, None) (λ _, None) (λ _ _, false) (λ _ _, None) nullParse (λ _, []).
Local Existing Instance sampleProcessor.

Definition stampTransformation : JSONTransformation :=
  mkJSONTransformation "enrich" "" "source" (HString "mqtt") "" "" HNil "" None.
Definition sampleBridge : Bridge :=
  mkBridge "b1" "bridge" "" "kafka" "egress" "" "sink" "p1" {[ "topic_filter" := HString "t" ]} "disabled"
    zeroBridgeMetrics 0 0.
Definition sampleMessage (payload : string) (metadata : option loc) : Message :=
  mkMessage "m" "t" (bytes_of_string payload) 0 ∅ metadata 0 "mqtt" "c1" "" "".

Definition sampleEngine : DataIntegrationEngine JSONProcessor string :=
  let die := (RegisterDataProcessor (mkJSONProcessor "p1" "stamp" [stampTransformation] None) NewDataIntegrationEngine).2 in
  let die := (RegisterConnector "sink" die).2 in
  let die := (CreateBridge sampleBridge 0 die).2 in
  (EnableBridge "b1" 0 die).2.

Lemma sampleEngine_reachable : rtc engine_step NewDataIntegrationEngine sampleEngine.
Proof.
  unfold sampleEngine.
  eapply rtc_l; [eapply ES_Processor, surjective_pairing|].
  eapply rtc_l; [eapply ES_Connector, surjective_pairing|].
  eapply rtc_l; [eapply ES_Create, surjective_pairing|].
  eapply rtc_l; [eapply ES_Enable, surjective_pairing|]. apply rtc_refl.
Qed.

Lemma integration_invariant_witness :
  engine_wf sampleEngine ∧ ActiveBridges (GetMetrics sampleEngine).1 = 1.
Proof.
  destruct (integration_invariant sampleEngine sampleEngine_reachable) as (W & Ha & _). split; [exact W|].
  rewrite Ha. by vm_compute.
Defined.

Lemma message_targets_exact_witness :
  let '(tasks, _) := ProcessMessage (sampleMessage "x" None) sampleEngine in B_ID <$> tasks = ["b1"] ∧ NoDup (B_ID <$> tasks).
Proof.
  assert (W : engine_wf sampleEngine) by (apply integration_invariant_wf, sampleEngine_reachable).
  pose proof (message_targets_exact sampleEngine (sampleMessage "x" None) W) as Hm.
  destruct (ProcessMessage (sampleMessage "x" None) sampleEngine) as [tasks die'] eqn:E.
  split; [|apply Hm]. assert (Ht : B_ID <$> (ProcessMessage (sampleMessage "x" None) sampleEngine).1 = ["b1"]) by (by vm_compute).
  by rewrite E in Ht.
Defined.

Definition stampProcessor : JSONProcessor := mkJSONProcessor "p1" "stamp" [stampTransformation] None.
Definition stampEngine : DataIntegrationEngine JSONProcessor string :=
  mkEngine {[ "b1" := sampleBridge ]} ∅ {[ "p1" := stampProcessor ]} (mkIntegrationMetrics 1 0 0 0 0 ∅) false.

Lemma null_payload_crashes_witness :
  processThroughBridge sampleBridge (sampleMessage "null" None) 0 0 stampEngine emptyStore = Panics.
Proof.
  apply (null_payload_crashes (λ _, "") (λ _, "") (λ _, None) (λ _, None) (λ _ _, false) (λ _ _, None) nullParse (λ _, [])
    stampEngine sampleBridge stampProcessor stampTransformation []).
  - done.
  - apply lookup_singleton_eq.
  - done.
  - split; [done|]. by left.
  - unfold nullParse. by rewrite bool_decide_eq_true_2.
Defined.

Lemma metadata_shared_witness :
  let st := mkStore {[ 0%N := ∅ ]} 1%N in
  let msg := sampleMessage "x" (Some 0%N) in
  ∃ m1 st1 m2 st2,
    JSONProcess (λ _, "") (λ _, "") (λ _, None) (λ _, None) (λ _ _, false) (λ _ _, None) nullParse (λ _, [])
      (mkJSONProcessor "p1" "n" [] None) msg 0 st = Returns (Ok m1, st1) ∧
    PlainTextProcess (λ _, "") (λ _, []) (mkPlainTextProcessor "p2" "n" None) msg 0 st1 = Returns (Ok m2, st2) ∧
    mapGet (M_Metadata m1) "processed_by" st2 = Some (HString "p2").
Proof.
  intros st msg.
  destruct (JSONProcess (λ _, "") (λ _, "") (λ _, None) (λ _, None) (λ _ _, false) (λ _ _, None) nullParse (λ _, [])
    (mkJSONProcessor "p1" "n" [] None) msg 0 st) as [[[m1|] st1]| |] eqn:E1.
  - destruct (PlainTextProcess (λ _, "") (λ _, []) (mkPlainTextProcessor "p2" "n" None) msg 0 st1) as [[[m2|] st2]| |] eqn:E2;
      [|done..].
    exists m1, st1, m2, st2. split; [done|]. split; [done|].
    apply (metadata_shared (λ _, "") (λ _, "") (λ _, None) (λ _, None) (λ _ _, false) (λ _ _, None) nullParse (λ _, [])
      (mkJSONProcessor "p1" "n" [] None) (mkPlainTextProcessor "p2" "n" None) msg 0%N 0 0 st m1 st1 m2 st2 eq_refl E1 E2).
  - exfalso. pose proof (f_equal (λ o, match o with Returns (Ok _, _) => true | _ => false end) E1) as Hb. by vm_compute in Hb.
  - exfalso. pose proof (f_equal (λ o, match o with Returns (Ok _, _) => true | _ => false end) E1) as Hb. by vm_compute in Hb.
  - exfalso. pose proof (f_equal (λ o, match o with Returns (Ok _, _) => true | _ => false end) E1) as Hb. by vm_compute in Hb.
Defined.
End witnesses.
