(* ===== verification/KafkaBridge.v ===== *)
(** * The Kafka connector of the integration engine (pkg/integration/kafka_connector.go)

    The sarama library is a class of operations; its configuration is represented by the
    assignments made to the one that [sarama.NewConfig] returns, in their order.  The goroutines
    that consume are values of [task], run one step at a time on the connector as it is at that
    moment, since [Disconnect] changes it under them. *)

From S2P Require Import Prelude GoLib GoValue GoJSON GoHTTP RuleSQL Integration.
Local Open Scope emqx_scope.
Local Open Scope Z_scope.

(** ** Configuration *)

Record SSLConfig := mkSSLConfig {
  SSL_CertFile : string; SSL_KeyFile : string; SSL_CAFile : string; SSL_VerifySSL : bool; SSL_ServerName : string;
}.
Record ProducerConfig := mkProducerConfig {
  PC_RequiredAcks : Z; PC_Timeout : Z; PC_Retries : Z; PC_RetryBackoff : Z; PC_Partitioner : string;
  PC_PartitionKey : string; PC_MaxMessageBytes : Z; PC_FlushFrequency : Z;
}.
Record ConsumerConfig := mkConsumerConfig {
  CF_AutoOffsetReset : string; CF_EnableAutoCommit : bool; CF_AutoCommitInterval : Z; CF_SessionTimeout : Z;
  CF_HeartbeatInterval : Z; CF_MaxPollRecords : Z; CF_FetchMinBytes : Z; CF_FetchMaxWait : Z;
}.
Record KafkaConfig := mkKafkaConfig {
  KC_ID : string; KC_Name : string; KC_Brokers : list string; KC_Topics : list string; KC_ConsumerGroup : string;
  KC_ProducerTopic : string; KC_SecurityProtocol : string; KC_SASLMechanism : string; KC_Username : string;
  KC_Password : string; KC_SSLConfig : option SSLConfig; KC_ProducerConfig : option ProducerConfig;
  KC_ConsumerConfig : option ConsumerConfig; KC_MessageFormat : string; KC_CompressionType : string;
  KC_BatchSize : Z; KC_LingerTime : Z; KC_MaxMessageBytes : Z; KC_ClientID : string; KC_EnableIdempotence : bool;
  KC_Headers : gmap string string;
}.

(** *** JSON form *)

(** Fields with [omitempty] that are not strings. *)
Definition omitInt (name : string) (n : Z) : list (string * json) := if n =? 0 then [] else [(name, JInt n)].
Definition omitPtr {A} (name : string) (enc : A → json) (p : option A) : list (string * json) :=
  match p with Some a => [(name, enc a)] | None => [] end.
Definition omitMap (name : string) (m : gmap string string) : list (string * json) :=
  if bool_decide (m = ∅) then [] else [(name, jmap (prod_map id JString <$> map_to_list m))].

Definition sslJSON (c : SSLConfig) : json :=
  jstruct (omitempty "cert_file" (SSL_CertFile c) ++ omitempty "key_file" (SSL_KeyFile c)
    ++ omitempty "ca_file" (SSL_CAFile c) ++ [("verify_ssl", JBool (SSL_VerifySSL c))]
    ++ omitempty "server_name" (SSL_ServerName c)).
Definition producerJSON (c : ProducerConfig) : json :=
  jstruct ([("required_acks", JInt (PC_RequiredAcks c)); ("timeout_ms", JInt (PC_Timeout c));
    ("retries", JInt (PC_Retries c)); ("retry_backoff_ms", JInt (PC_RetryBackoff c));
    ("partitioner", JString (PC_Partitioner c))] ++ omitempty "partition_key" (PC_PartitionKey c)
    ++ [("max_message_bytes", JInt (PC_MaxMessageBytes c)); ("flush_frequency_ms", JInt (PC_FlushFrequency c))]).
Definition consumerJSON (c : ConsumerConfig) : json :=
  jstruct [("auto_offset_reset", JString (CF_AutoOffsetReset c)); ("enable_auto_commit", JBool (CF_EnableAutoCommit c));
    ("auto_commit_interval_ms", JInt (CF_AutoCommitInterval c)); ("session_timeout_ms", JInt (CF_SessionTimeout c));
    ("heartbeat_interval_ms", JInt (CF_HeartbeatInterval c)); ("max_poll_records", JInt (CF_MaxPollRecords c));
    ("fetch_min_bytes", JInt (CF_FetchMinBytes c)); ("fetch_max_wait_ms", JInt (CF_FetchMaxWait c))].
Definition kafkaConfigJSON (c : KafkaConfig) : json :=
  jstruct ([("id", JString (KC_ID c)); ("name", JString (KC_Name c));
    ("brokers", JArray (JString <$> KC_Brokers c)); ("topics", JArray (JString <$> KC_Topics c))]
    ++ omitempty "consumer_group" (KC_ConsumerGroup c) ++ omitempty "producer_topic" (KC_ProducerTopic c)
    ++ omitempty "security_protocol" (KC_SecurityProtocol c) ++ omitempty "sasl_mechanism" (KC_SASLMechanism c)
    ++ omitempty "username" (KC_Username c) ++ omitempty "password" (KC_Password c)
    ++ omitPtr "ssl_config" sslJSON (KC_SSLConfig c) ++ omitPtr "producer_config" producerJSON (KC_ProducerConfig c)
    ++ omitPtr "consumer_config" consumerJSON (KC_ConsumerConfig c)
    ++ [("message_format", JString (KC_MessageFormat c))] ++ omitempty "compression_type" (KC_CompressionType c)
    ++ omitInt "batch_size" (KC_BatchSize c) ++ omitInt "linger_time_ms" (KC_LingerTime c)
    ++ omitInt "max_message_bytes" (KC_MaxMessageBytes c) ++ omitempty "client_id" (KC_ClientID c)
    ++ [("enable_idempotence", JBool (KC_EnableIdempotence c))] ++ omitMap "headers" (KC_Headers c)).

Definition decSSL (j : json) (cur : SSLConfig) : option SSLConfig :=
  l ← fieldsOf j;
  cert ← field decString (SSL_CertFile cur) "cert_file" l;
  key ← field decString (SSL_KeyFile cur) "key_file" l;
  ca ← field decString (SSL_CAFile cur) "ca_file" l;
  verify ← field decBool (SSL_VerifySSL cur) "verify_ssl" l;
  server ← field decString (SSL_ServerName cur) "server_name" l;
  Some (mkSSLConfig cert key ca verify server).
Definition decProducer (j : json) (cur : ProducerConfig) : option ProducerConfig :=
  l ← fieldsOf j;
  acks ← field decInt (PC_RequiredAcks cur) "required_acks" l;
  timeout ← field decInt (PC_Timeout cur) "timeout_ms" l;
  retries ← field decInt (PC_Retries cur) "retries" l;
  backoff ← field decInt (PC_RetryBackoff cur) "retry_backoff_ms" l;
  partitioner ← field decString (PC_Partitioner cur) "partitioner" l;
  key ← field decString (PC_PartitionKey cur) "partition_key" l;
  maxBytes ← field decInt (PC_MaxMessageBytes cur) "max_message_bytes" l;
  flush ← field decInt (PC_FlushFrequency cur) "flush_frequency_ms" l;
  Some (mkProducerConfig acks timeout retries backoff partitioner key maxBytes flush).
Definition decConsumer (j : json) (cur : ConsumerConfig) : option ConsumerConfig :=
  l ← fieldsOf j;
  reset ← field decString (CF_AutoOffsetReset cur) "auto_offset_reset" l;
  commit ← field decBool (CF_EnableAutoCommit cur) "enable_auto_commit" l;
  interval ← field decInt (CF_AutoCommitInterval cur) "auto_commit_interval_ms" l;
  session ← field decInt (CF_SessionTimeout cur) "session_timeout_ms" l;
  heartbeat ← field decInt (CF_HeartbeatInterval cur) "heartbeat_interval_ms" l;
  poll ← field decInt (CF_MaxPollRecords cur) "max_poll_records" l;
  minBytes ← field decInt (CF_FetchMinBytes cur) "fetch_min_bytes" l;
  maxWait ← field decInt (CF_FetchMaxWait cur) "fetch_max_wait_ms" l;
  Some (mkConsumerConfig reset commit interval session heartbeat poll minBytes maxWait).

(** An object is added to the map there is, entry by entry; [null] makes the map nil. *)
Definition decStringMap (j : json) (cur : gmap string string) : option (gmap string string) :=
  match j with
  | JNull => Some ∅
  | JObject l => foldl (λ acc e, m ← acc; s ← decString e.2 ""; Some (<[e.1 := s]> m)) (Some cur) l
  | _ => None
  end.

Definition decKafkaConfig (j : json) : option KafkaConfig :=
  l ← fieldsOf j;
  id ← field decString "" "id" l;
  name ← field decString "" "name" l;
  brokers ← field decStrings [] "brokers" l;
  topics ← field decStrings [] "topics" l;
  group ← field decString "" "consumer_group" l;
  producerTopic ← field decString "" "producer_topic" l;
  security ← field decString "" "security_protocol" l;
  sasl ← field decString "" "sasl_mechanism" l;
  username ← field decString "" "username" l;
  password ← field decString "" "password" l;
  ssl ← field (decPtr decSSL (mkSSLConfig "" "" "" false "")) None "ssl_config" l;
  producer ← field (decPtr decProducer (mkProducerConfig 0 0 0 0 "" "" 0 0)) None "producer_config" l;
  consumer ← field (decPtr decConsumer (mkConsumerConfig "" false 0 0 0 0 0 0)) None "consumer_config" l;
  format ← field decString "" "message_format" l;
  compression ← field decString "" "compression_type" l;
  batch ← field decInt 0 "batch_size" l;
  linger ← field decInt 0 "linger_time_ms" l;
  maxBytes ← field decInt 0 "max_message_bytes" l;
  client ← field decString "" "client_id" l;
  idempotent ← field decBool false "enable_idempotence" l;
  headers ← field decStringMap ∅ "headers" l;
  Some (mkKafkaConfig id name brokers topics group producerTopic security sasl username password ssl producer
          consumer format compression batch linger maxBytes client idempotent headers).

(** ** The sarama library *)

(** One assignment to the configuration. *)
Inductive setting :=
  | ClientID (s : string)
  | Producer_RequiredAcks (n : Z) | Producer_Timeout (d : Duration) | Producer_Retry_Max (n : Z)
  | Producer_Retry_Backoff (d : Duration) | Producer_MaxMessageBytes (n : Z) | Producer_Flush_Frequency (d : Duration)
  | Producer_Partitioner (name : string) | Producer_Compression (name : string) | Producer_Idempotent (b : bool)
  | Producer_Return_Successes (b : bool) | Producer_Return_Errors (b : bool)
  | Consumer_Offsets_Initial (newest : bool) | Consumer_Session_Timeout (d : Duration)
  | Consumer_Heartbeat_Interval (d : Duration) | Consumer_Fetch_Min (n : Z) | Consumer_MaxWaitTime (d : Duration)
  | Net_MaxOpenRequests (n : Z) | Net_SASL_Enable (b : bool) | Net_SASL_User (s : string) | Net_SASL_Password (s : string)
  | Net_SASL_Mechanism (s : string) | Net_TLS_Enable (b : bool).

Record ProducerMessage := mkProducerMessage {
  PM_Topic : string; PM_Key : option string; PM_Value : list byte; PM_Headers : list (string * string);
}.
Record ConsumerMessage := mkConsumerMessage {
  CG_Topic : string; CG_Partition : Z; CG_Offset : Z; CG_Key : string; CG_Value : list byte;
  CG_Headers : list (string * string); CG_Timestamp : Time;
}.

Class Sarama (Prod Cons Grp : Type) := {
  NewSyncProducer : list string → list setting → result Prod;
  NewConsumerGroup : list string → string → list setting → result Grp;
  NewConsumer : list string → list setting → result Cons;
  SendMessage : Prod → ProducerMessage → Prod * result (Z * Z);
  Partitions : Cons → string → result (list Z);
  ConsumePartition : Cons → string → Z → option string;
}.

(** ** The connector *)

Record ConnectorMetrics `{GoFloat} := mkConnectorMetrics {
  CM_ConnectionStatus : string; CM_MessagesReceived : Z; CM_MessagesSent : Z; CM_ConnectionErrors : Z;
  CM_LastConnected : option Time; CM_LastDisconnected : option Time; CM_Throughput : float64;
}.
Arguments mkConnectorMetrics {_} _ _ _ _ _ _ _.

(** [receiveChan] has room for 1000 messages. *)
Record KafkaConnector `{GoFloat} (Prod Cons Grp : Type) := mkKafkaConnector {
  kc_id : string;
  kc_config : KafkaConfig;
  kc_producer : option Prod;
  kc_consumer : option Cons;
  kc_consumerGroup : option Grp;
  kc_connected : bool;
  kc_metrics : ConnectorMetrics;
  kc_receiveChan : list Message;
  kc_cancelled : bool;
}.
Arguments mkKafkaConnector {_ _ _ _} _ _ _ _ _ _ _ _ _.
Arguments kc_id {_ _ _ _} _.
Arguments kc_config {_ _ _ _} _.
Arguments kc_producer {_ _ _ _} _.
Arguments kc_consumer {_ _ _ _} _.
Arguments kc_consumerGroup {_ _ _ _} _.
Arguments kc_connected {_ _ _ _} _.
Arguments kc_metrics {_ _ _ _} _.
Arguments kc_receiveChan {_ _ _ _} _.
Arguments kc_cancelled {_ _ _ _} _.

Definition receiveCap : nat := 1000.

(** The goroutines; they run under the context that was given to [Connect]. *)
Inductive task :=
  | ConsumeMessages
  | ConsumeSimpleMessages
  | ConsumeOne (topic : string) (partition : Z).

Section Connector.
Context `{GoFloat} `{JSONText} {Prod Cons Grp : Type} `{!Sarama Prod Cons Grp}.
Context (FormatRFC3339 formatTime : Time → string) (floatJSON : float64 → option json).
Abbreviation Kafka := (KafkaConnector Prod Cons Grp).
Implicit Types (kc : Kafka) (msg : Message) (st : Store).

Definition NewKafkaConnector (config : KafkaConfig) : Kafka :=
  mkKafkaConnector (KC_ID config) config None None None false
    (mkConnectorMetrics "disconnected" 0 0 0 None None (float_of_int 0)) [] false.

Definition ms (n : Z) : Duration := i64 (n * Millisecond).
Definition i32 (z : Z) : Z := (z + 2 ^ 31) mod 2 ^ 32 - 2 ^ 31.

Definition configureSecurity (c : KafkaConfig) : list setting :=
  let p := KC_SecurityProtocol c in
  (if (p =s "SASL_PLAINTEXT") || (p =s "SASL_SSL") then
     [Net_SASL_Enable true; Net_SASL_User (KC_Username c); Net_SASL_Password (KC_Password c);
      Net_SASL_Mechanism (if KC_SASLMechanism c =s "SCRAM-SHA-256" then "SCRAM-SHA-256"
                          else if KC_SASLMechanism c =s "SCRAM-SHA-512" then "SCRAM-SHA-512" else "PLAIN")]
   else [])
  ++ (if (p =s "SSL") || (p =s "SASL_SSL") then [Net_TLS_Enable true] else []).

Definition producerSettings (pc : ProducerConfig) : list setting :=
  [Producer_RequiredAcks (PC_RequiredAcks pc); Producer_Timeout (ms (PC_Timeout pc));
   Producer_Retry_Max (PC_Retries pc); Producer_Retry_Backoff (ms (PC_RetryBackoff pc));
   Producer_MaxMessageBytes (PC_MaxMessageBytes pc); Producer_Flush_Frequency (ms (PC_FlushFrequency pc));
   Producer_Partitioner (if PC_Partitioner pc =s "random" then "random"
                         else if PC_Partitioner pc =s "round_robin" then "round_robin" else "hash")].
Definition consumerSettings (cc : ConsumerConfig) : list setting :=
  [Consumer_Offsets_Initial (CF_AutoOffsetReset cc <>s "earliest"); Consumer_Session_Timeout (ms (CF_SessionTimeout cc));
   Consumer_Heartbeat_Interval (ms (CF_HeartbeatInterval cc)); Consumer_Fetch_Min (i32 (CF_FetchMinBytes cc));
   Consumer_MaxWaitTime (ms (CF_FetchMaxWait cc))].

(** No branch of it answers an error. *)
Definition createSaramaConfig kc : list setting :=
  let c := kc_config kc in
  let t := KC_CompressionType c in
  [ClientID (if KC_ClientID c =s "" then "emqx-go-kafka-" +:+ kc_id kc else KC_ClientID c)]
  ++ from_option producerSettings [] (KC_ProducerConfig c)
  ++ from_option consumerSettings [] (KC_ConsumerConfig c)
  ++ [Producer_Compression (if (t =s "gzip") || (t =s "snappy") || (t =s "lz4") || (t =s "zstd") then t else "none")]
  ++ (if (KC_SecurityProtocol c <>s "") && (KC_SecurityProtocol c <>s "PLAINTEXT") then configureSecurity c else [])
  ++ (if KC_EnableIdempotence c
      then [Producer_Idempotent true; Producer_RequiredAcks (-1); Producer_Retry_Max 5; Net_MaxOpenRequests 1] else [])
  ++ [Producer_Return_Successes true; Producer_Return_Errors true].

Definition with_clients (p : option Prod) (c : option Cons) (g : option Grp) kc : Kafka :=
  mkKafkaConnector (kc_id kc) (kc_config kc) p c g (kc_connected kc) (kc_metrics kc) (kc_receiveChan kc) (kc_cancelled kc).
Definition with_metrics (m : ConnectorMetrics) kc : Kafka :=
  mkKafkaConnector (kc_id kc) (kc_config kc) (kc_producer kc) (kc_consumer kc) (kc_consumerGroup kc) (kc_connected kc)
    m (kc_receiveChan kc) (kc_cancelled kc).
Definition with_connected (b : bool) (m : ConnectorMetrics) kc : Kafka :=
  mkKafkaConnector (kc_id kc) (kc_config kc) (kc_producer kc) (kc_consumer kc) (kc_consumerGroup kc) b
    m (kc_receiveChan kc) (kc_cancelled kc).
Definition connectionError kc : Kafka :=
  let m := kc_metrics kc in
  with_metrics (mkConnectorMetrics (CM_ConnectionStatus m) (CM_MessagesReceived m) (CM_MessagesSent m)
    (i64 (CM_ConnectionErrors m + 1)) (CM_LastConnected m) (CM_LastDisconnected m) (CM_Throughput m)) kc.

(** The connector, the goroutine started and the error; a failure keeps the clients made before. *)
Definition Connect (now : Time) kc : Kafka * list task * option string :=
  if kc_connected kc then (kc, [], None)
  else
    let c := kc_config kc in
    let conf := createSaramaConfig kc in
    let fails kc what e := (connectionError kc, [], Some ("failed to create Kafka " +:+ what +:+ ": " +:+ e)%string) in
    let finish kc tasks :=
      let m := kc_metrics kc in
      (with_connected true (mkConnectorMetrics "connected" (CM_MessagesReceived m) (CM_MessagesSent m)
         (CM_ConnectionErrors m) (Some now) (CM_LastDisconnected m) (CM_Throughput m)) kc, tasks, None) in
    let consume kc :=
      match KC_Topics c with
      | [] => finish kc []
      | _ =>
          if KC_ConsumerGroup c <>s "" then
            match NewConsumerGroup (KC_Brokers c) (KC_ConsumerGroup c) conf with
            | Err e => fails kc "consumer group" e
            | Ok g => finish (with_clients (kc_producer kc) (kc_consumer kc) (Some g) kc) [ConsumeMessages]
            end
          else
            match NewConsumer (KC_Brokers c) conf with
            | Err e => fails kc "consumer" e
            | Ok co => finish (with_clients (kc_producer kc) (Some co) (kc_consumerGroup kc) kc) [ConsumeSimpleMessages]
            end
      end in
    if KC_ProducerTopic c <>s "" then
      match NewSyncProducer (KC_Brokers c) conf with
      | Err e => fails kc "producer" e
      | Ok p => consume (with_clients (Some p) (kc_consumer kc) (kc_consumerGroup kc) kc)
      end
    else consume kc.

(** Errors of closing are logged; the context that is cancelled is the connector's own. *)
Definition Disconnect (now : Time) kc : Kafka :=
  if negb (kc_connected kc) then kc
  else
    let m := kc_metrics kc in
    mkKafkaConnector (kc_id kc) (kc_config kc) None None None false
      (mkConnectorMetrics "disconnected" (CM_MessagesReceived m) (CM_MessagesSent m) (CM_ConnectionErrors m)
         (CM_LastConnected m) (Some now) (CM_Throughput m)) (kc_receiveChan kc) true.

Definition timeJSON (t : Time) : option json := JString <$> timeText t.

(** The value of a message: the JSON object has its keys in order. *)
Definition formatMessage (c : KafkaConfig) msg st : option (list byte) :=
  if KC_MessageFormat c =s "json" then
    metadata ← toJSON floatJSON timeJSON (S (size (cells st))) st (HMap (M_Metadata msg));
    timestamp ← timeJSON (M_Timestamp msg);
    Some (jtext (JObject [("headers", jmap (map_to_list (JString <$> M_Headers msg))); ("metadata", metadata);
                          ("payload", JString (string_of_bytes (M_Payload msg))); ("qos", JInt (M_QoS msg));
                          ("timestamp", timestamp); ("topic", JString (M_Topic msg))]))
  else Some (M_Payload msg).

Definition convertToKafkaMessage kc msg st : outcome (result ProducerMessage) :=
  let c := kc_config kc in
  match formatMessage c msg st with
  | None => Returns (Err "failed to format message")
  | Some value =>
      let! key :=
        match KC_ProducerConfig c with
        | Some pc =>
            if PC_PartitionKey pc <>s "" then
              match mapGet (M_Metadata msg) (PC_PartitionKey pc) st with
              | Some v => let! s := Sprint formatTime v st in Returns (Some s)
              | None => Returns None
              end
            else Returns None
        | None => Returns None
        end in
      Returns (Ok (mkProducerMessage (if KC_ProducerTopic c =s "" then M_Topic msg else KC_ProducerTopic c) key value
        (go_range (λ k v hs, hs ++ [(k, v)]) (M_Headers msg)
           (go_range (λ k v hs, hs ++ [(k, v)]) (KC_Headers c) []))))
  end.

(** [duration.Seconds()] and the quotient by it. *)
Definition updateThroughputMetrics (now : Time) (m : ConnectorMetrics) : ConnectorMetrics :=
  match CM_LastConnected m with
  | Some t =>
      let d := now - t in
      let duration := float_add (float_of_int (Z.quot d Second))
                        (float_div (float_of_int (Z.rem d Second)) (float_of_int (10 ^ 9))) in
      if float_ltb (float_of_int 0) duration
      then mkConnectorMetrics (CM_ConnectionStatus m) (CM_MessagesReceived m) (CM_MessagesSent m) (CM_ConnectionErrors m)
             (CM_LastConnected m) (CM_LastDisconnected m)
             (float_div (float_of_int (i64 (CM_MessagesReceived m + CM_MessagesSent m))) duration)
      else m
  | None => m
  end.
Definition countMessages (received sent : Z) (m : ConnectorMetrics) : ConnectorMetrics :=
  mkConnectorMetrics (CM_ConnectionStatus m) (i64 (CM_MessagesReceived m + received)) (i64 (CM_MessagesSent m + sent))
    (CM_ConnectionErrors m) (CM_LastConnected m) (CM_LastDisconnected m) (CM_Throughput m).

Definition Send (now : Time) msg st kc : outcome (Kafka * option string) :=
  match kc_connected kc, kc_producer kc with
  | true, Some producer =>
      let! converted := convertToKafkaMessage kc msg st in
      match converted with
      | Err e => Returns (kc, Some ("failed to convert message: " +:+ e)%string)
      | Ok kafkaMsg =>
          let '(producer, sent) := SendMessage producer kafkaMsg in
          let kc := with_clients (Some producer) (kc_consumer kc) (kc_consumerGroup kc) kc in
          match sent with
          | Err e => Returns (kc, Some ("failed to send message to Kafka: " +:+ e)%string)
          | Ok _ => Returns (with_metrics (updateThroughputMetrics now (countMessages 0 1 (kc_metrics kc))) kc, None)
          end
      end
  | _, _ => Returns (kc, Some "Kafka producer not connected")
  end.

Definition Receive kc : result (list Message) :=
  if kc_connected kc then Ok (kc_receiveChan kc) else Err "Kafka connector not connected".

Definition GetConfiguration kc st : option (hval * Store) :=
  jparse (jtext (kafkaConfigJSON (kc_config kc))) ≫= λ j, fromJSON j st.
Definition SetConfiguration (config : hval) st kc : Kafka * option string :=
  match toJSON floatJSON timeJSON (S (size (cells st))) st config with
  | None => (kc, Some "failed to marshal config")
  | Some j =>
      match jparse (jtext j) ≫= decKafkaConfig with
      | None => (kc, Some "failed to unmarshal Kafka config")
      | Some c => (mkKafkaConnector (kc_id kc) c (kc_producer kc) (kc_consumer kc) (kc_consumerGroup kc)
                     (kc_connected kc) (kc_metrics kc) (kc_receiveChan kc) (kc_cancelled kc), None)
      end
  end.

(** ** Consuming *)

(** A message is dropped when the channel is full. *)
Definition received kc (kafkaMsg : ConsumerMessage) st : Message * Store :=
  let '(metadata, st) :=
    alloc (list_to_map [("kafka_topic", HString (CG_Topic kafkaMsg)); ("kafka_partition", HInt (CG_Partition kafkaMsg));
                        ("kafka_offset", HInt (CG_Offset kafkaMsg)); ("kafka_key", HString (CG_Key kafkaMsg))]) st in
  (mkMessage ("kafka-" +:+ pretty (CG_Partition kafkaMsg) +:+ "-" +:+ pretty (CG_Offset kafkaMsg))%string
     (CG_Topic kafkaMsg) (CG_Value kafkaMsg) 0
     (foldl (λ m e, <[e.1 := e.2]> m) ∅ (CG_Headers kafkaMsg)) (Some metadata) (CG_Timestamp kafkaMsg)
     "kafka" (kc_id kc) "" "", st).

Definition handleKafkaMessage (now : Time) kc (kafkaMsg : ConsumerMessage) st : Kafka * Store :=
  let '(msg, st) := received kc kafkaMsg st in
  if (length (kc_receiveChan kc) <? receiveCap)%nat then
    let kc := mkKafkaConnector (kc_id kc) (kc_config kc) (kc_producer kc) (kc_consumer kc) (kc_consumerGroup kc)
      (kc_connected kc) (kc_metrics kc) (kc_receiveChan kc ++ [msg]) (kc_cancelled kc) in
    (with_metrics (updateThroughputMetrics now (countMessages 1 0 (kc_metrics kc))) kc, st)
  else (kc, st).

(** [ConsumeClaim]: the messages read from the claim until a nil one or the end of the session;
    the offsets that are marked. *)
Fixpoint ConsumeClaim (now : Time) (messages : list (option ConsumerMessage)) kc st : Kafka * Store * list Z :=
  match messages with
  | [] | None :: _ => (kc, st, [])
  | Some m :: messages =>
      let '(kc, st) := handleKafkaMessage now kc m st in
      let '(kc, st, marked) := ConsumeClaim now messages kc st in
      (kc, st, CG_Offset m :: marked)
  end.

(** One step of a goroutine.  [ctxDone]: the context given to [Connect] is cancelled; [input]:
    what the library hands over, the messages of a session of the group or one message of a
    partition, where [None] is a read from a closed channel.  The answer is the connector, the
    goroutines started, and whether the goroutine goes on. *)
Definition taskStep (now : Time) (ctxDone : bool) (input : list (option ConsumerMessage)) (t : task) kc st
    : outcome (Kafka * Store * list task * bool) :=
  match t with
  | ConsumeMessages =>
      if ctxDone then Returns (kc, st, [], false)
      else
        match kc_consumerGroup kc with
        | None => Panics
        | Some _ => let '(kc, st, _) := ConsumeClaim now input kc st in Returns (kc, st, [], true)
        end
  | ConsumeSimpleMessages =>
      let! tasks :=
        foldl (λ acc topic,
          let! tasks := acc in
          match kc_consumer kc with
          | None => Panics
          | Some co =>
              match Partitions co topic with
              | Err _ => Returns tasks
              | Ok ps => Returns (tasks ++ (ConsumeOne topic <$> ps))
              end
          end) (Returns []) (KC_Topics (kc_config kc)) in
      Returns (kc, st, tasks, false)
  | ConsumeOne topic partition =>
      if ctxDone then Returns (kc, st, [], false)
      else
        match input with
        | [] => Returns (kc, st, [], true)
        | None :: _ => Panics
        | Some m :: _ => let '(kc, st) := handleKafkaMessage now kc m st in Returns (kc, st, [], true)
        end
  end.

(** The beginning of [consumePartition]: whether the loop is entered. *)
Definition consumePartition (topic : string) (partition : Z) kc : outcome bool :=
  match kc_consumer kc with
  | None => Panics
  | Some co => Returns (match ConsumePartition co topic partition with Some _ => false | None => true end)
  end.
End Connector.

(** ** Theorems *)

Section KafkaProps.
Context `{GoFloat} `{JSONText} {Prod Cons Grp : Type} `{!Sarama Prod Cons Grp}.
Context (FormatRFC3339 formatTime : Time → string) (floatJSON : float64 → option json).
Abbreviation Kafka := (KafkaConnector Prod Cons Grp).
Implicit Types (kc : Kafka) (msg : Message) (st : Store).

(** *** A message through Kafka *)

Lemma go_range_append (m : gmap string string) l :
  go_range (λ k v hs, hs ++ [(k, v)]) m l = l ++ map_to_list m.
Proof.
  unfold go_range. revert l. induction (map_to_list m) as [|[k v] es IH]; intros l; simpl; [by rewrite app_nil_r|].
  by rewrite IH, <-app_assoc.
Qed.

Lemma insert_entries (m : gmap string string) acc :
  foldl (λ m e, <[e.1 := e.2]> m) acc (map_to_list m) = m ∪ acc.
Proof.
  enough (Hl : ∀ l : list (string * string), NoDup l.*1 →
    foldl (λ m e, <[e.1 := e.2]> m) acc l = list_to_map l ∪ acc).
  { rewrite Hl by apply NoDup_fst_map_to_list. by rewrite list_to_map_to_list. }
  intros l. revert acc. induction l as [|[k v] l IH]; intros acc Hnd; simpl; [by rewrite (left_id_L ∅ (∪))|].
  rewrite fmap_cons, NoDup_cons in Hnd. destruct Hnd as [Hk Hnd]. rewrite IH by done.
  rewrite <-insert_union_r by (by apply not_elem_of_list_to_map). by rewrite insert_union_l.
Qed.

(** A message that is sent in a format other than JSON and read back by a connector carries the
    same payload, and its own headers over those of the sender's configuration; its topic is
    the producer topic, or its own when there is none. *)
Theorem kafka_roundtrip kc kc2 msg st st2 pm partition offset key t :
  KC_MessageFormat (kc_config kc) ≠ "json" →
  convertToKafkaMessage formatTime floatJSON kc msg st = Returns (Ok pm) →
  let m := (received kc2 (mkConsumerMessage (PM_Topic pm) partition offset key (PM_Value pm) (PM_Headers pm) t) st2).1 in
  M_Payload m = M_Payload msg ∧ M_Headers m = M_Headers msg ∪ KC_Headers (kc_config kc) ∧
  M_Topic m = (if KC_ProducerTopic (kc_config kc) =s "" then M_Topic msg else KC_ProducerTopic (kc_config kc)) ∧
  M_SourceID m = kc_id kc2.
Proof.
  intros Hf E. unfold convertToKafkaMessage, formatMessage in E.
  destruct (KC_MessageFormat (kc_config kc) =s "json") eqn:Ef; [by bool_prop|].
  apply outcome_bind_Returns in E as (k & _ & E). simplify_eq. simpl. split_and!; try done.
  rewrite !go_range_append. cbn [app]. rewrite foldl_app, !insert_entries. by rewrite (right_id_L ∅ (∪)).
Qed.

(** *** Claims *)

Definition free kc : nat := receiveCap - length (kc_receiveChan kc).

Lemma handleKafkaMessage_exact now kc m st kc' st' :
  handleKafkaMessage now kc m st = (kc', st') →
  kc_receiveChan kc' = kc_receiveChan kc ++ take (free kc) [(received kc m st).1] ∧ kc_id kc' = kc_id kc ∧
  CM_MessagesReceived (kc_metrics kc') =
    (if (0 <? free kc)%nat then i64 (CM_MessagesReceived (kc_metrics kc) + 1) else CM_MessagesReceived (kc_metrics kc)).
Proof.
  unfold handleKafkaMessage, free. destruct (received kc m st) as [msg st1].
  destruct (Nat.ltb_spec (length (kc_receiveChan kc)) receiveCap) as [Hl|Hl]; intros E; simplify_eq.
  - split_and!; [|done|].
    + destruct (receiveCap - length (kc_receiveChan kc))%nat eqn:En; [lia|]. cbn. by rewrite take_nil.
    + rewrite (proj2 (Nat.ltb_lt 0 _)) by lia. cbn [with_metrics kc_metrics]. unfold updateThroughputMetrics.
      repeat case_match; reflexivity.
  - rewrite (proj2 (Nat.sub_0_le _ _)) by done. cbn. by rewrite app_nil_r.
Qed.

(** Reading a claim marks every message as consumed, and keeps, in order, only as many as the
    channel has room for: the others are lost. *)
Theorem full_channel_loses_marked now ms kc st kc' st' marked :
  ConsumeClaim now (Some <$> ms) kc st = (kc', st', marked) →
  marked = CG_Offset <$> ms ∧
  ∃ kept, kc_receiveChan kc' = kc_receiveChan kc ++ kept ∧
    (M_Topic <$> kept) = CG_Topic <$> take (free kc) ms ∧ (M_Payload <$> kept) = CG_Value <$> take (free kc) ms.
Proof.
  revert kc st kc' st' marked. induction ms as [|m ms IH]; intros kc st kc' st' marked; cbn [ConsumeClaim fmap list_fmap].
  { intros E. injection E as <- <- <-. split; [done|]. exists []. rewrite app_nil_r, take_nil. by split. }
  destruct (handleKafkaMessage now kc m st) as [kc1 st1] eqn:Eh.
  intros E.
  destruct (ConsumeClaim now (Some <$> ms) kc1 st1) as [[kc2 st2] marked2] eqn:Ec. injection E as <- <- <-.
  apply handleKafkaMessage_exact in Eh as (Hch & _ & _).
  apply IH in Ec as (-> & kept & Hk & Ht & Hp). split; [done|].
  assert (Hfree : free kc1 = (free kc - 1)%nat).
  { unfold free. rewrite Hch, length_app, length_take. unfold free. cbn [length]. lia. }
  exists (take (free kc) [(received kc m st).1] ++ kept). split; [by rewrite Hk, Hch, <-app_assoc|].
  rewrite Hfree in Ht, Hp. destruct (free kc) as [|n]; cbn [take app fmap list_fmap] in *.
  - rewrite Nat.sub_0_l, take_0 in Ht, Hp. by split.
  - rewrite Nat.sub_succ, Nat.sub_0_r in Ht, Hp. rewrite take_nil. by split; [rewrite <-Ht|rewrite <-Hp].
Qed.

(** *** Goroutines after [Disconnect] *)

(** [Disconnect] leaves the goroutines of [Connect] running, because they watch the context of
    the caller: unless that one is done, the next round of the consumer of a group is a call
    through a nil interface, which ends the process; so is, even when it is done, the start of a
    simple consumer or of one of its partitions that had not run yet. *)
Theorem disconnect_crashes_consumers now later kc kc' tasks t st input :
  kc_connected kc = false → Connect now kc = (kc', tasks, None) → t ∈ tasks →
  match t with
  | ConsumeMessages =>
      taskStep later false input t (Disconnect later kc') st = Panics ∧
      taskStep later true input t (Disconnect later kc') st = Returns (Disconnect later kc', st, [], false)
  | _ => ∀ ctxDone, taskStep later ctxDone input t (Disconnect later kc') st = Panics
  end ∧
  (∀ topic partition, consumePartition topic partition (Disconnect later kc') = Panics).
Proof.
  intros Hn E Ht.
  assert (Hc : kc_connected kc' = true ∧ kc_config kc' = kc_config kc ∧
    (t = ConsumeMessages ∨ t = ConsumeSimpleMessages ∧ KC_Topics (kc_config kc) ≠ [])).
  { unfold Connect in E. rewrite Hn in E. revert E. cbv zeta.
    repeat case_match; intros; simplify_eq; try (by apply elem_of_nil in Ht);
      apply list_elem_of_singleton in Ht as ->; split_and!; try done; (by left) || right; split; done || congruence. }
  destruct Hc as (Hc & Hconf & Hcase).
  assert (Hd : kc_consumer (Disconnect later kc') = None ∧ kc_consumerGroup (Disconnect later kc') = None ∧
    kc_config (Disconnect later kc') = kc_config kc).
  { unfold Disconnect. rewrite Hc. cbn. by rewrite Hconf. }
  destruct Hd as (Hd1 & Hd2 & Hd3). split; [|intros; unfold consumePartition; by rewrite Hd1].
  destruct Hcase as [->|[-> Hne]].
  - split; [|done]. cbn [taskStep]. by rewrite Hd2.
  - intros ctxDone. cbn [taskStep]. rewrite Hd1, Hd3. destruct (KC_Topics (kc_config kc)) as [|x xs]; [done|].
    cbn [foldl outcome_bind]. clear Hne. by induction xs.
Qed.
End KafkaProps.

(** ** Witnesses *)

Section KafkaWitness.
Local Existing Instance intFloat.
Local Existing Instance digitsJSON.

Local Instance sampleSarama : Sarama unit unit unit := {|
  NewSyncProducer _ _ := Ok ();
  NewConsumerGroup _ _ _ := Ok ();
  NewConsumer _ _ := Ok ();
  SendMessage _ _ := ((), Ok (0, 0));
  Partitions _ _ := Ok [0];
  ConsumePartition _ _ _ := None;
|}.
Definition groupConfig : KafkaConfig :=
  mkKafkaConfig "k1" "k" ["b1"] ["t"] "g" "out" "" "" "" "" None None None "plain" "" 0 0 0 "" false {["h" := "c"]}.
Definition sampleMessage : Message := mkMessage "1" "a" [] 0 {["h" := "m"]} None 5 "" "" "" "".

Definition sampleConnector : KafkaConnector unit unit unit := NewKafkaConnector groupConfig.

Lemma disconnect_crashes_consumers_witness :
  let kc' := (Connect 1 sampleConnector).1.1 in
  taskStep 3 false [] ConsumeMessages (Disconnect 3 kc') emptyStore = Panics.
Proof.
  refine (proj1 (proj1 (disconnect_crashes_consumers 1 3 sampleConnector _ [ConsumeMessages]
    ConsumeMessages emptyStore [] _ _ _))); [reflexivity|reflexivity|by constructor].
Defined.

Lemma kafka_roundtrip_witness :
  ∃ pm, convertToKafkaMessage (λ _, "") (λ _, None) sampleConnector sampleMessage emptyStore = Returns (Ok pm) ∧
    M_Headers (received sampleConnector
      (mkConsumerMessage (PM_Topic pm) 0 7 "" (PM_Value pm) (PM_Headers pm) 9) emptyStore).1 = {["h" := "m"]} ∪ {["h" := "c"]}.
Proof.
  eexists. split; [reflexivity|].
  refine (proj1 (proj2 (kafka_roundtrip (λ _, "") (λ _, None) sampleConnector sampleConnector
    sampleMessage emptyStore emptyStore _ 0 7 "" 9 _ _))); [done|reflexivity].
Defined.
End KafkaWitness.
