(* ===== verification/Metrics.v ===== *)
(** * Metrics: the broker's counters (pkg/metrics/metrics.go)

    The manager's counters are int64 cells that goroutines change with atomic instructions, without a
    lock.  Every method is the list of the instructions it carries out ([code]); the raising
    of a maximum is a loop of a load and a compare-and-swap.  A goroutine in a method is
    a [thread]: the value it got from its first instruction, the maximum it has loaded,
    and the instructions left.  [step] is one atomic instruction of one goroutine, [call]
    is a method called on its own.  Calls to the Prometheus client are listed in order. *)

From S2P Require Import Prelude GoLib GoValue GoJSON GoHTTP.
Local Open Scope emqx_scope.
Local Open Scope Z_scope.

(** ** Cells *)

(** The int64 fields of [MetricsManager]. *)
Inductive cell :=
  | connectionsCount | connectionsMax | connectionsTotal | disconnectionsTotal
  | sessionsCount | sessionsMax | sessionsPersistent | sessionsTransient
  | subscriptionsCount | subscriptionsMax | subscriptionsShared
  | messagesReceived | messagesSent | messagesDropped | messagesRetained
  | messagesQos0 | messagesQos1 | messagesQos2
  | routesCount | routesMax | topicsCount | topicsMax
  | packetsReceived | packetsSent | packetsConnect | packetsDisconnect | packetsPublish
  | packetsSubscribe | packetsUnsubscribe
  | errorsTotal | authFailures | aclDenied | nodesRunning | nodesStopped.
#[export] Instance cell_eq_dec : EqDecision cell.
Proof. solve_decision. Defined.

Definition cells : Type := cell → Z.
Definition set_cell (c : cell) (v : Z) (m : cells) : cells :=
  λ c', if decide (c' = c) then v else m c'.

(** The metrics of the Prometheus client, and the calls made to it. *)
Inductive prom :=
  | ConnectionsTotal | ConnectionsGauge | SessionsGauge | SubscriptionsGauge
  | MessagesReceivedCounter | MessagesSentCounter | MessagesDroppedCounter
  | PacketsReceivedCounter | PacketsSentCounter | UptimeGauge.
Inductive promCall :=
  | PInc (p : prom)
  | PDec (p : prom)
  | PSet (p : prom) (v : Z).

(** [NewMetricsManager], [MetricsManager]. *)
Record MetricsManager := mkMetricsManager {
  fields : cells;
  startTime : Time;
  uptime : Duration;
}.
Definition NewMetricsManager (now : Time) : MetricsManager := mkMetricsManager (λ _, 0) now 0.

(** ** Methods as instructions *)

(** [AddCount c d] keeps the result of the addition as [count]; [StoreCount c v] stores [v],
    which is the [count] of a setter; [RaiseMax c] is the loop that raises [c] to [count]. *)
Inductive instr :=
  | AddCount (c : cell) (d : Z)
  | Add (c : cell) (d : Z)
  | StoreCount (c : cell) (v : Z)
  | RaiseMax (c : cell)
  | Prom (p : promCall).

Definition IncConnections : list instr :=
  [AddCount connectionsCount 1; Add connectionsTotal 1; RaiseMax connectionsMax;
   Prom (PInc ConnectionsGauge); Prom (PInc ConnectionsTotal)].
Definition DecConnections : list instr :=
  [Add connectionsCount (-1); Add disconnectionsTotal 1; Prom (PDec ConnectionsGauge)].
Definition IncSessions (persistent : bool) : list instr :=
  [AddCount sessionsCount 1; Add (if persistent then sessionsPersistent else sessionsTransient) 1;
   RaiseMax sessionsMax; Prom (PInc SessionsGauge)].
Definition DecSessions (persistent : bool) : list instr :=
  [Add sessionsCount (-1); Add (if persistent then sessionsPersistent else sessionsTransient) (-1);
   Prom (PDec SessionsGauge)].
Definition IncSubscriptions (shared : bool) : list instr :=
  AddCount subscriptionsCount 1 :: (if shared then [Add subscriptionsShared 1] else [])
  ++ [RaiseMax subscriptionsMax; Prom (PInc SubscriptionsGauge)].
Definition DecSubscriptions (shared : bool) : list instr :=
  Add subscriptionsCount (-1) :: (if shared then [Add subscriptionsShared (-1)] else [])
  ++ [Prom (PDec SubscriptionsGauge)].
Definition IncMessagesReceived (qos : Z) : list instr :=
  Add messagesReceived 1
  :: (if qos =? 0 then [Add messagesQos0 1] else if qos =? 1 then [Add messagesQos1 1]
      else if qos =? 2 then [Add messagesQos2 1] else [])
  ++ [Prom (PInc MessagesReceivedCounter)].
Definition IncMessagesSent (qos : Z) : list instr :=
  [Add messagesSent 1; Prom (PInc MessagesSentCounter)].
Definition IncMessagesDropped : list instr :=
  [Add messagesDropped 1; Prom (PInc MessagesDroppedCounter)].
Definition IncMessagesRetained : list instr := [Add messagesRetained 1].
Definition IncPacketsReceived (packetType : string) : list instr :=
  Add packetsReceived 1
  :: (if packetType =s "CONNECT" then [Add packetsConnect 1]
      else if packetType =s "DISCONNECT" then [Add packetsDisconnect 1]
      else if packetType =s "PUBLISH" then [Add packetsPublish 1]
      else if packetType =s "SUBSCRIBE" then [Add packetsSubscribe 1]
      else if packetType =s "UNSUBSCRIBE" then [Add packetsUnsubscribe 1] else [])
  ++ [Prom (PInc PacketsReceivedCounter)].
Definition IncPacketsSent : list instr := [Add packetsSent 1; Prom (PInc PacketsSentCounter)].
Definition IncErrors : list instr := [Add errorsTotal 1].
Definition IncAuthFailures : list instr := [Add authFailures 1; Add errorsTotal 1].
Definition IncAclDenied : list instr := [Add aclDenied 1; Add errorsTotal 1].
Definition SetRoutes (count : Z) : list instr := [StoreCount routesCount count; RaiseMax routesMax].
Definition SetTopics (count : Z) : list instr := [StoreCount topicsCount count; RaiseMax topicsMax].

(** The methods that change counters. *)
Inductive method :=
  | MIncConnections | MDecConnections | MIncSessions (persistent : bool)
  | MDecSessions (persistent : bool) | MIncSubscriptions (shared : bool)
  | MDecSubscriptions (shared : bool) | MIncMessagesReceived (qos : Z) | MIncMessagesSent (qos : Z)
  | MIncMessagesDropped | MIncMessagesRetained | MIncPacketsReceived (packetType : string)
  | MIncPacketsSent | MIncErrors | MIncAuthFailures | MIncAclDenied
  | MSetRoutes (count : Z) | MSetTopics (count : Z).

Definition code (o : method) : list instr :=
  match o with
  | MIncConnections => IncConnections
  | MDecConnections => DecConnections
  | MIncSessions p => IncSessions p
  | MDecSessions p => DecSessions p
  | MIncSubscriptions s => IncSubscriptions s
  | MDecSubscriptions s => DecSubscriptions s
  | MIncMessagesReceived q => IncMessagesReceived q
  | MIncMessagesSent q => IncMessagesSent q
  | MIncMessagesDropped => IncMessagesDropped
  | MIncMessagesRetained => IncMessagesRetained
  | MIncPacketsReceived t => IncPacketsReceived t
  | MIncPacketsSent => IncPacketsSent
  | MIncErrors => IncErrors
  | MIncAuthFailures => IncAuthFailures
  | MIncAclDenied => IncAclDenied
  | MSetRoutes n => SetRoutes n
  | MSetTopics n => SetTopics n
  end.

(** ** One atomic instruction *)

Record thread := mkThread {
  t_count : Z;
  t_max : option Z;
  t_code : list instr;
}.

(** The cells, the Prometheus calls and the thread after its next instruction; a thread at the
    end of its method has none. *)
Definition instruction (m : cells) (ps : list promCall) (t : thread)
    : option (cells * list promCall * thread) :=
  match t_code t with
  | [] => None
  | AddCount c d :: rest =>
      let v := i64 (m c + d) in Some (set_cell c v m, ps, mkThread v None rest)
  | Add c d :: rest => Some (set_cell c (i64 (m c + d)) m, ps, mkThread (t_count t) None rest)
  | StoreCount c v :: rest => Some (set_cell c v m, ps, mkThread v None rest)
  | RaiseMax c :: rest =>
      match t_max t with
      | None =>
          (* max := atomic.LoadInt64; count <= max leaves the loop *)
          if t_count t <=? m c then Some (m, ps, mkThread (t_count t) None rest)
          else Some (m, ps, mkThread (t_count t) (Some (m c)) (t_code t))
      | Some max =>
          (* atomic.CompareAndSwapInt64 *)
          if m c =? max
          then Some (set_cell c (t_count t) m, ps, mkThread (t_count t) None rest)
          else Some (m, ps, mkThread (t_count t) None (t_code t))
      end
  | Prom p :: rest => Some (m, ps ++ [p], mkThread (t_count t) None rest)
  end.

(** A method called while no other goroutine is at the cells. *)
Definition callInstr (st : cells * list promCall * Z) (i : instr) : cells * list promCall * Z :=
  let '(m, ps, count) := st in
  match i with
  | AddCount c d => let v := i64 (m c + d) in (set_cell c v m, ps, v)
  | Add c d => (set_cell c (i64 (m c + d)) m, ps, count)
  | StoreCount c v => (set_cell c v m, ps, v)
  | RaiseMax c => (if count <=? m c then m else set_cell c count m, ps, count)
  | Prom p => (m, ps ++ [p], count)
  end.
Definition call (o : method) (m : cells) (ps : list promCall) : cells * list promCall :=
  (foldl callInstr (m, ps, 0) (code o)).1.

(** ** Goroutines

    [g_started] lists the methods called so far and [g_peak] is the largest value that each cell
    has had: both only serve to state what holds. *)
Record config := mkConfig {
  g_cells : cells;
  g_prom : list promCall;
  g_threads : list thread;
  g_started : list method;
  g_peak : cells;
}.

Definition initial : config := mkConfig (λ _, 0) [] [] [] (λ _, 0).

Inductive step : config → config → Prop :=
  | step_call g o :
      step g (mkConfig (g_cells g) (g_prom g) (g_threads g ++ [mkThread 0 None (code o)])
                (g_started g ++ [o]) (g_peak g))
  | step_instr g i t m' ps' t' :
      g_threads g !! i = Some t →
      instruction (g_cells g) (g_prom g) t = Some (m', ps', t') →
      step g (mkConfig m' ps' (<[i := t']> (g_threads g)) (g_started g)
                (λ c, Z.max (g_peak g c) (m' c))).

Definition reachable (g : config) : Prop := rtc step initial g.

(** No goroutine is inside a method. *)
Definition quiescent (g : config) : Prop := Forall (λ t, t_code t = []) (g_threads g).

(** ** Statistics *)

Record Statistics := mkStatistics {
  Connections_Count : Z; Connections_Max : Z;
  Sessions_Count : Z; Sessions_Max : Z; Sessions_Persistent : Z; Sessions_Transient : Z;
  Subscriptions_Count : Z; Subscriptions_Max : Z; Subscriptions_Shared : Z;
  Routes_Count : Z; Routes_Max : Z; Topics_Count : Z; Topics_Max : Z;
  Messages_Received : Z; Messages_Sent : Z; Messages_Dropped : Z; Messages_Retained : Z;
  Messages_Qos0 : Z; Messages_Qos1 : Z; Messages_Qos2 : Z;
  Packets_Received : Z; Packets_Sent : Z; Packets_Connect : Z; Packets_Disconnect : Z;
  Packets_Publish : Z; Packets_Subscribe : Z; Packets_Unsubscribe : Z;
  Errors_Total : Z; Errors_AuthFailures : Z; Errors_AclDenied : Z;
  Node_Uptime : Z; Node_StartTime : string;
}.

Section Metrics.
Context `{GoFloat} (formatRFC3339 : Time → string).

(** [d.Seconds()]: whole seconds and the rest are added as floating-point numbers. *)
Definition Seconds (d : Duration) : float64 :=
  float_add (float_of_int (Z.quot d Second))
    (float_div (float_of_int (Z.rem d Second)) (float_of_int (10 ^ 9))).

(** The cells are read one after the other; here no other goroutine changes them meanwhile.  The
    method also stores the uptime. *)
Definition GetStatistics (mm : MetricsManager) (now : Time) : Statistics * MetricsManager :=
  let mm := mkMetricsManager (fields mm) (startTime mm) (now - startTime mm) in
  let f := fields mm in
  (mkStatistics (f connectionsCount) (f connectionsMax)
     (f sessionsCount) (f sessionsMax) (f sessionsPersistent) (f sessionsTransient)
     (f subscriptionsCount) (f subscriptionsMax) (f subscriptionsShared)
     (f routesCount) (f routesMax) (f topicsCount) (f topicsMax)
     (f messagesReceived) (f messagesSent) (f messagesDropped) (f messagesRetained)
     (f messagesQos0) (f messagesQos1) (f messagesQos2)
     (f packetsReceived) (f packetsSent) (f packetsConnect) (f packetsDisconnect)
     (f packetsPublish) (f packetsSubscribe) (f packetsUnsubscribe)
     (f errorsTotal) (f authFailures) (f aclDenied)
     (int_of_float (Seconds (uptime mm))) (formatRFC3339 (startTime mm)), mm).

(** The JSON form of the statistics. *)
Definition statisticsJSON (s : Statistics) : json :=
  jstruct [
    ("connections", jstruct [("count", JInt (Connections_Count s)); ("max", JInt (Connections_Max s))]);
    ("sessions", jstruct [("count", JInt (Sessions_Count s)); ("max", JInt (Sessions_Max s));
       ("persistent", JInt (Sessions_Persistent s)); ("transient", JInt (Sessions_Transient s))]);
    ("subscriptions", jstruct [("count", JInt (Subscriptions_Count s));
       ("max", JInt (Subscriptions_Max s)); ("shared", JInt (Subscriptions_Shared s))]);
    ("routes", jstruct [("count", JInt (Routes_Count s)); ("max", JInt (Routes_Max s))]);
    ("topics", jstruct [("count", JInt (Topics_Count s)); ("max", JInt (Topics_Max s))]);
    ("messages", jstruct [("received", JInt (Messages_Received s)); ("sent", JInt (Messages_Sent s));
       ("dropped", JInt (Messages_Dropped s)); ("retained", JInt (Messages_Retained s));
       ("qos0", JInt (Messages_Qos0 s)); ("qos1", JInt (Messages_Qos1 s));
       ("qos2", JInt (Messages_Qos2 s))]);
    ("packets", jstruct [("received", JInt (Packets_Received s)); ("sent", JInt (Packets_Sent s));
       ("connect", JInt (Packets_Connect s)); ("disconnect", JInt (Packets_Disconnect s));
       ("publish", JInt (Packets_Publish s)); ("subscribe", JInt (Packets_Subscribe s));
       ("unsubscribe", JInt (Packets_Unsubscribe s))]);
    ("errors", jstruct [("total", JInt (Errors_Total s)); ("auth_failures", JInt (Errors_AuthFailures s));
       ("acl_denied", JInt (Errors_AclDenied s))]);
    ("node", jstruct [("uptime", JInt (Node_Uptime s)); ("start_time", JString (Node_StartTime s))])].

Definition UpdatePrometheusMetrics (mm : MetricsManager) (ps : list promCall) (now : Time)
    : MetricsManager * list promCall :=
  let '(stats, mm) := GetStatistics mm now in
  (mm, ps ++ [PSet ConnectionsGauge (Connections_Count stats);
              PSet SessionsGauge (Sessions_Count stats);
              PSet SubscriptionsGauge (Subscriptions_Count stats);
              PSet UptimeGauge (Node_Uptime stats)]).

(** ** Handlers *)

(** [promhttp.Handler().ServeHTTP] and the writes of a template file, if it can be parsed. *)
Context (promServe : list promCall → ResponseWriter → Request → ResponseWriter)
  (templateFile : string → option (list string)).

Definition statsHandler (mm : MetricsManager) (now : Time) (w : ResponseWriter)
    : ResponseWriter * MetricsManager :=
  let w := Header_Set ContentType "application/json" w in
  let '(stats, mm) := GetStatistics mm now in
  let '(err, w) := Encode (Ok (statisticsJSON stats)) w in
  (match err with Some e => http_Error w e StatusInternalServerError | None => w end, mm).

Definition metricsHandler (mm : MetricsManager) (ps : list promCall) (now : Time)
    (w : ResponseWriter) (r : Request) : ResponseWriter * MetricsManager * list promCall :=
  let '(mm, ps) := UpdatePrometheusMetrics mm ps now in (promServe ps w r, mm, ps).

Definition dashboardIndexHandler (w : ResponseWriter) (r : Request) : ResponseWriter :=
  if URL_Path r =s "/" then http_Redirect w r "/dashboard" StatusTemporaryRedirect
  else http_NotFound w.

Definition serveTemplate (w : ResponseWriter) (templateName : string) : ResponseWriter :=
  match templateFile ("web/templates/" +:+ templateName) with
  | None => http_Error w "Internal Server Error" StatusInternalServerError
  | Some writes =>
      foldl (λ w s, (Write (CText s) w).2) (Header_Set ContentType "text/html; charset=utf-8" w) writes
  end.

Definition loginPageHandler (w : ResponseWriter) : ResponseWriter := serveTemplate w "login.html".
Definition dashboardPageHandler (w : ResponseWriter) : ResponseWriter :=
  serveTemplate w "dashboard.html".

Definition notAllowed (w : ResponseWriter) : ResponseWriter :=
  http_Error w "Method not allowed" StatusMethodNotAllowed.

(** The user name and password of the request's JSON object. *)
Definition decodeLogin (body : option json) : option (string * string) :=
  l ← body ≫= fieldsOf;
  username ← field decString "" "username" l;
  password ← field decString "" "password" l;
  Some (username, password).

Definition loginHandler (w : ResponseWriter) (r : Request) : ResponseWriter :=
  if R_Method r <>s MethodPost then notAllowed w
  else
    match decodeLogin (R_Body r) with
    | None => http_Error w "Invalid JSON" StatusBadRequest
    | Some (username, password) =>
        if (username =s "admin") && (password =s "admin") then
          let response := jmap [("status", JInt 200);
            ("data", jmap [("token", JString "mock-jwt-token-12345"); ("username", JString username)])] in
          let w := Header_Set ContentType "application/json" w in
          let w := Header_Set "Access-Control-Allow-Origin" "*" w in
          Encode_dropped (Ok response) w
        else
          let w := WriteHeader StatusUnauthorized (Header_Set ContentType "application/json" w) in
          Encode_dropped (Ok (jmap [("status", JInt 401); ("error", JString "Invalid credentials")])) w
    end.

(** The listings with their page. *)
Definition listing (rows : list json) : json :=
  jmap [("data", JArray rows);
        ("meta", jmap [("page", JInt 1); ("limit", JInt 100); ("count", JInt (blen rows))])].

Definition clientsHandler (now : Time) (w : ResponseWriter) (r : Request) : ResponseWriter :=
  if R_Method r <>s MethodGet then notAllowed w
  else
    let row id user ago :=
      jmap [("clientid", JString id); ("username", JString user); ("connected", JBool true);
            ("ip_address", JString "127.0.0.1"); ("port", JInt 1883);
            ("connected_at", JString (formatRFC3339 (now - ago * Minute)))] in
    Encode_dropped (Ok (listing [row "test-client-1" "test" 5; row "test-client-2" "admin" 2]))
      (Header_Set ContentType "application/json" w).

Definition subscriptionsHandler (w : ResponseWriter) (r : Request) : ResponseWriter :=
  if R_Method r <>s MethodGet then notAllowed w
  else
    let row id topic qos :=
      jmap [("clientid", JString id); ("topic", JString topic); ("qos", JInt qos);
            ("nl", JInt 0); ("rap", JInt 0); ("rh", JInt 0)] in
    Encode_dropped (Ok (listing [row "test-client-1" "test/topic/+" 1; row "test-client-2" "system/metrics" 0]))
      (Header_Set ContentType "application/json" w).

(** A nil slice is written as [null]. *)
Definition blacklistHandler (w : ResponseWriter) (r : Request) : ResponseWriter :=
  if R_Method r =s "GET" then
    let entries :=
      if Query_Get r "type" =s "clientid"
      then JArray [jmap [("value", JString "malicious-client"); ("action", JString "deny")]]
      else JNull in
    Encode_dropped (Ok entries) (Header_Set ContentType "application/json" w)
  else if R_Method r =s "POST" then
    let w := WriteHeader StatusCreated w in
    let response := jmap [("message", JString "Blacklist entry created")] in
    Encode_dropped (Ok response) (Header_Set ContentType "application/json" w)
  else notAllowed w.

(** ** Routes *)

Inductive page :=
  | PStatic | PIndex | PLogin | PDashboard | PMetrics | PStats | PLoginAPI | PClients
  | PSubscriptions | PBlacklist.

(** The registrations of [Serve] with the process-wide mux, once per process. *)
Definition Serve_register (routesRegistered : bool) (mux : list (string * page))
    : outcome (bool * list (string * page)) :=
  if negb routesRegistered then
    let! mux := mux_register mux
      [("/static/", PStatic); ("/", PIndex); ("/login", PLogin); ("/dashboard", PDashboard);
       ("/clients", PDashboard); ("/subscriptions", PDashboard); ("/monitoring", PDashboard);
       ("/metrics", PMetrics); ("/api/v5/stats", PStats); ("/api/v5/prometheus/stats", PMetrics);
       ("/api/v5/login", PLoginAPI); ("/api/v5/clients", PClients);
       ("/api/v5/subscriptions", PSubscriptions); ("/api/v5/blacklist", PBlacklist)] in
    Returns (true, mux)
  else Returns (routesRegistered, mux).
End Metrics.
