(* ===== verification/MetricsProps.v ===== *)
(** * MetricsProps: the counters under concurrent callers

    [metrics_exact]: once the goroutines are out of the methods, every counter is the sum of what
    the calls contributed and every maximum is the largest value its counter ever had, in
    whatever order the atomic instructions were carried out.  [raise_terminates]: the loop
    of a goroutine ends when the others do not interfere. *)

From S2P Require Import Prelude GoLib GoValue GoJSON GoHTTP Metrics.
Local Open Scope emqx_scope.
Local Open Scope Z_scope.

(** ** Specification *)

(** What a call adds to a counter. *)
Definition contribution (o : method) (c : cell) : Z :=
  match o, c with
  | MIncConnections, (connectionsCount | connectionsTotal) => 1
  | MDecConnections, connectionsCount => -1
  | MDecConnections, disconnectionsTotal => 1
  | MIncSessions _, sessionsCount => 1
  | MIncSessions p, sessionsPersistent => if p then 1 else 0
  | MIncSessions p, sessionsTransient => if p then 0 else 1
  | MDecSessions _, sessionsCount => -1
  | MDecSessions p, sessionsPersistent => if p then -1 else 0
  | MDecSessions p, sessionsTransient => if p then 0 else -1
  | MIncSubscriptions _, subscriptionsCount => 1
  | MIncSubscriptions s, subscriptionsShared => if s then 1 else 0
  | MDecSubscriptions _, subscriptionsCount => -1
  | MDecSubscriptions s, subscriptionsShared => if s then -1 else 0
  | MIncMessagesReceived _, messagesReceived => 1
  | MIncMessagesReceived q, messagesQos0 => if q =? 0 then 1 else 0
  | MIncMessagesReceived q, messagesQos1 => if q =? 1 then 1 else 0
  | MIncMessagesReceived q, messagesQos2 => if q =? 2 then 1 else 0
  | MIncMessagesSent _, messagesSent => 1
  | MIncMessagesDropped, messagesDropped => 1
  | MIncMessagesRetained, messagesRetained => 1
  | MIncPacketsReceived _, packetsReceived => 1
  | MIncPacketsReceived t, packetsConnect => if t =s "CONNECT" then 1 else 0
  | MIncPacketsReceived t, packetsDisconnect => if t =s "DISCONNECT" then 1 else 0
  | MIncPacketsReceived t, packetsPublish => if t =s "PUBLISH" then 1 else 0
  | MIncPacketsReceived t, packetsSubscribe => if t =s "SUBSCRIBE" then 1 else 0
  | MIncPacketsReceived t, packetsUnsubscribe => if t =s "UNSUBSCRIBE" then 1 else 0
  | MIncPacketsSent, packetsSent => 1
  | MIncErrors, errorsTotal => 1
  | MIncAuthFailures, (authFailures | errorsTotal) => 1
  | MIncAclDenied, (aclDenied | errorsTotal) => 1
  | _, _ => 0
  end.

Definition Zsum (l : list Z) : Z := foldr Z.add 0 l.

(** The maximum that is kept of a counter. *)
Definition maxOf (c : cell) : option cell :=
  match c with
  | connectionsCount => Some connectionsMax
  | sessionsCount => Some sessionsMax
  | subscriptionsCount => Some subscriptionsMax
  | routesCount => Some routesMax
  | topicsCount => Some topicsMax
  | _ => None
  end.

Definition isMax (c : cell) : bool :=
  match c with
  | connectionsMax | sessionsMax | subscriptionsMax | routesMax | topicsMax => true
  | _ => false
  end.

(** The counters that calls add to: neither maxima nor the two that are set. *)
Definition additive (c : cell) : bool :=
  match c with routesCount | topicsCount => false | _ => negb (isMax c) end.

(** ** Sums *)

Lemma Zsum_app l k : Zsum (l ++ k) = Zsum l + Zsum k.
Proof. induction l as [|x l IH]; simpl in *; lia. Qed.

Lemma Zsum_insert {A} (f : A → Z) (l : list A) i x y :
  l !! i = Some x → Zsum (f <$> <[i := y]> l) = Zsum (f <$> l) - f x + f y.
Proof.
  revert i. induction l as [|z l IH]; intros [|i] Hi; try done; csimpl in *.
  - simplify_eq. lia.
  - rewrite (IH _ Hi). lia.
Qed.

(** ** The instructions of a method *)

(** What instructions still add to a counter. *)
Definition adds (c : cell) (i : instr) : Z :=
  match i with
  | AddCount c' d | Add c' d => if decide (c' = c) then d else 0
  | _ => 0
  end.
Definition pend (c : cell) (il : list instr) : Z := Zsum (adds c <$> il).

Definition counts (i : instr) : bool :=
  match i with AddCount _ _ | StoreCount _ _ => true | _ => false end.

(** The shape of the methods: an instruction that yields [count] is the only one, and is
    followed by the loop for the maximum of its counter and no other; additions leave the
    maxima and the set counters alone, and lower the counters that have a maximum. *)
Fixpoint shaped (il : list instr) : Prop :=
  match il with
  | [] => True
  | i :: il' =>
      match i with
      | AddCount c _ => additive c = true ∧ forallb (negb ∘ counts) il' = true ∧
          ∀ m, RaiseMax m ∈ il' ↔ maxOf c = Some m
      | StoreCount c _ => additive c = false ∧ isMax c = false ∧
          forallb (negb ∘ counts) il' = true ∧ ∀ m, RaiseMax m ∈ il' ↔ maxOf c = Some m
      | Add c d => additive c = true ∧ (is_Some (maxOf c) → d = -1)
      | RaiseMax m => isMax m = true ∧ forallb (negb ∘ counts) il' = true
      | Prom _ => True
      end ∧ shaped il'
  end.

(** The code of each method, with its tests decided. *)
Ltac each_code o :=
  destruct o; unfold code, IncSessions, DecSessions, IncSubscriptions, DecSubscriptions,
    IncPacketsReceived, IncMessagesReceived;
  repeat match goal with
    | |- context [if ?b then _ else _] => match type of b with bool => destruct b eqn:? end
    end.

Lemma contribution_code o c : pend c (code o) = contribution o c.
Proof. each_code o; destruct c; bool_prop; subst; simpl; repeat case_match; bool_prop; done. Qed.

Lemma shaped_code o : shaped (code o).
Proof.
  assert (∀ (m : cell) il i, RaiseMax m ∈ i :: il ↔ i = RaiseMax m ∨ RaiseMax m ∈ il) as Hc
    by (intros; rewrite elem_of_cons; naive_solver).
  each_code o; simpl; split_and?; try done; try (by intros [? ?]);
    intros m; destruct m; rewrite ?Hc, ?elem_of_nil; naive_solver.
Qed.

(** Only additions in the code: those of a suffix are part of those of the method. *)
Lemma pend_cons c i il : pend c (i :: il) = adds c i + pend c il.
Proof. done. Qed.

Lemma pend_app c il jl : pend c (il ++ jl) = pend c il + pend c jl.
Proof. unfold pend. by rewrite fmap_app, Zsum_app. Qed.

(** Each method changes a counter at most once, by one. *)
Lemma executed_bound o c pre il : code o = pre ++ il → Z.abs (pend c pre) ≤ 1.
Proof.
  assert (Hone : ∀ l : list Z, (length (filter (λ z : Z, z ≠ 0%Z) l) ≤ 1)%nat →
    Forall (λ z, Z.abs z ≤ 1) l → Z.abs (Zsum l) ≤ 1).
  { induction l as [|z l IH]; intros Hl Hf; [done|].
    apply Forall_cons in Hf as [Hz Hf]. rewrite filter_cons in Hl. simpl. case_decide.
    - assert (Zsum l = 0) as ->; [|lia]. simpl in Hl. clear IH.
      induction l as [|y l IH]; [done|]. apply Forall_cons in Hf as [_ Hf].
      rewrite filter_cons in Hl. case_decide; simpl in *; [lia|]. rewrite IH; [lia|done|done].
    - assert (z = 0) as -> by lia. by apply IH. }
  intros Hc. unfold pend. apply Hone.
  - assert (length (filter (λ z : Z, z ≠ 0%Z) (adds c <$> code o)) ≤ 1)%nat as H1.
    { clear. apply Nat.leb_le. each_code o; destruct c; vm_compute; reflexivity. }
    rewrite Hc, fmap_app, filter_app, length_app in H1. lia.
  - assert (Forall (λ z, Z.abs z ≤ 1) (adds c <$> code o)) as H1.
    { clear. each_code o; destruct c; repeat constructor; vm_compute; discriminate. }
    rewrite Hc, fmap_app in H1. by apply Forall_app in H1 as [? _].
Qed.

(** ** The invariant *)

(** A goroutine in method [o]: the instructions left are the end of its code; before the
    instruction that yields [count] it is 0; a maximum it has loaded is below its count. *)
Definition thread_ok (o : method) (t : thread) : Prop :=
  (∃ pre, code o = pre ++ t_code t) ∧ shaped (t_code t) ∧
  (forallb (negb ∘ counts) (t_code t) = false → t_count t = 0) ∧
  (∀ x, t_max t = Some x → x < t_count t).

(** What the goroutines have added so far. *)
Definition executed (g : config) (c : cell) : Z :=
  Zsum ((λ o, pend c (code o)) <$> g_started g) - Zsum ((λ t, pend c (t_code t)) <$> g_threads g).

Definition raising (m : cell) (t : thread) : Prop := RaiseMax m ∈ t_code t.

Record pair_ok (g : config) (c m : cell) : Prop := mkPairOk {
  max_nonneg : 0 ≤ g_cells g m;
  max_le_peak : g_cells g m ≤ g_peak g c;
  raising_le_peak : ∀ t, t ∈ g_threads g → raising m t → t_count t ≤ g_peak g c;
  peak_raised : g_peak g c ≤ g_cells g m ∨
    ∃ i t, g_threads g !! i = Some t ∧ raising m t ∧ t_count t = g_peak g c;
}.

Record counters_ok (g : config) : Prop := mkCountersOk {
  threads_ok : Forall2 thread_ok (g_started g) (g_threads g);
  cells_sum : ∀ c, additive c = true → g_cells g c = i64 (executed g c);
  cells_le_peak : ∀ c, g_cells g c ≤ g_peak g c;
  pairs_ok : ∀ c m, maxOf c = Some m → pair_ok g c m;
}.

(** Few enough calls that no counter wraps around. *)
Definition few (g : config) : Prop := Z.of_nat (length (g_started g)) < 2 ^ 63.

Lemma executed_abs g c :
  Forall2 thread_ok (g_started g) (g_threads g) →
  Z.abs (executed g c) ≤ Z.of_nat (length (g_started g)).
Proof.
  unfold executed. induction 1 as [|o t os ts Ht _ IH]; [done|]. csimpl.
  destruct Ht as ((pre & Hc) & _). pose proof (executed_bound o c pre _ Hc) as Hb.
  rewrite Hc, pend_app. lia.
Qed.

Lemma additive_not_max c : additive c = true → isMax c = false.
Proof. by destruct c. Qed.
Lemma maxOf_isMax c m : maxOf c = Some m → isMax m = true ∧ isMax c = false.
Proof. destruct c; intros [= <-]; done. Qed.
Lemma maxOf_inj c c' m : maxOf c = Some m → maxOf c' = Some m → c = c'.
Proof. destruct c; intros [= <-]; by destruct c'. Qed.

Lemma set_cell_eq c v (f : cells) : set_cell c v f c = v.
Proof. unfold set_cell. by rewrite decide_True. Qed.
Lemma set_cell_ne c c' v (f : cells) : c' ≠ c → set_cell c v f c' = f c'.
Proof. intros. unfold set_cell. by rewrite decide_False. Qed.

Lemma counters_ok_initial : counters_ok initial.
Proof.
  split; simpl; [constructor|done|done|]. intros c m _. split; simpl; [done|done| |by left].
  intros t Ht. by apply not_elem_of_nil in Ht.
Qed.

(** ** Preservation *)

Definition after (g : config) (i : nat) (m' : cells) (ps' : list promCall) (t' : thread) : config :=
  mkConfig m' ps' (<[i := t']> (g_threads g)) (g_started g) (λ c, Z.max (g_peak g c) (m' c)).

Lemma pair_ok_step g i t m' ps' t' c m :
  let peak' := Z.max (g_peak g c) (m' c) in
  pair_ok g c m → g_threads g !! i = Some t →
  g_cells g m ≤ m' m → m' m ≤ peak' → (raising m t' → t_count t' ≤ peak') →
  (peak' ≤ m' m ∨ (raising m t' ∧ t_count t' = peak') ∨
   (peak' = g_peak g c ∧ (raising m t → t_count t = peak' →
      (raising m t' ∧ t_count t' = peak') ∨ peak' ≤ m' m))) →
  pair_ok (after g i m' ps' t') c m.
Proof.
  intros peak' [Hn Hmp Hr Hp] Hi Hmono Hle Ht' Hor.
  assert (Hlt : (i < length (g_threads g))%nat) by by eapply lookup_lt_Some.
  split; simpl; fold peak'; [lia|done| |].
  - intros u [j Hj]%list_elem_of_lookup Hu. destruct (decide (i = j)) as [->|Hne].
    + rewrite list_lookup_insert_eq in Hj by done. simplify_eq. by apply Ht'.
    + rewrite list_lookup_insert_ne in Hj by done.
      specialize (Hr u (list_elem_of_lookup_2 _ _ _ Hj) Hu). lia.
  - destruct Hor as [?|[[? ?]|[Heq Hw]]]; [by left| |].
    + right. exists i, t'. by rewrite list_lookup_insert_eq.
    + destruct Hp as [?|(j & u & Hj & Hu & Hc)]; [left; lia|].
      destruct (decide (i = j)) as [<-|Hne].
      * simplify_eq. destruct Hw as [[? ?]|?]; [done|lia| |by left].
        right. exists i, t'. by rewrite list_lookup_insert_eq.
      * right. exists j, u. rewrite list_lookup_insert_ne by done. split_and!; [done..|lia].
Qed.

(** A counter gets a new value, which the goroutine remembers to raise the maximum. *)
Lemma pair_ok_count g i t ps' c v ins rest c0 m0 :
  pair_ok g c0 m0 → maxOf c0 = Some m0 → (∀ c, g_cells g c ≤ g_peak g c) →
  g_threads g !! i = Some t → t_code t = ins :: rest → (∀ m, ins ≠ RaiseMax m) →
  (∀ m, RaiseMax m ∈ rest ↔ maxOf c = Some m) → isMax c = false → t_count t = 0 →
  pair_ok (after g i (set_cell c v (g_cells g)) ps' (mkThread v None rest)) c0 m0.
Proof.
  intros Hp Hm0 Hpk Hi Hcode Hins Hrest Hc Ht.
  destruct (maxOf_isMax _ _ Hm0) as [Hmm Hmc].
  assert (m0 ≠ c) by (intros ->; congruence). pose proof Hp as [Hn Hmp Hr Hpr].
  eapply pair_ok_step; [done|done|..]; unfold raising; simpl;
    rewrite ?(set_cell_ne c m0) by done; [done|lia|..]; destruct (decide (c0 = c)) as [->|Hne];
    rewrite ?set_cell_eq, ?(set_cell_ne c c0) by done.
  - lia.
  - intros Hin%Hrest. by destruct Hne; eapply maxOf_inj.
  - destruct (decide (g_peak g c ≤ v)).
    + right; left. split; [by apply Hrest|lia].
    + right; right. split; [lia|]. intros _ Hpk0. right. lia.
  - right; right. specialize (Hpk c0). split; [lia|]. intros Hin _. unfold raising in Hin.
    rewrite Hcode in Hin. apply elem_of_cons in Hin as [Heq|Hin]; [by destruct (Hins m0)|].
    apply Hrest in Hin. by destruct Hne; eapply maxOf_inj.
Qed.

(** The goroutine goes on with the same count, and no counter exceeds its peak. *)
Lemma pair_ok_same g i t m' ps' t' c0 m0 :
  pair_ok g c0 m0 → g_threads g !! i = Some t → m' m0 = g_cells g m0 → m' c0 ≤ g_peak g c0 →
  t_count t' = t_count t → (raising m0 t' ↔ raising m0 t) →
  pair_ok (after g i m' ps' t') c0 m0.
Proof.
  intros Hp Hi Hm Hc Hcnt Hra. pose proof Hp as [Hn Hmp Hr Hpr].
  eapply pair_ok_step; [done|done|..]; rewrite ?Hm, ?Hcnt, ?Hra; [lia|lia|..].
  - intros Hra'. specialize (Hr t (list_elem_of_lookup_2 _ _ _ Hi) Hra'). lia.
  - right; right. split; [lia|]. intros ? ?. left. by split.
Qed.

(** A round of the loop that ends it: the count is not above the maximum, or the maximum was
    still the one loaded and is replaced. *)
Lemma pair_ok_raised g i t m' ps' m rest c0 m0 :
  pair_ok g c0 m0 → maxOf c0 = Some m0 → (∀ c, g_cells g c ≤ g_peak g c) →
  g_threads g !! i = Some t → t_code t = RaiseMax m :: rest → isMax m = true →
  (m' = g_cells g ∧ t_count t ≤ g_cells g m ∨
   m' = set_cell m (t_count t) (g_cells g) ∧ g_cells g m < t_count t) →
  pair_ok (after g i m' ps' (mkThread (t_count t) None rest)) c0 m0.
Proof.
  intros Hp Hm0 Hpk Hi Hcode Hm Hm'. pose proof Hp as [Hn Hmp Hr Hpr].
  destruct (maxOf_isMax _ _ Hm0) as [Hmm Hmc].
  assert (c0 ≠ m) by (intros ->; congruence).
  assert (Hc0 : m' c0 = g_cells g c0) by (destruct Hm' as [[-> _]|[-> _]]; by rewrite ?set_cell_ne).
  specialize (Hpk c0). specialize (Hr t (list_elem_of_lookup_2 _ _ _ Hi)).
  assert (Hrt : raising m0 t ↔ m0 = m ∨ raising m0 (mkThread (t_count t) None rest)).
  { unfold raising. rewrite Hcode, elem_of_cons. simpl. naive_solver. }
  assert (Hmax : (m0 = m → m' m0 = Z.max (g_cells g m0) (t_count t)) ∧
                 (m0 ≠ m → m' m0 = g_cells g m0)).
  { split; [intros ->|intros ?]; destruct Hm' as [[-> ?]|[-> ?]];
      rewrite ?set_cell_eq, ?set_cell_ne by done; lia. }
  destruct Hmax as [Hme Hmn].
  eapply pair_ok_step; [done|done|..]; rewrite ?Hc0; simpl;
    destruct (decide (m0 = m)) as [Heq|Hne];
    [specialize (Hme Heq)|specialize (Hmn Hne)|specialize (Hme Heq)|specialize (Hmn Hne)|..].
  - lia.
  - lia.
  - assert (t_count t ≤ g_peak g c0) by (apply Hr, Hrt; by left). lia.
  - lia.
  - intros ?. assert (t_count t ≤ g_peak g c0) by (apply Hr, Hrt; by right). lia.
  - intros ?. assert (t_count t ≤ g_peak g c0) by (apply Hr, Hrt; by right). lia.
  - specialize (Hme Heq). right; right. split; [lia|]. intros _ ?. right. lia.
  - specialize (Hmn Hne). right; right. split; [lia|]. intros Hra ?. left.
    apply Hrt in Hra as [?|?]; [done|]. by split.
Qed.

Lemma thread_ok_step o t m ps m' ps' t' :
  thread_ok o t → instruction m ps t = Some (m', ps', t') → thread_ok o t'.
Proof.
  intros ((pre & Hc) & Hs & H0 & Hx) Hi. unfold instruction in Hi.
  destruct (t_code t) as [|ins rest] eqn:Ec; [done|]. destruct Hs as [Hins Hs].
  assert (Htail : ∃ pre, code o = pre ++ rest).
  { exists (pre ++ [ins]). by rewrite <-app_assoc. }
  destruct ins; repeat case_match; simplify_eq/=; unfold thread_ok; simpl; rewrite ?Ec;
    split_and!; try done; eauto; try (by bool_prop; naive_solver);
    try (by rewrite Ec in *; intros; destruct Hins; congruence);
    try (intros Hf; destruct_and?; congruence).
Qed.

Lemma executed_after g i t m' ps' t' c :
  g_threads g !! i = Some t →
  executed (after g i m' ps' t') c = executed g c + pend c (t_code t) - pend c (t_code t').
Proof.
  intros Hi. unfold executed, after. simpl.
  rewrite (Zsum_insert (λ t, pend c (t_code t)) _ _ t t') by done. lia.
Qed.

(** An instruction changes the counters by what it takes from the code left. *)
Lemma cells_sum_step g i t m' ps' t' c :
  g_threads g !! i = Some t → shaped (t_code t) →
  instruction (g_cells g) (g_prom g) t = Some (m', ps', t') →
  additive c = true → g_cells g c = i64 (executed g c) →
  m' c = i64 (executed (after g i m' ps' t') c).
Proof.
  intros Hi Hs Hins Hc Hsum. rewrite (executed_after g i t) by done.
  pose proof (additive_not_max _ Hc) as Hnm. unfold instruction in Hins.
  destruct (t_code t) as [|ins rest] eqn:Ec; [done|]. destruct Hs as [Hsh _].
  destruct ins as [c' d|c' d|c' v|c'|p]; repeat case_match; simplify_eq/=; rewrite ?Ec, ?pend_cons;
    simpl; unfold set_cell; repeat case_decide; simplify_eq; rewrite ?Hsum, ?i64_add_l;
    try (f_equal; lia); destruct_and?; congruence.
Qed.

Lemma pairs_ok_step g i o t m' ps' t' :
  counters_ok g → few g → g_started g !! i = Some o → g_threads g !! i = Some t → thread_ok o t →
  instruction (g_cells g) (g_prom g) t = Some (m', ps', t') →
  ∀ c m, maxOf c = Some m → pair_ok (after g i m' ps' t') c m.
Proof.
  intros [Hts Hsum Hpk Hpairs] Hfew Ho Hi Ht Hins c0 m0 Hm0.
  assert (Hp := Hpairs _ _ Hm0). destruct (maxOf_isMax _ _ Hm0) as [Hmm Hmc].
  pose proof Ht as (_ & Hs & H0 & Hx).
  assert (Hall := λ c Hc, cells_sum_step g i t m' ps' t' c Hi Hs Hins Hc (Hsum c Hc)).
  assert (Habs := λ c, executed_abs g c Hts).
  assert (Habs' : ∀ c, Z.abs (executed (after g i m' ps' t') c) ≤ Z.of_nat (length (g_started g))).
  { intros c. apply (executed_abs (after g i m' ps' t')). simpl.
    rewrite <-(list_insert_id (g_started g) i o) by done.
    apply Forall2_insert; [done|]. by eapply thread_ok_step. }
  unfold few in Hfew. unfold instruction in Hins.
  destruct (t_code t) as [|ins rest] eqn:Ec; [done|]. destruct Hs as [Hsh Hs].
  destruct ins as [c' d|c' d|c' v|m|p].
  - simplify_eq. destruct Hsh as (Hadd & Hfree & Hr).
    eapply pair_ok_count; eauto using additive_not_max.
  - simplify_eq. destruct Hsh as (Hadd & Hd).
    eapply pair_ok_same; [done|done|..].
    + apply set_cell_ne. intros ->. by rewrite (additive_not_max c') in Hmm.
    + destruct (decide (c0 = c')) as [->|]; [|rewrite set_cell_ne by done; apply Hpk].
      rewrite (Hall c' Hadd), (executed_after g i t) by done. rewrite Ec. simpl.
      rewrite pend_cons. simpl. rewrite decide_True by done. rewrite (Hd (mk_is_Some _ _ Hm0)).
      specialize (Hpk c'). rewrite (Hsum c' Hadd) in Hpk. specialize (Habs c').
      specialize (Habs' c'). rewrite (executed_after g i t) in Habs' by done.
      rewrite Ec in Habs'. simpl in Habs'. rewrite pend_cons in Habs'. simpl in Habs'.
      rewrite decide_True, (Hd (mk_is_Some _ _ Hm0)) in Habs' by done.
      rewrite i64_id in Hpk by lia. rewrite i64_id by lia. lia.
    + done.
    + unfold raising. rewrite Ec, elem_of_cons. simpl. naive_solver.
  - simplify_eq. destruct Hsh as (Hadd & Hc & Hfree & Hr). eapply pair_ok_count; eauto.
  - destruct Hsh as (Hm & _). destruct (t_max t) as [x|] eqn:Ex.
    + destruct (g_cells g m =? x) eqn:Eq; simplify_eq; bool_prop.
      * eapply pair_ok_raised; eauto. right. split; [done|]. subst. by apply Hx.
      * eapply pair_ok_same; eauto. unfold raising. by rewrite Ec.
    + destruct (t_count t <=? g_cells g m) eqn:Eq; simplify_eq; bool_prop.
      * eapply pair_ok_raised; eauto.
      * eapply pair_ok_same; eauto. unfold raising. by rewrite Ec.
  - simplify_eq. eapply pair_ok_same; eauto. unfold raising. rewrite Ec, elem_of_cons. naive_solver.
Qed.

Lemma counters_ok_call g o :
  counters_ok g →
  counters_ok (mkConfig (g_cells g) (g_prom g) (g_threads g ++ [mkThread 0 None (code o)])
                 (g_started g ++ [o]) (g_peak g)).
Proof.
  intros [Hts Hsum Hpk Hpairs]. split; simpl.
  - apply Forall2_app; [done|]. constructor; [|constructor]. split_and!; simpl; try done.
    + by exists [].
    + apply shaped_code.
  - intros c Hc. rewrite (Hsum c Hc). f_equal. unfold executed. simpl.
    rewrite !fmap_app, !Zsum_app. simpl. lia.
  - done.
  - intros c m Hcm. destruct (Hpairs c m Hcm) as [Hn Hmp Hr Hp]. split; simpl; [done|done| |].
    + intros t [Ht|Ht]%elem_of_app Hra; [by apply Hr|].
      apply list_elem_of_singleton in Ht as ->. simpl. lia.
    + destruct Hp as [?|(i & t & Hi & ? & ?)]; [by left|]. right. exists i, t.
      split_and!; [by apply lookup_app_l_Some|done|done].
Qed.

Lemma counters_ok_step g g' : step g g' → few g' → counters_ok g → counters_ok g'.
Proof.
  intros [g0 o|g0 i t m' ps' t' Hi Hins] Hfew Hok; [by apply counters_ok_call|].
  pose proof Hok as [Hts Hsum Hpk Hpairs].
  destruct (Forall2_lookup_r _ _ _ _ _ Hts Hi) as (o & Ho & Ht).
  change (counters_ok (after g0 i m' ps' t')). split.
  - simpl. rewrite <-(list_insert_id (g_started g0) i o) by done.
    apply Forall2_insert; [done|]. by eapply thread_ok_step.
  - intros c Hc. eapply cells_sum_step; eauto. apply Ht.
  - simpl. lia.
  - by eapply pairs_ok_step.
Qed.

Lemma counters_ok_reachable g : reachable g → few g → counters_ok g.
Proof.
  revert g. apply (rtc_ind_r (λ g, few g → counters_ok g)).
  - intros _. apply counters_ok_initial.
  - intros g g' _ Hs IH Hf. eapply counters_ok_step; [done|done|]. apply IH.
    unfold few in *. destruct Hs; simpl in *; [|done]. rewrite length_app in Hf. simpl in Hf. lia.
Qed.

(** ** The theorems *)

(** C28. Atomic counters under any interleaving: when the goroutines that called fewer than 2^63
    methods of a new metrics manager are out of them, every additive counter is the sum of
    what the calls contributed, and the maximum kept of connections, sessions, subscriptions,
    routes or topics is the largest value that this counter has ever had.  Consequently
    persistent and transient sessions add up to the sessions, and the counted failures and
    denials are among the errors. *)
Theorem metrics_exact g :
  reachable g → few g → quiescent g →
  (∀ c, additive c = true → g_cells g c = Zsum ((λ o, contribution o c) <$> g_started g)) ∧
  (∀ c m, maxOf c = Some m → g_cells g m = g_peak g c ∧ g_cells g c ≤ g_cells g m) ∧
  g_cells g sessionsCount = g_cells g sessionsPersistent + g_cells g sessionsTransient ∧
  g_cells g authFailures + g_cells g aclDenied ≤ g_cells g errorsTotal.
Proof.
  intros Hr Hf Hq. destruct (counters_ok_reachable g Hr Hf) as [Hts Hsum Hpk Hpairs].
  assert (Hex : ∀ c, executed g c = Zsum ((λ o, contribution o c) <$> g_started g)).
  { intros c. unfold executed.
    assert (Zsum ((λ t, pend c (t_code t)) <$> g_threads g) = 0) as ->.
    { clear -Hq. unfold quiescent in Hq. induction (g_threads g) as [|t ts IH]; [done|].
      apply Forall_cons in Hq as [Ht Hq]. csimpl. rewrite Ht, IH by done. done. }
    rewrite Z.sub_0_r. f_equal. apply list_fmap_ext. intros k o Hk.
    apply contribution_code. }
  assert (Hadd : ∀ c, additive c = true →
    g_cells g c = Zsum ((λ o, contribution o c) <$> g_started g)).
  { intros c Hc. rewrite (Hsum c Hc), Hex. apply i64_id. pose proof (executed_abs g c Hts) as Hb.
    rewrite Hex in Hb. unfold few in Hf. lia. }
  split_and!; [done|..].
  - intros c m Hcm. destruct (Hpairs c m Hcm) as [Hn Hmp Hra [Hp|(i & t & Hi & Ht & _)]].
    + specialize (Hpk c). lia.
    + unfold quiescent in Hq. apply (Forall_lookup_1 _ _ _ _ Hq) in Hi. unfold raising in Ht.
      rewrite Hi in Ht. by apply not_elem_of_nil in Ht.
  - rewrite !Hadd by done. generalize (g_started g). induction l as [|o l IH]; [done|]. csimpl.
    assert (contribution o sessionsCount =
      contribution o sessionsPersistent + contribution o sessionsTransient)
      by (destruct o; try destruct persistent; done). lia.
  - rewrite !Hadd by done. generalize (g_started g). induction l as [|o l IH]; [done|]. csimpl.
    assert (contribution o authFailures + contribution o aclDenied ≤ contribution o errorsTotal)
      by (destruct o; simpl; lia). lia.
Qed.

(** ** A goroutine alone *)

(** Instructions of one goroutine while the others pause. *)
Fixpoint alone (fuel : nat) (m : cells) (ps : list promCall) (t : thread)
    : cells * list promCall * thread :=
  match fuel with
  | O => (m, ps, t)
  | S fuel =>
      match instruction m ps t with
      | None => (m, ps, t)
      | Some (m', ps', t') => alone fuel m' ps' t'
      end
  end.

Lemma alone_S n m ps t :
  alone (S n) m ps t =
  match instruction m ps t with None => (m, ps, t) | Some (m', ps', t') => alone n m' ps' t' end.
Proof. done. Qed.

Lemma alone_done n m ps t : t_code t = [] → alone n m ps t = (m, ps, t).
Proof. intros Hc. destruct n as [|n]; simpl; [done|]. unfold instruction. by rewrite Hc. Qed.

(** Undisturbed, a goroutine at the beginning of instructions carries them out as [callInstr]
    does; the loop for a maximum takes two instructions at most. *)
Lemma alone_run il : ∀ n m ps count, (2 * length il ≤ n)%nat →
  alone n m ps (mkThread count None il) =
  let '(m', ps', count') := foldl callInstr (m, ps, count) il in (m', ps', mkThread count' None []).
Proof.
  induction il as [|i il IH]; intros n m ps count Hn; [by rewrite alone_done|].
  destruct n as [|[|n]]; simpl in Hn; [lia..|]. rewrite alone_S.
  destruct i; cbn [instruction t_code t_count t_max foldl callInstr]; try (apply IH; lia).
  destruct (count <=? m c) eqn:E; [apply IH; lia|].
  rewrite alone_S. cbn [instruction t_code t_count t_max]. rewrite Z.eqb_refl. apply IH. lia.
Qed.

Lemma alone_run_ends il n m ps count :
  (2 * length il ≤ n)%nat → t_code (alone n m ps (mkThread count None il)).2 = [].
Proof. intros Hn. rewrite alone_run by done. by destruct (foldl _ _ _) as [[??]?]. Qed.

(** The loops of the methods end: whatever the other goroutines did before, a goroutine that is
    not disturbed finishes its method in at most twice as many instructions as it has left,
    and one; and a method that is not disturbed at all has the effect of [call]. *)
Theorem goroutine_finishes m ps t o :
  t_code (alone (2 * length (t_code t) + 1) m ps t).2 = [] ∧
  (alone (2 * length (code o)) m ps (mkThread 0 None (code o))).1 = call o m ps.
Proof.
  split.
  - destruct t as [count [x|] il]; simpl t_code; [|by apply alone_run_ends; lia].
    rewrite Nat.add_1_r. simpl alone.
    destruct (instruction m ps (mkThread count (Some x) il)) as [[[m' ps'] t']|] eqn:E.
    + assert (∃ count' il', t' = mkThread count' None il' ∧ (length il' ≤ length il)%nat)
        as (count' & il' & -> & Hl).
      { unfold instruction in E. simpl in E. destruct il as [|i il]; [done|].
        destruct i; repeat case_match; simplify_eq; eexists _, _; (split; [done|simpl; lia]). }
      apply alone_run_ends. lia.
    + unfold instruction in E. simpl in E. destruct il as [|i il]; [done|].
      destruct i; repeat case_match; done.
  - rewrite alone_run by lia. unfold call. by destruct (foldl _ _ _) as [[??]?].
Qed.

(** ** A schedule *)

(** Calls ([inl]) and instructions of the goroutine with a number ([inr]). *)
Fixpoint schedule (l : list (method + nat)) (g : config) : option config :=
  match l with
  | [] => Some g
  | inl o :: l' =>
      schedule l' (mkConfig (g_cells g) (g_prom g) (g_threads g ++ [mkThread 0 None (code o)])
                     (g_started g ++ [o]) (g_peak g))
  | inr i :: l' =>
      match g_threads g !! i with
      | None => None
      | Some t =>
          match instruction (g_cells g) (g_prom g) t with
          | None => None
          | Some (m', ps', t') => schedule l' (after g i m' ps' t')
          end
      end
  end.

Lemma schedule_reachable l g g' : reachable g → schedule l g = Some g' → reachable g'.
Proof.
  revert g. induction l as [|[o|i] l IH]; intros g Hr Hs; simpl in Hs.
  - by simplify_eq.
  - eapply IH; [|done]. eapply rtc_r; [done|constructor].
  - destruct (g_threads g !! i) as [t|] eqn:Ei; [|done].
    destruct (instruction _ _ t) as [[[m' ps'] t']|] eqn:Et; [|done].
    eapply IH; [|done]. eapply rtc_r; [done|]. by econstructor.
Qed.

(** Two connections that race for the maximum: the second one finds the maximum that it loaded
    replaced, and goes round again.  The maximum ends at two. *)
Definition race : list (method + nat) :=
  [inl MIncConnections; inl MIncConnections; inr 0; inr 1; inr 0; inr 1; inr 1; inr 0; inr 0; inr 1;
   inr 1; inr 1; inr 0; inr 0; inr 1; inr 1; inl MDecConnections; inr 2; inr 2; inr 2]%nat.

Definition observe (g : config) : list method * bool * Z :=
  (g_started g, forallb (λ t, match t_code t with [] => true | _ => false end) (g_threads g),
   g_peak g connectionsCount).

Lemma race_observed :
  observe <$> schedule race initial =
  Some ([MIncConnections; MIncConnections; MDecConnections], true, 2).
Proof. vm_compute. reflexivity. Qed.

Lemma metrics_exact_witness :
  ∃ g, schedule race initial = Some g ∧ g_cells g connectionsMax = 2 ∧
       g_cells g connectionsCount = 1 ∧ g_cells g connectionsTotal = 2.
Proof.
  generalize race_observed.
  destruct (schedule race initial) as [g|] eqn:E; [|discriminate].
  intros Ho. injection Ho as Hs Hq Hpk. exists g. split; [reflexivity|].
  assert (Hr : reachable g) by (eapply schedule_reachable; [apply rtc_refl|exact E]).
  assert (Hq' : quiescent g).
  { apply Forall_forall. intros t Ht. apply list_elem_of_In in Ht.
    apply (proj1 (forallb_forall _ _) Hq) in Ht. by destruct (t_code t). }
  assert (Hf : few g) by (unfold few; rewrite Hs; done).
  destruct (metrics_exact g Hr Hf Hq') as (Hadd & Hmax & _).
  destruct (Hmax connectionsCount connectionsMax eq_refl) as [Hm _].
  rewrite Hm, Hpk, !Hadd, Hs by reflexivity. repeat split; reflexivity.
Defined.
