(* ===== verification/Health.v ===== *)
(** * Health: the health checker and its endpoints (pkg/monitor/health.go)

    A check function is arbitrary code: from what the runtime reports it returns an error or
    none, or does not return.  The checker's lock is held while the checks run, so a
    check that asks the checker itself waits for ever ([Blocks]). *)

From S2P Require Import Prelude GoLib GoValue GoJSON GoHTTP Metrics.
Local Open Scope emqx_scope.
Local Open Scope Z_scope.

(** ** What the runtime reports *)

(** [runtime.MemStats], the fields that are used; [PauseNs] is a ring of 256 pauses. *)
Record MemStats := mkMemStats {
  Mem_Alloc : Z;
  Mem_TotalAlloc : Z;
  Mem_Sys : Z;
  Mem_NumGC : Z;
  Mem_PauseNs : list Z;
}.
Definition zeroMemStats : MemStats := mkMemStats 0 0 0 0 (replicate 256 0).

Record Runtime := mkRuntime {
  rt_mem : MemStats;
  rt_NumGoroutine : Z;
}.

Definition u32 (z : Z) : Z := z mod 2 ^ 32.

(** Constants of the build: [runtime.GOOS], [GOARCH], [Version()], [NumCPU()], [Compiler]. *)
Record OSInfo := mkOSInfo {
  OS : string; Arch : string; OS_Version : string; NumCPU : Z; Compiler : string;
}.

(** ** Data *)

Record HealthCheck := mkHealthCheck {
  HC_Name : string;
  CheckFunc : Runtime → outcome (option string);
  HC_Critical : bool;
  HC_LastChecked : option Time;
  HC_LastError : option string;
  HC_Enabled : bool;
}.

Record CheckResult := mkCheckResult {
  CR_Status : string;
  CR_LastChecked : option Time;
  CR_Message : string;
  CR_Critical : bool;
}.

Record HealthChecker := mkHealthChecker {
  healthy : bool;
  lastCheck : Time;
  errors : list string;
  memStats : MemStats;
  goroutineCount : Z;
  checks : gmap string HealthCheck;
}.

(** ** The checker *)

Definition RegisterCheck (hc : HealthChecker) (name : string)
    (checkFunc : Runtime → outcome (option string)) (critical : bool) : HealthChecker :=
  mkHealthChecker (healthy hc) (lastCheck hc) (errors hc) (memStats hc) (goroutineCount hc)
    (<[name := mkHealthCheck name checkFunc critical None None true]> (checks hc)).

(** The check against 8 GB, and the one against 10000 goroutines. *)
Definition memoryCheck (rt : Runtime) : outcome (option string) :=
  if 1024 * 1024 * 1024 * 8 <? Mem_Sys (rt_mem rt)
  then Returns (Some ("high memory usage: " +:+ pretty (Mem_Sys (rt_mem rt)) +:+ " bytes"))
  else Returns None.
Definition goroutineCheck (rt : Runtime) : outcome (option string) :=
  if 10000 <? rt_NumGoroutine rt
  then Returns (Some ("high goroutine count: " +:+ pretty (rt_NumGoroutine rt)))
  else Returns None.

Definition NewHealthChecker (now : Time) : HealthChecker :=
  let hc := mkHealthChecker true now [] zeroMemStats 0 ∅ in
  let hc := RegisterCheck hc "memory" memoryCheck false in
  RegisterCheck hc "goroutines" goroutineCheck false.

Definition with_checks (hc : HealthChecker) (cs : gmap string HealthCheck) : HealthChecker :=
  mkHealthChecker (healthy hc) (lastCheck hc) (errors hc) (memStats hc) (goroutineCount hc) cs.

Definition UnregisterCheck (hc : HealthChecker) (name : string) : HealthChecker :=
  with_checks hc (delete name (checks hc)).

Definition setEnabled (hc : HealthChecker) (name : string) (b : bool) : HealthChecker :=
  match checks hc !! name with
  | None => hc
  | Some check =>
      with_checks hc (<[name := mkHealthCheck (HC_Name check) (CheckFunc check) (HC_Critical check)
                                  (HC_LastChecked check) (HC_LastError check) b]> (checks hc))
  end.
Definition EnableCheck (hc : HealthChecker) (name : string) : HealthChecker := setEnabled hc name true.
Definition DisableCheck (hc : HealthChecker) (name : string) : HealthChecker := setEnabled hc name false.

Definition updateSystemMetrics (hc : HealthChecker) (rt : Runtime) : HealthChecker :=
  mkHealthChecker (healthy hc) (lastCheck hc) (errors hc) (rt_mem rt) (rt_NumGoroutine rt) (checks hc).

Definition getOverallStatus (hc : HealthChecker) : string :=
  if healthy hc then "healthy" else "unhealthy".

(** The state of the loop of [RunChecks]: the checks, their results, whether all critical
    ones passed, and the errors of those that did not. *)
Record checking := mkChecking {
  k_checks : gmap string HealthCheck;
  k_results : gmap string CheckResult;
  k_healthy : bool;
  k_critical : list string;
}.

Definition runCheck (rt : Runtime) (now : Time) (name : string) (check : HealthCheck)
    (acc : outcome checking) : outcome checking :=
  let! k := acc in
  if negb (HC_Enabled check) then Returns k
  else
    let! err := CheckFunc check rt in
    let status := match err with Some _ => "failed" | None => "passed" end in
    let check' := mkHealthCheck (HC_Name check) (CheckFunc check) (HC_Critical check) (Some now) err
                    (HC_Enabled check) in
    let result := mkCheckResult status (Some now) (default "" err) (HC_Critical check) in
    Returns (mkChecking (<[name := check']> (k_checks k)) (<[name := result]> (k_results k))
      (match err with Some _ => if HC_Critical check then false else k_healthy k | None => k_healthy k end)
      (match err with
       | Some e => if HC_Critical check then k_critical k ++ [name +:+ ": " +:+ e] else k_critical k
       | None => k_critical k
       end)).

(** Index of the last pause in the ring: the sum is a uint32. *)
Definition pauseIndex (numGC : Z) : Z := u32 (numGC + 255) mod 256.

Section Health.
Context `{GoFloat} (osInfo : OSInfo).

Record SystemInfo := mkSystemInfo {
  SI_Alloc : Z; SI_TotalAlloc : Z; SI_Sys : Z; SI_NumGC : Z; SI_GCPause : float64;
  SI_Goroutines : Z; SI_CPUUsage : float64; SI_OSInfo : OSInfo;
}.

(** CPU usage is a placeholder in the code. *)
Definition getSystemInfo (hc : HealthChecker) : SystemInfo :=
  let ms := memStats hc in
  let gcPause :=
    if 0 <? Mem_NumGC ms
    then float_div (float_of_int (default 0 (Mem_PauseNs ms !! Z.to_nat (pauseIndex (Mem_NumGC ms)))))
           (float_of_int 1000000)
    else float_of_int 0 in
  mkSystemInfo (Mem_Alloc ms) (Mem_TotalAlloc ms) (Mem_Sys ms) (Mem_NumGC ms) gcPause
    (goroutineCount hc) (float_of_int 0) osInfo.

Record HealthStatus := mkHealthStatus {
  HS_Status : string;
  HS_Timestamp : Time;
  HS_Uptime : Z;
  HS_Version : string;
  HS_Node : string;
  HS_Checks : gmap string CheckResult;
  HS_SystemInfo : SystemInfo;
}.

(** The package's variables: the start of the process, version and node. *)
Record Globals := mkGlobals { gl_startTime : Time; gl_version : string; gl_nodeID : string }.
Definition defaultGlobals (started : Time) : Globals := mkGlobals started "1.0.0" "emqx-go-node".
Definition SetVersion (v : string) (gl : Globals) : Globals :=
  mkGlobals (gl_startTime gl) v (gl_nodeID gl).
Definition SetNodeID (id : string) (gl : Globals) : Globals :=
  mkGlobals (gl_startTime gl) (gl_version gl) id.

Definition statusOf (gl : Globals) (hc : HealthChecker) (timestamp now : Time)
    (results : gmap string CheckResult) : HealthStatus :=
  mkHealthStatus (getOverallStatus hc) timestamp
    (int_of_float (Seconds (now - gl_startTime gl))) (gl_version gl) (gl_nodeID gl) results
    (getSystemInfo hc).

Definition RunChecks (gl : Globals) (hc : HealthChecker) (rt : Runtime) (now : Time)
    : outcome (HealthStatus * HealthChecker) :=
  let hc := mkHealthChecker (healthy hc) now (errors hc) (memStats hc) (goroutineCount hc) (checks hc) in
  let hc := updateSystemMetrics hc rt in
  let! k := go_range (runCheck rt now) (checks hc) (Returns (mkChecking (checks hc) ∅ true [])) in
  let hc := mkHealthChecker (k_healthy k) (lastCheck hc) (k_critical k) (memStats hc)
              (goroutineCount hc) (k_checks k) in
  Returns (statusOf gl hc now now (k_results k), hc).

(** What [GetStatus] reports of an enabled check. *)
Definition reported (check : HealthCheck) : CheckResult :=
  let '(status, message) :=
    match HC_LastChecked check with
    | None => ("unknown", "")
    | Some _ =>
        match HC_LastError check with Some e => ("failed", e) | None => ("passed", "") end
    end in
  mkCheckResult status (HC_LastChecked check) message (HC_Critical check).

Definition GetStatus (gl : Globals) (hc : HealthChecker) (now : Time) : HealthStatus :=
  let results := go_range (λ name check acc,
    if negb (HC_Enabled check) then acc else <[name := reported check]> acc) (checks hc) ∅ in
  statusOf gl hc (lastCheck hc) now results.

Definition IsHealthy (hc : HealthChecker) : bool := healthy hc.

(** One tick of [StartPeriodicHealthChecks]. *)
Definition periodicTick (gl : Globals) (hc : HealthChecker) (rt : Runtime) (now : Time)
    : outcome HealthChecker :=
  let! st := RunChecks gl hc rt now in Returns st.2.

(** ** The endpoints *)

(** How encoding/json writes a float64 and a time; both can fail. *)
Context `{JSONText} (jsonFloat : float64 → result json) (formatRFC3339 : Time → string).

Definition checkResultJSON (c : CheckResult) : result json :=
  let? t := match CR_LastChecked c with Some t => jsonTime t | None => Ok zeroTimeText end in
  Ok (jstruct ([("status", JString (CR_Status c)); ("last_checked", t)]
        ++ (if CR_Message c =s "" then [] else [("message", JString (CR_Message c))])
        ++ [("critical", JBool (CR_Critical c))])).

Definition systemInfoJSON (s : SystemInfo) : result json :=
  let? pause := jsonFloat (SI_GCPause s) in
  let? cpu := jsonFloat (SI_CPUUsage s) in
  Ok (jstruct [
    ("memory", jstruct [("alloc", JInt (SI_Alloc s)); ("total_alloc", JInt (SI_TotalAlloc s));
        ("sys", JInt (SI_Sys s)); ("num_gc", JInt (SI_NumGC s)); ("gc_pause_ms", pause)]);
    ("goroutines", JInt (SI_Goroutines s)); ("cpu_usage", cpu);
    ("os_info", jstruct [("os", JString (OS (SI_OSInfo s))); ("arch", JString (Arch (SI_OSInfo s)));
        ("version", JString (OS_Version (SI_OSInfo s))); ("num_cpu", JInt (NumCPU (SI_OSInfo s)));
        ("compiler", JString (Compiler (SI_OSInfo s)))])]).

Definition healthStatusJSON (s : HealthStatus) : result json :=
  let? ts := jsonTime (HS_Timestamp s) in
  let? cs := resultList (prod_map id checkResultJSON <$> map_to_list (HS_Checks s)) in
  let? si := systemInfoJSON (HS_SystemInfo s) in
  Ok (jstruct [("status", JString (HS_Status s)); ("timestamp", ts); ("uptime", JInt (HS_Uptime s));
    ("version", JString (HS_Version s)); ("node", JString (HS_Node s)); ("checks", jmap cs);
    ("system_info", si)]).

(** The status goes out before the body is encoded: an error comes too late to change it. *)
Definition writeJSON (w : ResponseWriter) (statusCode : Z) (data : result json) : ResponseWriter :=
  let w := WriteHeader statusCode (Header_Set ContentType "application/json" w) in
  let '(err, w) := Encode data w in
  match err with
  | Some _ => http_Error w "Failed to encode JSON" StatusInternalServerError
  | None => w
  end.

Definition handleHealth (hc : HealthChecker) (now : Time) (w : ResponseWriter) (r : Request)
    : ResponseWriter :=
  if R_Method r <>s MethodGet then notAllowed w
  else
    let body st := Ok (jmap [("status", JString st); ("time", JString (formatRFC3339 now))]) in
    if IsHealthy hc then writeJSON w StatusOK (body "ok")
    else writeJSON w StatusServiceUnavailable (body "unhealthy").

Definition handleLiveness (w : ResponseWriter) (r : Request) : ResponseWriter :=
  if R_Method r <>s MethodGet then notAllowed w
  else (Write (CText "OK") (WriteHeader StatusOK w)).2.

Definition handleReadiness (hc : HealthChecker) (w : ResponseWriter) (r : Request) : ResponseWriter :=
  if R_Method r <>s MethodGet then notAllowed w
  else if IsHealthy hc then (Write (CText "OK") (WriteHeader StatusOK w)).2
  else (Write (CText "Service Unavailable") (WriteHeader StatusServiceUnavailable w)).2.

Definition handleDetailedHealth (gl : Globals) (hc : HealthChecker) (rt : Runtime) (now : Time)
    (w : ResponseWriter) (r : Request) : outcome (ResponseWriter * HealthChecker) :=
  if R_Method r <>s MethodGet then Returns (notAllowed w, hc)
  else
    let! '(status, hc) := RunChecks gl hc rt now in
    let statusCode := if HS_Status status <>s "healthy" then StatusServiceUnavailable else StatusOK in
    Returns (writeJSON w statusCode (healthStatusJSON status), hc).

Definition handleAPIHealth (gl : Globals) (hc : HealthChecker) (mm : MetricsManager) (now : Time)
    (w : ResponseWriter) (r : Request) : ResponseWriter * MetricsManager :=
  if R_Method r <>s MethodGet then (notAllowed w, mm)
  else
    let status := GetStatus gl hc now in
    let '(stats, mm) := GetStatistics formatRFC3339 mm now in
    (writeJSON w StatusOK
       (let? h := healthStatusJSON status in
        Ok (jmap [("code", JInt 0); ("status", JString (HS_Status status));
                  ("data", jmap [("health", h); ("statistics", statisticsJSON stats)])])), mm).

Inductive healthRoute := RHealth | RLive | RReady | RDetailed | RAPIHealth.
Definition RegisterRoutes (mux : list (string * healthRoute)) : outcome (list (string * healthRoute)) :=
  mux_register mux
    [("/health", RHealth); ("/health/live", RLive); ("/health/ready", RReady);
     ("/health/detailed", RDetailed); ("/api/v5/health", RAPIHealth)].
End Health.
