(* ===== verification/HealthProps.v ===== *)
(** * HealthProps: what the health checker reports *)

From S2P Require Import Prelude GoLib GoValue GoJSON GoHTTP Metrics Health.
Local Open Scope emqx_scope.
Local Open Scope Z_scope.

(** ** The loop over the checks *)

(** The answer of a check that returns. *)
Definition answer (rt : Runtime) (check : HealthCheck) : option string :=
  match CheckFunc check rt with Returns r => r | _ => None end.

Definition checked (rt : Runtime) (now : Time) (check : HealthCheck) : HealthCheck :=
  mkHealthCheck (HC_Name check) (CheckFunc check) (HC_Critical check) (Some now) (answer rt check)
    (HC_Enabled check).

Definition resultOf (rt : Runtime) (now : Time) (check : HealthCheck) : CheckResult :=
  mkCheckResult (match answer rt check with Some _ => "failed" | None => "passed" end) (Some now)
    (default "" (answer rt check)) (HC_Critical check).

Definition when_enabled {A} (f : HealthCheck → A) (_ : string) (check : HealthCheck) : option A :=
  if HC_Enabled check then Some (f check) else None.

(** A critical failure: the check is enabled, critical, and answers with an error. *)
Definition criticalFailure (rt : Runtime) (name : string) (check : HealthCheck) : list string :=
  if HC_Enabled check && HC_Critical check then
    match answer rt check with Some e => [name +:+ ": " +:+ e] | None => [] end
  else [].

Definition all_return (rt : Runtime) (cs : gmap string HealthCheck) : Prop :=
  ∀ name check, cs !! name = Some check → HC_Enabled check = true →
    ∃ r, CheckFunc check rt = Returns r.

Definition pureCheck (rt : Runtime) (now : Time) (name : string) (check : HealthCheck) (k : checking)
    : checking :=
  let failures := criticalFailure rt name check in
  mkChecking (range_fill (when_enabled (checked rt now)) name check (k_checks k))
    (range_fill (when_enabled (resultOf rt now)) name check (k_results k))
    (k_healthy k && match failures with [] => true | _ => false end)
    (k_critical k ++ failures).

Lemma runCheck_pure rt now name check k :
  (HC_Enabled check = true → ∃ r, CheckFunc check rt = Returns r) →
  runCheck rt now name check (Returns k) = Returns (pureCheck rt now name check k).
Proof.
  intros Hr. unfold runCheck, pureCheck, range_fill, when_enabled, criticalFailure. simpl.
  destruct (HC_Enabled check) eqn:Ee; simpl.
  - destruct (Hr eq_refl) as [r Hc]. rewrite Hc. simpl. unfold checked, resultOf, answer. rewrite Hc, Ee.
    destruct r, (HC_Critical check); simpl; by rewrite ?andb_false_r, ?andb_true_r, ?app_nil_r.
  - rewrite andb_true_r, app_nil_r. by destruct k.
Qed.

Lemma runChecks_loop rt now cs k :
  all_return rt cs →
  go_range (runCheck rt now) cs (Returns k) = Returns (go_range (pureCheck rt now) cs k).
Proof.
  intros Hr. unfold go_range.
  assert (Hl : ∀ name check, (name, check) ∈ map_to_list cs → HC_Enabled check = true →
    ∃ r, CheckFunc check rt = Returns r).
  { intros name check Hin%elem_of_map_to_list. by eapply Hr. }
  clear Hr. revert k Hl. induction (map_to_list cs) as [|[n c] l IH]; intros k Hl; [done|].
  cbn [foldl fst snd]. rewrite runCheck_pure; [|intros; eapply Hl; [by left|done]].
  apply IH. intros name check Hin. eapply Hl. by right.
Qed.

(** The four components of the state are computed independently of one another. *)
Lemma pureCheck_split rt now cs k :
  go_range (pureCheck rt now) cs k =
  mkChecking (go_range (range_fill (when_enabled (checked rt now))) cs (k_checks k))
    (go_range (range_fill (when_enabled (resultOf rt now))) cs (k_results k))
    (k_healthy k && match range_collect (λ _ _, true) (criticalFailure rt) cs with [] => true | _ => false end)
    (k_critical k ++ range_collect (λ _ _, true) (criticalFailure rt) cs).
Proof.
  unfold go_range, range_collect. revert k.
  induction (map_to_list cs) as [|[n c] l IH]; intros k; simpl.
  { rewrite andb_true_r, app_nil_r. by destruct k. }
  rewrite IH. simpl. rewrite <-app_assoc. f_equal. rewrite <-andb_assoc. f_equal.
  by destruct (criticalFailure rt n c).
Qed.

Lemma GetStatus_checks `{GoFloat} osInfo gl hc now n :
  HS_Checks (GetStatus osInfo gl hc now) !! n = checks hc !! n ≫= when_enabled reported n.
Proof.
  unfold GetStatus. simpl.
  rewrite (go_range_ext _ (range_fill (when_enabled reported))).
  - rewrite go_range_fill, lookup_empty. by case_match.
  - intros k v acc. unfold range_fill, when_enabled. by destruct (HC_Enabled v).
Qed.

(** ** The theorems *)

(** RunChecks, when every enabled check returns: the checker is healthy afterwards exactly when no
    enabled critical check failed, and the failures of the critical checks are listed; the
    status has one result per enabled check and none for others; disabled checks keep
    what they had.  [GetStatus] then reports the same status and the same results, until
    the next change. *)
Theorem RunChecks_exact `{GoFloat} osInfo gl hc rt now :
  all_return rt (checks hc) →
  ∃ st hc', RunChecks osInfo gl hc rt now = Returns (st, hc') ∧
    (healthy hc' = true ↔
       ∀ name check, checks hc !! name = Some check → HC_Enabled check = true →
         HC_Critical check = true → CheckFunc check rt = Returns None) ∧
    (healthy hc' = true ↔ errors hc' = []) ∧
    HS_Status st = (if healthy hc' then "healthy" else "unhealthy") ∧
    (∀ name, HS_Checks st !! name = checks hc !! name ≫= when_enabled (resultOf rt now) name) ∧
    (∀ name, checks hc' !! name =
       (λ check, if HC_Enabled check then checked rt now check else check) <$> checks hc !! name) ∧
    (∀ now', HS_Checks (GetStatus osInfo gl hc' now') = HS_Checks st ∧
             HS_Status (GetStatus osInfo gl hc' now') = HS_Status st).
Proof.
  intros Hr. unfold RunChecks. cbn [updateSystemMetrics checks].
  rewrite runChecks_loop by done. rewrite pureCheck_split. cbn [outcome_bind].
  eexists _, _. split; [reflexivity|]. cbn [healthy errors checks k_healthy k_critical k_checks].
  assert (Hres : ∀ name, k_results (mkChecking (checks hc)
      (go_range (range_fill (when_enabled (resultOf rt now))) (checks hc) ∅) true []) !! name =
      checks hc !! name ≫= when_enabled (resultOf rt now) name).
  { intros name. simpl. rewrite go_range_fill, lookup_empty. by case_match. }
  assert (Hchk : ∀ name, go_range (range_fill (when_enabled (checked rt now))) (checks hc) (checks hc) !! name =
      (λ check, if HC_Enabled check then checked rt now check else check) <$> checks hc !! name).
  { intros name. rewrite go_range_fill. destruct (checks hc !! name) as [c|]; [|done]. simpl.
    unfold when_enabled. by destruct (HC_Enabled c). }
  split_and!.
  - split.
    + intros Hh name check Hc He Hcr. destruct (Hr name check Hc He) as [r Hcf]. rewrite Hcf.
      destruct r as [e|]; [|done]. exfalso.
      assert (name +:+ ": " +:+ e ∈ range_collect (λ _ _, true) (criticalFailure rt) (checks hc)) as Hin.
      { apply elem_of_range_collect. exists name, check. split_and!; [done|done|].
        unfold criticalFailure, answer. rewrite He, Hcr, Hcf. by left. }
      destruct (range_collect _ _ _); [by apply not_elem_of_nil in Hin|done].
    + intros Hall. destruct (range_collect _ _ _) as [|x l] eqn:E; [done|]. exfalso.
      assert (x ∈ range_collect (λ _ _, true) (criticalFailure rt) (checks hc)) as Hin
        by (rewrite E; by left).
      apply elem_of_range_collect in Hin as (name & check & Hc & _ & Hx).
      unfold criticalFailure, answer in Hx.
      destruct (HC_Enabled check) eqn:He, (HC_Critical check) eqn:Hcr;
        simpl in Hx; try by apply not_elem_of_nil in Hx.
      rewrite (Hall name check Hc He Hcr) in Hx. by apply not_elem_of_nil in Hx.
  - simpl. by destruct (range_collect _ _ _).
  - done.
  - apply Hres.
  - apply Hchk.
  - intros now'. split; [|done]. apply map_eq. intros name. rewrite GetStatus_checks.
    cbn [checks]. rewrite Hchk. symmetry. etransitivity; [apply Hres|].
    destruct (checks hc !! name) as [c|]; [|done]. simpl. unfold when_enabled.
    destruct (HC_Enabled c) eqn:E; simpl; [|by rewrite E]. rewrite E. f_equal.
    unfold reported, resultOf. simpl. by destruct (answer rt c).
Qed.

(** The index into the ring of pauses is within bounds and is that of the last collection, even
    when the uint32 sum wraps around. *)
Theorem pauseIndex_last n :
  0 < n < 2 ^ 32 → 0 ≤ pauseIndex n < 256 ∧ pauseIndex n = (n - 1) mod 256.
Proof.
  intros Hn. unfold pauseIndex, u32. split; [apply Z.mod_pos_bound; lia|].
  rewrite <-Znumtheory.Zmod_div_mod by (try lia; by exists (2 ^ 24)).
  replace (n + 255) with (n - 1 + 1 * 256) by lia. by rewrite Z.mod_add.
Qed.
