(* ===== verification/Config.v ===== *)
(** * Config: configuration files and user management (pkg/config, cmd/emqx-user, cmd/emqx-go)

    A configuration is read from and written to a YAML or JSON file; the files are a map
    from paths to contents.  The YAML package and the layout of indented JSON are parameters
    ([ConfigText]) with their round-trip laws; JSON is decoded field by field.  The commands
    of emqx-user load the file, change the users and save it. *)

From S2P Require Import Prelude GoLib GoValue GoJSON GoHTTP Auth.
Local Open Scope emqx_scope.
Local Open Scope Z_scope.

(** ** Data (config.go) *)

Record UserConfig := mkUserConfig {
  U_Username : string;
  U_Password : string;
  U_Algorithm : string;
  U_Enabled : bool;
}.
Record AuthConfig := mkAuthConfig {
  A_Enabled : bool;
  A_Users : list UserConfig;
}.
Record BrokerConfig := mkBrokerConfig {
  NodeID : string;
  MQTTPort : string;
  GRPCPort : string;
  MetricsPort : string;
  DashboardPort : string;
  B_Auth : AuthConfig;
}.
Record Config := mkConfig { Broker : BrokerConfig }.

Definition DefaultConfig : Config :=
  mkConfig (mkBrokerConfig "emqx-go-node" ":1883" ":8081" ":8082" ":18083"
    (mkAuthConfig true
       [mkUserConfig "admin" "admin123" "bcrypt" true;
        mkUserConfig "user1" "password123" "sha256" true;
        mkUserConfig "test" "test" "plain" true])).

Definition Users (c : Config) : list UserConfig := A_Users (B_Auth (Broker c)).
Definition set_Users (us : list UserConfig) (c : Config) : Config :=
  let b := Broker c in
  mkConfig (mkBrokerConfig (NodeID b) (MQTTPort b) (GRPCPort b) (MetricsPort b) (DashboardPort b)
              (mkAuthConfig (A_Enabled (B_Auth b)) us)).

(** ** Validation *)

Definition validAlgorithm (a : string) : bool :=
  (a =s "plain") || (a =s "sha256") || (a =s "bcrypt").

Definition unsupportedAlgorithm (a : string) : string :=
  "unsupported algorithm: " +:+ a +:+ " (supported: plain, sha256, bcrypt)".

(** The loop over the users with the names seen so far. *)
Fixpoint validateUsers (i : nat) (usernames : gset string) (us : list UserConfig) : option string :=
  match us with
  | [] => None
  | user :: us' =>
      if U_Username user =s ""
      then Some ("user " +:+ pretty i +:+ ": username cannot be empty")%string
      else if bool_decide (U_Username user ∈ usernames)
      then Some ("duplicate username: " +:+ U_Username user)%string
      else if U_Password user =s ""
      then Some ("user " +:+ U_Username user +:+ ": password cannot be empty")%string
      else if negb (validAlgorithm (U_Algorithm user))
      then Some ("user " +:+ U_Username user +:+ ": " +:+ unsupportedAlgorithm (U_Algorithm user))%string
      else validateUsers (S i) ({[U_Username user]} ∪ usernames) us'
  end.

Definition validateConfig (c : Config) : option string :=
  if NodeID (Broker c) =s "" then Some "node_id cannot be empty"
  else if MQTTPort (Broker c) =s "" then Some "mqtt_port cannot be empty"
  else validateUsers 0 ∅ (Users c).

(** ** Changing the users *)

Definition hasUser (username : string) (us : list UserConfig) : bool :=
  existsb (λ u, U_Username u =s username) us.

Definition Config_AddUser (c : Config) (username password algorithm : string) (enabled : bool)
    : option string * Config :=
  if hasUser username (Users c) then (Some ("user " +:+ username +:+ " already exists")%string, c)
  else if negb (validAlgorithm algorithm) then (Some (unsupportedAlgorithm algorithm), c)
  else (None, set_Users (Users c ++ [mkUserConfig username password algorithm enabled]) c).

(** The user with the changes that the arguments ask for. *)
Definition updatedUser (u : UserConfig) (password algorithm : string) (enabled : bool) : UserConfig :=
  mkUserConfig (U_Username u) (if password <>s "" then password else U_Password u)
    (if algorithm <>s "" then algorithm else U_Algorithm u) enabled.

Fixpoint updateUsers (us : list UserConfig) (username password algorithm : string) (enabled : bool)
    : option string * list UserConfig :=
  match us with
  | [] => (Some ("user " +:+ username +:+ " not found")%string, [])
  | u :: us' =>
      if U_Username u =s username then
        if (algorithm <>s "") && negb (validAlgorithm algorithm)
        then (Some (unsupportedAlgorithm algorithm), us)
        else (None, updatedUser u password algorithm enabled :: us')
      else
        let '(err, us'') := updateUsers us' username password algorithm enabled in (err, u :: us'')
  end.
Definition Config_UpdateUser (c : Config) (username password algorithm : string) (enabled : bool)
    : option string * Config :=
  let '(err, us) := updateUsers (Users c) username password algorithm enabled in (err, set_Users us c).

(** The first user of that name is taken out. *)
Fixpoint removeFirst (us : list UserConfig) (username : string) : option (list UserConfig) :=
  match us with
  | [] => None
  | u :: us' =>
      if U_Username u =s username then Some us'
      else (λ l, u :: l) <$> removeFirst us' username
  end.
Definition Config_RemoveUser (c : Config) (username : string) : option string * Config :=
  match removeFirst (Users c) username with
  | Some us => (None, set_Users us c)
  | None => (Some ("user " +:+ username +:+ " not found")%string, c)
  end.

Definition Config_ListUsers (c : Config) : list UserConfig := Users c.

(** ** Authentication from the configuration *)

Definition algorithmOf (a : string) : HashAlgorithm :=
  if a =s "plain" then HashPlain
  else if a =s "sha256" then HashSHA256
  else if a =s "bcrypt" then HashBcrypt
  else HashOther a.

Definition authErrText (e : AuthErr) : string :=
  match e with
  | EmptyUsername => "username cannot be empty"
  | HashFailed => "failed to hash password"
  | UserNotFound u => "user not found: " +:+ u
  end.

Section ConfigureAuth.
Context (sha256_hex : string → string) (bcrypt_generate : string → option string)
  (bcrypt_compare : string → string → bool).

Definition addConfigured (acc : option string * MemoryAuthenticator) (u : UserConfig)
    : option string * MemoryAuthenticator :=
  let '(err, memAuth) := acc in
  match err with
  | Some e => (Some e, memAuth)
  | None =>
      let '(err, memAuth) :=
        AddUser sha256_hex bcrypt_generate memAuth (U_Username u) (U_Password u) (algorithmOf (U_Algorithm u)) in
      match err with
      | Some e => (Some ("failed to add user " +:+ U_Username u +:+ ": " +:+ authErrText e)%string, memAuth)
      | None =>
          let '(err, memAuth) := SetUserEnabled memAuth (U_Username u) (U_Enabled u) in
          match err with
          | Some e => (Some ("failed to set user " +:+ U_Username u +:+ " enabled status: " +:+ authErrText e)%string,
                       memAuth)
          | None => (None, memAuth)
          end
      end
  end.

(** The chain is cleared first; an error leaves it cleared and enabled. *)
Definition ConfigureAuth (c : Config) (authChain : AuthChain) : option string * AuthChain :=
  let authChain := AuthChain_Clear authChain in
  if negb (A_Enabled (B_Auth (Broker c))) then (None, AuthChain_SetEnabled authChain false)
  else
    let authChain := AuthChain_SetEnabled authChain true in
    let '(err, memAuth) := foldl addConfigured (None, NewMemoryAuthenticator) (Users c) in
    match err with
    | Some e => (Some e, authChain)
    | None =>
        (None, AddAuthenticator authChain
                 (memoryAuthenticator sha256_hex bcrypt_generate bcrypt_compare memAuth))
    end.
End ConfigureAuth.

(** ** JSON form *)

Definition userJSON (u : UserConfig) : json :=
  jstruct [("username", JString (U_Username u)); ("password", JString (U_Password u));
           ("algorithm", JString (U_Algorithm u)); ("enabled", JBool (U_Enabled u))].
Definition configJSON (c : Config) : json :=
  let b := Broker c in
  jstruct [("broker", jstruct [
    ("node_id", JString (NodeID b)); ("mqtt_port", JString (MQTTPort b));
    ("grpc_port", JString (GRPCPort b)); ("metrics_port", JString (MetricsPort b));
    ("dashboard_port", JString (DashboardPort b));
    ("auth", jstruct [("enabled", JBool (A_Enabled (B_Auth b)));
                      ("users", JArray (userJSON <$> Users c))])])].

Definition decUser (j : json) (cur : UserConfig) : option UserConfig :=
  l ← fieldsOf j;
  username ← field decString (U_Username cur) "username" l;
  password ← field decString (U_Password cur) "password" l;
  algorithm ← field decString (U_Algorithm cur) "algorithm" l;
  enabled ← field decBool (U_Enabled cur) "enabled" l;
  Some (mkUserConfig username password algorithm enabled).

Definition zeroUser : UserConfig := mkUserConfig "" "" "" false.
Fixpoint decUserElems (l : list json) (cur : list UserConfig) : option (list UserConfig) :=
  match l with
  | [] => Some []
  | j :: l' =>
      u ← decUser j (default zeroUser (head cur));
      rest ← decUserElems l' (tail cur);
      Some (u :: rest)
  end.
Definition decUsers (j : json) (cur : list UserConfig) : option (list UserConfig) :=
  match j with JArray l => decUserElems l cur | JNull => Some [] | _ => None end.

Definition decAuth (j : json) (cur : AuthConfig) : option AuthConfig :=
  l ← fieldsOf j;
  enabled ← field decBool (A_Enabled cur) "enabled" l;
  us ← field decUsers (A_Users cur) "users" l;
  Some (mkAuthConfig enabled us).
Definition decBroker (j : json) (cur : BrokerConfig) : option BrokerConfig :=
  l ← fieldsOf j;
  node ← field decString (NodeID cur) "node_id" l;
  mqtt ← field decString (MQTTPort cur) "mqtt_port" l;
  grpc ← field decString (GRPCPort cur) "grpc_port" l;
  metrics ← field decString (MetricsPort cur) "metrics_port" l;
  dashboard ← field decString (DashboardPort cur) "dashboard_port" l;
  auth ← field decAuth (B_Auth cur) "auth" l;
  Some (mkBrokerConfig node mqtt grpc metrics dashboard auth).
Definition zeroBroker : BrokerConfig := mkBrokerConfig "" "" "" "" "" (mkAuthConfig false []).
Definition decConfig (j : json) : option Config :=
  l ← fieldsOf j; b ← field decBroker zeroBroker "broker" l; Some (mkConfig b).

(** ** Files *)

(** [filepath.Ext]: from the last dot of the last path element. *)
Fixpoint ExtFrom (s : string) (ext : string) : string :=
  match s with
  | EmptyString => ext
  | String c s' =>
      if bool_decide (c = slash) then ExtFrom s' ""
      else if bool_decide (c = Ascii.ascii_of_nat 46) then ExtFrom s' s
      else ExtFrom s' ext
  end.
Definition Ext (path : string) : string := ExtFrom path "".

Class ConfigText := {
  yamlMarshal : Config → result (list byte);
  yamlUnmarshal : list byte → result Config;
  jindent : json → list byte;
  jsonError : list byte → string;
}.

Abbreviation files := (gmap string (list byte)) (only parsing).

Section Files.
Context `{GoUnicode} `{JSONText} `{ConfigText}.

Definition unsupportedFormat (ext : string) : string :=
  "unsupported config file format: " +:+ ext +:+ " (supported: .yaml, .yml, .json)".

Definition jsonUnmarshal (data : list byte) : result Config :=
  match jparse data ≫= decConfig with Some c => Ok c | None => Err (jsonError data) end.

(** [readError]: the text of the error for a file that cannot be read. *)
Definition LoadConfig (readError : string → string) (fs : files) (configPath : string) : result Config :=
  if configPath =s "" then Ok DefaultConfig
  else
    match fs !! configPath with
    | None => Err ("failed to read config file " +:+ configPath +:+ ": " +:+ readError configPath)
    | Some data =>
        let ext := ToLower (Ext configPath) in
        let parsed :=
          if (ext =s ".yaml") || (ext =s ".yml") then Some (yamlUnmarshal data)
          else if ext =s ".json" then Some (jsonUnmarshal data)
          else None in
        match parsed with
        | None => Err (unsupportedFormat ext)
        | Some (Err e) => Err ("failed to parse config file " +:+ configPath +:+ ": " +:+ e)
        | Some (Ok config) =>
            match validateConfig config with
            | Some e => Err ("invalid configuration: " +:+ e)
            | None => Ok config
            end
        end
    end%string.

(** [writeError]: why the file cannot be written, if so. *)
Definition SaveConfig (writeError : string → option string) (fs : files) (config : Config)
    (configPath : string) : option string * files :=
  let ext := ToLower (Ext configPath) in
  let marshalled :=
    if (ext =s ".yaml") || (ext =s ".yml") then Some (yamlMarshal config)
    else if ext =s ".json" then Some (Ok (jindent (configJSON config)))
    else None in
  match marshalled with
  | None => (Some (unsupportedFormat ext), fs)
  | Some (Err e) => (Some ("failed to marshal config: " +:+ e), fs)
  | Some (Ok data) =>
      match writeError configPath with
      | Some e => (Some ("failed to write config file " +:+ configPath +:+ ": " +:+ e), fs)
      | None => (None, <[configPath := data]> fs)
      end
  end%string.

(** ** The commands of emqx-user *)

Inductive command :=
  | CmdGenerate
  | CmdList
  | CmdAdd (username password algorithm : string) (enabled : bool)
  | CmdUpdate (username password algorithm : string) (enabled : bool)
  | CmdRemove (username : string)
  | CmdEnable (username : string) (enabled : bool).

Context (readError : string → string) (writeError : string → option string).

(** Load, change, save; the text of the fatal error, if any. *)
Definition editFile (fs : files) (path username verb : string)
    (edit : Config → option string * Config) : option string * files :=
  if username =s "" then (Some "Username is required", fs)
  else
    match LoadConfig readError fs path with
    | Err e => (Some ("Failed to load config: " +:+ e), fs)
    | Ok cfg =>
        let '(err, cfg) := edit cfg in
        match err with
        | Some e => (Some ("Failed to " +:+ verb +:+ " user: " +:+ e), fs)
        | None =>
            let '(err, fs) := SaveConfig writeError fs cfg path in
            (match err with Some e => Some ("Failed to save config: " +:+ e) | None => None end, fs)
        end
    end%string.

Definition generateConfig (fs : files) (path : string) : option string * files :=
  let '(err, fs) := SaveConfig writeError fs DefaultConfig path in
  (match err with Some e => Some ("Failed to generate config file: " +:+ e)%string | None => None end, fs).

Definition addUser (fs : files) (path username password algorithm : string) (enabled : bool)
    : option string * files :=
  if (username <>s "") && (password =s "") then (Some "Password is required", fs)
  else editFile fs path username "add" (λ c, Config_AddUser c username password algorithm enabled).
Definition updateUser (fs : files) (path username password algorithm : string) (enabled : bool)
    : option string * files :=
  editFile fs path username "update" (λ c, Config_UpdateUser c username password algorithm enabled).
Definition removeUser (fs : files) (path username : string) : option string * files :=
  editFile fs path username "remove" (λ c, Config_RemoveUser c username).

(** The search before the update makes the error for an unknown user another one. *)
Definition enableUser (fs : files) (path username : string) (enabled : bool) : option string * files :=
  if username =s "" then (Some "Username is required", fs)
  else
    match LoadConfig readError fs path with
    | Err e => (Some ("Failed to load config: " +:+ e), fs)
    | Ok cfg =>
        if negb (hasUser username (Users cfg)) then (Some ("User '" +:+ username +:+ "' not found"), fs)
        else
          let '(err, cfg) := Config_UpdateUser cfg username "" "" enabled in
          match err with
          | Some e => (Some ("Failed to update user: " +:+ e), fs)
          | None =>
              let '(err, fs) := SaveConfig writeError fs cfg path in
              (match err with Some e => Some ("Failed to save config: " +:+ e) | None => None end, fs)
          end
    end%string.

(** The password as it is listed: its first and last bytes around asterisks. *)
Definition hidden (password : string) : string :=
  let n := String.length password in
  if (8 <? n)%nat then String.substring 0 4 password +:+ "****" +:+ String.substring (n - 4) 4 password
  else if (4 <? n)%nat then String.substring 0 2 password +:+ "****" +:+ String.substring (n - 2) 2 password
  else "****".
Definition listUsers (fs : files) (path : string) : result (list (string * string * bool * string)) :=
  match LoadConfig readError fs path with
  | Err e => Err ("Failed to load config: " +:+ e)%string
  | Ok cfg => Ok ((λ u, (U_Username u, U_Algorithm u, U_Enabled u, hidden (U_Password u))) <$> Config_ListUsers cfg)
  end.

Definition runCommand (path : string) (fs : files) (cmd : command) : option string * files :=
  match cmd with
  | CmdGenerate => generateConfig fs path
  | CmdList => (match listUsers fs path with Ok _ => None | Err e => Some e end, fs)
  | CmdAdd u p a e => addUser fs path u p a e
  | CmdUpdate u p a e => updateUser fs path u p a e
  | CmdRemove u => removeUser fs path u
  | CmdEnable u e => enableUser fs path u e
  end.
End Files.

(** ** The start of the broker (cmd/emqx-go) *)

(** The environment overrides the file. *)
Definition overrideEnv (getenv : string → string) (c : Config) : Config :=
  let b := Broker c in
  let env k v := if getenv k <>s "" then getenv k else v in
  mkConfig (mkBrokerConfig (env "NODE_ID" (NodeID b)) (env "MQTT_PORT" (MQTTPort b))
    (env "GRPC_PORT" (GRPCPort b)) (env "METRICS_PORT" (MetricsPort b))
    (env "DASHBOARD_PORT" (DashboardPort b)) (B_Auth b)).

(** The dashboard's port: the configured one without its colon if it is a number. *)
Definition dashboardPort (c : Config) : Z :=
  let p := if DashboardPort (Broker c) =s "" then ":18083" else DashboardPort (Broker c) in
  let p := if strings.HasPrefix p ":" then default "" (dropBytes 1 p) else p in
  default 18083 (ParseInt p).

Definition comma : Ascii.ascii := Ascii.ascii_of_nat 44.
Definition colon : Ascii.ascii := Ascii.ascii_of_nat 58.

(** The peers of PEER_NODES for which [AddPeer] is called: the host is the identifier. *)
Definition peersOf (peerNodes : string) : list (string * string) :=
  omap (λ a, let peerAddr := TrimSpace a in
             if peerAddr =s "" then None
             else Some (default "" (head (strings.Split peerAddr colon)), peerAddr))
    (strings.Split peerNodes comma).
