(* ===== verification/ConfigProps.v ===== *)
(** * ConfigProps: what the configuration guarantees

    [validateConfig] accepts exactly the well-formed configurations; the commands of emqx-user
    implement a finite map of users that is kept in the file ([user_tool_refines_map]); the
    authentication configured from a file accepts exactly its users
    ([configured_auth_exact]). *)

From S2P Require Import Prelude GoLib GoValue GoJSON GoHTTP Auth Config.
Local Open Scope emqx_scope.
Local Open Scope Z_scope.

Ltac ascii_utf8 := apply valid_ascii; reflexivity.

(** ** Well-formed configurations *)

Definition good_user (u : UserConfig) : Prop :=
  U_Username u ≠ "" ∧ U_Password u ≠ "" ∧ validAlgorithm (U_Algorithm u) = true.

Definition good_config (c : Config) : Prop :=
  NodeID (Broker c) ≠ "" ∧ MQTTPort (Broker c) ≠ "" ∧
  NoDup (U_Username <$> Users c) ∧ Forall good_user (Users c).

Lemma validateUsers_None us : ∀ i seen,
  validateUsers i seen us = None ↔
  NoDup (U_Username <$> us) ∧ Forall good_user us ∧ ∀ u, u ∈ us → U_Username u ∉ seen.
Proof.
  induction us as [|u us IH]; intros i seen.
  { simpl. split; [|done]. intros _. split_and!; [constructor|done|].
    intros u Hu. by apply not_elem_of_nil in Hu. }
  cbn [validateUsers]. csimpl. rewrite NoDup_cons, Forall_cons. unfold good_user at 1.
  destruct (U_Username u =s "") eqn:E1; bool_prop; [split; [done|naive_solver]|].
  destruct (bool_decide (U_Username u ∈ seen)) eqn:E2; bool_prop.
  { split; [done|]. intros (_ & _ & Hs). destruct (Hs u); [by left|done]. }
  destruct (U_Password u =s "") eqn:E3; bool_prop; [split; [done|naive_solver]|].
  destruct (validAlgorithm (U_Algorithm u)) eqn:E4; simpl; [|split; [done|naive_solver]].
  rewrite IH. split.
  - intros (Hnd & Hg & Hs). split_and!; try done.
    + intros (v & Hv & Hin)%list_elem_of_fmap. specialize (Hs v Hin). set_solver.
    + intros v [->|Hin]%elem_of_cons; [done|]. specialize (Hs v Hin). set_solver.
  - intros ((Hni & Hnd) & (_ & Hg) & Hs). split_and!; try done. intros v Hin.
    apply not_elem_of_union. split.
    + apply not_elem_of_singleton. intros Heq. apply Hni. rewrite <-Heq. by apply list_elem_of_fmap_2.
    + apply Hs. by right.
Qed.

Lemma validateConfig_None c : validateConfig c = None ↔ good_config c.
Proof.
  unfold validateConfig, good_config.
  destruct (NodeID (Broker c) =s "") eqn:E1; bool_prop; [split; [done|naive_solver]|].
  destruct (MQTTPort (Broker c) =s "") eqn:E2; bool_prop; [split; [done|naive_solver]|].
  rewrite validateUsers_None. naive_solver set_solver.
Qed.

(** ** The table of users *)

Definition entry (u : UserConfig) : string * (string * string * bool) :=
  (U_Username u, (U_Password u, U_Algorithm u, U_Enabled u)).
Definition table (c : Config) : gmap string (string * string * bool) :=
  list_to_map (entry <$> Users c).

Lemma hasUser_lookup username us :
  hasUser username us = true ↔
  is_Some ((list_to_map (entry <$> us) : gmap string (string * string * bool)) !! username).
Proof.
  unfold hasUser. induction us as [|u us IH]; csimpl; [split; [done|by intros [??]]|].
  destruct (U_Username u =s username) eqn:E; bool_prop; simpl.
  - subst. rewrite lookup_insert_eq. naive_solver.
  - rewrite lookup_insert_ne by done. done.
Qed.

Lemma hasUser_None username us :
  hasUser username us = false ↔
  (list_to_map (entry <$> us) : gmap string (string * string * bool)) !! username = None.
Proof.
  rewrite eq_None_not_Some, <-hasUser_lookup. by destruct (hasUser username us).
Qed.

Lemma fst_entries us : (entry <$> us).*1 = U_Username <$> us.
Proof. induction us; csimpl; congruence. Qed.

(** ** The effect of a command on the table: the new table, or refusal *)
Definition tool (m : gmap string (string * string * bool)) (cmd : command)
    : option (gmap string (string * string * bool)) :=
  match cmd with
  | CmdGenerate => Some (table DefaultConfig)
  | CmdList => Some m
  | CmdAdd u p a e =>
      if (u =s "") || (p =s "") || negb (validAlgorithm a) then None
      else match m !! u with Some _ => None | None => Some (<[u := (p, a, e)]> m) end
  | CmdUpdate u p a e =>
      if (u =s "") || ((a <>s "") && negb (validAlgorithm a)) then None
      else
        match m !! u with
        | None => None
        | Some (p0, a0, _) =>
            Some (<[u := (if p <>s "" then p else p0, if a <>s "" then a else a0, e)]> m)
        end
  | CmdRemove u =>
      if u =s "" then None else match m !! u with Some _ => Some (delete u m) | None => None end
  | CmdEnable u e =>
      if u =s "" then None
      else match m !! u with Some (p0, a0, _) => Some (<[u := (p0, a0, e)]> m) | None => None end
  end.

(** ** Editing keeps configurations well formed *)

Lemma Users_set us c : Users (set_Users us c) = us.
Proof. done. Qed.

Lemma good_set us c :
  good_config c → NoDup (U_Username <$> us) → Forall good_user us → good_config (set_Users us c).
Proof. intros (? & ? & _ & _) ? ?. by split_and!. Qed.

Lemma updateUsers_spec us username p a e :
  NoDup (U_Username <$> us) → Forall good_user us →
  let m := list_to_map (entry <$> us) : gmap string (string * string * bool) in
  match updateUsers us username p a e with
  | (None, us') =>
      (a = "" ∨ validAlgorithm a = true) ∧
      NoDup (U_Username <$> us') ∧ Forall good_user us' ∧ U_Username <$> us' = U_Username <$> us ∧
      ∃ p0 a0 e0, m !! username = Some (p0, a0, e0) ∧
        list_to_map (entry <$> us') =
        <[username := (if p <>s "" then p else p0, if a <>s "" then a else a0, e)]> m
  | (Some _, us') =>
      us' = us ∧ (m !! username = None ∨ ((a <>s "") && negb (validAlgorithm a) = true))
  end.
Proof.
  intros Hnd Hg m. subst m. induction us as [|u us IH]; csimpl; [by eauto|].
  apply NoDup_cons in Hnd as [Hni Hnd]. apply Forall_cons in Hg as [(Hu1 & Hu2 & Hu3) Hg].
  destruct (U_Username u =s username) eqn:E; bool_prop.
  - subst username. destruct ((a <>s "") && negb (validAlgorithm a)) eqn:Ea; [by eauto|]. csimpl.
    rewrite lookup_insert_eq. apply andb_false_iff in Ea.
    assert (Ha : a = "" ∨ validAlgorithm a = true) by (destruct Ea; bool_prop; eauto).
    split_and!; [done|by constructor| |done|].
    + constructor; [|done]. unfold good_user, updatedUser. simpl.
      split_and!; [done|by destruct (p <>s "") eqn:Ep; bool_prop|].
      destruct (a <>s "") eqn:Eq; bool_prop; [|done]. by destruct Ha.
    + eexists _, _, _. split; [done|]. by rewrite insert_insert_eq.
  - specialize (IH Hnd Hg). destruct (updateUsers us username p a e) as [[err|] us'].
    + destruct IH as [-> Hor]. by rewrite lookup_insert_ne.
    + destruct IH as (Ha & Hnd' & Hg' & Hn & p0 & a0 & e0 & Hl & Hm). csimpl. rewrite Hn.
      split_and!; [done|by constructor|by constructor|done|]. exists p0, a0, e0.
      rewrite lookup_insert_ne by done. split; [done|]. by rewrite Hm, insert_insert_ne.
Qed.

Lemma removeFirst_spec us username :
  NoDup (U_Username <$> us) → Forall good_user us →
  let m := list_to_map (entry <$> us) : gmap string (string * string * bool) in
  match removeFirst us username with
  | None => m !! username = None
  | Some us' =>
      is_Some (m !! username) ∧ NoDup (U_Username <$> us') ∧ Forall good_user us' ∧
      U_Username <$> us' ⊆ U_Username <$> us ∧
      list_to_map (entry <$> us') = delete username m
  end.
Proof.
  intros Hnd Hg m. subst m. induction us as [|u us IH]; csimpl; [done|].
  apply NoDup_cons in Hnd as [Hni Hnd]. apply Forall_cons in Hg as [Hu Hg].
  destruct (U_Username u =s username) eqn:E; bool_prop.
  - subst username. rewrite lookup_insert_eq, delete_insert_eq.
    split_and!; [eauto|done|done|set_solver|]. rewrite delete_id; [done|].
    apply not_elem_of_list_to_map_1. by rewrite fst_entries.
  - specialize (IH Hnd Hg). destruct (removeFirst us username) as [us'|]; simpl.
    + destruct IH as (Hs & Hnd' & Hg' & Hsub & Hm). csimpl. rewrite lookup_insert_ne by done.
      split_and!; [done|constructor; [set_solver|done]|by constructor|set_solver|].
      change (list_fmap _ _ entry us') with (entry <$> us'). by rewrite Hm, delete_insert_ne.
    + by rewrite lookup_insert_ne.
Qed.

(** ** Reading back what was written *)

Definition utf8_user (u : UserConfig) : Prop :=
  valid_utf8 (U_Username u) ∧ valid_utf8 (U_Password u) ∧ valid_utf8 (U_Algorithm u).
Definition utf8_config (c : Config) : Prop :=
  let b := Broker c in
  valid_utf8 (NodeID b) ∧ valid_utf8 (MQTTPort b) ∧ valid_utf8 (GRPCPort b) ∧
  valid_utf8 (MetricsPort b) ∧ valid_utf8 (DashboardPort b) ∧ Forall utf8_user (Users c).

Class ConfigTextLaws `{JSONText} `{ConfigText} := {
  yaml_roundtrip c : utf8_config c → ∃ b, yamlMarshal c = Ok b ∧ yamlUnmarshal b = Ok c;
  jparse_jindent j : jparse (jindent j) = Some (jclean j);
}.

Lemma decUser_userJSON u cur : utf8_user u → decUser (jclean (userJSON u)) cur = Some u.
Proof.
  intros (H1 & H2 & H3). unfold decUser. simpl. run_fields. rewrite H1, H2, H3. by destruct u.
Qed.

Lemma decUserElems_users us : ∀ cur,
  Forall utf8_user us → decUserElems (jclean <$> (userJSON <$> us)) cur = Some us.
Proof.
  induction us as [|u us IH]; intros cur Hu; [done|].
  apply Forall_cons in Hu as [Hu1 Hu]. rewrite !fmap_cons. cbn [decUserElems].
  rewrite (decUser_userJSON u) by done. cbn [mbind option_bind]. by rewrite (IH _ Hu).
Qed.

Lemma decConfig_configJSON c : utf8_config c → decConfig (jclean (configJSON c)) = Some c.
Proof.
  intros (H1 & H2 & H3 & H4 & H5 & Hu). destruct c as [[n m g mt d [e us]]]. simpl in *.
  unfold decConfig. simpl. run_fields. unfold decBroker at 1. simpl. run_fields.
  unfold decAuth at 1. simpl. run_fields.
  rewrite decUserElems_users by done. simpl. by rewrite H1, H2, H3, H4, H5.
Qed.

Lemma updateUsers_utf8 us username p a e :
  Forall utf8_user us → valid_utf8 p → valid_utf8 a →
  Forall utf8_user (updateUsers us username p a e).2.
Proof.
  intros Hu Hp Ha. induction Hu as [|u us (H1 & H2 & H3) Hu IH]; simpl; [done|].
  destruct (U_Username u =s username).
  - case_match; simpl; constructor; try done. unfold utf8_user, updatedUser. simpl.
    split_and!; [done|by case_match|by case_match].
  - destruct (updateUsers us username p a e). simpl in *. by constructor.
Qed.

Lemma removeFirst_utf8 us username us' :
  Forall utf8_user us → removeFirst us username = Some us' → Forall utf8_user us'.
Proof.
  intros Hu. revert us'. induction Hu as [|u us Hu0 Hu IH]; intros us' Hr; simpl in Hr; [done|].
  case_match; [by simplify_eq|]. destruct (removeFirst us username); [|done].
  simpl in Hr. simplify_eq. constructor; [done|]. by apply IH.
Qed.

Definition utf8_command (cmd : command) : Prop :=
  match cmd with
  | CmdAdd u p a _ | CmdUpdate u p a _ => valid_utf8 u ∧ valid_utf8 p ∧ valid_utf8 a
  | CmdRemove u | CmdEnable u _ => valid_utf8 u
  | _ => True
  end.

Lemma table_snoc us u c :
  U_Username u ∉ U_Username <$> us →
  table (set_Users (us ++ [u]) c) = <[U_Username u := (U_Password u, U_Algorithm u, U_Enabled u)]>
    (list_to_map (entry <$> us)).
Proof.
  intros Hni. unfold table. rewrite Users_set, fmap_app. simpl. apply list_to_map_snoc.
  by rewrite fst_entries.
Qed.

Lemma add_spec c u p a e :
  utf8_config c → good_config c → utf8_command (CmdAdd u p a e) → u ≠ "" → p ≠ "" →
  match Config_AddUser c u p a e with
  | (Some _, _) => tool (table c) (CmdAdd u p a e) = None
  | (None, c') => utf8_config c' ∧ good_config c' ∧ tool (table c) (CmdAdd u p a e) = Some (table c')
  end.
Proof.
  intros Hu Hg (Hu1 & Hu2 & Hu3) Hue Hpe. unfold Config_AddUser, tool.
  rewrite (bool_decide_false Hue), (bool_decide_false Hpe). cbn [orb].
  destruct (hasUser u (Users c)) eqn:E.
  { apply hasUser_lookup in E as [x Hx]. fold (table c) in Hx. rewrite Hx. by case_match. }
  apply hasUser_None in E as Hn. fold (table c) in Hn.
  destruct (validAlgorithm a) eqn:Ea; cbn [negb]; [|done]. rewrite Hn.
  assert (Hni : u ∉ U_Username <$> Users c).
  { intros (v & Hv & Hin)%list_elem_of_fmap. apply not_elem_of_list_to_map_2 in Hn. apply Hn.
    rewrite fst_entries. subst. by apply list_elem_of_fmap_2. }
  destruct Hu as (?&?&?&?&?&Hus). destruct Hg as (?&?&Hnd&Hgu). split_and!.
  - unfold utf8_config. simpl. split_and!; try done. apply Forall_app. split; [done|]. by repeat constructor.
  - apply good_set; [by split_and!|..].
    + rewrite fmap_app. apply NoDup_app. split_and!; [done| |apply NoDup_singleton]. simpl. set_solver.
    + apply Forall_app. split; [done|]. by repeat constructor.
  - by rewrite (table_snoc _ (mkUserConfig u p a e)).
Qed.

Lemma update_spec c u p a e :
  utf8_config c → good_config c → valid_utf8 p → valid_utf8 a → u ≠ "" →
  match Config_UpdateUser c u p a e with
  | (Some _, _) => tool (table c) (CmdUpdate u p a e) = None
  | (None, c') => utf8_config c' ∧ good_config c' ∧ tool (table c) (CmdUpdate u p a e) = Some (table c')
  end.
Proof.
  intros Hu Hg Hp Ha Hue. unfold Config_UpdateUser, tool. rewrite (bool_decide_false Hue). cbn [orb].
  destruct Hu as (?&?&?&?&?&Hus). pose proof Hg as (_&_&Hnd&Hgu).
  pose proof (updateUsers_spec (Users c) u p a e Hnd Hgu) as Hspec. fold (table c) in Hspec.
  pose proof (updateUsers_utf8 (Users c) u p a e Hus Hp Ha) as Hutf.
  destruct (updateUsers (Users c) u p a e) as [[err|] us'].
  - destruct Hspec as [_ [->| ->]]; [by case_match|done].
  - destruct Hspec as (Hav & Hnd' & Hgu' & _ & p0 & a0 & e0 & Hl & Hm). rewrite Hl.
    assert ((a <>s "") && negb (validAlgorithm a) = false) as ->.
    { destruct Hav as [-> | ->]; [done|]. by rewrite andb_false_r. }
    split_and!; [|by apply good_set|].
    + unfold utf8_config. by split_and!.
    + unfold table at 2. rewrite Users_set. by rewrite Hm.
Qed.

Lemma remove_spec c u :
  utf8_config c → good_config c → u ≠ "" →
  match Config_RemoveUser c u with
  | (Some _, _) => tool (table c) (CmdRemove u) = None
  | (None, c') => utf8_config c' ∧ good_config c' ∧ tool (table c) (CmdRemove u) = Some (table c')
  end.
Proof.
  intros Hu Hg Hue. unfold Config_RemoveUser, tool. rewrite (bool_decide_false Hue).
  destruct Hu as (?&?&?&?&?&Hus). pose proof Hg as (_&_&Hnd&Hgu).
  pose proof (removeFirst_spec (Users c) u Hnd Hgu) as Hspec. fold (table c) in Hspec.
  pose proof (removeFirst_utf8 (Users c) u) as Hutf.
  destruct (removeFirst (Users c) u) as [us'|]; [|by rewrite Hspec].
  destruct Hspec as ([x Hx] & Hnd' & Hgu' & _ & Hm). rewrite Hx. split_and!; [|by apply good_set|].
  - unfold utf8_config. split_and!; try done. by apply Hutf.
  - unfold table at 2. rewrite Users_set. by rewrite Hm.
Qed.

(** ** The commands on a file *)

Section Tool.
Context `{GoUnicode} `{JSONText} `{ConfigText} {HL : ConfigTextLaws}.
Context (readError : string → string) (writeError : string → option string) (path : string).

(** A path with a supported extension that can be written. *)
Definition supported : Prop :=
  path ≠ "" ∧ writeError path = None ∧
  (ToLower (Ext path) = ".yaml" ∨ ToLower (Ext path) = ".yml" ∨ ToLower (Ext path) = ".json").

(** Whether each command succeeded, and the files afterwards. *)
Fixpoint session (fs : files) (cmds : list command) : list bool * files :=
  match cmds with
  | [] => ([], fs)
  | cmd :: cmds' =>
      let '(err, fs) := runCommand readError writeError path fs cmd in
      let '(oks, fs) := session fs cmds' in
      (match err with None => true | Some _ => false end :: oks, fs)
  end.
Fixpoint session_spec (m : gmap string (string * string * bool)) (cmds : list command)
    : list bool * gmap string (string * string * bool) :=
  match cmds with
  | [] => ([], m)
  | cmd :: cmds' =>
      let '(oks, m') := session_spec (default m (tool m cmd)) cmds' in
      (match tool m cmd with Some _ => true | None => false end :: oks, m')
  end.

Lemma LoadConfig_good fs c :
  path ≠ "" → LoadConfig readError fs path = Ok c → good_config c.
Proof.
  intros Hp Hl. unfold LoadConfig in Hl. rewrite bool_decide_false in Hl by done.
  repeat case_match; simplify_eq; by apply validateConfig_None.
Qed.

Lemma save_load fs c :
  supported → utf8_config c → good_config c →
  ∃ data, SaveConfig writeError fs c path = (None, <[path := data]> fs) ∧
          LoadConfig readError (<[path := data]> fs) path = Ok c.
Proof using HL.
  intros (Hp & Hw & He) Hu Hg. apply validateConfig_None in Hg.
  unfold SaveConfig, LoadConfig. rewrite Hw, (bool_decide_false Hp).
  destruct He as [He|[He|He]]; rewrite He; simpl.
  1, 2: destruct (yaml_roundtrip c Hu) as (b & Hm & Hb); rewrite Hm; exists b; split; [done|];
    by rewrite lookup_insert_eq, Hb, Hg.
  eexists. split; [done|]. rewrite lookup_insert_eq. unfold jsonUnmarshal.
  rewrite jparse_jindent. cbn [mbind option_bind].
  match goal with |- context [decConfig ?j] =>
    assert (decConfig j = Some c) as -> by exact (decConfig_configJSON c Hu) end. by rewrite Hg.
Qed.

(** The file after a command that succeeded or was refused. *)
Definition stepped (fs : files) (m : gmap string (string * string * bool)) (cmd : command)
    (res : option string * files) : Prop :=
  (res.1 = None ↔ is_Some (tool m cmd)) ∧ (∀ q, q ≠ path → res.2 !! q = fs !! q) ∧
  ∃ c', LoadConfig readError res.2 path = Ok c' ∧ utf8_config c' ∧ table c' = default m (tool m cmd).

Lemma stepped_refused fs c cmd err :
  LoadConfig readError fs path = Ok c → utf8_config c → tool (table c) cmd = None →
  stepped fs (table c) cmd (Some err, fs).
Proof.
  intros Hl Hu Ht. split_and!; simpl; [|done|].
  - rewrite Ht. split; [done|by intros [??]].
  - exists c. by rewrite Ht.
Qed.

Lemma stepped_saved fs m cmd c' :
  supported → utf8_config c' → good_config c' → tool m cmd = Some (table c') →
  ∃ data, SaveConfig writeError fs c' path = (None, <[path := data]> fs) ∧
          stepped fs m cmd (None, <[path := data]> fs).
Proof using HL.
  intros Hs Hu Hg Ht. destruct (save_load fs c' Hs Hu Hg) as (data & Hsave & Hload).
  exists data. split; [done|]. split_and!; simpl.
  - by rewrite Ht.
  - intros q Hq. by rewrite lookup_insert_ne.
  - exists c'. by rewrite Ht.
Qed.

Lemma default_config_ok : utf8_config DefaultConfig ∧ good_config DefaultConfig.
Proof.
  split.
  - unfold utf8_config. split_and!; [ascii_utf8..|]. repeat constructor; ascii_utf8.
  - apply validateConfig_None. vm_compute. reflexivity.
Qed.

(** An edit of the loaded configuration. *)
Lemma stepped_edit fs c cmd username verb edit :
  supported → LoadConfig readError fs path = Ok c → utf8_config c →
  (username = "" → tool (table c) cmd = None) →
  (username ≠ "" →
     match edit c with
     | (Some _, _) => tool (table c) cmd = None
     | (None, c') => utf8_config c' ∧ good_config c' ∧ tool (table c) cmd = Some (table c')
     end) →
  stepped fs (table c) cmd (editFile readError writeError fs path username verb edit).
Proof using HL.
  intros Hs Hl Hu Hempty He. unfold editFile.
  destruct (username =s "") eqn:E; bool_prop; [apply stepped_refused; auto|]. rewrite Hl.
  specialize (He E). destruct (edit c) as [[err|] c']; [by apply stepped_refused|].
  destruct He as (Hu' & Hg' & Ht). destruct (stepped_saved fs _ _ _ Hs Hu' Hg' Ht) as (data & -> & Hst).
  done.
Qed.

Lemma stepped_command fs c cmd :
  supported → LoadConfig readError fs path = Ok c → utf8_config c → utf8_command cmd →
  stepped fs (table c) cmd (runCommand readError writeError path fs cmd).
Proof using HL.
  intros Hs Hl Hu Hc. pose proof (LoadConfig_good fs c (proj1 Hs) Hl) as Hg.
  destruct cmd as [| |u p a e|u p a e|u|u e]; cbn [runCommand].
  - unfold generateConfig. destruct default_config_ok as [Hdu Hdg].
    destruct (stepped_saved fs (table c) CmdGenerate _ Hs Hdu Hdg eq_refl) as (data & -> & Hst). done.
  - unfold listUsers. rewrite Hl. split_and!; simpl; [by split; eauto|done|]. by exists c.
  - unfold addUser. destruct ((u <>s "") && (p =s "")) eqn:E.
    { apply stepped_refused; [done|done|]. bool_prop. subst. simpl. by rewrite orb_true_r. }
    apply stepped_edit; [done..|by intros ->|]. intros Hue. apply add_spec; try done.
    apply andb_false_iff in E as [E|E]; bool_prop; done.
  - unfold updateUser. apply stepped_edit; [done..|by intros ->|]. intros Hue.
    destruct Hc as (? & ? & ?). by apply update_spec.
  - unfold removeUser. apply stepped_edit; [done..|by intros ->|]. intros Hue. by apply remove_spec.
  - unfold enableUser. destruct (u =s "") eqn:E; bool_prop; [subst; by apply stepped_refused|]. rewrite Hl.
    destruct (hasUser u (Users c)) eqn:Eh; cbn [negb].
    + apply hasUser_lookup in Eh as [[[p0 a0] e0] Hx]. fold (table c) in Hx.
      assert (tool (table c) (CmdUpdate u "" "" e) = tool (table c) (CmdEnable u e)) as Heq.
      { simpl. rewrite (bool_decide_false E). simpl. by rewrite Hx. }
      pose proof (update_spec c u "" "" e Hu Hg eq_refl eq_refl E) as Hspec. rewrite Heq in Hspec.
      destruct (Config_UpdateUser c u "" "" e) as [[err|] c']; [by apply stepped_refused|].
      destruct Hspec as (Hu' & Hg' & Ht).
      destruct (stepped_saved fs _ _ _ Hs Hu' Hg' Ht) as (data & -> & Hst). done.
    + apply hasUser_None in Eh. fold (table c) in Eh.
      apply stepped_refused; [done|done|]. simpl. by rewrite (bool_decide_false E), Eh.
Qed.

(** C29. The user tool implements a table of users: whatever commands are run on a configuration
    file that loads, each is accepted exactly when it makes sense for the table of the users
    of the file, the file always loads again and then has the table that the accepted
    commands make of the first one, and no other file changes. *)
Theorem user_tool_refines_map cmds fs c :
  supported → LoadConfig readError fs path = Ok c → utf8_config c → Forall utf8_command cmds →
  ∃ c', (session fs cmds).1 = (session_spec (table c) cmds).1 ∧
    LoadConfig readError (session fs cmds).2 path = Ok c' ∧
    table c' = (session_spec (table c) cmds).2 ∧ good_config c' ∧
    ∀ q, q ≠ path → (session fs cmds).2 !! q = fs !! q.
Proof using HL.
  intros Hs Hl Hu Hc. revert fs c Hl Hu. induction Hc as [|cmd cmds Hc Hcs IH]; intros fs c Hl Hu.
  { exists c. split_and!; try done. eapply LoadConfig_good; [apply Hs|done]. }
  cbn [session session_spec]. pose proof (stepped_command fs c cmd Hs Hl Hu Hc) as (Hr & Hq & c1 & Hl1 & Hu1 & Ht1).
  destruct (runCommand readError writeError path fs cmd) as [err fs1]. cbn [fst snd] in *.
  destruct (IH fs1 c1 Hl1 Hu1) as (c' & Hoks & Hl2 & Ht2 & Hg2 & Hq2). rewrite <-Ht1.
  destruct (session fs1 cmds) as [oks fs2], (session_spec (table c1) cmds) as [oks' m']. cbn [fst snd] in *.
  exists c'. split_and!; try done.
  - subst oks'. f_equal. destruct err as [err|], (tool (table c) cmd); try done.
    + discriminate (proj2 Hr (mk_is_Some _ _ eq_refl)).
    + by destruct (proj1 Hr eq_refl).
  - intros q Hne. by rewrite Hq2, Hq.
Qed.
End Tool.

(** ** Concrete text formats

    They show that the laws can hold: both formats hold the JSON tree, written as digits. *)
Definition digitsConfig : ConfigText := {|
  yamlMarshal c := Ok (digits_text (configJSON c));
  yamlUnmarshal b := match digits_parse b ≫= decConfig with Some c => Ok c | None => Err "yaml" end;
  jindent := digits_text; jsonError _ := "json" |}.

#[export] Instance digitsConfig_laws : ConfigTextLaws (H := digitsJSON) (H0 := digitsConfig).
Proof.
  split.
  - intros c Hc. exists (digits_text (configJSON c)). split; [reflexivity|].
    unfold yamlUnmarshal, digitsConfig.
    rewrite (jparse_jtext (H := digitsJSON) (configJSON c) : digits_parse (digits_text _) = _).
    cbn [mbind option_bind]. by rewrite decConfig_configJSON.
  - intros j. apply (jparse_jtext (H := digitsJSON) j).
Qed.

Definition sampleConfig : Config :=
  mkConfig (mkBrokerConfig "n1" ":1883" "" "" "" (mkAuthConfig true [mkUserConfig "amy" "pw" "plain" false])).
Definition sampleCommands : list command :=
  [CmdAdd "bob" "secret" "bcrypt" true; CmdAdd "bob" "other" "plain" true; CmdEnable "amy" true;
   CmdUpdate "bob" "" "sha256" false; CmdRemove "eve"; CmdAdd "" "x" "plain" true].

Lemma sample_utf8 : utf8_config sampleConfig ∧ Forall utf8_command sampleCommands.
Proof.
  split.
  - unfold utf8_config. split_and!; [ascii_utf8..|]. repeat constructor; ascii_utf8.
  - unfold utf8_command. repeat constructor; ascii_utf8.
Qed.

Lemma user_tool_refines_map_witness :
  ∃ fs c', @session asciiUnicode digitsJSON digitsConfig (λ _, "") (λ _, None) "u.json"
      {["u.json" := digits_text (configJSON sampleConfig)]} sampleCommands =
      ([true; false; true; true; false; false], fs) ∧
    @LoadConfig asciiUnicode digitsJSON digitsConfig (λ _, "") fs "u.json" = Ok c' ∧
    table c' = {["amy" := ("pw", "plain", true); "bob" := ("secret", "sha256", false)]}.
Proof.
  destruct sample_utf8 as [Hu Hc].
  assert (Hl : @LoadConfig asciiUnicode digitsJSON digitsConfig (λ _, "")
    {["u.json" := digits_text (configJSON sampleConfig)]} "u.json" = Ok sampleConfig).
  { unfold LoadConfig. rewrite lookup_singleton_eq.
    replace (ToLower (Ext "u.json")) with ".json" by reflexivity.
    change ("u.json" =s "") with false. change (".json" =s ".yaml") with false.
    change (".json" =s ".yml") with false. change (".json" =s ".json") with true.
    cbn [orb]. unfold jsonUnmarshal. cbv beta iota zeta.
    rewrite (jparse_jtext (H := digitsJSON) (configJSON sampleConfig) : jparse (digits_text _) = _).
    cbn [mbind option_bind]. rewrite decConfig_configJSON by exact Hu. reflexivity. }
  destruct (user_tool_refines_map (H := asciiUnicode) (H0 := digitsJSON) (H1 := digitsConfig)
    (λ _, "") (λ _, None) "u.json" sampleCommands {["u.json" := digits_text (configJSON sampleConfig)]} sampleConfig)
    as (c' & Hok & Hload & Ht & _); [|exact Hl|exact Hu|exact Hc|].
  - split; [done|]. split; [done|]. right; right. vm_compute. reflexivity.
  - destruct (session _ _ _ _ _) as [oks fs]. cbn [fst snd] in Hok, Hload. exists fs, c'.
    split; [|split; [exact Hload|]].
    + rewrite Hok. vm_compute. reflexivity.
    + rewrite Ht. vm_compute. reflexivity.
Defined.

(** ** Configured authentication *)

Section Auth.
Context (sha256_hex : string → string) (bcrypt_generate : string → option string)
  (bcrypt_compare : string → string → bool).

(** The record of a configured user in the authenticator, if the password can be hashed. *)
Definition hashed (u : UserConfig) : option User :=
  let alg := algorithmOf (U_Algorithm u) in
  let salt := saltFor (U_Username u) alg in
  h ← hashPassword sha256_hex bcrypt_generate (U_Password u) salt alg;
  Some (mkUser (U_Username u) h alg salt (U_Enabled u)).

(** The passwords that a configured user is accepted with. *)
Definition accepts (u : UserConfig) (p : string) : Prop :=
  if U_Algorithm u =s "plain" then p = U_Password u
  else if U_Algorithm u =s "sha256"
  then sha256_hex (U_Username u +:+ p) = sha256_hex (U_Username u +:+ U_Password u)
  else ∃ h, bcrypt_generate (U_Password u) = Some h ∧ bcrypt_compare h p = true.

Lemma addConfigured_ok ma u :
  good_user u →
  match hashed u with
  | None => ∃ e, addConfigured sha256_hex bcrypt_generate (None, ma) u = (Some e, ma)
  | Some user => addConfigured sha256_hex bcrypt_generate (None, ma) u =
      (None, mkMemoryAuthenticator (<[U_Username u := user]> (users ma)) (ma_enabled ma))
  end.
Proof.
  intros (Hu & _ & _). unfold addConfigured, hashed, AddUser. rewrite (bool_decide_false Hu).
  destruct (hashPassword _ _ _ _ _) as [h|]; simpl; [|eauto].
  unfold SetUserEnabled. simpl. rewrite lookup_insert_eq. simpl. by rewrite insert_insert_eq.
Qed.

Lemma addConfigured_err us e ma :
  ∃ ma', foldl (addConfigured sha256_hex bcrypt_generate) (Some e, ma) us = (Some e, ma').
Proof. revert ma. induction us as [|u us IH]; intros ma; [by exists ma|]. apply IH. Qed.

Lemma configure_all us : ∀ ma,
  NoDup (U_Username <$> us) → Forall good_user us → Forall (λ u, is_Some (hashed u)) us →
  ∃ ma', foldl (addConfigured sha256_hex bcrypt_generate) (None, ma) us = (None, ma') ∧
    ma_enabled ma' = ma_enabled ma ∧
    (∀ u, u ∈ us → users ma' !! U_Username u = hashed u) ∧
    (∀ n, n ∉ U_Username <$> us → users ma' !! n = users ma !! n).
Proof.
  induction us as [|u us IH]; intros ma Hnd Hg Hh.
  { exists ma. split_and!; try done. intros u Hu. by apply not_elem_of_nil in Hu. }
  rewrite fmap_cons in Hnd. apply NoDup_cons in Hnd as [Hni Hnd].
  apply Forall_cons in Hg as [Hgu Hg]. apply Forall_cons in Hh as [[user Hu] Hh].
  pose proof (addConfigured_ok ma u Hgu) as Ha. rewrite Hu in Ha. cbn [foldl]. rewrite Ha.
  destruct (IH (mkMemoryAuthenticator (<[U_Username u := user]> (users ma)) (ma_enabled ma)) Hnd Hg Hh)
    as (ma' & Hf & He & Hin & Hout). exists ma'. split_and!; try done.
  - intros v [->|Hv]%elem_of_cons; [|by apply Hin]. rewrite Hout by done. simpl. by rewrite lookup_insert_eq.
  - intros n Hn. rewrite fmap_cons in Hn. apply not_elem_of_cons in Hn as [Hne Hn].
    rewrite Hout by done. simpl. by rewrite lookup_insert_ne.
Qed.

Lemma configure_fails us : ∀ ma,
  Forall good_user us → ¬ Forall (λ u, is_Some (hashed u)) us →
  ∃ e ma', foldl (addConfigured sha256_hex bcrypt_generate) (None, ma) us = (Some e, ma').
Proof.
  induction us as [|u us IH]; intros ma Hg Hh; [by destruct Hh; constructor|].
  apply Forall_cons in Hg as [Hgu Hg]. pose proof (addConfigured_ok ma u Hgu) as Ha. cbn [foldl].
  destruct (hashed u) as [user|] eqn:Eu.
  - rewrite Ha. apply IH; [done|]. intros Hh'. apply Hh. by constructor.
  - destruct Ha as [e ->]. destruct (addConfigured_err us e ma) as [ma' ->]. eauto.
Qed.

Lemma verify_accepts u user p :
  good_user u → hashed u = Some user →
  User_Enabled user = U_Enabled u ∧
  (verifyPassword sha256_hex bcrypt_generate bcrypt_compare p (PasswordHash user) (Salt user)
     (Algorithm user) = true ↔ accepts u p).
Proof.
  intros (_ & _ & Ha) Hu. unfold hashed, algorithmOf in Hu. unfold accepts.
  unfold validAlgorithm in Ha.
  destruct (U_Algorithm u =s "plain") eqn:E1; [|destruct (U_Algorithm u =s "sha256") eqn:E2;
    [|destruct (U_Algorithm u =s "bcrypt") eqn:E3; [|done]]]; simpl in Hu.
  - simplify_eq/=. by rewrite bool_decide_eq_true.
  - simplify_eq/=. rewrite bool_decide_eq_true. done.
  - destruct (bcrypt_generate (U_Password u)) as [h|] eqn:Eg; [|done]. simplify_eq/=. split; [done|].
    split; [eauto|]. by intros (h' & [= <-] & ?).
Qed.

(** C30. Authentication from a valid configuration.  When it is enabled and the passwords can be hashed,
    exactly the credentials of the enabled users are accepted, and those of a client that
    gives neither name nor password.  When it is disabled every client is ignored by the
    chain.  When a password cannot be hashed (bcrypt takes 72 bytes), the error leaves an
    enabled chain without authenticators, which accepts everyone. *)
Theorem configured_auth_exact c ac :
  good_config c →
  let '(err, ac') := ConfigureAuth sha256_hex bcrypt_generate bcrypt_compare c ac in
  (A_Enabled (B_Auth (Broker c)) = false →
     err = None ∧ ∀ u p, AuthChain_Authenticate ac' u p = AuthIgnore) ∧
  (A_Enabled (B_Auth (Broker c)) = true → Forall (λ u, is_Some (hashed u)) (Users c) →
     err = None ∧
     ∀ u p, AuthChain_Authenticate ac' u p = AuthSuccess ↔
       (∃ user, user ∈ Users c ∧ U_Username user = u ∧ U_Enabled user = true ∧ accepts user p) ∨
       (u = "" ∧ p = "")) ∧
  (A_Enabled (B_Auth (Broker c)) = true → ¬ Forall (λ u, is_Some (hashed u)) (Users c) →
     err ≠ None ∧ ∀ u p, AuthChain_Authenticate ac' u p = AuthSuccess).
Proof.
  intros (_ & _ & Hnd & Hg). unfold ConfigureAuth.
  destruct (A_Enabled (B_Auth (Broker c))); cbn [negb]; [|by split_and!].
  destruct (decide (Forall (λ u, is_Some (hashed u)) (Users c))) as [Hh|Hh].
  - destruct (configure_all (Users c) NewMemoryAuthenticator Hnd Hg Hh) as (ma & -> & He & Hin & Hout).
    split_and!; [done| |done]. intros _ _. split; [done|]. intros u p.
    unfold AuthChain_Authenticate. simpl.
    assert (Hen : ma_enabled ma = true) by by rewrite He.
    rewrite Hen. simpl. unfold MemoryAuthenticator_Authenticate. rewrite Hen. simpl.
    assert (Hempty : ∀ user, user ∈ Users c → U_Username user ≠ "").
    { intros user Hu. by apply (proj1 (Forall_forall _ _) Hg user Hu). }
    destruct (u =s "") eqn:Eu; bool_prop.
    + subst u. destruct (p =s "") eqn:Ep; bool_prop; simpl; split; naive_solver.
    + simpl. destruct (users ma !! u) as [user|] eqn:El.
      * destruct (decide (u ∈ U_Username <$> Users c)) as [(uc & -> & Huc)%list_elem_of_fmap|Hni];
          [|by rewrite (Hout u Hni) in El].
        rewrite (Hin uc Huc) in El. pose proof (proj1 (Forall_forall _ _) Hg uc Huc) as Hgu.
        destruct (verify_accepts uc user p Hgu El) as [Hue Hv]. rewrite Hue.
        split.
        -- intros Hs. left. exists uc. destruct (U_Enabled uc); simpl in Hs; [|done].
           destruct (verifyPassword _ _ _ _ _ _ _); [|done]. split_and!; try done. by apply Hv.
        -- intros [(uc' & Huc' & Hn & He' & Ha)|[? _]]; [|done].
           assert (uc' = uc) as ->.
           { apply list_elem_of_lookup in Huc as [i Hi], Huc' as [j Hj].
             assert (j = i) as ->; [|by simplify_eq].
             eapply NoDup_lookup; [exact Hnd|..]; rewrite list_lookup_fmap.
             - rewrite Hj. simpl. reflexivity.
             - rewrite Hi. simpl. by rewrite Hn. }
           rewrite He'. simpl. by rewrite (proj2 Hv Ha).
      * split; [done|]. intros [(uc & Huc & <- & _)|[? _]]; [|done].
        rewrite (Hin uc Huc) in El. by destruct (proj1 (Forall_forall _ _) Hh uc Huc) as [? ?]; simplify_eq.
  - destruct (configure_fails (Users c) NewMemoryAuthenticator Hg Hh) as (e & ma & ->).
    split_and!; [done|done|]. intros _ _. split; [done|]. done.
Qed.
End Auth.

Lemma configured_auth_exact_witness :
  let ac := (ConfigureAuth id Some (λ h p, h =s p) DefaultConfig NewAuthChain).2 in
  AuthChain_Authenticate ac "admin" "admin123" = AuthSuccess ∧
  AuthChain_Authenticate ac "" "" = AuthSuccess ∧
  AuthChain_Authenticate ac "test" "wrong" ≠ AuthSuccess.
Proof.
  pose proof (configured_auth_exact id Some (λ h p, h =s p) DefaultConfig NewAuthChain
    (proj2 default_config_ok)) as Hc.
  destruct (ConfigureAuth id Some (λ h p, h =s p) DefaultConfig NewAuthChain) as [err ac].
  destruct Hc as (_ & Hc & _).
  destruct (Hc eq_refl ltac:(repeat constructor; eexists; reflexivity)) as [_ Ha]. clear Hc.
  cbn [snd]. split; [|split].
  - apply Ha. left. exists (mkUserConfig "admin" "admin123" "bcrypt" true).
    split; [by left|]. split; [reflexivity|]. split; [reflexivity|]. by exists "admin123".
  - apply Ha. by right.
  - intros [(u & Hin & Hn & _ & Hacc)|[? _]]%Ha; [|done].
    repeat (apply elem_of_cons in Hin as [->|Hin]; [simpl in Hn; try done; vm_compute in Hacc; done|]).
    by apply not_elem_of_nil in Hin.
Defined.
