(* ===== verification/Certs.v ===== *)
(** * Certs: certificates and certificate authentication (pkg/tls, pkg/auth/x509)

    The certificate manager stores certificates and TLS settings by identifier; the X.509
    authenticator derives an identity from a client's certificate.  PEM and X.509 decoding,
    chain verification, key pairs and regular expressions are parameters: a parsed
    certificate is the record of the fields that the code reads.  The authenticator keeps a
    pointer to its configuration, which its caller shares: configurations live in a heap. *)

From S2P Require Import Prelude GoLib GoValue GoJSON GoHTTP Auth.
Local Open Scope emqx_scope.
Local Open Scope Z_scope.

(** A parsed certificate ([x509.Certificate]): names, serial number and addresses as the text
    that their [String] methods give. *)
Record X509Cert := mkX509Cert {
  X_Subject : string;
  X_CommonName : string;
  X_Issuer : string;
  X_SerialNumber : string;
  X_NotBefore : Time;
  X_NotAfter : Time;
  X_DNSNames : list string;
  X_EmailAddresses : list string;
  X_URIs : list string;
  X_IPAddresses : list string;
  X_Raw : list byte;
}.

(** ** The certificate manager (pkg/tls/certificate.go) *)

Record Certificate := mkCertificate {
  C_ID : string;
  C_CertName : string;
  C_Type : string;
  C_Content : string;
  C_Key : string;
  C_Chain : list string;
  C_Fingerprint : string;
  C_Subject : string;
  C_Issuer : string;
  C_NotBefore : Time;
  C_NotAfter : Time;
  C_CreatedAt : option Time;
  C_UpdatedAt : option Time;
  C_Enabled : bool;
}.

Record CertificateInfo := mkCertificateInfo {
  I_Subject : string; I_Issuer : string; I_SerialNumber : string;
  I_NotBefore : Time; I_NotAfter : Time; I_DNSNames : list string;
  I_IPAddresses : list string; I_Fingerprint : string;
}.

Definition VerifyNone : string := "none".
Definition VerifyPeer : string := "verify_peer".
Definition VerifyPeerFailIfNoCert : string := "verify_peer_fail_if_no_peer_cert".

Record TLSConfig := mkTLSConfig {
  T_Enabled : bool; T_Port : Z; T_CertFile : string; T_KeyFile : string; T_CACertFile : string;
  T_Verify : string; T_Ciphers : list string; T_Versions : list string; T_ClientCertAuth : bool;
  T_ReuseSession : bool; T_HonorCipherOrder : bool; T_ServerName : string;
  T_CertificateID : string; T_CACertificateID : string;
}.

Record CertificateManager := mkCertificateManager {
  certificates : gmap string Certificate;
  configs : gmap string TLSConfig;
}.
Definition NewCertificateManager : CertificateManager := mkCertificateManager ∅ ∅.

(** [tls.Config]: the zero value of [ClientAuth] is [NoClientCert]. *)
Inductive ClientAuthType := NoClientCert | VerifyClientCertIfGiven | RequireAndVerifyClientCert.
#[export] Instance ClientAuthType_eq_dec : EqDecision ClientAuthType.
Proof. solve_decision. Defined.
Record GoTLSConfig := mkGoTLSConfig {
  G_ServerName : string;
  G_ClientAuth : ClientAuthType;
  G_Certificates : list (string * string);
  G_ClientCAs : option string;
}.

(** [time.Until]: durations are clamped to 64 bits. *)
Definition Until (t now : Time) : Duration := Z.max (- 2 ^ 63) (Z.min (2 ^ 63 - 1) (t - now)).

Section Manager.
Context (pemDecode : string → option (list byte)) (ParseCertificate : list byte → result X509Cert)
  (sha256_hex_of : list byte → string).
(** [cert.Verify] against a pool, [tls.X509KeyPair] and [pool.AppendCertsFromPEM]. *)
Context (chainError : list X509Cert → X509Cert → option string)
  (keyPairError : string → string → option string) (appendCerts : string → bool).

Definition parsePEM (certPEM : string) : result X509Cert :=
  match pemDecode certPEM with
  | None => Err "failed to parse certificate PEM"
  | Some der =>
      match ParseCertificate der with
      | Err e => Err ("failed to parse certificate: " +:+ e)
      | Ok cert => Ok cert
      end
  end.

Definition parseCertificate (certPEM : string) : result CertificateInfo :=
  let? cert := parsePEM certPEM in
  Ok (mkCertificateInfo (X_Subject cert) (X_Issuer cert) (X_SerialNumber cert) (X_NotBefore cert)
        (X_NotAfter cert) (X_DNSNames cert) (X_IPAddresses cert) (sha256_hex_of (X_Raw cert))).

Definition AddCertificate (cm : CertificateManager) (cert : Certificate) (now : Time)
    : option string * CertificateManager :=
  if C_ID cert =s "" then (Some "certificate ID cannot be empty", cm)
  else
    match parseCertificate (C_Content cert) with
    | Err e => (Some ("invalid certificate content: " +:+ e), cm)
    | Ok info =>
        let created := match C_CreatedAt cert with None => Some now | Some t => Some t end in
        let cert := mkCertificate (C_ID cert) (C_CertName cert) (C_Type cert) (C_Content cert)
          (C_Key cert) (C_Chain cert) (I_Fingerprint info) (I_Subject info) (I_Issuer info)
          (I_NotBefore info) (I_NotAfter info) created (Some now) (C_Enabled cert) in
        (None, mkCertificateManager (<[C_ID cert := cert]> (certificates cm)) (configs cm))
    end.

Definition certNotFound (id : string) : string := "certificate with ID " +:+ id +:+ " not found".

Definition GetCertificate (cm : CertificateManager) (id : string) : result Certificate :=
  match certificates cm !! id with Some cert => Ok cert | None => Err (certNotFound id) end.
Definition ListCertificates (cm : CertificateManager) : list Certificate :=
  go_range (λ _ cert certs, certs ++ [cert]) (certificates cm) [].
Definition DeleteCertificate (cm : CertificateManager) (id : string) : option string * CertificateManager :=
  match certificates cm !! id with
  | None => (Some (certNotFound id), cm)
  | Some _ => (None, mkCertificateManager (delete id (certificates cm)) (configs cm))
  end.

(** CA texts that cannot be parsed are skipped. *)
Definition caPool (caCerts : list string) : list X509Cert :=
  omap (λ caCert, match parsePEM caCert with Ok cert => Some cert | Err _ => None end) caCerts.

Definition ValidateCertificate (certContent : string) (caCerts : list string) (now : Time) : option string :=
  match parseCertificate certContent with
  | Err e => Some ("invalid client certificate: " +:+ e)
  | Ok clientCert =>
      if Before now (I_NotBefore clientCert) then Some "certificate is not yet valid"
      else if After now (I_NotAfter clientCert) then Some "certificate has expired"
      else if (length caCerts =? 0)%nat then None
      else
        match parsePEM certContent with
        | Err e => Some e
        | Ok cert =>
            match chainError (caPool caCerts) cert with
            | Some e => Some ("certificate verification failed: " +:+ e)
            | None => None
            end
        end
  end.

Definition clientAuthOf (verify : string) : ClientAuthType :=
  if verify =s VerifyNone then NoClientCert
  else if verify =s VerifyPeer then VerifyClientCertIfGiven
  else if verify =s VerifyPeerFailIfNoCert then RequireAndVerifyClientCert
  else NoClientCert.

Definition GetTLSConfig (cm : CertificateManager) (configID : string) : result GoTLSConfig :=
  match configs cm !! configID with
  | None => Err ("TLS config with ID " +:+ configID +:+ " not found")
  | Some config =>
      let clientAuth := clientAuthOf (T_Verify config) in
      let? certs :=
        if T_CertificateID config <>s "" then
          match certificates cm !! T_CertificateID config with
          | None => Err ("server certificate with ID " +:+ T_CertificateID config +:+ " not found")
          | Some cert =>
              match keyPairError (C_Content cert) (C_Key cert) with
              | Some e => Err ("failed to load server certificate: " +:+ e)
              | None => Ok [(C_Content cert, C_Key cert)]
              end
          end
        else Ok [] in
      let? cas :=
        if (T_CACertificateID config <>s "") && negb (bool_decide (clientAuth = NoClientCert)) then
          match certificates cm !! T_CACertificateID config with
          | None => Err ("CA certificate with ID " +:+ T_CACertificateID config +:+ " not found")
          | Some caCert =>
              if negb (appendCerts (C_Content caCert)) then Err "failed to parse CA certificate"
              else Ok (Some (C_Content caCert))
          end
        else Ok None in
      Ok (mkGoTLSConfig (T_ServerName config) clientAuth certs cas)
  end%string.

Definition SetTLSConfig (cm : CertificateManager) (id : string) (config : TLSConfig) : CertificateManager :=
  mkCertificateManager (certificates cm) (<[id := config]> (configs cm)).

Definition IsExpiringSoon (cm : CertificateManager) (certID : string) (within : Duration) (now : Time) : bool :=
  match certificates cm !! certID with
  | None => false
  | Some cert => Until (C_NotAfter cert) now <=? within
  end.

Definition GetExpiringCertificates (cm : CertificateManager) (within : Duration) (now : Time) : list Certificate :=
  go_range (λ _ cert expiring,
    if Before (C_NotAfter cert) (now + within) then expiring ++ [cert] else expiring) (certificates cm) [].
End Manager.

(** ** The authenticator (pkg/auth/x509/authenticator.go) *)

Definition IdentityFromSubjectDN : string := "subject_dn".
Definition IdentityFromSubjectCN : string := "subject_cn".
Definition IdentityFromSAN : string := "san".
Definition IdentityFromSerial : string := "serial".
Definition IdentityFromFingerprint : string := "fingerprint".

Record X509Config := mkX509Config {
  XC_Enabled : bool;
  XC_IdentitySource : string;
  XC_IdentityField : string;
  XC_IdentityPattern : string;
  XC_CAChainDepth : Z;
  XC_VerifyCertChain : bool;
  XC_AllowedCNs : list string;
  XC_RevokedSerials : list string;
}.
Definition DefaultX509Config : X509Config :=
  mkX509Config false IdentityFromSubjectCN "" "" 10 true [] [].

(** Configurations by address, and the authenticator with its pointer. *)
Abbreviation heap := (gmap positive X509Config) (only parsing).
Record X509Authenticator (R : Type) := mkX509Authenticator {
  x_config : positive;
  x_pattern : option R;
  x_enabled : bool;
}.
Arguments mkX509Authenticator {_} _ _ _.
Arguments x_config {_} _.
Arguments x_pattern {_} _.
Arguments x_enabled {_} _.

Definition hexByte (b : byte) : string :=
  let digit n := String (Ascii.ascii_of_nat (if (n <? 10)%nat then 48 + n else 87 + n)) "" in
  let n := Z.to_nat (Z_of_byte b) in (digit (n / 16)%nat +:+ digit (n mod 16)%nat)%string.
(** [fmt.Sprintf("%x", raw)]. *)
Definition hexString (l : list byte) : string := foldr (λ b s, hexByte b +:+ s)%string "" l.

Section Authenticator.
Context `{GoUnicode} {R : Type} (Compile : string → result R) (MatchString : R → string → bool).
Implicit Types (h : heap) (x : X509Authenticator R).

Definition conf h x : X509Config := default DefaultX509Config (h !! x_config x).

(** [config] is the caller's pointer; [None] makes a new default configuration. *)
Definition NewX509Authenticator h (config : option positive) : result (heap * X509Authenticator R) :=
  let '(h, l) := match config with
                 | Some l => (h, l)
                 | None => let l := fresh (dom h) in (<[l := DefaultX509Config]> h, l)
                 end in
  let c := default DefaultX509Config (h !! l) in
  if XC_IdentityPattern c <>s "" then
    match Compile (XC_IdentityPattern c) with
    | Err e => Err ("invalid identity pattern: " +:+ e)%string
    | Ok r => Ok (h, mkX509Authenticator l (Some r) (XC_Enabled c))
    end
  else Ok (h, mkX509Authenticator l None (XC_Enabled c)).

Definition validateCertificateIdentity x (identity : string) : AuthResult :=
  if identity =s "" then AuthFailure
  else
    match x_pattern x with
    | Some r => if MatchString r identity then AuthSuccess else AuthFailure
    | None => AuthSuccess
    end.

Definition X509_Authenticate x (username password : string) : AuthResult :=
  if negb (x_enabled x) then AuthIgnore else validateCertificateIdentity x username.

Definition isCertificateRevoked h x (cert : X509Cert) : bool :=
  existsb (λ revokedSerial, revokedSerial =s X_SerialNumber cert) (XC_RevokedSerials (conf h x)).

(** The entry itself, or a name below the domain of a wildcard entry, or the domain. *)
Definition cnMatches (allowedCN cn : string) : bool :=
  if allowedCN =s cn then true
  else
    match dropBytes 2 allowedCN with
    | Some domain =>
        strings.HasPrefix allowedCN "*." &&
        (strings.HasSuffix cn ("." +:+ domain)%string || (cn =s domain))
    | None => false
    end.
Definition isAllowedCN h x (cn : string) : bool :=
  existsb (λ allowedCN, cnMatches allowedCN cn) (XC_AllowedCNs (conf h x)).

Definition firstOr (l : list string) (e : string) : result string :=
  match l with s :: _ => Ok s | [] => Err e end.

Definition extractIdentity h x (cert : X509Cert) : result string :=
  let c := conf h x in
  let source := XC_IdentitySource c in
  if source =s IdentityFromSubjectDN then Ok (X_Subject cert)
  else if source =s IdentityFromSubjectCN then
    if X_CommonName cert =s "" then Err "certificate subject common name is empty"
    else Ok (X_CommonName cert)
  else if source =s IdentityFromSAN then
    if XC_IdentityField c =s "" then
      match X_DNSNames cert with
      | s :: _ => Ok s
      | [] => firstOr (X_EmailAddresses cert) "no suitable SAN field found"
      end
    else
      let field := ToLower (XC_IdentityField c) in
      let missing := ("SAN field '" +:+ XC_IdentityField c +:+ "' not found")%string in
      if field =s "dns" then firstOr (X_DNSNames cert) missing
      else if field =s "email" then firstOr (X_EmailAddresses cert) missing
      else if field =s "uri" then firstOr (X_URIs cert) missing
      else if field =s "ip" then firstOr (X_IPAddresses cert) missing
      else Err missing
  else if source =s IdentityFromSerial then Ok (X_SerialNumber cert)
  else if source =s IdentityFromFingerprint then Ok (hexString (X_Raw cert))
  else Err ("unsupported identity source: " +:+ source)%string.

(** [peerCertificates]: those of the connection state, which may be nil. *)
Definition AuthenticateWithCertificate h x (peerCertificates : option (list X509Cert)) : string * AuthResult :=
  if negb (x_enabled x) then ("", AuthIgnore)
  else
    match peerCertificates with
    | Some (clientCert :: _) =>
        if isCertificateRevoked h x clientCert then ("", AuthFailure)
        else
          match extractIdentity h x clientCert with
          | Err _ => ("", AuthError)
          | Ok identity =>
              if negb (length (XC_AllowedCNs (conf h x)) =? 0)%nat
                 && negb (isAllowedCN h x (X_CommonName clientCert))
              then ("", AuthFailure)
              else
                match x_pattern x with
                | Some r => if MatchString r identity then (identity, AuthSuccess) else ("", AuthFailure)
                | None => (identity, AuthSuccess)
                end
          end
    | _ => ("", AuthIgnore)
    end.

Definition X509_Name : string := "x509".
Definition X509_Enabled x : bool := x_enabled x.

Definition with_enabled (b : bool) (c : X509Config) : X509Config :=
  mkX509Config b (XC_IdentitySource c) (XC_IdentityField c) (XC_IdentityPattern c) (XC_CAChainDepth c)
    (XC_VerifyCertChain c) (XC_AllowedCNs c) (XC_RevokedSerials c).
Definition with_revoked (l : list string) (c : X509Config) : X509Config :=
  mkX509Config (XC_Enabled c) (XC_IdentitySource c) (XC_IdentityField c) (XC_IdentityPattern c)
    (XC_CAChainDepth c) (XC_VerifyCertChain c) (XC_AllowedCNs c) l.

(** The shared configuration is changed too. *)
Definition X509_SetEnabled h x (enabled : bool) : heap * X509Authenticator R :=
  (<[x_config x := with_enabled enabled (conf h x)]> h,
   mkX509Authenticator (x_config x) (x_pattern x) enabled).

(** The pattern is compiled again only if its text differs from that of the present
    configuration, which can be the same object. *)
Definition UpdateConfig h x (config : option positive) : result (X509Authenticator R) :=
  match config with
  | None => Err "config cannot be nil"
  | Some l =>
      let c := default DefaultX509Config (h !! l) in
      let? pattern :=
        if XC_IdentityPattern c <>s XC_IdentityPattern (conf h x) then
          if XC_IdentityPattern c <>s "" then
            match Compile (XC_IdentityPattern c) with
            | Err e => Err ("invalid identity pattern: " +:+ e)%string
            | Ok r => Ok (Some r)
            end
          else Ok None
        else Ok (x_pattern x) in
      Ok (mkX509Authenticator l pattern (XC_Enabled c))
  end.

Definition GetConfig x : positive := x_config x.

Definition AddRevokedSerial h x (serial : string) : heap :=
  <[x_config x := with_revoked (XC_RevokedSerials (conf h x) ++ [serial]) (conf h x)]> h.

Fixpoint removeSerial (serial : string) (l : list string) : list string :=
  match l with
  | [] => []
  | s :: l' => if s =s serial then l' else s :: removeSerial serial l'
  end.
Definition RemoveRevokedSerial h x (serial : string) : heap :=
  <[x_config x := with_revoked (removeSerial serial (XC_RevokedSerials (conf h x))) (conf h x)]> h.
Definition GetRevokedSerials h x : list string := XC_RevokedSerials (conf h x).

Definition ValidateCertificateFromPEM (pemDecode : string → option (list byte))
    (ParseCertificate : list byte → result X509Cert) h x (certPEM : string) : result string :=
  let? cert := parsePEM pemDecode ParseCertificate certPEM in
  if isCertificateRevoked h x cert then Err "certificate is revoked"
  else
    match extractIdentity h x cert with
    | Err e => Err ("failed to extract identity: " +:+ e)%string
    | Ok identity =>
        match validateCertificateIdentity x identity with
        | AuthSuccess => Ok identity
        | _ => Err "certificate identity validation failed"
        end
    end.

(** The authenticator behind the interface of the chain. *)
Definition x509Authenticator x : Authenticator :=
  mkAuthenticator (X509_Authenticate x) X509_Name (X509_Enabled x).

(** [SetupCertificateAuth] of the broker. *)
Definition SetupCertificateAuth h (config : option positive) (ac : AuthChain)
    : result (heap * X509Authenticator R * AuthChain) :=
  match config with
  | None => Err "certificate authentication config cannot be nil"
  | Some l =>
      match NewX509Authenticator h (Some l) with
      | Err e => Err ("failed to create X.509 authenticator: " +:+ e)%string
      | Ok (h, x) => Ok (h, x, AddAuthenticator ac (x509Authenticator x))
      end
  end.
End Authenticator.
