(* ===== verification/CertsProps.v ===== *)
(** * CertsProps: what certificate authentication decides

    A certificate is accepted exactly when it is the first one, not revoked, with an identity,
    an allowed common name and a matching identity ([certificate_accepted_iff]); the same
    authenticator in the chain of passwords accepts a user name without any certificate
    ([certificate_chain_ignores_password]); revocations are counted ([revocation_count]); the
    TLS settings ask for a client certificate only on two exact texts
    ([client_certificates_required]). *)

From S2P Require Import Prelude GoLib GoValue GoJSON GoHTTP Auth Certs.
Local Open Scope emqx_scope.
Local Open Scope Z_scope.

Section Props.
Context `{GoUnicode} {R : Type} (MatchString : R → string → bool).
Implicit Types (h : gmap positive X509Config) (x : X509Authenticator R).

(** The identity is one that the compiled pattern, if there is one, matches. *)
Definition patternAdmits x (identity : string) : Prop :=
  match x_pattern x with Some r => MatchString r identity = true | None => True end.

Lemma validateCertificateIdentity_iff x u :
  validateCertificateIdentity MatchString x u = AuthSuccess ↔ u ≠ "" ∧ patternAdmits x u.
Proof.
  unfold validateCertificateIdentity, patternAdmits.
  destruct (u =s "") eqn:E; bool_prop; [naive_solver|].
  destruct (x_pattern x) as [r|]; [|naive_solver].
  destruct (MatchString r u); naive_solver.
Qed.

Lemma validateCertificateIdentity_decides x u :
  validateCertificateIdentity MatchString x u = AuthSuccess ∨
  validateCertificateIdentity MatchString x u = AuthFailure.
Proof. unfold validateCertificateIdentity. repeat case_match; eauto. Qed.

(** The entry of the allow list that admits a common name. *)
Definition admittedBy (cn allowed : string) : Prop :=
  allowed = cn ∨
  ∃ domain, allowed = ("*." +:+ domain)%string ∧
            (cn = domain ∨ strings.HasSuffix cn ("." +:+ domain)%string = true).

Lemma cnMatches_iff allowed cn : cnMatches allowed cn = true ↔ admittedBy cn allowed.
Proof.
  unfold cnMatches, admittedBy. destruct (allowed =s cn) eqn:E; bool_prop; [naive_solver|].
  split.
  - destruct (dropBytes 2 allowed) as [domain|] eqn:Ed; [|done].
    intros [Hp Hm]%andb_true_iff. apply HasPrefix_inv in Hp as [d ->]. right. exists d.
    simpl in Ed. simplify_eq. apply orb_true_iff in Hm as [?|?]; bool_prop; eauto.
  - intros [?|(d & -> & Hm)]; [done|]. change (dropBytes 2 ("*." +:+ d)) with (Some d).
    rewrite HasPrefix_app. apply orb_true_iff. rewrite bool_decide_eq_true. naive_solver.
Qed.

(** C31. Certificate authentication is exact: an identity is accepted if and only if the
    authenticator is enabled, the connection has a peer certificate whose serial number is not
    in the revocation list, the configured source yields that identity, the list of allowed
    names is empty or admits the certificate's common name (as the name itself, or under a
    wildcard entry), and the compiled pattern, if any, matches the identity.  A refusal carries
    no identity, and only a disabled authenticator or a connection without certificates is
    left to the other authenticators. *)
Theorem certificate_accepted_iff h x peers :
  let out := AuthenticateWithCertificate MatchString h x peers in
  let c := conf h x in
  (∀ identity, out = (identity, AuthSuccess) ↔
     x_enabled x = true ∧
     ∃ cert rest, peers = Some (cert :: rest) ∧
       X_SerialNumber cert ∉ XC_RevokedSerials c ∧
       extractIdentity h x cert = Ok identity ∧
       (XC_AllowedCNs c = [] ∨ ∃ a, a ∈ XC_AllowedCNs c ∧ admittedBy (X_CommonName cert) a) ∧
       patternAdmits x identity) ∧
  (out.2 = AuthIgnore ↔ x_enabled x = false ∨ peers = None ∨ peers = Some []) ∧
  (out.2 ≠ AuthSuccess → out.1 = "").
Proof.
  intros out c. subst out c. unfold AuthenticateWithCertificate, patternAdmits.
  destruct (x_enabled x) eqn:Ee; simpl; [|split_and!; naive_solver].
  destruct peers as [[|cert rest]|]; [split_and!; naive_solver| |split_and!; naive_solver].
  unfold isCertificateRevoked.
  match goal with |- context [existsb ?f ?l] => destruct (existsb f l) eqn:Er end.
  { apply existsb_true in Er as (s & Hs & Heq). bool_prop. subst s.
    split_and!; [|naive_solver..]. intros i. split; [done|].
    by intros (_ & c & r & [= <- <-] & Hn & _). }
  assert (X_SerialNumber cert ∉ XC_RevokedSerials (conf h x)) as Hnr.
  { intros Hin. apply (proj1 (existsb_false _ _) Er) in Hin. by bool_prop. }
  destruct (extractIdentity h x cert) as [identity|e] eqn:Ei.
  2: { split_and!; [|naive_solver..]. intros i. split; [done|].
       intros (_ & c & r & [= <- <-] & _ & Hok & _). congruence. }
  destruct (negb _ && negb _) eqn:Ea.
  - apply andb_true_iff in Ea as [Hn Ha]. bool_prop.
    assert (∀ a, a ∈ XC_AllowedCNs (conf h x) → ¬ admittedBy (X_CommonName cert) a).
    { intros a Hin Hadm%cnMatches_iff. apply (proj1 (existsb_false _ _) Ha) in Hin. congruence. }
    split_and!; [|naive_solver..]. intros i. split; [done|]. intros (_ & c & r & [= <- <-] & _ & _ & [Hnil|(a & Hin & Hadm)] & _).
    + by rewrite Hnil in Hn.
    + naive_solver.
  - assert (XC_AllowedCNs (conf h x) = [] ∨
            ∃ a, a ∈ XC_AllowedCNs (conf h x) ∧ admittedBy (X_CommonName cert) a) as Hadm.
    { apply andb_false_iff in Ea as [Hn|Ha]; bool_prop.
      - left. by destruct (XC_AllowedCNs (conf h x)).
      - right. apply existsb_true in Ha as (a & Hin & Hm). exists a. by rewrite <-cnMatches_iff. }
    destruct (x_pattern x) as [r|]; [destruct (MatchString r identity) eqn:Em|];
      (split_and!; [intros i; split|naive_solver..]).
    all: try by intros [=].
    all: try (intros [= <-]; split; [done|]; exists cert, rest; by split_and!).
    all: intros (_ & c & r' & [= <- <-] & _ & Hok & _ & Hp); congruence.
Qed.

Lemma foldl_AddAuthenticator late ac :
  foldl AddAuthenticator ac late = mkAuthChain (authenticators ac ++ late) (chain_enabled ac).
Proof.
  revert ac. induction late as [|b late IH]; intros [auths e]; simpl; [by rewrite app_nil_r|].
  rewrite IH. simpl. by rewrite <-app_assoc.
Qed.

(** C32. The certificate authenticator in the chain of passwords: once [SetupCertificateAuth]
    has added an enabled one to an enabled chain, credentials are accepted if and only if the
    first of the authenticators before it that decides accepts them, or none of those decides
    and the user name is not empty and matches the compiled pattern, if there is one.  In that
    second case neither the password nor a certificate is looked at, and authenticators that
    are added later are never asked. *)
Theorem certificate_chain_ignores_password (Compile : string → result R) h l ac h' x ac' later u p :
  SetupCertificateAuth Compile MatchString h (Some l) ac = Ok (h', x, ac') →
  XC_Enabled (conf h' x) = true → chain_enabled ac = true →
  AuthChain_Authenticate (foldl AddAuthenticator ac' later) u p = AuthSuccess ↔
  (∃ pre a post, authenticators ac = pre ++ a :: post ∧ Forall (undecided u p) pre ∧ decides u p a AuthSuccess) ∨
  (Forall (undecided u p) (authenticators ac) ∧ u ≠ "" ∧ patternAdmits x u).
Proof.
  intros Hs He Hc.
  assert (ac' = AddAuthenticator ac (x509Authenticator MatchString x) ∧ x_enabled x = true)
    as (-> & Hx).
  { unfold SetupCertificateAuth, NewX509Authenticator, conf in *.
    repeat case_match; simplify_eq/=; split; try done; by rewrite <-He. }
  set (a := x509Authenticator MatchString x).
  rewrite foldl_AddAuthenticator. unfold AddAuthenticator. cbn [authenticators chain_enabled].
  rewrite Hc. cbn [authenticators]. rewrite <-app_assoc. simpl. unfold AuthChain_Authenticate. cbn [chain_enabled authenticators negb].
  assert (decides u p a (validateCertificateIdentity MatchString x u)) as Hd.
  { split_and!; [done| |apply validateCertificateIdentity_decides].
    unfold a. simpl. unfold X509_Authenticate. by rewrite Hx. }
  replace (length (authenticators ac ++ a :: later) =? 0)%nat with false
    by (symmetry; apply Nat.eqb_neq; rewrite length_app; simpl; lia).
  destruct (first_deciding u p (authenticators ac)) as [Hu|(pre & b & post & r & Heq & Hpre & Hb)].
  - rewrite (chainLoop_decided _ _ _ _ _ _ Hu Hd), validateCertificateIdentity_iff. split; [by right|].
    intros [(pre & b & post & Heq & _ & Hb)|[_ ?]]; [|done].
    rewrite Heq in Hu. apply Forall_app in Hu as [_ [Hu _]%Forall_cons]. by destruct (Hu _ Hb).
  - rewrite Heq, <-app_assoc. simpl. rewrite (chainLoop_decided _ _ _ _ _ _ Hpre Hb). split.
    + intros ->. left. by exists pre, b, post.
    + intros [(pre' & b' & post' & Heq' & Hpre' & Hb')|[Hu _]].
      * pose proof (chainLoop_decided u p pre b post r Hpre Hb) as E1.
        pose proof (chainLoop_decided u p pre' b' post' _ Hpre' Hb') as E2. congruence.
      * apply Forall_app in Hu as [_ [Hu _]%Forall_cons]. by destruct (Hu r).
Qed.

(** ** Revocation *)

Lemma conf_insert h x c : conf (<[x_config x := c]> h) x = c.
Proof. unfold conf. by rewrite lookup_insert_eq. Qed.

Definition revokedCount h x (serial : string) : nat :=
  length (filter (.= serial) (XC_RevokedSerials (conf h x))).

Lemma count_removeSerial serial s l :
  length (filter (.= s) (removeSerial serial l)) =
  (length (filter (.= s) l) - if bool_decide (s = serial) then 1 else 0)%nat.
Proof.
  induction l as [|t l IH]; simpl; [by case_bool_decide|].
  destruct (t =s serial) eqn:E; bool_prop.
  - subst t. rewrite filter_cons. case_bool_decide; subst; [rewrite decide_True by done|rewrite decide_False by done]; simpl; lia.
  - destruct (decide (t = s)) as [<-|Hne].
    + rewrite !filter_cons_True by done. simpl. rewrite IH, bool_decide_eq_false_2 by done. lia.
    + rewrite !filter_cons_False by done. done.
Qed.

Lemma isCertificateRevoked_count h x cert :
  isCertificateRevoked h x cert = true ↔ (0 < revokedCount h x (X_SerialNumber cert))%nat.
Proof.
  unfold isCertificateRevoked, revokedCount. induction (XC_RevokedSerials _) as [|s l IH]; simpl; [lia|].
  rewrite filter_cons. destruct (s =s X_SerialNumber cert) eqn:E; bool_prop.
  - rewrite decide_True by done. simpl. lia.
  - rewrite decide_False by done. done.
Qed.

(** An operation on the revocation list. *)
Inductive revocation := Revoke (serial : string) | Restore (serial : string).
Definition runRevocation h x (op : revocation) : gmap positive X509Config :=
  match op with
  | Revoke serial => AddRevokedSerial h x serial
  | Restore serial => RemoveRevokedSerial h x serial
  end.
(** The counter that the operations drive for one serial number: it never goes below 0. *)
Definition balance (serial : string) (n : nat) (op : revocation) : nat :=
  match op with
  | Revoke s => if s =s serial then S n else n
  | Restore s => if s =s serial then Nat.pred n else n
  end.

(** Revocations are counted: after any sequence of additions to and removals from the
    revocation list a certificate is refused as revoked exactly when its serial number has
    been added more often than removed - every removal takes away one addition, and a removal
    without one has no effect - so that revoking a certificate twice and restoring it once
    leaves it revoked; what the configuration holds besides does not change. *)
Theorem revocation_count h x cert ops :
  let h' := foldl (λ h op, runRevocation h x op) h ops in
  (isCertificateRevoked h' x cert = true ↔
     (0 < foldl (balance (X_SerialNumber cert)) (revokedCount h x (X_SerialNumber cert)) ops)%nat) ∧
  with_revoked [] (conf h' x) = with_revoked [] (conf h x).
Proof.
  intros h'. rewrite isCertificateRevoked_count. subst h'. generalize (X_SerialNumber cert) as s.
  intros s. revert h. induction ops as [|op ops IH]; intros h; simpl; [done|].
  destruct (IH (runRevocation h x op)) as [Hc Hw]. rewrite Hc, Hw. split.
  - replace (revokedCount (runRevocation h x op) x s) with (balance s (revokedCount h x s) op); [done|].
    unfold revokedCount. destruct op as [t|t]; simpl; unfold AddRevokedSerial, RemoveRevokedSerial;
      rewrite conf_insert; simpl.
    + rewrite filter_app, length_app, filter_cons, filter_nil.
      case_bool_decide; [rewrite decide_True by done|rewrite decide_False by done]; simpl; lia.
    + rewrite count_removeSerial. repeat case_bool_decide; simplify_eq; lia.
  - destruct op; simpl; unfold AddRevokedSerial, RemoveRevokedSerial; by rewrite conf_insert.
Qed.

(** ** The compiled pattern *)

(** The pattern in use: a caller that edits the configuration the authenticator points to
    and hands it to [UpdateConfig] finds the edited pattern without effect - the test for a
    change compares the configuration with itself - whereas a configuration at another address
    with that pattern is compiled and used, or refused when it is invalid. *)
Theorem UpdateConfig_pattern (Compile : string → result R) h x c :
  let h1 := <[x_config x := c]> h in
  UpdateConfig Compile h1 x (Some (x_config x)) =
    Ok (mkX509Authenticator (x_config x) (x_pattern x) (XC_Enabled c)) ∧
  (∀ l, l ≠ x_config x → XC_IdentityPattern c ≠ XC_IdentityPattern (conf h x) →
     let h2 := <[l := c]> h in
     UpdateConfig Compile h2 x (Some l) =
       if XC_IdentityPattern c =s "" then Ok (mkX509Authenticator l None (XC_Enabled c))
       else match Compile (XC_IdentityPattern c) with
            | Ok r => Ok (mkX509Authenticator l (Some r) (XC_Enabled c))
            | Err e => Err ("invalid identity pattern: " +:+ e)%string
            end).
Proof.
  split.
  - unfold UpdateConfig. rewrite conf_insert, lookup_insert_eq. simpl.
    by rewrite bool_decide_eq_true_2.
  - intros l Hl Hp h2. unfold UpdateConfig, h2. rewrite lookup_insert_eq. simpl.
    assert (conf (<[l := c]> h) x = conf h x) as ->.
    { unfold conf. by rewrite lookup_insert_ne. }
    rewrite (bool_decide_eq_false_2 (_ = XC_IdentityPattern (conf h x))) by done. simpl.
    destruct (XC_IdentityPattern c =s "") eqn:E; simpl; [done|]. by destruct (Compile _).
Qed.

End Props.

(** ** Witnesses for certificate authentication *)

Definition sampleX509 : X509Config :=
  mkX509Config true IdentityFromSubjectCN "" "^dev" 10 true ["*.example.org"] ["13"].
Definition samplePattern (r : string) (s : string) : bool := strings.HasPrefix s "dev".
Definition sampleCompile (p : string) : result string := Ok p.

Lemma certificate_chain_ignores_password_witness :
  let h : gmap positive X509Config := {[ 1%positive := sampleX509 ]} in
  let x := mkX509Authenticator 1 (Some "^dev") true in
  let ac := AddAuthenticator NewAuthChain (x509Authenticator samplePattern x) in
  AuthChain_Authenticate ac "dev7" "wrong" = AuthSuccess.
Proof.
  intros h x ac.
  apply (certificate_chain_ignores_password samplePattern sampleCompile h 1 NewAuthChain h x ac []
           "dev7" "wrong"); [reflexivity|reflexivity|reflexivity|].
  right. split; [constructor|]. split; [discriminate|reflexivity].
Defined.

(** ** The certificate manager *)

Section Manager.

(** The TLS settings of a listener: when they are produced, client certificates are
    required exactly when the verification mode is the text verify_peer_fail_if_no_peer_cert,
    and asked for exactly when it is that or verify_peer - every other text, and the flag for
    client certificate authentication, count for nothing; the certificates and the CA pool are
    those stored under the configured identifiers, and a pool is set only where client
    certificates are asked for. *)
Theorem client_certificates_required (keyPairError : string → string → option string)
    (appendCerts : string → bool) cm id cfg g :
  configs cm !! id = Some cfg →
  GetTLSConfig keyPairError appendCerts cm id = Ok g →
  (G_ClientAuth g = RequireAndVerifyClientCert ↔ T_Verify cfg = VerifyPeerFailIfNoCert) ∧
  (G_ClientAuth g ≠ NoClientCert ↔ T_Verify cfg = VerifyPeer ∨ T_Verify cfg = VerifyPeerFailIfNoCert) ∧
  (G_Certificates g =
     if T_CertificateID cfg =s "" then []
     else match certificates cm !! T_CertificateID cfg with
          | Some cert => [(C_Content cert, C_Key cert)] | None => [] end) ∧
  (G_ClientCAs g =
     if (T_CACertificateID cfg =s "") || bool_decide (G_ClientAuth g = NoClientCert) then None
     else C_Content <$> certificates cm !! T_CACertificateID cfg).
Proof.
  unfold GetTLSConfig. intros -> Hg.
  apply result_bind_Ok in Hg as (certs & Hcerts & Hg). apply result_bind_Ok in Hg as (cas & Hcas & Hg).
  injection Hg as <-. cbn [G_ClientAuth G_Certificates G_ClientCAs].
  assert ((clientAuthOf (T_Verify cfg) = RequireAndVerifyClientCert ↔ T_Verify cfg = VerifyPeerFailIfNoCert) ∧
          (clientAuthOf (T_Verify cfg) ≠ NoClientCert ↔
           T_Verify cfg = VerifyPeer ∨ T_Verify cfg = VerifyPeerFailIfNoCert)) as [Hr Hn].
  { unfold clientAuthOf, VerifyNone, VerifyPeer, VerifyPeerFailIfNoCert.
    repeat case_bool_decide; naive_solver congruence. }
  split_and!; [done|done| |].
  - repeat case_match; simplify_eq/=; bool_prop; naive_solver.
  - destruct (T_CACertificateID cfg =s "") eqn:E1; simpl in *; [by injection Hcas|].
    destruct (bool_decide (clientAuthOf (T_Verify cfg) = NoClientCert)); simpl in *; [by injection Hcas|].
    repeat case_match; simplify_eq/=; done.
Qed.

Definition in_duration (d : Duration) : Prop := - 2 ^ 63 ≤ d < 2 ^ 63.

(** Certificates that expire soon: the listing gives exactly the stored certificates that
    end before the deadline, and (for a remaining time that is a duration) the single query
    answers true on these and, besides, on a certificate that ends at the deadline; an unknown
    identifier never expires. *)
Theorem expiring_certificates cm within now :
  (∀ cert, cert ∈ GetExpiringCertificates cm within now ↔
     ∃ id, certificates cm !! id = Some cert ∧ C_NotAfter cert < now + within) ∧
  (∀ id cert, certificates cm !! id = Some cert → in_duration (C_NotAfter cert - now) →
     IsExpiringSoon cm id within now = true ↔
     cert ∈ GetExpiringCertificates cm within now ∨ C_NotAfter cert = now + within) ∧
  (∀ id, certificates cm !! id = None → IsExpiringSoon cm id within now = false).
Proof.
  assert (∀ cert, cert ∈ GetExpiringCertificates cm within now ↔
     ∃ id, certificates cm !! id = Some cert ∧ C_NotAfter cert < now + within) as Hl.
  { intros cert. unfold GetExpiringCertificates.
    rewrite (go_range_collect (λ _ c, Before (C_NotAfter c) (now + within)) (λ _ c, [c])). simpl.
    rewrite elem_of_range_collect. unfold Before. setoid_rewrite Z.ltb_lt.
    setoid_rewrite list_elem_of_singleton. naive_solver. }
  split_and!; [done| |].
  - intros id cert Hc [H1 H2]. unfold IsExpiringSoon, Until. rewrite Hc, Hl, Z.leb_le. split.
    + intros Hle. destruct (decide (C_NotAfter cert = now + within)); [by right|]. left.
      exists id. split; [done|]. lia.
    + intros [(id' & _ & Hlt)|Heq]; lia.
  - intros id Hc. unfold IsExpiringSoon. by rewrite Hc.
Qed.

Context (pemDecode : string → option (list byte)) (ParseCertificate : list byte → result X509Cert)
  (sha256_hex_of : list byte → string).

(** The certificates that the manager holds carry what their text says. *)
Definition faithful (cm : CertificateManager) : Prop :=
  map_Forall (λ id cert, C_ID cert = id ∧ id ≠ "" ∧
    ∃ info, parseCertificate pemDecode ParseCertificate sha256_hex_of (C_Content cert) = Ok info ∧
      C_Fingerprint cert = I_Fingerprint info ∧ C_Subject cert = I_Subject info ∧
      C_Issuer cert = I_Issuer info ∧ C_NotBefore cert = I_NotBefore info ∧
      C_NotAfter cert = I_NotAfter info) (certificates cm).

Inductive certOp :=
  | OpAdd (cert : Certificate) (now : Time)
  | OpDelete (id : string)
  | OpSetTLS (id : string) (config : TLSConfig).
Definition runCertOp (cm : CertificateManager) (op : certOp) : CertificateManager :=
  match op with
  | OpAdd cert now => (AddCertificate pemDecode ParseCertificate sha256_hex_of cm cert now).2
  | OpDelete id => (DeleteCertificate cm id).2
  | OpSetTLS id config => SetTLSConfig cm id config
  end.

(** What the certificate manager stores is what the certificate says: whatever
    fingerprint, subject, issuer and dates a caller claims, after any sequence of operations
    every certificate is stored under its own non-empty identifier and its text parses to the
    fields that are shown for it; text that does not parse is never stored. *)
Theorem certificates_faithful ops : faithful (foldl runCertOp NewCertificateManager ops).
Proof.
  assert (∀ cm, faithful cm → faithful (foldl runCertOp cm ops)) as Hinv.
  { induction ops as [|op ops IH]; intros cm Hcm; simpl; [done|]. apply IH.
    destruct op as [cert now|id|id config]; simpl; [| |exact Hcm].
    - unfold AddCertificate. destruct (C_ID cert =s "") eqn:Eid; bool_prop; [done|].
      destruct (parseCertificate _ _ _ (C_Content cert)) as [info|e] eqn:Ep; [|done].
      unfold faithful. simpl. apply map_Forall_insert_2; [|exact Hcm].
      simpl. split_and!; [done..|]. exists info. by split_and!.
    - unfold DeleteCertificate. case_match; [|done]. unfold faithful. simpl.
      by apply map_Forall_delete. }
  apply Hinv. apply map_Forall_empty.
Qed.
End Manager.

Lemma client_certificates_required_witness :
  let cfg := mkTLSConfig true 8883 "" "" "" VerifyPeer [] [] true false false "" "" "" in
  let cm := SetTLSConfig NewCertificateManager "tls" cfg in
  ∃ g, GetTLSConfig (λ _ _, None) (λ _, true) cm "tls" = Ok g ∧ G_ClientAuth g ≠ RequireAndVerifyClientCert.
Proof.
  intros cfg cm. eexists. split; [reflexivity|]. intros Hreq.
  pose proof (proj1 (client_certificates_required (λ _ _, None) (λ _, true) cm "tls" cfg _
                eq_refl eq_refl)) as Hiff.
  apply Hiff in Hreq. discriminate.
Defined.
