(* ===== verification/Discovery.v ===== *)
(** * Finding and connecting peers (pkg/discovery, cmd/emqx-go)

    The Kubernetes API is represented by its answer, the subsets of the endpoints of a service.
    A tick of discovery, a round over the static peers of PEER_NODES and a join request of another
    node start goroutines that run [AddPeer] of the cluster manager, one per peer; the goroutines
    of all ticks and requests interleave between the test for the peer, the dial with the join
    request, and the entry in the table.  The dial waits for the connection and its context has no
    deadline, so a goroutine that dials a peer which does not answer stays. *)

From S2P Require Import Prelude GoLib GoValue Config Cluster.
Local Open Scope emqx_scope.
Local Open Scope Z_scope.

(** ** Kubernetes endpoints (kubernetes.go) *)

Record Peer := mkPeer { Peer_ID : string; Peer_Address : string }.
Record EndpointAddress := mkEndpointAddress { EA_IP : string; EA_Hostname : string }.
Record EndpointSubset := mkEndpointSubset {
  ES_Addresses : list EndpointAddress; ES_Ports : list (string * Z) }.
Record KubeDiscovery := mkKubeDiscovery { KD_namespace : string; KD_service : string; KD_portName : string }.

(** The first port of that name, 0 when there is none. *)
Fixpoint namedPort (portName : string) (ports : list (string * Z)) : Z :=
  match ports with
  | [] => 0
  | (name, port) :: ports => if name =s portName then port else namedPort portName ports
  end.

Definition ownHost (getenv : string → string) (osHostname : string) : string :=
  let hostname := getenv "HOSTNAME" in if hostname =s "" then osHostname else hostname.

Definition subsetPeers (portName hostname : string) (s : EndpointSubset) : list Peer :=
  let port := namedPort portName (ES_Ports s) in
  if port =? 0 then []
  else omap (λ a, if (EA_Hostname a <>s "") && (EA_Hostname a =s hostname) then None
                  else Some (mkPeer (EA_Hostname a) (EA_IP a +:+ ":" +:+ pretty port)%string)) (ES_Addresses s).

(** [endpoints namespace service]: the answer of the API. *)
Definition DiscoverPeers (endpoints : string → string → result (list EndpointSubset)) (hostname : string)
    (k : KubeDiscovery) : result (list Peer) :=
  match endpoints (KD_namespace k) (KD_service k) with
  | Err e => Err ("failed to get endpoints for service " +:+ KD_service k +:+ ": " +:+ e)%string
  | Ok subsets => Ok (subsets ≫= subsetPeers (KD_portName k) hostname)
  end.

(** The discovery that [startDiscovery] makes, and the goroutines of one of its ticks. *)
Definition discoveryOf (getenv : string → string) : KubeDiscovery :=
  mkKubeDiscovery (let ns := getenv "POD_NAMESPACE" in if ns =s "" then "default" else ns) "emqx-go-headless" "grpc".

Inductive goroutine := Pending (id address : string) | Dialing (id address : string).
#[export] Instance goroutine_eq_dec : EqDecision goroutine.
Proof. solve_decision. Defined.
Definition g_peer (g : goroutine) : string * string :=
  match g with Pending id a | Dialing id a => (id, a) end.

Definition discoveryTick (r : result (list Peer)) : list goroutine :=
  match r with Err _ => [] | Ok ps => (λ p, Pending (Peer_ID p) (Peer_Address p)) <$> ps end.
(** The goroutines of a round over PEER_NODES ([connectToPeers]). *)
Definition staticTick (peerNodes : string) : list goroutine :=
  (λ p, Pending p.1 p.2) <$> peersOf peerNodes.

(** ** Goroutines at the manager *)

Definition setPeer (id address : string) (m : Manager) : Manager :=
  mkManager (NodeID m) (NodeAddress m) (<[id := mkClient (NodeID m) address]> (peers m)) (remoteRoutes m).

(** What comes of dialling an address and asking to join: the peer accepts; an error (a target
    that does not parse, a cancelled context, a failed call) or a refusal; or, as the dial blocks
    until there is a connection and neither it nor the call has a deadline, nothing. *)
Inductive reply := Accepts | Refuses | Silent.
#[export] Instance reply_eq_dec : EqDecision reply.
Proof. solve_decision. Defined.

(** One step of a goroutine: the test under the lock, then the dial and the join, which fail or
    end with the entry in the table, whatever it holds by then.  The goroutine of a silent peer
    makes no step. *)
Inductive peerStep (answers : string → reply) : Manager * list goroutine → Manager * list goroutine → Prop :=
  | Known m id a gs1 gs2 :
      is_Some (peers m !! id) → peerStep answers (m, gs1 ++ Pending id a :: gs2) (m, gs1 ++ gs2)
  | Unknown m id a gs1 gs2 :
      peers m !! id = None →
      peerStep answers (m, gs1 ++ Pending id a :: gs2) (m, gs1 ++ Dialing id a :: gs2)
  | Refused m id a gs1 gs2 :
      answers a = Refuses → peerStep answers (m, gs1 ++ Dialing id a :: gs2) (m, gs1 ++ gs2)
  | Joined m id a gs1 gs2 :
      answers a = Accepts → peerStep answers (m, gs1 ++ Dialing id a :: gs2) (setPeer id a m, gs1 ++ gs2).

(** The open system: goroutines that run, and new ones that ticks and join requests start at
    any time; the list tells which were started. *)
Inductive openRun (answers : string → reply) :
    list (string * string) → Manager * list goroutine → Manager * list goroutine → Prop :=
  | Open_refl w : openRun answers [] w w
  | Open_step new w w' w'' : peerStep answers w w' → openRun answers new w' w'' → openRun answers new w w''
  | Open_start id a new m gs w : openRun answers new (m, gs ++ [Pending id a]) w →
      openRun answers ((id, a) :: new) (m, gs) w.

(** ** Theorems *)

(** The discovery answers exactly the addresses of the subsets that have the named port, except
    those of the own host; an address without a host name is never taken for the own one. *)
Theorem DiscoverPeers_exact endpoints hostname k :
  match endpoints (KD_namespace k) (KD_service k) with
  | Err _ => ∃ e, DiscoverPeers endpoints hostname k = Err e
  | Ok subsets => ∃ ps, DiscoverPeers endpoints hostname k = Ok ps ∧
      ∀ p, p ∈ ps ↔ ∃ s a, s ∈ subsets ∧ a ∈ ES_Addresses s ∧ namedPort (KD_portName k) (ES_Ports s) ≠ 0 ∧
        (EA_Hostname a = "" ∨ EA_Hostname a ≠ hostname) ∧
        p = mkPeer (EA_Hostname a) (EA_IP a +:+ ":" +:+ pretty (namedPort (KD_portName k) (ES_Ports s)))%string
  end.
Proof.
  unfold DiscoverPeers. destruct (endpoints _ _) as [subsets|e]; [|by eexists].
  eexists. split; [done|]. intros p. rewrite list_elem_of_bind. unfold subsetPeers. split.
  - intros (s & Hp & Hs). destruct (Z.eqb_spec (namedPort (KD_portName k) (ES_Ports s)) 0) as [|Hport];
      [by apply elem_of_nil in Hp|].
    apply list_elem_of_omap in Hp as (a & Ha & E). exists s, a.
    destruct (_ && _) eqn:Ec; [done|]. simplify_eq. split_and!; try done.
    apply andb_false_iff in Ec as [Ec|Ec]; bool_prop; auto.
  - intros (s & a & Hs & Ha & Hport & Hh & ->). exists s. split; [|done].
    rewrite (proj2 (Z.eqb_neq _ _) Hport). apply list_elem_of_omap. exists a. split; [done|].
    destruct (_ && _) eqn:Ec; [|done]. exfalso.
    apply andb_true_iff in Ec as [E1 E2]. bool_prop. destruct Hh; congruence.
Qed.

Section Rounds.
Context (answers : string → reply).
Implicit Types (m : Manager) (gs : list goroutine).

(** A goroutine run alone whose dial and call return is [AddPeer] of the manager. *)
Lemma AddPeer_steps m id a connectOk join :
  answers a = match join with Some r => if connectOk && JR_Success r then Accepts else Refuses | None => Refuses end →
  rtc (peerStep answers) (m, [Pending id a]) (AddPeer m id a connectOk join (λ m, m), []).
Proof.
  intros Ha. unfold AddPeer. destruct (peers m !! id) as [c|] eqn:E.
  - apply rtc_once, (Known answers m id a [] []). by rewrite E.
  - eapply rtc_l; [by apply (Unknown answers m id a [] [])|]. apply rtc_once.
    destruct connectOk, join as [r|]; cbn [negb andb] in *; try destruct (JR_Success r);
      first [by apply (Joined answers m id a [] []) | by apply (Refused answers m id a [] [])].
Qed.

(** *** Goroutines that are started on the way *)

Abbreviation pending := (fmap (λ p : string * string, Pending p.1 p.2)).

Lemma peerStep_frame w w' extra : peerStep answers w w' → peerStep answers (w.1, w.2 ++ extra) (w'.1, w'.2 ++ extra).
Proof.
  intros []; cbn [fst snd]; rewrite <-!app_assoc; cbn [app];
    [by apply Known|by apply Unknown|by apply Refused|by apply Joined].
Qed.

(** A goroutine that has not yet made its test changes nothing: a run in which some are started
    on the way is a run in which they were there from the beginning. *)
Lemma openRun_closed new w w' :
  openRun answers new w w' → rtc (peerStep answers) (w.1, w.2 ++ pending new) w'.
Proof.
  induction 1 as [w|new w w' w'' Hs _ IH|id a new m gs w _ IH]; cbn [fst snd] in *.
  - rewrite fmap_nil, app_nil_r. by destruct w.
  - eapply rtc_l; [by apply peerStep_frame|done].
  - rewrite fmap_cons. cbn [fst snd]. by rewrite <-app_assoc in IH.
Qed.

(** *** What a run does *)

(** A peer that may enter the table in a run from [m] with [gs]: it accepts, and its goroutine is
    past the test, or will pass it because the table has no entry for it. *)
Definition candidate m gs (id a : string) : Prop :=
  answers a = Accepts ∧ (Dialing id a ∈ gs ∨ Pending id a ∈ gs ∧ peers m !! id = None).

#[local] Instance candidate_dec m gs id a : Decision (candidate m gs id a).
Proof. unfold candidate. apply _. Defined.

Definition entered m gs m' (id : string) : Prop :=
  ∃ a, candidate m gs id a ∧ peers m' !! id = Some (mkClient (NodeID m) a).

Record runInv m gs (w : Manager * list goroutine) : Prop := {
  ri_node : NodeID w.1 = NodeID m;
  ri_table id : entered m gs w.1 id ∨ peers w.1 !! id = peers m !! id;
  ri_pending id a : Pending id a ∈ w.2 → Pending id a ∈ gs;
  ri_dialing id a : Dialing id a ∈ w.2 → Dialing id a ∈ gs ∨ Pending id a ∈ gs ∧ peers m !! id = None;
  ri_dialled id a : Dialing id a ∈ gs → answers a = Accepts → Dialing id a ∈ w.2 ∨ entered m gs w.1 id;
  ri_offered id a : Pending id a ∈ gs → peers m !! id = None → answers a = Accepts →
    Pending id a ∈ w.2 ∨ Dialing id a ∈ w.2 ∨ entered m gs w.1 id;
}.

Lemma runInv_start m gs : runInv m gs (m, gs).
Proof. split; cbn [fst snd]; auto. Qed.

(** The goroutine in the middle of the list leaves it, or is replaced. *)
Lemma elem_of_middle (g x : goroutine) gs1 gs2 : g ∈ gs1 ++ x :: gs2 ↔ g = x ∨ g ∈ gs1 ++ gs2.
Proof. rewrite !elem_of_app, elem_of_cons. tauto. Qed.

Lemma lookup_setPeer m id a id' :
  peers (setPeer id a m) !! id' = if decide (id = id') then Some (mkClient (NodeID m) a) else peers m !! id'.
Proof. cbn. by rewrite lookup_insert. Qed.

(** The table has no entry that was not there and was not entered. *)
Lemma runInv_unknown m gs w id : runInv m gs w → peers w.1 !! id = None → peers m !! id = None.
Proof. intros I E. destruct (ri_table _ _ _ I id) as [(a & _ & E')|E']; congruence. Qed.
Lemma runInv_known m gs w id :
  runInv m gs w → is_Some (peers w.1 !! id) → peers m !! id = None → entered m gs w.1 id.
Proof. intros I [c E] E0. destruct (ri_table _ _ _ I id) as [?|E']; [done|]. congruence. Qed.

(** Entering a candidate. *)
Lemma entered_setPeer m gs m' id a id' :
  NodeID m' = NodeID m → candidate m gs id a → entered m gs m' id' ∨ id' = id → entered m gs (setPeer id a m') id'.
Proof.
  intros Hn Hc Hor. unfold entered. rewrite lookup_setPeer, Hn. case_decide as Hid.
  - subst id'. by exists a.
  - by destruct Hor as [?| ->].
Qed.

Lemma runInv_step m gs w w' : peerStep answers w w' → runInv m gs w → runInv m gs w'.
Proof.
  intros Hs I. pose proof I as [Hn Ht Hp Hd Ha Ho].
  destruct Hs as [m1 id a gs1 gs2 He|m1 id a gs1 gs2 He|m1 id a gs1 gs2 He|m1 id a gs1 gs2 He]; cbn [fst snd] in *.
  - split; cbn [fst snd]; [done|done|..].
    + intros i b Hg. apply Hp, elem_of_middle. by right.
    + intros i b Hg. apply Hd, elem_of_middle. by right.
    + intros i b Hg Hb. destruct (Ha i b Hg Hb) as [[E|?]%elem_of_middle|?]; [done|by left|by right].
    + intros i b Hg E0 Hb. destruct (Ho i b Hg E0 Hb) as [[E|?]%elem_of_middle|[[E|?]%elem_of_middle|?]]; try tauto; [|done].
      right; right. simplify_eq. by apply (runInv_known m gs _ id I).
  - pose proof (runInv_unknown _ _ _ _ I He) as E0. split; cbn [fst snd]; [done|done|..].
    + intros i b [E|Hg]%elem_of_middle; [done|]. apply Hp, elem_of_middle. by right.
    + intros i b [E|Hg]%elem_of_middle; [|apply Hd, elem_of_middle; by right].
      simplify_eq. right. split; [|done]. apply Hp, elem_of_middle. by left.
    + intros i b Hg Hb. rewrite elem_of_middle.
      destruct (Ha i b Hg Hb) as [[E|?]%elem_of_middle|?]; [done|tauto|by right].
    + intros i b Hg Ei Hb. rewrite !elem_of_middle.
      destruct (Ho i b Hg Ei Hb) as [[E|?]%elem_of_middle|[[E|?]%elem_of_middle|?]]; try tauto; [|done].
      simplify_eq. tauto.
  - split; cbn [fst snd]; [done|done|..].
    + intros i b Hg. apply Hp, elem_of_middle. by right.
    + intros i b Hg. apply Hd, elem_of_middle. by right.
    + intros i b Hg Hb. destruct (Ha i b Hg Hb) as [[E|?]%elem_of_middle|?]; [|by left|by right]. simplify_eq. congruence.
    + intros i b Hg E0 Hb. destruct (Ho i b Hg E0 Hb) as [[E|?]%elem_of_middle|[[E|?]%elem_of_middle|?]]; try tauto; [done|].
      simplify_eq. congruence.
  - assert (Hc : candidate m gs id a) by (split; [done|]; apply Hd, elem_of_middle; by left).
    split; cbn [fst snd]; [done|..].
    + intros i. destruct (decide (i = id)) as [->|Hne]; [left; apply entered_setPeer; auto|].
      destruct (Ht i) as [?|E]; [left; apply entered_setPeer; auto|right].
      rewrite lookup_setPeer. by rewrite decide_False by done.
    + intros i b Hg. apply Hp, elem_of_middle. by right.
    + intros i b Hg. apply Hd, elem_of_middle. by right.
    + intros i b Hg Hb. destruct (Ha i b Hg Hb) as [[E|?]%elem_of_middle|?]; [|by left|].
      * simplify_eq. right. apply entered_setPeer; auto.
      * right. apply entered_setPeer; auto.
    + intros i b Hg E0 Hb. destruct (Ho i b Hg E0 Hb) as [[E|?]%elem_of_middle|[[E|?]%elem_of_middle|?]]; try tauto; [done|..].
      * simplify_eq. right; right. apply entered_setPeer; auto.
      * right; right. apply entered_setPeer; auto.
Qed.

Lemma runInv_run m gs w : rtc (peerStep answers) (m, gs) w → runInv m gs w.
Proof.
  intros Hr. remember (m, gs) as w0 eqn:E0. assert (runInv m gs w0) as I0 by (rewrite E0; apply runInv_start).
  clear E0. induction Hr as [|x y z Hxy _ IH]; [done|]. by apply IH, (runInv_step _ _ x).
Qed.

(** *** Where it ends *)

(** Each goroutine has at most two steps. *)
Definition work gs : nat := sum_list_with (λ g, match g with Pending _ _ => 2 | Dialing _ _ => 1 end)%nat gs.

Lemma work_step w w' : peerStep answers w w' → (work w'.2 < work w.2)%nat.
Proof. intros []; unfold work; cbn [snd]; rewrite !sum_list_with_app; cbn; lia. Qed.

Lemma work_nsteps n w w' : nsteps (peerStep answers) n w w' → (n + work w'.2 ≤ work w.2)%nat.
Proof. induction 1 as [|n x y z Hxy _ IH]; [lia|]. apply work_step in Hxy. lia. Qed.

Lemma work_length gs : (work gs ≤ 2 * length gs)%nat.
Proof. unfold work. induction gs as [|[] gs IH]; cbn [sum_list_with length]; lia. Qed.

(** The goroutine waits for a peer that does not answer. *)
Definition blocked (g : goroutine) : Prop :=
  match g with Dialing _ a => answers a = Silent | Pending _ _ => False end.
#[local] Instance blocked_dec g : Decision (blocked g).
Proof. destruct g; simpl; apply _. Defined.

Definition settled (w : Manager * list goroutine) : Prop := ∀ w', ¬ peerStep answers w w'.

Lemma goroutine_step m g gs1 gs2 : blocked g ∨ ∃ w', peerStep answers (m, gs1 ++ g :: gs2) w'.
Proof.
  destruct g as [id a|id a].
  - right. destruct (peers m !! id) eqn:E; eexists; [apply Known; by rewrite E|by apply Unknown].
  - simpl. destruct (answers a) eqn:E; [right; eexists; by apply Joined|right; eexists; by apply Refused|by left].
Qed.

Lemma settled_iff m gs : settled (m, gs) ↔ Forall blocked gs.
Proof.
  split.
  - intros Hs. apply Forall_forall. intros g (gs1 & gs2 & ->)%list_elem_of_split.
    destruct (goroutine_step m g gs1 gs2) as [?|[w' Hw]]; [done|]. by destruct (Hs w').
  - intros Hb w' Hw. inversion Hw; subst; apply Forall_app in Hb as [_ [Hb _]%Forall_cons]; simpl in Hb; congruence.
Qed.

Lemma settles w : ∃ w', rtc (peerStep answers) w w' ∧ settled w'.
Proof.
  induction w as [[m gs] IH] using (induction_ltof1 _ (λ w, work w.2)). unfold ltof in IH.
  destruct (decide (Forall blocked gs)) as [Hb|Hb]; [exists (m, gs); split; [done|by apply settled_iff]|].
  apply not_Forall_Exists, Exists_exists in Hb as (g & (gs1 & gs2 & ->)%list_elem_of_split & Hg); [|apply _].
  destruct (goroutine_step m g gs1 gs2) as [?|[w1 Hw]]; [done|].
  destruct (IH w1 (work_step _ _ Hw)) as (w' & Hr & Hs). exists w'. split; [by eapply rtc_l|done].
Qed.

(** The goroutines that are blocked stay. *)
Lemma blocked_stay w w' : rtc (peerStep answers) w w' → filter blocked w.2 `sublist_of` filter blocked w'.2.
Proof.
  induction 1 as [|x y z Hxy _ IH]; [done|]. etrans; [|exact IH].
  destruct Hxy; cbn [snd]; rewrite !filter_app; apply sublist_app; try done; rewrite ?filter_cons;
    cbn [blocked]; repeat case_decide; try done; try congruence. by constructor.
Qed.

(** C40. Goroutines that connect peers, under peers each of which accepts, refuses or stays silent:
    in every interleaving they make at most two steps each, and there is an end, where the only
    ones left wait for silent peers.  At any such end, with those counted in that ticks and join
    requests have started on the way, an identifier has an entry of a peer that accepted,
    if one could enter (its goroutine was past the test for the peer, or the table had no entry),
    and otherwise the entry or the absence it had.  So a peer that is in the table is kept, except
    that a goroutine which was dialling its identifier replaces it; and every goroutine that
    waited for a silent peer, also one of an earlier tick for the same peer, still waits. *)
Theorem peer_round_exact m gs :
  (∀ n w, nsteps (peerStep answers) n (m, gs) w → (n ≤ 2 * length gs)%nat) ∧
  (∃ w, rtc (peerStep answers) (m, gs) w ∧ settled w) ∧
  (∀ new m' gs', openRun answers new (m, gs) (m', gs') → settled (m', gs') →
     let all := gs ++ pending new in
     (∀ id, entered m all m' id ∨ (∀ a, ¬ candidate m all id a) ∧ peers m' !! id = peers m !! id) ∧
     (∀ g, g ∈ gs' → ∃ id a, g = Dialing id a ∧ answers a = Silent ∧
        (Dialing id a ∈ all ∨ Pending id a ∈ all ∧ peers m !! id = None)) ∧
     filter blocked gs `sublist_of` gs').
Proof.
  split_and!.
  - intros n w Hn. apply work_nsteps in Hn. cbn [snd] in Hn. pose proof (work_length gs). lia.
  - apply settles.
  - intros new m' gs' Hr%openRun_closed Hs all. cbn [fst snd] in Hr. fold all in Hr. apply settled_iff in Hs. pose proof (runInv_run _ _ _ Hr) as [_ Ht _ Hd Ha Ho].
    cbn [fst snd] in *. rewrite Forall_forall in Hs.
    assert (∀ id a, Pending id a ∉ gs') as Hnp by (intros id a Hin; by apply Hs in Hin).
    assert (∀ id a, answers a = Accepts → Dialing id a ∉ gs') as Hnd.
    { intros id a Hacc Hin. apply Hs in Hin. simpl in Hin. congruence. }
    assert (∀ id a, candidate m all id a → entered m all m' id) as Hc.
    { intros id a [Hacc [Hg|[Hg E0]]].
      - destruct (Ha id a Hg Hacc) as [?%Hnd|?]; done.
      - destruct (Ho id a Hg E0 Hacc) as [?%Hnp|[?%Hnd|?]]; done. }
    split_and!.
    + intros id. destruct (Ht id) as [?|E]; [by left|].
      destruct (decide (Exists (λ g, candidate m all id (g_peer g).2) all)) as [Hex|Hno].
      * apply Exists_exists in Hex as (g & _ & Hg). left. by eapply Hc.
      * right. split; [|done]. intros a Ha'. apply Hno, Exists_exists. pose proof Ha' as [_ [Hg|[Hg _]]]; by eexists.
    + intros [id a|id a] Hin; [by apply Hnp in Hin|]. exists id, a. split_and!; [done|by apply Hs in Hin|by apply Hd].
    + pose proof (blocked_stay _ _ Hr) as Hst. cbn [snd] in Hst.
      etrans; [|etrans; [exact Hst|apply sublist_filter]].
      unfold all. rewrite filter_app. by apply sublist_inserts_r.
Qed.

(** *** Silent peers *)

(** What becomes of a goroutine whose peer is silent. *)
Definition resolve m (g : goroutine) : list goroutine :=
  match g with
  | Pending id a => match peers m !! id with Some _ => [] | None => [Dialing id a] end
  | Dialing id a => [Dialing id a]
  end.

Definition is_silent (g : goroutine) : Prop := answers (g_peer g).2 = Silent.

Lemma silent_run m gs w :
  rtc (peerStep answers) (m, gs) w → Forall is_silent gs →
  w.1 = m ∧ Forall is_silent w.2 ∧ w.2 ≫= resolve m = gs ≫= resolve m.
Proof.
  intros Hr. remember (m, gs) as w0 eqn:E0. intros Hs.
  assert (w0.1 = m ∧ Forall is_silent w0.2 ∧ w0.2 ≫= resolve m = gs ≫= resolve m) as H0 by by subst.
  clear E0 Hs. induction Hr as [|x y z Hxy _ IH]; [done|]. apply IH. destruct H0 as (Hm & Hs & <-).
  destruct Hxy as [m1 id a gs1 gs2 He|m1 id a gs1 gs2 He|m1 id a gs1 gs2 He|m1 id a gs1 gs2 He]; cbn [fst snd] in *;
    subst m1; apply Forall_app in Hs as [Hs1 [Hs Hs2]%Forall_cons]; unfold is_silent in Hs; simpl in Hs; try congruence.
  - split_and!; [done|by apply Forall_app|]. rewrite !bind_app. f_equal. rewrite bind_cons. simpl.
    destruct He as [c ->]. done.
  - split_and!; [done|apply Forall_app; split; [done|by constructor]|].
    rewrite !bind_app. f_equal. rewrite !bind_cons. simpl. by rewrite He.
Qed.

Lemma resolve_blocked m gs : Forall blocked gs → gs ≫= resolve m = gs.
Proof. induction 1 as [|[id a|id a] gs Hg _ IH]; [done|done|]. rewrite bind_cons. simpl. by rewrite IH. Qed.

(** [k] ticks that offer the same peers, each run to its end. *)
Inductive ticks (offered : list (string * string)) :
    nat → Manager * list goroutine → Manager * list goroutine → Prop :=
  | ticks_O w : ticks offered O w w
  | ticks_S k m gs w w' : rtc (peerStep answers) (m, gs ++ pending offered) w → settled w →
      ticks offered k w w' → ticks offered (S k) (m, gs) w'.

(** Every tick leaves one more blocked goroutine for each silent peer that is not in the table:
    nothing ends them, and nothing keeps the next tick from starting another. *)
Theorem silent_peers_accumulate offered k m gs w :
  Forall (λ p, answers p.2 = Silent) offered → Forall blocked gs → ticks offered k (m, gs) w →
  w = (m, gs ++ mjoin (replicate k ((λ p, Dialing p.1 p.2) <$> filter (λ p, peers m !! p.1 = None) offered))).
Proof.
  intros Ho Hb Ht. remember (m, gs) as w0 eqn:E0. revert gs E0 Hb.
  induction Ht as [w|k m1 gs1 w w' Hr Hs Ht IH]; intros gs E0 Hb; subst; [by rewrite app_nil_r|]. simplify_eq.
  assert (Forall is_silent (gs ++ pending offered)) as Hsil.
  { apply Forall_app. split; [|by apply Forall_fmap]. eapply Forall_impl; [exact Hb|]. by intros [id a|id a]. }
  destruct w as [m2 gs2]. destruct (silent_run _ _ _ Hr Hsil) as (Hm & _ & Hg). cbn [fst snd] in *. subst m2.
  apply settled_iff in Hs. rewrite (resolve_blocked m gs2 Hs), bind_app, (resolve_blocked m gs Hb) in Hg.
  rewrite (IH gs2 eq_refl Hs), Hg, <-app_assoc. simpl. do 3 f_equal.
  clear. induction offered as [|p offered IH]; [done|]. rewrite fmap_cons, bind_cons, filter_cons, IH. simpl.
  destruct (peers m !! p.1) eqn:E; by case_decide.
Qed.
End Rounds.

(** The static peers are named after their hosts: of two brokers on one host at most one is
    ever connected, and rounds that follow a round which left no goroutine behind do not connect
    the other. *)
Theorem static_peers_collide answers m' :
  rtc (peerStep answers) (NewManager "n1" "localhost:8081", staticTick "localhost:8082, localhost:8083") (m', []) →
  ∀ id c id' c', peers m' !! id = Some c → peers m' !! id' = Some c' → id = id' ∧ c = c' ∧
    ∀ m'', rtc (peerStep answers) (m', staticTick "localhost:8082, localhost:8083") (m'', []) → peers m'' = peers m'.
Proof.
  intros Hr.
  assert (Hg : ∀ g, g ∈ staticTick "localhost:8082, localhost:8083" → ∃ a, g = Pending "localhost" a).
  { intros g Hin. vm_compute in Hin. repeat (apply elem_of_cons in Hin as [->|Hin]; [by eexists|]). by apply elem_of_nil in Hin. }
  assert (Hrun : ∀ m1 m2, rtc (peerStep answers) (m1, staticTick "localhost:8082, localhost:8083") (m2, []) →
    ∀ id, id ≠ "localhost" ∨ is_Some (peers m1 !! id) → peers m2 !! id = peers m1 !! id).
  { intros m1 m2 H12 id Hor. destruct (ri_table _ _ _ _ (runInv_run answers _ _ _ H12) id) as [(a & [_ Hc] & _)|?]; [|done].
    exfalso. destruct Hc as [(b & E)%Hg|[(b & E)%Hg Hn]]; [done|]. simplify_eq.
    destruct Hor as [?|[c E]]; [done|]. congruence. }
  intros id c id' c' E E'.
  assert (Hhost : ∀ i d, peers m' !! i = Some d → i = "localhost").
  { intros i d Ei. destruct (decide (i = "localhost")) as [|Hne]; [done|].
    rewrite (Hrun _ _ Hr i (or_introl Hne)) in Ei. by vm_compute in Ei. }
  pose proof (Hhost _ _ E). pose proof (Hhost _ _ E'). subst. split_and!; [done|congruence|].
  intros m'' Hr'. apply map_eq. intros i. apply (Hrun _ _ Hr').
  destruct (decide (i = "localhost")) as [->|]; [right; by eexists|by left].
Qed.
