(* ===== verification/Admin.v ===== *)
(** * Admin: the management interface (pkg/admin/admin.go)

    The server works on the broker through an interface, here the class [BrokerInterface]; the
    broker's own implementation is the instance [brokerAdmin].  A handler takes the request,
    the writer and the server's state; it returns, or panics where a slice expression is out
    of range.  Floating point numbers of the records are kept as the text that is written for
    them; [now] is the instant of the request. *)

From S2P Require Import Prelude GoLib GoValue GoJSON GoHTTP TopicMatch Blacklist BrokerState Metrics.
Local Open Scope emqx_scope.
Local Open Scope Z_scope.

(** ** Data *)

Record ConnectionInfo := mkConnectionInfo {
  AC_ClientID : string;
  AC_Username : string;
  AC_PeerHost : string;
  AC_SockPort : Z;
  AC_Protocol : string;
  AC_ConnectedAt : Time;
  AC_DisconnectedAt : option Time;
  AC_KeepAlive : Z;
  AC_CleanStart : bool;
  AC_ExpiryInterval : Z;
  AC_ProtoVer : Z;
  AC_SubscriptionsCount : Z;
  AC_MaxSubscriptions : Z;
  AC_InflightCount : Z;
  AC_MaxInflight : Z;
  AC_MqueueCount : Z;
  AC_MaxMqueue : Z;
  AC_UserProperties : gmap string string;
  AC_Node : string;
}.

Record SessionInfo := mkSessionInfo {
  AS_ClientID : string;
  AS_Username : string;
  AS_CreatedAt : Time;
  AS_ConnectedAt : option Time;
  AS_DisconnectedAt : option Time;
  AS_ExpiryInterval : Z;
  AS_MaxSubscriptions : Z;
  AS_SubscriptionsCount : Z;
  AS_MaxInflight : Z;
  AS_InflightCount : Z;
  AS_MaxMqueue : Z;
  AS_MqueueCount : Z;
  AS_MaxAwaitingRel : Z;
  AS_AwaitingRelCount : Z;
  AS_Node : string;
}.

Record SubscriptionInfo := mkSubscriptionInfo {
  AB_ClientID : string; AB_Topic : string; AB_QoS : Z; AB_Node : string;
}.

Record RouteInfo := mkRouteInfo { AR_Topic : string; AR_Nodes : list string }.

Record SysMonInfo := mkSysMonInfo {
  ProcCount : Z; ProcessLimit : Z; MemoryTotal : Z; MemoryUsed : Z;
  CPUIdle : string; CPULoad1 : string; CPULoad5 : string; CPULoad15 : string;
}.

Record NodeInfo := mkNodeInfo {
  AN_Node : string;
  AN_NodeStatus : string;
  AN_OtpRelease : string;
  AN_Version : string;
  AN_Uptime : Z;
  AN_Datetime : Time;
  AN_SysMon : SysMonInfo;
}.

(** ** The interface of the broker

    [GetBlacklistMiddleware] answers a pointer; [with_blacklist] is the broker after the
    object behind it has changed. *)
Class BrokerInterface (B R : Type) := {
  GetConnections : Time → B → list ConnectionInfo;
  GetSessions : Time → B → list SessionInfo;
  GetSubscriptions : B → list SubscriptionInfo;
  GetRoutes : B → list RouteInfo;
  DisconnectClient : string → B → option string * B;
  KickoutSession : string → B → option string * B;
  GetNodeInfo : Time → B → NodeInfo;
  GetClusterNodes : Time → B → list NodeInfo;
  GetBlacklistMiddleware : B → option (BlacklistMiddleware R);
  with_blacklist : BlacklistMiddleware R → B → B;
}.

Class BrokerInterfaceLaws {B R} `{BrokerInterface B R} := {
  get_with_blacklist b m m' :
    GetBlacklistMiddleware b = Some m → GetBlacklistMiddleware (with_blacklist m' b) = Some m';
  with_blacklist_same b m : GetBlacklistMiddleware b = Some m → with_blacklist m b = b;
}.

(** ** The broker's implementation (pkg/broker/broker.go) *)

Section BrokerAdmin.
Context {S R : Type}.

Definition broker_GetConnections (now : Time) (b : Broker S R) : list ConnectionInfo :=
  [mkConnectionInfo "test-client-1" "test" "127.0.0.1" 1883 "MQTT" (now - Hour) None 60 true 0 4
     1 0 0 0 0 0 ∅ (nodeID b)].
Definition broker_GetSessions (now : Time) (b : Broker S R) : list SessionInfo :=
  [mkSessionInfo "test-client-1" "test" (now - Hour) (Some (now - Hour)) None 3600 0 1 0 0 0 0 0 0
     (nodeID b)].
Definition broker_GetSubscriptions (b : Broker S R) : list SubscriptionInfo :=
  [mkSubscriptionInfo "test-client-1" "test/topic" 1 (nodeID b)].
Definition broker_GetRoutes (b : Broker S R) : list RouteInfo :=
  [mkRouteInfo "test/topic" [nodeID b]].
Definition broker_DisconnectClient (clientID : string) (b : Broker S R)
    : option string * Broker S R := (None, b).
Definition broker_KickoutSession (clientID : string) (b : Broker S R)
    : option string * Broker S R := (None, b).
Definition broker_GetNodeInfo (now : Time) (b : Broker S R) : NodeInfo :=
  let uptime := now - (now - Hour) in
  mkNodeInfo (nodeID b) "running" "Go 1.21" "1.0.0" (uptime / Second) now
    (mkSysMonInfo 100 1000 (1024 * 1024 * 1024) (512 * 1024 * 1024) "85.5" "0.5" "0.7" "0.3").
Definition broker_GetClusterNodes (now : Time) (b : Broker S R) : list NodeInfo :=
  [broker_GetNodeInfo now b].

#[export] Instance brokerAdmin : BrokerInterface (Broker S R) R := {
  GetConnections := broker_GetConnections;
  GetSessions := broker_GetSessions;
  GetSubscriptions := broker_GetSubscriptions;
  GetRoutes := broker_GetRoutes;
  DisconnectClient := broker_DisconnectClient;
  KickoutSession := broker_KickoutSession;
  GetNodeInfo := broker_GetNodeInfo;
  GetClusterNodes := broker_GetClusterNodes;
  GetBlacklistMiddleware b := Some (blacklistMiddleware b);
  with_blacklist := set_blacklist;
}.

#[export] Instance brokerAdmin_laws : BrokerInterfaceLaws (B := Broker S R).
Proof. split; [by intros|]. intros [] m [= <-]. reflexivity. Qed.
End BrokerAdmin.

(** ** JSON *)

Section JSON.
Context `{JSONText} {R : Type}.

(** A pointer to a time with [omitempty]. *)
Definition optTime (name : string) (t : option Time) : result (list (string * json)) :=
  match t with None => Ok [] | Some t => let? j := jsonTime t in Ok [(name, j)] end.

Definition connectionInfoJSON (c : ConnectionInfo) : result json :=
  let? connected := jsonTime (AC_ConnectedAt c) in
  let? disconnected := optTime "disconnected_at" (AC_DisconnectedAt c) in
  Ok (jstruct (
    [("clientid", JString (AC_ClientID c)); ("username", JString (AC_Username c));
     ("peerhost", JString (AC_PeerHost c)); ("sockport", JInt (AC_SockPort c));
     ("protocol", JString (AC_Protocol c)); ("connected_at", connected)] ++ disconnected ++
    [("keepalive", JInt (AC_KeepAlive c)); ("clean_start", JBool (AC_CleanStart c));
     ("expiry_interval", JInt (AC_ExpiryInterval c)); ("proto_ver", JInt (AC_ProtoVer c));
     ("subscriptions_count", JInt (AC_SubscriptionsCount c));
     ("max_subscriptions", JInt (AC_MaxSubscriptions c));
     ("inflight_count", JInt (AC_InflightCount c)); ("max_inflight", JInt (AC_MaxInflight c));
     ("mqueue_count", JInt (AC_MqueueCount c)); ("max_mqueue", JInt (AC_MaxMqueue c))] ++
    (if bool_decide (AC_UserProperties c = ∅) then []
     else [("user_properties", jmap (map_to_list (JString <$> AC_UserProperties c)))]) ++
    [("node", JString (AC_Node c))])).

Definition sessionInfoJSON (s : SessionInfo) : result json :=
  let? created := jsonTime (AS_CreatedAt s) in
  let? connected := optTime "connected_at" (AS_ConnectedAt s) in
  let? disconnected := optTime "disconnected_at" (AS_DisconnectedAt s) in
  Ok (jstruct (
    [("clientid", JString (AS_ClientID s)); ("username", JString (AS_Username s));
     ("created_at", created)] ++ connected ++ disconnected ++
    [("expiry_interval", JInt (AS_ExpiryInterval s));
     ("max_subscriptions", JInt (AS_MaxSubscriptions s));
     ("subscriptions_count", JInt (AS_SubscriptionsCount s));
     ("max_inflight", JInt (AS_MaxInflight s)); ("inflight_count", JInt (AS_InflightCount s));
     ("max_mqueue", JInt (AS_MaxMqueue s)); ("mqueue_count", JInt (AS_MqueueCount s));
     ("max_awaiting_rel", JInt (AS_MaxAwaitingRel s));
     ("awaiting_rel_count", JInt (AS_AwaitingRelCount s)); ("node", JString (AS_Node s))])).

Definition subscriptionInfoJSON (s : SubscriptionInfo) : result json :=
  Ok (jstruct [("clientid", JString (AB_ClientID s)); ("topic", JString (AB_Topic s));
               ("qos", JInt (AB_QoS s)); ("node", JString (AB_Node s))]).
Definition routeInfoJSON (r : RouteInfo) : result json :=
  Ok (jstruct [("topic", JString (AR_Topic r)); ("nodes", JArray (JString <$> AR_Nodes r))]).

Definition nodeInfoJSON (n : NodeInfo) : result json :=
  let? datetime := jsonTime (AN_Datetime n) in
  let m := AN_SysMon n in
  Ok (jstruct [("node", JString (AN_Node n)); ("node_status", JString (AN_NodeStatus n));
    ("otp_release", JString (AN_OtpRelease n)); ("version", JString (AN_Version n));
    ("uptime", JInt (AN_Uptime n)); ("datetime", datetime);
    ("sysMon", jstruct [("procCount", JInt (ProcCount m)); ("processLimit", JInt (ProcessLimit m));
       ("memoryTotal", JInt (MemoryTotal m)); ("memoryUsed", JInt (MemoryUsed m));
       ("cpuIdle", JDecimal (CPUIdle m)); ("cpuLoad1", JDecimal (CPULoad1 m));
       ("cpuLoad5", JDecimal (CPULoad5 m)); ("cpuLoad15", JDecimal (CPULoad15 m))])]).

(** The map that the handlers build of an entry. *)
Definition entryJSON (entry : BlacklistEntry R) : result json :=
  let? created := jsonTime (E_CreatedAt entry) in
  let? updated := jsonTime (E_UpdatedAt entry) in
  let? expires := match E_ExpiresAt entry with None => Ok JNull | Some t => jsonTime t end in
  Ok (jmap [("id", JString (E_ID entry)); ("type", JString (E_Type entry));
    ("value", JString (E_Value entry)); ("pattern", JString (E_Pattern entry));
    ("action", JString (E_Action entry)); ("reason", JString (E_Reason entry));
    ("description", JString (E_Description entry)); ("enabled", JBool (E_Enabled entry));
    ("created_at", created); ("updated_at", updated); ("expires_at", expires);
    ("created_by", JString (E_CreatedBy entry)); ("metadata", mapJSON (E_Metadata entry))]).

Definition clientInfoJSON (c : ClientInfo) : result json :=
  let? connected := jsonTime (CI_ConnectedAt c) in
  Ok (jstruct [("client_id", JString (CI_ClientID c)); ("username", JString (CI_Username c));
    ("ip_address", JString (CI_IPAddress c)); ("protocol", JString (CI_Protocol c));
    ("connected_at", connected)]).
Definition blockJSON (b : BlacklistBlock) : result json :=
  let? timestamp := jsonTime (B_Timestamp b) in
  let? info := clientInfoJSON (B_ClientInfo b) in
  Ok (jstruct [("timestamp", timestamp); ("type", JString (B_Type b)); ("value", JString (B_Value b));
    ("action", JString (B_Action b)); ("entry_id", JString (B_EntryID b)); ("client_info", info);
    ("reason", JString (B_Reason b))]).

(** [GetStats] of the middleware: a copy of the statistics, or, without a manager, the zero
    value, whose maps and slice are nil. *)
Definition blacklistStatsJSON (mw : BlacklistMiddleware R) : result json :=
  let counts (m : gmap string Z) := jmap (map_to_list (JInt <$> m)) in
  match manager mw with
  | None =>
      Ok (jstruct [("total_entries", JInt 0); ("entries_by_type", JNull); ("entries_by_action", JNull);
        ("total_blocks", JInt 0); ("blocks_by_type", JNull); ("recent_blocks", JNull);
        ("last_updated", zeroTimeText)])
  | Some m =>
      let s := stats m in
      let? blocks := resultSeq (blockJSON <$> RecentBlocks s) in
      let? updated := jsonTime (LastUpdated s) in
      Ok (jstruct [("total_entries", JInt (TotalEntries s));
        ("entries_by_type", counts (EntriesByType s)); ("entries_by_action", counts (EntriesByAction s));
        ("total_blocks", JInt (TotalBlocks s)); ("blocks_by_type", counts (BlocksByType s));
        ("recent_blocks", JArray blocks); ("last_updated", updated)])
  end.
End JSON.

(** ** Helpers *)

(** [APIResponse]: message and data are left out when empty and nil. *)
Definition apiResponse (code : Z) (message : string) (data : option json) : json :=
  jstruct ([("code", JInt code)] ++ omitempty "message" message ++
    match data with None => [] | Some j => [("data", j)] end).

Definition writeJSON (w : ResponseWriter) (statusCode : Z) (data : result json) : ResponseWriter :=
  let w := WriteHeader statusCode (Header_Set ContentType "application/json" w) in
  let '(err, w) := Encode data w in
  match err with
  | Some _ => http_Error w "Failed to encode JSON" StatusInternalServerError
  | None => w
  end.

Definition writeSuccess (w : ResponseWriter) (data : result json) : ResponseWriter :=
  writeJSON w StatusOK (let? j := data in Ok (apiResponse 0 "" (Some j))).
Definition writeError (w : ResponseWriter) (statusCode : Z) (message : string) : ResponseWriter :=
  writeJSON w statusCode (Ok (apiResponse statusCode message None)).
Definition methodNotAllowed (w : ResponseWriter) : ResponseWriter :=
  writeError w StatusMethodNotAllowed "Method not allowed".

Definition extractIDFromPath (path prefix : string) : string :=
  if negb (strings.HasPrefix path prefix) then "" else TrimPrefix path prefix.

Definition getPagination (r : Request) : Z * Z :=
  let page :=
    match ParseInt (Query_Get r "page") with
    | Some p => if (Query_Get r "page" <>s "") && (0 <? p) then p else 1
    | None => 1
    end in
  let limit :=
    match ParseInt (Query_Get r "limit") with
    | Some l => if (Query_Get r "limit" <>s "") && (0 <? l) && (l <=? 1000) then l else 20
    | None => 20
    end in
  (page, limit).

(** [l[start:end]]. *)
Definition sliceList {A} (l : list A) (start end_ : Z) : outcome (list A) :=
  if (0 <=? start) && (start <=? end_) && (end_ <=? blen l)
  then Returns (take (Z.to_nat (end_ - start)) (drop (Z.to_nat start) l)) else Panics.

(** The arithmetic on [int] that the listings share: 64 bits, with wrap-around. *)
Definition paginate {A} (l : list A) (page limit : Z) : outcome (list A) :=
  let start := i64 (i64 (page - 1) * limit) in
  let end_ := i64 (start + limit) in
  let start := if blen l <? start then blen l else start in
  let end_ := if blen l <? end_ then blen l else end_ in
  sliceList l start end_.

Definition paginationMeta (page limit count total : Z) : json :=
  jstruct [("page", JInt page); ("limit", JInt limit); ("count", JInt count); ("total", JInt total)].

Definition pageJSON {A} (enc : A → result json) (l : list A) (r : Request) : outcome (result json) :=
  let '(page, limit) := getPagination r in
  let! data := paginate l page limit in
  Returns (let? rows := resultSeq (enc <$> data) in
           Ok (jstruct [("data", JArray rows);
                        ("meta", paginationMeta page limit (blen data) (blen l))])).

(** ** The server *)

Record APIServer (B : Type) := mkAPIServer {
  metricsManager : MetricsManager;
  promCalls : list promCall;
  broker : B;
}.
Arguments mkAPIServer {_} _ _ _.
Arguments metricsManager {_} _.
Arguments promCalls {_} _.
Arguments broker {_} _.

Section Handlers.
Context `{GoFloat} `{JSONText} (formatRFC3339 : Time → string).
Context {B R : Type} `{!BrokerInterface B R} (Compile : string → option R).
Implicit Types (s : APIServer B) (w : ResponseWriter) (r : Request) (now : Time).

Definition NewAPIServer (mm : MetricsManager) (ps : list promCall) (b : B) : APIServer B :=
  mkAPIServer mm ps b.

Definition set_metrics (mm : MetricsManager) s : APIServer B :=
  mkAPIServer mm (promCalls s) (broker s).
Definition set_broker (b : B) s : APIServer B := mkAPIServer (metricsManager s) (promCalls s) b.

Definition handleStats now w r s : ResponseWriter * APIServer B :=
  if R_Method r <>s MethodGet then (methodNotAllowed w, s)
  else
    let '(stats, mm) := GetStatistics formatRFC3339 (metricsManager s) now in
    (writeSuccess w (Ok (statisticsJSON stats)), set_metrics mm s).
Definition handleMetrics now w r s : ResponseWriter * APIServer B :=
  if R_Method r <>s MethodGet then (methodNotAllowed w, s)
  else
    let '(stats, mm) := GetStatistics formatRFC3339 (metricsManager s) now in
    (writeSuccess w (Ok (statisticsJSON stats)), set_metrics mm s).

Definition handleConnections now w r s : outcome (ResponseWriter * APIServer B) :=
  if R_Method r =s MethodGet then
    let! result := pageJSON connectionInfoJSON (GetConnections now (broker s)) r in
    Returns (writeSuccess w result, s)
  else Returns (methodNotAllowed w, s).

(** The first of the elements that satisfies the test. *)
Definition firstWith {A} (test : A → bool) (l : list A) : option A := List.find test l.

Definition handleConnectionByID now w r s : ResponseWriter * APIServer B :=
  let clientID := extractIDFromPath (URL_Path r) "/api/v5/connections/" in
  if clientID =s "" then (writeError w StatusBadRequest "Client ID is required", s)
  else if R_Method r =s MethodGet then
    match firstWith (λ conn, AC_ClientID conn =s clientID) (GetConnections now (broker s)) with
    | Some conn => (writeSuccess w (connectionInfoJSON conn), s)
    | None => (writeError w StatusNotFound "Connection not found", s)
    end
  else if R_Method r =s MethodDelete then
    let '(err, b) := DisconnectClient clientID (broker s) in
    match err with
    | Some e => (writeError w StatusInternalServerError e, set_broker b s)
    | None => (writeSuccess w (Ok (jmap [("result", JString "disconnected")])), set_broker b s)
    end
  else (methodNotAllowed w, s).

Definition handleSessions now w r s : outcome (ResponseWriter * APIServer B) :=
  if R_Method r =s MethodGet then
    let! result := pageJSON sessionInfoJSON (GetSessions now (broker s)) r in
    Returns (writeSuccess w result, s)
  else Returns (methodNotAllowed w, s).

Definition handleSessionByID now w r s : ResponseWriter * APIServer B :=
  let clientID := extractIDFromPath (URL_Path r) "/api/v5/sessions/" in
  if clientID =s "" then (writeError w StatusBadRequest "Client ID is required", s)
  else if R_Method r =s MethodGet then
    match firstWith (λ session, AS_ClientID session =s clientID) (GetSessions now (broker s)) with
    | Some session => (writeSuccess w (sessionInfoJSON session), s)
    | None => (writeError w StatusNotFound "Session not found", s)
    end
  else if R_Method r =s MethodDelete then
    let '(err, b) := KickoutSession clientID (broker s) in
    match err with
    | Some e => (writeError w StatusInternalServerError e, set_broker b s)
    | None => (writeSuccess w (Ok (jmap [("result", JString "kicked out")])), set_broker b s)
    end
  else (methodNotAllowed w, s).

Definition handleSubscriptions w r s : outcome (ResponseWriter * APIServer B) :=
  if R_Method r <>s MethodGet then Returns (methodNotAllowed w, s)
  else
    let! result := pageJSON subscriptionInfoJSON (GetSubscriptions (broker s)) r in
    Returns (writeSuccess w result, s).

(** Without a subscription the slice is nil and written as [null]. *)
Definition handleSubscriptionByID w r s : ResponseWriter * APIServer B :=
  let clientID := extractIDFromPath (URL_Path r) "/api/v5/subscriptions/" in
  if clientID =s "" then (writeError w StatusBadRequest "Client ID is required", s)
  else if R_Method r <>s MethodGet then (methodNotAllowed w, s)
  else
    let clientSubs := List.filter (λ sub, AB_ClientID sub =s clientID) (GetSubscriptions (broker s)) in
    (writeSuccess w (let? rows := resultSeq (subscriptionInfoJSON <$> clientSubs) in
                     Ok (match rows with [] => JNull | _ => JArray rows end)), s).

Definition handleRoutes w r s : outcome (ResponseWriter * APIServer B) :=
  if R_Method r <>s MethodGet then Returns (methodNotAllowed w, s)
  else
    let! result := pageJSON routeInfoJSON (GetRoutes (broker s)) r in
    Returns (writeSuccess w result, s).

Definition handleRouteByTopic w r s : ResponseWriter * APIServer B :=
  let topic := extractIDFromPath (URL_Path r) "/api/v5/routes/" in
  if topic =s "" then (writeError w StatusBadRequest "Topic is required", s)
  else if R_Method r <>s MethodGet then (methodNotAllowed w, s)
  else
    match firstWith (λ route, AR_Topic route =s topic) (GetRoutes (broker s)) with
    | Some route => (writeSuccess w (routeInfoJSON route), s)
    | None => (writeError w StatusNotFound "Route not found", s)
    end.

Definition handleNodes now w r s : ResponseWriter * APIServer B :=
  if R_Method r <>s MethodGet then (methodNotAllowed w, s)
  else
    (writeSuccess w (let? nodes := resultSeq (nodeInfoJSON <$> GetClusterNodes now (broker s)) in
                     Ok (JArray nodes)), s).

Definition handleNodeByID now w r s : ResponseWriter * APIServer B :=
  let node := extractIDFromPath (URL_Path r) "/api/v5/nodes/" in
  if node =s "" then (writeError w StatusBadRequest "Node ID is required", s)
  else if R_Method r <>s MethodGet then (methodNotAllowed w, s)
  else
    match firstWith (λ n, AN_Node n =s node) (GetClusterNodes now (broker s)) with
    | Some n => (writeSuccess w (nodeInfoJSON n), s)
    | None => (writeError w StatusNotFound "Node not found", s)
    end.

Definition handleStatus now w r s : ResponseWriter * APIServer B :=
  if R_Method r <>s MethodGet then (methodNotAllowed w, s)
  else
    let '(st, mm) := GetStatistics formatRFC3339 (metricsManager s) now in
    (writeSuccess w
       (let? node := nodeInfoJSON (GetNodeInfo now (broker s)) in
        Ok (jmap [("node", node);
          ("connections", jstruct [("count", JInt (Connections_Count st)); ("max", JInt (Connections_Max st))]);
          ("sessions", jstruct [("count", JInt (Sessions_Count st)); ("max", JInt (Sessions_Max st));
             ("persistent", JInt (Sessions_Persistent st)); ("transient", JInt (Sessions_Transient st))]);
          ("subscriptions", jstruct [("count", JInt (Subscriptions_Count st));
             ("max", JInt (Subscriptions_Max st)); ("shared", JInt (Subscriptions_Shared st))])])),
     set_metrics mm s).

Definition handleHealth now w r s : ResponseWriter * APIServer B :=
  if R_Method r <>s MethodGet then (methodNotAllowed w, s)
  else
    (writeSuccess w (Ok (jmap [("status", JString "ok"); ("time", JString (formatRFC3339 now))])), s).

Definition handlePrometheusStats now w r s : ResponseWriter * APIServer B :=
  if R_Method r <>s MethodGet then (methodNotAllowed w, s)
  else
    let '(mm, ps) := UpdatePrometheusMetrics formatRFC3339 (metricsManager s) (promCalls s) now in
    let '(stats, mm) := GetStatistics formatRFC3339 mm now in
    (writeSuccess w (Ok (statisticsJSON stats)), mkAPIServer mm ps (broker s)).

(** *** The blacklist *)

Definition errorText (e : BlacklistError) : string :=
  match e with
  | ErrEntryNotFound => "blacklist entry not found"
  | ErrEntryAlreadyExists => "blacklist entry already exists"
  | ErrInvalidPattern => "invalid regex pattern"
  | ErrInvalidType => "invalid blacklist type"
  | ErrInvalidAction => "invalid blacklist action"
  | ErrIDRequired => "entry ID is required"
  | ErrValueRequired => "either value or pattern is required"
  end.

(** A handler on the middleware's manager; a nil manager is dereferenced. *)
Definition withManager w s (k : BlacklistManager R → ResponseWriter * BlacklistManager R)
    : outcome (ResponseWriter * APIServer B) :=
  match GetBlacklistMiddleware (broker s) with
  | None => Returns (writeError w StatusInternalServerError "Blacklist middleware not available", s)
  | Some mw =>
      match manager mw with
      | None => Panics
      | Some m =>
          let '(w, m) := k m in
          Returns (w, set_broker (with_blacklist (mkBlacklistMiddleware (Some m) (mw_config mw)) (broker s)) s)
      end
  end.

Definition enabledFilter (enabledStr : string) : option bool :=
  if enabledStr =s "true" then Some true
  else if enabledStr =s "false" then Some false else None.

Definition handleBlacklistList now w r s : outcome (ResponseWriter * APIServer B) :=
  withManager w s (λ m,
    let found := ListEntries m (Query_Get r "type") (enabledFilter (Query_Get r "enabled")) now in
    (writeSuccess w (let? rows := resultSeq (entryJSON <$> found) in Ok (JArray rows)), m)).

(** The body of a POST. *)
Record createRequest := mkCreateRequest {
  Q_Type : string; Q_Value : string; Q_Pattern : string; Q_Action : string; Q_Reason : string;
  Q_Description : string; Q_Enabled : bool; Q_ExpiresAt : option Time; Q_CreatedBy : string;
  Q_Metadata : option (gmap string json);
}.
Definition decCreate (j : json) : option createRequest :=
  l ← fieldsOf j;
  type ← field decString "" "type" l;
  value ← field decString "" "value" l;
  pattern ← field decString "" "pattern" l;
  action ← field decString "" "action" l;
  reason ← field decString "" "reason" l;
  description ← field decString "" "description" l;
  enabled ← field decBool false "enabled" l;
  expires ← field (decPtr decTime 0) None "expires_at" l;
  by_ ← field decString "" "created_by" l;
  metadata ← field decMap None "metadata" l;
  Some (mkCreateRequest type value pattern action reason description enabled expires by_ metadata).

Definition createdEntry (q : createRequest) now : BlacklistEntry R :=
  mkBlacklistEntry (Q_Type q +:+ "_" +:+ pretty now)%string (Q_Type q) (Q_Value q) (Q_Pattern q)
    (Q_Action q) (Q_Reason q) (Q_Description q) 0 0 (Q_ExpiresAt q) (Q_Enabled q) (Q_CreatedBy q)
    (Q_Metadata q) None.

(** [AddEntry] stamps and compiles the entry in place, and this is the one that is shown. *)
Definition handleBlacklistCreate now w r s : outcome (ResponseWriter * APIServer B) :=
  withManager w s (λ m,
    match R_Body r ≫= decCreate with
    | None => (writeError w StatusBadRequest "Invalid JSON format", m)
    | Some q =>
        if Q_Type q =s "" then (writeError w StatusBadRequest "Type is required", m)
        else if (Q_Value q =s "") && (Q_Pattern q =s "")
        then (writeError w StatusBadRequest "Either value or pattern is required", m)
        else if Q_Action q =s "" then (writeError w StatusBadRequest "Action is required", m)
        else
          let entry := createdEntry q now in
          match AddEntry Compile m entry now with
          | (Some e, m) =>
              (writeError w StatusBadRequest ("Failed to add blacklist entry: " +:+ errorText e)%string, m)
          | (None, m) =>
              (writeJSON w StatusCreated
                 (let? j := entryJSON (stamped now None entry) in Ok (apiResponse 0 "" (Some j))), m)
          end
    end).

Definition handleBlacklist now w r s : outcome (ResponseWriter * APIServer B) :=
  if R_Method r =s MethodGet then handleBlacklistList now w r s
  else if R_Method r =s MethodPost then handleBlacklistCreate now w r s
  else Returns (methodNotAllowed w, s).

Definition handleBlacklistGetByID w (entryID : string) s : outcome (ResponseWriter * APIServer B) :=
  withManager w s (λ m,
    match GetEntry m entryID with
    | inr _ => (writeError w StatusNotFound "Blacklist entry not found", m)
    | inl entry => (writeSuccess w (entryJSON entry), m)
    end).

(** The body of a PUT. *)
Record updateRequest := mkUpdateRequest {
  P_Value : string; P_Pattern : string; P_Action : string; P_Reason : string; P_Description : string;
  P_Enabled : option bool; P_ExpiresAt : option Time; P_Metadata : option (gmap string json);
}.
Definition decUpdate (j : json) : option updateRequest :=
  l ← fieldsOf j;
  value ← field decString "" "value" l;
  pattern ← field decString "" "pattern" l;
  action ← field decString "" "action" l;
  reason ← field decString "" "reason" l;
  description ← field decString "" "description" l;
  enabled ← field (decPtr decBool false) None "enabled" l;
  expires ← field (decPtr decTime 0) None "expires_at" l;
  metadata ← field decMap None "metadata" l;
  Some (mkUpdateRequest value pattern action reason description enabled expires metadata).

Definition editedEntry (e : BlacklistEntry R) (q : updateRequest) : BlacklistEntry R :=
  let pick new old := if new <>s "" then new else old in
  mkBlacklistEntry (E_ID e) (E_Type e) (pick (P_Value q) (E_Value e)) (pick (P_Pattern q) (E_Pattern e))
    (pick (P_Action q) (E_Action e)) (pick (P_Reason q) (E_Reason e))
    (pick (P_Description q) (E_Description e)) (E_CreatedAt e) (E_UpdatedAt e)
    (match P_ExpiresAt q with Some t => Some t | None => E_ExpiresAt e end)
    (default (E_Enabled e) (P_Enabled q)) (E_CreatedBy e)
    (match P_Metadata q with Some m => Some m | None => E_Metadata e end) (compiledPattern e).

(** The answer shows the edited copy, not what the manager has stored. *)
Definition handleBlacklistUpdate now w r (entryID : string) s : outcome (ResponseWriter * APIServer B) :=
  withManager w s (λ m,
    match R_Body r ≫= decUpdate with
    | None => (writeError w StatusBadRequest "Invalid JSON format", m)
    | Some q =>
        match GetEntry m entryID with
        | inr _ => (writeError w StatusNotFound "Blacklist entry not found", m)
        | inl existingEntry =>
            let updated := editedEntry existingEntry q in
            match UpdateEntry Compile m entryID updated now with
            | (Some e, m) =>
                (writeError w StatusBadRequest
                   ("Failed to update blacklist entry: " +:+ errorText e)%string, m)
            | (None, m) => (writeSuccess w (entryJSON updated), m)
            end
        end
    end).

Definition handleBlacklistDelete now w (entryID : string) s : outcome (ResponseWriter * APIServer B) :=
  withManager w s (λ m,
    match RemoveEntry m entryID now with
    | (Some e, m) =>
        if errorText e =s "blacklist entry not found"
        then (writeError w StatusNotFound "Blacklist entry not found", m)
        else (writeError w StatusInternalServerError
                ("Failed to delete blacklist entry: " +:+ errorText e)%string, m)
    | (None, m) => (WriteHeader StatusNoContent w, m)
    end).

(** Of the path below the collection only the first segment counts. *)
Definition handleBlacklistByID now w r s : outcome (ResponseWriter * APIServer B) :=
  let path := TrimPrefix (URL_Path r) "/api/v5/blacklist/" in
  let entryID := default "" (head (strings.Split path slash)) in
  if entryID =s "" then Returns (writeError w StatusBadRequest "Blacklist entry ID is required", s)
  else if R_Method r =s MethodGet then handleBlacklistGetByID w entryID s
  else if R_Method r =s MethodPut then handleBlacklistUpdate now w r entryID s
  else if R_Method r =s MethodDelete then handleBlacklistDelete now w entryID s
  else Returns (methodNotAllowed w, s).

Definition handleBlacklistStats w r s : ResponseWriter * APIServer B :=
  if R_Method r <>s MethodGet then (methodNotAllowed w, s)
  else
    match GetBlacklistMiddleware (broker s) with
    | None => (writeError w StatusInternalServerError "Blacklist middleware not available", s)
    | Some mw => (writeSuccess w (blacklistStatsJSON mw), s)
    end.

(** *** Routes *)

Inductive adminRoute :=
  | AStats | AMetrics | AConnections | AConnectionByID | ASessions | ASessionByID
  | ASubscriptions | ASubscriptionByID | ARoutes | ARouteByTopic | ANodes | ANodeByID
  | ABlacklist | ABlacklistByID | ABlacklistStats | AStatus | AHealth | APrometheus.

Definition adminRoutes : list (string * adminRoute) :=
  [("/api/v5/stats", AStats); ("/api/v5/metrics", AMetrics);
   ("/api/v5/connections", AConnections); ("/api/v5/connections/", AConnectionByID);
   ("/api/v5/sessions", ASessions); ("/api/v5/sessions/", ASessionByID);
   ("/api/v5/subscriptions", ASubscriptions); ("/api/v5/subscriptions/", ASubscriptionByID);
   ("/api/v5/routes", ARoutes); ("/api/v5/routes/", ARouteByTopic);
   ("/api/v5/nodes", ANodes); ("/api/v5/nodes/", ANodeByID);
   ("/api/v5/blacklist", ABlacklist); ("/api/v5/blacklist/", ABlacklistByID);
   ("/api/v5/blacklist/stats", ABlacklistStats); ("/api/v5/status", AStatus); ("/health", AHealth);
   ("/api/v5/prometheus/stats", APrometheus)].

Definition RegisterRoutes (mux : list (string * adminRoute)) : outcome (list (string * adminRoute)) :=
  mux_register mux adminRoutes.

Definition handle (route : adminRoute) now w r s : outcome (ResponseWriter * APIServer B) :=
  match route with
  | AStats => Returns (handleStats now w r s)
  | AMetrics => Returns (handleMetrics now w r s)
  | AConnections => handleConnections now w r s
  | AConnectionByID => Returns (handleConnectionByID now w r s)
  | ASessions => handleSessions now w r s
  | ASessionByID => Returns (handleSessionByID now w r s)
  | ASubscriptions => handleSubscriptions w r s
  | ASubscriptionByID => Returns (handleSubscriptionByID w r s)
  | ARoutes => handleRoutes w r s
  | ARouteByTopic => Returns (handleRouteByTopic w r s)
  | ANodes => Returns (handleNodes now w r s)
  | ANodeByID => Returns (handleNodeByID now w r s)
  | ABlacklist => handleBlacklist now w r s
  | ABlacklistByID => handleBlacklistByID now w r s
  | ABlacklistStats => Returns (handleBlacklistStats w r s)
  | AStatus => Returns (handleStatus now w r s)
  | AHealth => Returns (handleHealth now w r s)
  | APrometheus => Returns (handlePrometheusStats now w r s)
  end.

(** [Serve]: the routes on a mux of their own, which answers other paths itself. *)
Definition serve now r s : outcome (ResponseWriter * APIServer B) :=
  let! mux := RegisterRoutes [] in
  match mux_match mux (URL_Path r) with
  | Some (_, route) => handle route now newWriter r s
  | None => Returns (http_NotFound newWriter, s)
  end.
End Handlers.
