(* ===== verification/AdminProps.v ===== *)
(** * AdminProps: what the management interface guarantees

    Pagination: the pages partition a listing as long as the arithmetic stays within 64 bits,
    and what happens beyond ([pages_partition], [pagination_overflow]); the effects of requests
    on the broker ([serve_safe]); the blacklist behind HTTP: a created entry is shown as
    created and enforced ([created_entry_enforced]), a refused update is not without effect
    ([refused_update_unblocks]). *)

From S2P Require Import Prelude GoLib GoValue GoJSON GoHTTP TopicMatch Blacklist BrokerState Metrics RuleSQL Admin.
Local Open Scope emqx_scope.
Local Open Scope Z_scope.

(** ** Pagination *)

Section Pages.
Context {A : Type}.
Implicit Types l : list A.

(** The page by its wrapped first index. *)
Lemma paginate_exact l page limit :
  0 < page < 2 ^ 63 → 0 < limit ≤ 1000 → blen l < 2 ^ 63 →
  let start := i64 ((page - 1) * limit) in
  paginate l page limit =
    if (0 <=? start) && (start + limit <? 2 ^ 63)
    then Returns (take (Z.to_nat limit) (drop (Z.to_nat start) l)) else Panics.
Proof.
  intros Hp Hl Hb start. unfold paginate. rewrite (i64_id (page - 1)) by lia. fold start.
  pose proof (i64_range ((page - 1) * limit)) as Hs. fold start in Hs. unfold blen in *.
  destruct (Z.leb_spec 0 start) as [H0|H0]; simpl.
  2: { unfold sliceList. rewrite (proj2 (Z.ltb_ge _ start)) by lia.
       rewrite (proj2 (Z.leb_gt 0 start)) by lia. done. }
  destruct (Z.ltb_spec (start + limit) (2 ^ 63)) as [H1|H1].
  - rewrite i64_id by lia. unfold sliceList, blen.
    destruct (Z.ltb_spec (Z.of_nat (length l)) start) as [Hc|Hc].
    + rewrite (proj2 (Z.ltb_lt _ (start + limit))) by lia.
      rewrite !(proj2 (Z.leb_le _ _)) by lia. simpl.
      rewrite !drop_ge by lia. by rewrite !take_nil.
    + rewrite (proj2 (Z.leb_le 0 start)) by lia.
      destruct (Z.ltb_spec (Z.of_nat (length l)) (start + limit)) as [Hd|Hd];
        rewrite !(proj2 (Z.leb_le _ _)) by lia; simpl; f_equal.
      * rewrite !take_ge; [done|rewrite length_drop; lia..].
      * f_equal. lia.
  - assert (i64 (start + limit) < 0) as Hneg.
    { unfold i64. replace (start + limit + 2 ^ 63) with (start + limit - 2 ^ 63 + 1 * 2 ^ 64) by lia.
      rewrite Z.mod_add, Z.mod_small by lia. lia. }
    unfold sliceList. rewrite (proj2 (Z.ltb_ge _ (i64 _))) by lia.
    match goal with |- context [?a <=? i64 _] => replace (a <=? i64 (start + limit)) with false end.
    + by rewrite andb_false_r.
    + symmetry. apply Z.leb_gt. case_match; lia.
Qed.

Lemma paginate_in_range l page limit :
  0 < page → 0 < limit ≤ 1000 → page * limit < 2 ^ 63 → blen l < 2 ^ 63 →
  paginate l page limit = Returns (take (Z.to_nat limit) (drop (Z.to_nat ((page - 1) * limit)) l)).
Proof.
  intros Hp Hl Ho Hb. assert (page < 2 ^ 63) by nia.
  rewrite paginate_exact by lia. rewrite i64_id by nia.
  rewrite (proj2 (Z.leb_le _ _)) by nia. by rewrite (proj2 (Z.ltb_lt _ _)) by nia.
Qed.

(** The page of a number, within the limit. *)
Definition is_page (l : list A) (limit : Z) (k : nat) (page : list A) : Prop :=
  paginate l (Z.of_nat k) limit = Returns page ∧ blen page ≤ limit.

(** C33. The pages of a listing partition it: with any permitted limit, as long as the last
    index fits into 64 bits, the pages 1 to n are all produced, none has more elements than the
    limit, and concatenated they are the first n*limit elements of the list - the whole list,
    in order and without repetition, once n*limit reaches its length. *)
Theorem pages_partition l limit n :
  0 < limit ≤ 1000 → Z.of_nat n * limit < 2 ^ 63 → blen l < 2 ^ 63 →
  ∃ pages,
    Forall2 (is_page l limit) (seq 1 n) pages ∧
    concat pages = take (n * Z.to_nat limit) l.
Proof.
  intros Hl. induction n as [|n IH]; intros Hn Hb.
  - exists []. split; [constructor|]. by rewrite take_0.
  - destruct IH as (pages & Hf & Hc); [lia|done|].
    exists (pages ++ [take (Z.to_nat limit) (drop (n * Z.to_nat limit) l)]). split.
    + rewrite seq_S. apply Forall2_app; [done|]. constructor; [|constructor].
      unfold is_page. rewrite paginate_in_range by lia. split.
      * do 3 f_equal. lia.
      * unfold blen. rewrite length_take. lia.
    + rewrite concat_app, Hc. simpl. rewrite app_nil_r.
      rewrite <-(take_drop (n * Z.to_nat limit) (take (Z.to_nat limit + n * Z.to_nat limit) l)).
      rewrite take_take, Nat.min_l by lia. f_equal.
      rewrite <-(Nat.add_comm (n * Z.to_nat limit)).
      by rewrite take_drop_commute.
Qed.

(** Pagination beyond 64 bits: for a page number that is a positive [int], the listing
    panics exactly when the wrapped index of its first element is negative or the one behind
    its last element overflows; otherwise it answers the page that starts at the wrapped
    index - under the number that was asked for, and whatever stands at that index: page
    2^62 + 1 of limit 4 is page 1. *)
Theorem pagination_overflow l page limit :
  0 < page < 2 ^ 63 → 0 < limit ≤ 1000 → blen l < 2 ^ 63 →
  let start := i64 ((page - 1) * limit) in
  (paginate l page limit = Panics ↔ start < 0 ∨ 2 ^ 63 ≤ start + limit) ∧
  (∀ data, paginate l page limit = Returns data →
     data = take (Z.to_nat limit) (drop (Z.to_nat start) l)) ∧
  paginate l (2 ^ 62 + 1) 4 = paginate l 1 4 ∧ paginate l (2 ^ 59 + 1) 20 = Panics.
Proof.
  intros Hp Hl Hb start. rewrite paginate_exact by done. fold start. split_and!.
  - destruct (Z.leb_spec 0 start), (Z.ltb_spec (start + limit) (2 ^ 63)); simpl; split;
      (done || lia || (intros; lia)).
  - intros data. by destruct ((0 <=? start) && (start + limit <? 2 ^ 63)); [intros [= <-]|].
  - rewrite !paginate_exact by lia. done.
  - rewrite paginate_exact by lia. done.
Qed.
End Pages.

Lemma pages_partition_witness :
  ∃ pages, concat pages = [1; 2; 3; 4; 5] ∧ length pages = 3%nat.
Proof.
  destruct (pages_partition [1; 2; 3; 4; 5] 2 3) as (pages & Hf & Hc); [lia|lia|reflexivity|].
  exists pages. split; [exact Hc|]. apply Forall2_length in Hf. rewrite <-Hf. reflexivity.
Defined.

Lemma pagination_overflow_witness : paginate [1; 2; 3] (2 ^ 59 + 1) 20 = Panics.
Proof. apply (pagination_overflow [1; 2; 3] 1 1); [lia|lia|reflexivity]. Defined.

(** ** Responses *)

Lemma status_sent_http_Error w msg code st : status w = Some st → status (http_Error w msg code) = Some st.
Proof.
  intros Hs. unfold http_Error. rewrite status_Write.
  by rewrite (WriteHeader_sent (WriteHeader _ _) _ st); rewrite (WriteHeader_sent _ _ st).
Qed.

Lemma status_Encode data w st : status w = Some st → status (Encode data w).2 = Some st.
Proof.
  intros Hs. unfold Encode. destruct data; [|done].
  pose proof (status_Write w (CJson a)) as Hw. destruct (Write (CJson a) w) as [ok w'].
  simpl in *. by rewrite Hw, (WriteHeader_sent _ _ st).
Qed.

Lemma status_writeJSON w code data : unsent w → status (writeJSON w code data) = Some code.
Proof.
  intros Hw. unfold writeJSON.
  match goal with |- context [Encode data ?x] => pose proof (status_Encode data x code) as He end.
  destruct (Encode _ _) as [err w']. simpl in He.
  assert (status w' = Some code) as Hs by (apply He, status_WriteHeader; eauto with emqx).
  destruct err; [by apply status_sent_http_Error|done].
Qed.

Section Serve.
Context `{GoFloat} `{JSONText} (formatRFC3339 : Time → string).
Context {B R : Type} `{!BrokerInterface B R} {laws : BrokerInterfaceLaws (B := B) (R := R)}
  (Compile : string → option R).
Implicit Types (s : APIServer B) (w : ResponseWriter) (r : Request) (now : Time).

Lemma AddEntry_error m (e : BlacklistEntry R) now err m' :
  AddEntry Compile m e now = (Some err, m') → m' = m.
Proof. unfold AddEntry. intros. repeat case_match; by simplify_eq/=. Qed.
Lemma RemoveEntry_error (m : BlacklistManager R) id now err m' :
  RemoveEntry m id now = (Some err, m') → m' = m ∧ err = ErrEntryNotFound.
Proof. unfold RemoveEntry. intros. repeat case_match; by simplify_eq/=. Qed.

(** A nil middleware is an error; otherwise the handler runs on the manager. *)
Lemma withManager_inv w s k w' s' :
  withManager w s k = Returns (w', s') →
  (w' = writeError w StatusInternalServerError "Blacklist middleware not available" ∧ s' = s) ∨
  ∃ m m', k m = (w', m') ∧ (m' = m → broker s' = broker s).
Proof using laws.
  unfold withManager. destruct (GetBlacklistMiddleware (broker s)) as [mw|] eqn:Eg.
  2: intros [= <- <-]; by left.
  destruct (manager mw) as [m|] eqn:Em; [|done].
  destruct (k m) as [w0 m0] eqn:Ek. intros [= <- <-]. right. exists m, m0. split; [done|].
  intros ->. simpl. rewrite <-Em. destruct mw as [mg cfg]. simpl. by apply with_blacklist_same.
Qed.

(** The codes that the handlers use, and the effect that each permits. *)
Definition adminCodes : list Z := [200; 201; 204; 400; 404; 405; 500].
Ltac code_listed := refine (bool_decide_eq_true_1 _ _); reflexivity.
Definition well_answered r s (o : ResponseWriter * APIServer B) : Prop :=
  ∃ st, status o.1 = Some st ∧ st ∈ adminCodes ∧
    (R_Method r = MethodGet → broker o.2 = broker s) ∧
    (R_Method r ≠ MethodPut → 400 ≤ st < 500 → broker o.2 = broker s).

Lemma answered r s w code data s' :
  unsent w → code ∈ adminCodes →
  (R_Method r = MethodGet → broker s' = broker s) →
  (R_Method r ≠ MethodPut → 400 ≤ code < 500 → broker s' = broker s) →
  well_answered r s (writeJSON w code data, s').
Proof. intros Hw Hc Hg He. exists code. split; [by apply status_writeJSON|done]. Qed.

Lemma answered_same r s w code data :
  unsent w → code ∈ adminCodes → well_answered r s (writeJSON w code data, s).
Proof. intros. by apply answered. Qed.

Lemma answered_success r s w data s' :
  unsent w → (R_Method r = MethodGet → broker s' = broker s) →
  well_answered r s (writeSuccess w data, s').
Proof. intros Hw Hg. apply answered; [done|code_listed|done|]. intros _ [Hc _]. by destruct Hc. Qed.

Lemma answered_error r s w code msg :
  unsent w → code ∈ [400; 404; 405; 500] → well_answered r s (writeError w code msg, s).
Proof.
  intros Hw Hc. apply answered_same; [done|]. unfold adminCodes. by do 3 right.
Qed.

(** The listings. *)
Lemma answered_page {A} (enc : A → result json) l r s o w :
  unsent w →
  (let! result := pageJSON enc l r in Returns (writeSuccess w result, s)) = Returns o →
  well_answered r s o.
Proof. intros Hw. destruct (pageJSON enc l r); simpl; [|done..]. intros [= <-]. by apply answered_success. Qed.

Ltac answer :=
  lazymatch goal with
  | |- well_answered _ _ (writeSuccess _ _, _) => apply answered_success; [done|intros; first [reflexivity|bool_prop; congruence]]
  | |- well_answered _ _ (writeError _ _ _, _) => apply answered_error; [done|code_listed]
  | |- well_answered _ _ (methodNotAllowed _, _) => apply answered_error; [done|code_listed]
  end.

(** The handlers that work on the blacklist. *)
Lemma answered_manager r s w k o :
  unsent w →
  (∀ m w' m', k m = (w', m') → ∃ st, status w' = Some st ∧ st ∈ adminCodes ∧
     (R_Method r = MethodGet → m' = m) ∧ (R_Method r ≠ MethodPut → 400 ≤ st < 500 → m' = m)) →
  withManager w s k = Returns o → well_answered r s o.
Proof using laws.
  intros Hw Hk Ho. destruct o as [w' s'].
  apply withManager_inv in Ho as [[-> ->]|(m & m' & Hm & Hsame)]; [answer|].
  destruct (Hk _ _ _ Hm) as (st & Hs & Hc & Hg & He). exists st. split_and!; auto.
Qed.

Ltac manager_answer :=
  eexists; split; [apply status_writeJSON; done|];
  split; [code_listed|split; intros; first [reflexivity|discriminate|congruence]].

Lemma answered_create now w r s o :
  unsent w → R_Method r = MethodPost →
  handleBlacklistCreate Compile now w r s = Returns o → well_answered r s o.
Proof using laws.
  intros Hw Hr. apply answered_manager; [done|]. intros m w' m'. rewrite Hr.
  destruct (R_Body r ≫= decCreate) as [q|]; [|intros [= <- <-]; manager_answer].
  repeat (match goal with |- context [if ?b then _ else _] => destruct b end;
          [intros [= <- <-]; manager_answer|]).
  cbv zeta. destruct (AddEntry Compile _ _ _) as [[e|] m0] eqn:Ea; intros [= <- <-].
  - apply AddEntry_error in Ea as ->. manager_answer.
  - exists 201. split; [by apply status_writeJSON|]. split; [code_listed|]. split; [done|]. lia.
Qed.

Lemma answered_update now w r id s o :
  unsent w → R_Method r = MethodPut →
  handleBlacklistUpdate Compile now w r id s = Returns o → well_answered r s o.
Proof using laws.
  intros Hw Hr. apply answered_manager; [done|]. intros m w' m'. rewrite Hr.
  destruct (R_Body r ≫= decUpdate) as [q|]; [|intros [= <- <-]; manager_answer].
  destruct (GetEntry m id); [|intros [= <- <-]; manager_answer].
  cbv zeta. destruct (UpdateEntry Compile _ _ _ _) as [[err|] m0]; intros [= <- <-]; manager_answer.
Qed.

Lemma answered_delete now w r id s o :
  unsent w → R_Method r = MethodDelete →
  handleBlacklistDelete now w id s = Returns o → well_answered r s o.
Proof using laws.
  intros Hw Hr. apply answered_manager; [done|]. intros m w' m'. rewrite Hr.
  destruct (RemoveEntry m id now) as [[e|] m0] eqn:Er.
  - apply RemoveEntry_error in Er as [-> ->]. intros [= <- <-]. manager_answer.
  - intros [= <- <-]. exists 204. split; [by apply status_WriteHeader|]. split; [code_listed|].
    split; [done|]. lia.
Qed.

Lemma answered_blacklist now w r s o :
  unsent w →
  handleBlacklist Compile now w r s = Returns o ∨ handleBlacklistByID Compile now w r s = Returns o →
  well_answered r s o.
Proof using laws.
  intros Hw [Ho|Ho]; revert Ho; unfold handleBlacklist, handleBlacklistByID.
  - destruct (R_Method r =s MethodGet) eqn:E1; bool_prop.
    { apply answered_manager; [done|]. intros m w' m' [= <- <-]. manager_answer. }
    destruct (R_Method r =s MethodPost) eqn:E2; bool_prop; [by apply answered_create|].
    intros [= <-]. answer.
  - destruct (default "" _ =s ""); [intros [= <-]; answer|].
    destruct (R_Method r =s MethodGet) eqn:E1; bool_prop.
    { apply answered_manager; [done|]. intros m w' m'.
      destruct (GetEntry m _); intros [= <- <-]; manager_answer. }
    destruct (R_Method r =s MethodPut) eqn:E2; bool_prop; [by apply answered_update|].
    destruct (R_Method r =s MethodDelete) eqn:E3; bool_prop; [by apply answered_delete|].
    intros [= <-]. answer.
Qed.

Ltac by_cases :=
  repeat match goal with
  | |- well_answered _ _ (if ?b then _ else _) => destruct b eqn:?
  | |- well_answered _ _ (match ?x with _ => _ end) => destruct x eqn:?
  end; try answer.

(** Requests to the management interface: every request that is answered is answered with
    one of seven status codes; a GET does not change the broker; and neither does a request
    that is refused with a 4xx status, PUT excepted. *)
Theorem serve_safe now r s o :
  serve formatRFC3339 Compile now r s = Returns o → well_answered r s o.
Proof using laws.
  unfold serve. change (RegisterRoutes []) with (Returns adminRoutes). cbn [outcome_bind].
  destruct (mux_match adminRoutes (URL_Path r)) as [[pattern route]|].
  2: { intros [= <-]. exists 404. split; [reflexivity|]. split; [code_listed|done]. }
  generalize newWriter, unsent_newWriter. intros w Hw. destruct route; cbn [handle].
  all: try (intros [= <-]).
  all: unfold handleStats, handleMetrics, handleConnectionByID, handleSessionByID,
    handleSubscriptionByID, handleRouteByTopic, handleNodes, handleNodeByID, handleBlacklistStats,
    handleStatus, handleHealth, handlePrometheusStats; by_cases.
  all: try (unfold handleConnections, handleSessions, handleSubscriptions, handleRoutes;
            destruct (R_Method r =s MethodGet); simpl;
            [by apply answered_page|intros [= <-]; answer]).
  all: try (apply answered; [done|code_listed|intros; bool_prop; congruence|by intros _ [_ ?]]).
  all: intros Ho; apply (answered_blacklist now w r s o Hw); auto.
Qed.

(** ** The blacklist through the interface *)

Lemma body_writeJSON w code j :
  unsent w → bodyAllowedForStatus code = true → W_Body (writeJSON w code (Ok j)) = [CJson j].
Proof.
  intros Hw Hc. unfold writeJSON, Encode.
  destruct (Write_allowed (Header_Set ContentType "application/json" w) (CJson j) code)
    as (Hok & Hb & _); [by apply unsent_Header_Set|done|].
  destruct (Write _ _) as [ok w']. simpl in *. by subst ok.
Qed.

(** A request to block a client identifier. *)
Record blocks_client (q : createRequest) (v : string) : Prop := {
  bc_type : Q_Type q = ClientIDBlacklist;
  bc_value : Q_Value q = v;
  bc_nonempty : v ≠ "";
  bc_pattern : Q_Pattern q = "";
  bc_action : Q_Action q ∈ [ActionDeny; ActionDisconnect; ActionLog];
  bc_enabled : Q_Enabled q = true;
}.

Definition newID (q : createRequest) now : string := (Q_Type q +:+ "_" +:+ pretty now)%string.

(** The manager after a block of a client identifier has been added. *)
Definition blocked (m : BlacklistManager R) (q : createRequest) now (st : BlacklistStats) : BlacklistManager R :=
  let l := fresh (dom (heap m)) in
  mkBlacklistManager (<[l := stamped now None (createdEntry q now)]> (heap m))
    (<[newID q now := l]> (entries m)) (<[Q_Value q := l]> (clientIDEntries m)) (usernameEntries m)
    (ipAddressEntries m) (topicEntries m) (patternEntries m) st.

Lemma newID_nonempty q now v : blocks_client q v → newID q now ≠ "".
Proof. intros []. unfold newID. rewrite bc_type0. discriminate. Qed.

Lemma AddEntry_created m q now v :
  blocks_client q v → entries m !! newID q now = None →
  ∃ st, AddEntry Compile m (createdEntry q now) now = (None, blocked m q now st).
Proof.
  intros Hq Hn. pose proof (newID_nonempty q now v Hq) as Hid. destruct Hq as [Ht Hv Hne Hp Ha _].
  destruct q as [ty va pa ac re de en ex by_ me]. simpl in *. subst ty va pa.
  assert (validateEntry (createdEntry (R := R)
            (mkCreateRequest ClientIDBlacklist v "" ac re de en ex by_ me) now) = None) as Hval.
  { unfold validateEntry. cbn [createdEntry E_ID E_Type E_Action E_Value E_Pattern Q_Type Q_Value
      Q_Pattern Q_Action]. rewrite (bool_decide_false (P := _ = "") Hid).
    rewrite (bool_decide_false (P := v = "")) by done. cbn [andb].
    apply elem_of_cons in Ha as [->|Ha]; [done|].
    apply elem_of_cons in Ha as [->|Ha]; [done|]. by apply list_elem_of_singleton in Ha as ->. }
  unfold AddEntry. rewrite Hval. cbn [createdEntry E_ID E_Pattern Q_Type Q_Pattern].
  unfold newID in *. simpl in Hn |- *. rewrite Hn. by eexists.
Qed.

(** The server whose broker has another manager. *)
Definition set_blacklist_manager (m : BlacklistManager R) (mw : BlacklistMiddleware R) s : APIServer B :=
  set_broker (with_blacklist (mkBlacklistMiddleware (Some m) (mw_config mw)) (broker s)) s.

Lemma create_run now w r s mw m q v :
  GetBlacklistMiddleware (broker s) = Some mw → manager mw = Some m →
  R_Body r ≫= decCreate = Some q → blocks_client q v → entries m !! newID q now = None →
  ∃ st, handleBlacklistCreate Compile now w r s =
    Returns (writeJSON w StatusCreated
               (let? j := entryJSON (stamped (R := R) now None (createdEntry q now)) in
                Ok (apiResponse 0 "" (Some j))),
             set_blacklist_manager (blocked m q now st) mw s).
Proof.
  intros Hg Hm Hb Hq Hn. destruct (AddEntry_created m q now v Hq Hn) as [st Ha]. exists st.
  unfold handleBlacklistCreate, withManager. rewrite Hg, Hm, Hb. destruct Hq.
  rewrite (bool_decide_false (P := Q_Type q = "")) by (rewrite bc_type0; discriminate).
  rewrite (bool_decide_false (P := Q_Value q = "")) by congruence.
  rewrite (bool_decide_false (P := Q_Action q = "")).
  - cbn [andb]. cbv zeta. by rewrite Ha.
  - intros Hac. rewrite Hac in bc_action0. by apply (bool_decide_eq_true_2 _) in bc_action0.
Qed.

Lemma blocked_hit m q now st v now' e :
  blocks_client q v → e = stamped now None (createdEntry q now) → active now' e = true →
  directMatch (blocked m q now st) (clientIDEntries (blocked m q now st)) v now' = Some e.
Proof.
  intros [] -> Ha. unfold directMatch, blocked. simpl. rewrite bc_value0, lookup_insert_eq. simpl.
  rewrite lookup_insert_eq. simpl. by rewrite Ha.
Qed.

(** After the creation the entry guards the client identifier, if no other entry is for it. *)
Lemma blocked_guards m q now st v :
  blocks_client q v → wf_blacklist (blocked m q now st) → entries m !! newID q now = None →
  (∀ id e, GetEntry m id = inl e → E_Type e = ClientIDBlacklist → E_Value e ≠ v) →
  guards (fresh (dom (heap m))) (stamped now None (createdEntry q now)) v (blocked m q now st).
Proof.
  intros [] Hw Hn Hother. split; [done|..].
  - split; simpl; by rewrite lookup_insert_eq.
  - simpl. by rewrite bc_value0, lookup_insert_eq.
  - intros l' e' [Hh He] Hne Ht. simpl in Hh, He. rewrite lookup_insert_ne in Hh by done.
    apply lookup_insert_Some in He as [[_ ?]|[_ He]]; [done|].
    apply (Hother (E_ID e')); [|done]. unfold GetEntry. rewrite He. simpl. by rewrite Hh.
Qed.

Lemma denied_by_guard MatchString cidrContains mw m l e v now user ip proto :
  manager mw = Some m → EnableClientIDCheck (mw_config mw) = true →
  guards (R := R) l e v m → active now e = true →
  (MW_CheckClientConnection MatchString cidrContains mw v user ip proto now).1.1 = false.
Proof.
  intros Hm Hen Hgu Ha. unfold MW_CheckClientConnection. rewrite Hm, Hen. cbn [orb].
  unfold CheckClientConnection. cbn [CI_ClientID].
  by rewrite (guards_checkClientID l e v MatchString m now Hgu Ha).
Qed.

(** C34. A block that is created through the interface is shown as it was created and
    enforced: when the request is well formed and its identifier is new, the answer is 201 with
    the entry, a GET in the state left by it answers 200 with the same body, and there the
    middleware's connection check refuses that client identifier - with any user name and
    address, for the action log as for deny - as long as the entry has not expired.  If the
    blacklist had no entry for this client identifier before, the check goes on refusing it
    after any sequence of additions, updates, removals, clean-ups and recorded blocks that
    neither name the new entry nor bring in another for the same client identifier, with
    clean-ups only before it expires. *)
Theorem created_entry_enforced MatchString cidrContains now r s mw m q v :
  GetBlacklistMiddleware (broker s) = Some mw → manager mw = Some m → EnableClientIDCheck (mw_config mw) = true →
  R_Method r = MethodPost → R_Body r ≫= decCreate = Some q →
  blocks_client q v → entries m !! newID q now = None →
  ∃ w s' mw', handle formatRFC3339 Compile ABlacklist now newWriter r s = Returns (w, s') ∧
    status w = Some StatusCreated ∧
    GetBlacklistMiddleware (broker s') = Some mw' ∧
    (∃ w', (∃ s'', handleBlacklistGetByID newWriter (newID q now) s' = Returns (w', s'')) ∧
       status w' = Some StatusOK ∧
       (is_Ok (entryJSON (stamped (R := R) now None (createdEntry q now))) = true → W_Body w' = W_Body w)) ∧
    (∀ now' user ip proto, match Q_ExpiresAt q with Some t => now' < t | None => True end →
       (MW_CheckClientConnection MatchString cidrContains mw' v user ip proto now').1.1 = false) ∧
    (wf_blacklist m → (∀ id e, GetEntry m id = inl e → E_Type e = ClientIDBlacklist → E_Value e ≠ v) →
     ∃ m', manager mw' = Some m' ∧
     ∀ ops, Forall (spares (createdEntry q now) v) ops →
     ∀ now' user ip proto, match Q_ExpiresAt q with Some t => now' < t | None => True end →
       let later := foldl (λ bm '(t, op), bl_step Compile bm t op) m' ops in
       (MW_CheckClientConnection MatchString cidrContains (set_manager later mw') v user ip proto now').1.1 = false).
Proof using laws.
  intros Hg Hm Hen Hr Hb Hq Hn.
  destruct (create_run now newWriter r s mw m q v Hg Hm Hb Hq Hn) as [st Hc].
  set (m' := blocked m q now st) in *. set (mw' := mkBlacklistMiddleware (Some m') (mw_config mw)).
  assert (GetBlacklistMiddleware (broker (set_blacklist_manager m' mw s)) = Some mw') as Hg'.
  { simpl. by eapply get_with_blacklist. }
  assert (GetEntry m' (newID q now) = inl (stamped now None (createdEntry q now))) as Hge.
  { unfold GetEntry, m', blocked. simpl. rewrite lookup_insert_eq. simpl. by rewrite lookup_insert_eq. }
  eexists _, _, mw'. cbn [handle]. unfold handleBlacklist.
  rewrite Hr, Hc. split; [reflexivity|]. split; [by apply status_writeJSON|]. split; [done|].
  assert (∀ now', match Q_ExpiresAt q with Some t => now' < t | None => True end →
    active now' (stamped (R := R) now None (createdEntry q now)) = true) as Hact.
  { intros now' Hexp. destruct Hq. unfold active. cbn [stamped createdEntry E_Enabled E_ExpiresAt].
    rewrite bc_enabled0. destruct (Q_ExpiresAt q) as [t|]; [|done]. by apply Z.ltb_lt. }
  split; [|split].
  - eexists. split.
    { eexists. unfold handleBlacklistGetByID, withManager. rewrite Hg'. cbn [manager mw'].
      rewrite Hge. reflexivity. }
    split; [by apply status_writeJSON|].
    destruct (entryJSON _) as [j|]; [|done]. by intros _.
  - intros now' user ip proto Hexp. unfold MW_CheckClientConnection. cbn [manager mw' mw_config].
    rewrite Hen. cbn [orb]. unfold CheckClientConnection, checkClientID. cbn [CI_ClientID].
    pose proof (blocked_hit m q now st v now' (stamped now None (createdEntry q now)) Hq eq_refl) as Hh.
    fold m' in Hh. rewrite Hh; [done|]. by apply Hact.
  - intros Hw Hother. exists m'. split; [done|]. intros ops Hops now' user ip proto Hexp.
    destruct (AddEntry_created m q now v Hq Hn) as [st0 Ha].
    assert (wf_blacklist m') as Hw'.
    { apply (wf_set_stats (blocked m q now st0)).
      pose proof (AddEntry_wf Compile m (createdEntry q now) now Hw) as Hwa. by rewrite Ha in Hwa. }
    eapply denied_by_guard; [done|done| |by apply Hact].
    apply guards_run; [by apply blocked_guards|]. eapply Forall_impl; [exact Hops|]. by intros [? []].
Qed.



End Serve.

(** ** Witnesses *)

Definition sampleBroker : Broker unit string := New "n1" None tt 0.
Definition sampleServer : APIServer (Broker unit string) := mkAPIServer (NewMetricsManager 0) [] sampleBroker.
Definition sampleCompile (p : string) : option string := if p =s "(" then None else Some p.
Definition requestTo (method path : string) (body : option json) : Request :=
  mkRequest method path ∅ body ∅ None [].
Definition sampleBody : json :=
  JObject [("type", JString "clientid"); ("value", JString "evil"); ("action", JString "deny");
           ("enabled", JBool true)].
Definition sampleCreate : createRequest :=
  mkCreateRequest "clientid" "evil" "" "deny" "" "" true None "" None.

Lemma sampleBody_dec : @decCreate digitsJSON sampleBody = Some sampleCreate.
Proof. unfold decCreate, sampleBody. cbn [fieldsOf mbind option_bind]. run_fields. reflexivity. Qed.
Lemma sampleCreate_blocks : blocks_client sampleCreate "evil".
Proof. split; [done|done|discriminate|done|by left|done]. Qed.

Lemma serve_safe_witness :
  ∃ o, @serve intFloat digitsJSON (λ _, "") _ _ _ sampleCompile 5 (requestTo "GET" "/health" None) sampleServer
       = Returns o ∧ broker o.2 = sampleBroker.
Proof.
  eexists. split; [reflexivity|].
  destruct (@serve_safe intFloat digitsJSON (λ _, "") _ _ _ _ sampleCompile 5
              (requestTo "GET" "/health" None) sampleServer _ eq_refl) as (st & _ & _ & Hg & _).
  exact (Hg eq_refl).
Defined.

Lemma created_entry_enforced_witness :
  ∃ mw' m', manager mw' = Some m' ∧
    (MW_CheckClientConnection (λ (_ : string) _, false) (λ _ _, false)
       (set_manager (bl_step sampleCompile (bl_step sampleCompile m' 8 (BRemove "other")) 8 BCleanup) mw')
       "evil" "u" "10.0.0.1" "mqtt" 9).1.1 = false.
Proof.
  destruct (@created_entry_enforced intFloat digitsJSON (λ _, "") _ _ brokerAdmin brokerAdmin_laws sampleCompile
    (λ _ _, false) (λ _ _, false) 7 (requestTo "POST" "/api/v5/blacklist" (Some sampleBody)) sampleServer
    (blacklistMiddleware sampleBroker) (NewBlacklistManager 0) sampleCreate "evil"
    eq_refl eq_refl eq_refl eq_refl sampleBody_dec sampleCreate_blocks eq_refl)
    as (w & s' & mw' & _ & _ & _ & _ & _ & Hlater).
  destruct (Hlater (wf_NewBlacklistManager 0) ltac:(discriminate)) as (m' & Hm' & Hops).
  exists mw', m'. split; [exact Hm'|].
  apply (Hops [(8, BRemove "other"); (8, BCleanup)]); [|exact I].
  repeat constructor. discriminate.
Defined.

