(* ===== verification/Dashboard.v ===== *)
(** * Dashboard: the web interface (pkg/dashboard/server.go), first part

    The server, its routes' authentication, login, the pages, and the endpoints that only
    read.  The server holds pointers to the components: here their states, as cmd/emqx-go puts
    them together - the rule engine works on the dashboard's connector manager and the
    management interface on the dashboard's metrics.  Templates are parameters: what a
    template writes and the error that it ends with. *)

From S2P Require Import Prelude GoLib GoValue GoJSON GoHTTP TopicMatch Blacklist RuleSQL RuleEval.
From S2P Require Import Connector RuleEngine Integration IntegrationEngine Metrics Health Certs Admin.
Local Open Scope emqx_scope.
Local Open Scope Z_scope.

Record Config := mkConfig {
  D_Address : string;
  D_Port : Z;
  D_Username : string;
  D_Password : string;
  D_EnableAuth : bool;
  D_StaticDir : string;
  D_TemplateDir : string;
}.
Definition DefaultConfig : Config := mkConfig "0.0.0.0" 18083 "admin" "public" true "" "".

(** What a template gets to see. *)
Inductive tval `{GoFloat} :=
  | TText (s : string)
  | TInt (z : Z)
  | TBool (b : bool)
  | TStats (s : Statistics)
  | THealth (h : Health.HealthStatus)
  | TCerts (l : list Certificate)
  | TRules (l : list Rule)
  | TBridges (l : list Bridge)
  | TIntegration (m : option IntegrationMetrics)
  | TMap (m : list (string * tval))
  | TRows (l : list (list (string * tval))).

(** The server; [adminMux] tells whether the mux of the management interface exists. *)
Record Server `{GoFloat} (C K P B : Type) := mkServer {
  d_config : Config;
  d_adminAPI : option B;
  d_adminMux : bool;
  d_metrics : MetricsManager;
  d_prom : list promCall;
  d_health : HealthChecker;
  d_certs : CertificateManager;
  d_hasConnectors : bool;
  d_world : World C unit;
  d_integration : option (DataIntegrationEngine P K);
}.
Arguments mkServer {_ _ _ _ _} _ _ _ _ _ _ _ _ _ _.
Arguments d_config {_ _ _ _ _} _.
Arguments d_adminAPI {_ _ _ _ _} _.
Arguments d_adminMux {_ _ _ _ _} _.
Arguments d_metrics {_ _ _ _ _} _.
Arguments d_prom {_ _ _ _ _} _.
Arguments d_health {_ _ _ _ _} _.
Arguments d_certs {_ _ _ _ _} _.
Arguments d_hasConnectors {_ _ _ _ _} _.
Arguments d_world {_ _ _ _ _} _.
Arguments d_integration {_ _ _ _ _} _.

Section Dashboard.
Context `{GoFloat} `{JSONText} {C K P B : Type} `{!Connector C}.
Context (formatRFC3339 formatDateTime : Time → string).
Context (osInfo : OSInfo) (jsonFloat : float64 → result json) (gl : Globals).
(** [templates.ExecuteTemplate]: the text written and the error. *)
Context (execTemplate : string → list (string * tval) → string * option string).

Abbreviation Srv := (Server C K P B).
Implicit Types (s : Srv) (w : ResponseWriter) (r : Request) (now : Time).
(** A handler. *)
Abbreviation Handler := (ResponseWriter → Request → Srv → outcome (ResponseWriter * Srv)).

Definition set_dmetrics (mm : MetricsManager) s : Srv :=
  mkServer (d_config s) (d_adminAPI s) (d_adminMux s) mm (d_prom s) (d_health s) (d_certs s)
    (d_hasConnectors s) (d_world s) (d_integration s).
Definition set_dadmin (b : option B) (mux : bool) (mm : MetricsManager) (ps : list promCall) s : Srv :=
  mkServer (d_config s) b mux mm ps (d_health s) (d_certs s) (d_hasConnectors s) (d_world s)
    (d_integration s).
Definition set_dconfig (c : Config) s : Srv :=
  mkServer c (d_adminAPI s) (d_adminMux s) (d_metrics s) (d_prom s) (d_health s) (d_certs s)
    (d_hasConnectors s) (d_world s) (d_integration s).
Definition set_dcerts (cm : CertificateManager) s : Srv :=
  mkServer (d_config s) (d_adminAPI s) (d_adminMux s) (d_metrics s) (d_prom s) (d_health s) cm
    (d_hasConnectors s) (d_world s) (d_integration s).
Definition set_dworld (wd : World C unit) s : Srv :=
  mkServer (d_config s) (d_adminAPI s) (d_adminMux s) (d_metrics s) (d_prom s) (d_health s) (d_certs s)
    (d_hasConnectors s) wd (d_integration s).
Definition set_dintegration (die : DataIntegrationEngine P K) s : Srv :=
  mkServer (d_config s) (d_adminAPI s) (d_adminMux s) (d_metrics s) (d_prom s) (d_health s) (d_certs s)
    (d_hasConnectors s) (d_world s) (Some die).

(** [NewServer]; the templates either parse or are an error. *)
Definition NewServer (config : option Config) (templates : Config → option string) (adminAPI : option B)
    (mm : MetricsManager) (ps : list promCall) (hc : HealthChecker) (cm : CertificateManager)
    (connectorManager : bool) (wd : World C unit) (die : option (DataIntegrationEngine P K)) : result Srv :=
  let config := default DefaultConfig config in
  match templates config with
  | Some e => Err ("failed to load templates: failed to parse templates: " +:+ e)%string
  | None => Ok (mkServer config adminAPI false mm ps hc cm connectorManager wd die)
  end.

Definition GetListenAddress s : string :=
  (D_Address (d_config s) +:+ ":" +:+ pretty (D_Port (d_config s)))%string.
Definition UpdateConfig (c : Config) s : Srv := set_dconfig c s.

(** ** Authentication *)

Definition sessionCookie : string := "dashboard_session".
Definition sessionToken : string := "valid_session_token".

Definition validateCredentials s (username password : string) : bool :=
  (username =s D_Username (d_config s)) && (password =s D_Password (d_config s)).
Definition validateSession (token : string) : bool := token =s sessionToken.
Definition setSessionCookie now w : ResponseWriter :=
  http_SetCookie (mkSetCookie sessionCookie sessionToken (now + 24 * Hour)) w.

Definition authMiddleware (next : Handler) now : Handler := λ w r s,
  if negb (D_EnableAuth (d_config s)) then next w r s
  else if match Cookie r sessionCookie with Some v => validateSession v | None => false end
  then next w r s
  else if match R_BasicAuth r with Some (u, p) => validateCredentials s u p | None => false end
  then next (setSessionCookie now w) r s
  else if strings.HasPrefix (URL_Path r) "/api/" then
    let w := Header_Set "WWW-Authenticate" ("Basic realm=" +:+ dquote +:+ "Dashboard" +:+ dquote)%string w in
    Returns (http_Error w "Unauthorized" StatusUnauthorized, s)
  else Returns (http_Redirect w r "/login" StatusFound, s).

(** ** Responses *)

Definition notAllowed w : ResponseWriter := http_Error w "Method not allowed" StatusMethodNotAllowed.

(** [ExecuteTemplate] and the answer to its error. *)
Definition execute (name : string) (data : list (string * tval)) (report : string → string) w
    : ResponseWriter :=
  let '(text, err) := execTemplate name data in
  let w := if text =s "" then w else (Write (CText text) w).2 in
  match err with Some e => http_Error w (report e) StatusInternalServerError | None => w end.
Definition renderTemplate (name : string) (data : list (string * tval)) w : ResponseWriter :=
  execute name data (λ _, "Internal server error") (Header_Set ContentType "text/html; charset=utf-8" w).

Definition writeJSON (data : result json) w : ResponseWriter :=
  let '(err, w) := Encode data (Header_Set ContentType "application/json" w) in
  match err with
  | Some _ => http_Error w "Internal server error" StatusInternalServerError
  | None => w
  end.
Definition writeMap (l : list (string * json)) w : ResponseWriter := writeJSON (Ok (jmap l)) w.

(** ** Pages *)

(** A page that answers to GET only. *)
Definition page (name : string) (data : Srv → list (string * tval) * Srv) : Handler := λ w r s,
  if R_Method r <>s MethodGet then Returns (notAllowed w, s)
  else let '(d, s) := data s in Returns (renderTemplate name d w, s).

Definition withStats {A} now (k : Statistics → A) s : A * Srv :=
  let '(stats, mm) := GetStatistics formatRFC3339 (d_metrics s) now in (k stats, set_dmetrics mm s).
Definition healthOf now s : Health.HealthStatus := Health.GetStatus osInfo gl (d_health s) now.

Definition getDashboardData now s : list (string * tval) * Srv :=
  withStats now (λ stats,
    [("Title", TText "Dashboard - EMQX Go"); ("Stats", TStats stats); ("Health", THealth (healthOf now s));
     ("CurrentTime", TText (formatDateTime now))]) s.
Definition getConnectionsData now s : list (string * tval) * Srv :=
  withStats now (λ stats,
    [("Title", TText "Connections - EMQX Go"); ("ConnectionCount", TInt (Connections_Count stats));
     ("Connections", TRows [])]) s.
Definition getSessionsData now s : list (string * tval) * Srv :=
  withStats now (λ stats,
    [("Title", TText "Sessions - EMQX Go"); ("SessionCount", TInt (Sessions_Count stats));
     ("Sessions", TRows [])]) s.
Definition getSubscriptionsData now s : list (string * tval) * Srv :=
  withStats now (λ stats,
    [("Title", TText "Subscriptions - EMQX Go"); ("SubscriptionCount", TInt (Subscriptions_Count stats));
     ("Subscriptions", TRows [])]) s.
Definition getMonitoringData now s : list (string * tval) * Srv :=
  withStats now (λ stats,
    [("Title", TText "Monitoring - EMQX Go"); ("Stats", TStats stats); ("Health", THealth (healthOf now s))]) s.

Definition choices (l : list (string * string)) : tval :=
  TRows ((λ e, [("value", TText e.1); ("label", TText e.2)]) <$> l).
Definition getCertificatesData s : list (string * tval) :=
  let certs := ListCertificates (d_certs s) in
  [("Title", TText "Certificates - EMQX Go"); ("Certificates", TCerts certs); ("Count", TInt (blen certs))].
Definition getTLSConfigData : list (string * tval) :=
  [("Title", TText "TLS Configuration - EMQX Go");
   ("VerifyModes", choices [("none", "No Verification"); ("verify_peer", "Verify Peer");
      ("verify_peer_fail_if_no_peer_cert", "Verify Peer (Fail if No Cert)")]);
   ("CertTypes", choices [("server", "Server Certificate"); ("ca", "CA Certificate");
      ("client", "Client Certificate")]);
   ("IdentitySources", choices [("subject_dn", "Subject DN"); ("subject_cn", "Subject Common Name");
      ("san", "Subject Alternative Names"); ("serial", "Serial Number"); ("fingerprint", "Fingerprint")])].

Definition getAvailableConnectorTypes : tval :=
  let row v l d := [("value", TText v); ("label", TText l); ("description", TText d)] in
  TRows [row "http" "HTTP" "HTTP/HTTPS webhook connector";
         row "mysql" "MySQL" "MySQL database connector";
         row "postgresql" "PostgreSQL" "PostgreSQL database connector";
         row "redis" "Redis" "Redis connector"; row "kafka" "Kafka" "Apache Kafka connector"].

Definition stateText (st : ConnectorState) : string :=
  match st with
  | StateCreated => "created" | StateStarting => "starting" | StateRunning => "running"
  | StateStopping => "stopping" | StateStopped => "stopped" | StateFailed => "failed"
  | StateReconnecting => "reconnecting"
  end.

(** One row per connector; the connectors' locks are taken in turn. *)
Definition connectorRows {A} (row : string → C → outcome A) s : outcome (list A) :=
  go_range (λ id conn acc, let! rows := acc in let! x := row id conn in Returns (rows ++ [x]))
    (Connector.ListConnectors (connManager (d_world s))) (Returns []).

Definition getConnectorsData now s : outcome (list (string * tval)) :=
  let! rows :=
    if d_hasConnectors s then
      connectorRows (λ id conn,
        let! config := con_GetConfig conn in
        let! status := con_Status conn now in
        Returns [("id", TText id); ("name", TText (CC_Name config)); ("type", TText (CC_Type config));
          ("enabled", TBool (CC_Enabled config)); ("state", TText (stateText (ST_State status)));
          ("created_at", TText (formatDateTime (CC_CreatedAt config)));
          ("description", TText (CC_Description config))]) s
    else Returns [] in
  Returns [("Title", TText "Connectors - EMQX Go"); ("Connectors", TRows rows);
           ("Count", TInt (blen rows)); ("Types", getAvailableConnectorTypes)].

Definition getRulesData s : list (string * tval) :=
  let rules := (map_to_list (ListRules (d_world s))).*2 in
  [("Title", TText "Rules - EMQX Go"); ("Rules", TRules rules); ("Count", TInt (blen rules))].

Definition getIntegrationData `{!BridgeConnector K} s : list (string * tval) * Srv :=
  match d_integration s with
  | None =>
      ([("Title", TText "Data Integration - EMQX Go"); ("Bridges", TBridges []); ("Count", TInt 0);
        ("Metrics", TIntegration None)], s)
  | Some die =>
      let bs := ListBridges die in
      let '(m, die) := IntegrationEngine.GetMetrics die in
      ([("Title", TText "Data Integration - EMQX Go"); ("Bridges", TBridges bs); ("Count", TInt (blen bs));
        ("Metrics", TIntegration (Some m))], set_dintegration die s)
  end.

Definition getBlacklistData now : list (string * tval) :=
  let row id type value reason ago :=
    [("ID", TText id); ("Type", TText type); ("Value", TText value); ("Action", TText "deny");
     ("Reason", TText reason); ("Enabled", TBool true); ("CreatedAt", TText (formatDateTime (now - ago)));
     ("UpdatedAt", TText (formatDateTime (now - ago)))] in
  [("Title", TText "Blacklist - EMQX Go");
   ("BlacklistEntries",
     TRows [row "demo-blocked-client" "clientid" "malicious-client" "Suspicious behavior detected" Hour;
            row "demo-blocked-user" "username" "baduser" "Account compromised" (2 * Hour)]);
   ("Count", TInt 2);
   ("Stats", TMap [("TotalEntries", TInt 2);
      ("EntriesByType", TMap [("clientid", TInt 1); ("username", TInt 1); ("ip", TInt 0); ("topic", TInt 0)])]);
   ("Types", choices [("clientid", "Client ID"); ("username", "Username"); ("ip", "IP Address");
      ("topic", "Topic")]);
   ("Actions", choices [("deny", "Deny"); ("log", "Log Only")])].

Definition handleDashboard now : Handler := page "dashboard.html" (getDashboardData now).
Definition handleConnections now : Handler := page "connections.html" (getConnectionsData now).
Definition handleSessions now : Handler := page "sessions.html" (getSessionsData now).
Definition handleSubscriptions now : Handler := page "subscriptions.html" (getSubscriptionsData now).
Definition handleMonitoring now : Handler := page "monitoring.html" (getMonitoringData now).
Definition handleConnectors now : Handler := λ w r s,
  if R_Method r <>s MethodGet then Returns (notAllowed w, s)
  else let! d := getConnectorsData now s in Returns (renderTemplate "connectors.html" d w, s).
Definition handleCertificates : Handler := page "certificates.html" (λ s, (getCertificatesData s, s)).
Definition handleTLSConfig : Handler := page "tls-config.html" (λ s, (getTLSConfigData, s)).
Definition handleIntegration `{!BridgeConnector K} : Handler := page "integration.html" getIntegrationData.
Definition handleBlacklist now : Handler := page "blacklist.html" (λ s, (getBlacklistData now, s)).
(** Any method; the content type is left to the writer. *)
Definition handleRules : Handler := λ w r s,
  Returns (execute "rules.html" (getRulesData s) (λ e, e) w, s).

(** ** Login *)

Definition loginData (error : string) : list (string * tval) :=
  [("Title", TText "Login - EMQX Dashboard")] ++ (if error =s "" then [] else [("Error", TText error)]).

Definition handleLogin now : Handler := λ w r s,
  if R_Method r =s MethodGet then Returns (renderTemplate "login.html" (loginData "") w, s)
  else if R_Method r =s MethodPost then
    if validateCredentials s (FormValue r "username") (FormValue r "password")
    then Returns (http_Redirect (setSessionCookie now w) r "/dashboard" StatusFound, s)
    else Returns (renderTemplate "login.html" (loginData "Invalid username or password") w, s)
  else Returns (notAllowed w, s).

(** The browser is told to forget the cookie. *)
Definition handleLogout now : Handler := λ w r s,
  Returns (http_Redirect (http_SetCookie (mkSetCookie sessionCookie "" (now - Hour)) w) r "/login" StatusFound, s).

(** ** Endpoints that read *)

Definition handleAPIStats now : Handler := λ w r s,
  if R_Method r <>s MethodGet then Returns (notAllowed w, s)
  else let '(st, s) := withStats now id s in Returns (writeJSON (Ok (statisticsJSON st)) w, s).

Definition rowsWithCount (name : string) (rows : list json) w : ResponseWriter :=
  writeMap [(name, JArray rows); ("count", JInt (blen rows))] w.

Definition handleAPIConnections now : Handler := λ w r s,
  if R_Method r <>s MethodGet then Returns (notAllowed w, s)
  else
    let row id user host ago ver keepalive clean :=
      jmap [("clientid", JString id); ("username", JString user); ("peerhost", JString host);
            ("sockport", JInt 1883); ("connected", JBool true);
            ("connected_at", JString (formatRFC3339 (now - ago * Minute))); ("protocol", JString "MQTT");
            ("proto_ver", JInt ver); ("keepalive", JInt keepalive); ("clean_start", JBool clean)] in
    let rows := match d_adminAPI s with
                | Some _ => [row "demo_client_1" "demo_user" "127.0.0.1" 5 5 60 true;
                             row "demo_client_2" "test_user" "192.168.1.100" 2 4 120 false]
                | None => []
                end in
    Returns (rowsWithCount "connections" rows w, s).

Definition handleAPISessions now : Handler := λ w r s,
  if R_Method r <>s MethodGet then Returns (notAllowed w, s)
  else
    let row id user clean ago n :=
      jmap [("clientid", JString id); ("username", JString user); ("clean_start", JBool clean);
            ("created_at", JString (formatRFC3339 (now - ago * Minute))); ("subscriptions_cnt", JInt n)] in
    Returns (rowsWithCount "sessions"
      [row "demo_client_1" "demo_user" true 5 2; row "demo_client_2" "test_user" false 2 5] w, s).

Definition handleAPISubscriptions : Handler := λ w r s,
  if R_Method r <>s MethodGet then Returns (notAllowed w, s)
  else
    let row id topic qos :=
      jmap [("clientid", JString id); ("topic", JString topic); ("qos", JInt qos);
            ("node", JString "emqx-go-node")] in
    Returns (rowsWithCount "subscriptions"
      [row "demo_client_1" "devices/+/status" 1; row "demo_client_1" "sensors/temperature" 0;
       row "demo_client_2" "devices/sensor1/data" 2; row "demo_client_2" "alerts/+" 1] w, s).

Definition handleAPIHealth now : Handler := λ w r s,
  if R_Method r <>s MethodGet then Returns (notAllowed w, s)
  else Returns (writeJSON (healthStatusJSON jsonFloat (healthOf now s)) w, s).

(** The management interface behind the dashboard: its routes are registered at the first
    request. *)
Definition proxyAdminAPI {R} `{!BrokerInterface B R} (Compile : string → option R) now : Handler := λ w r s,
  match d_adminAPI s with
  | None => Returns (http_Error w "Admin API not available" StatusServiceUnavailable, s)
  | Some b =>
      let! mux := Admin.RegisterRoutes [] in
      let api := mkAPIServer (d_metrics s) (d_prom s) b in
      let! '(w, api) :=
        match mux_match mux (URL_Path r) with
        | Some (_, route) => Admin.handle formatRFC3339 Compile route now w r api
        | None => Returns (http_NotFound w, api)
        end in
      Returns (w, set_dadmin (Some (Admin.broker api)) true (metricsManager api) (promCalls api) s)
  end.
End Dashboard.
