(* ===== verification/DashboardAPI.v ===== *)
(** * DashboardAPI: the web interface (pkg/dashboard/server.go), second part

    The endpoints that work on certificates, connectors, rules and bridges, the endpoints of
    the dashboard's own (imitated) blacklist, and the routes.  How encoding/json reads and
    writes the structs of the connectors, rules and bridges is a parameter; certificates and
    TLS settings are written out. *)

From S2P Require Import Prelude GoLib GoValue GoJSON GoHTTP TopicMatch Blacklist RuleSQL RuleEval.
From S2P Require Import Connector RuleEngine Integration IntegrationEngine Metrics Health Certs Admin Dashboard.
Local Open Scope emqx_scope.
Local Open Scope Z_scope.

(** ** JSON of certificates and settings *)

Section CertJSON.
Context `{JSONText}.

Definition stampJSON (t : option Time) : result json :=
  match t with Some t => jsonTime t | None => Ok zeroTimeText end.

Definition certificateJSON (c : Certificate) : result json :=
  let? nb := jsonTime (C_NotBefore c) in
  let? na := jsonTime (C_NotAfter c) in
  let? created := stampJSON (C_CreatedAt c) in
  let? updated := stampJSON (C_UpdatedAt c) in
  Ok (jstruct (
    [("id", JString (C_ID c)); ("name", JString (C_CertName c)); ("type", JString (C_Type c));
     ("content", JString (C_Content c))] ++ omitempty "key" (C_Key c) ++
    (match C_Chain c with [] => [] | l => [("chain", JArray (JString <$> l))] end) ++
    [("fingerprint", JString (C_Fingerprint c)); ("subject", JString (C_Subject c));
     ("issuer", JString (C_Issuer c)); ("not_before", nb); ("not_after", na);
     ("created_at", created); ("updated_at", updated); ("enabled", JBool (C_Enabled c))])).

(** A time field whose zero value is [time.Time{}]. *)
Definition decStamp (j : json) (cur : option Time) : option (option Time) :=
  match j with
  | JString s => (λ t, if t =? zeroTime then None else Some t) <$> parseTime s
  | JNull => Some cur
  | _ => None
  end.

Definition decCertificate (j : json) : option Certificate :=
  l ← fieldsOf j;
  id ← field decString "" "id" l;
  name ← field decString "" "name" l;
  type ← field decString "" "type" l;
  content ← field decString "" "content" l;
  key ← field decString "" "key" l;
  chain ← field decStrings [] "chain" l;
  fingerprint ← field decString "" "fingerprint" l;
  subject ← field decString "" "subject" l;
  issuer ← field decString "" "issuer" l;
  nb ← field decTime zeroTime "not_before" l;
  na ← field decTime zeroTime "not_after" l;
  created ← field decStamp None "created_at" l;
  updated ← field decStamp None "updated_at" l;
  enabled ← field decBool false "enabled" l;
  Some (mkCertificate id name type content key chain fingerprint subject issuer nb na created updated enabled).

Definition decTLSConfig (j : json) : option TLSConfig :=
  l ← fieldsOf j;
  enabled ← field decBool false "enabled" l;
  port ← field decInt 0 "port" l;
  certfile ← field decString "" "certfile" l;
  keyfile ← field decString "" "keyfile" l;
  cacertfile ← field decString "" "cacertfile" l;
  verify ← field decString "" "verify" l;
  ciphers ← field decStrings [] "ciphers" l;
  versions ← field decStrings [] "versions" l;
  clientCert ← field decBool false "client_cert_auth" l;
  reuse ← field decBool false "reuse_session" l;
  honor ← field decBool false "honor_cipher_order" l;
  serverName ← field decString "" "server_name" l;
  certID ← field decString "" "certificate_id" l;
  caID ← field decString "" "ca_certificate_id" l;
  Some (mkTLSConfig enabled port certfile keyfile cacertfile verify ciphers versions clientCert reuse honor
          serverName certID caID).

Definition x509ConfigJSON (c : X509Config) : json :=
  let strs name l := match l with [] => [] | _ => [(name, JArray (JString <$> l))] end in
  jstruct ([("enabled", JBool (XC_Enabled c)); ("identity_source", JString (XC_IdentitySource c))] ++
    omitempty "identity_field" (XC_IdentityField c) ++ omitempty "identity_pattern" (XC_IdentityPattern c) ++
    [("ca_chain_depth", JInt (XC_CAChainDepth c)); ("verify_cert_chain", JBool (XC_VerifyCertChain c))] ++
    strs "allowed_cns" (XC_AllowedCNs c) ++ strs "revoked_serials" (XC_RevokedSerials c)).

Definition decX509Config (j : json) : option X509Config :=
  l ← fieldsOf j;
  enabled ← field decBool false "enabled" l;
  source ← field decString "" "identity_source" l;
  fld ← field decString "" "identity_field" l;
  pattern ← field decString "" "identity_pattern" l;
  depth ← field decInt 0 "ca_chain_depth" l;
  verify ← field decBool false "verify_cert_chain" l;
  cns ← field decStrings [] "allowed_cns" l;
  serials ← field decStrings [] "revoked_serials" l;
  Some (mkX509Config enabled source fld pattern depth verify cns serials).
End CertJSON.

(** How encoding/json treats the structs of the other components. *)
Class ComponentJSON `{GoFloat} (K : Type) := {
  decConnectorConfig : json → option ConnectorConfig;
  connectorInfoJSON : ConnectorInfo → result json;
  decRule : json → option Rule;
  ruleJSON : Rule → result json;
  ruleRowJSON : Rule → result json;
  decBridge : json → option Bridge;
  bridgeJSON : Bridge → result json;
  integrationMetricsJSON : IntegrationMetrics → result json;
  bridgeConnectorJSON : K → result json;
  anyJSON : any → result json;
}.

Section API.
Context `{GoFloat} `{GoUnicode} `{JSONText} {C K P B R : Type} `{!Connector C} `{!BridgeConnector K}
  `{!ComponentJSON K} `{!BrokerInterface B R}.
Context (formatRFC3339 formatDateTime : Time → string) (Title : string → string).
Context (osInfo : OSInfo) (jsonFloat : float64 → result json) (gl : Globals).
Context (execTemplate : string → list (string * tval) → string * option string).
Context (pemDecode : string → option (list byte)) (ParseCertificate : list byte → result X509Cert)
  (sha256_hex_of : list byte → string) (keyPairError : string → string → option string)
  (appendCerts : string → bool).
Context (clock : nat → Time) (actions : gmap string (ActionExecutor C unit)) (Compile : string → option R).

Abbreviation Srv := (Server C K P B).
Abbreviation Handler := (ResponseWriter → Request → Srv → outcome (ResponseWriter * Srv)).
Implicit Types (s : Srv) (w : ResponseWriter) (r : Request) (now : Time).

Definition invalidJSON w : ResponseWriter := http_Error w "Invalid JSON" StatusBadRequest.
Definition badRequest (e : string) w : ResponseWriter := http_Error w e StatusBadRequest.
Definition message (m : string) : string * json := ("message", JString m).

(** ** Certificates *)

Definition handleAPICertificates now : Handler := λ w r s,
  if R_Method r =s MethodGet then
    let certs := ListCertificates (d_certs s) in
    Returns (writeJSON (let? rows := resultSeq (certificateJSON <$> certs) in
      Ok (jmap [("certificates", JArray rows); ("count", JInt (blen certs))])) w, s)
  else if R_Method r =s MethodPost then
    match R_Body r ≫= decCertificate with
    | None => Returns (invalidJSON w, s)
    | Some cert =>
        match AddCertificate pemDecode ParseCertificate sha256_hex_of (d_certs s) cert now with
        | (Some e, cm) => Returns (badRequest e w, set_dcerts cm s)
        | (None, cm) =>
            Returns (writeMap [message "Certificate added successfully"; ("id", JString (C_ID cert))] w,
                     set_dcerts cm s)
        end
    end
  else Returns (notAllowed w, s).

Definition handleAPICertificateByID : Handler := λ w r s,
  let path := TrimPrefix (URL_Path r) "/api/certificates/" in
  if path =s "" then Returns (badRequest "Certificate ID required" w, s)
  else if R_Method r =s MethodGet then
    match GetCertificate (d_certs s) path with
    | Err e => Returns (http_Error w e StatusNotFound, s)
    | Ok cert => Returns (writeJSON (certificateJSON cert) w, s)
    end
  else if R_Method r =s MethodDelete then
    match DeleteCertificate (d_certs s) path with
    | (Some e, cm) => Returns (http_Error w e StatusNotFound, set_dcerts cm s)
    | (None, cm) => Returns (writeMap [message "Certificate deleted successfully"] w, set_dcerts cm s)
    end
  else Returns (notAllowed w, s).

Definition tlsConfigID now : string := ("tls-config-" +:+ pretty (now / Second))%string.

Definition handleAPITLSConfig now : Handler := λ w r s,
  if R_Method r =s MethodPost then
    match R_Body r ≫= decTLSConfig with
    | None => Returns (invalidJSON w, s)
    | Some config =>
        Returns (writeMap [message "TLS configuration added successfully";
                           ("config_id", JString (tlsConfigID now))] w,
                 set_dcerts (SetTLSConfig (d_certs s) (tlsConfigID now) config) s)
    end
  else Returns (notAllowed w, s).

(** The answer is made up from the crypto/tls settings. *)
Definition shownTLSConfig (g : GoTLSConfig) : json :=
  jstruct ([("enabled", JBool true); ("port", JInt 0); ("certfile", JString ""); ("keyfile", JString "");
    ("cacertfile", JString ""); ("verify", JString ""); ("ciphers", JNull); ("versions", JNull);
    ("client_cert_auth", JBool (negb (bool_decide (G_ClientAuth g = NoClientCert))));
    ("reuse_session", JBool false); ("honor_cipher_order", JBool false)]
    ++ omitempty "server_name" (G_ServerName g)).

Definition handleAPITLSConfigByID : Handler := λ w r s,
  let path := TrimPrefix (URL_Path r) "/api/tls-config/" in
  if path =s "" then Returns (badRequest "TLS config ID required" w, s)
  else if R_Method r =s MethodGet then
    match GetTLSConfig keyPairError appendCerts (d_certs s) path with
    | Err e => Returns (http_Error w e StatusNotFound, s)
    | Ok g => Returns (writeJSON (Ok (shownTLSConfig g)) w, s)
    end
  else Returns (notAllowed w, s).

(** The posted configuration is only sent back. *)
Definition handleAPIX509Auth : Handler := λ w r s,
  if R_Method r =s MethodGet then Returns (writeJSON (Ok (x509ConfigJSON DefaultX509Config)) w, s)
  else if R_Method r =s MethodPost then
    match R_Body r ≫= decX509Config with
    | None => Returns (invalidJSON w, s)
    | Some config =>
        Returns (writeMap [message "X.509 authentication configuration updated successfully";
                           ("config", x509ConfigJSON config)] w, s)
    end
  else Returns (notAllowed w, s).

(** ** Connectors *)

Definition noConnectors w s : outcome (ResponseWriter * Srv) :=
  Returns (http_Error w "Connector manager not available" StatusServiceUnavailable, s).

Definition putManager (cm : ConnectorManager C) s : Srv :=
  let wd := d_world s in
  set_dworld (mkWorld (ruleHeap wd) (RuleEngine.rules wd) cm (console wd) (RuleEngine.broker wd) (ticks wd)) s.

Definition connectorRow now (id : string) (conn : C) : outcome json :=
  let! config := con_GetConfig conn in
  let! status := con_Status conn now in
  let! m := con_GetMetrics conn in
  let h := ST_HealthStatus status in
  Returns (jmap [("id", JString id); ("name", JString (CC_Name config)); ("type", JString (CC_Type config));
    ("enabled", JBool (CC_Enabled config)); ("state", JString (stateText (ST_State status)));
    ("created_at", JString (formatRFC3339 (CC_CreatedAt config)));
    ("updated_at", JString (formatRFC3339 (CC_UpdatedAt config)));
    ("description", JString (CC_Description config));
    ("metrics", jmap [("messages_sent", JInt (MessagesSent m)); ("messages_received", JInt (MessagesReceived m));
       ("messages_dropped", JInt (MessagesDropped m)); ("error_count", JInt (ErrorCount m));
       ("success_count", JInt (SuccessCount m))]);
    ("health_status", jmap [("healthy", JBool (Healthy h));
       ("last_check_time", JString (formatRFC3339 (LastCheckTime h)));
       ("message", JString (HS_Message h))])]).

(** An enabled connector is started by a goroutine, which is a step of its own. *)
Definition handleAPIConnectors now : Handler := λ w r s,
  if negb (d_hasConnectors s) then noConnectors w s
  else if R_Method r =s MethodGet then
    let! rows := connectorRows (connectorRow now) s in
    Returns (rowsWithCount "connectors" rows w, s)
  else if R_Method r =s MethodPost then
    match R_Body r ≫= decConnectorConfig with
    | None => Returns (invalidJSON w, s)
    | Some config =>
        let '(cm, _, err) := CreateConnector config now (connManager (d_world s)) in
        match err with
        | Some e => Returns (badRequest e w, putManager cm s)
        | None =>
            Returns (writeMap [message "Connector created successfully"; ("id", JString (CC_ID config))] w,
                     putManager cm s)
        end
    end
  else Returns (notAllowed w, s).

Definition connectorAction (action : string)
    : option (string → Time → ConnectorManager C → outcome (ConnectorManager C * option string)) :=
  if action =s "start" then Some StartConnector
  else if action =s "stop" then Some StopConnector
  else if action =s "restart" then Some RestartConnector
  else None.

(** The end of a call of the manager: its error under a status, or a message. *)
Definition finishManager (o : outcome (ConnectorManager C * option string)) (code : Z) (ok : string) w s
    : outcome (ResponseWriter * Srv) :=
  let! '(cm, err) := o in
  Returns (match err with
           | Some e => http_Error w e code
           | None => writeMap [message ok] w
           end, putManager cm s).

Definition handleAPIConnectorByID now : Handler := λ w r s,
  let path := TrimPrefix (URL_Path r) "/api/connectors/" in
  let cm := connManager (d_world s) in
  if negb (d_hasConnectors s) then noConnectors w s
  else if path =s "" then Returns (badRequest "Connector ID required" w, s)
  else if R_Method r =s MethodGet then
    let! info := GetConnectorInfo path now cm in
    match info with
    | Err e => Returns (http_Error w e StatusNotFound, s)
    | Ok i => Returns (writeJSON (connectorInfoJSON i) w, s)
    end
  else if R_Method r =s MethodPut then
    match R_Body r ≫= decConnectorConfig with
    | None => Returns (invalidJSON w, s)
    | Some config =>
        finishManager (UpdateConnector path config now cm) StatusBadRequest
          "Connector updated successfully" w s
    end
  else if R_Method r =s MethodDelete then
    finishManager (DeleteConnector path now cm) StatusNotFound "Connector deleted successfully" w s
  else if R_Method r =s MethodPost then
    let action := Query_Get r "action" in
    match connectorAction action with
    | None => Returns (badRequest "Invalid action" w, s)
    | Some f =>
        finishManager (f path now cm) StatusBadRequest
          ("Connector " +:+ path +:+ " " +:+ action +:+ "ed successfully")%string w s
    end
  else Returns (notAllowed w, s).

Definition getConnectorTypeDescription (connType : string) : string :=
  if connType =s ConnectorTypeHTTP
  then "HTTP/HTTPS webhook connector for sending messages to external HTTP endpoints"
  else if connType =s ConnectorTypeMySQL
  then "MySQL database connector for storing messages in MySQL database"
  else if connType =s ConnectorTypePostgreSQL
  then "PostgreSQL database connector for storing messages in PostgreSQL database"
  else if connType =s ConnectorTypeRedis
  then "Redis connector for publishing messages to Redis or storing in Redis data structures"
  else if connType =s ConnectorTypeKafka
  then "Apache Kafka connector for publishing messages to Kafka topics"
  else "External system connector".

Definition handleAPIConnectorTypes : Handler := λ w r s,
  if R_Method r <>s MethodGet then Returns (notAllowed w, s)
  else if negb (d_hasConnectors s) then noConnectors w s
  else
    let cm := connManager (d_world s) in
    let rows := omap (λ t,
      match GetConnectorSchema t cm with
      | Err _ => None
      | Ok schema =>
          Some (let? j := anyJSON schema in
                Ok (jmap [("type", JString t); ("name", JString (Title t));
                          ("description", JString (getConnectorTypeDescription t)); ("schema", j)]))
      end) (GetConnectorTypes cm) in
    Returns (writeJSON (let? l := resultSeq rows in
               Ok (jmap [("types", JArray l); ("count", JInt (blen rows))])) w, s).

(** ** Rules

    These handlers drop the error of the encoder. *)

Definition encodeJSON (data : result json) w : ResponseWriter :=
  Encode_dropped data (Header_Set ContentType "application/json" w).

(** A call of the engine that answers an error. *)
Definition ruleCall (m : RM C unit (option string)) (code : Z) (status : option Z) (ok : string) w s
    : outcome (ResponseWriter * Srv) :=
  let! '(err, wd) := m (d_world s) in
  Returns (match err with
           | Some e => http_Error w e code
           | None =>
               let w := Header_Set ContentType "application/json" w in
               let w := match status with Some st => WriteHeader st w | None => w end in
               Encode_dropped (Ok (jmap [message ok])) w
           end, set_dworld wd s).

Definition handleAPIGetRules : Handler := λ w r s,
  let rules := (map_to_list (ListRules (d_world s))).*2 in
  Returns (encodeJSON (let? rows := resultSeq (ruleRowJSON <$> rules) in Ok (JArray rows)) w, s).

Definition handleAPIGetRule (ruleID : string) : Handler := λ w r s,
  let! '(found, wd) := GetRule ruleID (d_world s) in
  match found with
  | Err e => Returns (http_Error w e StatusNotFound, set_dworld wd s)
  | Ok rule => Returns (encodeJSON (ruleJSON rule) w, set_dworld wd s)
  end.

Definition handleAPICreateRule : Handler := λ w r s,
  match R_Body r ≫= decRule with
  | None => Returns (invalidJSON w, s)
  | Some rule =>
      ruleCall (CreateRule clock actions rule) StatusBadRequest (Some StatusCreated)
        "Rule created successfully" w s
  end.
Definition handleAPIUpdateRule (ruleID : string) : Handler := λ w r s,
  match R_Body r ≫= decRule with
  | None => Returns (invalidJSON w, s)
  | Some rule =>
      ruleCall (UpdateRule clock actions ruleID rule) StatusBadRequest None "Rule updated successfully" w s
  end.
Definition handleAPIDeleteRule (ruleID : string) : Handler := λ w r s,
  ruleCall (DeleteRule ruleID) StatusNotFound None "Rule deleted successfully" w s.
Definition handleAPIEnableRule (ruleID : string) : Handler := λ w r s,
  ruleCall (EnableRule clock ruleID) StatusNotFound None "Rule enabled successfully" w s.
Definition handleAPIDisableRule (ruleID : string) : Handler := λ w r s,
  ruleCall (DisableRule clock ruleID) StatusNotFound None "Rule disabled successfully" w s.

Definition handleAPIRules : Handler := λ w r s,
  if R_Method r =s MethodGet then handleAPIGetRules w r s
  else if R_Method r =s MethodPost then handleAPICreateRule w r s
  else Returns (notAllowed w, s).

(** With a second path segment the method is not looked at. *)
Definition handleAPIRuleByID : Handler := λ w r s,
  match strings.Split (TrimPrefix (URL_Path r) "/api/rules/") slash with
  | [] => Returns (badRequest "Rule ID is required" w, s)
  | ruleID :: rest =>
      if ruleID =s "" then Returns (badRequest "Rule ID is required" w, s)
      else
        match rest with
        | action :: _ =>
            if action =s "enable" then handleAPIEnableRule ruleID w r s
            else if action =s "disable" then handleAPIDisableRule ruleID w r s
            else Returns (badRequest "Invalid action" w, s)
        | [] =>
            if R_Method r =s MethodGet then handleAPIGetRule ruleID w r s
            else if R_Method r =s MethodPut then handleAPIUpdateRule ruleID w r s
            else if R_Method r =s MethodDelete then handleAPIDeleteRule ruleID w r s
            else Returns (notAllowed w, s)
        end
  end.

Definition handleAPIActionTypes : Handler := λ w r s,
  Returns (encodeJSON (Ok (JArray (JString <$> GetActionTypes actions))) w, s).

Definition handleAPIActionSchema : Handler := λ w r s,
  let actionType := TrimPrefix (URL_Path r) "/api/action-schemas/" in
  if actionType =s "" then Returns (badRequest "Action type is required" w, s)
  else
    match GetActionSchema actions actionType with
    | Err e => Returns (http_Error w e StatusNotFound, s)
    | Ok schema => Returns (encodeJSON (anyJSON schema) w, s)
    end.

(** ** Bridges *)

Definition noIntegration w s : outcome (ResponseWriter * Srv) :=
  Returns (http_Error w "Integration engine not available" StatusServiceUnavailable, s).

(** The end of a call of the engine. *)
Definition finishEngine (o : option string * DataIntegrationEngine P K) (code : Z) (ok : list (string * json)) w s
    : outcome (ResponseWriter * Srv) :=
  Returns (match o.1 with Some e => http_Error w e code | None => writeMap ok w end,
           set_dintegration o.2 s).

Definition handleAPIBridges now : Handler := λ w r s,
  match d_integration s with
  | None => noIntegration w s
  | Some die =>
      if R_Method r =s MethodGet then
        Returns (writeJSON (let? l := resultSeq (bridgeJSON <$> ListBridges die) in Ok (JArray l)) w, s)
      else if R_Method r =s MethodPost then
        match R_Body r ≫= decBridge with
        | None => Returns (invalidJSON w, s)
        | Some bridge =>
            finishEngine (CreateBridge bridge now die) StatusBadRequest
              [message "Bridge created successfully"; ("id", JString (IntegrationEngine.B_ID bridge))] w s
        end
      else Returns (notAllowed w, s)
  end.

(** With a second path segment the method is not looked at. *)
Definition handleAPIBridgeByID now : Handler := λ w r s,
  match d_integration s with
  | None => noIntegration w s
  | Some die =>
      match strings.Split (TrimPrefix (URL_Path r) "/api/integration/bridges/") slash with
      | [] => Returns (badRequest "Bridge ID required" w, s)
      | bridgeID :: rest =>
          if bridgeID =s "" then Returns (badRequest "Bridge ID required" w, s)
          else
            match rest with
            | action :: _ =>
                if action =s "enable" then
                  finishEngine (EnableBridge bridgeID now die) StatusBadRequest
                    [message "Bridge enabled successfully"] w s
                else if action =s "disable" then
                  finishEngine (DisableBridge bridgeID now die) StatusBadRequest
                    [message "Bridge disabled successfully"] w s
                else Returns (badRequest "Invalid action" w, s)
            | [] =>
                if R_Method r =s MethodGet then
                  match GetBridge bridgeID die with
                  | Err e => Returns (http_Error w e StatusNotFound, s)
                  | Ok bridge => Returns (writeJSON (bridgeJSON bridge) w, s)
                  end
                else if R_Method r =s MethodPut then
                  match R_Body r ≫= decBridge with
                  | None => Returns (invalidJSON w, s)
                  | Some bridge =>
                      finishEngine (UpdateBridge bridgeID bridge now die) StatusBadRequest
                        [message "Bridge updated successfully"] w s
                  end
                else if R_Method r =s MethodDelete then
                  finishEngine (DeleteBridge bridgeID die) StatusNotFound
                    [message "Bridge deleted successfully"] w s
                else Returns (notAllowed w, s)
            end
      end
  end.

Definition handleAPIIntegrationConnectors : Handler := λ w r s,
  if R_Method r <>s MethodGet then Returns (notAllowed w, s)
  else
    match d_integration s with
    | None => noIntegration w s
    | Some die =>
        let rows := bridgeConnectorJSON <$> IntegrationEngine.ListConnectors die in
        Returns (writeJSON (let? l := resultSeq rows in Ok (JArray l)) w, s)
    end.

Definition handleAPIIntegrationMetrics : Handler := λ w r s,
  if R_Method r <>s MethodGet then Returns (notAllowed w, s)
  else
    match d_integration s with
    | None => noIntegration w s
    | Some die =>
        let '(m, die) := IntegrationEngine.GetMetrics die in
        Returns (writeJSON (integrationMetricsJSON m) w, set_dintegration die s)
    end.

(** ** The blacklist of the dashboard

    The data are made up: nothing is stored, and the blacklist of the broker is not involved. *)

Definition mockEntry (id type value reason : string) (at_ : Time) : json :=
  jmap [("id", JString id); ("type", JString type); ("value", JString value); ("action", JString "deny");
        ("reason", JString reason); ("enabled", JBool true);
        ("created_at", JString (formatRFC3339 at_)); ("updated_at", JString (formatRFC3339 at_))].

Definition codeMessage (m : string) (data : list (string * json)) : list (string * json) :=
  [("code", JInt 0); message m] ++ data.

(** The test on a nil or missing value. *)
Definition lacks (m : gmap string json) (k : string) : bool :=
  match m !! k with None | Some JNull => true | Some _ => false end.

Definition handleAPIBlacklist now : Handler := λ w r s,
  if R_Method r =s MethodGet then
    let typeFilter := Query_Get r "type" in
    let entries :=
      [("clientid", mockEntry "demo-blocked-client" "clientid" "malicious-client"
          "Suspicious behavior detected" (now - Hour));
       ("username", mockEntry "demo-blocked-user" "username" "baduser" "Account compromised" (now - 2 * Hour))] in
    let entries := if typeFilter <>s "" then List.filter (λ e, e.1 =s typeFilter) entries else entries in
    Returns (rowsWithCount "data" entries.*2 w, s)
  else if R_Method r =s MethodPost then
    match R_Body r ≫= λ j, decMap j None with
    | None => Returns (invalidJSON w, s)
    | Some m =>
        let entry := default ∅ m in
        if lacks entry "type" || lacks entry "action"
        then Returns (badRequest "Type and action are required" w, s)
        else
          let stamp := JString (formatRFC3339 now) in
          let entry := <["updated_at" := stamp]> (<["created_at" := stamp]>
            (<["id" := JString ("blacklist-entry-" +:+ pretty now)%string]> entry)) in
          let w := WriteHeader StatusCreated w in
          Returns (writeMap (codeMessage "Blacklist entry created successfully"
                               [("data", mapJSON (Some entry))]) w, s)
    end
  else Returns (notAllowed w, s).

(** Assigning to a nil map is a panic. *)
Definition handleAPIBlacklistByID now : Handler := λ w r s,
  let path := TrimPrefix (URL_Path r) "/api/blacklist/" in
  if path =s "" then Returns (badRequest "Blacklist entry ID required" w, s)
  else if R_Method r =s MethodGet then
    let entry := mockEntry path "clientid" "demo-client" "Demo entry" (now - Hour) in
    Returns (writeMap (codeMessage "success" [("data", entry)]) w, s)
  else if R_Method r =s MethodPut then
    match R_Body r ≫= λ j, decMap j None with
    | None => Returns (invalidJSON w, s)
    | Some None => Panics
    | Some (Some updates) =>
        let updates := <["updated_at" := JString (formatRFC3339 now)]> updates in
        Returns (writeMap (codeMessage "Blacklist entry updated successfully"
                             [("data", mapJSON (Some updates))]) w, s)
    end
  else if R_Method r =s MethodDelete then
    let w := WriteHeader StatusNoContent w in
    Returns (writeMap (codeMessage "Blacklist entry deleted successfully" []) w, s)
  else Returns (notAllowed w, s).

Definition handleAPIBlacklistStats now : Handler := λ w r s,
  if R_Method r <>s MethodGet then Returns (notAllowed w, s)
  else
    let block := jmap [("timestamp", JString (formatRFC3339 (now - 5 * Minute)));
      ("client_id", JString "malicious-client"); ("reason", JString "Blocked by clientid blacklist");
      ("entry_type", JString "clientid")] in
    let stats := jmap [("total_entries", JInt 2);
      ("entries_by_type", jmap [("clientid", JInt 1); ("username", JInt 1); ("ip", JInt 0); ("topic", JInt 0)]);
      ("recent_blocks", JArray [block])] in
    Returns (writeMap (codeMessage "success" [("data", stats)]) w, s).

(** ** Routes *)

(** The file server of the static files: what it answers to a request. *)
Context (serveStatic : ResponseWriter → Request → ResponseWriter).

(** [setupRoutes]: pattern, whether it goes through [authMiddleware], and the handler. *)
Definition routes now : list (string * (bool * Handler)) :=
  [("/static/", (false, λ w r s, Returns (serveStatic w r, s)));
   ("/", (true, handleDashboard formatRFC3339 formatDateTime osInfo gl execTemplate now));
   ("/dashboard", (true, handleDashboard formatRFC3339 formatDateTime osInfo gl execTemplate now));
   ("/connections", (true, Dashboard.handleConnections formatRFC3339 execTemplate now));
   ("/sessions", (true, Dashboard.handleSessions formatRFC3339 execTemplate now));
   ("/subscriptions", (true, Dashboard.handleSubscriptions formatRFC3339 execTemplate now));
   ("/monitoring", (true, handleMonitoring formatRFC3339 osInfo gl execTemplate now));
   ("/blacklist", (true, Dashboard.handleBlacklist formatDateTime execTemplate now));
   ("/certificates", (true, handleCertificates execTemplate));
   ("/tls-config", (true, handleTLSConfig execTemplate));
   ("/connectors", (true, handleConnectors formatDateTime execTemplate now));
   ("/rules", (true, handleRules execTemplate));
   ("/integration", (true, handleIntegration execTemplate));
   ("/login", (false, handleLogin execTemplate now));
   ("/logout", (false, handleLogout now));
   ("/api/dashboard/stats", (true, handleAPIStats formatRFC3339 now));
   ("/api/dashboard/connections", (true, handleAPIConnections formatRFC3339 now));
   ("/api/dashboard/sessions", (true, handleAPISessions formatRFC3339 now));
   ("/api/dashboard/subscriptions", (true, handleAPISubscriptions));
   ("/api/dashboard/health", (true, handleAPIHealth osInfo jsonFloat gl now));
   ("/api/blacklist", (true, handleAPIBlacklist now));
   ("/api/blacklist/", (true, handleAPIBlacklistByID now));
   ("/api/blacklist/stats", (true, handleAPIBlacklistStats now));
   ("/api/certificates", (true, handleAPICertificates now));
   ("/api/certificates/", (true, handleAPICertificateByID));
   ("/api/tls-config", (true, handleAPITLSConfig now));
   ("/api/tls-config/", (true, handleAPITLSConfigByID));
   ("/api/x509-auth", (true, handleAPIX509Auth));
   ("/api/connectors", (true, handleAPIConnectors now));
   ("/api/connectors/", (true, handleAPIConnectorByID now));
   ("/api/connector-types", (true, handleAPIConnectorTypes));
   ("/api/rules", (true, handleAPIRules));
   ("/api/rules/", (true, handleAPIRuleByID));
   ("/api/action-types", (true, handleAPIActionTypes));
   ("/api/action-schemas/", (true, handleAPIActionSchema));
   ("/api/integration/bridges", (true, handleAPIBridges now));
   ("/api/integration/bridges/", (true, handleAPIBridgeByID now));
   ("/api/integration/connectors", (true, handleAPIIntegrationConnectors));
   ("/api/integration/metrics", (true, handleAPIIntegrationMetrics));
   ("/api/v5/", (true, proxyAdminAPI formatRFC3339 Compile now))].

Definition setupRoutes now (mux : list (string * (bool * Handler))) : outcome (list (string * (bool * Handler))) :=
  mux_register mux (routes now).

(** One request to the server. *)
Definition serve now r s : outcome (ResponseWriter * Srv) :=
  match mux_match (routes now) (URL_Path r) with
  | Some (_, (authenticated, h)) =>
      if authenticated then authMiddleware h now newWriter r s else h newWriter r s
  | None => Returns (http_NotFound newWriter, s)
  end.
End API.
