(* ===== verification/DashboardProps.v ===== *)
(** * DashboardProps: what the web interface lets through and does

    The gate of the dashboard ([dashboard_gate]); rules that change on a GET
    ([rule_switched_by_any_method]); certificates with their keys ([certificate_upload]); TLS
    settings that replace each other ([tls_config_collision]); the blacklist that is not one
    ([dashboard_blacklist_inert]). *)

From S2P Require Import Prelude GoLib GoValue GoJSON GoHTTP TopicMatch Blacklist RuleSQL RuleEval.
From S2P Require Import Connector RuleEngine Integration IntegrationEngine Metrics Health Certs Admin Dashboard DashboardAPI.
Local Open Scope emqx_scope.
Local Open Scope Z_scope.

Section Gate.
Context `{GoFloat} `{GoUnicode} `{JSONText} {C K P B R : Type} `{!Connector C} `{!BridgeConnector K}
  `{!ComponentJSON K} `{!BrokerInterface B R}.
Context (formatRFC3339 formatDateTime : Time → string) (Title : string → string).
Context (osInfo : OSInfo) (jsonFloat : float64 → result json) (gl : Globals).
Context (execTemplate : string → list (string * tval) → string * option string).
Context (pemDecode : string → option (list byte)) (ParseCertificate : list byte → result X509Cert)
  (sha256_hex_of : list byte → string) (keyPairError : string → string → option string)
  (appendCerts : string → bool).
Context (clock : nat → Time) (actions : gmap string (ActionExecutor C unit)) (Compile : string → option R).
Context (serveStatic : ResponseWriter → Request → ResponseWriter).
Abbreviation Srv := (Server C K P B).
Implicit Types (s : Srv) (w : ResponseWriter) (r : Request) (now : Time).

Abbreviation routesAt := (routes (P := P) formatRFC3339 formatDateTime Title osInfo jsonFloat gl
  execTemplate pemDecode ParseCertificate sha256_hex_of keyPairError appendCerts clock actions Compile serveStatic).
Abbreviation serveAt := (DashboardAPI.serve (P := P) formatRFC3339 formatDateTime Title osInfo jsonFloat gl
  execTemplate pemDecode ParseCertificate sha256_hex_of keyPairError appendCerts clock actions Compile serveStatic).

(** The requests that pass the gate: authentication is off, the first session cookie is a
    fixed word, or the basic credentials are the configured ones. *)
Definition admitted s r : Prop :=
  D_EnableAuth (d_config s) = false ∨
  Cookie r "dashboard_session" = Some "valid_session_token" ∨
  R_BasicAuth r = Some (D_Username (d_config s), D_Password (d_config s)).

Lemma authMiddleware_admitted (next : ResponseWriter → Request → Srv → outcome (ResponseWriter * Srv)) now w r s :
  admitted s r → unsent w → ∃ w0, unsent w0 ∧ authMiddleware next now w r s = next w0 r s.
Proof.
  intros Ha Hw. unfold authMiddleware. destruct (D_EnableAuth (d_config s)) eqn:Ee; simpl; [|by eauto].
  destruct Ha as [Ha|[Ha|Ha]]; [congruence| |].
  - unfold sessionCookie. rewrite Ha. cbn. by eauto.
  - destruct (match Cookie r sessionCookie with Some v => validateSession v | None => false end); [by eauto|].
    rewrite Ha. unfold validateCredentials. rewrite !bool_decide_eq_true_2 by done. cbn [andb].
    exists (setSessionCookie now w). split; [by apply unsent_SetCookie|done].
Qed.

Lemma authMiddleware_refused (next : ResponseWriter → Request → Srv → outcome (ResponseWriter * Srv)) now w r s :
  ¬ admitted s r → unsent w →
  ∃ w', authMiddleware next now w r s = Returns (w', s) ∧
    status w' = Some (if strings.HasPrefix (URL_Path r) "/api/" then StatusUnauthorized else StatusFound).
Proof.
  intros Ha Hw. unfold authMiddleware, admitted in *.
  destruct (D_EnableAuth (d_config s)) eqn:Ee; simpl; [|by destruct Ha; left].
  replace (match Cookie r sessionCookie with Some v => validateSession v | None => false end) with false.
  2: { symmetry. unfold sessionCookie, validateSession, sessionToken. destruct (Cookie r "dashboard_session") eqn:Ec; [|done].
       apply bool_decide_false. intros ->. destruct Ha. by right; left. }
  replace (match R_BasicAuth r with Some (u, p) => validateCredentials s u p | None => false end) with false.
  2: { symmetry. destruct (R_BasicAuth r) as [[u p]|] eqn:Eb; [|done]. unfold validateCredentials.
       destruct (u =s _) eqn:E1; [|done]. apply bool_decide_false. intros ->. bool_prop. subst u.
       destruct Ha. by right; right. }
  destruct (strings.HasPrefix (URL_Path r) "/api/"); eexists; (split; [reflexivity|]).
  - apply status_http_Error. by apply unsent_Header_Set.
  - by apply status_http_Redirect.
Qed.

Definition openPatterns : list string := ["/static/"; "/login"; "/logout"].

Lemma routes_gated now :
  forallb (λ e, Bool.eqb e.2.1 (negb (bool_decide (e.1 ∈ openPatterns)))) (routesAt now) = true.
Proof. reflexivity. Qed.

Lemma serve_admitted now r s pattern gated h :
  mux_match (routesAt now) (URL_Path r) = Some (pattern, (gated, h)) → gated = false ∨ admitted s r →
  ∃ w0, unsent w0 ∧ serveAt now r s = h w0 r s.
Proof.
  intros Hm. unfold DashboardAPI.serve. rewrite Hm. intros [->|Ha]; [by exists newWriter|].
  destruct gated; [by apply authMiddleware_admitted|]. by exists newWriter.
Qed.

(** The two routes of the rules. *)
Lemma route_rules now : mux_match (routesAt now) "/api/rules" = Some ("/api/rules", (true, handleAPIRules clock actions)).
Proof. reflexivity. Qed.

Lemma route_ruleByID now id :
  mux_match (routesAt now) ("/api/rules/" +:+ id)%string =
  Some ("/api/rules/", (true, handleAPIRuleByID clock actions)).
Proof.
  apply mux_match_intro; [unfold routes; repeat first [by left|right]|apply HasPrefix_app|].
  intros p' h' Hin Hp. unfold routes in Hin.
  repeat (apply elem_of_cons in Hin as [[= -> ->]|Hin];
    [first [by left | right; simpl; lia | vm_compute in Hp; discriminate]|]).
  by apply not_elem_of_nil in Hin.
Qed.

(** C36. The gate of the dashboard: whatever route a request takes, if the route is not the
    static files, login or logout and the request is not admitted, it is answered with 401
    below /api/ and with a redirection elsewhere, and nothing changes; otherwise the handler
    of the route answers.  Admission by cookie does not depend on the server: the session
    cookie with its fixed value passes under every configuration, before any login and after
    every logout. *)
Theorem dashboard_gate now r s pattern gated h :
  mux_match (routesAt now) (URL_Path r) = Some (pattern, (gated, h)) →
  (gated = false ↔ pattern ∈ openPatterns) ∧
  (gated = true → ¬ admitted s r →
     ∃ w, serveAt now r s = Returns (w, s) ∧
       status w = Some (if strings.HasPrefix (URL_Path r) "/api/" then StatusUnauthorized else StatusFound)) ∧
  (gated = false ∨ admitted s r → ∃ w0, unsent w0 ∧ serveAt now r s = h w0 r s) ∧
  (Cookie r "dashboard_session" = Some "valid_session_token" → ∀ s', admitted s' r).
Proof.
  intros Hm. split_and!.
  - apply mux_match_Some in Hm as [Hin _].
    pose proof (proj1 (forallb_forall _ _) (routes_gated now) _ (proj1 (list_elem_of_In _ _) Hin)) as Hg.
    cbn [fst snd] in Hg. apply Bool.eqb_prop in Hg as ->.
    rewrite negb_false_iff. by rewrite bool_decide_eq_true.
  - intros -> Ha. unfold DashboardAPI.serve. rewrite Hm. by apply authMiddleware_refused.
  - by eapply serve_admitted.
  - intros Hc s'. by right; left.
Qed.

(** ** Rules *)

Lemma split_action id action :
  byte_free slash id → byte_free slash action →
  strings.Split (TrimPrefix ("/api/rules/" +:+ (id +:+ String slash action)) "/api/rules/") slash = [id; action].
Proof.
  intros Hid Ha. unfold TrimPrefix. rewrite HasPrefix_app.
  change (dropBytes _ _) with (Some (id +:+ String slash action)). simpl.
  rewrite Split_app_free by done. by rewrite Split_free.
Qed.

Lemma status_encodeJSON data w : unsent w → is_Ok data = true → status (encodeJSON data w) = Some StatusOK.
Proof.
  intros Hw Hd. destruct data as [j|]; [|done]. unfold encodeJSON, Encode_dropped, Encode.
  pose proof (status_Write (Header_Set ContentType "application/json" w) (CJson j)) as Hs.
  destruct (Write _ _) as [ok w']. simpl in *. rewrite Hs. apply status_WriteHeader. by apply unsent_Header_Set.
Qed.

(** The status that the second path segment asks for. *)
Definition switch (st : RuleStatus) : string :=
  match st with RuleStatusEnabled => "enable" | _ => "disable" end.

(** Switching a rule: a request to /api/rules/ID/enable or /api/rules/ID/disable changes
    the status of the rule and nothing else of any rule, and answers 200 - whatever its method
    is, so that a GET, which a link or an image can cause, switches rules off. *)
Theorem rule_switched_by_any_method r s id p rule st :
  id ≠ "" → byte_free slash id → st ∈ [RuleStatusEnabled; RuleStatusDisabled] →
  URL_Path r = ("/api/rules/" +:+ (id +:+ String slash (switch st)))%string →
  RuleEngine.rules (d_world s) !! id = Some p → ruleHeap (d_world s) !! p = Some rule →
  (∀ id', RuleEngine.rules (d_world s) !! id' = Some p → id' = id) →
  ∃ w s', handleAPIRuleByID clock actions newWriter r s = Returns (w, s') ∧ status w = Some StatusOK ∧
    ListRules (d_world s') = <[id := withStatus st (clock (ticks (d_world s))) rule]> (ListRules (d_world s)).
Proof.
  intros Hne Hid Hst Hpath Hr Hh Huniq. unfold handleAPIRuleByID. rewrite Hpath.
  rewrite split_action by (done || by destruct st).
  rewrite (bool_decide_false (P := id = "")) by done.
  assert (∀ sv, setRuleStatus clock st id (d_world s) = Returns sv →
    ∃ w s', ruleCall (setRuleStatus clock st id) StatusNotFound None
      (if bool_decide (st = RuleStatusEnabled) then "Rule enabled successfully" else "Rule disabled successfully")
      newWriter s = Returns (w, s') ∧ status w = Some StatusOK ∧ d_world s' = sv.2 ∧ sv.1 = None) as Hcall.
  { intros [err wd] Hsv. unfold ruleCall. rewrite Hsv. simpl.
    assert (err = None) as ->.
    { revert Hsv. unfold setRuleStatus, gets, derefRule, Now, putRule, mbind, RM_bind. simpl.
      rewrite Hr. simpl. rewrite Hh. simpl. by intros [= <- _]. }
    eexists _, _. split; [reflexivity|]. split; [by apply status_encodeJSON|done]. }
  destruct (Hcall (None, mkWorld (<[p := withStatus st (clock (ticks (d_world s))) rule]> (ruleHeap (d_world s)))
      (RuleEngine.rules (d_world s)) (connManager (d_world s)) (console (d_world s))
      (RuleEngine.broker (d_world s)) (S (ticks (d_world s))))) as (w & s' & Hc & Hs & Hw & _).
  { unfold setRuleStatus, gets, derefRule, Now, putRule, mbind, RM_bind. simpl. rewrite Hr. simpl.
    by rewrite Hh. }
  exists w, s'. split; [|split; [done|]].
  - apply elem_of_cons in Hst as [->|Hst]; [done|]. by apply list_elem_of_singleton in Hst as ->.
  - rewrite Hw. unfold ListRules. cbn [snd RuleEngine.rules ruleHeap]. apply map_eq. intros k.
    destruct (decide (k = id)) as [->|Hk].
    + rewrite lookup_insert_eq, lookup_omap, Hr. simpl. by rewrite lookup_insert_eq.
    + rewrite lookup_insert_ne by done. rewrite !lookup_omap.
      destruct (RuleEngine.rules (d_world s) !! k) as [p'|] eqn:Ek; [|done]. simpl.
      rewrite lookup_insert_ne; [done|]. intros ->. by apply Hk, Huniq.
Qed.

(** ** Certificates *)

Lemma writeJSON_sent j w :
  unsent w →
  status (writeJSON (Ok j) w) = Some StatusOK ∧ W_Body (writeJSON (Ok j) w) = [CJson j] ∧
  sentHeader ContentType (writeJSON (Ok j) w) = Some "application/json".
Proof.
  intros [Hs Hb]. unfold writeJSON, Encode, Write, WriteHeader. simpl. rewrite Hs. simpl.
  rewrite Hb. split_and!; [done|done|]. unfold sentHeader. simpl. by rewrite lookup_insert_eq.
Qed.

(** Uploading a certificate: a well-formed upload is stored under its identifier with
    subject, issuer, dates and fingerprint read from the certificate, and a GET of that
    identifier shows it - with the private key that was uploaded. *)
Theorem certificate_upload now r s cert info :
  R_Method r = MethodPost → R_Body r ≫= decCertificate = Some cert → C_ID cert ≠ "" →
  parseCertificate pemDecode ParseCertificate sha256_hex_of (C_Content cert) = Ok info →
  ∃ w s' stored,
    handleAPICertificates pemDecode ParseCertificate sha256_hex_of now newWriter r s = Returns (w, s') ∧
    status w = Some StatusOK ∧
    C_ID stored = C_ID cert ∧ C_Fingerprint stored = I_Fingerprint info ∧ C_Subject stored = I_Subject info ∧
    C_Issuer stored = I_Issuer info ∧ C_NotAfter stored = I_NotAfter info ∧
    (∀ r', R_Method r' = MethodGet → URL_Path r' = ("/api/certificates/" +:+ C_ID cert)%string →
       handleAPICertificateByID newWriter r' s' = Returns (writeJSON (certificateJSON stored) newWriter, s')) ∧
    (∀ j, certificateJSON stored = Ok j → C_Key cert ≠ "" →
       ∃ l, j = JObject l ∧ ("key", JString (C_Key cert)) ∈ l).
Proof.
  intros Hr Hb Hid Hp. unfold handleAPICertificates. rewrite Hr, Hb. cbn -[AddCertificate].
  unfold AddCertificate. rewrite (bool_decide_false (P := C_ID cert = "")) by done. rewrite Hp.
  eexists _, _, (mkCertificate (C_ID cert) (C_CertName cert) (C_Type cert) (C_Content cert) (C_Key cert)
    (C_Chain cert) (I_Fingerprint info) (I_Subject info) (I_Issuer info) (I_NotBefore info) (I_NotAfter info)
    (match C_CreatedAt cert with None => Some now | Some t => Some t end) (Some now) (C_Enabled cert)).
  split; [reflexivity|]. split; [reflexivity|].
  do 5 (split; [reflexivity|]). split.
  - intros r' Hr' Hpath. unfold handleAPICertificateByID. rewrite Hr', Hpath.
    assert (TrimPrefix ("/api/certificates/" +:+ C_ID cert) "/api/certificates/" = C_ID cert) as ->.
    { unfold TrimPrefix. by rewrite HasPrefix_app. }
    rewrite (bool_decide_false (P := C_ID cert = "")) by done. cbn -[certificateJSON].
    unfold GetCertificate. cbn -[certificateJSON]. by rewrite lookup_insert_eq.
  - intros j Hj Hkey. unfold certificateJSON in Hj.
    repeat (apply result_bind_Ok in Hj as (? & ? & Hj)). injection Hj as <-.
    eexists. split; [reflexivity|]. simpl. unfold omitempty.
    rewrite (bool_decide_false (P := C_Key cert = "")) by done. simpl. do 4 right. left.
Qed.

(** TLS settings are named by the second: two settings that are posted within the same
    second get the same identifier, and the first is lost without an error. *)
Theorem tls_config_collision now1 now2 r1 r2 s config1 config2 :
  R_Method r1 = MethodPost → R_Body r1 ≫= decTLSConfig = Some config1 →
  R_Method r2 = MethodPost → R_Body r2 ≫= decTLSConfig = Some config2 → now1 / Second = now2 / Second →
  ∃ w1 s1 w2 s2,
    handleAPITLSConfig now1 newWriter r1 s = Returns (w1, s1) ∧ status w1 = Some StatusOK ∧
    handleAPITLSConfig now2 newWriter r2 s1 = Returns (w2, s2) ∧ W_Body w2 = W_Body w1 ∧
    configs (d_certs s2) = <[tlsConfigID now1 := config2]> (configs (d_certs s)).
Proof.
  intros Hr1 Hb1 Hr2 Hb2 Hsec. unfold handleAPITLSConfig. rewrite Hr1, Hb1, Hr2, Hb2. cbn -[writeMap].
  eexists _, _, _, _. split; [reflexivity|]. split; [by apply writeJSON_sent|]. split; [reflexivity|].
  assert (tlsConfigID now2 = tlsConfigID now1) as Hid by (unfold tlsConfigID; by rewrite Hsec).
  rewrite Hid. split; [done|]. cbn. by rewrite insert_insert_eq.
Qed.

(** ** The blacklist of the dashboard *)

(** The blacklist of the dashboard stores nothing: its endpoints never change the server
    - the broker's blacklist included - although a creation is answered with 201 and a
    deletion with 204; the content type of the 201 is not sent, the 204 has no body, and an
    update whose body is null is a panic. *)
Theorem dashboard_blacklist_inert now r s :
  (∀ w s', handleAPIBlacklist formatRFC3339 now newWriter r s = Returns (w, s') ∨
           handleAPIBlacklistByID formatRFC3339 now newWriter r s = Returns (w, s') → s' = s) ∧
  (∀ m, R_Method r = MethodPost → R_Body r ≫= (λ j, decMap j None) = Some (Some m) →
     lacks m "type" = false → lacks m "action" = false →
     ∃ w, handleAPIBlacklist formatRFC3339 now newWriter r s = Returns (w, s) ∧
       status w = Some StatusCreated ∧ sentHeader ContentType w = None) ∧
  (∀ id, id ≠ "" → URL_Path r = ("/api/blacklist/" +:+ id)%string →
     (R_Method r = MethodDelete →
        ∃ w, handleAPIBlacklistByID formatRFC3339 now newWriter r s = Returns (w, s) ∧
          status w = Some StatusNoContent ∧ W_Body w = []) ∧
     (R_Method r = MethodPut → R_Body r = Some JNull →
        handleAPIBlacklistByID formatRFC3339 now newWriter r s = Panics)).
Proof.
  split_and!.
  - intros w s' [Hh|Hh]; revert Hh; unfold handleAPIBlacklist, handleAPIBlacklistByID;
      repeat case_match; simplify_eq/=; congruence.
  - intros m Hr Hb Ht Ha. unfold handleAPIBlacklist. rewrite Hr, Hb. cbn -[writeMap mapJSON codeMessage].
    rewrite Ht, Ha. eexists. split; [reflexivity|]. done.
  - intros id Hid Hpath.
    assert (TrimPrefix (URL_Path r) "/api/blacklist/" = id) as Htrim.
    { rewrite Hpath. unfold TrimPrefix. by rewrite HasPrefix_app. }
    split.
    + intros Hr. unfold handleAPIBlacklistByID. rewrite Htrim, Hr.
      rewrite (bool_decide_false (P := id = "")) by done. eexists. split; [reflexivity|]. done.
    + intros Hr Hb. unfold handleAPIBlacklistByID. rewrite Htrim, Hr, Hb.
      by rewrite (bool_decide_false (P := id = "")).
Qed.
End Gate.

(** ** Witnesses *)

Section Witness.
Definition noFloatJSON : @float64 intFloat → result json := λ _, Ok JNull.

#[local] Instance noConnector : @Connector intFloat Empty_set := {
  Start c := match c with end; Stop c := match c with end; Restart c := match c with end;
  con_Status c := match c with end; HealthCheck c := match c with end; con_IsRunning c := match c with end;
  Send c := match c with end; SendBatch c := match c with end; con_GetConfig c := match c with end;
  con_UpdateConfig c := match c with end; con_GetMetrics c := match c with end;
  con_ResetMetrics c := match c with end; Close c := match c with end;
}.
#[local] Instance noBridgeConnector : @BridgeConnector intFloat Empty_set := {
  bc_ID c := match c with end; bc_IsConnected c := match c with end; bc_Connect c := match c with end;
  bc_Disconnect c := match c with end; bc_Send _ _ c := match c with end;
}.
#[local] Instance noJSON : @ComponentJSON intFloat Empty_set := {
  decConnectorConfig _ := None; connectorInfoJSON _ := Ok JNull; decRule _ := None; ruleJSON _ := Ok JNull;
  ruleRowJSON _ := Ok JNull; decBridge _ := None; bridgeJSON _ := Ok JNull;
  integrationMetricsJSON _ := Ok JNull; bridgeConnectorJSON c := match c with end; anyJSON _ := Ok JNull;
}.

Definition sampleRule : @Rule intFloat :=
  mkRule "r1" "n" "" "SELECT * FROM t" [] RuleStatusEnabled 0 0 0 noMetrics ∅.
Definition sampleWorld : @World intFloat Empty_set unit :=
  mkWorld {[1%positive := sampleRule]} {["r1" := 1%positive]} NewConnectorManager [] tt 0.
Definition sampleDashboard : @Server intFloat Empty_set Empty_set unit unit :=
  mkServer Dashboard.DefaultConfig None false (NewMetricsManager 0) [] (NewHealthChecker 0) NewCertificateManager true
    sampleWorld None.

#[local] Instance noBroker : BrokerInterface unit unit := {
  GetConnections _ _ := []; GetSessions _ _ := []; GetSubscriptions _ := []; GetRoutes _ := [];
  DisconnectClient _ b := (None, b); KickoutSession _ b := (None, b);
  GetNodeInfo _ _ := mkNodeInfo "" "" "" "" 0 0 (mkSysMonInfo 0 0 0 0 "" "" "" "");
  GetClusterNodes _ _ := []; GetBlacklistMiddleware _ := None; with_blacklist _ b := b;
}.

Definition sampleDelete : Request :=
  mkRequest "DELETE" "/api/certificates/c1" ∅ None ∅ (Some ("admin", "wrong")) [].

Lemma sampleDelete_refused : ¬ admitted sampleDashboard sampleDelete.
Proof. intros [Ha|[Ha|Ha]]; discriminate. Qed.

Lemma dashboard_gate_witness :
  ∃ w, @DashboardAPI.serve intFloat asciiUnicode digitsJSON _ _ unit unit unit _ _ _ _ (λ _, "") (λ _, "") id
         (mkOSInfo "" "" "" 0 "") noFloatJSON (mkGlobals 0 "" "") (λ _ _, ("", None)) (λ _, None)
         (λ _, Err "") (λ _, "") (λ _ _, None) (λ _, true) (λ _, 0) ∅ (λ _, None) (λ w _, w) 5
         sampleDelete sampleDashboard = Returns (w, sampleDashboard) ∧ status w = Some StatusUnauthorized.
Proof.
  destruct (@dashboard_gate intFloat asciiUnicode digitsJSON _ _ unit unit unit _ _ _ _ (λ _, "") (λ _, "") id
         (mkOSInfo "" "" "" 0 "") noFloatJSON (mkGlobals 0 "" "") (λ _ _, ("", None)) (λ _, None)
         (λ _, Err "") (λ _, "") (λ _ _, None) (λ _, true) (λ _, 0) ∅ (λ _, None) (λ w _, w) 5
         sampleDelete sampleDashboard "/api/certificates/" true (@handleAPICertificateByID intFloat digitsJSON _ _ _ _))
    as (_ & Hrefused & _); [reflexivity|].
  exact (Hrefused eq_refl sampleDelete_refused).
Defined.

Lemma rule_switched_by_any_method_witness :
  ∃ w s', @handleAPIRuleByID intFloat asciiUnicode _ _ unit unit _ (λ _, 7) ∅ newWriter
            (mkRequest "GET" "/api/rules/r1/disable" ∅ None ∅ None []) sampleDashboard = Returns (w, s') ∧
    (@R_Status intFloat <$> (ListRules (d_world s') : gmap string (@Rule intFloat)) !! "r1") = Some RuleStatusDisabled.
Proof.
  destruct (@rule_switched_by_any_method intFloat asciiUnicode _ _ unit unit _ (λ _, 7) ∅
    (mkRequest "GET" "/api/rules/r1/disable" ∅ None ∅ None []) sampleDashboard "r1" 1 sampleRule
    RuleStatusDisabled) as (w & s' & Hh & _ & Hl);
    [discriminate|reflexivity|right; left|reflexivity|reflexivity|reflexivity| |].
  - intros id' Hid. change (({["r1" := 1%positive]} : gmap string positive) !! id' = Some 1%positive) in Hid.
    apply lookup_singleton_Some in Hid as [<- _]. reflexivity.
  - exists w, s'. split; [exact Hh|]. rewrite Hl, lookup_insert_eq. reflexivity.
Defined.
End Witness.
