(* ===== verification/StructJSON.v ===== *)
(** * StructJSON: rules and connectors as JSON (pkg/rules/engine.go, pkg/connector/connector.go)

    The texts that the dashboard reads and writes for rules, connector configurations and
    connector states, field by field.  Rule and ConnectorConfig have [MarshalJSON] and
    [UnmarshalJSON] of their own: an outer struct writes the two times as texts in seconds
    and shadows the times of the embedded one.  Errors of the encoder appear only in the
    log, so their texts are not told apart. *)

From S2P Require Import Prelude GoLib GoValue GoJSON GoHTTP Connector RuleSQL RuleEngine.
From S2P Require Import Integration IntegrationEngine Admin Dashboard DashboardAPI.
Local Open Scope emqx_scope.
Local Open Scope Z_scope.

(** ** Names of states *)

Definition ruleStatusText (s : RuleStatus) : string :=
  match s with
  | RuleStatusEnabled => "enabled"
  | RuleStatusDisabled => "disabled"
  | RuleStatusStopped => "stopped"
  | RuleStatusFailed => "failed"
  | RuleStatusOther s => s
  end.
Definition ruleStatusOf (s : string) : RuleStatus :=
  if s =s "enabled" then RuleStatusEnabled
  else if s =s "disabled" then RuleStatusDisabled
  else if s =s "stopped" then RuleStatusStopped
  else if s =s "failed" then RuleStatusFailed
  else RuleStatusOther s.

(** ** encoding/base64, the form of bytes in JSON *)

Definition base64Alphabet : string := "ABCDEFGHIJKLMNOPQRSTUVWXYZabcdefghijklmnopqrstuvwxyz0123456789+/".
Definition base64Digit (n : Z) : string :=
  match String.get (Z.to_nat n) base64Alphabet with Some c => String c "" | None => "" end.
Fixpoint base64 (l : list Z) : string :=
  match l with
  | [] => ""
  | [a] => base64Digit (Z.shiftr a 2) +:+ base64Digit (Z.shiftl (Z.land a 3) 4) +:+ "=="
  | [a; b] =>
      base64Digit (Z.shiftr a 2) +:+ base64Digit (Z.lor (Z.shiftl (Z.land a 3) 4) (Z.shiftr b 4)) +:+
      base64Digit (Z.shiftl (Z.land b 15) 2) +:+ "="
  | a :: b :: c :: l' =>
      base64Digit (Z.shiftr a 2) +:+ base64Digit (Z.lor (Z.shiftl (Z.land a 3) 4) (Z.shiftr b 4)) +:+
      base64Digit (Z.lor (Z.shiftl (Z.land b 15) 2) (Z.shiftr c 6)) +:+ base64Digit (Z.land c 63) +:+ base64 l'
  end%string.

(** Entries of a map by their keys. *)
Fixpoint insertNamed {A} (k : string) (a : A) (l : list (string * A)) : list (string * A) :=
  match l with
  | [] => [(k, a)]
  | e :: l' => if str_ltb k e.1 then (k, a) :: l else e :: insertNamed k a l'
  end.

Section StructJSON.
Context `{GoFloat} `{JSONText}.
(** [t.Format(time.RFC3339)], [time.Parse(time.RFC3339, s)]; how encoding/json writes floats. *)
Context (formatRFC3339 : Time → string) (parseRFC3339 : string → option Time).
Context (jsonFloat jsonFloat32 : float64 → result json).
(** Whether an empty map or slice is nil, which the maps and lists of the model do not record. *)
Context (nilMap nilSlice : bool).

(** ** Dynamic values *)

Definition arrayJSON (l : list json) : json :=
  match l with [] => if nilSlice then JNull else JArray [] | _ => JArray l end.

Fixpoint valueJSON (x : any) : result json :=
  match x with
  | VNil => Ok JNull
  | VBool b => Ok (JBool b)
  | VInt n | VInt32 n | VInt64 n => Ok (JInt n)
  | VFloat32 f => jsonFloat32 f
  | VFloat64 f => jsonFloat f
  | VString s => Ok (JString s)
  | VBytes b => Ok (JString (base64 (Z_of_byte <$> b)))
  | VSlice l => let? js := resultSeq (valueJSON <$> l) in Ok (JArray js)
  | VMap m =>
      let? l := resultList (map_fold (λ k v acc, insertNamed k (valueJSON v) acc) [] m) in
      Ok (JObject l)
  end.

(** A field of type [map[string]interface{}]. *)
Definition paramsJSON (m : gmap string any) : result json :=
  if bool_decide (m = ∅) && nilMap then Ok JNull else valueJSON (VMap m).

Fixpoint toAny (j : json) : option any :=
  match j with
  | JNull => Some VNil
  | JBool b => Some (VBool b)
  | JInt z => VFloat64 <$> ParseFloat (pretty z)
  | JDecimal s => VFloat64 <$> ParseFloat s
  | JString s => Some (VString s)
  | JArray l => VSlice <$> mapM toAny l
  | JObject l => VMap <$> foldl (λ acc e, m ← acc; v ← toAny e.2; Some (<[e.1 := v]> m)) (Some ∅) l
  end.
Definition addAll (l : list (string * json)) (cur : gmap string any) : option (gmap string any) :=
  foldl (λ acc e, m ← acc; v ← toAny e.2; Some (<[e.1 := v]> m)) (Some cur) l.
Definition decParams (j : json) (cur : gmap string any) : option (gmap string any) :=
  match j with JNull => Some ∅ | JObject l => addAll l cur | _ => None end.
Definition decFloat (j : json) (cur : float64) : option float64 :=
  match j with
  | JNull => Some cur
  | JInt z => ParseFloat (pretty z)
  | JDecimal s => ParseFloat s
  | _ => None
  end.

(** ** Rules *)

Definition actionJSON (a : Action) : result json :=
  let? params := paramsJSON (A_Parameters a) in
  Ok (jstruct [("type", JString (A_Type a)); ("parameters", params)]).
Definition actionsJSON (l : list Action) : result json :=
  let? js := resultSeq (actionJSON <$> l) in Ok (arrayJSON js).

Definition ruleMetricsJSON (m : RuleMetrics) : result json :=
  let? execution := optTime "last_execution" (LastExecution m) in
  let? errorTime := optTime "last_error_time" (RM_LastErrorTime m) in
  Ok (jstruct ([("matched_count", JInt (MatchedCount m)); ("executed_count", JInt (ExecutedCount m));
     ("failed_count", JInt (FailedCount m)); ("avg_latency", JInt (RM_AvgLatency m))] ++ execution ++
    omitempty "last_error" (RM_LastError m) ++ errorTime)).

Definition Rule_MarshalJSON (r : Rule) : result json :=
  let? actions := actionsJSON (R_Actions r) in
  let? metrics := ruleMetricsJSON (R_Metrics r) in
  let? metadata := if bool_decide (R_Metadata r = ∅) then Ok []
                   else let? j := paramsJSON (R_Metadata r) in Ok [("metadata", j)] in
  Ok (jstruct ([("created_at", JString (formatRFC3339 (R_CreatedAt r)));
     ("updated_at", JString (formatRFC3339 (R_UpdatedAt r)));
     ("id", JString (R_ID r)); ("name", JString (R_Name r))] ++ omitempty "description" (R_Description r) ++
    [("sql", JString (R_SQL r)); ("actions", actions); ("status", JString (ruleStatusText (R_Status r)));
     ("priority", JInt (R_Priority r)); ("metrics", metrics)] ++ metadata)).

Definition zeroAction : Action := mkAction "" ∅.
Definition decAction (j : json) (cur : Action) : option Action :=
  l ← fieldsOf j;
  type ← field decString (A_Type cur) "type" l;
  params ← field decParams (A_Parameters cur) "parameters" l;
  Some (mkAction type params).
Fixpoint decActionElems (l : list json) (cur : list Action) : option (list Action) :=
  match l with
  | [] => Some []
  | j :: l' =>
      a ← decAction j (default zeroAction (head cur));
      rest ← decActionElems l' (tail cur);
      Some (a :: rest)
  end.
Definition decActions (j : json) (cur : list Action) : option (list Action) :=
  match j with JArray l => decActionElems l cur | JNull => Some [] | _ => None end.

Definition decRuleMetrics (j : json) (cur : RuleMetrics) : option RuleMetrics :=
  l ← fieldsOf j;
  matched ← field decInt (MatchedCount cur) "matched_count" l;
  executed ← field decInt (ExecutedCount cur) "executed_count" l;
  failed ← field decInt (FailedCount cur) "failed_count" l;
  latency ← field decInt (RM_AvgLatency cur) "avg_latency" l;
  execution ← field (decPtr decTime zeroTime) (LastExecution cur) "last_execution" l;
  lastError ← field decString (RM_LastError cur) "last_error" l;
  errorTime ← field (decPtr decTime zeroTime) (RM_LastErrorTime cur) "last_error_time" l;
  Some (mkRuleMetrics matched executed failed latency execution lastError errorTime).

(** A time of the outer struct: no text or a malformed one leaves the time as it is. *)
Definition timeOr (s : string) (cur : Time) : Time :=
  if s <>s "" then default cur (parseRFC3339 s) else cur.

(** [var rule rules.Rule] decoded by [UnmarshalJSON]. *)
Definition Rule_UnmarshalJSON (j : json) : option Rule :=
  l ← fieldsOf j;
  createdAt ← field decString "" "created_at" l;
  updatedAt ← field decString "" "updated_at" l;
  id ← field decString "" "id" l;
  name ← field decString "" "name" l;
  description ← field decString "" "description" l;
  sql ← field decString "" "sql" l;
  acts ← field decActions [] "actions" l;
  status ← field decString "" "status" l;
  priority ← field decInt 0 "priority" l;
  metrics ← field decRuleMetrics noMetrics "metrics" l;
  metadata ← field decParams ∅ "metadata" l;
  Some (mkRule id name description sql acts (ruleStatusOf status) priority
          (timeOr createdAt zeroTime) (timeOr updatedAt zeroTime) metrics metadata).

(** A row of the list of rules, a map whose times are written by [time.Time]. *)
Definition ruleRow (r : Rule) : result json :=
  let? actions := actionsJSON (R_Actions r) in
  let? created := jsonTime (R_CreatedAt r) in
  let? metrics := ruleMetricsJSON (R_Metrics r) in
  let? updated := jsonTime (R_UpdatedAt r) in
  Ok (jmap [("id", JString (R_ID r)); ("name", JString (R_Name r)); ("description", JString (R_Description r));
    ("sql", JString (R_SQL r)); ("actions", actions); ("status", JString (ruleStatusText (R_Status r)));
    ("priority", JInt (R_Priority r)); ("created_at", created); ("updated_at", updated); ("metrics", metrics)]).

(** ** Connectors *)

Definition healthCheckJSON (h : HealthCheckConfig) : json :=
  jstruct [("enabled", JBool (HC_Enabled h)); ("interval", JInt (HC_Interval h));
    ("timeout", JInt (HC_Timeout h)); ("max_fails", JInt (HC_MaxFails h))].
Definition retryJSON (r : RetryConfig) : result json :=
  let? multiplier := jsonFloat (BackoffMultiplier r) in
  Ok (jstruct [("max_attempts", JInt (MaxAttempts r)); ("initial_backoff", JInt (InitialBackoff r));
    ("max_backoff", JInt (MaxBackoff r)); ("backoff_multiplier", multiplier)]).
Definition poolJSON (p : PoolConfig) : json :=
  jstruct [("max_size", JInt (PC_MaxSize p)); ("min_size", JInt (PC_MinSize p));
    ("max_idle", JInt (PC_MaxIdle p)); ("max_lifetime", JInt (PC_MaxLifetime p))].

(** [omitempty] has no effect on the pool, which is a struct. *)
Definition ConnectorConfig_MarshalJSON (c : ConnectorConfig) : result json :=
  let? params := paramsJSON (CC_Parameters c) in
  let? retry := retryJSON (CC_Retry c) in
  Ok (jstruct ([("created_at", JString (formatRFC3339 (CC_CreatedAt c)));
     ("updated_at", JString (formatRFC3339 (CC_UpdatedAt c)));
     ("id", JString (CC_ID c)); ("name", JString (CC_Name c)); ("type", JString (CC_Type c))] ++
    omitempty "description" (CC_Description c) ++
    [("enabled", JBool (CC_Enabled c)); ("parameters", params); ("health_check", healthCheckJSON (CC_HealthCheck c));
     ("retry", retry); ("pool", poolJSON (CC_Pool c))] ++
    match CC_Tags c with [] => [] | tags => [("tags", JArray (JString <$> tags))] end)).

Definition connectorMetricsJSON (m : ConnectorMetrics) : result json :=
  let? throughput := jsonFloat (ThroughputPerSec m) in
  let? lastMessage := optTime "last_message_time" (LastMessageTime m) in
  Ok (jstruct ([("messages_sent", JInt (MessagesSent m)); ("messages_received", JInt (MessagesReceived m));
     ("messages_dropped", JInt (MessagesDropped m)); ("error_count", JInt (ErrorCount m));
     ("success_count", JInt (SuccessCount m)); ("avg_latency", JInt (AvgLatency m));
     ("min_latency", JInt (MinLatency m)); ("max_latency", JInt (MaxLatency m));
     ("throughput_per_sec", throughput); ("active_connections", JInt (ActiveConnections m))] ++ lastMessage)).
Definition healthJSON (h : Connector.HealthStatus) : result json :=
  let? checked := jsonTime (LastCheckTime h) in
  Ok (jstruct ([("healthy", JBool (Healthy h)); ("last_check_time", checked);
     ("check_count", JInt (CheckCount h)); ("failure_count", JInt (FailureCount h))] ++
    omitempty "message" (HS_Message h))).
Definition connectorStatusJSON (s : ConnectorStatus) : result json :=
  let? errorTime := optTime "last_error_time" (ST_LastErrorTime s) in
  let? start := optTime "start_time" (ST_StartTime s) in
  let? updated := jsonTime (ST_UpdateTime s) in
  let? metrics := connectorMetricsJSON (ST_Metrics s) in
  let? health := healthJSON (ST_HealthStatus s) in
  let? retry := optTime "next_retry_time" (ST_NextRetryTime s) in
  Ok (jstruct ([("id", JString (ST_ID s)); ("state", JString (stateText (ST_State s)))] ++
    omitempty "last_error" (ST_LastError s) ++ errorTime ++ start ++
    [("update_time", updated); ("metrics", metrics); ("health_status", health)] ++ retry ++
    [("retry_count", JInt (ST_RetryCount s))])).
Definition ConnectorInfoJSON (i : ConnectorInfo) : result json :=
  let? config := ConnectorConfig_MarshalJSON (CI_Config i) in
  let? status := connectorStatusJSON (CI_Status i) in
  Ok (jstruct [("config", config); ("status", status)]).

Definition decHealthCheck (j : json) (cur : HealthCheckConfig) : option HealthCheckConfig :=
  l ← fieldsOf j;
  enabled ← field decBool (HC_Enabled cur) "enabled" l;
  interval ← field decInt (HC_Interval cur) "interval" l;
  timeout ← field decInt (HC_Timeout cur) "timeout" l;
  maxFails ← field decInt (HC_MaxFails cur) "max_fails" l;
  Some (mkHealthCheckConfig enabled interval timeout maxFails).
Definition decRetry (j : json) (cur : RetryConfig) : option RetryConfig :=
  l ← fieldsOf j;
  attempts ← field decInt (MaxAttempts cur) "max_attempts" l;
  initial ← field decInt (InitialBackoff cur) "initial_backoff" l;
  max ← field decInt (MaxBackoff cur) "max_backoff" l;
  multiplier ← field decFloat (BackoffMultiplier cur) "backoff_multiplier" l;
  Some (mkRetryConfig _ attempts initial max multiplier).
Definition decPool (j : json) (cur : PoolConfig) : option PoolConfig :=
  l ← fieldsOf j;
  maxSize ← field decInt (PC_MaxSize cur) "max_size" l;
  minSize ← field decInt (PC_MinSize cur) "min_size" l;
  maxIdle ← field decInt (PC_MaxIdle cur) "max_idle" l;
  maxLifetime ← field decInt (PC_MaxLifetime cur) "max_lifetime" l;
  Some (mkPoolConfig maxSize minSize maxIdle maxLifetime).

Definition ConnectorConfig_UnmarshalJSON (j : json) : option ConnectorConfig :=
  l ← fieldsOf j;
  createdAt ← field decString "" "created_at" l;
  updatedAt ← field decString "" "updated_at" l;
  id ← field decString "" "id" l;
  name ← field decString "" "name" l;
  type ← field decString "" "type" l;
  description ← field decString "" "description" l;
  enabled ← field decBool false "enabled" l;
  params ← field decParams ∅ "parameters" l;
  health ← field decHealthCheck (mkHealthCheckConfig false 0 0 0) "health_check" l;
  retry ← field decRetry (mkRetryConfig _ 0 0 0 (float_of_int 0)) "retry" l;
  pool ← field decPool (mkPoolConfig 0 0 0 0) "pool" l;
  tags ← field decStrings [] "tags" l;
  Some (mkConnectorConfig id name type description enabled params health retry pool tags
          (timeOr createdAt zeroTime) (timeOr updatedAt zeroTime)).

(** ** The dashboard's texts

    Bridges refer to the maps of the integration engine; their texts stay arguments. *)
Definition structJSON {K : Type} (decB : json → option Bridge) (writeB : Bridge → result json)
    (writeM : IntegrationMetrics → result json) (writeC : K → result json) : ComponentJSON K := {|
  decConnectorConfig := ConnectorConfig_UnmarshalJSON;
  connectorInfoJSON := ConnectorInfoJSON;
  decRule := Rule_UnmarshalJSON;
  ruleJSON := Rule_MarshalJSON;
  ruleRowJSON := ruleRow;
  decBridge := decB;
  bridgeJSON := writeB;
  integrationMetricsJSON := writeM;
  bridgeConnectorJSON := writeC;
  anyJSON := valueJSON;
|}.
End StructJSON.
