(* ===== verification/StructJSONProps.v ===== *)
(** * StructJSONProps: what the dashboard writes reads back

    Rules and connector configurations survive encoding and decoding up to the fractions of
    seconds of their times ([rule_json_roundtrip], [connector_config_roundtrip]); a rule that is
    posted to the dashboard is the one that is read from it ([posted_rule_reads_back]). *)

From S2P Require Import Prelude GoLib GoValue GoJSON GoHTTP Connector RuleSQL RuleEngine.
From S2P Require Import Integration IntegrationEngine Health Certs Admin Dashboard DashboardAPI DashboardProps StructJSON.
Local Open Scope emqx_scope.
Local Open Scope Z_scope.

(** ** What is written reads back *)

Lemma str_insertNamed {A} k (a : A) l : insertNamed k a l ≡ₚ (k, a) :: l.
Proof.
  induction l as [|e l IH]; simpl; [done|]. case_match; [done|]. rewrite IH. apply Permutation_swap.
Qed.

Lemma insertNamed_fmap {A B} (f : A → B) k a l :
  insertNamed k (f a) (prod_map id f <$> l) = prod_map id f <$> insertNamed k a l.
Proof. induction l as [|[k' a'] l IH]; simpl; [done|]. case_match; simpl; [done|]. f_equal. exact IH. Qed.

(** The entries of a map by their keys. *)
Definition byKey {A} (m : gmap string A) : list (string * A) :=
  map_fold (λ k v acc, insertNamed k v acc) [] m.

Lemma byKey_perm {A} (m : gmap string A) : byKey m ≡ₚ map_to_list m.
Proof.
  unfold byKey. rewrite map_fold_foldr. induction (map_to_list m) as [|[k v] l IH]; simpl; [done|].
  by rewrite str_insertNamed, IH.
Qed.

Lemma byKey_fmap {A B} (f : A → B) (m : gmap string A) :
  map_fold (λ k v acc, insertNamed k (f v) acc) [] m = prod_map id f <$> byKey m.
Proof.
  unfold byKey. rewrite !map_fold_foldr. induction (map_to_list m) as [|[k v] l IH]; simpl; [done|].
  by rewrite IH, insertNamed_fmap.
Qed.

Lemma resultList_all {A B} (f : A → result B) (Q : string * A → B → Prop) (l : list (string * A)) :
  (∀ p, p ∈ l → ∃ b, f p.2 = Ok b ∧ Q p b) →
  ∃ l', resultList (prod_map id f <$> l) = Ok l' ∧ Forall2 (λ e p, e.1 = p.1 ∧ Q p e.2) l' l.
Proof.
  induction l as [|[k a] l IH]; intros Hl; [by exists []|].
  destruct (Hl (k, a)) as (b & Hb & HQ); [by left|]. simpl in Hb.
  destruct IH as (l' & Hl' & HF); [intros p Hp; apply Hl; by right|].
  exists ((k, b) :: l'). rewrite fmap_cons. cbn [prod_map resultList id fst snd]. rewrite Hb. cbn [result_bind].
  rewrite Hl'. split; [done|]. by constructor.
Qed.

Lemma resultSeq_all {A B} (f : A → result B) (Q : A → B → Prop) l :
  (∀ a, a ∈ l → ∃ b, f a = Ok b ∧ Q a b) →
  ∃ l', resultSeq (f <$> l) = Ok l' ∧ Forall2 (λ b a, Q a b) l' l.
Proof.
  induction l as [|a l IH]; intros Hl; [by exists []|].
  destruct (Hl a) as (b & Hb & HQ); [by left|].
  destruct IH as (l' & Hl' & HF); [intros p Hp; apply Hl; by right|].
  exists (b :: l'). rewrite fmap_cons. cbn [resultSeq]. rewrite Hb. cbn [result_bind].
  rewrite Hl'. split; [done|]. by constructor.
Qed.

Section Plain.
Context `{GoFloat} (finite : float64 → Prop).

(** The values that JSON can carry, with valid texts and finite numbers. *)
Fixpoint plain (x : any) : Prop :=
  match x with
  | VNil | VBool _ => True
  | VFloat64 f => finite f
  | VString s => valid_utf8 s
  | VSlice l => foldr (λ v acc, plain v ∧ acc) True l
  | VMap m => map_fold (λ k v acc, valid_utf8 k ∧ plain v ∧ acc) True m
  | _ => False
  end.
Fixpoint depth (x : any) : nat :=
  match x with
  | VSlice l => S (foldr (λ v acc, depth v `max` acc) 0 l)%nat
  | VMap m => S (map_fold (λ k v acc, depth v `max` acc) 0 m)%nat
  | _ => 0
  end.

Lemma plain_map m : plain (VMap m) ↔ ∀ k v, (k, v) ∈ map_to_list m → valid_utf8 k ∧ plain v.
Proof.
  simpl. rewrite map_fold_foldr. induction (map_to_list m) as [|[k v] l IH]; simpl; [set_solver|].
  rewrite IH. split.
  - intros (Hk & Hv & Hl) k' v' [[= -> ->]|?]%elem_of_cons; [done|eauto].
  - intros Hl. split_and!; [by apply (Hl k v); left..|]. intros k' v' ?. apply Hl. by right.
Qed.
Lemma plain_slice l : plain (VSlice l) ↔ Forall plain l.
Proof. simpl. induction l as [|v l IH]; simpl; [done|]. by rewrite IH, Forall_cons. Qed.

Lemma depth_map m k v : (k, v) ∈ map_to_list m → (depth v < depth (VMap m))%nat.
Proof.
  simpl. rewrite map_fold_foldr. induction (map_to_list m) as [|[k' v'] l IH]; simpl; [set_solver|].
  intros [[= -> ->]|Hv]%elem_of_cons; [lia|]. specialize (IH Hv). lia.
Qed.
Lemma depth_slice l v : v ∈ l → (depth v < depth (VSlice l))%nat.
Proof.
  simpl. induction l as [|v' l IH]; simpl; [set_solver|].
  intros [->|Hv]%elem_of_cons; [lia|]. specialize (IH Hv). lia.
Qed.

(** Reading the entries of an object with distinct keys adds them to the map. *)
Lemma addAll_entries l ps cur :
  NoDup ps.*1 → Forall2 (λ e p, e.1 = p.1 ∧ toAny e.2 = Some p.2) l ps →
  addAll l cur = Some (list_to_map ps ∪ cur).
Proof.
  unfold addAll. intros Hnd Hl. revert cur Hnd. induction Hl as [|[k j] [k' v] l ps [Hk Hv] Hl IH]; intros cur Hnd; simpl.
  { by rewrite (left_id_L ∅ (∪)). }
  simpl in Hk, Hv, Hnd. subst k'. apply NoDup_cons in Hnd as [Hnk Hnd]. rewrite Hv. simpl.
  rewrite IH by done. f_equal. rewrite <-insert_union_l, insert_union_r; [done|].
  by apply not_elem_of_list_to_map.
Qed.

Definition cleanEntries (l : list (string * json)) : list (string * json) :=
  (λ e, (toValid e.1, jclean e.2)) <$> l.

End Plain.

Section RoundTrip.
Context `{GoFloat} `{JSONTextLaws}.
Context (formatRFC3339 : Time → string) (parseRFC3339 : string → option Time).
Context (jsonFloat jsonFloat32 : float64 → result json) (nilMap nilSlice : bool).

(** encoding/json writes a finite float with as many digits as it takes to read it back. *)
Context (finite : float64 → Prop).
Hypothesis jsonFloat_exact : ∀ f, finite f →
  ∃ j, jsonFloat f = Ok j ∧ jclean j = j ∧ toAny j = Some (VFloat64 f).
(** RFC 3339 keeps the seconds of a time of the years 1 to 9998. *)
Definition datable (t : Time) : Prop := zeroTime ≤ t < 253370764800 * Second.
Hypothesis rfc3339_exact : ∀ t, datable t →
  valid_utf8 (formatRFC3339 t) ∧ formatRFC3339 t ≠ "" ∧ parseRFC3339 (formatRFC3339 t) = Some (t / Second * Second).

Abbreviation valueJSON := (valueJSON jsonFloat jsonFloat32).
Abbreviation paramsJSON := (paramsJSON jsonFloat jsonFloat32 nilMap).
Abbreviation plain := (plain finite).
Abbreviation actionJSON := (actionJSON jsonFloat jsonFloat32 nilMap).

Lemma value_roundtrip n : ∀ x, (depth x ≤ n)%nat → plain x →
  ∃ j, valueJSON x = Ok j ∧ toAny (jclean j) = Some x.
Proof using jsonFloat_exact.
  induction n as [n IH] using lt_wf_ind. intros x Hn Hp.
  destruct x as [|b|z|z|z|f|f|s|b|l|m]; simpl in Hp; try done; [by eexists..| | | |].
  - destruct (jsonFloat_exact f Hp) as (j & Hj & Hc & Ht). exists j. by rewrite Hc.
  - exists (JString s). simpl. by rewrite Hp.
  - change (plain (VSlice l)) in Hp. apply plain_slice in Hp. rewrite Forall_forall in Hp.
    destruct (resultSeq_all valueJSON (λ v j, toAny (jclean j) = Some v) l) as (js & Hjs & HF).
    { intros v Hv. pose proof (depth_slice l v Hv). apply (IH (depth v)); [lia|done|by apply Hp]. }
    exists (JArray js). simpl. rewrite Hjs. split; [done|]. simpl.
    assert (mapM toAny (jclean <$> js) = Some l) as ->; [|done].
    by apply mapM_Some, Forall2_fmap_l.
  - change (plain (VMap m)) in Hp. rewrite plain_map in Hp.
    destruct (resultList_all valueJSON (λ p j, valid_utf8 p.1 ∧ toAny (jclean j) = Some p.2) (byKey m))
      as (l & Hl & HF).
    { intros [k v] Hin. rewrite byKey_perm in Hin. destruct (Hp k v Hin) as [Hk Hv].
      pose proof (depth_map m k v Hin) as Hd.
      destruct (IH (depth v)) with (x := v) as (j & ? & ?); [simpl in *; lia|done|done|]. by exists j. }
    exists (JObject l). simpl. rewrite byKey_fmap, Hl. split; [done|]. simpl.
    change (VMap <$> addAll (cleanEntries l) ∅ = Some (VMap m)). rewrite (addAll_entries _ (byKey m)).
    + rewrite (right_id_L ∅ (∪)). simpl. do 2 f_equal. symmetry. apply list_to_map_flip.
      symmetry. apply byKey_perm.
    + rewrite byKey_perm. apply NoDup_fst_map_to_list.
    + apply Forall2_fmap_l. eapply Forall2_impl; [exact HF|].
      intros [k j] [k' v] (Hk & Hv & Hj). simpl in *. subst k'. by rewrite Hv.
Qed.

Lemma params_roundtrip m :
  plain (VMap m) → ∃ j, paramsJSON m = Ok j ∧ decParams (jclean j) ∅ = Some m.
Proof using jsonFloat_exact.
  intros Hp. unfold paramsJSON, StructJSON.paramsJSON.
  destruct (bool_decide (m = ∅) && nilMap) eqn:E; bool_prop; [subst m; by exists JNull|].
  destruct (value_roundtrip _ (VMap m) (le_n _) Hp) as (j & Hj & Ht).
  exists j. split; [exact Hj|]. change (valueJSON (VMap m)) with
    (let? l := resultList (map_fold (λ k v acc, insertNamed k (valueJSON v) acc) [] m) in Ok (JObject l)) in Hj.
  apply result_bind_Ok in Hj as (l & _ & [= <-]). simpl in Ht |- *. change (VMap <$> addAll (cleanEntries l) ∅ = Some (VMap m)) in Ht.
  change (addAll (cleanEntries l) ∅ = Some m). destruct (addAll _ _); simplify_eq/=. done.
Qed.

(** *** Rules *)

Definition int64 (z : Z) : Prop := - 2 ^ 63 ≤ z ≤ 2 ^ 63 - 1.
Definition writable (t : option Time) : Prop := ∀ t', t = Some t' → is_Some (timeText t').

Record metrics_writable (m : RuleMetrics) : Prop := {
  mw_numbers : int64 (MatchedCount m) ∧ int64 (ExecutedCount m) ∧ int64 (FailedCount m) ∧ int64 (RM_AvgLatency m);
  mw_error : valid_utf8 (RM_LastError m);
  mw_times : writable (LastExecution m) ∧ writable (RM_LastErrorTime m);
}.
Record rule_writable (r : Rule) : Prop := {
  rw_id : valid_utf8 (R_ID r);
  rw_name : valid_utf8 (R_Name r);
  rw_description : valid_utf8 (R_Description r);
  rw_sql : valid_utf8 (R_SQL r);
  rw_status : valid_utf8 (ruleStatusText (R_Status r)) ∧ ruleStatusOf (ruleStatusText (R_Status r)) = R_Status r;
  rw_actions : Forall (λ a, valid_utf8 (A_Type a) ∧ plain (VMap (A_Parameters a))) (R_Actions r);
  rw_priority : int64 (R_Priority r);
  rw_created : datable (R_CreatedAt r);
  rw_updated : datable (R_UpdatedAt r);
  rw_metrics : metrics_writable (R_Metrics r);
  rw_metadata : plain (VMap (R_Metadata r));
}.

#[local] Arguments decInt : simpl never.
Lemma decInt_in_range z cur : int64 z → decInt (JInt z) cur = Some z.
Proof.
  unfold int64. intros Hz. unfold decInt. cbv iota.
  assert (in_range (- 2 ^ 63) (2 ^ 63 - 1) z = true) as ->; [|done].
  unfold in_range. apply andb_true_iff. split; apply Z.leb_le; lia.
Qed.

Lemma optTime_roundtrip name t :
  writable t → ∃ l, optTime name t = Ok l ∧
    match t with None => l = [] | Some t' => ∃ s, l = [(name, JString s)] ∧ valid_utf8 s ∧ parseTime s = Some t' end.
Proof using H1.
  intros Ht. destruct t as [t'|]; [|by exists []]. destruct (Ht t' eq_refl) as [s Hs].
  exists [(name, JString s)]. unfold optTime, jsonTime. rewrite Hs. split; [done|]. exists s.
  split; [done|]. by apply parseTime_timeText.
Qed.

Lemma metrics_roundtrip m :
  metrics_writable m → ∃ j, ruleMetricsJSON m = Ok j ∧ decRuleMetrics (jclean j) noMetrics = Some m.
Proof using H1.
  intros [(N1 & N2 & N3 & N4) He [T1 T2]].
  destruct (optTime_roundtrip "last_execution" _ T1) as (l1 & Hl1 & P1).
  destruct (optTime_roundtrip "last_error_time" _ T2) as (l2 & Hl2 & P2).
  unfold ruleMetricsJSON. rewrite Hl1, Hl2. eexists. split; [reflexivity|].
  destruct m as [n1 n2 n3 n4 t1 e t2]; simpl in *. unfold decRuleMetrics, omitempty.
  assert (∃ l, (if e =s "" then [] else [("last_error", JString e)]) = l ∧
    (l = [] ∧ e = "" ∨ l = [("last_error", JString e)])) as (l3 & -> & P3).
  { eexists. split; [reflexivity|]. case_bool_decide; auto. }
  destruct t1 as [t1|]; [destruct P1 as (s1 & -> & V1 & P1)|subst l1];
  (destruct t2 as [t2|]; [destruct P2 as (s2 & -> & V2 & P2)|subst l2]);
  (destruct P3 as [[-> ->]| ->]);
    run_fields; rewrite !decInt_in_range by done; simpl; rewrite ?V1, ?V2, ?He, ?P1, ?P2; reflexivity.
Qed.

Lemma actions_roundtrip l :
  Forall (λ a, valid_utf8 (A_Type a) ∧ plain (VMap (A_Parameters a))) l →
  ∃ j, StructJSON.actionsJSON jsonFloat jsonFloat32 nilMap nilSlice l = Ok j ∧ decActions (jclean j) [] = Some l.
Proof using jsonFloat_exact.
  intros Hl. rewrite Forall_forall in Hl.
  destruct (resultSeq_all actionJSON (λ a j, decAction (jclean j) zeroAction = Some a) l) as (js & Hjs & HF).
  { intros a Ha. destruct (Hl a Ha) as [Ht Hp]. destruct (params_roundtrip _ Hp) as (j & Hj & Hd).
    unfold actionJSON. rewrite Hj. eexists. split; [reflexivity|].
    unfold decAction. simpl. run_fields. rewrite Hd. simpl. rewrite Ht. by destruct a. }
  unfold StructJSON.actionsJSON. rewrite Hjs. eexists. split; [reflexivity|].
  assert (decActionElems (jclean <$> js) [] = Some l) as He.
  { clear Hjs Hl. induction HF as [|j a js l Ha HF IH]; [done|]. rewrite fmap_cons. cbn [decActionElems head tail default].
    rewrite Ha. simpl. by rewrite IH. }
  destruct js as [|j js]; [|exact He]. unfold arrayJSON. simpl in He. by destruct nilSlice.
Qed.

(** What the two texts of a rule keep of its times. *)
Definition wholeSeconds (r : Rule) : Rule :=
  withTimes (R_CreatedAt r / Second * Second) (R_UpdatedAt r / Second * Second) (R_Metrics r) r.

Lemma timeOr_format t cur : datable t → timeOr parseRFC3339 (formatRFC3339 t) cur = t / Second * Second.
Proof using rfc3339_exact.
  intros Ht. destruct (rfc3339_exact t Ht) as (_ & Hne & Hp). unfold timeOr.
  rewrite (bool_decide_false (P := formatRFC3339 t = "")) by done. simpl. by rewrite Hp.
Qed.

Lemma rule_written r :
  rule_writable r →
  ∃ j, Rule_MarshalJSON formatRFC3339 jsonFloat jsonFloat32 nilMap nilSlice r = Ok j ∧
    Rule_UnmarshalJSON parseRFC3339 (jclean j) = Some (wholeSeconds r).
Proof using jsonFloat_exact rfc3339_exact H1.
  intros [W1 W2 W3 W4 [W5 W5'] Wa W6 Wc Wu Wm Wd].
  destruct (actions_roundtrip _ Wa) as (ja & Hja & Da). destruct (metrics_roundtrip _ Wm) as (jm & Hjm & Dm).
  destruct (params_roundtrip _ Wd) as (jd & Hjd & Dd).
  destruct (rfc3339_exact _ Wc) as (Vc & _). destruct (rfc3339_exact _ Wu) as (Vu & _).
  unfold Rule_MarshalJSON. rewrite Hja, Hjm, Hjd. unfold wholeSeconds, withTimes. cbn [result_bind].
  rewrite <-(timeOr_format _ zeroTime Wc), <-(timeOr_format _ zeroTime Wu).
  destruct r as [id name desc sql acts st prio created updated metrics metadata]. cbn -[decInt] in *.
  unfold omitempty. case_bool_decide as Hmd; case_bool_decide as Hde; cbn [result_bind app];
    (eexists; split; [reflexivity|]); unfold Rule_UnmarshalJSON; run_fields;
    rewrite ?Da, ?Dm, ?Dd, decInt_in_range by done; simpl;
    by rewrite ?W1, ?W2, ?W3, ?W4, ?W5, ?W5', ?Vc, ?Vu, ?Hmd, ?Hde.
Qed.

(** A rule that encoding/json can write is written, and what was written decodes to the same
    rule, with its two times cut to whole seconds. *)
Theorem rule_json_roundtrip r :
  rule_writable r →
  ∃ j, Rule_MarshalJSON formatRFC3339 jsonFloat jsonFloat32 nilMap nilSlice r = Ok j ∧
    ∃ j', jparse (jtext j) = Some j' ∧ Rule_UnmarshalJSON parseRFC3339 j' = Some (wholeSeconds r).
Proof using jsonFloat_exact rfc3339_exact H1.
  intros (j & Hj & Hr)%rule_written. exists j. split; [done|]. exists (jclean j). by rewrite jparse_jtext.
Qed.

(** *** Connector configurations *)

Record config_writable (c : ConnectorConfig) : Prop := {
  cw_texts : valid_utf8 (CC_ID c) ∧ valid_utf8 (CC_Name c) ∧ valid_utf8 (CC_Type c) ∧ valid_utf8 (CC_Description c);
  cw_params : plain (VMap (CC_Parameters c));
  cw_health : int64 (HC_Interval (CC_HealthCheck c)) ∧ int64 (HC_Timeout (CC_HealthCheck c)) ∧
    int64 (HC_MaxFails (CC_HealthCheck c));
  cw_retry : int64 (MaxAttempts (CC_Retry c)) ∧ int64 (InitialBackoff (CC_Retry c)) ∧
    int64 (MaxBackoff (CC_Retry c)) ∧ finite (BackoffMultiplier (CC_Retry c));
  cw_pool : int64 (PC_MaxSize (CC_Pool c)) ∧ int64 (PC_MinSize (CC_Pool c)) ∧
    int64 (PC_MaxIdle (CC_Pool c)) ∧ int64 (PC_MaxLifetime (CC_Pool c));
  cw_tags : Forall valid_utf8 (CC_Tags c);
  cw_times : datable (CC_CreatedAt c) ∧ datable (CC_UpdatedAt c);
}.

Definition configSeconds (c : ConnectorConfig) : ConnectorConfig :=
  mkConnectorConfig (CC_ID c) (CC_Name c) (CC_Type c) (CC_Description c) (CC_Enabled c) (CC_Parameters c)
    (CC_HealthCheck c) (CC_Retry c) (CC_Pool c) (CC_Tags c) (CC_CreatedAt c / Second * Second)
    (CC_UpdatedAt c / Second * Second).

Lemma healthCheck_roundtrip h cur :
  int64 (HC_Interval h) ∧ int64 (HC_Timeout h) ∧ int64 (HC_MaxFails h) →
  decHealthCheck (jclean (healthCheckJSON h)) cur = Some h.
Proof.
  intros (? & ? & ?). destruct h. unfold decHealthCheck. simpl in *. run_fields.
  by rewrite !decInt_in_range.
Qed.
Lemma pool_roundtrip p cur :
  int64 (PC_MaxSize p) ∧ int64 (PC_MinSize p) ∧ int64 (PC_MaxIdle p) ∧ int64 (PC_MaxLifetime p) →
  decPool (jclean (poolJSON p)) cur = Some p.
Proof.
  intros (? & ? & ? & ?). destruct p. unfold decPool. simpl in *. run_fields. by rewrite !decInt_in_range.
Qed.
Lemma retry_roundtrip r cur :
  int64 (MaxAttempts r) ∧ int64 (InitialBackoff r) ∧ int64 (MaxBackoff r) ∧ finite (BackoffMultiplier r) →
  ∃ j, retryJSON jsonFloat r = Ok j ∧ decRetry (jclean j) cur = Some r.
Proof using jsonFloat_exact.
  intros (? & ? & ? & Hf). destruct (jsonFloat_exact _ Hf) as (j & Hj & Hc & Ha).
  unfold retryJSON. rewrite Hj. eexists. split; [reflexivity|]. destruct r as [a i m f]. simpl in *.
  unfold decRetry. run_fields. rewrite Hc, !decInt_in_range by done. simpl.
  assert (∀ f0, decFloat j f0 = Some f) as ->; [|done].
  intros f0. destruct j; simplify_eq/=; [| |by destruct (mapM _ _)|by destruct (foldl _ _ _)];
    by destruct (ParseFloat _); simplify_eq/=.
Qed.
Lemma tags_roundtrip l cur : Forall valid_utf8 l → decStrings (jclean (JArray (JString <$> l))) cur = Some l.
Proof. intros Hl. cbn [jclean]. rewrite jclean_strings by done. apply decElems_strings. Qed.

(** The same for the configuration of a connector. *)
Theorem connector_config_roundtrip c :
  config_writable c →
  ∃ j, ConnectorConfig_MarshalJSON formatRFC3339 jsonFloat jsonFloat32 nilMap c = Ok j ∧
    ConnectorConfig_UnmarshalJSON parseRFC3339 (jclean j) = Some (configSeconds c).
Proof using jsonFloat_exact rfc3339_exact.
  intros [(T1 & T2 & T3 & T4) Wp Wh Wr Wl Wt [Wc Wu]].
  destruct (params_roundtrip _ Wp) as (jp & Hjp & Dp).
  destruct (retry_roundtrip _ (mkRetryConfig _ 0 0 0 (float_of_int 0)) Wr) as (jr & Hjr & Dr).
  pose proof (healthCheck_roundtrip _ (mkHealthCheckConfig false 0 0 0) Wh) as Dh.
  pose proof (pool_roundtrip _ (mkPoolConfig 0 0 0 0) Wl) as Dl.
  destruct (rfc3339_exact _ Wc) as (Vc & _). destruct (rfc3339_exact _ Wu) as (Vu & _).
  pose proof (tags_roundtrip _ [] Wt) as Dt.
  unfold ConnectorConfig_MarshalJSON. rewrite Hjp, Hjr. unfold configSeconds. cbn [result_bind].
  rewrite <-(timeOr_format _ zeroTime Wc), <-(timeOr_format _ zeroTime Wu).
  destruct c as [id name type desc en params health retry pool tags created updated].
  cbn [CC_ID CC_Name CC_Type CC_Description CC_Enabled CC_Parameters CC_HealthCheck CC_Retry CC_Pool CC_Tags
    CC_CreatedAt CC_UpdatedAt] in *.
  generalize dependent (healthCheckJSON health). intros jh Dh. generalize dependent (poolJSON pool). intros jl Dl.
  eexists. split; [reflexivity|]. unfold omitempty, ConnectorConfig_UnmarshalJSON.
  case_bool_decide as Hde; (destruct tags as [|tag tags]; [|
    generalize dependent (JArray (JString <$> (tag :: tags))); intros jt Dt]);
    cbn [app jstruct]; run_fields; rewrite ?Dp, ?Dh, ?Dr, ?Dl, ?Dt; simpl;
    by rewrite ?T1, ?T2, ?T3, ?T4, ?Vc, ?Vu, ?Hde.
Qed.
End RoundTrip.

(** ** Over HTTP *)

Section Posted.
Context `{GoFloat} `{GoUnicode} `{JSONTextLaws} {C K P B R : Type} `{!Connector C} `{!BridgeConnector K}.
Context (formatRFC3339 : Time → string) (parseRFC3339 : string → option Time).
Context (jsonFloat jsonFloat32 : float64 → result json) (nilMap nilSlice : bool).
Context (finite : float64 → Prop).
Hypothesis jsonFloat_exact : ∀ f, finite f →
  ∃ j, jsonFloat f = Ok j ∧ jclean j = j ∧ toAny j = Some (VFloat64 f).
Hypothesis rfc3339_exact : ∀ t, datable t →
  valid_utf8 (formatRFC3339 t) ∧ formatRFC3339 t ≠ "" ∧ parseRFC3339 (formatRFC3339 t) = Some (t / Second * Second).
Context (decB : json → option Bridge) (writeB : Bridge → result json) (writeM : IntegrationMetrics → result json)
  (writeC : K → result json) (clock : nat → Time) (actions : gmap string (ActionExecutor C unit)).
Context `{!BrokerInterface B R} (formatDateTime : Time → string) (Title : string → string) (osInfo : OSInfo) (gl : Globals).
Context (execTemplate : string → list (string * tval) → string * option string).
Context (pemDecode : string → option (list byte)) (ParseCertificate : list byte → result X509Cert)
  (sha256_hex_of : list byte → string) (keyPairError : string → string → option string)
  (appendCerts : string → bool) (Compile : string → option R).
Context (serveStatic : ResponseWriter → Request → ResponseWriter).

#[local] Instance dashboardJSON : ComponentJSON K :=
  structJSON formatRFC3339 parseRFC3339 jsonFloat jsonFloat32 nilMap nilSlice decB writeB writeM writeC.

(** The state after a posted rule has been stored: the rule with its times is read by its
    identifier, and posting it again is refused. *)
Lemma posted_handlers (s : Server C K P B) r rule :
  let now := clock (ticks (d_world s)) in
  R_Method r = MethodPost → R_Body r ≫= Rule_UnmarshalJSON parseRFC3339 = Some rule →
  R_ID rule ≠ "" → byte_free slash (R_ID rule) → RuleEngine.rules (d_world s) !! R_ID rule = None →
  validateRule actions rule = Returns None →
  ∃ s', d_config s' = d_config s ∧
    (∀ w, unsent w → ∃ w', handleAPIRules clock actions w r s = Returns (w', s') ∧ status w' = Some StatusCreated) ∧
    (∀ w r', R_Method r' = MethodGet → URL_Path r' = ("/api/rules/" +:+ R_ID rule)%string →
       handleAPIRuleByID clock actions w r' s' =
       Returns (encodeJSON (ruleJSON (withTimes now now noMetrics rule)) w, s')) ∧
    (∀ w, unsent w → ∃ w', handleAPIRules clock actions w r s' = Returns (w', s') ∧ status w' = Some StatusBadRequest).
Proof.
  intros now Hm Hb Hne Hfree Hfresh Hval.
  unfold handleAPIRules, handleAPICreateRule. rewrite Hm. cbn [decRule dashboardJSON structJSON]. rewrite Hb.
  change (MethodPost =s MethodGet) with false. change (MethodPost =s MethodPost) with true. cbv iota.
  unfold ruleCall, CreateRule, gets, mbind, RM_bind. simpl. rewrite Hfresh. unfold lift_outcome.
  rewrite Hval. simpl. eexists. split; [|split; [|split]].
  2: { intros w Hw. eexists. split; [reflexivity|].
       destruct (Write_allowed (Header_Set ContentType "application/json" w)
         (CJson (jmap [message "Rule created successfully"])) StatusCreated) as (_ & _ & Hs); [done|done|].
       unfold Encode_dropped, Encode. by destruct (Write _ _). }
  - done.
  - intros w r' Hm' Hpath. unfold handleAPIRuleByID. rewrite Hpath, Hm'. unfold TrimPrefix. rewrite HasPrefix_app.
    change (dropBytes _ _) with (Some (R_ID rule)). simpl. rewrite Split_free by done.
    rewrite (bool_decide_false (P := R_ID rule = "")) by done. simpl.
    unfold handleAPIGetRule, GetRule, gets, derefRule, mbind, RM_bind. simpl.
    rewrite lookup_insert_eq. simpl. by rewrite lookup_insert_eq.
  - intros w Hw. simpl. rewrite lookup_insert_eq. simpl. eexists. split; [reflexivity|].
    by apply status_http_Error.
Qed.

Abbreviation serveAt := (DashboardAPI.serve (P := P) formatRFC3339 formatDateTime Title osInfo jsonFloat gl
  execTemplate pemDecode ParseCertificate sha256_hex_of keyPairError appendCerts clock actions Compile serveStatic).

(** C39. Posting a rule through the dashboard: an admitted POST to /api/rules of a well-formed
    rule whose identifier is not empty, has no slash and is not in use, and which passes
    validation, is answered with 201.  An admitted GET of its identifier is then answered with
    200 and a text that decodes to the rule as posted - its actions with their parameters, its
    priority, its status and its metadata - with the time of the creation in whole seconds and
    empty metrics.  Posting the rule again, its identifier now in use, is answered with 400 and
    changes nothing. *)
Theorem posted_rule_reads_back r r' (s : Server C K P B) rule t1 t2 t3 :
  let now := clock (ticks (d_world s)) in
  admitted s r → R_Method r = MethodPost → URL_Path r = "/api/rules" →
  R_Body r ≫= Rule_UnmarshalJSON parseRFC3339 = Some rule →
  R_ID rule ≠ "" → byte_free slash (R_ID rule) → RuleEngine.rules (d_world s) !! R_ID rule = None →
  validateRule actions rule = Returns None →
  rule_writable finite (withTimes now now noMetrics rule) →
  admitted s r' → R_Method r' = MethodGet → URL_Path r' = ("/api/rules/" +:+ R_ID rule)%string →
  ∃ w s', serveAt t1 r s = Returns (w, s') ∧ status w = Some StatusCreated ∧
    (∃ w' j j', serveAt t2 r' s' = Returns (w', s') ∧
      status w' = Some StatusOK ∧ W_Body w' = [CJson j] ∧ jparse (jtext j) = Some j' ∧
      Rule_UnmarshalJSON parseRFC3339 j' = Some (wholeSeconds (withTimes now now noMetrics rule))) ∧
    (∃ w', serveAt t3 r s' = Returns (w', s') ∧ status w' = Some StatusBadRequest).
Proof using jsonFloat_exact rfc3339_exact H2.
  intros now Ha Hm Hp Hb Hne Hfree Hfresh Hval Hw Ha' Hm' Hp'.
  destruct (rule_written formatRFC3339 parseRFC3339 jsonFloat jsonFloat32 nilMap nilSlice finite
    jsonFloat_exact rfc3339_exact _ Hw) as (j & Hj & Hd).
  destruct (posted_handlers s r rule Hm Hb Hne Hfree Hfresh Hval) as (s' & Hc & Hpost & Hget & Hagain).
  assert (∀ q, admitted s q → admitted s' q) as Hadm by (unfold admitted; by rewrite Hc).
  assert (∀ t q z, admitted z q → URL_Path q = "/api/rules" → ∃ w0, unsent w0 ∧
    serveAt t q z = handleAPIRules clock actions w0 q z) as Hserve.
  { intros t q z Hq Hpq. eapply serve_admitted; [rewrite Hpq; apply route_rules|by right]. }
  assert (∃ w0, unsent w0 ∧ serveAt t2 r' s' = handleAPIRuleByID clock actions w0 r' s') as (w1 & Hw1 & E1).
  { eapply serve_admitted; [rewrite Hp'; apply route_ruleByID|right; by apply Hadm]. }
  destruct (Hserve t1 r s Ha Hp) as (w0 & Hw0 & E0). destruct (Hserve t3 r s' (Hadm _ Ha) Hp) as (w2 & Hw2 & E2).
  destruct (Hpost w0 Hw0) as (w & Hh & Hst). exists w, s'. split; [by rewrite E0|]. split; [done|]. split.
  - rewrite E1, (Hget w1 r' Hm' Hp'). unfold ruleJSON, dashboardJSON, structJSON. unfold now in Hj. rewrite Hj.
    eexists _, j, (jclean j). split; [reflexivity|]. split; [by apply status_encodeJSON|].
    split; [|split; [by apply jparse_jtext|done]].
    destruct Hw1 as [Hs1 Hb1]. unfold encodeJSON, Encode_dropped, Encode, Write, WriteHeader. simpl.
    by rewrite Hs1; simpl; rewrite Hb1.
  - rewrite E2. destruct (Hagain w2 Hw2) as (w' & Hh' & Hst'). by exists w'.
Qed.
End Posted.

(** ** Witness *)

Section Witness.
Local Existing Instances intFloat asciiUnicode digitsJSON digitsJSON_laws.

Local Instance emptyConnector : Connector Empty_set := {
  Start c := match c with end; Stop c := match c with end; Restart c := match c with end;
  con_Status c := match c with end; HealthCheck c := match c with end; con_IsRunning c := match c with end;
  Send c := match c with end; SendBatch c := match c with end; con_GetConfig c := match c with end;
  con_UpdateConfig c := match c with end; con_GetMetrics c := match c with end;
  con_ResetMetrics c := match c with end; Close c := match c with end;
}.

(** Times as their seconds, floats as integers. *)
Definition secondsText (t : Time) : string := pretty (t / Second).
Definition secondsParse (s : string) : option Time := (λ z, z * Second) <$> ParseInt s.
Definition integerJSON (f : @float64 intFloat) : result json := Ok (JInt f).

Lemma integerJSON_exact f : int64 f → ∃ j, integerJSON f = Ok j ∧ jclean j = j ∧ toAny j = Some (VFloat64 f).
Proof.
  intros Hf. exists (JInt f). do 2 (split; [done|]). simpl. rewrite ParseInt_pretty; [done|].
  unfold int64 in Hf. lia.
Qed.
Lemma secondsText_exact t : datable t →
  valid_utf8 (secondsText t) ∧ secondsText t ≠ "" ∧ secondsParse (secondsText t) = Some (t / Second * Second).
Proof.
  intros Ht. assert (- 2 ^ 63 ≤ t / Second < 2 ^ 63) as Hr.
  { unfold datable, zeroTime in Ht. change Second with 1000000000 in *.
    pose proof (Z.div_le_lower_bound t 1000000000 (-62135596800)).
    pose proof (Z.div_lt_upper_bound t 1000000000 253370764800). lia. }
  unfold secondsParse, secondsText. rewrite (ParseInt_pretty _ Hr).
  split_and!; [apply valid_ascii, pretty_Z_ascii| |done].
  intros E. pose proof (ParseInt_pretty _ Hr) as Hp. by rewrite E in Hp.
Qed.

Definition postedBody : json :=
  JObject [("id", JString "r1"); ("name", JString "drop"); ("sql", JString "SELECT * WHERE qos = 1");
    ("actions", JArray [JObject [("type", JString "discard");
       ("parameters", JObject [("reason", JString "old"); ("limit", JInt 3)])]]);
    ("status", JString "enabled"); ("priority", JInt 7)].
Definition postedRule : Rule :=
  mkRule "r1" "drop" "" "SELECT * WHERE qos = 1"
    [mkAction "discard" (<["limit" := VFloat64 (3 : @float64 intFloat)]> {["reason" := VString "old"]})]
    RuleStatusEnabled 7 zeroTime zeroTime noMetrics ∅.
Definition emptyDashboard : Server Empty_set Empty_set unit unit :=
  mkServer Dashboard.DefaultConfig None false (Metrics.NewMetricsManager 0) [] (Health.NewHealthChecker 0)
    Certs.NewCertificateManager true (mkWorld ∅ ∅ NewConnectorManager [] tt 0) None.
Definition discardOnly : gmap string (ActionExecutor Empty_set unit) := {["discard" := DiscardActionExecutor]}.

Lemma postedRule_writable : rule_writable int64 (withTimes 5 5 noMetrics postedRule).
Proof.
  split; try reflexivity; try (split; reflexivity); try (unfold int64, datable; cbn; unfold zeroTime, Second; lia).
  - constructor; [|done]. split; [reflexivity|]. vm_compute. repeat split; discriminate.
  - split; [cbn; unfold int64; lia|reflexivity|]. split; intros t; discriminate.
Qed.

Lemma postedBody_decodes : Rule_UnmarshalJSON secondsParse postedBody = Some postedRule.
Proof. reflexivity. Qed.
Lemma postedRule_valid : validateRule discardOnly postedRule = Returns None.
Proof. reflexivity. Qed.

#[local] Instance emptyBridgeConnector : @BridgeConnector intFloat Empty_set := {
  bc_ID c := match c with end; bc_IsConnected c := match c with end; bc_Connect c := match c with end;
  bc_Disconnect c := match c with end; bc_Send _ _ c := match c with end;
}.
#[local] Instance silentBroker : BrokerInterface unit unit := {
  GetConnections _ _ := []; GetSessions _ _ := []; GetSubscriptions _ := []; GetRoutes _ := [];
  DisconnectClient _ b := (None, b); KickoutSession _ b := (None, b);
  GetNodeInfo _ _ := mkNodeInfo "" "" "" "" 0 0 (mkSysMonInfo 0 0 0 0 "" "" "" "");
  GetClusterNodes _ _ := []; GetBlacklistMiddleware _ := None; with_blacklist _ b := b;
}.

(** With the configured credentials. *)
Definition credentials : option (string * string) :=
  Some (D_Username Dashboard.DefaultConfig, D_Password Dashboard.DefaultConfig).

Lemma posted_rule_reads_back_witness :
  ∃ w s', DashboardAPI.serve (P := unit) (ComponentJSON0 := dashboardJSON secondsText secondsParse integerJSON
      integerJSON true false (λ _, None) (λ _, Ok JNull) (λ _, Ok JNull) (λ c : Empty_set, match c with end))
      secondsText (λ _, "") id (mkOSInfo "" "" "" 0 "") integerJSON (mkGlobals 0 "" "") (λ _ _, ("", None)) (λ _, None)
      (λ _, Err "") (λ _, "") (λ _ _, None) (λ _, true) (λ _, 5) discardOnly (λ _, None) (λ w _, w) 6
      (mkRequest "POST" "/api/rules" ∅ (Some postedBody) ∅ credentials []) emptyDashboard = Returns (w, s') ∧
    status w = Some StatusCreated.
Proof.
  destruct (posted_rule_reads_back secondsText secondsParse integerJSON integerJSON true false int64
    integerJSON_exact secondsText_exact (λ _, None) (λ _, Ok JNull) (λ _, Ok JNull) (λ c : Empty_set, match c with end)
    (λ _, 5) discardOnly (λ _, "") id (mkOSInfo "" "" "" 0 "") (mkGlobals 0 "" "") (λ _ _, ("", None)) (λ _, None)
    (λ _, Err "") (λ _, "") (λ _ _, None) (λ _, true) (λ _, None) (λ w _, w)
    (mkRequest "POST" "/api/rules" ∅ (Some postedBody) ∅ credentials [])
    (mkRequest "GET" "/api/rules/r1" ∅ None ∅ credentials []) emptyDashboard postedRule 6 7 8)
    as (w & s' & Hh & Hs & _); [right; right; reflexivity|reflexivity|reflexivity|exact postedBody_decodes|
    discriminate|reflexivity|reflexivity|exact postedRule_valid|exact postedRule_writable|
    right; right; reflexivity|reflexivity|reflexivity|].
  by exists w, s'.
Defined.
End Witness.
