(* ===== verification/Startup.v ===== *)
(** * Startup: the process around the broker (cmd/emqx-go/main.go, pkg/broker, pkg/cluster/client.go)

    [main] reads the configuration, builds the parts of the process and starts their
    goroutines; the accept loops hand connections to the broker; [getConnLock] keeps one lock
    per connection; the gRPC client of a peer.  The theorems: when the process starts and as
    what ([main_started]); the engine that routes messages never gets a rule
    ([broker_engine_has_no_rules]); accepted connections are served once each
    ([accept_loop_serves]); the table of locks ([conn_locks_exact]). *)

From S2P Require Import Prelude GoLib GoValue GoJSON ConnHTTP GoHTTP KVStore Auth Cluster Persistent BrokerState.
From S2P Require Import Connector RuleSQL RuleEngine Integration IntegrationEngine Metrics Health Config Certs Discovery.
From S2P Require Import Admin Dashboard DashboardAPI.
Local Open Scope emqx_scope.
Local Open Scope Z_scope.

(** ** Locks of connections (broker.go)

    A writer is a connection or something else; locks are numbered as they are made. *)
Record connLocks := mkConnLocks { locks : gmap positive nat; made : nat }.

Definition getConnLock (w : option positive) (t : connLocks) : result nat * connLocks :=
  match w with
  | None => (Err "writer is not a net.Conn", t)
  | Some conn =>
      match locks t !! conn with
      | Some lock => (Ok lock, t)
      | None => (Ok (made t), mkConnLocks (<[conn := made t]> (locks t)) (S (made t)))
      end
  end.

(** ** Accept loops (broker.go)

    [Accept] answers a connection or an error; after an error the loop looks whether the
    context is cancelled. *)
Inductive accepted := Accepted (conn : positive) | AcceptError (cancelled : bool).
Inductive listening := Serving | Stopped.

Fixpoint acceptLoop (l : list accepted) : list positive * listening :=
  match l with
  | [] => ([], Serving)
  | Accepted conn :: l' => let '(served, st) := acceptLoop l' in (conn :: served, st)
  | AcceptError true :: _ => ([], Stopped)
  | AcceptError false :: l' => acceptLoop l'
  end.

(** The servers: the goroutine of the loop runs until the context is cancelled. *)
Definition StartServer (listen : string → option string) (addr : string) (l : list accepted)
    : result (list positive * listening) :=
  match listen addr with
  | Some err => Err ("failed to listen on " +:+ addr +:+ ": " +:+ err)%string
  | None => Ok (acceptLoop l)
  end.
Definition StartTLSServer {T} (getConfig : string → result T) (listen : string → T → option string)
    (addr configID : string) (l : list accepted) : result (list positive * listening) :=
  match getConfig configID with
  | Err err => Err ("failed to get TLS config '" +:+ configID +:+ "': " +:+ err)%string
  | Ok config =>
      match listen addr config with
      | Some err => Err ("failed to listen on TLS " +:+ addr +:+ ": " +:+ err)%string
      | None => Ok (acceptLoop l)
      end
  end.

(** ** The client of a peer (client.go)

    [conn] is the connection, open or closed; a call without a connection goes through a
    nil interface. *)
Record PeerClient := mkPeerClient { PC_NodeID : string; PC_conn : option (string * bool) }.

Definition NewClient (nodeID : string) : PeerClient := mkPeerClient nodeID None.
Definition Connect (dial : string → option string) (c : PeerClient) (targetAddress : string)
    : option string * PeerClient :=
  match dial targetAddress with
  | Some err => (Some err, c)
  | None => (None, mkPeerClient (PC_NodeID c) (Some (targetAddress, true)))
  end.
Definition Client_Close (c : PeerClient) : PeerClient :=
  match PC_conn c with
  | Some (a, _) => mkPeerClient (PC_NodeID c) (Some (a, false))
  | None => c
  end.
(** [Join], [BatchUpdateRoutes] and [ForwardPublish]: [call] is the remote procedure. *)
Definition remoteCall {Req Resp} (call : string → bool → Req → result Resp) (c : PeerClient) (req : Req)
    : outcome (result Resp) :=
  match PC_conn c with
  | Some (a, open) => Returns (call a open req)
  | None => Panics
  end.

(** ** The process (main.go) *)

Inductive startTask :=
  | ServeMQTT (addr : string) | ServeGRPC (addr : string) | ServeMetrics (addr : string)
  | ServeDashboard (addr : string) | Discover | ConnectPeers (peerNodes : string).

Section Process.
Context `{GoFloat} `{GoUnicode} `{JSONText} `{ConfigText}.
Context {C K P S Data R : Type} `{!Connector C} `{!BridgeConnector K} `{!ComponentJSON K}
  `{KVStore S Data, SessionCodec Data}.
Abbreviation Bk := (BrokerState.Broker S R).

(** The admin interface of the dashboard points to the broker.  The broker has a rule engine
    of its own ([p_rules]), made by [broker.New]. *)
Record Process := mkProcess {
  p_dashboard : Server C K P Bk;
  p_rules : World C unit;
  p_tasks : list startTask;
}.

Inductive exit := Fatal (msg : string) | Generated (fs : gmap string (list byte)) | Started (p : Process).

Context (getenv : string → string) (hostname : string).
Context (readError : string → string) (writeError listenError : string → option string).
Context (sha256_hex : string → string) (bcrypt_generate : string → option string)
  (bcrypt_compare : string → string → bool).
Context (templates : Dashboard.Config → option string) (mm : MetricsManager) (store : S).
(** The connectors that [CreateDefaultConnectorManager] makes for the broker. *)
Context (brokerConnectors : ConnectorManager C).

Definition nodeName (cfg : Config.Config) : string :=
  if Config.NodeID (Config.Broker cfg) =s "" then (if hostname =s "" then "local-node" else hostname)
  else Config.NodeID (Config.Broker cfg).

(** [rules.NewRuleEngine]. *)
Definition NewRuleEngine (cm : ConnectorManager C) : World C unit := mkWorld ∅ ∅ cm [] tt 0.

Definition dashboardConfig (cfg : Config.Config) : Dashboard.Config :=
  let d := Dashboard.DefaultConfig in
  Dashboard.mkConfig (D_Address d) (dashboardPort cfg) (D_Username d) (D_Password d) (D_EnableAuth d)
    (D_StaticDir d) (D_TemplateDir d).

(** The goroutines that [main] starts. *)
Definition startTasks (cfg : Config.Config) (addr : string) : list startTask :=
  [ServeMQTT (MQTTPort (Config.Broker cfg)); ServeGRPC (GRPCPort (Config.Broker cfg));
   ServeMetrics (MetricsPort (Config.Broker cfg)); ServeDashboard addr; Discover] ++
  (if getenv "PEER_NODES" <>s "" then [ConnectPeers (getenv "PEER_NODES")] else []).

Definition main (configPath generateConfig : string) (fs : gmap string (list byte)) (now : Time) : exit :=
  if generateConfig <>s "" then
    match SaveConfig writeError fs Config.DefaultConfig generateConfig with
    | (Some err, _) => Fatal ("Failed to generate config file: " +:+ err)
    | (None, fs) => Generated fs
    end
  else
    match LoadConfig readError fs configPath with
    | Err err => Fatal ("Failed to load configuration: " +:+ err)
    | Ok cfg =>
        let cfg := overrideEnv getenv cfg in
        let nodeID := nodeName cfg in
        let clusterMgr := NewManager nodeID ("localhost" +:+ GRPCPort (Config.Broker cfg)) in
        let b := BrokerState.New (R := R) nodeID (Some clusterMgr) store now in
        match ConfigureAuth sha256_hex bcrypt_generate bcrypt_compare cfg (authChain b) with
        | (Some err, _) => Fatal ("Failed to configure authentication: " +:+ err)
        | (None, chain) =>
            let b := set_authChain chain b in
            match Dashboard.NewServer (P := P) (Some (dashboardConfig cfg)) templates (Some b) mm []
                    (NewHealthChecker now) NewCertificateManager true (NewRuleEngine NewConnectorManager)
                    (Some NewDataIntegrationEngine) with
            | Err err => Fatal ("Failed to create dashboard server: " +:+ err)
            | Ok dashboardServer =>
                match listenError (GRPCPort (Config.Broker cfg)) with
                | Some err => Fatal ("Failed to listen for gRPC: " +:+ err)
                | None => Started (mkProcess dashboardServer (NewRuleEngine brokerConnectors)
                            (startTasks cfg (GetListenAddress dashboardServer)))
                end
            end
        end
    end%string.

(** [Broker.Close]: connectors, rule engine (whose [Close] only cancels its context),
    integration engine and sessions are closed in turn; their errors are logged. *)
Definition Broker_Close (now : Time) (cm : ConnectorManager C) (die : DataIntegrationEngine P K) (b : Bk)
    : outcome (ConnectorManager C * DataIntegrationEngine P K * Bk) :=
  let! cm := ManagerClose now cm in
  Returns (cm, IntegrationEngine.Close die, set_psm (Persistent.Close (persistentSessionMgr b)) b).

(** [Broker.SetRuleEngine]: the engine with the broker's callback among its executors. *)
Definition SetRuleEngine {W} (callback : Callback C W) (engine : World C W * gmap string (ActionExecutor C W))
    : World C W * gmap string (ActionExecutor C W) :=
  (engine.1, SetRepublishCallback callback engine.2).

(** *** A running process

    A request to the dashboard, any operation of the broker, and the broker's rule engine at
    work on a message. *)
Context (formatRFC3339 formatDateTime : Time → string) (Title : string → string).
Context (osInfo : OSInfo) (jsonFloat : float64 → result json) (gl : Globals).
Context (execTemplate : string → list (string * tval) → string * option string).
Context (pemDecode : string → option (list byte)) (ParseCertificate : list byte → result X509Cert)
  (sha256_hex_of : list byte → string) (keyPairError : string → string → option string)
  (appendCerts : string → bool) (Compile : string → option R).
Context (Unmarshal : list byte → result any) (MatchString : string → string → result bool)
  (newRequest : string → string → option string)
  (httpDo : Time → HTTPRequest → Time * result (Z * string)) (CanonicalHeaderKey : string → string)
  (clock : nat → Time) (actions : gmap string (ActionExecutor C unit)).
Context (staticFile : ResponseWriter → Request → ResponseWriter).

Abbreviation dashboardServe := (DashboardAPI.serve formatRFC3339 formatDateTime Title osInfo jsonFloat gl
  execTemplate pemDecode ParseCertificate sha256_hex_of keyPairError appendCerts clock actions Compile staticFile).
Abbreviation engineProcess := (RuleEngine.ProcessMessage Unmarshal MatchString formatRFC3339 newRequest httpDo
  CanonicalHeaderKey clock actions).

Inductive process_step : Process → Process → Prop :=
  | PS_request now r p w s' :
      dashboardServe now r (p_dashboard p) = Returns (w, s') →
      process_step p (mkProcess s' (p_rules p) (p_tasks p))
  | PS_broker p b mux mm' ps :
      process_step p (mkProcess (set_dadmin (Some b) mux mm' ps (p_dashboard p)) (p_rules p) (p_tasks p))
  | PS_message ctx p err wd :
      engineProcess ctx (p_rules p) = Returns (err, wd) →
      process_step p (mkProcess (p_dashboard p) wd (p_tasks p)).

(** ** Theorems *)

Lemma no_rules_no_work ctx wd : RuleEngine.rules wd = ∅ → engineProcess ctx wd = Returns (None, wd).
Proof.
  intros Hr. unfold RuleEngine.ProcessMessage, gets, mbind, RM_bind. simpl. unfold enabledRules.
  by rewrite Hr, map_to_list_empty.
Qed.

Lemma main_Started configPath generateConfig fs now p :
  main configPath generateConfig fs now = Started p →
  generateConfig = "" ∧ ∃ cfg0 chain, LoadConfig readError fs configPath = Ok cfg0 ∧
    let cfg := overrideEnv getenv cfg0 in
    let b := BrokerState.New (R := R) (nodeName cfg)
      (Some (NewManager (nodeName cfg) ("localhost" +:+ GRPCPort (Config.Broker cfg))%string)) store now in
    ConfigureAuth sha256_hex bcrypt_generate bcrypt_compare cfg (authChain b) = (None, chain) ∧
    d_adminAPI (p_dashboard p) = Some (set_authChain chain b) ∧
    d_config (p_dashboard p) = dashboardConfig cfg ∧
    d_world (p_dashboard p) = NewRuleEngine NewConnectorManager ∧
    p_rules p = NewRuleEngine brokerConnectors.
Proof.
  unfold main, NewServer. case_bool_decide as Hg; simpl.
  - subst. destruct (LoadConfig readError fs configPath) as [cfg0|err] eqn:Hl; [|done].
    destruct (ConfigureAuth _ _ _ _ _) as [[err|] chain] eqn:Hc; [done|].
    destruct (templates _); [done|]. destruct (listenError _); [done|]. intros [= <-].
    split; [done|]. by exists cfg0, chain.
  - by destruct (SaveConfig _ _ _ _) as [[]].
Qed.

(** The process that [main] starts has a broker whose name is not empty - NODE_ID, else the
    configured name, else the host's, else a constant - that knows itself under that name in the
    cluster, that keeps the configured authentication, and that the dashboard's admin
    interface points to; the dashboard listens on every interface and asks for credentials. *)
Theorem main_started configPath generateConfig fs now p :
  main configPath generateConfig fs now = Started p →
  ∃ b m cfg, d_adminAPI (p_dashboard p) = Some b ∧ cluster b = Some m ∧
    LoadConfig readError fs configPath = Ok cfg ∧
    nodeID b ≠ "" ∧ Cluster.NodeID m = nodeID b ∧
    nodeID b = (if getenv "NODE_ID" <>s "" then getenv "NODE_ID"
                else if Config.NodeID (Config.Broker cfg) <>s "" then Config.NodeID (Config.Broker cfg)
                else if hostname <>s "" then hostname else "local-node") ∧
    chain_enabled (authChain b) = A_Enabled (B_Auth (Config.Broker cfg)) ∧
    D_EnableAuth (d_config (p_dashboard p)) = true ∧ D_Address (d_config (p_dashboard p)) = "0.0.0.0" ∧
    sessions b = NewMemStore ∧ topics b = TopicStore.NewStore.
Proof.
  intros (_ & cfg & chain & Hl & Hc & Hb & Hd & _)%main_Started.
  eexists _, _, cfg. split; [exact Hb|]. split; [reflexivity|]. split; [exact Hl|].
  assert (nodeName (overrideEnv getenv cfg) ≠ "") as Hne.
  { unfold nodeName. by repeat case_bool_decide. }
  split; [exact Hne|]. split; [reflexivity|]. split.
  - simpl. unfold nodeName, overrideEnv. simpl. repeat case_bool_decide; simpl in *; congruence.
  - rewrite Hd. split; [|done]. simpl in Hc |- *. revert Hc. unfold ConfigureAuth.
    destruct (A_Enabled (B_Auth (Config.Broker (overrideEnv getenv cfg)))) eqn:He; simpl.
    + destruct (foldl _ _ _) as [[]]; intros [= <-]. simpl in He. by rewrite He.
    + intros [= <-]. simpl in He. by rewrite He.
Qed.

(** The engine that routes messages never gets a rule: the dashboard has an engine of its own,
    so that in every state that a started process reaches - whatever is requested of the
    dashboard and whatever the broker does - a message that the broker gives its rule engine
    runs no action and changes nothing. *)
Theorem broker_engine_has_no_rules configPath generateConfig fs now p0 p ctx :
  main configPath generateConfig fs now = Started p0 → rtc process_step p0 p →
  RuleEngine.rules (p_rules p) = ∅ ∧ engineProcess ctx (p_rules p) = Returns (None, p_rules p).
Proof.
  intros (_ & cfg & chain & _ & _ & _ & _ & _ & Hr)%main_Started Hsteps.
  assert (RuleEngine.rules (p_rules p0) = ∅) as Hinv by (by rewrite Hr). clear Hr.
  enough (RuleEngine.rules (p_rules p) = ∅) by (split; [done|]; by apply no_rules_no_work).
  induction Hsteps as [p|p p1 p2 Hstep _ IH]; [done|]. apply IH.
  destruct Hstep as [now' r p w s' _|p b mux mm' ps|ctx' p err wd Hm]; simpl; [done|done|].
  rewrite no_rules_no_work in Hm by done. by injection Hm as _ <-.
Qed.
End Process.

(** Accepted connections: every connection is served once, in the order of acceptance, an
    error before the cancellation loses none, and the loop stops at the first error after it. *)
Theorem accept_loop_serves l :
  ∃ before after, l = before ++ after ∧
    acceptLoop l = (omap (λ a, match a with Accepted c => Some c | _ => None end) before,
                    match after with [] => Serving | _ => Stopped end) ∧
    AcceptError true ∉ before ∧ (after = [] ∨ head after = Some (AcceptError true)).
Proof.
  induction l as [|a l (before & after & -> & Hl & Hb & Ha)].
  { exists [], []. split_and!; [done|done|by intros ?%elem_of_nil|by left]. }
  destruct a as [c|[]].
  - exists (Accepted c :: before), after. simpl. rewrite Hl. split_and!; [done|done| |done].
    by intros [?|?]%elem_of_cons.
  - exists [], (AcceptError true :: before ++ after). split_and!; [done|done|by intros ?%elem_of_nil|by right].
  - exists (AcceptError false :: before), after. simpl. rewrite Hl. split_and!; [done|done| |done].
    by intros [?|?]%elem_of_cons.
Qed.

(** The locks after a sequence of writes to connections: each connection that was written to
    has a lock, two connections have different ones, and a connection keeps its lock in
    whatever comes later.  No entry is ever removed: the table grows with every connection. *)
Definition writeAll (l : list positive) (t : connLocks) : connLocks :=
  foldl (λ t c, (getConnLock (Some c) t).2) t l.
Definition noLocks : connLocks := mkConnLocks ∅ 0.

Record locks_wf (t : connLocks) : Prop := {
  lw_below c n : locks t !! c = Some n → (n < made t)%nat;
  lw_inj c1 c2 n : locks t !! c1 = Some n → locks t !! c2 = Some n → c1 = c2;
}.

Lemma getConnLock_step c t :
  locks_wf t → let t' := (getConnLock (Some c) t).2 in
  locks_wf t' ∧ dom (locks t') = {[c]} ∪ dom (locks t) ∧ locks t ⊆ locks t'.
Proof.
  intros [Hb Hi]. unfold getConnLock. destruct (locks t !! c) as [n|] eqn:E; simpl.
  - split_and!; [done| |done]. apply elem_of_dom_2 in E. set_solver.
  - split_and!; [|by rewrite dom_insert_L|by apply insert_subseteq]. split; simpl.
    + intros c' n. rewrite lookup_insert_Some. intros [[_ <-]|[_ Hn%Hb]]; lia.
    + intros c1 c2 n. rewrite !lookup_insert_Some.
      intros [[<- <-]|[? H1]] [[<- Hn]|[? H2]]; [done| | |by eapply Hi].
      * apply Hb in H2. lia.
      * apply Hb in H1. lia.
Qed.

Lemma writeAll_wf l : ∀ t, locks_wf t →
  locks_wf (writeAll l t) ∧ dom (locks (writeAll l t)) = list_to_set l ∪ dom (locks t) ∧
  locks t ⊆ locks (writeAll l t).
Proof.
  induction l as [|c l IH]; intros t Ht; [simpl; split_and!; [done|set_solver|done]|].
  change (writeAll (c :: l) t) with (writeAll l (getConnLock (Some c) t).2).
  destruct (getConnLock_step c t Ht) as (Hw & Hd & Hs). destruct (IH _ Hw) as (Hw' & Hd' & Hs').
  split_and!; [done| |by etrans]. rewrite Hd', Hd. set_solver.
Qed.

Theorem conn_locks_exact l1 l2 :
  let t1 := writeAll l1 noLocks in let t2 := writeAll (l1 ++ l2) noLocks in
  dom (locks t2) = list_to_set (l1 ++ l2) ∧ locks t1 ⊆ locks t2 ∧
  (∀ c1 c2 n, locks t2 !! c1 = Some n → locks t2 !! c2 = Some n → c1 = c2) ∧
  (∀ c, c ∈ l1 → ∃ n, (getConnLock (Some c) t1).1 = Ok n ∧ (getConnLock (Some c) t2).1 = Ok n).
Proof.
  intros t1 t2. assert (locks_wf noLocks) as H0 by (split; simpl; intros *; by rewrite lookup_empty).
  destruct (writeAll_wf l1 noLocks H0) as (Hw1 & Hd1 & _).
  assert (t2 = writeAll l2 t1) as Ht2 by (unfold t2, t1, writeAll; by rewrite foldl_app).
  destruct (writeAll_wf l2 t1 Hw1) as (Hw2 & Hd2 & Hs). rewrite <-Ht2 in *.
  split_and!; [|done|apply lw_inj, Hw2|].
  - rewrite Hd2. fold t1 in Hd1. rewrite Hd1. simpl. set_solver.
  - intros c Hc. assert (is_Some (locks t1 !! c)) as [n Hn].
    { apply elem_of_dom. fold t1 in Hd1. rewrite Hd1. set_solver. }
    exists n. pose proof (lookup_weaken _ _ _ _ Hn Hs) as Hn2. unfold getConnLock. by rewrite Hn, Hn2.
Qed.
